(* ===== verification/_CoqProject ===== *)
-Q . S2P
Prelude.v
Bits.v
Queue.v
Qfam.v
Mem.v
Mpool.v
Kstate.v
Tlsf.v
Syslog.v
Sched.v
Timeout.v
Dispatch.v
Kinv.v
Blind.v
Ktime.v
Waitobj.v
Task.v
Semaphore.v
Event.v
Mailbox.v
Mempool.v
Kernel.v
Setup.v
TlsfMap.v
TlsfFree.v
TlsfHeap.v
TlsfAlloc.v
TlsfMalloc.v
TlsfRealloc.v
TlsfPool.v
TlsfUse.v
KernelHeap.v
Boot.v
Ints.v
Guarantees.v
GuaranteesObj.v
GuaranteesLib.v
GuaranteesTlsf.v
Divergences.v
Bytes.v
Cstring.v
Cstdlib.v
Printf.v
PrintfSim.v
Heap.v
Region.v
GuaranteesLibc.v
Sysmem.v
GuaranteesMmu.v
CanService.v
Elf.v
Flash.v
Smc911x.v
Logger.v
Tring.v
TringChain.v
TringRx.v
TringDone.v
Ulibc.v
NetInit.v
SysArch.v
GuaranteesNet.v
GuaranteesEth.v
GuaranteesDev.v
