(* ===== verification/Prelude.v ===== *)
(** * ObelISK: a verification library for the ITRON kernel

    ObelISK is a real-time kernel with the uITRON interface for the Blackfin, a
    32-bit processor. This library translates the kernel, its C library, the
    memory protection and interrupt handling of the processor, the CAN service,
    the flash driver, the loader of the boot loader, the user library, the
    Ethernet driver and the operating system layer of the network stack to Rocq
    and proves what they promise.

    ** The program and its parts

    The sources are under src/obelisk/core. A task enters the kernel by a
    system call (blackfin/syscall_tab.S): the call checks its parameters, masks
    the interrupts, works on the objects and the queues of the kernel, unmasks
    them, and calls the scheduler where the running task may have changed. A
    task that blocks gives up the processor inside its call and finishes the
    call when it is scheduled again. The timer interrupt advances the time and
    wakes sleeping tasks. All objects (tasks, semaphores, eventflags, mailboxes,
    memory pools) are in static arrays with a bitmap of the slots in use, and
    they are linked in intrusive lists. Stacks, messages and pools come from two
    allocators: pools of blocks of one size, and TLSF. The exception handler maps
    pages in the lookaside buffers of the processor from a table of regions, and
    interrupts go through a table of handlers that a system call changes.
    Beside the kernel, drivers/can has the network service of a CAN node,
    drivers/flash programs the flash memory, drivers/lwip/contrib puts the
    network stack lwIP on the kernel and drives the Ethernet chip, from which
    frames come by DMA, and user has the library of user programs,
    the boot loader, which loads an ELF image from flash, and the program that
    packs the flash image.

    ** Files

    Libraries of the kernel (core/include, core/libc):
    - [Prelude]: machine integers with their wrap-around, the state monad with
      faults, total ([wp]) and partial ([wlp]) correctness.
    - [Bits]: bitop.h and bitmap.h. [Queue]: linked_list.h and queue.h on a
      store of nodes. [Qfam]: families of queues that share their nodes.
    - [Mem]: raw word memory. [Mpool]: mpool.c.
    - [Tlsf]: tlsf.c, every function over raw memory. [TlsfMap]: its bit
      searches and size classes. [TlsfFree]: the free lists and their bitmaps.
      [TlsfHeap]: the blocks of a pool, one behind the other, and the invariant
      [heap_ok] of blocks and free lists. [TlsfAlloc]: free_ex. [TlsfMalloc]:
      malloc_ex. [TlsfRealloc]: realloc_ex. [TlsfPool]: init_memory_pool.
      [TlsfUse]: a pool used by its owner, with calloc_ex.

    The kernel (core/kernel/port):
    - [Kstate]: the constants and structures of the headers, the globals of all
      files as one record [kstate], with a field for the globals of each file.
    - [Syslog]: syslog.c. [Sched]: the ready queue, the timeout queue and the
      scheduler of sched.c. [Timeout], [Dispatch]: their correctness.
    - [Kinv]: the invariant [kinv s R W T]: in state [s] the ready queues are
      [R], the wait queues [W] and the sleeping tasks [T]. [Blind]: code that does
      not look at the switch of the dispatcher.
    - [Ktime]: time.c and the timer interrupt. [Waitobj]: the interface
      [WaitPool] of an array of objects with wait queues, its laws [WaitPoolOk],
      and the statements the objects share, verified against the laws.
    - [Task], [Semaphore], [Event], [Mailbox], [Mempool]: the files of the same
      name; the last four are instances of [WaitPool]. Each has the system
      calls ([name_sys] for the C function [name]), whole, and where the object
      has a contract the abstract operations ([a_name]).
    - [Kernel]: the system call table as [exec], the end of a blocked call as
      [resume], and the machine as a step relation. [Setup]: setup.c.
    - [KernelHeap]: the calls that allocate (cre_tsk, acre_tsk, get_mpl and
      rel_mpl) return on pools in order.
    - [Boot]: a memory map and states of a system, at which the theorems are
      evaluated.

    The processor (core/kernel/blackfin):
    - [Ints]: ints.c, the mask macros and the common body of the interrupts; the
      class [IsrOk] is what the kernel asks of the code of the handlers.
    - [Sysmem]: sysmem.c on the registers of the lookaside buffers, with the
      table of memtab.S and the symbols of the linker script.

    The C library (core/libc):
    - [Bytes]: byte memory. [Cstring]: string.c. [Cstdlib]: ctype.h, stdlib.c
      and the number conversions of stdarg.c. [Printf]: the formatted output of
      stdarg.c and vsprintf.c. [PrintfSim]: output to a buffer refines output.
    - [Heap]: heap.c. [Region]: region.c.

    Programs beside the kernel:
    - [CanService]: drivers/can/KertrolTinyMWNetworkService.c, the ring of
      messages and the interrupt.
    - [Elf]: the loader of user/bootloader/src/bloader.c and the copy of the
      sections in user/packer/packer.c.
    - [Flash]: drivers/flash/isflash.c, on a chip of the class [FlashChip].
    - [Ulibc]: the wrappers of user/ulibc/libc, the exception they raise
      ([_system_call] of blackfin/entry.S) and the table blackfin/syscall_tab.S.
    - [SysArch]: drivers/lwip/contrib/src/sys_arch.c, a client of the kernel whose
      functions can lose the processor inside a system call ([pres]).
    - [NetInit]: the parsing of addresses in lwip_init.c.
    - [Smc911x]: smc9218.c and lwip_log.c, on a chip of the class [Nic]. [Tring]:
      the reception of frames (eth_rx, tring_int_handler, transport.h).
      [TringChain]: chains of DMA descriptors and the blocks of a pool.
      [TringRx], [TringDone]: the correctness of reception and of its end.
    - [Logger]: the order of the entries in user/ulibc/libc/logger.c.

    The theorems: [Guarantees] (the system, scheduling, time, tasks),
    [GuaranteesObj] (semaphores, eventflags, mailboxes, pools), [GuaranteesLib]
    (queues, bitmaps, pools), [GuaranteesTlsf] (the allocator and the pools of
    the tasks), [GuaranteesMmu] (memory protection), [GuaranteesDev]
    (interrupts, CAN, ELF, flash), [GuaranteesNet] (user library, network),
    [GuaranteesEth] (Ethernet), [GuaranteesLibc], and [Divergences] (where the
    code does not do what its comments or the interface say).

    ** How the code is modelled

    A C function is a function of the monad [M]: from the state before to its
    value and the state after, or a fault. A fault is a NULL or misaligned
    dereference, an index out of an array, or an access to bytes that are not
    mapped. A [w]-bit integer is a [Z] and every operation that can leave its
    width is wrapped where the code does it. Nodes of lists are addressed by the
    structure and the field they lie in, so that a task, a semaphore or a
    message is linked, not copied. A system call has the result [Done] of its
    value, or [Cont]: the task has left the processor and the rest of the call
    runs when it is resumed. In [Sysmem] the end of a function is an [outcome],
    which tells a stop in kernel_panic from an endless loop and from an index
    out of range.

    Code that is not in the repository is a parameter: the services of the CAN
    node, the code of interrupt handlers, the hooks of start-up; and so is the
    flash chip, with its documented behaviour as the class [FlashChipOk], the
    Ethernet chip with [NicOk], pbuf_alloc of lwIP, and the entries of the system
    call table outside of the kernel ([ext]). Four values that
    the language leaves open are parameters too: what a function without a
    return statement hands to its caller ([left_behind] in [Sysmem] and
    [SysArch]), what an uninitialized array holds ([datos0] in [CanService]), the
    thread of a log without switches ([Logger]), and where local variables whose
    address is taken lie (in [SysArch]).

    Interrupts are modelled where the kernel unmasks them: between system
    calls. The masked sections are the bodies of the system calls; the parameter
    checks before them only read what the call itself or constants determine.

    ** Fuel

    Loops that follow pointers recurse on fuel and fault without it; the total
    correctness theorems ([wp]) therefore also show that the fuel is enough. A
    walk of a queue of tasks has one unit more than there are tasks ([tq_fuel]),
    a walk of messages one more than the message pool has ([msg_fuel]), a loop
    over a string one more than there are mapped bytes ([byte_fuel]), since no
    string is longer than the memory it lies in; a loop of heap.c has the number
    of elements, since each step moves down or up the tree. The list of the
    areas of a TLSF pool is walked with one unit more than there are words of
    memory ([area_fuel]). The binary search of [Sysmem] has 33 rounds, which are
    enough for 2^31 regions; the pages of a region have one round each and 16
    more, since the panic comes at the fifteenth entry ([page_fuel]); the section
    headers of an image are counted with 16 bits ([shnum_fuel]); a poll of the
    flash chip has as many rounds as its timeout ([poll_fuel]); the list of
    threads of the network has two units more than there are words of memory
    ([thread_fuel]), since all wrappers but the last store a pointer, and so
    have the lists of descriptors and pbufs ([chain_fuel]). The waits for the
    Ethernet chip have as many rounds as a command takes at most ([busy_bound]),
    and the loop of eth_rx one more than there are descriptors.

    ** What the theorems show

    - System: start-up, whatever tasks the network stack has made ready, ends in the
      invariant with the main task behind the tasks of its priority; the invariant
      holds in every state that is reachable from there by system calls,
      ends of calls and timer interrupts, and calls in these states return.
      [covered] in [Kernel] lists the calls with their restrictions; it leaves out
      [rel_wai], which breaks the queues, waits with a timeout on an object, which
      leave the task in two queues, and the mailboxes, which need the invariant of
      the message pool and are verified call by call.
    - Scheduling and time: the scheduler selects the first task of the highest
      priority; sleeping tasks wake at their time, in order, and no others.
    - Objects: each call refines the operation of the abstract object on all its
      branches. set_flg with TA_WMUL releases one task where the comments and the
      interface say all: it refines the abstract eventflag that releases all of
      them as long as no more than one is to be released, and otherwise the one
      that releases the first.
    - Libraries: queues are FIFO, bitmaps allocate the lowest free index, pools
      give out their blocks once.
    - TLSF: from initialization on, any use of a pool by its owner keeps the
      blocks in use apart and their contents as they were; allocation takes a
      block that is big enough whenever the class searched has one, release
      merges the neighbours, resizing keeps the bytes that fit, cleared blocks
      are zero, and all of them return.
    - Memory protection: the search for a region terminates and is right on
      ordered tables (up to the address behind a region, which the code accepts),
      start-up maps the locked pages or panics, and misses never displace the
      locked pages or the pages of the same instruction, whatever the functions
      without a return statement leave behind as flags.
    - Interrupts: def_inh makes its handler the one that is called, and the
      common body keeps the invariant of the kernel when the handler does.
    - CAN: the ring is a bounded queue, and the interrupt runs exactly the
      service that the identifier of a message asks of this node, and queues its
      answer. ELF: a loaded image has its sections where they belong.
      Flash: a buffer that is programmed reads back, or the error tells why not,
      for chips that answer in the window of addresses which the driver uses.
    - User library: for every function of the library, which entry of the kernel
      it reaches and with which arguments, those that are lost included; and for
      any content of the registers, which entry the exception calls, or that it
      refuses the number.
    - Network: waiting for semaphores and mailboxes refines those of the kernel
      and returns the time that passed, also for a thread that had to wait; the
      parser of addresses follows its reference.
    - Ethernet: the chip and the driver agree on the address; a packet that is
      sent is the frame that the chip gets; the descriptors of a received frame
      make the DMA controller fill its buffers in order; the end of the transfer
      gives the buffers to lwIP and everything else back, provided that the lists
      of descriptors end, which eth_rx does not see to.
    - C library: conversions of numbers are inverse to each other, formatted
      output is cut to its buffer and otherwise complete, the string functions
      equal their specification, heaps sort, regions do not overlap.

    ** Not modelled

    The assembly (context switch, start code, saving of registers) and what only
    programs registers (timers, DMA, GPIO, the set-up of the CAN controller and
    the UART, low_level_init of the Ethernet driver): a context switch is its
    effect on [current_task], and the start of a DMA transfer is recorded as a
    call. device.c, tbitmap.c, dma.c, hplib.c and transport.c do not compile and
    dispatcher.k is not built; boot_main of the boot loader uses a variable that
    is declared nowhere. The packer reads and writes files, the uploader and the
    console talk to the network, the log reader prints. The drivers of the camera
    and of the CAN controller are written for device.c and use functions and
    macros that are declared nowhere; lwIP itself and the configuration tools are
    third-party code. The board-specific initialization, the initcalls and
    the start of lwIP in [start_kernel] are arguments ([hooks]): the drivers leave
    the data of the kernel alone ([quiet_drivers]); init_lwip_stack, which calls
    lwIP and through it creates tasks and objects before the first dispatch, may do
    whatever keeps the invariant ([orderly]), and the creation and activation of a
    thread is shown to be such ([net_thread] in [Boot]). [isinf], [isnan] and [cpu_usage] are on floats. *)

From Stdlib Require Import ZArith Lia.
From stdpp Require Import base tactics gmap option list.

Open Scope Z_scope.

(** ** Machine integers

    The kernel is compiled for the 32-bit Blackfin: [int], [long] and pointers
    have 32 bits, [long long] has 64. A [w]-bit integer is a [Z]; a conversion
    wraps it to its type. *)

Definition wrapu (w z : Z) : Z := z mod 2 ^ w.

Definition wraps (w z : Z) : Z := (z + 2 ^ (w - 1)) mod 2 ^ w - 2 ^ (w - 1).

Definition u32 : Z -> Z := wrapu 32.

Definition i32 : Z -> Z := wraps 32.

Definition u64 : Z -> Z := wrapu 64.

Definition i64 : Z -> Z := wraps 64.

Definition u16 : Z -> Z := wrapu 16.

Definition i16 : Z -> Z := wraps 16.

(** C truth of an integer expression. *)
Definition nz (z : Z) : bool := negb (z =? 0).

(** ** A state monad with faults

    A routine of the kernel is a function from the state before to its value
    and the state after; [None] is a fault: a NULL or misaligned dereference
    or an array index out of range. *)

Definition M (S A : Type) : Type := S -> option (A * S).

Definition ret {S A} (a : A) : M S A := fun s => Some (a, s).

Definition bind {S A B} (m : M S A) (k : A -> M S B) : M S B :=
  fun s => match m s with Some (a, s') => k a s' | None => None end.

Definition fault {S A} : M S A := fun _ => None.

Definition gets {S A} (f : S -> A) : M S A := fun s => Some (f s, s).

Definition modify {S} (f : S -> S) : M S unit := fun s => Some (tt, f s).

(** Dereference a pointer that may be NULL, or an array cell that may be out
    of range. *)
Definition deref {S A} (o : option A) : M S A :=
  match o with Some a => ret a | None => fault end.

(** Run a routine on a component of the state. *)
Definition zoom {S T A} (get : S -> T) (put : T -> S -> S) (m : M T A) : M S A :=
  fun s => match m (get s) with
           | Some (a, t) => Some (a, put t s)
           | None => None
           end.

(** [when c m] is [if (c) m]. *)
Definition when {S} (c : bool) (m : M S unit) : M S unit :=
  if c then m else ret tt.

Declare Scope kernel_scope.
Delimit Scope kernel_scope with K.

Notation "'let*' x := m 'in' k" := (bind m (fun x => k))
  (at level 10, x name, m at level 100, k at level 200) : kernel_scope.

Notation "'let*' ' p := m 'in' k" := (bind m (fun x => match x with p => k end))
  (at level 10, p strict pattern, m at level 100, k at level 200) : kernel_scope.

Notation "m ;;; k" := (bind m (fun _ => k))
  (at level 100, k at level 200, right associativity) : kernel_scope.

(** ** Total and partial correctness of a routine *)

(** [wp m Q s]: [m] does not fault from [s], and its value and final state
    satisfy [Q]. *)
Definition wp {S A} (m : M S A) (Q : A -> S -> Prop) (s : S) : Prop :=
  match m s with Some (a, s') => Q a s' | None => False end.

(** [wlp m Q s]: if [m] returns from [s], [Q] holds. *)
Definition wlp {S A} (m : M S A) (Q : A -> S -> Prop) (s : S) : Prop :=
  match m s with Some (a, s') => Q a s' | None => True end.

Section monad.
Context {S : Type}.
Implicit Types s : S.

Lemma wp_ret {A} (a : A) (Q : A -> S -> Prop) s : Q a s -> wp (ret a) Q s.
Proof. done. Qed.

Lemma wp_bind {A B} (m : M S A) (k : A -> M S B) Q s :
  wp m (fun a s' => wp (k a) Q s') s -> wp (bind m k) Q s.
Proof. unfold wp, bind. by destruct (m s) as [[a s']|]. Qed.

Lemma wp_gets {A} (f : S -> A) (Q : A -> S -> Prop) s :
  Q (f s) s -> wp (gets f) Q s.
Proof. done. Qed.

Lemma wp_modify (f : S -> S) (Q : unit -> S -> Prop) s :
  Q tt (f s) -> wp (modify f) Q s.
Proof. done. Qed.

Lemma wp_deref {A} (o : option A) a (Q : A -> S -> Prop) s :
  o = Some a -> Q a s -> wp (deref o) Q s.
Proof. by intros ->. Qed.

Lemma wp_mono {A} (m : M S A) (Q Q' : A -> S -> Prop) s :
  wp m Q s -> (forall a s', Q a s' -> Q' a s') -> wp m Q' s.
Proof. unfold wp. destruct (m s) as [[a s']|]; naive_solver. Qed.

Lemma wp_if {A} (b : bool) (m1 m2 : M S A) Q s :
  (b = true -> wp m1 Q s) -> (b = false -> wp m2 Q s) ->
  wp (if b then m1 else m2) Q s.
Proof. destruct b; auto. Qed.

Lemma wp_returns {A} (m : M S A) Q s :
  wp m Q s -> exists a s', m s = Some (a, s') /\ Q a s'.
Proof. unfold wp. destruct (m s) as [[a s']|]; naive_solver. Qed.

Lemma wp_intro {A} (m : M S A) (Q : A -> S -> Prop) s a s' :
  m s = Some (a, s') -> Q a s' -> wp m Q s.
Proof. unfold wp. by intros ->. Qed.

Lemma wp_elim {A} (m : M S A) Q s a s' :
  wp m Q s -> m s = Some (a, s') -> Q a s'.
Proof. unfold wp. intros H E. by rewrite E in H. Qed.

(** Statements associate. *)
Lemma wp_seq {A B C} (m1 : M S A) (m2 : M S B) (k : M S C) Q s :
  wp (bind m1 (fun _ => m2)) (fun _ s' => wp k Q s') s ->
  wp (bind m1 (fun _ => bind m2 (fun _ => k))) Q s.
Proof. unfold wp, bind. destruct (m1 s) as [[a s1]|]; [|done]. by destruct (m2 s1) as [[b s2]|]. Qed.

Lemma wp_seq3 {A B C D} (m1 : M S A) (m2 : M S B) (m3 : M S C) (k : M S D) Q s :
  wp (bind m1 (fun _ => bind m2 (fun _ => m3))) (fun _ s' => wp k Q s') s ->
  wp (bind m1 (fun _ => bind m2 (fun _ => bind m3 (fun _ => k)))) Q s.
Proof.
  unfold wp, bind. destruct (m1 s) as [[a s1]|]; [|done].
  destruct (m2 s1) as [[b s2]|]; [|done]. by destruct (m3 s2) as [[c s3]|].
Qed.

Lemma wp_seq4 {A B C D E} (m1 : M S A) (m2 : M S B) (m3 : M S C) (m4 : M S D) (k : M S E) Q s :
  wp (bind m1 (fun _ => bind m2 (fun _ => bind m3 (fun _ => m4)))) (fun _ s' => wp k Q s') s ->
  wp (bind m1 (fun _ => bind m2 (fun _ => bind m3 (fun _ => bind m4 (fun _ => k))))) Q s.
Proof.
  unfold wp, bind. destruct (m1 s) as [[a s1]|]; [|done]. destruct (m2 s1) as [[b s2]|]; [|done].
  destruct (m3 s2) as [[c s3]|]; [|done]. by destruct (m4 s3) as [[d s4]|].
Qed.

(** A statement and the ones that use its value, taken together. *)
Lemma wp_nest {A B C} (m1 : M S A) (f : A -> M S B) (g : B -> M S C) Q s :
  wp (bind m1 f) (fun b s' => wp (g b) Q s') s -> wp (bind m1 (fun a => bind (f a) g)) Q s.
Proof. unfold wp, bind. destruct (m1 s) as [[a s1]|]; [|done]. by destruct (f a s1) as [[b s2]|]. Qed.

Lemma wp_assoc {A B C D} (m1 : M S A) (m2 : A -> M S B) (m3 : A -> B -> M S C) (k : C -> M S D) Q s :
  wp (bind m1 (fun x => bind (m2 x) (fun y => m3 x y))) (fun c s' => wp (k c) Q s') s ->
  wp (bind m1 (fun x => bind (m2 x) (fun y => bind (m3 x y) k))) Q s.
Proof.
  unfold wp, bind. destruct (m1 s) as [[x s1]|]; [|done].
  destruct (m2 x s1) as [[y s2]|]; [|done]. by destruct (m3 x y s2) as [[c s3]|].
Qed.

Lemma wlp_ret {A} (a : A) (Q : A -> S -> Prop) s : Q a s -> wlp (ret a) Q s.
Proof. done. Qed.

Lemma wlp_bind {A B} (m : M S A) (k : A -> M S B) Q s :
  wlp m (fun a s' => wlp (k a) Q s') s -> wlp (bind m k) Q s.
Proof. unfold wlp, bind. by destruct (m s) as [[a s']|]. Qed.

Lemma wlp_elim {A} (m : M S A) Q s a s' :
  wlp m Q s -> m s = Some (a, s') -> Q a s'.
Proof. unfold wlp. intros H E. by rewrite E in H. Qed.

Lemma wp_wlp {A} (m : M S A) Q s : wp m Q s -> wlp m Q s.
Proof. unfold wp, wlp. by destruct (m s) as [[a s']|]. Qed.

Lemma wlp_mono {A} (m : M S A) (Q Q' : A -> S -> Prop) s :
  wlp m Q s -> (forall a s', Q a s' -> Q' a s') -> wlp m Q' s.
Proof. unfold wlp. destruct (m s) as [[a s']|]; naive_solver. Qed.

End monad.
