(* ===== verification/Bits.v ===== *)
(** * Bit operations and bitmaps: bitop.h and bitmap.h

    [bitmap_t] is a 32-bit unsigned word; an identifier pool, the ready queue
    and the TLSF allocator index their arrays by it. *)

From Stdlib Require Import ZArith Lia.
From stdpp Require Import base tactics.
From S2P Require Import Prelude.

Open Scope Z_scope.

(** ** bitop.h *)

(** [_ffs]: index of the first bit set, by halving the word; -1 for zero. The
    argument is an [int], so [>>=] is an arithmetic shift. *)
Definition _ffs (x : Z) : Z :=
  let x := i32 x in
  let r := 0 in
  if x =? 0 then -1 else
  let '(x, r) := if Z.land x 0xffff =? 0 then (Z.shiftr x 16, r + 16) else (x, r) in
  let '(x, r) := if Z.land x 0xff =? 0 then (Z.shiftr x 8, r + 8) else (x, r) in
  let '(x, r) := if Z.land x 0xf =? 0 then (Z.shiftr x 4, r + 4) else (x, r) in
  let '(x, r) := if Z.land x 0x3 =? 0 then (Z.shiftr x 2, r + 2) else (x, r) in
  let '(x, r) := if Z.land x 0x1 =? 0 then (Z.shiftr x 1, r + 1) else (x, r) in
  r.

(** [_ffc]: index of the first bit clear. *)
Definition _ffc (x : Z) : Z := _ffs (Z.lnot (i32 x)).

(** [_fls]: index of the last bit set, by halving from the top. *)
Definition _fls (x : Z) : Z :=
  let x := i32 x in
  let r := 31 in
  if x =? 0 then -1 else
  let '(x, r) := if Z.land x 0xffff0000 =? 0 then (i32 (Z.shiftl x 16), r - 16) else (x, r) in
  let '(x, r) := if Z.land x 0xff000000 =? 0 then (i32 (Z.shiftl x 8), r - 8) else (x, r) in
  let '(x, r) := if Z.land x 0xf0000000 =? 0 then (i32 (Z.shiftl x 4), r - 4) else (x, r) in
  let '(x, r) := if Z.land x 0xc0000000 =? 0 then (i32 (Z.shiftl x 2), r - 2) else (x, r) in
  let '(x, r) := if Z.land x 0x80000000 =? 0 then (i32 (Z.shiftl x 1), r - 1) else (x, r) in
  r.

Definition _flc (x : Z) : Z := _fls (Z.lnot (i32 x)).

(** ** bitmap.h *)

Definition clearbitmap : Z := 0.

Definition setbitmap : Z := u32 (-1).

(** [1 << bit] is an [int] converted to the unsigned type of the bitmap. *)
Definition setbit (bitmap bit : Z) : Z := Z.lor bitmap (u32 (Z.shiftl 1 bit)).

Definition clearbit (bitmap bit : Z) : Z :=
  Z.land bitmap (u32 (Z.lnot (Z.shiftl 1 bit))).

Definition isbitset (bitmap bit : Z) : Z :=
  i32 (Z.land bitmap (u32 (Z.shiftl 1 bit))).

#[global] Arguments setbit : simpl never.
#[global] Arguments clearbit : simpl never.
#[global] Arguments isbitset : simpl never.
#[global] Arguments _ffs : simpl never.
#[global] Arguments _ffc : simpl never.

(** A bitmap is a 32-bit word. *)
Definition word32 (b : Z) : Prop := 0 <= b < 2 ^ 32.

(** ** Wrapping and bits *)

Lemma wraps_mod w z : 0 < w -> wraps w z mod 2 ^ w = z mod 2 ^ w.
Proof.
  intros Hw. unfold wraps.
  rewrite <- Zminus_mod_idemp_l, Zmod_mod, Zminus_mod_idemp_l. f_equal. lia.
Qed.

Lemma wraps_testbit w z j : 0 < w -> 0 <= j < w ->
  Z.testbit (wraps w z) j = Z.testbit z j.
Proof.
  intros Hw Hj.
  rewrite <- (Z.mod_pow2_bits_low (wraps w z) w) by lia.
  by rewrite wraps_mod, Z.mod_pow2_bits_low by lia.
Qed.

Lemma wrapu_testbit w z j : 0 <= j < w ->
  Z.testbit (wrapu w z) j = Z.testbit z j.
Proof. intros Hj. unfold wrapu. by rewrite Z.mod_pow2_bits_low by lia. Qed.

Lemma wrapu_range w z : 0 <= w -> 0 <= wrapu w z < 2 ^ w.
Proof. intros Hw. apply Z.mod_pos_bound. lia. Qed.

Lemma wrapu_small w z : 0 <= z < 2 ^ w -> wrapu w z = z.
Proof. apply Z.mod_small. Qed.

Lemma wraps_small w z : - 2 ^ (w - 1) <= z < 2 ^ (w - 1) -> 0 < w -> wraps w z = z.
Proof.
  intros Hz Hw. unfold wraps.
  assert (2 ^ w = 2 * 2 ^ (w - 1)) as Hp.
  { rewrite <- Z.pow_succ_r by lia. f_equal. lia. }
  rewrite Z.mod_small; lia.
Qed.

Lemma i32_small z : - 2 ^ 31 <= z < 2 ^ 31 -> i32 z = z.
Proof. intros H. apply wraps_small; lia. Qed.

Lemma i64_small z : - 2 ^ 63 <= z < 2 ^ 63 -> i64 z = z.
Proof. intros H. apply wraps_small; lia. Qed.

Lemma u64_small z : 0 <= z < 2 ^ 64 -> u64 z = z.
Proof. apply Z.mod_small. Qed.

Lemma u32_small z : 0 <= z < 2 ^ 32 -> u32 z = z.
Proof. apply Z.mod_small. Qed.

Lemma land_ones_eq0 x h : 0 <= h ->
  Z.land x (Z.ones h) = 0 <-> forall j, 0 <= j < h -> Z.testbit x j = false.
Proof.
  intros Hh. split.
  - intros H j Hj. apply (f_equal (fun z => Z.testbit z j)) in H.
    rewrite Z.land_spec, Z.ones_spec_low, Z.bits_0, andb_true_r in H by lia. done.
  - intros H. apply Z.bits_inj_iff'. intros j Hj.
    rewrite Z.land_spec, Z.bits_0, Z.testbit_ones_nonneg by lia.
    destruct (Z.ltb_spec j h); [rewrite H by lia|]; by rewrite ?andb_false_r.
Qed.

Lemma land_ones_ne0 x h : 0 <= h -> Z.land x (Z.ones h) <> 0 ->
  exists j, 0 <= j < h /\ Z.testbit x j = true.
Proof.
  intros Hh Hne. rewrite Z.land_ones in Hne by done.
  pose proof (Z.mod_pos_bound x (2 ^ h) ltac:(lia)) as Hb.
  exists (Z.log2 (x mod 2 ^ h)).
  assert (Z.log2 (x mod 2 ^ h) < h) by (apply Z.log2_lt_pow2; lia).
  split; [split; [apply Z.log2_nonneg|done]|].
  rewrite <- (Z.mod_pow2_bits_low x h) by done. apply Z.bit_log2. lia.
Qed.

(** A word is zero exactly when none of its 32 bits is set. *)
Lemma i32_bits0 x : i32 x = 0 <-> forall j, 0 <= j < 32 -> Z.testbit x j = false.
Proof.
  split.
  - intros H j Hj. rewrite <- (wraps_testbit 32) by lia.
    change (wraps 32 x) with (i32 x). rewrite H. apply Z.bits_0.
  - intros H. assert (x mod 2 ^ 32 = 0) as Hx.
    { rewrite <- Z.land_ones by lia. apply land_ones_eq0; [lia|done]. }
    unfold i32, wraps. rewrite <- Zplus_mod_idemp_l, Hx. done.
Qed.

Lemma word32_bits0 x : word32 x ->
  x = 0 <-> forall j, 0 <= j < 32 -> Z.testbit x j = false.
Proof.
  intros Hx. split; [by intros -> ? _; apply Z.bits_0|]. intros H.
  rewrite <- (Z.mod_small x (2 ^ 32)) by done.
  rewrite <- Z.land_ones by lia. apply land_ones_eq0; [lia|done].
Qed.

Lemma word32_high x j : word32 x -> 32 <= j -> Z.testbit x j = false.
Proof.
  intros Hx Hj. rewrite <- (Z.mod_small x (2 ^ 32)) by done.
  apply Z.mod_pow2_bits_high. lia.
Qed.

(** ** [_ffs]

    Stage invariant of the binary search: the bits of [x0] below [r] are
    clear, [x] is [x0] shifted by [r], and one of its [w] low bits is set. *)

Definition ffs_inv (x0 w : Z) (p : Z * Z) : Prop :=
  0 <= p.2 /\ p.2 + w <= 32 /\
  (forall j, 0 <= j < p.2 -> Z.testbit x0 j = false) /\
  (forall j, 0 <= j -> Z.testbit p.1 j = Z.testbit x0 (j + p.2)) /\
  (exists j, 0 <= j < w /\ Z.testbit p.1 j = true).

Lemma ffs_step x0 h x r : 0 < h -> ffs_inv x0 (h + h) (x, r) ->
  ffs_inv x0 h (if Z.land x (Z.ones h) =? 0 then (Z.shiftr x h, r + h) else (x, r)).
Proof.
  intros Hh (Hr & Hw & Hlow & Hsh & j & Hj & Hjt); simpl in *.
  destruct (Z.eqb_spec (Z.land x (Z.ones h)) 0) as [E|E].
  - rewrite land_ones_eq0 in E by lia.
    assert (h <= j). { destruct (Z.lt_ge_cases j h); [|done]. rewrite E in Hjt; done || lia. }
    repeat split; simpl; try lia.
    + intros k Hk. destruct (Z.lt_ge_cases k r); [auto with lia|].
      rewrite <- (Z.sub_add r k), <- Hsh by lia. apply E. lia.
    + intros k Hk. rewrite Z.shiftr_spec, Hsh by lia. f_equal. lia.
    + exists (j - h). split; [lia|]. rewrite Z.shiftr_spec by lia. by rewrite Z.sub_add.
  - repeat split; simpl; try lia; auto.
    by apply land_ones_ne0; [lia|].
Qed.

(** The first bit set of a word: its index, or none. *)
Definition first_set (b i : Z) : Prop :=
  0 <= i < 32 /\ Z.testbit b i = true /\
  forall j, 0 <= j < i -> Z.testbit b j = false.

Lemma first_set_unique b i j : first_set b i -> first_set b j -> i = j.
Proof.
  intros (Hi & Hit & Hil) (Hj & Hjt & Hjl).
  destruct (Z.lt_trichotomy i j) as [H|[H|H]]; [|done|].
  - rewrite Hjl in Hit by lia. done.
  - rewrite Hil in Hjt by lia. done.
Qed.

Lemma ffs_inv_init x : i32 x <> 0 -> ffs_inv (i32 x) (16 + 16) (i32 x, 0).
Proof.
  intros H. repeat split; simpl; try lia.
  - intros j Hj. f_equal. lia.
  - apply land_ones_ne0; [lia|]. intros E. apply H.
    rewrite land_ones_eq0 in E by lia. apply i32_bits0. intros j Hj.
    rewrite <- (wraps_testbit 32) by lia. by apply E.
Qed.

Lemma _ffs_spec x : i32 x <> 0 -> first_set x (_ffs x).
Proof.
  intros Hx. unfold _ffs. cbv zeta. destruct (Z.eqb_spec (i32 x) 0); [done|].
  pose proof (ffs_inv_init x Hx) as I0.
  change 0xffff with (Z.ones 16). change 0xff with (Z.ones 8).
  change 0xf with (Z.ones 4). change 0x3 with (Z.ones 2). change 0x1 with (Z.ones 1).
  pose proof (ffs_step (i32 x) 16 _ _ eq_refl I0) as I1.
  destruct (if _ : bool then _ else _) as [x1 r1]. change 16 with (8 + 8) in I1.
  pose proof (ffs_step (i32 x) 8 _ _ eq_refl I1) as I2.
  destruct (if _ : bool then _ else _) as [x2 r2]. change 8 with (4 + 4) in I2.
  pose proof (ffs_step (i32 x) 4 _ _ eq_refl I2) as I3.
  destruct (if _ : bool then _ else _) as [x3 r3]. change 4 with (2 + 2) in I3.
  pose proof (ffs_step (i32 x) 2 _ _ eq_refl I3) as I4.
  destruct (if _ : bool then _ else _) as [x4 r4]. change 2 with (1 + 1) in I4.
  pose proof (ffs_step (i32 x) 1 _ _ eq_refl I4) as I5.
  destruct (if _ : bool then _ else _) as [x5 r5].
  destruct I5 as (Hr & Hw & Hlow & Hsh & j & Hj & Hjt); simpl in *.
  assert (j = 0) as -> by lia. rewrite Hsh in Hjt by lia.
  repeat split; [lia|lia| |].
  - rewrite <- (wraps_testbit 32) by lia. done.
  - intros k Hk. rewrite <- (wraps_testbit 32) by lia. apply Hlow. lia.
Qed.

Lemma _ffs_zero x : i32 x = 0 -> _ffs x = -1.
Proof. intros H. unfold _ffs. by rewrite H. Qed.

(** ** [_ffc] *)

Definition first_clear (b i : Z) : Prop :=
  0 <= i < 32 /\ Z.testbit b i = false /\
  forall j, 0 <= j < i -> Z.testbit b j = true.

Lemma lnot_i32_testbit x j : 0 <= j < 32 ->
  Z.testbit (Z.lnot (i32 x)) j = negb (Z.testbit x j).
Proof.
  intros Hj. rewrite Z.lnot_spec by lia. unfold i32. by rewrite wraps_testbit by lia.
Qed.

Lemma _ffc_spec b i : word32 b -> Z.testbit b i = false -> 0 <= i < 32 ->
  first_clear b (_ffc b).
Proof.
  intros Hb Hi Hir.
  assert (i32 (Z.lnot (i32 b)) <> 0) as Hne.
  { rewrite i32_bits0. intros H. specialize (H i Hir).
    rewrite lnot_i32_testbit, Hi in H by lia. done. }
  destruct (_ffs_spec _ Hne) as (Hr & Ht & Hl). fold (_ffc b) in *.
  repeat split; [lia|lia| |].
  - rewrite lnot_i32_testbit in Ht by lia. by destruct (Z.testbit b (_ffc b)).
  - intros j Hj. specialize (Hl j Hj).
    rewrite lnot_i32_testbit in Hl by lia. by destruct (Z.testbit b j).
Qed.

(** When every bit is set, [_ffc] has no bit to return. *)
Lemma _ffc_full b : (forall i, 0 <= i < 32 -> Z.testbit b i = true) -> _ffc b = -1.
Proof.
  intros H. apply _ffs_zero. apply i32_bits0. intros j Hj.
  by rewrite lnot_i32_testbit, H.
Qed.

(** The index [_ffc] returns is -1 or the index of a clear bit. *)
Lemma _ffc_cases b : word32 b ->
  (_ffc b = -1 /\ forall i, 0 <= i < 32 -> Z.testbit b i = true) \/
  first_clear b (_ffc b).
Proof.
  intros Hb. destruct (decide (i32 (Z.lnot (i32 b)) = 0)) as [E|E].
  - left. split; [by apply _ffs_zero|]. intros i Hi.
    rewrite i32_bits0 in E. specialize (E i Hi).
    rewrite lnot_i32_testbit in E by lia. by destruct (Z.testbit b i).
  - right. destruct (_ffs_spec _ E) as (Hr & Ht & Hl).
    rewrite lnot_i32_testbit in Ht by lia.
    apply (_ffc_spec b (_ffc b)); [done| |done].
    unfold _ffc in *. by destruct (Z.testbit b _).
Qed.

(** ** bitmaps *)

Lemma testbit_pow2 i j : 0 <= i -> Z.testbit (Z.shiftl 1 i) j = (i =? j).
Proof. intros Hi. rewrite Z.shiftl_1_l. by apply Z.pow2_bits_eqb. Qed.

Lemma setbit_spec b i j : 0 <= i < 32 -> 0 <= j < 32 ->
  Z.testbit (setbit b i) j = (i =? j) || Z.testbit b j.
Proof.
  intros Hi Hj. unfold setbit, u32.
  rewrite Z.lor_spec, wrapu_testbit, testbit_pow2 by lia. apply orb_comm.
Qed.

Lemma clearbit_spec b i j : 0 <= i < 32 -> 0 <= j < 32 ->
  Z.testbit (clearbit b i) j = negb (i =? j) && Z.testbit b j.
Proof.
  intros Hi Hj. unfold clearbit, u32.
  rewrite Z.land_spec, wrapu_testbit, Z.lnot_spec, testbit_pow2 by lia. apply andb_comm.
Qed.

Lemma setbit_word b i : word32 b -> word32 (setbit b i).
Proof.
  intros Hb. unfold setbit, u32. pose proof (wrapu_range 32 (Z.shiftl 1 i) ltac:(lia)).
  split; [apply Z.lor_nonneg; unfold word32 in *; lia|].
  assert (0 <= Z.lor b (wrapu 32 (Z.shiftl 1 i))) by (apply Z.lor_nonneg; unfold word32 in *; lia).
  destruct (Z.eq_dec (Z.lor b (wrapu 32 (Z.shiftl 1 i))) 0) as [->|Hz]; [lia|].
  apply Z.log2_lt_pow2; [lia|]. rewrite Z.log2_lor by (unfold word32 in *; lia).
  destruct (Z.eq_dec b 0) as [->|]; destruct (Z.eq_dec (wrapu 32 (Z.shiftl 1 i)) 0) as [->|];
    apply Z.max_lub_lt; try (simpl; lia); apply Z.log2_lt_pow2; unfold word32 in *; lia.
Qed.

Lemma clearbit_word b i : word32 b -> word32 (clearbit b i).
Proof.
  intros Hb. unfold clearbit, u32.
  pose proof (wrapu_range 32 (Z.lnot (Z.shiftl 1 i)) ltac:(lia)) as Hw.
  split; [apply Z.land_nonneg; unfold word32 in *; lia|].
  rewrite <- (Z.mod_small b (2 ^ 32)) by done.
  rewrite <- Z.land_ones, <- Z.land_assoc, (Z.land_comm (Z.ones 32)), Z.land_assoc, Z.land_ones by lia.
  apply Z.mod_pos_bound. lia.
Qed.

(** The C truth of [isbitset] is the bit. *)
Lemma isbitset_spec b i : 0 <= i < 32 -> nz (isbitset b i) = Z.testbit b i.
Proof.
  intros Hi. unfold isbitset, nz.
  destruct (Z.eqb_spec (i32 (Z.land b (u32 (Z.shiftl 1 i)))) 0) as [E|E]; simpl.
  - rewrite i32_bits0 in E. specialize (E i Hi). unfold u32 in E.
    rewrite Z.land_spec, wrapu_testbit, testbit_pow2, Z.eqb_refl, andb_true_r in E by lia. done.
  - destruct (Z.testbit b i) eqn:Hb; [done|]. exfalso. apply E, i32_bits0. intros j Hj.
    unfold u32. rewrite Z.land_spec, wrapu_testbit, testbit_pow2 by lia.
    destruct (Z.eqb_spec i j) as [->|]; [by rewrite Hb|apply andb_false_r].
Qed.

Create HintDb bits.
#[export] Hint Resolve setbit_word clearbit_word : bits.
Create Rewrite HintDb bitmaps.
#[export] Hint Rewrite setbit_spec clearbit_spec isbitset_spec using lia : bitmaps.

(** A bit of a word, by an index that may be too large. *)
Lemma setbit_bit b i j : word32 b -> 0 <= i < 32 -> 0 <= j ->
  Z.testbit (setbit b i) j = (i =? j) || Z.testbit b j.
Proof.
  intros Hb Hi Hj. destruct (Z.le_gt_cases 32 j).
  - rewrite !word32_high by auto with bits. destruct (Z.eqb_spec i j); [lia|done].
  - by apply setbit_spec.
Qed.

Lemma clearbit_bit b i j : word32 b -> 0 <= i < 32 -> 0 <= j ->
  Z.testbit (clearbit b i) j = negb (i =? j) && Z.testbit b j.
Proof.
  intros Hb Hi Hj. destruct (Z.le_gt_cases 32 j).
  - rewrite !word32_high by auto with bits. by rewrite andb_false_r.
  - by apply clearbit_spec.
Qed.

(** A byte above the bits of [a]. *)
Lemma lor_above a v n : 0 <= n -> 0 <= a < 2 ^ n -> 0 <= v -> Z.lor a (Z.shiftl v n) = a + v * 2 ^ n.
Proof.
  intros Hn Ha Hv. rewrite Z.shiftl_mul_pow2 by done.
  assert (Z.land a (v * 2 ^ n) = 0) as E.
  { apply Z.bits_inj'. intros j Hj. rewrite Z.land_spec, Z.bits_0. destruct (Z.lt_ge_cases j n).
    - rewrite Z.mul_pow2_bits_low by lia. apply andb_false_r.
    - rewrite <- (Z.mod_small a (2 ^ n)), Z.mod_pow2_bits_high by lia. done. }
  by rewrite <- Z.lxor_lor, <- Z.add_nocarry_lxor.
Qed.

(** Clearing the low [n] bits. *)
Lemma land_lnot_ones r n : 0 <= n < 32 -> 0 <= r < 2 ^ 32 ->
  Z.land r (u32 (Z.lnot (2 ^ n - 1))) = 2 ^ n * (r / 2 ^ n).
Proof.
  intros Hn Hr. rewrite Z.mul_comm, <- Z.shiftr_div_pow2, <- Z.shiftl_mul_pow2 by lia.
  replace (2 ^ n - 1) with (Z.ones n) by (rewrite Z.ones_equiv; lia).
  apply Z.bits_inj'. intros j Hj. rewrite Z.land_spec. destruct (Z.ltb_spec j 32) as [Hj32|Hj32].
  - unfold u32. rewrite wrapu_testbit, Z.lnot_spec, Z.testbit_ones_nonneg by lia. destruct (Z.ltb_spec j n).
    + by rewrite Z.shiftl_spec_low, andb_false_r by done.
    + rewrite Z.shiftl_spec, Z.shiftr_spec, andb_true_r by lia. f_equal. lia.
  - rewrite word32_high, Z.shiftl_spec, Z.shiftr_spec by (done || lia). cbn [andb].
    symmetry. apply word32_high; [done|lia].
Qed.
