(* ===== verification/Queue.v ===== *)
(** * Intrusive lists: linked_list.h and queue.h

    A [linked_list_t] is embedded in a task, a semaphore, an eventflag, a
    message or a request of the network driver; the kernel links these nodes,
    not copies. The model keeps one store of all nodes, indexed by the structure
    and the field a node lies in, and the routines of the two headers rewrite
    that store pointer by pointer. [qrep] relates the pointers to the list of
    nodes they denote. *)

From Stdlib Require Import ZArith Lia.
From stdpp Require Import base tactics gmap option functions countable list.
From S2P Require Import Prelude.

(** ** Data *)

(** What the [void *this] of a node points to. *)
Inductive obj :=
  | OTask (i : nat)      (* &task_pool[i] *)
  | OSem (i : nat)       (* &sem_pool[i] *)
  | OFlg (i : nat)       (* &flg_pool[i] *)
  | OMsg (b : Z)         (* a struct mbox_msg_head at address b *)
  | OReq (b : Z).        (* a struct tring_request at address b *)

(** The address of a node: the field of the structure it is embedded in. *)
Inductive laddr :=
  | RdyQue (i : nat)     (* &task_pool[i].rdyque *)
  | SynQue (i : nat)     (* &task_pool[i].synque *)
  | SlpQue (i : nat)     (* &task_pool[i].slpque *)
  | TskAct (i : nat)     (* &task_pool[i].actlst *)
  | SemAct (i : nat)     (* &sem_pool[i].actlst *)
  | FlgAct (i : nat)     (* &flg_pool[i].actlst *)
  | MsgQue (b : Z)       (* &msg->msgque, msg at address b *)
  | ReqQue (b : Z).      (* &request->tring_list, request at address b *)

#[export] Instance obj_eq_dec : EqDecision obj.
Proof. solve_decision. Defined.

#[export] Instance laddr_eq_dec : EqDecision laddr.
Proof. solve_decision. Defined.

Definition laddr_code (a : laddr) : nat * Z :=
  match a with
  | RdyQue i => (0%nat, Z.of_nat i)
  | SynQue i => (1%nat, Z.of_nat i)
  | SlpQue i => (2%nat, Z.of_nat i)
  | TskAct i => (3%nat, Z.of_nat i)
  | SemAct i => (4%nat, Z.of_nat i)
  | FlgAct i => (5%nat, Z.of_nat i)
  | MsgQue b => (6%nat, b)
  | ReqQue b => (7%nat, b)
  end.

Definition laddr_decode (c : nat * Z) : laddr :=
  match c with
  | (0%nat, z) => RdyQue (Z.to_nat z)
  | (1%nat, z) => SynQue (Z.to_nat z)
  | (2%nat, z) => SlpQue (Z.to_nat z)
  | (3%nat, z) => TskAct (Z.to_nat z)
  | (4%nat, z) => SemAct (Z.to_nat z)
  | (5%nat, z) => FlgAct (Z.to_nat z)
  | (6%nat, b) => MsgQue b
  | (_, b) => ReqQue b
  end.

#[export] Program Instance laddr_countable : Countable laddr :=
  inj_countable' laddr_code laddr_decode _.
Next Obligation. by intros []; simpl; rewrite ?Nat2Z.id. Qed.

Record linked_list_t := mk_list {
  prev : option laddr;
  next : option laddr;
  this : option obj
}.

(** A node of zeroed memory. *)
Definition null_node : linked_list_t := mk_list None None None.

(** Memory never written reads as zeroes. *)
Definition node (m : gmap laddr linked_list_t) (a : laddr) : linked_list_t :=
  default null_node (m !! a).

Definition set_prev (a : laddr) (v : option laddr) (m : gmap laddr linked_list_t) :=
  <[a := mk_list v (next (node m a)) (this (node m a))]> m.

Definition set_next (a : laddr) (v : option laddr) (m : gmap laddr linked_list_t) :=
  <[a := mk_list (prev (node m a)) v (this (node m a))]> m.

Definition set_this (a : laddr) (v : option obj) (m : gmap laddr linked_list_t) :=
  <[a := mk_list (prev (node m a)) (next (node m a)) v]> m.

Record queue_t := mk_queue {
  head : option laddr;
  tail : option laddr
}.

Definition null_queue : queue_t := mk_queue None None.

(** ** linked_list.h *)

Definition init_linked_list : option laddr := None.

(** [insert_linked_list]: push [p] in front of the list [*h]. *)
Definition insert_linked_list (m : gmap laddr linked_list_t) (h : option laddr) (p : laddr)
  : gmap laddr linked_list_t * option laddr :=
  let m := match h with Some a => set_prev a (Some p) m | None => m end in
  let m := set_next p h m in
  (m, Some p).

(** [remove_linked_list]: unlink [p] from the list [*h]. *)
Definition remove_linked_list (m : gmap laddr linked_list_t) (h : option laddr) (p : laddr)
  : gmap laddr linked_list_t * option laddr :=
  let m := match next (node m p) with
           | Some n => set_prev n (prev (node m p)) m | None => m end in
  let m := match prev (node m p) with
           | Some q => set_next q (next (node m p)) m | None => m end in
  let h := if decide (h = Some p) then next (node m p) else h in
  let m := set_next p None m in
  let m := set_prev p None m in
  (m, h).

(** [remove_head_linked_list]: pop the first node; its [this], or NULL. *)
Definition remove_head_linked_list (m : gmap laddr linked_list_t) (h : option laddr)
  : option obj * gmap laddr linked_list_t * option laddr :=
  let p := h in
  let h := match h with Some a => next (node m a) | None => h end in
  let m := match h with Some a => set_prev a None m | None => m end in
  match p with
  | Some p =>
      let m := set_next p None m in
      let m := set_prev p None m in
      (this (node m p), m, h)
  | None => (None, m, h)
  end.

(** ** queue.h *)

Definition queue_init : queue_t := mk_queue None None.

Definition queue_is_empty (sq : queue_t) : bool :=
  match head sq with None => true | Some _ => false end.

Definition queue_insert (m : gmap laddr linked_list_t) (sq : queue_t) (p : laddr)
  : gmap laddr linked_list_t * queue_t :=
  let m := match tail sq with Some t => set_next t (Some p) m | None => m end in
  let m := set_prev p (tail sq) m in
  let sq := mk_queue (head sq) (Some p) in
  let sq := match head sq with None => mk_queue (Some p) (tail sq) | Some _ => sq end in
  (m, sq).

(** [queue_insert_sort] repeats the body of [queue_insert]. *)
Definition queue_insert_sort (m : gmap laddr linked_list_t) (sq : queue_t) (p : laddr)
  : gmap laddr linked_list_t * queue_t :=
  let m := match tail sq with Some t => set_next t (Some p) m | None => m end in
  let m := set_prev p (tail sq) m in
  let sq := mk_queue (head sq) (Some p) in
  let sq := match head sq with None => mk_queue (Some p) (tail sq) | Some _ => sq end in
  (m, sq).

Definition queue_get_head (m : gmap laddr linked_list_t) (sq : queue_t) : option obj :=
  match head sq with Some p => this (node m p) | None => None end.

Definition queue_extract (m : gmap laddr linked_list_t) (sq : queue_t)
  : option obj * gmap laddr linked_list_t * queue_t :=
  let p := head sq in
  let sq := match head sq with
            | Some h => mk_queue (next (node m h)) (tail sq) | None => sq end in
  let '(m, sq) := match head sq with
                  | Some h => (set_prev h None m, sq)
                  | None => (m, mk_queue (head sq) None) end in
  match p with
  | Some p =>
      let m := set_next p None m in
      let m := set_prev p None m in
      (this (node m p), m, sq)
  | None => (None, m, sq)
  end.

Definition queue_remove (m : gmap laddr linked_list_t) (sq : queue_t) (p : laddr)
  : gmap laddr linked_list_t * queue_t :=
  let m := match next (node m p) with
           | Some n => set_prev n (prev (node m p)) m | None => m end in
  let m := match prev (node m p) with
           | Some q => set_next q (next (node m p)) m | None => m end in
  let sq := if decide (head sq = Some p)
            then mk_queue (next (node m p)) (tail sq) else sq in
  let sq := if decide (tail sq = Some p)
            then mk_queue (head sq) (prev (node m p)) else sq in
  let m := set_next p None m in
  let m := set_prev p None m in
  (m, sq).

(** ** What the pointers denote *)

(** The predecessor of position [i] in [l]. *)
Definition pred_at (l : list laddr) (i : nat) : option laddr :=
  match i with O => None | S j => l !! j end.

(** The nodes of [l] are linked in order, both ways. *)
Definition linked (m : gmap laddr linked_list_t) (l : list laddr) : Prop :=
  forall i a, l !! i = Some a ->
    prev (node m a) = pred_at l i /\ next (node m a) = l !! S i.

(** The list headed by [h] is [l]. *)
Definition lrep (m : gmap laddr linked_list_t) (h : option laddr) (l : list laddr) : Prop :=
  h = l !! O /\ NoDup l /\ linked m l.

(** The queue [sq] is [l]. *)
Definition qrep (m : gmap laddr linked_list_t) (sq : queue_t) (l : list laddr) : Prop :=
  head sq = l !! O /\ tail sq = last l /\ NoDup l /\ linked m l.

(** A node in no list. *)
Definition clean (m : gmap laddr linked_list_t) (a : laddr) : Prop :=
  prev (node m a) = None /\ next (node m a) = None.

(** ** Reading the store after a write *)

Section node_lemmas.
Implicit Types (m : gmap laddr linked_list_t) (a b : laddr).

Lemma node_insert m a b n :
  node (<[a := n]> m) b = if decide (a = b) then n else node m b.
Proof. unfold node. rewrite lookup_insert. by case_decide. Qed.

Lemma prev_set_prev m a v b :
  prev (node (set_prev a v m) b) = if decide (a = b) then v else prev (node m b).
Proof. unfold set_prev. rewrite node_insert. by case_decide. Qed.

Lemma next_set_prev m a v b : next (node (set_prev a v m) b) = next (node m b).
Proof. unfold set_prev. rewrite node_insert. by case_decide; subst. Qed.

Lemma this_set_prev m a v b : this (node (set_prev a v m) b) = this (node m b).
Proof. unfold set_prev. rewrite node_insert. by case_decide; subst. Qed.

Lemma prev_set_next m a v b : prev (node (set_next a v m) b) = prev (node m b).
Proof. unfold set_next. rewrite node_insert. by case_decide; subst. Qed.

Lemma next_set_next m a v b :
  next (node (set_next a v m) b) = if decide (a = b) then v else next (node m b).
Proof. unfold set_next. rewrite node_insert. by case_decide. Qed.

Lemma this_set_next m a v b : this (node (set_next a v m) b) = this (node m b).
Proof. unfold set_next. rewrite node_insert. by case_decide; subst. Qed.

Lemma prev_set_this m a v b : prev (node (set_this a v m) b) = prev (node m b).
Proof. unfold set_this. rewrite node_insert. by case_decide; subst. Qed.

Lemma next_set_this m a v b : next (node (set_this a v m) b) = next (node m b).
Proof. unfold set_this. rewrite node_insert. by case_decide; subst. Qed.

Lemma this_set_this m a v b :
  this (node (set_this a v m) b) = if decide (a = b) then v else this (node m b).
Proof. unfold set_this. rewrite node_insert. by case_decide. Qed.

End node_lemmas.

Create Rewrite HintDb nodes.
#[export] Hint Rewrite prev_set_prev next_set_prev this_set_prev
  prev_set_next next_set_next this_set_next
  prev_set_this next_set_this this_set_this : nodes.

(** Simplify the reads of a rewritten store and split on the addresses. *)
Ltac node_simpl := autorewrite with nodes in *.

(** ** Refinement of the queue routines to lists *)

Section queue_lemmas.
Implicit Types (m : gmap laddr linked_list_t) (sq : queue_t) (l : list laddr) (p : laddr).

Lemma linked_agree m m' l :
  (forall a, a ∈ l -> prev (node m' a) = prev (node m a) /\ next (node m' a) = next (node m a)) ->
  linked m l -> linked m' l.
Proof.
  intros Hag Hl i a Ha. destruct (Hag a) as [-> ->]; [by eapply list_elem_of_lookup_2|]. by apply Hl.
Qed.

Lemma qrep_agree m m' sq l :
  (forall a, a ∈ l -> prev (node m' a) = prev (node m a) /\ next (node m' a) = next (node m a)) ->
  qrep m sq l -> qrep m' sq l.
Proof. intros Hag (? & ? & ? & ?). split_and!; try done. by eapply linked_agree. Qed.

Lemma qrep_nil m : qrep m null_queue [].
Proof. split_and!; try done. apply NoDup_nil_2. Qed.

Lemma qrep_head_None m sq l : qrep m sq l -> head sq = None -> l = [].
Proof. intros (Hh & _) E. rewrite E in Hh. by destruct l. Qed.

Lemma qrep_empty m sq l : qrep m sq l -> queue_is_empty sq = true <-> l = [].
Proof.
  intros (Hh & _). unfold queue_is_empty. rewrite Hh. by destruct l.
Qed.

Lemma pred_at_length l k : pred_at (l ++ k) (length l) = last l.
Proof.
  rewrite last_lookup. destruct (length l) as [|j] eqn:E; simpl.
  - by destruct l.
  - by rewrite lookup_app_l by lia.
Qed.

Lemma pred_at_app_l l k i : (i < length l)%nat -> pred_at (l ++ k) i = pred_at l i.
Proof. intros Hi. destruct i as [|j]; [done|]. simpl. by rewrite lookup_app_l by lia. Qed.

(** [queue_insert] appends the node, when the node is not queued and its
    [next] is NULL: the routine does not reset it. *)
Lemma queue_insert_spec m sq l p :
  qrep m sq l -> p ∉ l -> next (node m p) = None ->
  qrep (queue_insert m sq p).1 (queue_insert m sq p).2 (l ++ [p]).
Proof.
  intros (Hh & Ht & Hnd & Hl) Hp Hn. unfold queue_insert. simpl. split_and!.
  - destruct l as [|a l]; simpl in *; rewrite Hh; done.
  - rewrite last_snoc. by destruct (head sq).
  - apply NoDup_app. split_and!; [done| |apply NoDup_singleton].
    intros a Ha ->%list_elem_of_singleton. done.
  - intros i a Hi. rewrite Ht.
    apply lookup_app_Some in Hi as [Hi|[Hge Hi]].
    + assert (p <> a) as Hpa by (intros ->; apply Hp; by eapply list_elem_of_lookup_2).
      destruct (Hl i a Hi) as [Hpr Hnx].
      pose proof (lookup_lt_Some _ _ _ Hi) as Hlen.
      split.
      * node_simpl. rewrite decide_False by done.
        rewrite pred_at_app_l by done. by destruct (last l); node_simpl.
      * node_simpl. destruct (last l) as [t|] eqn:Elast.
        -- node_simpl. rewrite last_lookup in Elast. case_decide as Eta.
           ++ subst t. assert (i = pred (length l)) as ->.
              { eapply NoDup_lookup; eauto. }
              replace (S (pred (length l))) with (length l + 0)%nat by lia.
              by rewrite lookup_app_r, Nat.add_0_r, Nat.sub_diag by lia.
           ++ rewrite Hnx. destruct (decide (S i = length l)) as [E|E].
              { exfalso. apply Eta. rewrite <- E in Elast. simpl in Elast. congruence. }
              by rewrite lookup_app_l by lia.
        -- apply last_None in Elast as ->. done.
    + apply list_lookup_singleton_Some in Hi as [Hi <-].
      assert (i = length l) as -> by lia. split.
      * node_simpl. rewrite decide_True by done.
        by rewrite pred_at_length.
      * node_simpl. rewrite (lookup_ge_None_2 (l ++ [p]) (S (length l))).
        2:{ rewrite length_app. simpl. lia. }
        destruct (last l) as [t|] eqn:Elast; node_simpl; [|done].
        rewrite decide_False; [done|]. intros ->. apply Hp.
        by eapply last_Some_elem_of.
Qed.

(** [queue_insert] writes the node and the old tail only. *)
Lemma queue_insert_other m sq p a : a <> p -> tail sq <> Some a ->
  node (queue_insert m sq p).1 a = node m a.
Proof.
  intros Ha Ht. unfold queue_insert, set_prev, set_next. simpl.
  rewrite node_insert, decide_False by done.
  destruct (tail sq) as [t|]; [|done]. by rewrite node_insert, decide_False by congruence.
Qed.

Lemma queue_insert_this m sq p a : this (node (queue_insert m sq p).1 a) = this (node m a).
Proof. unfold queue_insert; simpl; node_simpl. by destruct (tail sq); node_simpl. Qed.

(** The store after a node is unlinked, as both removal routines write it. *)
Definition unlink m p : gmap laddr linked_list_t :=
  let m := match next (node m p) with
           | Some n => set_prev n (prev (node m p)) m | None => m end in
  let m := match prev (node m p) with
           | Some q => set_next q (next (node m p)) m | None => m end in
  set_prev p None (set_next p None m).

Lemma unlink_this m p a : this (node (unlink m p) a) = this (node m a).
Proof.
  unfold unlink. node_simpl.
  destruct (next (node m p)); node_simpl; repeat case_match; by node_simpl.
Qed.

(** Pointwise effect of [unlink], for a node that is not its own neighbour. *)
Lemma unlink_prev m p a : prev (node m p) <> Some p -> next (node m p) <> Some p ->
  prev (node (unlink m p) a) =
    if decide (a = p) then None
    else if decide (next (node m p) = Some a) then prev (node m p) else prev (node m a).
Proof.
  intros Hp Hn. unfold unlink. node_simpl.
  destruct (decide (a = p)) as [->|Hap]; [by rewrite decide_True|].
  rewrite decide_False by done.
  destruct (next (node m p)) as [n|] eqn:En; node_simpl.
  - destruct (decide (n = p)) as [->|]; [done|]. 
    destruct (prev (node m p)) as [q|] eqn:Eq; node_simpl;
      destruct (decide (n = a)) as [->|]; rewrite ?decide_True, ?decide_False by congruence; congruence.
  - rewrite decide_False by congruence. by destruct (prev (node m p)) as [q|]; node_simpl.
Qed.

Lemma unlink_next m p a : prev (node m p) <> Some p -> next (node m p) <> Some p ->
  next (node (unlink m p) a) =
    if decide (a = p) then None
    else if decide (prev (node m p) = Some a) then next (node m p) else next (node m a).
Proof.
  intros Hp Hn. unfold unlink. node_simpl.
  destruct (decide (a = p)) as [->|Hap]; [by rewrite decide_True|].
  rewrite decide_False by done.
  destruct (next (node m p)) as [n|] eqn:En; node_simpl.
  - rewrite (decide_False (P := n = p)) by congruence.
    destruct (prev (node m p)) as [q|] eqn:Eq; node_simpl; [|done].
    rewrite En. destruct (decide (q = a)) as [->|];
      rewrite ?decide_True, ?decide_False by congruence; done.
  - destruct (prev (node m p)) as [q|] eqn:Eq; node_simpl; [|done].
    rewrite En. destruct (decide (q = a)) as [->|];
      rewrite ?decide_True, ?decide_False by congruence; done.
Qed.

Lemma lookup_remove_mid (l1 l2 : list laddr) p i :
  (l1 ++ l2) !! i = (l1 ++ p :: l2) !! (if decide (i < length l1)%nat then i else S i).
Proof.
  case_decide as H.
  - by rewrite !lookup_app_l by lia.
  - rewrite !lookup_app_r by lia.
    by replace (S i - length l1)%nat with (S (i - length l1)) by lia.
Qed.

(** The neighbours of a queued node. *)
Lemma linked_mid m l1 p l2 : linked m (l1 ++ p :: l2) ->
  prev (node m p) = last l1 /\ next (node m p) = l2 !! O.
Proof.
  intros Hl. destruct (Hl (length l1) p) as [-> ->].
  { by rewrite lookup_app_r, Nat.sub_diag by lia. }
  split; [apply pred_at_length|].
  rewrite lookup_app_r by lia. by replace (S (length l1) - length l1)%nat with 1%nat by lia.
Qed.

Lemma NoDup_mid (l1 l2 : list laddr) p : NoDup (l1 ++ p :: l2) ->
  (p ∉ l1) /\ (p ∉ l2) /\ NoDup (l1 ++ l2) /\ (forall a, a ∈ l1 -> a ∉ l2).
Proof.
  intros Hnd. rewrite <- Permutation_middle in Hnd. apply NoDup_cons in Hnd as [H1 H2].
  rewrite not_elem_of_app in H1. destruct H1. split_and!; try done.
  apply NoDup_app in H2 as (_ & Hd & _). done.
Qed.

Lemma linked_mid_irrefl m l1 p l2 : NoDup (l1 ++ p :: l2) -> linked m (l1 ++ p :: l2) ->
  prev (node m p) <> Some p /\ next (node m p) <> Some p.
Proof.
  intros Hnd Hl. destruct (linked_mid _ _ _ _ Hl) as [-> ->].
  destruct (NoDup_mid _ _ _ Hnd) as (H1 & H2 & _). split; intros E.
  - apply H1. by apply last_Some_elem_of.
  - apply H2. by eapply list_elem_of_lookup_2.
Qed.

(** Unlinking a node of a list leaves the list without it. *)
Lemma unlink_linked m l1 p l2 :
  NoDup (l1 ++ p :: l2) -> linked m (l1 ++ p :: l2) -> linked (unlink m p) (l1 ++ l2).
Proof.
  intros Hnd Hl i a Hi.
  destruct (linked_mid_irrefl _ _ _ _ Hnd Hl) as [Hip Hin].
  destruct (NoDup_mid _ _ _ Hnd) as (H1 & H2 & Hnd' & Hdisj).
  destruct (linked_mid _ _ _ _ Hl) as [Ep En].
  assert (a <> p) as Hap.
  { intros ->. apply list_elem_of_lookup_2 in Hi. apply elem_of_app in Hi as [|]; done. }
  rewrite unlink_prev, unlink_next, !(decide_False (P := a = p)) by done.
  pose proof Hi as Hi'. rewrite (lookup_remove_mid _ _ p) in Hi'.
  destruct (Hl _ _ Hi') as [Hpr Hnx]. rewrite Ep, En. split.
  - destruct (decide (i < length l1)%nat) as [Hlt|Hge].
    + rewrite decide_False.
      * rewrite Hpr, !pred_at_app_l by lia. done.
      * intros E. apply (Hdisj a); [|by eapply list_elem_of_lookup_2].
        rewrite lookup_app_l in Hi by lia. by eapply list_elem_of_lookup_2.
    + rewrite lookup_app_r in Hi by lia. case_decide as E.
      * assert (i = length l1) as ->.
        { pose proof (proj2 (proj1 (NoDup_app _ _) Hnd')) as [_ Hnd2].
          pose proof (NoDup_lookup _ _ _ _ Hnd2 Hi E). lia. }
        by rewrite pred_at_length.
      * rewrite Hpr. destruct (decide (i = length l1)) as [->|].
        { rewrite Nat.sub_diag in Hi. done. }
        destruct i as [|j]; [lia|]. simpl. rewrite (lookup_remove_mid l1 l2 p).
        by rewrite decide_False by lia.
  - destruct (decide (i < length l1)%nat) as [Hlt|Hge].
    + rewrite lookup_app_l in Hi by lia. case_decide as E.
      * rewrite last_lookup in E.
        assert (i = pred (length l1)) as ->.
        { pose proof (proj1 (proj1 (NoDup_app _ _) Hnd')) as Hnd1.
          by eapply NoDup_lookup. }
        rewrite lookup_app_r by lia. f_equal. lia.
      * rewrite Hnx. rewrite (lookup_remove_mid l1 l2 p).
        rewrite decide_True; [done|].
        destruct (decide (S i = length l1)) as [E'|]; [|lia].
        exfalso. apply E. rewrite last_lookup, <- E'. done.
    + rewrite lookup_app_r in Hi by lia. rewrite decide_False.
      * rewrite Hnx. rewrite (lookup_remove_mid l1 l2 p). by rewrite decide_False by lia.
      * intros E. apply (Hdisj a); [by apply last_Some_elem_of|by eapply list_elem_of_lookup_2].
Qed.

(** The pointers of [p] are still those of the original store when the
    routines read them for the head and the tail. *)
Lemma unlink_reads m p : prev (node m p) <> Some p -> next (node m p) <> Some p ->
  let m1 := match next (node m p) with
            | Some n => set_prev n (prev (node m p)) m | None => m end in
  let m2 := match prev (node m1 p) with
            | Some q => set_next q (next (node m1 p)) m1 | None => m1 end in
  next (node m2 p) = next (node m p) /\ prev (node m2 p) = prev (node m p) /\
  set_prev p None (set_next p None m2) = unlink m p.
Proof.
  intros Hp Hn. simpl. unfold unlink.
  destruct (next (node m p)) as [n|] eqn:En; node_simpl;
    rewrite ?(decide_False (P := n = p)) by congruence;
    destruct (prev (node m p)) as [q|] eqn:Eq; node_simpl;
    rewrite ?(decide_False (P := q = p)), ?(decide_False (P := n = p)) by congruence;
    rewrite ?En, ?Eq; done.
Qed.

Lemma queue_remove_eq m sq p : prev (node m p) <> Some p -> next (node m p) <> Some p ->
  queue_remove m sq p =
    (unlink m p, mk_queue (if decide (head sq = Some p) then next (node m p) else head sq)
                          (if decide (tail sq = Some p) then prev (node m p) else tail sq)).
Proof.
  intros Hp Hn. unfold queue_remove. destruct (unlink_reads m p Hp Hn) as (-> & -> & ->).
  destruct sq as [h t]; simpl. repeat (case_decide; simpl in *; subst; try congruence; try done).
Qed.

Lemma head_remove_mid (l1 l2 : list laddr) p : p ∉ l1 ->
  (if decide ((l1 ++ p :: l2) !! O = Some p) then l2 !! O else (l1 ++ p :: l2) !! O) = (l1 ++ l2) !! O.
Proof.
  intros Hp. destruct l1 as [|a l1]; simpl; [by rewrite decide_True|].
  rewrite decide_False; [done|]. intros [= ->]. apply Hp. by left.
Qed.

Lemma tail_remove_mid (l1 l2 : list laddr) p : p ∉ l2 ->
  (if decide (last (l1 ++ p :: l2) = Some p) then last l1 else last (l1 ++ p :: l2)) = last (l1 ++ l2).
Proof.
  intros Hp. rewrite !last_app, last_cons. destruct (last l2) as [a|] eqn:E; simpl.
  - rewrite decide_False; [done|]. intros [= ->]. apply Hp. by apply last_Some_elem_of.
  - by rewrite decide_True.
Qed.

(** [queue_remove] takes the node out of the middle of its queue. *)
Lemma queue_remove_spec m sq l1 p l2 :
  qrep m sq (l1 ++ p :: l2) ->
  queue_remove m sq p = (unlink m p, (queue_remove m sq p).2) /\
  qrep (unlink m p) (queue_remove m sq p).2 (l1 ++ l2).
Proof.
  intros (Hh & Ht & Hnd & Hl).
  destruct (linked_mid_irrefl _ _ _ _ Hnd Hl) as [Hip Hin].
  destruct (NoDup_mid _ _ _ Hnd) as (H1 & H2 & Hnd' & _).
  destruct (linked_mid _ _ _ _ Hl) as [Ep En].
  rewrite queue_remove_eq by done. split; [done|]. rewrite Hh, Ht, Ep, En. split_and!; simpl.
  - by apply head_remove_mid.
  - by apply tail_remove_mid.
  - done.
  - by apply unlink_linked.
Qed.

(** Removing a node that is in no queue changes no link. *)
Lemma queue_remove_absent m sq l p :
  qrep m sq l -> p ∉ l -> clean m p ->
  queue_remove m sq p = (unlink m p, sq).
Proof.
  intros (Hh & Ht & _) Hp [Ep En]. rewrite queue_remove_eq by congruence. f_equal.
  destruct sq as [h t]; simpl in *. rewrite !decide_False; [done| |].
  - intros E. apply Hp. apply last_Some_elem_of. congruence.
  - intros E. apply Hp. eapply list_elem_of_lookup_2. rewrite <- Hh. done.
Qed.

Lemma unlink_clean_self m p : prev (node m p) <> Some p -> next (node m p) <> Some p ->
  clean (unlink m p) p.
Proof. intros Hp Hn. split; rewrite ?unlink_prev, ?unlink_next by done; by rewrite decide_True. Qed.

(** [unlink] writes the node and its neighbours only. *)
Lemma unlink_other m p a :
  a <> p -> prev (node m p) <> Some a -> next (node m p) <> Some a ->
  next (node m p) <> Some p -> node (unlink m p) a = node m a.
Proof.
  intros Hap Hp Hn Hnp. unfold unlink, set_prev, set_next.
  rewrite !node_insert, !decide_False by done.
  destruct (next (node m p)) as [n|] eqn:En.
  - rewrite node_insert, decide_False by congruence.
    destruct (prev (node m p)) as [q|] eqn:Eq;
      rewrite ?node_insert, ?(decide_False (P := q = a)), ?(decide_False (P := n = a)) by congruence; done.
  - destruct (prev (node m p)) as [q|]; [|done].
    by rewrite node_insert, decide_False by congruence.
Qed.

Lemma queue_extract_eq m sq p :
  head sq = Some p -> prev (node m p) = None -> next (node m p) <> Some p ->
  queue_extract m sq =
    (this (node m p), unlink m p,
     mk_queue (next (node m p)) (match next (node m p) with Some _ => tail sq | None => None end)).
Proof.
  intros Hh Ep Hn. unfold queue_extract, unlink. rewrite Hh. simpl.
  destruct (next (node m p)) as [n|] eqn:En; node_simpl.
  - rewrite (decide_False (P := n = p)) by congruence. by rewrite Ep.
  - by rewrite Ep.
Qed.

(** [queue_extract] takes the head out and returns its [this]. *)
Lemma queue_extract_spec m sq p l :
  qrep m sq (p :: l) ->
  queue_extract m sq = (this (node m p), unlink m p, (queue_extract m sq).2) /\
  qrep (unlink m p) (queue_extract m sq).2 l.
Proof.
  intros Hq. pose proof (queue_remove_spec m sq [] p l Hq) as [_ Hr].
  destruct Hq as (Hh & Ht & Hnd & Hl).
  destruct (linked_mid_irrefl m [] p l Hnd Hl) as [Hip Hin].
  destruct (linked_mid m [] p l Hl) as [Ep En].
  rewrite queue_remove_eq in Hr by done.
  rewrite (queue_extract_eq m sq p) by done. split; [done|]. simpl.
  destruct Hr as (Hh' & Ht' & Hnd' & Hl'). simpl in *. split_and!; try done.
  rewrite En, Ep, Ht in *. by destruct l as [|b l].
Qed.

Lemma queue_extract_empty m sq : qrep m sq [] -> queue_extract m sq = (None, m, null_queue).
Proof. intros (Hh & _). unfold queue_extract. rewrite Hh. simpl in *. by rewrite Hh. Qed.

(** ** The timeout list: linked_list.h *)

Lemma remove_linked_list_eq m h p : prev (node m p) <> Some p -> next (node m p) <> Some p ->
  remove_linked_list m h p =
    (unlink m p, if decide (h = Some p) then next (node m p) else h).
Proof.
  intros Hp Hn. unfold remove_linked_list. by destruct (unlink_reads m p Hp Hn) as (-> & _ & ->).
Qed.

Lemma remove_linked_list_spec m h l1 p l2 :
  lrep m h (l1 ++ p :: l2) ->
  lrep (remove_linked_list m h p).1 (remove_linked_list m h p).2 (l1 ++ l2).
Proof.
  intros (Hh & Hnd & Hl).
  destruct (linked_mid_irrefl _ _ _ _ Hnd Hl) as [Hip Hin].
  destruct (NoDup_mid _ _ _ Hnd) as (H1 & H2 & Hnd' & _).
  destruct (linked_mid _ _ _ _ Hl) as [Ep En].
  rewrite remove_linked_list_eq by done. simpl. rewrite Hh, En. split_and!.
  - by apply head_remove_mid.
  - done.
  - by apply unlink_linked.
Qed.

Lemma remove_linked_list_absent m h l p :
  lrep m h l -> p ∉ l -> clean m p -> remove_linked_list m h p = (unlink m p, h).
Proof.
  intros (Hh & _) Hp [Ep En]. rewrite remove_linked_list_eq by congruence. f_equal.
  rewrite decide_False; [done|]. intros E. apply Hp.
  eapply list_elem_of_lookup_2. rewrite <- Hh. done.
Qed.

(** [insert_linked_list] pushes the node in front, when its [prev] is NULL:
    the routine does not reset it. *)
Lemma insert_linked_list_spec m h l p :
  lrep m h l -> p ∉ l -> prev (node m p) = None ->
  lrep (insert_linked_list m h p).1 (insert_linked_list m h p).2 (p :: l).
Proof.
  intros (Hh & Hnd & Hl) Hp Ep. unfold insert_linked_list. simpl. split_and!; [done|by constructor|].
  intros [|i] a Ha; simpl in *.
  - injection Ha as <-. node_simpl. rewrite decide_True by done. split; [|done].
    destruct h as [b|]; node_simpl; [|done].
    rewrite decide_False; [done|]. intros ->. apply Hp. by eapply list_elem_of_lookup_2.
  - assert (p <> a) by (intros ->; apply Hp; by eapply list_elem_of_lookup_2).
    destruct (Hl i a Ha) as [Hpr Hnx]. node_simpl. rewrite decide_False by done. split.
    + destruct i as [|i]; simpl in *.
      * rewrite Ha in Hh. rewrite Hh. node_simpl. by rewrite decide_True.
      * rewrite <- Hpr. destruct h as [b|]; node_simpl; [|done].
        rewrite decide_False; [done|]. intros ->.
        pose proof (NoDup_lookup _ _ _ _ Hnd Ha (eq_sym Hh)). lia.
    + by destruct h as [b|]; node_simpl.
Qed.

Lemma insert_linked_list_head m h p : (insert_linked_list m h p).2 = Some p.
Proof. done. Qed.

Lemma insert_linked_list_other m h p a : a <> p -> h <> Some a ->
  node (insert_linked_list m h p).1 a = node m a.
Proof.
  intros Ha Hh. unfold insert_linked_list, set_next, set_prev. simpl.
  rewrite node_insert, decide_False by done. destruct h; [|done].
  rewrite node_insert, decide_False; [done|congruence].
Qed.

(** [remove_head_linked_list] pops the first node. *)
Lemma remove_head_linked_list_spec m h p l :
  lrep m h (p :: l) ->
  remove_head_linked_list m h =
    (this (node m p), unlink m p, l !! O) /\ lrep (unlink m p) (l !! O) l.
Proof.
  intros (Hh & Hnd & Hl).
  destruct (linked_mid_irrefl m [] p l Hnd Hl) as [Hip Hin].
  destruct (linked_mid m [] p l Hl) as [Ep En].
  pose proof (unlink_linked m [] p l Hnd Hl) as Hl'.
  apply NoDup_cons in Hnd as [Hp Hnd]. simpl in *. split; [|by split_and!].
  unfold remove_head_linked_list, unlink. rewrite Hh. rewrite En, Ep.
  destruct (l !! O) as [b|] eqn:Eb; node_simpl.
  - rewrite decide_False by congruence. by rewrite Ep.
  - by rewrite Ep.
Qed.
End queue_lemmas.

(** Clients use the lemmas, not the pointer code. *)
#[global] Opaque queue_is_empty queue_insert queue_remove queue_extract
  remove_linked_list insert_linked_list remove_head_linked_list unlink.
