(* ===== verification/Qfam.v ===== *)
(** * Families of queues

    The ready queue is an array of queues of [rdyque] nodes, one per priority;
    the wait queues of all semaphores, eventflags, mailboxes and memory pools
    link the [synque] nodes. In both cases a task has one node of the kind, so
    it is in one queue of the family at most; so is a message in the queues of
    the mailboxes. [qfam_of] states this for a family indexed by [K], and the
    lemmas lift the routines of queue.h to it. *)

From Stdlib Require Import ZArith Lia.
From stdpp Require Import base tactics gmap option functions countable list.
From S2P Require Import Prelude Queue.

(** The list without [i]. *)
Definition without {J} `{!EqDecision J} (i : J) (l : list J) : list J := filter (fun j => j <> i) l.

(** Only nodes of the kind [nd] differ between the two stores. *)
Definition only_nodes {J} (nd : J -> laddr) (m m' : gmap laddr linked_list_t) : Prop :=
  forall a, (forall j, a <> nd j) -> node m' a = node m a.

(** [nd i] is the node of the element [i], which points to the object [ob i]. *)
Record qfam_of {K J : Type} {ob : J -> obj} (nd : J -> laddr) (m : gmap laddr linked_list_t)
    (q : K -> queue_t) (Q : K -> list J) : Prop := {
  qf_rep : forall k, qrep m (q k) (nd <$> Q k);
  qf_this : forall k i, i ∈ Q k -> this (node m (nd i)) = Some (ob i);
  qf_disj : forall k k' i, i ∈ Q k -> i ∈ Q k' -> k = k';
  qf_clean : forall i, (forall k, i ∉ Q k) -> clean m (nd i)
}.

(** Queues of tasks. *)
Abbreviation qfam := (qfam_of (ob := OTask)).

Section without.
Context {J : Type} `{!EqDecision J}.
Implicit Types (nd : J -> laddr) (i j : J) (l : list J).

Lemma only_nodes_refl nd m : only_nodes nd m m.
Proof. by intros a _. Qed.

Lemma only_nodes_trans nd m1 m2 m3 :
  only_nodes nd m1 m2 -> only_nodes nd m2 m3 -> only_nodes nd m1 m3.
Proof. intros H1 H2 a Ha. by rewrite H2, H1. Qed.

Lemma without_not_in i l : i ∉ without i l.
Proof. unfold without. rewrite list_elem_of_filter. tauto. Qed.

Lemma elem_of_without i j l : j ∈ without i l <-> j <> i /\ j ∈ l.
Proof. unfold without. by rewrite list_elem_of_filter. Qed.

Lemma without_notin i l : i ∉ l -> without i l = l.
Proof.
  induction l as [|a l IH]; intros Hi; [done|]. unfold without. rewrite filter_cons.
  apply not_elem_of_cons in Hi as [Hia Hi].
  rewrite decide_True by done. f_equal. by apply IH.
Qed.

Lemma without_app i l1 l2 : without i (l1 ++ l2) = without i l1 ++ without i l2.
Proof. apply filter_app. Qed.

Lemma without_mid i l1 l2 : i ∉ l1 -> i ∉ l2 -> without i (l1 ++ i :: l2) = l1 ++ l2.
Proof.
  intros H1 H2. unfold without. rewrite filter_app, filter_cons, decide_False by naive_solver.
  fold (without i l1) (without i l2). by rewrite !without_notin.
Qed.

Lemma elem_of_fn_insert {K} `{!EqDecision K} (Q : K -> list J) k k' l j :
  j ∈ (<[k := l]> Q) k' <-> (k' = k /\ j ∈ l) \/ (k' <> k /\ j ∈ Q k').
Proof.
  destruct (decide (k' = k)) as [->|Hne].
  - rewrite fn_lookup_insert. naive_solver.
  - rewrite fn_lookup_insert_ne by done. naive_solver.
Qed.

End without.

Section qfam.
Context {K J : Type} `{!EqDecision K} `{!EqDecision J} {ob : J -> obj} (nd : J -> laddr) `{!Inj (=) (=) nd}.
Implicit Types (m : gmap laddr linked_list_t) (q : K -> queue_t) (Q : K -> list J) (k : K) (i j : J).

Lemma qfam_init m q : (forall k, q k = null_queue) -> (forall i, clean m (nd i)) ->
  qfam_of (ob := ob) nd m q (fun _ => []).
Proof.
  intros Hq Hc. split.
  - intros k. rewrite Hq. apply qrep_nil.
  - intros k i Hi. by apply not_elem_of_nil in Hi.
  - intros k k' i Hi. by apply not_elem_of_nil in Hi.
  - intros i _. apply Hc.
Qed.

(** Writes to nodes of other kinds do not matter. *)
Lemma qfam_frame m m' q q' Q :
  (forall i, node m' (nd i) = node m (nd i)) -> (forall k, q' k = q k) ->
  qfam_of (ob := ob) nd m q Q -> qfam_of (ob := ob) nd m' q' Q.
Proof.
  intros Hm Hq [Hr Ht Hd Hc]. split; auto.
  - intros k. rewrite Hq. eapply qrep_agree; [|apply Hr].
    intros a (i & -> & _)%list_elem_of_fmap. by rewrite Hm.
  - intros k i Hi. rewrite Hm. by eapply Ht.
  - intros i Hi. unfold clean. rewrite Hm. by apply Hc.
Qed.

Lemma qfam_only m m' q Q nd' :
  only_nodes nd' m m' -> (forall i j, nd i <> nd' j) -> qfam_of (ob := ob) nd m q Q -> qfam_of (ob := ob) nd m' q Q.
Proof. intros Ho Hne. apply qfam_frame; auto. Qed.

Lemma qfam_NoDup m q Q k : qfam_of (ob := ob) nd m q Q -> NoDup (Q k).
Proof. intros [Hr _ _ _]. destruct (Hr k) as (_ & _ & Hnd & _). by eapply NoDup_fmap_1. Qed.

(** The last node of a queue of the family is a node of its list. *)
Lemma qfam_tail m q Q k t : qfam_of (ob := ob) nd m q Q -> tail (q k) = Some t ->
  exists j, t = nd j /\ j ∈ Q k.
Proof.
  intros [Hr _ _ _] Et. destruct (Hr k) as (_ & Ht & _). rewrite Et in Ht. symmetry in Ht.
  apply last_Some_elem_of in Ht. apply list_elem_of_fmap in Ht. naive_solver.
Qed.

Lemma qfam_insert m q q' Q k i :
  qfam_of (ob := ob) nd m q Q -> (forall k', i ∉ Q k') -> this (node m (nd i)) = Some (ob i) ->
  q' k = (queue_insert m (q k) (nd i)).2 -> (forall k', k' <> k -> q' k' = q k') ->
  qfam_of (ob := ob) nd (queue_insert m (q k) (nd i)).1 q' (<[k := Q k ++ [i]]> Q).
Proof.
  intros Hf Hni Hthis Hk Hk'. pose proof Hf as [Hr Ht Hd Hc]. destruct (Hc i Hni) as [_ Hnx].
  assert (forall j, j <> i -> j ∉ Q k ->
    node (queue_insert m (q k) (nd i)).1 (nd j) = node m (nd j)) as Hother.
  { intros j Hji Hjk. apply queue_insert_other; [by intros E%(inj nd)|].
    intros (j' & ->%(inj nd) & Hj')%(qfam_tail _ _ _ _ _ Hf). done. }
  split.
  - intros k'. destruct (decide (k' = k)) as [->|Hne].
    + rewrite fn_lookup_insert, Hk, fmap_app. apply queue_insert_spec; [done| |done].
      intros (j & ->%(inj nd) & Hj)%list_elem_of_fmap. by apply (Hni k).
    + rewrite fn_lookup_insert_ne, Hk' by done. eapply qrep_agree; [|apply Hr].
      intros a (j & -> & Hj)%list_elem_of_fmap. rewrite Hother; [done| |].
      * intros ->. by apply (Hni k').
      * intros Hj'. apply Hne. by eapply Hd.
  - intros k' j Hj%elem_of_fn_insert. rewrite queue_insert_this.
    destruct (decide (j = i)) as [->|]; [done|]. apply (Ht k').
    rewrite elem_of_app, list_elem_of_singleton in Hj. naive_solver.
  - intros k1 k2 j H1%elem_of_fn_insert H2%elem_of_fn_insert.
    rewrite elem_of_app, list_elem_of_singleton in *.
    destruct (decide (j = i)) as [->|]; naive_solver.
  - intros j Hj. setoid_rewrite elem_of_fn_insert in Hj.
    setoid_rewrite elem_of_app in Hj. setoid_rewrite list_elem_of_singleton in Hj.
    assert (forall k', j ∉ Q k') as Hj' by (intros k' ?; destruct (decide (k' = k)); naive_solver).
    unfold clean. rewrite Hother by naive_solver. by apply Hc.
Qed.

Lemma qfam_insert_only m q Q k i : qfam_of (ob := ob) nd m q Q ->
  only_nodes nd m (queue_insert m (q k) (nd i)).1.
Proof.
  intros Hf a Ha. apply queue_insert_other; [by intros ->; by apply (Ha i)|].
  intros (j & -> & _)%(qfam_tail _ _ _ _ _ Hf). by apply (Ha j).
Qed.

(** A queued node of the family splits its queue. *)
Lemma qfam_split m q Q k i : qfam_of (ob := ob) nd m q Q -> i ∈ Q k ->
  exists l1 l2, Q k = l1 ++ i :: l2 /\ without i (Q k) = l1 ++ l2 /\
    qrep m (q k) ((nd <$> l1) ++ nd i :: (nd <$> l2)).
Proof.
  intros Hf Hi. pose proof (qfam_NoDup _ _ _ k Hf) as Hnd.
  apply list_elem_of_split in Hi as (l1 & l2 & E). exists l1, l2.
  pose proof (qf_rep _ _ _ _ Hf k) as Hr. rewrite E in *. split_and!; [done| |].
  - rewrite <- Permutation_middle in Hnd. apply NoDup_cons in Hnd as [Hni _].
    rewrite not_elem_of_app in Hni. destruct Hni. by apply without_mid.
  - by rewrite fmap_app, fmap_cons in Hr.
Qed.

(** The neighbours of a queued node are nodes of its own queue. *)
Lemma qfam_neighbours m q Q k i : qfam_of (ob := ob) nd m q Q -> i ∈ Q k ->
  (forall a, prev (node m (nd i)) = Some a -> exists j, a = nd j /\ j ∈ Q k /\ j <> i) /\
  (forall a, next (node m (nd i)) = Some a -> exists j, a = nd j /\ j ∈ Q k /\ j <> i).
Proof.
  intros Hf Hi. destruct (qfam_split _ _ _ _ _ Hf Hi) as (l1 & l2 & E & _ & (_ & _ & Hnd & Hl)).
  destruct (linked_mid _ _ _ _ Hl) as [-> ->].
  destruct (NoDup_mid _ _ _ Hnd) as (H1 & H2 & _). split; intros a Ha.
  - apply last_Some_elem_of in Ha. pose proof Ha as (j & -> & Hj)%list_elem_of_fmap.
    exists j. split_and!; [done|rewrite E, elem_of_app; by left|by intros ->].
  - apply list_elem_of_lookup_2 in Ha. pose proof Ha as (j & -> & Hj)%list_elem_of_fmap.
    exists j. split_and!; [done|rewrite E, elem_of_app, elem_of_cons; by right; right|by intros ->].
Qed.

Lemma qfam_unlink_other m q Q k i a : qfam_of (ob := ob) nd m q Q -> i ∈ Q k ->
  (forall j, j ∈ Q k -> a <> nd j) -> node (unlink m (nd i)) a = node m a.
Proof.
  intros Hf Hi Ha. destruct (qfam_neighbours _ _ _ _ _ Hf Hi) as [Hp Hn].
  apply unlink_other.
  - by apply Ha.
  - intros (j & -> & Hj & _)%Hp. by apply (Ha j).
  - intros (j & -> & Hj & _)%Hn. by apply (Ha j).
  - intros (j & ->%(inj nd) & Hj & Hne)%Hn. done.
Qed.

Lemma qfam_unlink_only m q Q k i : qfam_of (ob := ob) nd m q Q -> i ∈ Q k ->
  only_nodes nd m (unlink m (nd i)).
Proof. intros Hf Hi a Ha. eapply qfam_unlink_other; eauto. Qed.

(** Unlinking a queued node and repairing its queue keeps the family. *)
Lemma qfam_unlink m q q' Q k i :
  qfam_of (ob := ob) nd m q Q -> i ∈ Q k ->
  qrep (unlink m (nd i)) (q' k) (nd <$> without i (Q k)) ->
  (forall k', k' <> k -> q' k' = q k') ->
  qfam_of (ob := ob) nd (unlink m (nd i)) q' (<[k := without i (Q k)]> Q).
Proof.
  intros Hf Hi Hk Hk'. pose proof Hf as [Hr Ht Hd Hc]. 
  destruct (qfam_neighbours _ _ _ _ _ Hf Hi) as [Hp Hn].
  split.
  - intros k'. destruct (decide (k' = k)) as [->|Hne]; [by rewrite fn_lookup_insert|].
    rewrite fn_lookup_insert_ne, Hk' by done. eapply qrep_agree; [|apply Hr].
    intros a (j & -> & Hj)%list_elem_of_fmap.
    erewrite qfam_unlink_other; [done|done|done|].
    intros j' Hj' ->%(inj nd). apply Hne. by eapply Hd.
  - intros k' j Hj%elem_of_fn_insert. rewrite unlink_this. apply (Ht k').
    rewrite elem_of_without in Hj. naive_solver.
  - intros k1 k2 j H1%elem_of_fn_insert H2%elem_of_fn_insert.
    rewrite elem_of_without in *. naive_solver.
  - intros j Hj. setoid_rewrite elem_of_fn_insert in Hj. setoid_rewrite elem_of_without in Hj.
    destruct (decide (j = i)) as [->|Hji].
    { apply unlink_clean_self.
      - intros (j & ->%(inj nd) & _ & ?)%Hp. done.
      - intros (j & ->%(inj nd) & _ & ?)%Hn. done. }
    assert (forall k', j ∉ Q k') as Hj' by (intros k' ?; destruct (decide (k' = k)); naive_solver).
    unfold clean. erewrite qfam_unlink_other; [by apply Hc|done|done|].
    intros j' Hj'' ->%(inj nd). by apply (Hj' k).
Qed.

(** [queue_remove] of a queued task. *)
Lemma qfam_remove m q q' Q k i :
  qfam_of (ob := ob) nd m q Q -> i ∈ Q k ->
  q' k = (queue_remove m (q k) (nd i)).2 -> (forall k', k' <> k -> q' k' = q k') ->
  (queue_remove m (q k) (nd i)).1 = unlink m (nd i) /\
  qfam_of (ob := ob) nd (unlink m (nd i)) q' (<[k := without i (Q k)]> Q).
Proof.
  intros Hf Hi Hk Hk'. destruct (qfam_split _ _ _ _ _ Hf Hi) as (l1 & l2 & E & Ew & Hr).
  destruct (queue_remove_spec _ _ _ _ _ Hr) as [Eq Hr'].
  split; [by rewrite Eq|]. apply qfam_unlink with q; auto.
  by rewrite Hk, Ew, fmap_app.
Qed.

(** [queue_extract] of a non-empty queue returns the task at its head. *)
Lemma qfam_extract m q q' Q k i l :
  qfam_of (ob := ob) nd m q Q -> Q k = i :: l ->
  q' k = (queue_extract m (q k)).2 -> (forall k', k' <> k -> q' k' = q k') ->
  (queue_extract m (q k)).1 = (Some (ob i), unlink m (nd i)) /\
  qfam_of (ob := ob) nd (unlink m (nd i)) q' (<[k := l]> Q).
Proof.
  intros Hf E Hk Hk'. pose proof (qf_rep _ _ _ _ Hf k) as Hr. rewrite E in Hr.
  destruct (queue_extract_spec _ _ _ _ Hr) as [Eq Hr'].
  assert (i ∈ Q k) as Hi by (rewrite E; left).
  pose proof (qfam_NoDup _ _ _ k Hf) as Hnd. rewrite E in Hnd. apply NoDup_cons in Hnd as [Hil _].
  assert (without i (Q k) = l) as Ew.
  { rewrite E. apply (without_mid i [] l); [apply not_elem_of_nil|done]. }
  split.
  - rewrite Eq. simpl. by rewrite (qf_this _ _ _ _ Hf k i Hi).
  - rewrite <- Ew. apply qfam_unlink with q; auto. by rewrite Hk, Ew.
Qed.

(** [queue_remove] of a task in no queue of the family changes nothing. *)
Lemma qfam_remove_absent m q Q k i :
  qfam_of (ob := ob) nd m q Q -> (forall k', i ∉ Q k') ->
  queue_remove m (q k) (nd i) = (unlink m (nd i), q k) /\
  (forall a, prev (node (unlink m (nd i)) a) = prev (node m a) /\
             next (node (unlink m (nd i)) a) = next (node m a) /\
             this (node (unlink m (nd i)) a) = this (node m a)).
Proof.
  intros Hf Hi. destruct (qf_clean _ _ _ _ Hf i Hi) as [Ep En]. split.
  - eapply queue_remove_absent; [apply Hf| |done].
    intros (j & ->%(inj nd) & Hj)%list_elem_of_fmap. by apply (Hi k).
  - intros a. rewrite unlink_this, unlink_prev, unlink_next by congruence.
    rewrite Ep, En. repeat (case_decide; subst; try done).
Qed.

(** The family is determined by its lists. *)
Lemma qfam_ext m q Q Q' : (forall k, Q' k = Q k) -> qfam_of (ob := ob) nd m q Q -> qfam_of (ob := ob) nd m q Q'.
Proof.
  intros HQ [Hr Ht Hd Hc]. split; intros *; rewrite ?HQ; eauto.
  intros Hi. apply Hc. intros k. rewrite <- HQ. apply Hi.
Qed.

(** Stores with the same links represent the same families. *)
Lemma qfam_links m m' q Q :
  (forall a, prev (node m' a) = prev (node m a) /\ next (node m' a) = next (node m a) /\
             this (node m' a) = this (node m a)) ->
  qfam_of (ob := ob) nd m q Q -> qfam_of (ob := ob) nd m' q Q.
Proof.
  intros Hm. assert (forall a, node m' a = node m a) as Hm'.
  { intros a. destruct (Hm a) as (H1 & H2 & H3).
    destruct (node m' a), (node m a); simpl in *. congruence. }
  by apply qfam_frame.
Qed.

(** [queue_remove] of a task that is in queue [k] or in none. *)
Lemma qfam_remove_any m q q' Q k i :
  qfam_of (ob := ob) nd m q Q -> (forall k', i ∈ Q k' -> k' = k) ->
  q' k = (queue_remove m (q k) (nd i)).2 -> (forall k', k' <> k -> q' k' = q k') ->
  (queue_remove m (q k) (nd i)).1 = unlink m (nd i) /\
  only_nodes nd m (unlink m (nd i)) /\
  qfam_of (ob := ob) nd (unlink m (nd i)) q' (<[k := without i (Q k)]> Q).
Proof.
  intros Hf Hin Hk Hk'. destruct (decide (i ∈ Q k)) as [Hi|Hi].
  - destruct (qfam_remove m q q' Q k i Hf Hi Hk Hk') as [E Hf'].
    split_and!; [done|by eapply qfam_unlink_only|done].
  - assert (forall k', i ∉ Q k') as Hni.
    { intros k' Hi'. pose proof (Hin _ Hi'). by subst. }
    destruct (qfam_remove_absent m q Q k i Hf Hni) as [E Hl]. rewrite E in *. simpl in *.
    split_and!; [done| |].
    + intros a Ha. destruct (qf_clean _ _ _ _ Hf i Hni) as [Ep En].
      by apply unlink_other; rewrite ?Ep, ?En.
    + eapply (qfam_ext _ _ Q).
      { intros k'. destruct (decide (k' = k)) as [->|].
        - by rewrite fn_lookup_insert, without_notin.
        - by rewrite fn_lookup_insert_ne. }
      apply (qfam_frame m _ q); [|intros k'; destruct (decide (k' = k)) as [->|]; auto|done].
      intros j. destruct (Hl (nd j)) as (H1 & H2 & H3).
      destruct (node (unlink m (nd i)) (nd j)), (node m (nd j)); simpl in *. congruence.
Qed.
End qfam.
