(* ===== verification/Mem.v ===== *)
(** * Raw memory

    The memory that the kernel reaches through untyped pointers: the block
    pools of mpool.c, the TLSF arenas, and the words a system call writes
    through a pointer of its caller. It is a store of 32-bit words indexed by
    their address; a word never written reads as zero. A NULL or misaligned
    access faults, as it does on the Blackfin. *)

From Stdlib Require Import ZArith Lia.
From stdpp Require Import base tactics gmap option list.
From S2P Require Import Prelude.

Open Scope Z_scope.

Definition NULL : Z := 0.

Definition sizeof_ptr : Z := 4.

(** The address of an aligned word that is not NULL. *)
Definition valid_addr (a : Z) : bool := nz a && (Z.land a 3 =? 0).

Definition peek (m : gmap Z Z) (a : Z) : Z := default 0 (m !! a).

Definition load (a : Z) : M (gmap Z Z) Z :=
  fun m => if valid_addr a then Some (peek m a, m) else None.

Definition store (a v : Z) : M (gmap Z Z) unit :=
  fun m => if valid_addr a then Some (tt, <[a := v]> m) else None.

(** [memset(p, 0, n)] on [n] words. *)
Fixpoint zero_words (a : Z) (n : nat) : M (gmap Z Z) unit :=
  match n with
  | O => ret tt
  | S n' => (store a 0 ;;; zero_words (a + 4) n')%K
  end.

Lemma peek_insert m a b v : peek (<[a := v]> m) b = if decide (a = b) then v else peek m b.
Proof. unfold peek. rewrite lookup_insert. by case_decide. Qed.

Lemma peek_insert_eq m a v : peek (<[a := v]> m) a = v.
Proof. rewrite peek_insert. by rewrite decide_True. Qed.

Lemma peek_insert_ne m a b v : a <> b -> peek (<[a := v]> m) b = peek m b.
Proof. intros H. rewrite peek_insert. by rewrite decide_False. Qed.

Lemma valid_addr_spec a : valid_addr a = true <-> a <> 0 /\ a mod 4 = 0.
Proof.
  unfold valid_addr, nz. change 3 with (Z.ones 2). rewrite Z.land_ones by lia.
  change (2 ^ 2) with 4. rewrite andb_true_iff, negb_true_iff, Z.eqb_neq, Z.eqb_eq. done.
Qed.

Lemma load_valid m a : valid_addr a = true -> load a m = Some (peek m a, m).
Proof. unfold load. by intros ->. Qed.

Lemma store_valid m a v : valid_addr a = true -> store a v m = Some (tt, <[a := v]> m).
Proof. unfold store. by intros ->. Qed.

Lemma wp_load m a (Q : Z -> gmap Z Z -> Prop) :
  valid_addr a = true -> Q (peek m a) m -> wp (load a) Q m.
Proof. intros H HQ. unfold wp. by rewrite load_valid. Qed.

Lemma wp_store m a v (Q : unit -> gmap Z Z -> Prop) :
  valid_addr a = true -> Q tt (<[a := v]> m) -> wp (store a v) Q m.
Proof. intros H HQ. unfold wp. by rewrite store_valid. Qed.
