(* ===== verification/Mpool.v ===== *)
(** * Pools of fixed-size blocks: mpool.c

    A pool starts with a [struct mpool] of five words; a block is a header
    word, the link of the free list, followed by its data. A block is taken
    from the free list, or else from the part of the pool that was never used.

    [freeidx] is a pointer to [struct mpool_block], whose size is one word: the
    additions to it count in words, so a block takes four times its size. *)

From Stdlib Require Import ZArith Lia.
From stdpp Require Import base tactics gmap option list.
From S2P Require Import Prelude Bits Mem.

Open Scope Z_scope.
Open Scope kernel_scope.

(** The offsets of [struct mpool]. *)
Definition mp_blksz (p : Z) : Z := p.
Definition mp_blkcnt (p : Z) : Z := p + 4.
Definition mp_poolend (p : Z) : Z := p + 8.
Definition mp_free (p : Z) : Z := p + 12.
Definition mp_freeidx (p : Z) : Z := p + 16.
Definition mp_base (p : Z) : Z := p + 20.

Definition sizeof_mpool : Z := 20.
Definition sizeof_mpool_block : Z := 4.

(** [POOL_SIZE(BLKSZ, BLKCNT)] *)
Definition POOL_SIZE (blksz blkcnt : Z) : Z := u32 (sizeof_mpool + blkcnt * (blksz + sizeof_ptr)).

(** [CONTAINER_OF(P)] *)
Definition CONTAINER_OF (p : Z) : Z := u32 (p - sizeof_ptr).

Definition mpfree (pool blk : Z) : M (gmap Z Z) unit :=
  let b := CONTAINER_OF blk in
  let* f := load (mp_free pool) in
  store b f ;;;
  store (mp_free pool) b.

(** The bytes that [freeidx] advances for one block. *)
Definition stride (blksz : Z) : Z := sizeof_mpool_block * (blksz + sizeof_ptr).

Definition mpalloc (pool : Z) : M (gmap Z Z) Z :=
  let* f := load (mp_free pool) in
  if f =? NULL then
    let* idx := load (mp_freeidx pool) in
    let* e := load (mp_poolend pool) in
    if idx =? e then ret NULL else
    let* sz := load (mp_blksz pool) in
    store (mp_freeidx pool) (u32 (idx + stride sz)) ;;;
    store idx NULL ;;;
    ret (u32 (idx + 4))
  else
    let* n := load f in
    store (mp_free pool) n ;;;
    store f NULL ;;;
    ret (u32 (f + 4)).

Definition init_pool (base blksz blkcnt : Z) : M (gmap Z Z) unit :=
  let pool := base in
  store (mp_blksz pool) blksz ;;;
  store (mp_blkcnt pool) blkcnt ;;;
  store (mp_free pool) NULL ;;;
  store (mp_freeidx pool) (u32 (mp_base pool)) ;;;
  let* idx := load (mp_freeidx pool) in
  let* cnt := load (mp_blkcnt pool) in
  let* sz := load (mp_blksz pool) in
  store (mp_poolend pool) (u32 (idx + cnt * stride sz)).

(** ** What a pool denotes *)

(** The free list that starts at [h] is [l]. *)
Fixpoint chain (m : gmap Z Z) (h : Z) (l : list Z) : Prop :=
  match l with
  | [] => h = NULL
  | b :: l' => h = b /\ chain m (peek m b) l'
  end.

(** The pool at [p] has [n] blocks of [sz] bytes; the first [k] were handed
    out at least once and [fl] are the blocks of the free list. *)
Record pool_ok (m : gmap Z Z) (p sz n k : Z) (fl : list Z) : Prop := {
  pk_base : 0 < p /\ p mod 4 = 0;
  pk_size : 0 <= sz /\ sz mod 4 = 0;
  pk_room : 0 <= k <= n /\ mp_base p + n * stride sz < 2 ^ 32;
  pk_blksz : peek m (mp_blksz p) = sz;
  pk_end : peek m (mp_poolend p) = mp_base p + n * stride sz;
  pk_idx : peek m (mp_freeidx p) = mp_base p + k * stride sz;
  pk_chain : chain m (peek m (mp_free p)) fl;
  pk_nodup : NoDup fl;
  pk_blk : forall b, b ∈ fl -> exists j, 0 <= j < k /\ b = mp_base p + j * stride sz
}.

(** The header of block [j]. *)
Definition block (p sz j : Z) : Z := mp_base p + j * stride sz.

(** Distinct offsets from the base of a pool. *)
Ltac offsets := unfold mp_base, mp_blksz, mp_blkcnt, mp_poolend, mp_free, mp_freeidx in *; lia.

Section pool.
Implicit Types (m : gmap Z Z) (p sz n k j : Z) (fl : list Z).

Lemma stride_mod sz : sz mod 4 = 0 -> stride sz mod 4 = 0.
Proof. intros H. unfold stride, sizeof_mpool_block. rewrite Z.mul_comm. apply Z_mod_mult. Qed.

Lemma block_valid p sz j : 0 < p -> p mod 4 = 0 -> 0 <= sz -> 0 <= j ->
  valid_addr (block p sz j) = true /\ block p sz j <> 0.
Proof.
  intros Hp Hpm Hs Hj. assert (0 < block p sz j) by (unfold block, mp_base, stride, sizeof_mpool_block, sizeof_ptr; nia).
  split; [|lia]. apply valid_addr_spec. split; [lia|]. unfold block, mp_base, stride, sizeof_mpool_block.
  replace (p + 20 + j * (4 * (sz + sizeof_ptr))) with (p + (5 + j * (sz + sizeof_ptr)) * 4) by lia.
  by rewrite Z_mod_plus_full.
Qed.

Lemma ctl_valid p d : 0 < p -> p mod 4 = 0 -> 0 <= d -> valid_addr (p + 4 * d) = true.
Proof.
  intros Hp Hpm Hd. apply valid_addr_spec. split; [lia|].
  replace (p + 4 * d) with (p + d * 4) by lia. by rewrite Z_mod_plus_full.
Qed.

Lemma block_above p sz j : 0 <= sz -> 0 <= j -> p + 20 <= block p sz j.
Proof. intros. unfold block, mp_base, stride, sizeof_mpool_block, sizeof_ptr. nia. Qed.

Lemma block_inj p sz i j : 0 <= sz -> block p sz i = block p sz j -> i = j.
Proof. intros Hs. unfold block, stride, sizeof_mpool_block, sizeof_ptr. nia. Qed.

Lemma chain_frame m m' h l : (forall b, b ∈ l -> peek m' b = peek m b) -> chain m h l -> chain m' h l.
Proof.
  revert h. induction l as [|b l IH]; intros h Hm; simpl; [done|]. intros [-> Hc]. split; [done|].
  rewrite Hm by left. apply IH; [|done]. intros. apply Hm. by right.
Qed.

(** The words of the control structure. *)
Lemma ctl_words p : 0 < p -> p mod 4 = 0 ->
  valid_addr (mp_blksz p) = true /\ valid_addr (mp_blkcnt p) = true /\ valid_addr (mp_poolend p) = true /\
  valid_addr (mp_free p) = true /\ valid_addr (mp_freeidx p) = true.
Proof.
  intros Hp Hm. unfold mp_blksz, mp_blkcnt, mp_poolend, mp_free, mp_freeidx. split_and!.
  - replace p with (p + 4 * 0) by lia. by apply ctl_valid.
  - by apply (ctl_valid p 1).
  - by apply (ctl_valid p 2).
  - by apply (ctl_valid p 3).
  - by apply (ctl_valid p 4).
Qed.

(** The words a routine of the pool may write: its free list, its frontier and
    the header of a block. *)
Definition pool_frame m m' p b : Prop :=
  forall a, a <> mp_free p -> a <> mp_freeidx p -> a <> b -> peek m' a = peek m a.

Lemma pool_blk_above m p sz n k fl b : pool_ok m p sz n k fl -> b ∈ fl ->
  p + 20 <= b /\ valid_addr b = true /\ b + 4 < 2 ^ 32.
Proof.
  intros H Hb. destruct (pk_blk _ _ _ _ _ _ H b Hb) as (j & Hj & E).
  destruct (pk_base _ _ _ _ _ _ H), (pk_size _ _ _ _ _ _ H), (pk_room _ _ _ _ _ _ H) as [? Hr].
  change (b = block p sz j) in E. subst b. split_and!.
  - apply block_above; lia.
  - apply block_valid; lia.
  - unfold block. unfold stride, sizeof_mpool_block, sizeof_ptr in *. nia.
Qed.

(** A pool after writes outside the words it reads. *)
Lemma pool_ok_step m m' p sz n k k' fl fl' : pool_ok m p sz n k fl -> 0 <= k' <= n ->
  peek m' (mp_blksz p) = peek m (mp_blksz p) -> peek m' (mp_poolend p) = peek m (mp_poolend p) ->
  peek m' (mp_freeidx p) = mp_base p + k' * stride sz -> chain m' (peek m' (mp_free p)) fl' ->
  NoDup fl' -> (forall b, b ∈ fl' -> exists j, 0 <= j < k' /\ b = mp_base p + j * stride sz) ->
  pool_ok m' p sz n k' fl'.
Proof.
  intros [? ? [? ?] ? ? ? ? ? ?] Hk E1 E2 E3 Hc Hn Hb. split; try done; congruence.
Qed.

(** Writes outside the control words and the headers of the free blocks. *)
Lemma pool_ok_mem m m' p sz n k fl : pool_ok m p sz n k fl ->
  (forall a, p <= a < mp_base p \/ a ∈ fl -> peek m' a = peek m a) -> pool_ok m' p sz n k fl.
Proof.
  intros H Hm. apply (pool_ok_step m m' p sz n k k fl fl); try apply H; [apply Hm; offsets..| |].
  - rewrite Hm by offsets. apply H.
  - rewrite Hm by offsets. eapply chain_frame; [|apply H]. auto.
Qed.

(** An allocation takes the last block that was freed, else the next block of
    the part never used, else fails. *)
Lemma wp_mpalloc m p sz n k fl (Q : Z -> gmap Z Z -> Prop) : pool_ok m p sz n k fl ->
  match fl with
  | b :: fl' => forall m', pool_ok m' p sz n k fl' -> pool_frame m m' p b -> Q (b + 4) m'
  | [] => if k =? n then Q NULL m
          else forall m', pool_ok m' p sz n (k + 1) [] -> pool_frame m m' p (block p sz k) -> Q (block p sz k + 4) m'
  end ->
  wp (mpalloc p) Q m.
Proof.
  intros H HQ. pose proof H as [[Hp Hpm] [Hs Hsm] [Hk Hr] Hsz He Hi Hc Hn Hb].
  destruct (ctl_words p Hp Hpm) as (V1 & V2 & V3 & V4 & V5). unfold mpalloc.
  apply wp_bind, wp_load; [done|]. destruct fl as [|b fl].
  - simpl in Hc. rewrite Hc. cbn [Z.eqb NULL]. apply wp_bind, wp_load; [done|]. apply wp_bind, wp_load; [done|].
    rewrite Hi, He. assert ((mp_base p + k * stride sz =? mp_base p + n * stride sz) = (k =? n)) as ->.
    { unfold stride, sizeof_mpool_block, sizeof_ptr. destruct (Z.eqb_spec k n); apply Z.eqb_eq || apply Z.eqb_neq; nia. }
    destruct (Z.eqb_spec k n) as [->|Hne]; [by apply wp_ret|]. apply wp_bind, wp_load; [done|]. rewrite Hsz.
    fold (block p sz k) in *. pose proof (block_above p sz k Hs ltac:(lia)) as Ha.
    assert (block p sz k + stride sz = mp_base p + (k + 1) * stride sz) as E1 by (unfold block; lia).
    assert (mp_base p + (k + 1) * stride sz < 2 ^ 32) as Hr'.
    { unfold stride, sizeof_mpool_block, sizeof_ptr in *. nia. }
    rewrite E1, u32_small; [|unfold stride, sizeof_mpool_block, sizeof_ptr, mp_base in *; nia].
    apply wp_bind, wp_store; [done|]. apply wp_bind, wp_store; [apply block_valid; lia|].
    apply wp_ret. rewrite u32_small; [|unfold stride, sizeof_mpool_block, sizeof_ptr, mp_base in *; nia].
    unfold mp_base, mp_blksz, mp_poolend, mp_free, mp_freeidx in *. apply HQ.
    + apply (pool_ok_step m _ _ _ _ k _ []); [done|lia|rewrite !peek_insert_ne by offsets; done..| | | |].
      * by rewrite peek_insert_ne, peek_insert_eq by offsets.
      * simpl. by rewrite !peek_insert_ne by offsets.
      * constructor.
      * intros b Hbn. by apply not_elem_of_nil in Hbn.
    + intros a A1 A2 A3. unfold mp_free, mp_freeidx in *. by rewrite !peek_insert_ne by done.
  - destruct Hc as [Ef Hc]. rewrite Ef.
    destruct (pool_blk_above _ _ _ _ _ _ b H) as (Ha & Hv & Hb4); [left|].
    destruct (Z.eqb_spec b NULL) as [|Hnb]; [unfold NULL in *; lia|].
    apply wp_bind, wp_load; [done|]. apply wp_bind, wp_store; [done|]. apply wp_bind, wp_store; [done|].
    apply wp_ret. rewrite u32_small by lia. apply NoDup_cons in Hn as [Hbn Hn].
    unfold mp_base, mp_blksz, mp_poolend, mp_free, mp_freeidx in *. apply HQ.
    + apply (pool_ok_step m _ _ _ _ k _ (b :: fl)); [done|lia|rewrite !peek_insert_ne by offsets; done..| | |done|].
      * by rewrite !peek_insert_ne by offsets.
      * rewrite peek_insert_ne, peek_insert_eq by offsets.
        eapply chain_frame; [|exact Hc]. intros b' Hb'.
        destruct (pool_blk_above _ _ _ _ _ _ b' H) as (Ha' & _); [by right|].
        assert (b <> b') by (by intros ->). by rewrite !peek_insert_ne by offsets.
      * intros b' Hb'. apply Hb. by right.
    + intros a A1 A2 A3. unfold mp_free, mp_freeidx in *. by rewrite !peek_insert_ne by done.
Qed.

(** A block that was handed out goes to the front of the free list. *)
Lemma wp_mpfree m p sz n k fl j (Q : unit -> gmap Z Z -> Prop) : pool_ok m p sz n k fl ->
  0 <= j < k -> block p sz j ∉ fl ->
  (forall m', pool_ok m' p sz n k (block p sz j :: fl) -> pool_frame m m' p (block p sz j) -> Q tt m') ->
  wp (mpfree p (block p sz j + 4)) Q m.
Proof.
  intros H Hj Hb HQ. pose proof H as [[Hp Hpm] [Hs Hsm] [Hk Hr] Hsz He Hi Hc Hn Hbl].
  destruct (ctl_words p Hp Hpm) as (V1 & V2 & V3 & V4 & V5).
  pose proof (block_above p sz j Hs ltac:(lia)) as Ha.
  assert (block p sz j < 2 ^ 32) as Hlt.
  { unfold block, stride, sizeof_mpool_block, sizeof_ptr in *. nia. }
  unfold mpfree. replace (CONTAINER_OF (block p sz j + 4)) with (block p sz j).
  2: { unfold CONTAINER_OF, sizeof_ptr. rewrite u32_small; lia. }
  apply wp_bind, wp_load; [done|]. apply wp_bind, wp_store; [apply block_valid; lia|]. apply wp_store; [done|].
  unfold mp_base, mp_blksz, mp_poolend, mp_free, mp_freeidx in *. apply HQ.
  - apply (pool_ok_step m _ _ _ _ k _ fl); [done|lia|rewrite !peek_insert_ne by offsets; done..| | | |].
    + by rewrite !peek_insert_ne by offsets.
    + unfold mp_free. rewrite peek_insert_eq. split; [done|]. rewrite peek_insert_ne, peek_insert_eq by offsets.
      eapply chain_frame; [|exact Hc]. intros b Hb'.
      destruct (pool_blk_above _ _ _ _ _ _ b H Hb') as (Ha' & _).
      assert (block p sz j <> b) by (by intros <-). by rewrite !peek_insert_ne by offsets.
    + by apply NoDup_cons.
    + intros b [->|Hb']%elem_of_cons; [|by apply Hbl]. exists j. split; [lia|done].
  - intros a A1 A2 A3. unfold mp_free, mp_freeidx in *. by rewrite !peek_insert_ne by done.
Qed.

(** A new pool: nothing is handed out. *)
Lemma wp_init_pool m p sz n (Q : unit -> gmap Z Z -> Prop) :
  0 < p -> p mod 4 = 0 -> 0 <= sz -> sz mod 4 = 0 -> 0 <= n -> mp_base p + n * stride sz < 2 ^ 32 ->
  (forall m', pool_ok m' p sz n 0 [] -> (forall a, a < p \/ mp_base p <= a -> peek m' a = peek m a) -> Q tt m') ->
  wp (init_pool p sz n) Q m.
Proof.
  intros Hp Hpm Hs Hsm Hn Hr HQ. destruct (ctl_words p Hp Hpm) as (V1 & V2 & V3 & V4 & V5).
  assert (0 <= n * stride sz) by (unfold stride, sizeof_mpool_block, sizeof_ptr; nia).
  unfold init_pool. do 4 (apply wp_bind, wp_store; [done|]). do 3 (apply wp_bind, wp_load; [done|]).
  apply wp_store; [done|]. unfold mp_base, mp_blksz, mp_blkcnt, mp_poolend, mp_free, mp_freeidx in *.
  rewrite peek_insert_eq. rewrite !peek_insert_ne by lia. rewrite !peek_insert_eq.
  rewrite !peek_insert_ne by lia. rewrite peek_insert_eq. rewrite !(u32_small (p + 20)) by lia.
  rewrite u32_small by lia. apply HQ.
  - split; unfold mp_base, mp_blksz, mp_blkcnt, mp_poolend, mp_free, mp_freeidx; try done.
    + by rewrite !peek_insert_ne, peek_insert_eq by lia.
    + by rewrite peek_insert_eq.
    + rewrite peek_insert_ne, peek_insert_eq by lia. lia.
    + simpl. by rewrite !peek_insert_ne, peek_insert_eq by lia.
    + constructor.
    + intros b Hb. by apply not_elem_of_nil in Hb.
  - intros a Ha. by rewrite !peek_insert_ne by offsets.
Qed.
End pool.
