(* ===== verification/Kstate.v ===== *)
(** * The state of the kernel

    The constants of autoconf.h, status.h and task.h, the structures of the
    kernel headers, the globals of each file of core/kernel/port, and the
    accessors the routines use. *)

From Stdlib Require Import ZArith Lia.
From stdpp Require Import base tactics gmap option list.
From S2P Require Import Prelude Mem Queue.

Open Scope Z_scope.

(** ** autoconf.h, sched.h, task.c *)

Definition CONFIG_MAX_TASKS : Z := 3.
Definition CONFIG_MAX_SEM : Z := 4.
Definition CONFIG_MAX_EVENT : Z := 2.
Definition CONFIG_MAX_MAILBOX : Z := 4.
Definition CONFIG_MAX_MAILBOX_MSG : Z := 128.
Definition CONFIG_MAX_FMPOOL : Z := 3.
Definition CONFIG_MAX_VMPOOL : Z := 4.
Definition CONFIG_MEM_POOLS : Z := 4.
Definition CONFIG_SYSLOG_SIZE : Z := 256.
Definition CONFIG_KSTACK_SIZE : Z := 1024.

Definition MAX_TASKS : Z := CONFIG_MAX_TASKS + 2.
Definition PRIORITY_LEVELS : Z := 32.
Definition MIN_TASK_PRIORITY : Z := PRIORITY_LEVELS - 1.
Definition MAX_TASK_PRIORITY : Z := 0.
Definition TSK_KERNEL : Z := 2.

(** blackfin/sysmem.h: the scratchpad that holds the stack of the main task. *)
Definition USER_STACK : Z := 0xFFB00800.
Definition USER_STACK_SIZE : Z := 0x800.

(** ** itronsys/types.h *)

Definition TMO_POL : Z := u32 (-1).
Definition TMO_FEVR : Z := 0.
Definition TRUE : Z := 1.
Definition FALSE : Z := 0.

(** ** itronsys/status.h *)

Definition E_OK : Z := 0.
Definition E_PAR : Z := -17.
Definition E_ID : Z := -18.
Definition E_ILUSE : Z := -28.
Definition E_NOMEM : Z := -33.
Definition E_NOID : Z := -34.
Definition E_OBJ : Z := -41.
Definition E_NOEXS : Z := -42.
Definition E_QOVR : Z := -43.
Definition E_TMOUT : Z := -50.
Definition E_DLT : Z := -51.

(** ** itronsys/task.h, itronsys/eventflags.h *)

Definition TSK_SELF : Z := 0.
Definition TSK_NONE : Z := 0.

Definition TTS_RUN : Z := 0x01.
Definition TTS_RDY : Z := 0x02.
Definition TTS_WAI : Z := 0x04.
Definition TTS_DMT : Z := 0x10.

Definition TTW_SLP : Z := 0x0001.
Definition TTW_FLG : Z := 0x0010.
Definition TTW_SEM : Z := 0x0020.
Definition TTW_MBX : Z := 0x0040.
Definition TTW_MPF : Z := 0x2000.

Definition TA_WMUL : Z := 0x02.
Definition TA_CLR : Z := 0x04.
Definition TWF_ORW : Z := 0x01.

(** ** itronsys/fncodes.h *)

Definition TFN_SCHEDULER : Z := -0x01.
Definition TFN_RQ_INSERT : Z := -0x02.
Definition TFN_RQ_REMOVE : Z := -0x03.
Definition TFN_RQ_RELOCATE : Z := -0x04.
Definition TFN_CRE_TSK : Z := -0x05.
Definition TFN_DEL_TSK : Z := -0x06.
Definition TFN_ACT_TSK : Z := -0x07.
Definition TFN_CAN_ACT : Z := -0x08.
Definition TFN_EXT_TSK : Z := -0x0a.
Definition TFN_EXD_TSK : Z := -0x0b.
Definition TFN_CHG_PRI : Z := -0x0d.
Definition TFN_SLP_TSK : Z := -0x11.
Definition TFN_TSLP_TSK : Z := -0x12.
Definition TFN_CAN_WUP : Z := -0x14.
Definition TFN_CRE_SEM : Z := -0x21.
Definition TFN_DEL_SEM : Z := -0x22.
Definition TFN_SIG_SEM : Z := -0x23.
Definition TFN_WAI_SEM : Z := -0x25.
Definition TFN_TWAI_SEM : Z := -0x27.
Definition TFN_CRE_FLG : Z := -0x29.
Definition TFN_DEL_FLG : Z := -0x2a.
Definition TFN_SET_FLG : Z := -0x2b.
Definition TFN_WAI_FLG : Z := -0x2d.
Definition TFN_CRE_MBX : Z := -0x3d.
Definition TFN_DEL_MBX : Z := -0x3e.
Definition TFN_SND_MBX : Z := -0x3f.
Definition TFN_RCV_MBX : Z := -0x41.
Definition TFN_TRCV_MBX : Z := -0x43.
Definition TFN_CRE_MPF : Z := -0x45.
Definition TFN_DEL_MPF : Z := -0x46.
Definition TFN_REL_MPF : Z := -0x47.
Definition TFN_GET_MPF : Z := -0x49.
Definition TFN_DEF_INH : Z := -0x65.
Definition TFN_ACRE_TSK : Z := -0xc1.
Definition TFN_ACRE_SEM : Z := -0xc2.
Definition TFN_ACRE_MBX : Z := -0xc5.

(** ** Structures *)

(** task.h: [task_t]. Its four list nodes are in the node store, at [RdyQue i],
    [SynQue i], [SlpQue i] and [TskAct i] for the task at index [i]. *)
Record task_t := mk_task {
  tskid : Z;
  exinf : Z;
  tskatr : Z;
  tskbpri : Z;
  tskpri : Z;
  tskstat : Z;
  wobjid : Z;
  tskwait : Z;
  wuptim : Z;
  wflgptn : Z;
  wflgatr : Z;
  actcnt : Z;
  wupcnt : Z;
  suscnt : Z;
  extdat : Z;
  task : Z;
  stksz : Z;
  tskper : Z;
  tskcom : Z;
  stk : Z;
  kstk : Z
}.

Definition set_tskid (v : Z) (r : task_t) : task_t :=
  mk_task v (exinf r) (tskatr r) (tskbpri r) (tskpri r) (tskstat r) (wobjid r) (tskwait r)
    (wuptim r) (wflgptn r) (wflgatr r) (actcnt r) (wupcnt r) (suscnt r) (extdat r) (task r)
    (stksz r) (tskper r) (tskcom r) (stk r) (kstk r).

Definition set_exinf (v : Z) (r : task_t) : task_t :=
  mk_task (tskid r) v (tskatr r) (tskbpri r) (tskpri r) (tskstat r) (wobjid r) (tskwait r)
    (wuptim r) (wflgptn r) (wflgatr r) (actcnt r) (wupcnt r) (suscnt r) (extdat r) (task r)
    (stksz r) (tskper r) (tskcom r) (stk r) (kstk r).

Definition set_tskatr (v : Z) (r : task_t) : task_t :=
  mk_task (tskid r) (exinf r) v (tskbpri r) (tskpri r) (tskstat r) (wobjid r) (tskwait r)
    (wuptim r) (wflgptn r) (wflgatr r) (actcnt r) (wupcnt r) (suscnt r) (extdat r) (task r)
    (stksz r) (tskper r) (tskcom r) (stk r) (kstk r).

Definition set_tskpri (v : Z) (r : task_t) : task_t :=
  mk_task (tskid r) (exinf r) (tskatr r) (tskbpri r) v (tskstat r) (wobjid r) (tskwait r)
    (wuptim r) (wflgptn r) (wflgatr r) (actcnt r) (wupcnt r) (suscnt r) (extdat r) (task r)
    (stksz r) (tskper r) (tskcom r) (stk r) (kstk r).

Definition set_tskstat (v : Z) (r : task_t) : task_t :=
  mk_task (tskid r) (exinf r) (tskatr r) (tskbpri r) (tskpri r) v (wobjid r) (tskwait r)
    (wuptim r) (wflgptn r) (wflgatr r) (actcnt r) (wupcnt r) (suscnt r) (extdat r) (task r)
    (stksz r) (tskper r) (tskcom r) (stk r) (kstk r).

Definition set_wobjid (v : Z) (r : task_t) : task_t :=
  mk_task (tskid r) (exinf r) (tskatr r) (tskbpri r) (tskpri r) (tskstat r) v (tskwait r)
    (wuptim r) (wflgptn r) (wflgatr r) (actcnt r) (wupcnt r) (suscnt r) (extdat r) (task r)
    (stksz r) (tskper r) (tskcom r) (stk r) (kstk r).

Definition set_tskwait (v : Z) (r : task_t) : task_t :=
  mk_task (tskid r) (exinf r) (tskatr r) (tskbpri r) (tskpri r) (tskstat r) (wobjid r) v
    (wuptim r) (wflgptn r) (wflgatr r) (actcnt r) (wupcnt r) (suscnt r) (extdat r) (task r)
    (stksz r) (tskper r) (tskcom r) (stk r) (kstk r).

Definition set_wuptim (v : Z) (r : task_t) : task_t :=
  mk_task (tskid r) (exinf r) (tskatr r) (tskbpri r) (tskpri r) (tskstat r) (wobjid r)
    (tskwait r) v (wflgptn r) (wflgatr r) (actcnt r) (wupcnt r) (suscnt r) (extdat r) (task r)
    (stksz r) (tskper r) (tskcom r) (stk r) (kstk r).

Definition set_wflgptn (v : Z) (r : task_t) : task_t :=
  mk_task (tskid r) (exinf r) (tskatr r) (tskbpri r) (tskpri r) (tskstat r) (wobjid r)
    (tskwait r) (wuptim r) v (wflgatr r) (actcnt r) (wupcnt r) (suscnt r) (extdat r) (task r)
    (stksz r) (tskper r) (tskcom r) (stk r) (kstk r).

Definition set_actcnt (v : Z) (r : task_t) : task_t :=
  mk_task (tskid r) (exinf r) (tskatr r) (tskbpri r) (tskpri r) (tskstat r) (wobjid r)
    (tskwait r) (wuptim r) (wflgptn r) (wflgatr r) v (wupcnt r) (suscnt r) (extdat r) (task r)
    (stksz r) (tskper r) (tskcom r) (stk r) (kstk r).

Definition set_wupcnt (v : Z) (r : task_t) : task_t :=
  mk_task (tskid r) (exinf r) (tskatr r) (tskbpri r) (tskpri r) (tskstat r) (wobjid r)
    (tskwait r) (wuptim r) (wflgptn r) (wflgatr r) (actcnt r) v (suscnt r) (extdat r) (task r)
    (stksz r) (tskper r) (tskcom r) (stk r) (kstk r).

Definition set_extdat (v : Z) (r : task_t) : task_t :=
  mk_task (tskid r) (exinf r) (tskatr r) (tskbpri r) (tskpri r) (tskstat r) (wobjid r)
    (tskwait r) (wuptim r) (wflgptn r) (wflgatr r) (actcnt r) (wupcnt r) (suscnt r) v (task r)
    (stksz r) (tskper r) (tskcom r) (stk r) (kstk r).

Definition set_task (v : Z) (r : task_t) : task_t :=
  mk_task (tskid r) (exinf r) (tskatr r) (tskbpri r) (tskpri r) (tskstat r) (wobjid r)
    (tskwait r) (wuptim r) (wflgptn r) (wflgatr r) (actcnt r) (wupcnt r) (suscnt r) (extdat r) v
    (stksz r) (tskper r) (tskcom r) (stk r) (kstk r).

Definition set_stksz (v : Z) (r : task_t) : task_t :=
  mk_task (tskid r) (exinf r) (tskatr r) (tskbpri r) (tskpri r) (tskstat r) (wobjid r)
    (tskwait r) (wuptim r) (wflgptn r) (wflgatr r) (actcnt r) (wupcnt r) (suscnt r) (extdat r)
    (task r) v (tskper r) (tskcom r) (stk r) (kstk r).

Definition set_stk (v : Z) (r : task_t) : task_t :=
  mk_task (tskid r) (exinf r) (tskatr r) (tskbpri r) (tskpri r) (tskstat r) (wobjid r)
    (tskwait r) (wuptim r) (wflgptn r) (wflgatr r) (actcnt r) (wupcnt r) (suscnt r) (extdat r)
    (task r) (stksz r) (tskper r) (tskcom r) v (kstk r).

Definition set_kstk (v : Z) (r : task_t) : task_t :=
  mk_task (tskid r) (exinf r) (tskatr r) (tskbpri r) (tskpri r) (tskstat r) (wobjid r)
    (tskwait r) (wuptim r) (wflgptn r) (wflgatr r) (actcnt r) (wupcnt r) (suscnt r) (extdat r)
    (task r) (stksz r) (tskper r) (tskcom r) (stk r) v.

(** semaphore.h: [semaphore_t]; its [actlst] node is at [SemAct i]. *)
Record semaphore_t := mk_sem {
  semid : Z;
  sem_exinf : Z;
  sematr : Z;
  semcnt : Z;
  maxsem : Z;
  semque : queue_t
}.

Definition set_sematr (v : Z) (r : semaphore_t) : semaphore_t :=
  mk_sem (semid r) (sem_exinf r) v (semcnt r) (maxsem r) (semque r).

Definition set_semcnt (v : Z) (r : semaphore_t) : semaphore_t :=
  mk_sem (semid r) (sem_exinf r) (sematr r) v (maxsem r) (semque r).

Definition set_maxsem (v : Z) (r : semaphore_t) : semaphore_t :=
  mk_sem (semid r) (sem_exinf r) (sematr r) (semcnt r) v (semque r).

Definition set_semque (v : queue_t) (r : semaphore_t) : semaphore_t :=
  mk_sem (semid r) (sem_exinf r) (sematr r) (semcnt r) (maxsem r) v.

(** event.h: [eventflag_t]; its [actlst] node is at [FlgAct i]. *)
Record eventflag_t := mk_flg {
  flgatr : Z;
  flgptn : Z;
  flgque : queue_t
}.

Definition set_flgatr (v : Z) (r : eventflag_t) : eventflag_t :=
  mk_flg v (flgptn r) (flgque r).

Definition set_flgptn (v : Z) (r : eventflag_t) : eventflag_t :=
  mk_flg (flgatr r) v (flgque r).

Definition set_flgque (v : queue_t) (r : eventflag_t) : eventflag_t :=
  mk_flg (flgatr r) (flgptn r) v.

(** mailbox.h: [mailbox_t]. *)
Record mailbox_t := mk_mbx {
  mbxatr : Z;
  maxmpri : Z;
  mprihd : Z;
  mbxque : queue_t;
  msgque : queue_t
}.

Definition set_mbxatr (v : Z) (r : mailbox_t) : mailbox_t :=
  mk_mbx v (maxmpri r) (mprihd r) (mbxque r) (msgque r).

Definition set_maxmpri (v : Z) (r : mailbox_t) : mailbox_t :=
  mk_mbx (mbxatr r) v (mprihd r) (mbxque r) (msgque r).

Definition set_mbxque (v : queue_t) (r : mailbox_t) : mailbox_t :=
  mk_mbx (mbxatr r) (maxmpri r) (mprihd r) v (msgque r).

Definition set_msgque (v : queue_t) (r : mailbox_t) : mailbox_t :=
  mk_mbx (mbxatr r) (maxmpri r) (mprihd r) (mbxque r) v.

(** mempool.h: [mpfpool_t], a fixed-size memory pool. *)
Record mpfpool_t := mk_mpf {
  mpfatr : Z;
  blkcnt : Z;
  blksz : Z;
  mpf : Z;
  mpfque : queue_t
}.

Definition set_mpfatr (v : Z) (r : mpfpool_t) : mpfpool_t :=
  mk_mpf v (blkcnt r) (blksz r) (mpf r) (mpfque r).

Definition set_blkcnt (v : Z) (r : mpfpool_t) : mpfpool_t :=
  mk_mpf (mpfatr r) v (blksz r) (mpf r) (mpfque r).

Definition set_blksz (v : Z) (r : mpfpool_t) : mpfpool_t :=
  mk_mpf (mpfatr r) (blkcnt r) v (mpf r) (mpfque r).

Definition set_mpf (v : Z) (r : mpfpool_t) : mpfpool_t :=
  mk_mpf (mpfatr r) (blkcnt r) (blksz r) v (mpfque r).

Definition set_mpfque (v : queue_t) (r : mpfpool_t) : mpfpool_t :=
  mk_mpf (mpfatr r) (blkcnt r) (blksz r) (mpf r) v.

(** mempool.h: [mplpool_t], a variable-sized memory pool. *)
Record mplpool_t := mk_mpl {
  mpl_length : Z;
  mpl_base : Z;
  mpl_id : Z
}.

Definition set_mpl_length (v : Z) (r : mplpool_t) : mplpool_t :=
  mk_mpl v (mpl_base r) (mpl_id r).

Definition set_mpl_base (v : Z) (r : mplpool_t) : mplpool_t :=
  mk_mpl (mpl_length r) v (mpl_id r).

(** syslog.h: [log_entry_t]. *)
Record log_entry_t := mk_log_entry {
  log_time : Z;
  log_event : Z;
  arg1 : Z;
  arg2 : Z;
  arg3 : Z
}.

(** ** The globals of each file *)

(** task.c *)
Record task_mod := mk_task_mod {
  taskbmap : Z;
  task_pool : list task_t
}.

Definition set_taskbmap (v : Z) (r : task_mod) : task_mod :=
  mk_task_mod v (task_pool r).

Definition set_task_pool (v : list task_t) (r : task_mod) : task_mod :=
  mk_task_mod (taskbmap r) v.

(** sched.c: [ready_queue], [timeout_queue] and the dispatching state. A task
    pointer is the index of the task in [task_pool]. *)
Record sched_mod := mk_sched_mod {
  prioqueue : list queue_t;
  priobmap : Z;
  timeout_queue : option laddr;
  current_task : option nat;
  idle_task : option nat;
  dispatching : Z;
  start_idle : Z;
  end_idle : Z
}.

Definition set_prioqueue (v : list queue_t) (r : sched_mod) : sched_mod :=
  mk_sched_mod v (priobmap r) (timeout_queue r) (current_task r) (idle_task r) (dispatching r)
    (start_idle r) (end_idle r).

Definition set_priobmap (v : Z) (r : sched_mod) : sched_mod :=
  mk_sched_mod (prioqueue r) v (timeout_queue r) (current_task r) (idle_task r) (dispatching r)
    (start_idle r) (end_idle r).

Definition set_timeout_queue (v : option laddr) (r : sched_mod) : sched_mod :=
  mk_sched_mod (prioqueue r) (priobmap r) v (current_task r) (idle_task r) (dispatching r)
    (start_idle r) (end_idle r).

Definition set_current_task (v : option nat) (r : sched_mod) : sched_mod :=
  mk_sched_mod (prioqueue r) (priobmap r) (timeout_queue r) v (idle_task r) (dispatching r)
    (start_idle r) (end_idle r).

Definition set_idle_task (v : option nat) (r : sched_mod) : sched_mod :=
  mk_sched_mod (prioqueue r) (priobmap r) (timeout_queue r) (current_task r) v (dispatching r)
    (start_idle r) (end_idle r).

Definition set_dispatching (v : Z) (r : sched_mod) : sched_mod :=
  mk_sched_mod (prioqueue r) (priobmap r) (timeout_queue r) (current_task r) (idle_task r) v
    (start_idle r) (end_idle r).

Definition set_start_idle (v : Z) (r : sched_mod) : sched_mod :=
  mk_sched_mod (prioqueue r) (priobmap r) (timeout_queue r) (current_task r) (idle_task r)
    (dispatching r) v (end_idle r).

Definition set_end_idle (v : Z) (r : sched_mod) : sched_mod :=
  mk_sched_mod (prioqueue r) (priobmap r) (timeout_queue r) (current_task r) (idle_task r)
    (dispatching r) (start_idle r) v.

(** ints.c, and the interrupt mask register [imask] of the core. *)
Record int_mod := mk_int_mod {
  imask : Z;
  interrupt_flags : Z;
  int_nest_count : Z;
  need_resched : Z
}.

Definition set_imask (v : Z) (r : int_mod) : int_mod :=
  mk_int_mod v (interrupt_flags r) (int_nest_count r) (need_resched r).

Definition set_interrupt_flags (v : Z) (r : int_mod) : int_mod :=
  mk_int_mod (imask r) v (int_nest_count r) (need_resched r).

Definition set_int_nest_count (v : Z) (r : int_mod) : int_mod :=
  mk_int_mod (imask r) (interrupt_flags r) v (need_resched r).

Definition set_need_resched (v : Z) (r : int_mod) : int_mod :=
  mk_int_mod (imask r) (interrupt_flags r) (int_nest_count r) v.

(** time.c, and the cycle counter register [cycles] of the core. *)
Record time_mod := mk_time_mod {
  system_time : Z;
  tot_idle : Z;
  cycles : Z
}.

Definition set_system_time (v : Z) (r : time_mod) : time_mod :=
  mk_time_mod v (tot_idle r) (cycles r).

Definition set_tot_idle (v : Z) (r : time_mod) : time_mod :=
  mk_time_mod (system_time r) v (cycles r).

Definition set_cycles (v : Z) (r : time_mod) : time_mod :=
  mk_time_mod (system_time r) (tot_idle r) v.

(** syslog.c *)
Record log_mod := mk_log_mod {
  system_log : list log_entry_t;
  log_index : Z
}.

Definition set_system_log (v : list log_entry_t) (r : log_mod) : log_mod :=
  mk_log_mod v (log_index r).

Definition set_log_index (v : Z) (r : log_mod) : log_mod :=
  mk_log_mod (system_log r) v.

(** semaphore.c *)
Record sem_mod := mk_sem_mod {
  sembmap : Z;
  sem_pool : list semaphore_t;
  active_sem : option laddr
}.

Definition set_sembmap (v : Z) (r : sem_mod) : sem_mod :=
  mk_sem_mod v (sem_pool r) (active_sem r).

Definition set_sem_pool (v : list semaphore_t) (r : sem_mod) : sem_mod :=
  mk_sem_mod (sembmap r) v (active_sem r).

Definition set_active_sem (v : option laddr) (r : sem_mod) : sem_mod :=
  mk_sem_mod (sembmap r) (sem_pool r) v.

(** event.c *)
Record flg_mod := mk_flg_mod {
  flgbmap : Z;
  flg_pool : list eventflag_t;
  active_flg : option laddr
}.

Definition set_flgbmap (v : Z) (r : flg_mod) : flg_mod :=
  mk_flg_mod v (flg_pool r) (active_flg r).

Definition set_flg_pool (v : list eventflag_t) (r : flg_mod) : flg_mod :=
  mk_flg_mod (flgbmap r) v (active_flg r).

Definition set_active_flg (v : option laddr) (r : flg_mod) : flg_mod :=
  mk_flg_mod (flgbmap r) (flg_pool r) v.

(** mailbox.c *)
Record mbx_mod := mk_mbx_mod {
  mbxbmap : Z;
  mbx_pool : list mailbox_t;
  msg_pool : Z
}.

Definition set_mbxbmap (v : Z) (r : mbx_mod) : mbx_mod :=
  mk_mbx_mod v (mbx_pool r) (msg_pool r).

Definition set_mbx_pool (v : list mailbox_t) (r : mbx_mod) : mbx_mod :=
  mk_mbx_mod (mbxbmap r) v (msg_pool r).

Definition set_msg_pool (v : Z) (r : mbx_mod) : mbx_mod :=
  mk_mbx_mod (mbxbmap r) (mbx_pool r) v.

(** mempool.c *)
Record mpl_mod := mk_mpl_mod {
  mpfbmap : Z;
  mpf_pool : list mpfpool_t;
  mplbmap : Z;
  mpl_pool : list mplpool_t
}.

Definition set_mpfbmap (v : Z) (r : mpl_mod) : mpl_mod :=
  mk_mpl_mod v (mpf_pool r) (mplbmap r) (mpl_pool r).

Definition set_mpf_pool (v : list mpfpool_t) (r : mpl_mod) : mpl_mod :=
  mk_mpl_mod (mpfbmap r) v (mplbmap r) (mpl_pool r).

Definition set_mplbmap (v : Z) (r : mpl_mod) : mpl_mod :=
  mk_mpl_mod (mpfbmap r) (mpf_pool r) v (mpl_pool r).

Definition set_mpl_pool (v : list mplpool_t) (r : mpl_mod) : mpl_mod :=
  mk_mpl_mod (mpfbmap r) (mpf_pool r) (mplbmap r) v.

(** The addresses that the linker script and the compiler give to the symbols
    the kernel uses: the bounds of the system pools and of the user pools, and the entry points of
    [main] and [startup_fn]. *)
Record image := mk_image {
  _syspool_base : Z;
  _syspool_size : Z;
  _kfastpool_base : Z;
  _kfastpool_size : Z;
  _userpools : list (Z * Z);    (* base and size of the user pools 1 to 4 *)
  main_entry : Z;
  startup_entry : Z
}.

(** setup.c, and the default pool [mp] of tlsf.c *)
Record setup_mod := mk_setup_mod {
  img : image;
  system_pool : Z;
  kfast_pool : Z;
  mp : Z
}.

Definition set_system_pool (v : Z) (r : setup_mod) : setup_mod :=
  mk_setup_mod (img r) v (kfast_pool r) (mp r).

Definition set_kfast_pool (v : Z) (r : setup_mod) : setup_mod :=
  mk_setup_mod (img r) (system_pool r) v (mp r).

Definition set_mp (v : Z) (r : setup_mod) : setup_mod :=
  mk_setup_mod (img r) (system_pool r) (kfast_pool r) v.

(** The state of the kernel. *)
Record kstate := mk_kstate {
  k_mem : gmap Z Z;
  k_nodes : gmap laddr linked_list_t;
  k_task : task_mod;
  k_sched : sched_mod;
  k_int : int_mod;
  k_time : time_mod;
  k_log : log_mod;
  k_sem : sem_mod;
  k_flg : flg_mod;
  k_mbx : mbx_mod;
  k_mpl : mpl_mod;
  k_setup : setup_mod
}.

Definition set_k_mem (v : gmap Z Z) (r : kstate) : kstate :=
  mk_kstate v (k_nodes r) (k_task r) (k_sched r) (k_int r) (k_time r) (k_log r) (k_sem r)
    (k_flg r) (k_mbx r) (k_mpl r) (k_setup r).

Definition set_k_nodes (v : gmap laddr linked_list_t) (r : kstate) : kstate :=
  mk_kstate (k_mem r) v (k_task r) (k_sched r) (k_int r) (k_time r) (k_log r) (k_sem r)
    (k_flg r) (k_mbx r) (k_mpl r) (k_setup r).

Definition set_k_task (v : task_mod) (r : kstate) : kstate :=
  mk_kstate (k_mem r) (k_nodes r) v (k_sched r) (k_int r) (k_time r) (k_log r) (k_sem r)
    (k_flg r) (k_mbx r) (k_mpl r) (k_setup r).

Definition set_k_sched (v : sched_mod) (r : kstate) : kstate :=
  mk_kstate (k_mem r) (k_nodes r) (k_task r) v (k_int r) (k_time r) (k_log r) (k_sem r)
    (k_flg r) (k_mbx r) (k_mpl r) (k_setup r).

Definition set_k_int (v : int_mod) (r : kstate) : kstate :=
  mk_kstate (k_mem r) (k_nodes r) (k_task r) (k_sched r) v (k_time r) (k_log r) (k_sem r)
    (k_flg r) (k_mbx r) (k_mpl r) (k_setup r).

Definition set_k_time (v : time_mod) (r : kstate) : kstate :=
  mk_kstate (k_mem r) (k_nodes r) (k_task r) (k_sched r) (k_int r) v (k_log r) (k_sem r)
    (k_flg r) (k_mbx r) (k_mpl r) (k_setup r).

Definition set_k_log (v : log_mod) (r : kstate) : kstate :=
  mk_kstate (k_mem r) (k_nodes r) (k_task r) (k_sched r) (k_int r) (k_time r) v (k_sem r)
    (k_flg r) (k_mbx r) (k_mpl r) (k_setup r).

Definition set_k_sem (v : sem_mod) (r : kstate) : kstate :=
  mk_kstate (k_mem r) (k_nodes r) (k_task r) (k_sched r) (k_int r) (k_time r) (k_log r) v
    (k_flg r) (k_mbx r) (k_mpl r) (k_setup r).

Definition set_k_flg (v : flg_mod) (r : kstate) : kstate :=
  mk_kstate (k_mem r) (k_nodes r) (k_task r) (k_sched r) (k_int r) (k_time r) (k_log r)
    (k_sem r) v (k_mbx r) (k_mpl r) (k_setup r).

Definition set_k_mbx (v : mbx_mod) (r : kstate) : kstate :=
  mk_kstate (k_mem r) (k_nodes r) (k_task r) (k_sched r) (k_int r) (k_time r) (k_log r)
    (k_sem r) (k_flg r) v (k_mpl r) (k_setup r).

Definition set_k_mpl (v : mpl_mod) (r : kstate) : kstate :=
  mk_kstate (k_mem r) (k_nodes r) (k_task r) (k_sched r) (k_int r) (k_time r) (k_log r)
    (k_sem r) (k_flg r) (k_mbx r) v (k_setup r).

Definition set_k_setup (v : setup_mod) (r : kstate) : kstate :=
  mk_kstate (k_mem r) (k_nodes r) (k_task r) (k_sched r) (k_int r) (k_time r) (k_log r)
    (k_sem r) (k_flg r) (k_mbx r) (k_mpl r) v.


(** A structure after [memset(p, 0, sizeof( *p))]. *)
Definition zero_task : task_t := mk_task 0 0 0 0 0 0 0 0 0 0 0 0 0 0 0 0 0 0 0 0 0.
Definition zero_sem : semaphore_t := mk_sem 0 0 0 0 0 null_queue.
Definition zero_flg : eventflag_t := mk_flg 0 0 null_queue.
Definition zero_mbx : mailbox_t := mk_mbx 0 0 0 null_queue null_queue.
Definition zero_mpf : mpfpool_t := mk_mpf 0 0 0 0 null_queue.

(** ** Accessors *)

(** A routine of the kernel. *)
Abbreviation KM := (M kstate).

(** Apply a function to the globals of a file. *)
Definition upd_task_mod (f : task_mod -> task_mod) : KM unit :=
  modify (fun s => set_k_task (f (k_task s)) s).
Definition upd_sched (f : sched_mod -> sched_mod) : KM unit :=
  modify (fun s => set_k_sched (f (k_sched s)) s).
Definition upd_int (f : int_mod -> int_mod) : KM unit :=
  modify (fun s => set_k_int (f (k_int s)) s).
Definition upd_time (f : time_mod -> time_mod) : KM unit :=
  modify (fun s => set_k_time (f (k_time s)) s).
Definition upd_sem_mod (f : sem_mod -> sem_mod) : KM unit :=
  modify (fun s => set_k_sem (f (k_sem s)) s).
Definition upd_flg_mod (f : flg_mod -> flg_mod) : KM unit :=
  modify (fun s => set_k_flg (f (k_flg s)) s).
Definition upd_mbx_mod (f : mbx_mod -> mbx_mod) : KM unit :=
  modify (fun s => set_k_mbx (f (k_mbx s)) s).
Definition upd_mpl_mod (f : mpl_mod -> mpl_mod) : KM unit :=
  modify (fun s => set_k_mpl (f (k_mpl s)) s).
Definition upd_nodes (f : gmap laddr linked_list_t -> gmap laddr linked_list_t) : KM unit :=
  modify (fun s => set_k_nodes (f (k_nodes s)) s).

(** Run a routine on the raw memory. *)
Definition kmem {A} (m : M (gmap Z Z) A) : KM A := zoom k_mem set_k_mem m.

(** [task_pool[i]]: an index out of the array faults. *)
Definition get_task (i : nat) : KM task_t :=
  fun s => match task_pool (k_task s) !! i with Some t => Some (t, s) | None => None end.

Definition upd_task (i : nat) (f : task_t -> task_t) : KM unit :=
  fun s => match task_pool (k_task s) !! i with
           | Some t => Some (tt, set_k_task (set_task_pool (<[i := f t]> (task_pool (k_task s)))
                                               (k_task s)) s)
           | None => None
           end.

(** [current_task]: dereferencing it while NULL faults. *)
Definition get_current : KM nat :=
  fun s => match current_task (k_sched s) with Some i => Some (i, s) | None => None end.

(** A [void *] returned as a task pointer, which may be NULL. *)
Definition task_ptr (o : option obj) : KM (option nat) :=
  match o with
  | None => ret None
  | Some (OTask i) => ret (Some i)
  | Some _ => fault
  end.

(** A [void *] dereferenced as a task pointer. *)
Definition as_task (o : option obj) : KM nat :=
  match o with Some (OTask i) => ret i | _ => fault end.

(** [__hw_cli] and [__hw_sti] of ints.h save and restore the interrupt mask
    in the global [interrupt_flags]. *)
Definition hw_cli : KM unit :=
  upd_int (fun r => set_imask 0 (set_interrupt_flags (imask r) r)).

Definition hw_sti : KM unit :=
  upd_int (fun r => set_imask (interrupt_flags r) r).

(** time.c: [get_system_time]. *)
Definition get_system_time : KM Z := gets (fun s => system_time (k_time s)).

(** clock.h: [get_cycles] reads the 64-bit cycle counter. *)
Definition get_cycles : KM Z := gets (fun s => cycles (k_time s)).

(** ** System calls that suspend their caller

    [scheduler()] may switch to another task; what the system call does when
    it is scheduled again is a continuation. *)
Inductive kont :=
  | KReturn (er : Z)                       (* return er *)
  | KExit                                  (* void function: return *)
  | KWaiSem (semid : Z)                    (* the tail of wai_sem_sys *)
  | KTwaiSem (semid : Z)                   (* the tail of twai_sem_sys *)
  | KWaiFlg (flgid : Z)                    (* the tail of wai_flg_sys *)
  | KRcvMbx (mbxid ppk_msg : Z)            (* the tail of rcv_mbx_sys *)
  | KTrcvMbx (mbxid ppk_msg tmout : Z)     (* the tail of trcv_mbx_sys *)
  | KGetMpf (p_blk : Z).                   (* the tail of get_mpf_sys *)

(** What a system call does: return a value, return without one (the
    function ends without a [return] statement), go on after [scheduler()]
    with a continuation, or spin in a loop that waits for another task. *)
Inductive sysres :=
  | Done (er : Z)
  | NoValue
  | Cont (k : kont)
  | Spin.

(** A routine on the memory, in the state. *)
Lemma wp_kmem {A} (m : M (gmap Z Z) A) (Q : A -> kstate -> Prop) s :
  wp m (fun a m' => Q a (set_k_mem m' s)) (k_mem s) -> wp (kmem m) Q s.
Proof. unfold wp, kmem, zoom. by destruct (m (k_mem s)) as [[a m']|]. Qed.
