(* ===== verification/Tlsf.v ===== *)
(** * The TLSF allocator: tlsf.c

    A pool is a control structure at its base (two levels of bitmaps and a
    matrix of free lists) followed by blocks; each block has a header of two
    words: the previous physical block, and the size with two state bits. The
    code is translated over the word memory of [Mem], every field at its
    offset; locks, statistics, [mmap] and [sbrk] are configured out. *)

From Stdlib Require Import ZArith Lia.
From stdpp Require Import base tactics gmap option list.
From S2P Require Import Prelude Bits Mem Kstate.

Open Scope Z_scope.
Open Scope kernel_scope.

(** ** Parameters *)

Definition BLOCK_ALIGN : Z := 8.
Definition MAX_FLI : Z := 30.
Definition MAX_LOG2_SLI : Z := 5.
Definition MAX_SLI : Z := 32.
Definition FLI_OFFSET : Z := 6.
Definition SMALL_BLOCK : Z := 128.
Definition REAL_FLI : Z := MAX_FLI - FLI_OFFSET.
Definition MIN_BLOCK_SIZE : Z := 8.
Definition sizeof_bhdr : Z := 16.
Definition BHDR_OVERHEAD : Z := sizeof_bhdr - MIN_BLOCK_SIZE.
Definition TLSF_SIGNATURE : Z := 0x2A59FA59.
Definition PTR_MASK : Z := sizeof_ptr - 1.
Definition BLOCK_SIZE : Z := 0xFFFFFFFF - PTR_MASK.
Definition MEM_ALIGN : Z := BLOCK_ALIGN - 1.
Definition PREV_STATE : Z := 0x2.
Definition FREE_BLOCK : Z := 0x1.
Definition USED_BLOCK : Z := 0x0.
Definition PREV_FREE : Z := 0x2.
Definition PREV_USED : Z := 0x0.
Definition sizeof_area_info : Z := 8.

(** The offsets of [tlsf_t]. *)
Definition tlsf_signature (t : Z) : Z := t.
Definition area_head (t : Z) : Z := t + 4.
Definition fl_bitmap (t : Z) : Z := t + 8.
Definition sl_bitmap (t fl : Z) : Z := t + 12 + 4 * fl.
Definition matrix (t fl sl : Z) : Z := t + 12 + 4 * REAL_FLI + 4 * (fl * MAX_SLI + sl).
Definition sizeof_tlsf : Z := 12 + 4 * REAL_FLI + 4 * REAL_FLI * MAX_SLI.

(** The offsets of [bhdr_t]. *)
Definition prev_hdr (b : Z) : Z := b.
Definition size (b : Z) : Z := b + 4.
Definition buffer (b : Z) : Z := b + 8.
Definition free_prev (b : Z) : Z := b + 8.
Definition free_next (b : Z) : Z := b + 12.

Definition GET_NEXT_BLOCK (addr r : Z) : Z := u32 (addr + r).
Definition ROUNDUP_SIZE (r : Z) : Z := Z.land (u32 (r + MEM_ALIGN)) (u32 (Z.lnot MEM_ALIGN)).
Definition ROUNDDOWN_SIZE (r : Z) : Z := Z.land r (u32 (Z.lnot MEM_ALIGN)).

(** ** Bit searches and the size classes *)

Definition table : list Z := [
   -1; 0; 1; 1; 2; 2; 2; 2; 3; 3; 3; 3; 3; 3; 3; 3; 4; 4; 4; 4; 4; 4; 4; 4; 4; 4; 4; 4; 4; 4; 4; 4;
   5; 5; 5; 5; 5; 5; 5; 5; 5; 5; 5; 5; 5; 5; 5; 5; 5; 5; 5; 5; 5; 5; 5; 5; 5; 5; 5; 5; 5; 5; 5; 5;
   6; 6; 6; 6; 6; 6; 6; 6; 6; 6; 6; 6; 6; 6; 6; 6; 6; 6; 6; 6; 6; 6; 6; 6; 6; 6; 6; 6; 6; 6; 6; 6;
   6; 6; 6; 6; 6; 6; 6; 6; 6; 6; 6; 6; 6; 6; 6; 6; 6; 6; 6; 6; 6; 6; 6; 6; 6; 6; 6; 6; 6; 6; 6; 6;
   7; 7; 7; 7; 7; 7; 7; 7; 7; 7; 7; 7; 7; 7; 7; 7; 7; 7; 7; 7; 7; 7; 7; 7; 7; 7; 7; 7; 7; 7; 7; 7;
   7; 7; 7; 7; 7; 7; 7; 7; 7; 7; 7; 7; 7; 7; 7; 7; 7; 7; 7; 7; 7; 7; 7; 7; 7; 7; 7; 7; 7; 7; 7; 7;
   7; 7; 7; 7; 7; 7; 7; 7; 7; 7; 7; 7; 7; 7; 7; 7; 7; 7; 7; 7; 7; 7; 7; 7; 7; 7; 7; 7; 7; 7; 7; 7;
   7; 7; 7; 7; 7; 7; 7; 7; 7; 7; 7; 7; 7; 7; 7; 7; 7; 7; 7; 7; 7; 7; 7; 7; 7; 7; 7; 7; 7; 7; 7; 7].

Definition table_at (x : Z) : Z := default 0 (table !! Z.to_nat x).

Definition ls_bit (i : Z) : Z :=
  let x := u32 (Z.land (i32 i) (- i32 i)) in
  let a := if x <=? 0xffff then (if x <=? 0xff then 0 else 8)
           else (if x <=? 0xffffff then 16 else 24) in
  i32 (table_at (Z.shiftr x a) + a).

Definition ms_bit (i : Z) : Z :=
  let x := u32 i in
  let a := if x <=? 0xffff then (if x <=? 0xff then 0 else 8)
           else (if x <=? 0xffffff then 16 else 24) in
  i32 (table_at (Z.shiftr x a) + a).

(** [MAPPING_SEARCH(&r, &fl, &sl)]: the rounded size and the first class all
    of whose blocks fit. *)
Definition MAPPING_SEARCH (r : Z) : Z * Z * Z :=
  if r <? SMALL_BLOCK then (r, 0, r / (SMALL_BLOCK / MAX_SLI))
  else
    let t := i32 (Z.shiftl 1 (ms_bit r - MAX_LOG2_SLI)) - 1 in
    let r := u32 (r + t) in
    let fl := ms_bit r in
    let sl := i32 (Z.shiftr r (fl - MAX_LOG2_SLI) - MAX_SLI) in
    (Z.land r (u32 (Z.lnot t)), fl - FLI_OFFSET, sl).

(** [MAPPING_INSERT(r, &fl, &sl)]: the class of a block. *)
Definition MAPPING_INSERT (r : Z) : Z * Z :=
  if r <? SMALL_BLOCK then (0, r / (SMALL_BLOCK / MAX_SLI))
  else
    let fl := ms_bit r in
    (fl - FLI_OFFSET, i32 (Z.shiftr r (fl - MAX_LOG2_SLI) - MAX_SLI)).

(** ** The state of the allocator: the memory and the default pool *)

Record tlsf_state := mk_tlsf { t_mem : gmap Z Z; t_mp : Z }.

Abbreviation TM := (M tlsf_state).

Definition mem {A} (m : M (gmap Z Z) A) : TM A :=
  zoom t_mem (fun v t => mk_tlsf v (t_mp t)) m.
Definition get_mp : TM Z := gets t_mp.
Definition set_mp_to (v : Z) : TM unit := modify (fun t => mk_tlsf (t_mem t) v).

Definition set_bit (nr addr : Z) : TM unit :=
  let a := addr + 4 * Z.shiftr nr 5 in
  let* w := mem (load a) in
  mem (store a (Z.lor w (u32 (Z.shiftl 1 (Z.land nr 0x1f))))).

Definition clear_bit (nr addr : Z) : TM unit :=
  let a := addr + 4 * Z.shiftr nr 5 in
  let* w := mem (load a) in
  mem (store a (Z.land w (u32 (Z.lnot (Z.shiftl 1 (Z.land nr 0x1f)))))).

(** The block, and the class it was found in. *)
Definition FIND_SUITABLE_BLOCK (tlsf fl sl : Z) : TM (Z * Z * Z) :=
  let* w := mem (load (sl_bitmap tlsf fl)) in
  let tmp := Z.land w (u32 (Z.shiftl (-1) sl)) in
  if nz tmp then
    let sl := ls_bit tmp in
    let* b := mem (load (matrix tlsf fl sl)) in
    ret (b, fl, sl)
  else
    let* w := mem (load (fl_bitmap tlsf)) in
    let fl := ls_bit (Z.land w (u32 (Z.shiftl (-1) (fl + 1)))) in
    if fl >? 0 then
      let* w := mem (load (sl_bitmap tlsf fl)) in
      let sl := ls_bit w in
      let* b := mem (load (matrix tlsf fl sl)) in
      ret (b, fl, sl)
    else ret (NULL, fl, sl).

(** The class is empty: clear its bits. *)
Definition clear_class (tlsf fl sl : Z) : TM unit :=
  clear_bit sl (sl_bitmap tlsf fl) ;;;
  let* w := mem (load (sl_bitmap tlsf fl)) in
  when (negb (nz w)) (clear_bit fl (fl_bitmap tlsf)).

Definition EXTRACT_BLOCK_HDR (b tlsf fl sl : Z) : TM unit :=
  let* n := mem (load (free_next b)) in
  mem (store (matrix tlsf fl sl) n) ;;;
  let* h := mem (load (matrix tlsf fl sl)) in
  (if nz h then mem (store (free_prev h) NULL) else clear_class tlsf fl sl) ;;;
  mem (store (free_prev b) NULL) ;;;
  mem (store (free_next b) NULL).

Definition EXTRACT_BLOCK (b tlsf fl sl : Z) : TM unit :=
  let* n := mem (load (free_next b)) in
  when (nz n) (let* p := mem (load (free_prev b)) in mem (store (free_prev n) p)) ;;;
  let* p := mem (load (free_prev b)) in
  when (nz p) (let* n := mem (load (free_next b)) in mem (store (free_next p) n)) ;;;
  let* h := mem (load (matrix tlsf fl sl)) in
  when (h =? b)
    (let* n := mem (load (free_next b)) in
     mem (store (matrix tlsf fl sl) n) ;;;
     let* h := mem (load (matrix tlsf fl sl)) in
     when (negb (nz h)) (clear_class tlsf fl sl)) ;;;
  mem (store (free_prev b) NULL) ;;;
  mem (store (free_next b) NULL).

Definition INSERT_BLOCK (b tlsf fl sl : Z) : TM unit :=
  mem (store (free_prev b) NULL) ;;;
  let* h := mem (load (matrix tlsf fl sl)) in
  mem (store (free_next b) h) ;;;
  let* h := mem (load (matrix tlsf fl sl)) in
  when (nz h) (mem (store (free_prev h) b)) ;;;
  mem (store (matrix tlsf fl sl) b) ;;;
  set_bit sl (sl_bitmap tlsf fl) ;;;
  set_bit fl (fl_bitmap tlsf).

(** ** Blocks *)

(** [b->size & BLOCK_SIZE] *)
Definition blk_size (b : Z) : TM Z :=
  let* w := mem (load (size b)) in ret (Z.land w BLOCK_SIZE).

(** [b->size op= v] *)
Definition upd_word (a : Z) (f : Z -> Z) : TM unit :=
  let* w := mem (load a) in mem (store a (f w)).

(** The block after [b]: [GET_NEXT_BLOCK(b->ptr.buffer, b->size & BLOCK_SIZE)]. *)
Definition next_block (b : Z) : TM Z :=
  let* r := blk_size b in ret (GET_NEXT_BLOCK (buffer b) r).

Definition process_area (area sz : Z) : TM Z :=
  let ib := area in
  mem (store (size ib)
    (if sizeof_area_info <? MIN_BLOCK_SIZE then MIN_BLOCK_SIZE
     else Z.lor (Z.lor (ROUNDUP_SIZE sizeof_area_info) USED_BLOCK) PREV_USED)) ;;;
  let* ibs := blk_size ib in
  let b := GET_NEXT_BLOCK (buffer ib) ibs in
  mem (store (size b)
    (Z.lor (Z.lor (ROUNDDOWN_SIZE (u32 (sz - 3 * BHDR_OVERHEAD - ibs))) USED_BLOCK) PREV_USED)) ;;;
  mem (store (free_next b) 0) ;;;
  mem (store (free_prev b) 0) ;;;
  let* lb := next_block b in
  mem (store (prev_hdr lb) b) ;;;
  mem (store (size lb) (Z.lor (Z.lor 0 USED_BLOCK) PREV_FREE)) ;;;
  let ai := buffer ib in
  mem (store (ai + 4) 0) ;;;
  mem (store ai lb) ;;;
  ret ib.

Definition free_ex (ptr mem_pool : Z) : TM unit :=
  let tlsf := mem_pool in
  if negb (nz ptr) then ret tt else
  let b := u32 (ptr - BHDR_OVERHEAD) in
  upd_word (size b) (fun w => Z.lor w FREE_BLOCK) ;;;
  mem (store (free_prev b) NULL) ;;;
  mem (store (free_next b) NULL) ;;;
  let* tmp_b := next_block b in
  let* w := mem (load (size tmp_b)) in
  when (nz (Z.land w FREE_BLOCK))
    (let* r := blk_size tmp_b in
     let '(fl, sl) := MAPPING_INSERT r in
     EXTRACT_BLOCK tmp_b tlsf fl sl ;;;
     let* r := blk_size tmp_b in
     upd_word (size b) (fun w => u32 (w + r + BHDR_OVERHEAD))) ;;;
  let* w := mem (load (size b)) in
  let* b :=
    (if nz (Z.land w PREV_FREE) then
       let* tmp_b := mem (load (prev_hdr b)) in
       let* r := blk_size tmp_b in
       let '(fl, sl) := MAPPING_INSERT r in
       EXTRACT_BLOCK tmp_b tlsf fl sl ;;;
       let* r := blk_size b in
       upd_word (size tmp_b) (fun w => u32 (w + r + BHDR_OVERHEAD)) ;;;
       ret tmp_b
     else ret b) in
  let* r := blk_size b in
  let '(fl, sl) := MAPPING_INSERT r in
  INSERT_BLOCK b tlsf fl sl ;;;
  let* tmp_b := next_block b in
  upd_word (size tmp_b) (fun w => Z.lor w PREV_FREE) ;;;
  mem (store (prev_hdr tmp_b) b).

(** [memset(a, 0, n)] on bytes: whole words, then the low bytes of the last. *)
Definition memset0 (a n : Z) : M (gmap Z Z) unit :=
  zero_words a (Z.to_nat (n / 4)) ;;;
  if n mod 4 =? 0 then ret tt
  else let e := a + 4 * (n / 4) in
       let* w := load e in
       store e (Z.land w (u32 (Z.lnot (Z.ones (8 * (n mod 4)))))).

(** [memcpy(d, s, n)] of whole words. *)
Fixpoint copy_words (d s : Z) (n : nat) : M (gmap Z Z) unit :=
  match n with
  | O => ret tt
  | S n' => let* w := load s in store d w ;;; copy_words (d + 4) (s + 4) n'
  end.

Definition init_memory_pool (mem_pool_size mem_pool : Z) : TM Z :=
  if negb (nz mem_pool) || negb (nz mem_pool_size)
     || (mem_pool_size <? sizeof_tlsf + BHDR_OVERHEAD * 8) then ret (u32 (-1)) else
  if nz (Z.land mem_pool PTR_MASK) then ret (u32 (-1)) else
  let tlsf := mem_pool in
  let* sig := mem (load (tlsf_signature tlsf)) in
  if sig =? TLSF_SIGNATURE then
    set_mp_to mem_pool ;;;
    let b := GET_NEXT_BLOCK mem_pool (ROUNDUP_SIZE sizeof_tlsf) in
    blk_size b
  else
    set_mp_to mem_pool ;;;
    mem (memset0 mem_pool sizeof_tlsf) ;;;
    mem (store (tlsf_signature tlsf) TLSF_SIGNATURE) ;;;
    let* ib := process_area (GET_NEXT_BLOCK mem_pool (ROUNDUP_SIZE sizeof_tlsf))
                 (ROUNDDOWN_SIZE (mem_pool_size - sizeof_tlsf)) in
    let* b := next_block ib in
    free_ex (buffer b) tlsf ;;;
    mem (store (area_head tlsf) (buffer ib)) ;;;
    blk_size b.

(** [if (tlsf->area_head == ptr) tlsf->area_head = ptr->next; else
    ptr_prev->next = ptr->next; ptr = ptr->next]: the area leaves the list. *)
Definition unlink_area (tlsf ptr ptr_prev : Z) : TM Z :=
  let* head := mem (load (area_head tlsf)) in
  let* next := mem (load (ptr + 4)) in
  (if head =? ptr then mem (store (area_head tlsf) next) else mem (store (ptr_prev + 4) next)) ;;;
  mem (load (ptr + 4)).

(** The loop of [add_new_area]: the new area joins the areas that end or start
    where it starts or ends. *)
Fixpoint add_area_loop (fuel : nat) (tlsf ptr ptr_prev ib0 b0 lb0 : Z) : TM (Z * Z * Z) :=
  match fuel with
  | O => fault
  | S fuel =>
      if negb (nz ptr) then ret (ib0, b0, lb0) else
      let ib1 := u32 (ptr - BHDR_OVERHEAD) in
      let* b1 := next_block ib1 in
      let* lb1 := mem (load ptr) in
      (* Merging the new area with the next physically contigous one *)
      if ib1 =? u32 (lb0 + BHDR_OVERHEAD) then
        let* ptr := unlink_area tlsf ptr ptr_prev in
        let* r0 := blk_size b0 in
        let* r1 := blk_size ib1 in
        mem (store (size b0)
          (Z.lor (Z.lor (ROUNDDOWN_SIZE (u32 (r0 + r1 + 2 * BHDR_OVERHEAD))) USED_BLOCK) PREV_USED)) ;;;
        mem (store (prev_hdr b1) b0) ;;;
        add_area_loop fuel tlsf ptr ptr_prev ib0 b0 lb1
      (* Merging the new area with the previous physically contigous one *)
      else if buffer lb1 =? ib0 then
        let* ptr := unlink_area tlsf ptr ptr_prev in
        let* r0 := blk_size b0 in
        let* ri := blk_size ib0 in
        upd_word (size lb1) (fun w =>
          Z.lor (Z.lor (ROUNDDOWN_SIZE (u32 (r0 + ri + 2 * BHDR_OVERHEAD))) USED_BLOCK) (Z.land w PREV_STATE)) ;;;
        let* next_b := next_block lb1 in
        mem (store (prev_hdr next_b) lb1) ;;;
        add_area_loop fuel tlsf ptr ptr_prev ib1 lb1 lb0
      else
        let* next := mem (load (ptr + 4)) in
        add_area_loop fuel tlsf next ptr ib0 b0 lb0
  end.

(** The areas of the list are different words of memory. *)
Definition area_fuel (st : tlsf_state) : nat := S (base.size (t_mem st)).

Definition add_new_area (area area_size mem_pool : Z) : TM Z :=
  let tlsf := mem_pool in
  mem (memset0 area area_size) ;;;
  let* ptr := mem (load (area_head tlsf)) in
  let* ib0 := process_area area area_size in
  let* b0 := next_block ib0 in
  let* lb0 := next_block b0 in
  (* Before inserting the new area, we have to merge this area with the
     already existing ones *)
  let* fuel := gets area_fuel in
  let* '(ib0, b0, lb0) := add_area_loop fuel tlsf ptr NULL ib0 b0 lb0 in
  (* Inserting the area in the list of linked areas *)
  let ai := buffer ib0 in
  let* head := mem (load (area_head tlsf)) in
  mem (store (ai + 4) head) ;;;
  mem (store ai lb0) ;;;
  mem (store (area_head tlsf) ai) ;;;
  free_ex (buffer b0) mem_pool ;;;
  blk_size b0.

Definition malloc_ex (sz mem_pool : Z) : TM Z :=
  let tlsf := mem_pool in
  let sz := if sz <? MIN_BLOCK_SIZE then MIN_BLOCK_SIZE else ROUNDUP_SIZE sz in
  (* Rounding up the requested size and calculating fl and sl *)
  let '(sz, fl, sl) := MAPPING_SEARCH sz in
  let* '(b, fl, sl) := FIND_SUITABLE_BLOCK tlsf fl sl in
  if negb (nz b) then ret NULL else
  EXTRACT_BLOCK_HDR b tlsf fl sl ;;;
  let* next_b := next_block b in
  (* Should the block be split? *)
  let* r := blk_size b in
  let tmp_size := u32 (r - sz) in
  (if tmp_size >=? sizeof_bhdr then
     let tmp_size := tmp_size - BHDR_OVERHEAD in
     let b2 := GET_NEXT_BLOCK (buffer b) sz in
     mem (store (size b2) (Z.lor (Z.lor tmp_size FREE_BLOCK) PREV_USED)) ;;;
     mem (store (prev_hdr next_b) b2) ;;;
     let '(fl, sl) := MAPPING_INSERT tmp_size in
     INSERT_BLOCK b2 tlsf fl sl ;;;
     upd_word (size b) (fun w => Z.lor sz (Z.land w PREV_STATE))
   else
     upd_word (size next_b) (fun w => Z.land w (u32 (Z.lnot PREV_FREE))) ;;;
     upd_word (size b) (fun w => Z.land w (u32 (Z.lnot FREE_BLOCK)))) ;;;
  ret (buffer b).

(** The tail of both growing and shrinking in [realloc_ex]: give back what is
    left of [b] behind [new_size] bytes. *)
Definition realloc_split (b next_b new_size tmp_size tlsf : Z) : TM unit :=
  when (tmp_size >=? sizeof_bhdr)
    (let tmp_size := tmp_size - BHDR_OVERHEAD in
     let tmp_b := GET_NEXT_BLOCK (buffer b) new_size in
     mem (store (size tmp_b) (Z.lor (Z.lor tmp_size FREE_BLOCK) PREV_USED)) ;;;
     mem (store (prev_hdr next_b) tmp_b) ;;;
     upd_word (size next_b) (fun w => Z.lor w PREV_FREE) ;;;
     let '(fl, sl) := MAPPING_INSERT tmp_size in
     INSERT_BLOCK tmp_b tlsf fl sl ;;;
     upd_word (size b) (fun w => Z.lor new_size (Z.land w PREV_STATE))).

(** The last resort of [realloc_ex]: a new block and a copy. *)
Definition realloc_move (ptr b new_size mem_pool : Z) : TM Z :=
  let* ptr_aux := malloc_ex new_size mem_pool in
  if negb (nz ptr_aux) then ret NULL else
  let* bs := blk_size b in
  let cpsize := if bs >? new_size then new_size else bs in
  mem (copy_words ptr_aux ptr (Z.to_nat (cpsize / 4))) ;;;
  free_ex ptr mem_pool ;;;
  ret ptr_aux.

Definition realloc_ex (ptr new_size mem_pool : Z) : TM Z :=
  let tlsf := mem_pool in
  if negb (nz ptr) then
    (if nz new_size then malloc_ex new_size mem_pool else ret NULL)
  else if negb (nz new_size) then free_ex ptr mem_pool ;;; ret NULL
  else
  let b := u32 (ptr - BHDR_OVERHEAD) in
  let* next_b := next_block b in
  let new_size := if new_size <? MIN_BLOCK_SIZE then MIN_BLOCK_SIZE else ROUNDUP_SIZE new_size in
  let* tmp_size := blk_size b in
  let* w := mem (load (size next_b)) in
  if new_size <=? tmp_size then
    let* '(next_b, tmp_size) :=
      (if nz (Z.land w FREE_BLOCK) then
         let* r := blk_size next_b in
         let '(fl, sl) := MAPPING_INSERT r in
         EXTRACT_BLOCK next_b tlsf fl sl ;;;
         let* r := blk_size next_b in
         let tmp_size := u32 (tmp_size + (r + BHDR_OVERHEAD)) in
         let* n := next_block next_b in
         ret (n, tmp_size)
       else ret (next_b, tmp_size)) in
    realloc_split b next_b new_size (u32 (tmp_size - new_size)) tlsf ;;;
    ret (buffer b)
  else
  let* r := blk_size next_b in
  if nz (Z.land w FREE_BLOCK) && (new_size <=? u32 (tmp_size + r)) then
    let '(fl, sl) := MAPPING_INSERT r in
    EXTRACT_BLOCK next_b tlsf fl sl ;;;
    let* r := blk_size next_b in
    upd_word (size b) (fun w => u32 (w + (r + BHDR_OVERHEAD))) ;;;
    let* next_b := next_block b in
    mem (store (prev_hdr next_b) b) ;;;
    upd_word (size next_b) (fun w => Z.land w (u32 (Z.lnot PREV_FREE))) ;;;
    let* r := blk_size b in
    realloc_split b next_b new_size (u32 (r - new_size)) tlsf ;;;
    ret (buffer b)
  else realloc_move ptr b new_size mem_pool.

Definition calloc_ex (nelem elem_size mem_pool : Z) : TM Z :=
  if (nelem <=? 0) || (elem_size <=? 0) then ret NULL else
  let* ptr := malloc_ex (u32 (nelem * elem_size)) mem_pool in
  if negb (nz ptr) then ret NULL else
  mem (memset0 ptr (u32 (nelem * elem_size))) ;;;
  ret ptr.

(** ** The default pool *)

Definition tlsf_malloc (sz : Z) : TM Z := let* mp := get_mp in malloc_ex sz mp.
Definition tlsf_free (ptr : Z) : TM unit := let* mp := get_mp in free_ex ptr mp.
Definition tlsf_realloc (ptr sz : Z) : TM Z := let* mp := get_mp in realloc_ex ptr sz mp.
Definition tlsf_calloc (nelem elem_size : Z) : TM Z :=
  let* mp := get_mp in calloc_ex nelem elem_size mp.

Definition destroy_memory_pool (mem_pool : Z) : TM unit :=
  mem (store (tlsf_signature mem_pool) 0).
Definition get_used_size (mem_pool : Z) : Z := 0.
Definition get_max_size (mem_pool : Z) : Z := 0.

(** Run the allocator on the state of the kernel. *)
Definition ktlsf {A} (m : TM A) : KM A :=
  zoom (fun s => mk_tlsf (k_mem s) (mp (k_setup s)))
       (fun t s => set_k_setup (set_mp (t_mp t) (k_setup s)) (set_k_mem (t_mem t) s)) m.
