(* ===== verification/Syslog.v ===== *)
(** * The system log: syslog.c

    A ring of [CONFIG_SYSLOG_SIZE] entries; [log_index] is the next slot. *)

From Stdlib Require Import ZArith Lia.
From stdpp Require Import base tactics gmap option list.
From S2P Require Import Prelude Bits Mem Queue Kstate.

Open Scope Z_scope.

Definition zero_log_entry : log_entry_t := mk_log_entry 0 0 0 0 0.

Definition init_syslog : KM unit :=
  modify (fun s => set_k_log
    (mk_log_mod (replicate (Z.to_nat CONFIG_SYSLOG_SIZE) zero_log_entry) 0) s).

(** [write_log(event, arg1, arg2)]: the arguments are [int16_t], the time is
    cut to 32 bits; [arg3] of the slot is left as it is. *)
Definition write_log (event a1 a2 : Z) : KM unit :=
  fun s =>
    let l := k_log s in
    match system_log l !! Z.to_nat (log_index l) with
    | Some e =>
        let e := mk_log_entry (u32 (system_time (k_time s))) (i16 event) (i16 a1) (i16 a2) (arg3 e) in
        Some (tt, set_k_log
          (mk_log_mod (<[Z.to_nat (log_index l) := e]> (system_log l))
                      (Z.rem (log_index l + 1) CONFIG_SYSLOG_SIZE)) s)
    | None => None
    end.

(** The log is well formed: all slots exist and the index is one of them. *)
Definition log_ok (l : log_mod) : Prop :=
  Z.of_nat (length (system_log l)) = CONFIG_SYSLOG_SIZE /\
  0 <= log_index l < CONFIG_SYSLOG_SIZE.

Lemma init_syslog_ok s : wp init_syslog (fun _ s' => log_ok (k_log s')) s.
Proof. by split. Qed.

(** [write_log] returns, advances the index modulo the size and writes one
    slot; every other component of the state is kept. *)
Lemma write_log_eq ev a1 a2 s : log_ok (k_log s) ->
  exists l, write_log ev a1 a2 s = Some (tt, set_k_log l s) /\ log_ok l.
Proof.
  intros [Hlen Hidx]. unfold write_log.
  destruct (system_log (k_log s) !! Z.to_nat (log_index (k_log s))) as [e|] eqn:E.
  - eexists. split; [done|]. split; simpl; [by rewrite length_insert|].
    rewrite Z.rem_mod_nonneg by (unfold CONFIG_SYSLOG_SIZE in *; lia).
    apply Z.mod_pos_bound. done.
  - apply lookup_ge_None in E. lia.
Qed.

Lemma wp_write_log ev a1 a2 s (Q : unit -> kstate -> Prop) : log_ok (k_log s) ->
  (forall l, log_ok l -> Q tt (set_k_log l s)) -> wp (write_log ev a1 a2) Q s.
Proof. intros H HQ. destruct (write_log_eq ev a1 a2 s H) as (l & E & Hl). unfold wp. rewrite E. auto. Qed.
