(* ===== verification/Sched.v ===== *)
(** * The scheduler: sched.c

    The ready queue is an array of FIFO queues, one per priority, and a bitmap
    of the non-empty ones; the timeout queue is a list of the sleeping tasks
    in the order they wake up. *)

From Stdlib Require Import ZArith Lia.
From stdpp Require Import base tactics gmap option functions countable list.
From S2P Require Import Prelude Bits Queue Qfam Mem Kstate Syslog.

Open Scope Z_scope.
Open Scope kernel_scope.

(** ** The ready queue *)

(** [&ready_queue.prioqueue[p]]: an index out of the array faults. *)
Definition get_prioqueue (p : Z) : KM queue_t :=
  fun s => if p <? 0 then None else
           match prioqueue (k_sched s) !! Z.to_nat p with
           | Some q => Some (q, s) | None => None end.

Definition put_prioqueue (p : Z) (q : queue_t) : KM unit :=
  upd_sched (fun r => set_prioqueue (<[Z.to_nat p := q]> (prioqueue r)) r).

Definition rq_init : KM unit :=
  upd_sched (fun r => set_priobmap clearbitmap
    (set_prioqueue (fmap (fun _ => queue_init) (prioqueue r)) r)).

Definition rq_insert (tsk : nat) : KM unit :=
  let* t := get_task tsk in
  let* sq := get_prioqueue (tskpri t) in
  let* m := gets k_nodes in
  let* '(m, sq) := ret (queue_insert m sq (RdyQue tsk)) in
  upd_nodes (fun _ => m) ;;;
  put_prioqueue (tskpri t) sq ;;;
  upd_sched (fun r => set_priobmap (setbit (priobmap r) (tskpri t)) r) ;;;
  write_log TFN_RQ_INSERT (tskid t) (tskstat t).

Definition rq_get_head : KM (option nat) :=
  let* bm := gets (fun s => priobmap (k_sched s)) in
  if negb (nz bm) then ret None else
  let i := _ffs bm in
  let* sq := get_prioqueue i in
  let* h := deref (head sq) in
  let* m := gets k_nodes in
  task_ptr (this (node m h)).

Definition rq_remove (tsk : nat) : KM unit :=
  let* t := get_task tsk in
  let i := tskpri t in
  let* sq := get_prioqueue i in
  let* m := gets k_nodes in
  let* '(m, sq) := ret (queue_remove m sq (RdyQue tsk)) in
  upd_nodes (fun _ => m) ;;;
  put_prioqueue i sq ;;;
  when (queue_is_empty sq)
    (upd_sched (fun r => set_priobmap (clearbit (priobmap r) i) r)) ;;;
  write_log TFN_RQ_REMOVE (tskid t) (tskstat t).

Definition rq_relocate (tsk : nat) (newpri : Z) : KM unit :=
  let* t := get_task tsk in
  let i := tskpri t in
  let* sq := get_prioqueue i in
  (* Extract the task from the ready queue *)
  let* m := gets k_nodes in
  let* '(m, sq) := ret (queue_remove m sq (RdyQue tsk)) in
  upd_nodes (fun _ => m) ;;;
  put_prioqueue i sq ;;;
  when (queue_is_empty sq)
    (upd_sched (fun r => set_priobmap (clearbit (priobmap r) i) r)) ;;;
  upd_task tsk (set_tskpri newpri) ;;;
  (* Insert with its new priority *)
  let* sq := get_prioqueue newpri in
  let* m := gets k_nodes in
  let* '(m, sq) := ret (queue_insert m sq (RdyQue tsk)) in
  upd_nodes (fun _ => m) ;;;
  put_prioqueue newpri sq ;;;
  upd_sched (fun r => set_priobmap (setbit (priobmap r) newpri) r) ;;;
  write_log TFN_RQ_RELOCATE (tskid t) newpri.

(** ** The timeout queue *)

(** The loop of [tq_insert] over the body of the list: the first node whose
    task wakes no earlier, or the last task of the list. The fuel bounds the
    length of the list. *)
Fixpoint tq_search (fuel : nat) (wup : Z) (l : option laddr) (t : nat) : KM (laddr + nat) :=
  match fuel with
  | O => fault
  | S fuel =>
      match l with
      | None => ret (inr t)
      | Some a =>
          let* m := gets k_nodes in
          let* t := as_task (this (node m a)) in
          let* tt := get_task t in
          if wup <=? wuptim tt then ret (inl a)
          else tq_search fuel wup (next (node m a)) t
      end
  end.

(** The number of nodes a list can have: one per slot of the task pool. *)
Definition tq_fuel (s : kstate) : nat := S (length (task_pool (k_task s))).

Arguments tq_search : simpl never.

Definition set_timeout_head (h : option laddr) : KM unit :=
  upd_sched (fun r => set_timeout_queue h r).

Definition tq_insert (tsk : nat) (tmout : Z) : KM unit :=
  let* time := get_system_time in
  let wup := u64 (tmout + time) in
  upd_task tsk (set_wuptim wup) ;;;
  let sn := SlpQue tsk in
  let* tq := gets (fun s => timeout_queue (k_sched s)) in
  match tq with
  | None =>
      (* Case 1: Empty *)
      upd_nodes (set_next sn None) ;;;
      upd_nodes (set_prev sn None) ;;;
      set_timeout_head (Some sn)
  | Some h =>
      let* m := gets k_nodes in
      let* t := as_task (this (node m h)) in
      let* tt := get_task t in
      if wup <=? wuptim tt then
        (* Case 2: Head *)
        upd_nodes (set_next sn (Some h)) ;;;
        upd_nodes (set_prev sn None) ;;;
        upd_nodes (set_prev h (Some sn)) ;;;
        set_timeout_head (Some sn)
      else
        (* Case 3: Body *)
        let* fuel := gets tq_fuel in
        let* r := tq_search fuel wup (next (node m h)) t in
        match r with
        | inl l =>
            upd_nodes (set_next sn (Some l)) ;;;
            let* m := gets k_nodes in
            upd_nodes (set_prev sn (prev (node m l))) ;;;
            let* m := gets k_nodes in
            let* lp := deref (prev (node m l)) in
            upd_nodes (set_next lp (Some sn)) ;;;
            upd_nodes (set_prev l (Some sn))
        | inr t =>
            (* Case 4: Tail (t holds the last task on the queue) *)
            upd_nodes (set_next sn None) ;;;
            upd_nodes (set_prev sn (Some (SlpQue t))) ;;;
            upd_nodes (set_next (SlpQue t) (Some sn))
        end
  end.

(** [tq_remove(tsk)] *)
Definition tq_remove (tsk : nat) : KM unit :=
  let* h := gets (fun s => timeout_queue (k_sched s)) in
  let* m := gets k_nodes in
  let* '(m, h) := ret (remove_linked_list m h (SlpQue tsk)) in
  upd_nodes (fun _ => m) ;;;
  set_timeout_head h.

(** The loop of [tq_wakeup]: wake the tasks at the head whose time has come. *)
Fixpoint tq_wakeup_loop (fuel : nat) : KM unit :=
  match fuel with
  | O => fault
  | S fuel =>
      let* tq := gets (fun s => timeout_queue (k_sched s)) in
      match tq with
      | None => ret tt
      | Some h =>
          let* m := gets k_nodes in
          let* tsk := as_task (this (node m h)) in
          let* t := get_task tsk in
          let* now := get_system_time in
          if wuptim t <=? u64 now then
            tq_remove tsk ;;;
            rq_insert tsk ;;;
            upd_task tsk (set_wobjid E_TMOUT) ;;;
            tq_wakeup_loop fuel
          else ret tt
      end
  end.

Definition tq_wakeup : KM unit :=
  let* fuel := gets tq_fuel in
  tq_wakeup_loop fuel.

(** ** Dispatching *)

(** entry.S: [context_switch(&current_task, new_tsk)]. The registers and the
    stack of the task left behind are its continuation (see Kernel.v). *)
Definition context_switch (new_tsk : nat) : KM unit :=
  upd_sched (set_current_task (Some new_tsk)).

(** The second half of the switch in [scheduler]: a task that is still running
    has been preempted and becomes ready, the new one runs. *)
Definition switch_task (new_tsk : option nat) : KM unit :=
  let* cur := get_current in
  let* ct := get_task cur in
  when (tskstat ct =? TTS_RUN) (upd_task cur (set_tskstat TTS_RDY)) ;;;
  let* new_tsk := deref new_tsk in
  upd_task new_tsk (set_tskstat TTS_RUN) ;;;
  let* ct := get_task cur in
  let* nt := get_task new_tsk in
  write_log TFN_SCHEDULER (tskid ct) (tskid nt) ;;;
  upd_int (set_need_resched 0) ;;;
  context_switch new_tsk.

Definition scheduler : KM unit :=
  let* nest := gets (fun s => int_nest_count (k_int s)) in
  if nest >? 0 then upd_int (set_need_resched 1) else
  hw_cli ;;;
  let* dsp := gets (fun s => dispatching (k_sched s)) in
  (* Dispatching disabled. *)
  if negb (nz dsp) then hw_sti else
  (* Get the highest priority task *)
  let* new_tsk := rq_get_head in
  let* idle := gets (fun s => idle_task (k_sched s)) in
  (* Idle if there are not ready tasks *)
  let* new_tsk :=
    match new_tsk with
    | Some t => ret (Some t)
    | None =>
        let* c := get_cycles in
        upd_sched (set_start_idle c) ;;;
        ret idle
    end in
  let* cur := gets (fun s => current_task (k_sched s)) in
  when (bool_decide (cur <> new_tsk))
    ((* If we were on the idle task, compute time spent *)
     when (bool_decide (cur = idle))
       (let* c := get_cycles in
        upd_sched (set_end_idle c) ;;;
        let* r := gets k_sched in
        upd_time (fun t => set_tot_idle (u64 (tot_idle t + (end_idle r - start_idle r))) t)) ;;;
     switch_task new_tsk) ;;;
  hw_sti.

Definition dis_dsp_sys : KM Z :=
  hw_cli ;;; upd_sched (set_dispatching FALSE) ;;; hw_sti ;;; ret E_OK.

Definition ena_dsp_sys : KM Z :=
  hw_cli ;;; upd_sched (set_dispatching TRUE) ;;; hw_sti ;;; ret E_OK.

Definition sns_dsp_sys : KM Z :=
  let* d := gets (fun s => dispatching (k_sched s)) in
  ret (if d =? FALSE then 1 else 0).

(** [init_sched]: [memset] of the ready queue, no timeout, dispatching off. *)
Definition init_sched : KM unit :=
  upd_sched (fun r => set_priobmap 0
    (set_prioqueue (replicate (Z.to_nat PRIORITY_LEVELS) null_queue) r)) ;;;
  set_timeout_head None ;;;
  upd_sched (set_dispatching FALSE).

(** ** What the ready queue denotes *)

(** Only nodes of the kind [nd] differ, and no [this] does. *)
Definition nodes_upd (nd : nat -> laddr) (m m' : gmap laddr linked_list_t) : Prop :=
  only_nodes nd m m' /\ forall a, this (node m' a) = this (node m a).

Definition prioq (sc : sched_mod) (p : nat) : queue_t :=
  default null_queue (prioqueue sc !! p).

(** The ready queue is [R]: the tasks of each priority, in arrival order; the
    bitmap marks the non-empty priorities. *)
Record rq_ok (m : gmap laddr linked_list_t) (sc : sched_mod) (pool : list task_t)
    (R : nat -> list nat) : Prop := {
  rq_len : length (prioqueue sc) = 32%nat;
  rq_fam : qfam RdyQue m (prioq sc) R;
  rq_word : word32 (priobmap sc);
  rq_bit : forall p, (p < 32)%nat -> Z.testbit (priobmap sc) (Z.of_nat p) = bool_decide (R p <> []);
  rq_high : forall p, (32 <= p)%nat -> R p = [];
  rq_pri : forall p i, i ∈ R p -> exists t, pool !! i = Some t /\ tskpri t = Z.of_nat p
}.

#[export] Instance RdyQue_inj : Inj (=) (=) RdyQue.
Proof. by intros ?? [= ->]. Qed.

#[export] Instance SynQue_inj : Inj (=) (=) SynQue.
Proof. by intros ?? [= ->]. Qed.

#[export] Instance SlpQue_inj : Inj (=) (=) SlpQue.
Proof. by intros ?? [= ->]. Qed.

(** ** Weakest preconditions of the accessors *)

Lemma wp_get_task i s t (Q : task_t -> kstate -> Prop) :
  task_pool (k_task s) !! i = Some t -> Q t s -> wp (get_task i) Q s.
Proof. intros E HQ. unfold wp, get_task. by rewrite E. Qed.

Lemma wp_upd_task i f s t (Q : unit -> kstate -> Prop) :
  task_pool (k_task s) !! i = Some t ->
  Q tt (set_k_task (set_task_pool (<[i := f t]> (task_pool (k_task s))) (k_task s)) s) ->
  wp (upd_task i f) Q s.
Proof. intros E HQ. unfold wp, upd_task. by rewrite E. Qed.

Lemma wp_get_current s i (Q : nat -> kstate -> Prop) :
  current_task (k_sched s) = Some i -> Q i s -> wp get_current Q s.
Proof. intros E HQ. unfold wp, get_current. by rewrite E. Qed.

Lemma wp_get_prioqueue p s (Q : queue_t -> kstate -> Prop) :
  0 <= p < 32 -> length (prioqueue (k_sched s)) = 32%nat ->
  Q (prioq (k_sched s) (Z.to_nat p)) s -> wp (get_prioqueue p) Q s.
Proof.
  intros Hp Hl HQ. unfold wp, get_prioqueue, prioq in *.
  destruct (Z.ltb_spec p 0); [lia|].
  destruct (prioqueue (k_sched s) !! Z.to_nat p) eqn:E; [done|].
  apply lookup_ge_None in E. lia.
Qed.

Lemma prioq_insert sc p q p' : (p < length (prioqueue sc))%nat ->
  prioq (set_prioqueue (<[p := q]> (prioqueue sc)) sc) p' = if decide (p' = p) then q else prioq sc p'.
Proof.
  intros Hp. unfold prioq; simpl. case_decide as E.
  - subst. by rewrite list_lookup_insert_eq.
  - by rewrite list_lookup_insert_ne.
Qed.

Create HintDb kernel.
#[export] Hint Resolve only_nodes_refl : kernel.

(** One step of symbolic execution of a routine. *)
Ltac wp_step :=
  lazymatch goal with
  | |- wp (bind _ _) _ _ => apply wp_bind
  | |- wp (ret _) _ _ => apply wp_ret
  | |- wp (gets _) _ _ => apply wp_gets
  | |- wp (modify _) _ _ => apply wp_modify
  | |- wp (upd_nodes _) _ _ => apply wp_modify
  | |- wp (upd_sched _) _ _ => apply wp_modify
  | |- wp (upd_int _) _ _ => apply wp_modify
  | |- wp (upd_time _) _ _ => apply wp_modify
  | |- wp (upd_task_mod _) _ _ => apply wp_modify
  | |- wp (upd_sem_mod _) _ _ => apply wp_modify
  | |- wp (upd_flg_mod _) _ _ => apply wp_modify
  | |- wp (upd_mbx_mod _) _ _ => apply wp_modify
  | |- wp (upd_mpl_mod _) _ _ => apply wp_modify
  | |- wp (put_prioqueue _ _) _ _ => apply wp_modify
  | |- wp (set_timeout_head _) _ _ => apply wp_modify
  | |- wp hw_cli _ _ => apply wp_modify
  | |- wp hw_sti _ _ => apply wp_modify
  | |- wp get_system_time _ _ => apply wp_gets
  | |- wp get_cycles _ _ => apply wp_gets
  | |- wp (get_task _) _ _ => eapply wp_get_task; [eassumption|]
  | |- wp (get_current) _ _ => eapply wp_get_current; [eassumption|]
  end.

Ltac wp_steps := repeat (wp_step; cbv beta).

(** ** The ready queue routines on the denoted lists *)

Section ready_queue.
Implicit Types (m : gmap laddr linked_list_t) (sc : sched_mod) (pool : list task_t)
  (R : nat -> list nat) (p i : nat).

Lemma rq_ok_insert m sc pool R p i t :
  rq_ok m sc pool R -> pool !! i = Some t -> tskpri t = Z.of_nat p -> (p < 32)%nat ->
  (forall p', i ∉ R p') -> this (node m (RdyQue i)) = Some (OTask i) ->
  rq_ok (queue_insert m (prioq sc p) (RdyQue i)).1
    (set_priobmap (setbit (priobmap sc) (Z.of_nat p))
      (set_prioqueue (<[p := (queue_insert m (prioq sc p) (RdyQue i)).2]> (prioqueue sc)) sc))
    pool (<[p := R p ++ [i]]> R).
Proof.
  intros [Hlen Hf Hw Hb Hhi Hpri] Ht Hp Hlt Hni Hth. split.
  - simpl. by rewrite length_insert.
  - apply (qfam_insert RdyQue m (prioq sc)); try done.
    + etrans; [apply prioq_insert; lia|]. by rewrite decide_True.
    + intros p' Hne. etrans; [apply prioq_insert; lia|]. by rewrite decide_False.
  - simpl. auto with bits.
  - intros p' Hp'. simpl. rewrite setbit_spec, Hb by lia.
    destruct (decide (p' = p)) as [->|Hne].
    + rewrite Z.eqb_refl, fn_lookup_insert. simpl. symmetry. apply bool_decide_eq_true.
      by destruct (R p).
    + rewrite fn_lookup_insert_ne by done. by destruct (Z.eqb_spec (Z.of_nat p) (Z.of_nat p')); [lia|].
  - intros p' Hp'. rewrite fn_lookup_insert_ne by lia. auto.
  - intros p' j Hj%elem_of_fn_insert. rewrite elem_of_app, list_elem_of_singleton in Hj.
    destruct Hj as [[-> [Hj| ->]]|[Hne Hj]]; eauto.
Qed.

Lemma rq_ok_remove m sc pool R p i t :
  rq_ok m sc pool R -> pool !! i = Some t -> tskpri t = Z.of_nat p -> (p < 32)%nat ->
  let q := queue_remove m (prioq sc p) (RdyQue i) in
  rq_ok q.1
    (set_priobmap (if queue_is_empty q.2 then clearbit (priobmap sc) (Z.of_nat p) else priobmap sc)
      (set_prioqueue (<[p := q.2]> (prioqueue sc)) sc))
    pool (<[p := without i (R p)]> R) /\
  nodes_upd RdyQue m q.1.
Proof.
  intros [Hlen Hf Hw Hb Hhi Hpri] Ht Hp Hlt q.
  assert (forall p', i ∈ R p' -> p' = p) as Huniq.
  { intros p' (t' & Ht' & Hp')%Hpri. rewrite Ht in Ht'. injection Ht' as <-. lia. }
  destruct (qfam_remove_any (ob := OTask) RdyQue m (prioq sc)
    (prioq (set_prioqueue (<[p := q.2]> (prioqueue sc)) sc)) R p i) as (Hq1 & Honly & Hf').
  { done. }
  { done. }
  { rewrite prioq_insert by lia. by rewrite decide_True. }
  { intros p' Hne. rewrite prioq_insert by lia. by rewrite decide_False. }
  pose proof (qf_rep _ _ _ _ Hf' p) as Hrp. rewrite fn_lookup_insert in Hrp.
  rewrite prioq_insert, decide_True in Hrp by lia.
  pose proof (qrep_empty _ _ _ Hrp) as Hemp.
  assert (queue_is_empty q.2 = bool_decide (without i (R p) = [])) as Hqe.
  { destruct (queue_is_empty q.2) eqn:E; symmetry.
    - apply bool_decide_eq_true. by eapply fmap_nil_inv, Hemp.
    - apply bool_decide_eq_false. intros E'. rewrite E' in Hemp.
      by assert (false = true) by (by apply Hemp). }
  unfold q in *. rewrite Hq1. split; [split|].
  - simpl. by rewrite length_insert.
  - exact Hf'.
  - simpl. case_match; auto with bits.
  - intros p' Hp'. simpl. rewrite Hqe. destruct (decide (p' = p)) as [->|Hne].
    + rewrite fn_lookup_insert. case_bool_decide as E.
      * rewrite clearbit_spec, Z.eqb_refl by lia. by rewrite E.
      * rewrite Hb by done. rewrite !bool_decide_eq_true_2; [done|done|].
        by intros E'; rewrite E' in E.
    + rewrite fn_lookup_insert_ne by done. case_bool_decide; [|auto].
      rewrite clearbit_spec, Hb by lia. by destruct (Z.eqb_spec (Z.of_nat p) (Z.of_nat p')); [lia|].
  - intros p' Hp'. rewrite fn_lookup_insert_ne by lia. auto.
  - intros p' j Hj%elem_of_fn_insert. rewrite elem_of_without in Hj.
    destruct Hj as [[-> [_ Hj]]|[_ Hj]]; eauto.
  - split; [done|]. intros a. apply unlink_this.
Qed.
End ready_queue.

(** The ready queue of a state. *)
Definition rq (s : kstate) (R : nat -> list nat) : Prop :=
  rq_ok (k_nodes s) (k_sched s) (task_pool (k_task s)) R.

(** The state after a routine of the ready queue: nodes, queues, bitmap and
    log have changed. *)
Definition rq_state (s : kstate) m qs bm l : kstate :=
  set_k_log l (set_k_sched (set_priobmap bm (set_prioqueue qs (k_sched s))) (set_k_nodes m s)).

Lemma nodes_upd_refl nd m : nodes_upd nd m m.
Proof. split; [apply only_nodes_refl|done]. Qed.

Lemma nodes_upd_trans nd m1 m2 m3 :
  nodes_upd nd m1 m2 -> nodes_upd nd m2 m3 -> nodes_upd nd m1 m3.
Proof.
  intros [H1 T1] [H2 T2]. split; [by eapply only_nodes_trans|]. intros a. by rewrite T2, T1.
Qed.

(** [rq_insert] appends the task to the queue of its priority. *)
Lemma wp_rq_insert s R i t (Q : unit -> kstate -> Prop) :
  rq s R -> log_ok (k_log s) -> task_pool (k_task s) !! i = Some t -> 0 <= tskpri t < 32 ->
  (forall p, i ∉ R p) -> this (node (k_nodes s) (RdyQue i)) = Some (OTask i) ->
  (forall m qs bm l, log_ok l -> nodes_upd RdyQue (k_nodes s) m ->
     rq (rq_state s m qs bm l) (<[Z.to_nat (tskpri t) := R (Z.to_nat (tskpri t)) ++ [i]]> R) ->
     Q tt (rq_state s m qs bm l)) ->
  wp (rq_insert i) Q s.
Proof.
  intros Hrq Hlog Ht Hp Hni Hth HQ. unfold rq_insert. wp_steps.
  eapply wp_get_prioqueue; [done|apply Hrq|]. wp_steps.
  set (p := Z.to_nat (tskpri t)) in *.
  pose proof (rq_ok_insert _ _ _ _ p i t Hrq Ht ltac:(unfold p; lia) ltac:(unfold p; lia) Hni Hth) as Hok.
  pose proof (qfam_insert_only RdyQue (k_nodes s) (prioq (k_sched s)) R p i (rq_fam _ _ _ _ Hrq)) as Hon.
  assert (forall a, this (node (queue_insert (k_nodes s) (prioq (k_sched s) p) (RdyQue i)).1 a)
                    = this (node (k_nodes s) a)) as Hth' by (intros; apply queue_insert_this).
  destruct (queue_insert (k_nodes s) (prioq (k_sched s) p) (RdyQue i)) as [m sq]; simpl in *.
  wp_steps. apply wp_write_log; [done|]. intros l Hl.
  replace (Z.of_nat p) with (tskpri t) in Hok by (unfold p; lia).
  apply (HQ m _ _ l Hl); [by split|exact Hok].
Qed.

(** [rq_remove] takes the task out of the queue of its priority, if it is
    there. *)
Lemma wp_rq_remove s R i t (Q : unit -> kstate -> Prop) :
  rq s R -> log_ok (k_log s) -> task_pool (k_task s) !! i = Some t -> 0 <= tskpri t < 32 ->
  (forall m qs bm l, log_ok l -> nodes_upd RdyQue (k_nodes s) m ->
     rq (rq_state s m qs bm l) (<[Z.to_nat (tskpri t) := without i (R (Z.to_nat (tskpri t)))]> R) ->
     Q tt (rq_state s m qs bm l)) ->
  wp (rq_remove i) Q s.
Proof.
  intros Hrq Hlog Ht Hp HQ. unfold rq_remove. wp_steps.
  eapply wp_get_prioqueue; [done|apply Hrq|]. wp_steps.
  set (p := Z.to_nat (tskpri t)) in *.
  destruct (rq_ok_remove _ _ _ _ p i t Hrq Ht ltac:(unfold p; lia) ltac:(unfold p; lia)) as [Hok Hup].
  destruct (queue_remove (k_nodes s) (prioq (k_sched s) p) (RdyQue i)) as [m sq]; simpl in *.
  replace (Z.of_nat p) with (tskpri t) in Hok by (unfold p; lia).
  wp_steps. unfold when. destruct (queue_is_empty sq); wp_steps;
    (apply wp_write_log; [done|]); intros l Hl; apply (HQ m _ _ l Hl Hup); exact Hok.
Qed.
