(* ===== verification/Timeout.v ===== *)
(** * The timeout queue of sched.c

    [tq_ok] says which list of sleeping tasks the linked list denotes; the
    lemmas show that [tq_insert] is insertion in a list sorted by wake-up time,
    that [tq_remove] deletes, and that [tq_wakeup] wakes exactly the tasks
    whose time has come. *)

From Stdlib Require Import ZArith Lia Sorted.
From stdpp Require Import base tactics gmap option functions countable list sorting.
From S2P Require Import Prelude Bits Queue Qfam Mem Kstate Syslog Sched.

Open Scope Z_scope.
Open Scope kernel_scope.

(** ** Linking a node between two lists *)

Lemma linked_insert m m' l1 p l2 :
  NoDup (l1 ++ p :: l2) -> linked m (l1 ++ l2) ->
  prev (node m' p) = last l1 -> next (node m' p) = l2 !! O ->
  (forall a, a <> p -> prev (node m' a) = if decide (l2 !! O = Some a) then Some p else prev (node m a)) ->
  (forall a, a <> p -> next (node m' a) = if decide (last l1 = Some a) then Some p else next (node m a)) ->
  linked m' (l1 ++ p :: l2).
Proof.
  intros Hnd Hl Hpp Hpn Hpr Hnx i a Hi.
  destruct (NoDup_mid _ _ _ Hnd) as (Hp1 & Hp2 & Hnd' & Hdisj).
  destruct (lt_eq_lt_dec i (length l1)) as [[Hlt| ->]|Hgt].
  - rewrite lookup_app_l in Hi by lia.
    assert (a ∈ l1) as Ha by (by eapply list_elem_of_lookup_2).
    assert (a <> p) as Hap by (by intros ->).
    destruct (Hl i a) as [Ep En]; [by rewrite lookup_app_l by lia|].
    rewrite Hpr, Hnx, Ep, En by done. split.
    + rewrite decide_False.
      * by rewrite !pred_at_app_l by lia.
      * intros E%list_elem_of_lookup_2. by eapply Hdisj.
    + case_decide as E.
      * rewrite last_lookup in E. assert (i = pred (length l1)) as ->.
        { eapply NoDup_lookup; [|exact Hi|exact E]. by apply NoDup_app in Hnd' as (? & _). }
        rewrite lookup_app_r by lia. by replace (S (pred (length l1)) - length l1)%nat with O by lia.
      * assert (S i < length l1)%nat.
        { destruct (decide (S i = length l1)) as [E'|]; [|lia]. exfalso. apply E.
          rewrite last_lookup, <- E'. done. }
        by rewrite !lookup_app_l by lia.
  - rewrite lookup_app_r, Nat.sub_diag in Hi by lia. injection Hi as <-.
    rewrite Hpp, Hpn, pred_at_length. split; [done|].
    rewrite lookup_app_r by lia. by replace (S (length l1) - length l1)%nat with 1%nat by lia.
  - rewrite lookup_app_r in Hi by lia.
    destruct (i - length l1)%nat as [|j] eqn:Ej; [lia|]. simpl in Hi.
    assert (a ∈ l2) as Ha by (by eapply list_elem_of_lookup_2).
    assert (a <> p) as Hap by (by intros ->).
    destruct (Hl (length l1 + j)%nat a) as [Ep En].
    { rewrite lookup_app_r by lia. by replace (length l1 + j - length l1)%nat with j by lia. }
    rewrite Hpr, Hnx, Ep, En by done. split.
    + destruct i as [|i]; [lia|]. simpl. case_decide as E.
      * assert (j = O) as ->.
        { eapply NoDup_lookup; [|exact Hi|exact E]. by apply NoDup_app in Hnd' as (_ & _ & ?). }
        rewrite lookup_app_r by lia. by replace (i - length l1)%nat with O by lia.
      * destruct j as [|j]; [done|]. rewrite lookup_app_r by lia.
        replace (i - length l1)%nat with (S j) by lia. simpl.
        rewrite Nat.add_succ_r. simpl. rewrite lookup_app_r by lia.
        by replace (length l1 + j - length l1)%nat with j by lia.
    + rewrite decide_False by (intros E%last_Some_elem_of; by eapply Hdisj).
      rewrite !lookup_app_r by lia.
      replace (S i - length l1)%nat with (S (S j)) by lia.
      by replace (S (length l1 + j) - length l1)%nat with (S j) by lia.
Qed.

(** ** What the timeout queue denotes *)

(** The wake-up time of a task. *)
Definition wup_of (pool : list task_t) (i : nat) : Z :=
  match pool !! i with Some t => wuptim t | None => 0 end.

Record tq_ok (m : gmap laddr linked_list_t) (h : option laddr) (pool : list task_t)
    (T : list nat) : Prop := {
  tq_rep : lrep m h (SlpQue <$> T);
  tq_this : forall i, i ∈ T -> this (node m (SlpQue i)) = Some (OTask i);
  tq_pool : forall i, i ∈ T -> (i < length pool)%nat;
  tq_sorted : StronglySorted (fun i j => wup_of pool i <= wup_of pool j) T;
  tq_clean : forall i, i ∉ T -> clean m (SlpQue i)
}.

(** The timeout queue of a state. *)
Definition tq (s : kstate) (T : list nat) : Prop :=
  tq_ok (k_nodes s) (timeout_queue (k_sched s)) (task_pool (k_task s)) T.

(** Insertion of [i], waking up at [w], in front of the first task that wakes
    no earlier. *)
Fixpoint tq_place (pool : list task_t) (w : Z) (i : nat) (T : list nat) : list nat :=
  match T with
  | [] => [i]
  | j :: T' => if w <=? wup_of pool j then i :: T else j :: tq_place pool w i T'
  end.

(** The tasks that are still asleep at [now]: what follows the expired ones. *)
Fixpoint tq_asleep (pool : list task_t) (now : Z) (T : list nat) : list nat :=
  match T with
  | [] => []
  | j :: T' => if wup_of pool j <=? now then tq_asleep pool now T' else T
  end.

Section place.
Variables (pool : list task_t) (w : Z) (i : nat).

Lemma tq_place_split T : exists T1 T2, T = T1 ++ T2 /\ tq_place pool w i T = T1 ++ i :: T2 /\
  Forall (fun j => wup_of pool j < w) T1 /\
  (forall j, T2 !! O = Some j -> w <= wup_of pool j).
Proof.
  induction T as [|j T (T1 & T2 & -> & E & H1 & H2)]; simpl.
  - by exists [], [].
  - destruct (Z.leb_spec w (wup_of pool j)).
    + exists [], (j :: T1 ++ T2). split_and!; [done|done|done|]. by intros ? [= <-].
    + exists (j :: T1), T2. rewrite E. split_and!; auto.
Qed.

(** The place is determined by what precedes and what follows. *)
Lemma tq_place_unique T1 T2 : Forall (fun j => wup_of pool j < w) T1 ->
  (forall j, T2 !! O = Some j -> w <= wup_of pool j) ->
  tq_place pool w i (T1 ++ T2) = T1 ++ i :: T2.
Proof.
  intros H1 H2. induction H1 as [|j T1 Hj _ IH]; simpl.
  - destruct T2 as [|j T2]; simpl; [done|]. specialize (H2 j eq_refl).
    by destruct (Z.leb_spec w (wup_of pool j)); [|lia].
  - destruct (Z.leb_spec w (wup_of pool j)); [lia|]. by rewrite IH.
Qed.

Lemma elem_of_tq_place T j : j ∈ tq_place pool w i T <-> j = i \/ j ∈ T.
Proof.
  destruct (tq_place_split T) as (T1 & T2 & -> & -> & _).
  rewrite !elem_of_app, elem_of_cons. tauto.
Qed.

Lemma tq_place_sorted T :
  i ∉ T -> StronglySorted (fun i j => wup_of pool i <= wup_of pool j) T ->
  wup_of pool i = w ->
  StronglySorted (fun i j => wup_of pool i <= wup_of pool j) (tq_place pool w i T).
Proof.
  intros Hi Hs Hw. induction Hs as [|j T Hs IH Hj]; simpl.
  - repeat constructor.
  - apply not_elem_of_cons in Hi as [Hij Hi].
    destruct (Z.leb_spec w (wup_of pool j)).
    + constructor; [by constructor|]. constructor; [lia|].
      eapply Forall_impl; [exact Hj|]. simpl. intros; lia.
    + constructor; [auto|]. rewrite Forall_forall in *. intros k [->|Hk]%elem_of_tq_place; [lia|auto].
Qed.
End place.

Lemma tq_length m h pool T : tq_ok m h pool T -> (length T <= length pool)%nat.
Proof.
  intros [Hr _ Hp _ _]. rewrite <- (length_seq (length pool) 0).
  apply submseteq_length, NoDup_submseteq.
  - destruct Hr as (_ & Hnd & _). by eapply NoDup_fmap_1.
  - intros i Hi%Hp. apply elem_of_seq. lia.
Qed.

(** ** Node stores *)

(** [m'] is [m] with the node [p] linked between [a] and [b]. *)
Definition linked_between (m m' : gmap laddr linked_list_t) (p : laddr) (a b : option laddr) : Prop :=
  prev (node m' p) = a /\ next (node m' p) = b /\
  (forall c, c <> p -> prev (node m' c) = if decide (b = Some c) then Some p else prev (node m c)) /\
  (forall c, c <> p -> next (node m' c) = if decide (a = Some c) then Some p else next (node m c)) /\
  (forall c, this (node m' c) = this (node m c)).

Lemma node_eq (x y : linked_list_t) : prev x = prev y -> next x = next y -> this x = this y -> x = y.
Proof. destruct x, y. simpl. by intros -> -> ->. Qed.

Lemma linked_between_other m m' p a b c :
  linked_between m m' p a b -> c <> p -> a <> Some c -> b <> Some c -> node m' c = node m c.
Proof.
  intros (_ & _ & Hp & Hn & Ht) Hc Ha Hb.
  apply node_eq; [rewrite Hp by done|rewrite Hn by done|apply Ht]; by rewrite decide_False.
Qed.

Lemma slp_head (T : list nat) a : (SlpQue <$> T) !! O = Some a -> exists j, a = SlpQue j /\ j ∈ T.
Proof. intros Ha%list_elem_of_lookup_2. apply list_elem_of_fmap in Ha. naive_solver. Qed.

Lemma slp_last (T : list nat) a : last (SlpQue <$> T) = Some a -> exists j, a = SlpQue j /\ j ∈ T.
Proof. intros Ha%last_Some_elem_of. apply list_elem_of_fmap in Ha. naive_solver. Qed.

Section tq_nodes.
Implicit Types (m : gmap laddr linked_list_t) (T : list nat) (i : nat).

Lemma tq_ok_link m m' h h' pool T1 T2 i :
  tq_ok m h pool (T1 ++ T2) -> i ∉ T1 ++ T2 -> (i < length pool)%nat ->
  this (node m (SlpQue i)) = Some (OTask i) ->
  linked_between m m' (SlpQue i) (last (SlpQue <$> T1)) ((SlpQue <$> T2) !! O) ->
  h' = (SlpQue <$> (T1 ++ i :: T2)) !! O ->
  StronglySorted (fun i j => wup_of pool i <= wup_of pool j) (T1 ++ i :: T2) ->
  tq_ok m' h' pool (T1 ++ i :: T2) /\ nodes_upd SlpQue m m'.
Proof.
  intros [(Hh & Hnd & Hl) Ht Hp Hs Hc] Hi Hlen Hth Hb Hh' Hs'.
  pose proof Hb as (Hbp & Hbn & Hbp' & Hbn' & Hbt).
  rewrite fmap_app in Hnd, Hl.
  assert (NoDup ((SlpQue <$> T1) ++ SlpQue i :: (SlpQue <$> T2))) as Hnd'.
  { rewrite <- Permutation_middle. apply NoDup_cons. split; [|done].
    rewrite <- fmap_app. by intros (j & ->%(inj SlpQue) & ?)%list_elem_of_fmap. }
  assert (forall c, c <> SlpQue i -> (forall j, j ∈ T1 ++ T2 -> c <> SlpQue j) -> node m' c = node m c) as Ho.
  { intros c Hc1 Hc2. eapply linked_between_other; [done|done| |].
    - intros (j & -> & Hj)%slp_last. apply (Hc2 j); [|done]. rewrite elem_of_app. by left.
    - intros (j & -> & Hj)%slp_head. apply (Hc2 j); [|done]. rewrite elem_of_app. by right. }
  split; [split|].
  - rewrite fmap_app, fmap_cons in *. split_and!; [done|done|]. by eapply linked_insert.
  - intros j Hj. rewrite Hbt. rewrite elem_of_app, elem_of_cons in Hj.
    destruct (decide (j = i)) as [->|]; [done|]. apply Ht. rewrite elem_of_app. naive_solver.
  - intros j Hj. rewrite elem_of_app, elem_of_cons in Hj.
    destruct (decide (j = i)) as [->|]; [done|]. apply Hp. rewrite elem_of_app. naive_solver.
  - done.
  - intros j Hj. rewrite elem_of_app, elem_of_cons in Hj. unfold clean.
    rewrite Ho; [apply Hc; rewrite elem_of_app; naive_solver|intros ->%(inj SlpQue); tauto|].
    intros k Hk ->%(inj SlpQue). rewrite elem_of_app in Hk. tauto.
  - split; [|done]. intros c Hc'. apply Ho; [done|]. intros j _. apply Hc'.
Qed.

(** Changing the wake-up time of a task that is not queued does not matter. *)
Lemma tq_ok_pool m h pool i f T t :
  tq_ok m h pool T -> pool !! i = Some t -> i ∉ T \/ wuptim (f t) = wuptim t ->
  tq_ok m h (<[i := f t]> pool) T.
Proof.
  intros [Hr Ht Hp Hs Hc] Et Hi.
  assert (forall j, j ∈ T -> wup_of (<[i := f t]> pool) j = wup_of pool j) as Hw.
  { intros j Hj. unfold wup_of. destruct (decide (j = i)) as [->|Hne].
    - rewrite list_lookup_insert_eq, Et by (by eapply lookup_lt_Some). naive_solver.
    - by rewrite list_lookup_insert_ne. }
  split; auto.
  - intros j Hj. rewrite length_insert. auto.
  - clear -Hs Hw. induction Hs as [|j T Hs IH Hj]; constructor.
    + apply IH. intros. apply Hw. by right.
    + rewrite Forall_forall in *. intros k Hk. rewrite !Hw by (by constructor). auto.
Qed.

(** Reading the node and the task of a queued task. *)
Lemma tq_task m h pool T j : tq_ok m h pool T -> j ∈ T ->
  this (node m (SlpQue j)) = Some (OTask j) /\
  exists t, pool !! j = Some t /\ wuptim t = wup_of pool j.
Proof.
  intros Hq Hj. split; [by apply Hq|].
  destruct (lookup_lt_is_Some_2 pool j) as [t Et]; [by apply Hq|].
  exists t. split; [done|]. unfold wup_of. by rewrite Et.
Qed.
End tq_nodes.

(** The successor of a queued task. *)
Lemma tq_next m h pool T1 j T2 : tq_ok m h pool (T1 ++ j :: T2) ->
  next (node m (SlpQue j)) = (SlpQue <$> T2) !! O /\
  prev (node m (SlpQue j)) = last (SlpQue <$> T1).
Proof.
  intros [(_ & _ & Hl) _ _ _ _]. rewrite fmap_app, fmap_cons in Hl.
  by destruct (linked_mid _ _ _ _ Hl).
Qed.

(** ** [tq_insert] *)

(** The state after a routine of the timeout queue: nodes, head and task pool
    have changed. *)
Definition tq_state (s : kstate) m h pool : kstate :=
  set_k_sched (set_timeout_queue h (k_sched s))
    (set_k_nodes m (set_k_task (set_task_pool pool (k_task s)) s)).

Lemma wp_as_task i s (Q : nat -> kstate -> Prop) o : o = Some (OTask i) -> Q i s -> wp (as_task o) Q s.
Proof. by intros ->. Qed.

(** The search stops in front of the first task that wakes no earlier, or at
    the last task; the fuel is enough when it exceeds what is left. *)
Lemma wp_tq_search fuel w s h T1 T2 t (Q : laddr + nat -> kstate -> Prop) :
  let pool := task_pool (k_task s) in
  tq_ok (k_nodes s) h pool (T1 ++ T2) -> last T1 = Some t ->
  Forall (fun j => wup_of pool j < w) T1 -> (length T2 < fuel)%nat ->
  (forall A j B, T2 = A ++ j :: B -> Forall (fun j => wup_of pool j < w) (T1 ++ A) ->
     w <= wup_of pool j -> Q (inl (SlpQue j)) s) ->
  (forall t', last (T1 ++ T2) = Some t' -> Forall (fun j => wup_of pool j < w) (T1 ++ T2) ->
     Q (inr t') s) ->
  wp (tq_search fuel w ((SlpQue <$> T2) !! O) t) Q s.
Proof.
  intros pool. revert T1 T2 t. induction fuel as [|fuel IH]; intros T1 T2 t Hq Ht H1 Hf Hin Hend; [lia|].
  destruct T2 as [|j T2]; cbn; unfold tq_search; fold tq_search.
  - apply wp_ret, Hend; by rewrite app_nil_r.
  - destruct (tq_task _ _ _ _ j Hq) as (Hth & tj & Ej & Hw).
    { rewrite elem_of_app, elem_of_cons. tauto. }
    destruct (tq_next _ _ _ _ _ _ Hq) as [Hn _].
    wp_steps. eapply wp_as_task; [exact Hth|]. wp_steps. rewrite Hw, Hn.
    destruct (Z.leb_spec w (wup_of pool j)).
    + apply wp_ret. apply (Hin [] j T2); [done|by rewrite app_nil_r|done].
    + apply (IH (T1 ++ [j]) T2).
      * by rewrite <- app_assoc.
      * apply last_snoc.
      * apply Forall_app. split; [done|by repeat constructor].
      * simpl in Hf. lia.
      * intros A k B -> HF Hk. apply (Hin (j :: A) k B); [done| |done]. by rewrite <- app_assoc in HF.
      * intros t'. rewrite <- app_assoc. apply Hend.
Qed.

(** The four writes that link a node, in the orders the cases use. *)
Lemma between_empty m p : linked_between m (set_prev p None (set_next p None m)) p None None.
Proof. split_and!; intros; node_simpl; by repeat case_decide. Qed.

Lemma between_head m p h : h <> p ->
  linked_between m (set_prev h (Some p) (set_prev p None (set_next p (Some h) m))) p None (Some h).
Proof. intros Hne. split_and!; intros; node_simpl; repeat case_decide; naive_solver. Qed.

Lemma between_body m p l lp : l <> p -> lp <> p -> prev (node m l) = Some lp ->
  linked_between m
    (set_prev l (Some p) (set_next lp (Some p) (set_prev p (Some lp) (set_next p (Some l) m))))
    p (Some lp) (Some l).
Proof. intros H1 H2 E. split_and!; intros; node_simpl; repeat case_decide; naive_solver. Qed.

Lemma between_tail m p t : t <> p ->
  linked_between m (set_next t (Some p) (set_prev p (Some t) (set_next p None m))) p (Some t) None.
Proof. intros H1. split_and!; intros; node_simpl; repeat case_decide; naive_solver. Qed.

Lemma tq_state_same s m pool :
  set_k_nodes m (set_k_task (set_task_pool pool (k_task s)) s) =
  tq_state s m (timeout_queue (k_sched s)) pool.
Proof. by destruct s as [? ? ? [] ? ? ? ? ? ? ? ?]. Qed.

(** [tq_insert] puts the task in front of the first that wakes no earlier. *)
Lemma wp_tq_insert s T i t tmout (Q : unit -> kstate -> Prop) :
  tq s T -> task_pool (k_task s) !! i = Some t -> i ∉ T ->
  this (node (k_nodes s) (SlpQue i)) = Some (OTask i) ->
  let w := u64 (tmout + system_time (k_time s)) in
  let pool := <[i := set_wuptim w t]> (task_pool (k_task s)) in
  (forall m h, nodes_upd SlpQue (k_nodes s) m -> tq_ok m h pool (tq_place pool w i T) ->
     Q tt (tq_state s m h pool)) ->
  wp (tq_insert i tmout) Q s.
Proof.
  intros Hq Et Hi Hth w pool HQ.
  assert (tq_ok (k_nodes s) (timeout_queue (k_sched s)) pool T) as Hok.
  { eapply (tq_ok_pool _ _ _ _ (set_wuptim w)); [exact Hq|done|by left]. }
  assert (i < length pool)%nat as Hlen.
  { unfold pool. rewrite length_insert. by eapply lookup_lt_Some. }
  assert (wup_of pool i = w) as Hw.
  { unfold wup_of, pool. rewrite list_lookup_insert_eq; [done|by eapply lookup_lt_Some]. }
  assert (forall T1 T2 m h, T = T1 ++ T2 -> Forall (fun j => wup_of pool j < w) T1 ->
    (forall j, T2 !! O = Some j -> w <= wup_of pool j) ->
    linked_between (k_nodes s) m (SlpQue i) (last (SlpQue <$> T1)) ((SlpQue <$> T2) !! O) ->
    h = (SlpQue <$> (T1 ++ i :: T2)) !! O -> Q tt (tq_state s m h pool)) as Hclose.
  { intros T1 T2 m h -> H1 H2 Hb Hh. pose proof (tq_place_unique pool w i T1 T2 H1 H2) as Ep.
    edestruct (tq_ok_link (k_nodes s) m) as [Hok' Hup]; [exact Hok|done..| |].
    - rewrite <- Ep. apply tq_place_sorted; [done|apply Hok|done].
    - apply HQ; [done|]. by rewrite Ep. }
  assert (timeout_queue (k_sched s) = (SlpQue <$> T) !! O) as Eh by apply Hok.
  unfold tq_insert. wp_steps. eapply wp_upd_task; [exact Et|]. wp_steps. simpl. rewrite Eh.
  fold w. fold pool. destruct T as [|j T']; simpl.
  { wp_steps. eapply (Hclose [] []); [done|done|done| |done]. apply between_empty. }
  destruct (tq_task _ _ _ _ j Hok) as (Hjth & tj & Ej & Hjw); [by left|].
  assert (SlpQue j <> SlpQue i) as Hji by (intros ->%(inj SlpQue); apply Hi; by left).
  wp_steps. eapply wp_as_task; [exact Hjth|]. wp_steps. rewrite Hjw.
  destruct (Z.leb_spec w (wup_of pool j)).
  { wp_steps. eapply (Hclose [] (j :: T')); [done|done| | |done].
    - by intros ? [= <-].
    - by apply between_head. }
  wp_steps. simpl. destruct (tq_next _ _ _ [] j T' Hok) as [-> _].
  eapply (wp_tq_search _ _ _ _ [j] T'); [exact Hok|done|by repeat constructor| | |].
  { pose proof (tq_length _ _ _ _ Hok). unfold tq_fuel; simpl in *. fold pool. lia. }
  - intros A k B -> HF Hk.
    destruct (tq_next _ _ _ (j :: A) k B Hok) as [_ Hkp].
    rewrite fmap_cons in Hkp. destruct (last (SlpQue j :: (SlpQue <$> A))) as [lp|] eqn:El;
      [|apply last_None in El; done].
    assert (SlpQue k <> SlpQue i) as Hki.
    { intros ->%(inj SlpQue). apply Hi. rewrite elem_of_cons, elem_of_app, elem_of_cons. tauto. }
    assert (lp <> SlpQue i) as Hlp.
    { rewrite <- fmap_cons in El. destruct (slp_last _ _ El) as (j' & -> & Hj').
      intros ->%(inj SlpQue). apply Hi. rewrite elem_of_cons in *. rewrite elem_of_app. tauto. }
    wp_steps. simpl. node_simpl. rewrite Hkp. eapply wp_deref.
    { node_simpl. rewrite decide_False by done. reflexivity. }
    wp_steps. simpl. node_simpl.
    match goal with |- Q tt ?st => replace st with (tq_state s (k_nodes st) (timeout_queue (k_sched s)) pool) end.
    2: { rewrite <- tq_state_same. done. }
    eapply (Hclose (j :: A) (k :: B)); [done|done| | |].
    + by intros ? [= <-].
    + rewrite fmap_cons, El. simpl. by apply between_body.
    + done.
  - intros t' Hl HF.
    assert (SlpQue t' <> SlpQue i) as Hti.
    { intros ->%(inj SlpQue). apply Hi. by apply last_Some_elem_of. }
    wp_steps. simpl.
    match goal with |- Q tt ?st => replace st with (tq_state s (k_nodes st) (timeout_queue (k_sched s)) pool) end.
    2: { rewrite <- tq_state_same. done. }
    eapply (Hclose (j :: T') []); [by rewrite app_nil_r|done|done| |done].
    rewrite fmap_last. simpl in Hl. rewrite Hl. simpl. by apply between_tail.
Qed.

(** ** [tq_remove] and [tq_wakeup] *)

Lemma StronglySorted_without (Rel : nat -> nat -> Prop) i T :
  StronglySorted Rel T -> StronglySorted Rel (without i T).
Proof.
  induction 1 as [|j T Hs IH Hj]; [constructor|]. unfold without. rewrite filter_cons.
  case_decide; [|done]. constructor; [done|]. rewrite Forall_forall in *.
  intros k Hk%list_elem_of_filter. naive_solver.
Qed.

(** The neighbours of a queued node are queued. *)
Lemma tq_unlink_other m h pool T1 i T2 a : tq_ok m h pool (T1 ++ i :: T2) ->
  (forall j, j ∈ T1 ++ i :: T2 -> a <> SlpQue j) -> node (unlink m (SlpQue i)) a = node m a.
Proof.
  intros Hq Ha. destruct (tq_next _ _ _ _ _ _ Hq) as [En Ep].
  setoid_rewrite elem_of_app in Ha. setoid_rewrite elem_of_cons in Ha.
  apply unlink_other.
  - apply Ha. tauto.
  - rewrite Ep. intros (j & -> & Hj)%slp_last. apply (Ha j); tauto.
  - rewrite En. intros (j & -> & Hj)%slp_head. apply (Ha j); tauto.
  - rewrite En. intros (j & [= <-] & Hj)%slp_head.
    destruct (tq_rep _ _ _ _ Hq) as (_ & Hnd & _). apply NoDup_fmap_1 in Hnd.
    apply NoDup_app in Hnd as (_ & _ & Hnd). by apply NoDup_cons in Hnd as [? _].
Qed.

Lemma tq_ok_remove m h pool T i : tq_ok m h pool T ->
  let r := remove_linked_list m h (SlpQue i) in
  tq_ok r.1 r.2 pool (without i T) /\ nodes_upd SlpQue m r.1.
Proof.
  intros Hq. pose proof Hq as [Hr Ht Hp Hs Hc]. destruct (decide (i ∈ T)) as [Hi|Hi].
  - assert (NoDup T) as Hnd by (destruct Hr as (_ & Hnd & _); by apply NoDup_fmap_1 in Hnd).
    apply list_elem_of_split in Hi as (T1 & T2 & ->).
    assert (without i (T1 ++ i :: T2) = T1 ++ T2) as Ew.
    { rewrite <- Permutation_middle in Hnd. apply NoDup_cons in Hnd as [Hni _].
      rewrite not_elem_of_app in Hni. destruct Hni. by apply without_mid. }
    pose proof Hr as Hr'. rewrite fmap_app, fmap_cons in Hr.
    pose proof (remove_linked_list_spec _ _ _ _ _ Hr) as Hspec.
    destruct Hr as (_ & Hnd' & Hl). destruct (linked_mid_irrefl _ _ _ _ Hnd' Hl).
    pose proof (StronglySorted_without _ i _ Hs) as Hs'. rewrite Ew in *.
    rewrite remove_linked_list_eq in * by done. cbn -[unlink] in *. split; [split|].
    + by rewrite fmap_app.
    + intros j Hj. rewrite unlink_this. apply Ht. rewrite elem_of_app, elem_of_cons in *. tauto.
    + intros j Hj. apply Hp. rewrite elem_of_app, elem_of_cons in *. tauto.
    + done.
    + intros j Hj. destruct (decide (j = i)) as [->|Hne]; [by apply unlink_clean_self|].
      unfold clean. rewrite elem_of_app in Hj. erewrite tq_unlink_other; [apply Hc|exact Hq|].
      * rewrite elem_of_app, elem_of_cons. tauto.
      * intros k Hk ->%(inj SlpQue). rewrite elem_of_app, elem_of_cons in Hk. tauto.
    + split; [|intros; apply unlink_this]. intros a Ha. eapply tq_unlink_other; [exact Hq|].
      intros j _. apply Ha.
  - assert (SlpQue i ∉ SlpQue <$> T) as Hi'.
    { by intros (j & ->%(inj SlpQue) & Hj)%list_elem_of_fmap. }
    rewrite (remove_linked_list_absent _ _ _ _ Hr Hi' (Hc i Hi)), without_notin by done. simpl.
    destruct (Hc i Hi) as [Ep En].
    assert (forall a, node (unlink m (SlpQue i)) a = node m a) as Hsame.
    { intros a. apply node_eq; rewrite ?unlink_prev, ?unlink_next, ?unlink_this by congruence;
        rewrite ?Ep, ?En; try done; destruct (decide (a = SlpQue i)) as [->|];
        rewrite ?Ep, ?En; done. }
    split; [|by split; [intros a _; apply Hsame|intros; by rewrite Hsame]].
    split; auto.
    + destruct Hr as (Hh & Hnd & Hl). split_and!; try done.
      eapply linked_agree; [|done]. intros a _. by rewrite Hsame.
    + intros j Hj. rewrite Hsame. auto.
    + intros j Hj. unfold clean. rewrite Hsame. by apply Hc.
Qed.

(** [tq_remove] takes the task out of the timeout queue, if it is there. *)
Lemma wp_tq_remove s T i (Q : unit -> kstate -> Prop) :
  tq s T ->
  (forall m h, nodes_upd SlpQue (k_nodes s) m -> 
     tq_ok m h (task_pool (k_task s)) (without i T) ->
     Q tt (set_k_sched (set_timeout_queue h (k_sched s)) (set_k_nodes m s))) ->
  wp (tq_remove i) Q s.
Proof.
  intros Hq HQ. unfold tq_remove. wp_steps.
  destruct (tq_ok_remove _ _ _ _ i Hq) as [Hok Hup].
  destruct (remove_linked_list (k_nodes s) (timeout_queue (k_sched s)) (SlpQue i)) as [m h].
  simpl in *. wp_steps. by apply HQ.
Qed.

(** ** Frames *)

(** What the routines of the ready queue and of the timeout queue leave alone. *)
Record kframe (s s' : kstate) : Prop := {
  kf_mem : k_mem s' = k_mem s;
  kf_bmap : taskbmap (k_task s') = taskbmap (k_task s);
  kf_len : length (task_pool (k_task s')) = length (task_pool (k_task s));
  kf_cur : current_task (k_sched s') = current_task (k_sched s);
  kf_idle : idle_task (k_sched s') = idle_task (k_sched s);
  kf_dsp : dispatching (k_sched s') = dispatching (k_sched s);
  kf_int : k_int s' = k_int s;
  kf_time : k_time s' = k_time s;
  kf_sem : k_sem s' = k_sem s;
  kf_flg : k_flg s' = k_flg s;
  kf_mbx : k_mbx s' = k_mbx s;
  kf_mpl : k_mpl s' = k_mpl s;
  kf_setup : k_setup s' = k_setup s
}.

#[export] Instance kframe_refl : Reflexive kframe.
Proof. intros s. by split. Qed.

#[export] Instance kframe_trans : Transitive kframe.
Proof. intros s1 s2 s3 [] []. split; congruence. Qed.

(** Nodes of the two kinds of the ready queue and of the timeout queue only. *)
Definition sched_nodes (m m' : gmap laddr linked_list_t) : Prop :=
  (forall a, (forall j, a <> RdyQue j) -> (forall j, a <> SlpQue j) -> node m' a = node m a) /\
  forall a, this (node m' a) = this (node m a).

#[export] Instance sched_nodes_refl : Reflexive sched_nodes.
Proof. by intros m. Qed.

#[export] Instance sched_nodes_trans : Transitive sched_nodes.
Proof.
  intros m1 m2 m3 [H1 T1] [H2 T2]. split; intros a.
  - intros Hr Hs. by rewrite H2, H1.
  - by rewrite T2.
Qed.

Lemma nodes_upd_rdy m m' : nodes_upd RdyQue m m' -> sched_nodes m m'.
Proof. intros [H HT]. split; auto. Qed.

Lemma nodes_upd_slp m m' : nodes_upd SlpQue m m' -> sched_nodes m m'.
Proof. intros [H HT]. split; auto. Qed.

#[export] Hint Resolve nodes_upd_rdy nodes_upd_slp : kernel.

Lemma tq_ok_frame m m' h pool T :
  (forall i, node m' (SlpQue i) = node m (SlpQue i)) -> tq_ok m h pool T -> tq_ok m' h pool T.
Proof.
  intros Hm [(Hh & Hnd & Hl) Ht Hp Hs Hc]. split; auto.
  - split_and!; try done. eapply linked_agree; [|done].
    intros a (i & -> & _)%list_elem_of_fmap. by rewrite Hm.
  - intros i Hi. rewrite Hm. auto.
  - intros i Hi. unfold clean. rewrite Hm. by apply Hc.
Qed.

Lemma tq_ok_rdy m m' h pool T : nodes_upd RdyQue m m' -> tq_ok m h pool T -> tq_ok m' h pool T.
Proof. intros [H _]. apply tq_ok_frame. intros i. by apply H. Qed.

(** The same queue heads and priorities. *)
Lemma rq_ok_frame m m' sc sc' pool pool' R :
  (forall i, node m' (RdyQue i) = node m (RdyQue i)) ->
  prioqueue sc' = prioqueue sc -> priobmap sc' = priobmap sc ->
  (forall i t, pool !! i = Some t -> (exists p, i ∈ R p) ->
     exists t', pool' !! i = Some t' /\ tskpri t' = tskpri t) ->
  rq_ok m sc pool R -> rq_ok m' sc' pool' R.
Proof.
  intros Hm Hq Hb Hpool [Hlen Hf Hw Hbit Hhi Hpri]. split; rewrite ?Hq, ?Hb; try done.
  - eapply qfam_frame; [exact Hm| |exact Hf]. intros p. unfold prioq. by rewrite Hq.
  - intros p i Hi. destruct (Hpri p i Hi) as (t & Ht & Hp).
    destruct (Hpool i t Ht) as (t' & Ht' & Hp'); [eauto|]. exists t'. split; [done|congruence].
Qed.

Lemma rq_ok_upd m sc pool R i t f :
  pool !! i = Some t -> tskpri (f t) = tskpri t -> rq_ok m sc pool R -> rq_ok m sc (<[i := f t]> pool) R.
Proof.
  intros Ht Hf. apply rq_ok_frame; try done. intros j tj Hj _.
  destruct (decide (j = i)) as [->|Hne].
  - exists (f t). rewrite list_lookup_insert_eq by (by eapply lookup_lt_Some). naive_solver.
  - exists tj. by rewrite list_lookup_insert_ne.
Qed.

Lemma rq_ok_slp m m' sc sc' pool R : nodes_upd SlpQue m m' ->
  prioqueue sc' = prioqueue sc -> priobmap sc' = priobmap sc ->
  rq_ok m sc pool R -> rq_ok m' sc' pool R.
Proof. intros [H _] Hq Hb. apply rq_ok_frame; try done; [|eauto]. intros i. by apply H. Qed.

(** ** Waking up *)

Definition pri_of (pool : list task_t) (i : nat) : nat :=
  match pool !! i with Some t => Z.to_nat (tskpri t) | None => O end.

(** The ready lists after the task [i] arrives. *)
Definition rq_append (pool : list task_t) (R : nat -> list nat) (i : nat) : nat -> list nat :=
  <[pri_of pool i := R (pri_of pool i) ++ [i]]> R.

(** The tasks whose time has come. *)
Fixpoint tq_expired (pool : list task_t) (now : Z) (T : list nat) : list nat :=
  match T with
  | [] => []
  | j :: T' => if wup_of pool j <=? now then j :: tq_expired pool now T' else []
  end.

(** The pool after the tasks [E] were told that their time is over. *)
Definition timed_out (pool : list task_t) (E : list nat) : list task_t :=
  foldl (fun pool i => alter (set_wobjid E_TMOUT) i pool) pool E.

Lemma tq_expired_asleep pool now T : tq_expired pool now T ++ tq_asleep pool now T = T.
Proof. induction T as [|j T IH]; simpl; [done|]. case_match; simpl; [by rewrite IH|done]. Qed.

Lemma tq_expired_le pool now T i : i ∈ tq_expired pool now T -> wup_of pool i <= now.
Proof.
  induction T as [|j T IH]; simpl; [by intros ?%not_elem_of_nil|].
  destruct (Z.leb_spec (wup_of pool j) now); [|by intros ?%not_elem_of_nil].
  intros [->|Hi]%elem_of_cons; auto.
Qed.

(** In a sorted queue every task left is still to sleep. *)
Lemma tq_asleep_lt pool now T i :
  StronglySorted (fun i j => wup_of pool i <= wup_of pool j) T ->
  i ∈ tq_asleep pool now T -> now < wup_of pool i.
Proof.
  induction 1 as [|j T Hs IH Hj]; simpl; [by intros ?%not_elem_of_nil|].
  destruct (Z.leb_spec (wup_of pool j) now); [done|]. rewrite Forall_forall in Hj.
  intros [->|Hi]%elem_of_cons; [lia|]. specialize (Hj _ Hi). lia.
Qed.

Lemma wup_of_alter pool i f j : (forall t, wuptim (f t) = wuptim t) ->
  wup_of (alter f i pool) j = wup_of pool j.
Proof.
  intros Hf. unfold wup_of. destruct (decide (j = i)) as [->|Hne].
  - rewrite list_lookup_alter_eq. by destruct (pool !! i); simpl.
  - by rewrite list_lookup_alter_ne.
Qed.

Lemma pri_of_alter pool i f j : (forall t, tskpri (f t) = tskpri t) ->
  pri_of (alter f i pool) j = pri_of pool j.
Proof.
  intros Hf. unfold pri_of. destruct (decide (j = i)) as [->|Hne].
  - rewrite list_lookup_alter_eq. destruct (pool !! i); simpl; by rewrite ?Hf.
  - by rewrite list_lookup_alter_ne.
Qed.

Lemma tq_scan_ext pool pool' now T : (forall j, wup_of pool' j = wup_of pool j) ->
  tq_expired pool' now T = tq_expired pool now T /\ tq_asleep pool' now T = tq_asleep pool now T.
Proof.
  intros H. induction T as [|j T [IH1 IH2]]; simpl; [done|]. rewrite H, IH1, IH2. done.
Qed.

Lemma rq_append_all_ext pool pool' E R : (forall j, pri_of pool' j = pri_of pool j) ->
  foldl (rq_append pool') R E = foldl (rq_append pool) R E.
Proof.
  intros H. revert R. induction E as [|i E IH]; intros R; simpl; [done|].
  rewrite IH. unfold rq_append. by rewrite H.
Qed.

(** A task that can be made ready: it exists, with a valid priority and its
    node set up, and it is not ready. *)
Definition wakeable (s : kstate) (R : nat -> list nat) (i : nat) : Prop :=
  (exists t, task_pool (k_task s) !! i = Some t /\ 0 <= tskpri t < 32) /\
  (forall p, i ∉ R p) /\ this (node (k_nodes s) (RdyQue i)) = Some (OTask i).

Lemma rq_append_eq pool R i t : pool !! i = Some t ->
  rq_append pool R i = <[Z.to_nat (tskpri t) := R (Z.to_nat (tskpri t)) ++ [i]]> R.
Proof. intros E. unfold rq_append, pri_of. by rewrite E. Qed.

Lemma alter_insert (pool : list task_t) i t f : pool !! i = Some t -> alter f i pool = <[i := f t]> pool.
Proof.
  intros E. apply list_eq. intros j. destruct (decide (j = i)) as [->|].
  - rewrite list_lookup_alter_eq, list_lookup_insert_eq by (by eapply lookup_lt_Some). by rewrite E.
  - by rewrite list_lookup_alter_ne, list_lookup_insert_ne.
Qed.

Lemma elem_of_rq_append pool R i p j :
  j ∈ rq_append pool R i p <-> j ∈ R p \/ (j = i /\ p = pri_of pool i).
Proof.
  unfold rq_append. rewrite elem_of_fn_insert, elem_of_app, list_elem_of_singleton.
  destruct (decide (p = pri_of pool i)); naive_solver.
Qed.

Lemma elem_of_rq_append_all pool R l p j : j ∈ R p -> j ∈ foldl (rq_append pool) R l p.
Proof.
  revert R. induction l as [|i l IH]; intros R Hj; simpl; [done|].
  apply IH. rewrite elem_of_rq_append. by left.
Qed.

(** [rq_insert] on the denoted lists, with what it leaves alone. *)
Lemma wp_rq_insert_frame s R i (Q : unit -> kstate -> Prop) :
  rq s R -> log_ok (k_log s) -> wakeable s R i ->
  (forall s', kframe s s' -> nodes_upd RdyQue (k_nodes s) (k_nodes s') ->
     task_pool (k_task s') = task_pool (k_task s) ->
     timeout_queue (k_sched s') = timeout_queue (k_sched s) -> log_ok (k_log s') ->
     rq s' (rq_append (task_pool (k_task s)) R i) -> Q tt s') ->
  wp (rq_insert i) Q s.
Proof.
  intros Hrq Hlog ((t & Et & Hp) & Hni & Hth) HQ. eapply wp_rq_insert; try done.
  intros m qs bm l Hl Hup Hr. apply HQ; try done. by rewrite (rq_append_eq _ _ _ t).
Qed.

(** What waking up has done. *)
Record woken (s s' : kstate) (R : nat -> list nat) (E T' : list nat) : Prop := {
  wk_frame : kframe s s';
  wk_nodes : sched_nodes (k_nodes s) (k_nodes s');
  wk_log : log_ok (k_log s');
  wk_rq : rq s' (foldl (rq_append (task_pool (k_task s))) R E);
  wk_tq : tq s' T';
  wk_pool : task_pool (k_task s') = timed_out (task_pool (k_task s)) E
}.

(** One turn of the loop of [tq_wakeup]. *)
Lemma wp_tq_wake1 s R i T (Q : unit -> kstate -> Prop) :
  rq s R -> tq s (i :: T) -> log_ok (k_log s) -> wakeable s R i ->
  (forall s', woken s s' R [i] T -> Q tt s') ->
  wp (tq_remove i ;;; rq_insert i ;;; upd_task i (set_wobjid E_TMOUT)) Q s.
Proof.
  intros Hrq Hq Hlog Hwk HQ. apply wp_bind. eapply wp_tq_remove; [exact Hq|].
  intros m h Hup Hok. assert (without i (i :: T) = T) as Ew.
  { apply (without_mid i []); [apply not_elem_of_nil|].
    destruct (tq_rep _ _ _ _ Hq) as (_ & Hnd & _). apply NoDup_fmap_1 in Hnd.
    by apply NoDup_cons in Hnd as [? _]. }
  rewrite Ew in Hok. apply wp_bind. apply wp_rq_insert_frame with R; [|done| |].
  - by apply (rq_ok_slp (k_nodes s) m (k_sched s)).
  - destruct Hwk as (Ht & Hni & Hth). split_and!; [exact Ht|done|].
    simpl. destruct Hup as [_ ->]. done.
  - simpl. intros s' Hf Hn Hpool Hh Hl Hr. destruct Hwk as ((t & Et & Hp) & _ & _).
    eapply wp_upd_task; [rewrite Hpool; exact Et|]. apply HQ. split; simpl.
    + etrans; [|etrans; [exact Hf|]]; split; simpl; try done. by rewrite length_insert.
    + etrans; eauto with kernel.
    + done.
    + unfold rq in *. simpl in *. rewrite Hpool in Hr |- *. by apply rq_ok_upd.
    + unfold tq. simpl. rewrite Hh, Hpool. eapply (tq_ok_pool _ _ _ _ (set_wobjid E_TMOUT)); [|done|by right].
      eapply tq_ok_rdy; eauto.
    + by rewrite Hpool, (alter_insert _ _ t).
Qed.

Lemma woken_trans s1 s2 s3 R E1 E2 T1 T2 :
  woken s1 s2 R E1 T1 ->
  woken s2 s3 (foldl (rq_append (task_pool (k_task s1))) R E1) E2 T2 ->
  woken s1 s3 R (E1 ++ E2) T2.
Proof.
  intros [F1 N1 L1 Q1 T1' P1] [F2 N2 L2 Q2 T2' P2]. split; try done.
  - by etrans.
  - by etrans.
  - rewrite foldl_app, <- (rq_append_all_ext (task_pool (k_task s1)) (task_pool (k_task s2))); [done|].
    intros j. rewrite P1. clear. unfold timed_out. generalize (task_pool (k_task s1)) as pool.
    induction E1 as [|i E IH]; intros pool; simpl; [done|]. by rewrite IH, pri_of_alter.
  - by rewrite P2, P1; unfold timed_out; rewrite foldl_app.
Qed.

Lemma timed_out_lookup pool E i :
  timed_out pool E !! i =
    if decide (i ∈ E) then set_wobjid E_TMOUT <$> pool !! i else pool !! i.
Proof.
  unfold timed_out. revert pool. induction E as [|j E IH]; intros pool; [done|]. cbn [foldl].
  rewrite IH. destruct (decide (i = j)) as [->|Hne].
  - rewrite list_lookup_alter_eq. case_decide; case_decide; try set_solver.
    by destruct (pool !! j) as [[]|].
  - rewrite list_lookup_alter_ne by done. repeat case_decide; set_solver.
Qed.

Lemma wakeable_mono s s' R E T i :
  woken s s' R E T -> wakeable s R i -> i ∉ E ->
  wakeable s' (foldl (rq_append (task_pool (k_task s))) R E) i.
Proof.
  intros [Hf [_ Hth] _ _ _ Hpool] ((t & Et & Hp) & Hni & Hthis) Hi. split_and!.
  - exists t. by rewrite Hpool, timed_out_lookup, decide_False.
  - intros p. clear -Hni Hi. revert R Hni. induction E as [|j E IH]; intros R Hni; simpl; [done|].
    apply not_elem_of_cons in Hi as [Hij Hi]. apply IH; [done|].
    intros q. rewrite elem_of_rq_append. intros [?|[? _]]; [by eapply Hni|done].
  - by rewrite Hth.
Qed.

Lemma wup_of_timed_out pool E j : wup_of (timed_out pool E) j = wup_of pool j.
Proof.
  unfold wup_of. rewrite timed_out_lookup. case_decide; [|done]. by destruct (pool !! j).
Qed.

(** [tq_wakeup] wakes the expired tasks, in order, and no other; the fuel is
    enough. *)
Lemma wp_tq_wakeup_loop fuel s R T (Q : unit -> kstate -> Prop) :
  let pool := task_pool (k_task s) in let now := u64 (system_time (k_time s)) in
  rq s R -> tq s T -> log_ok (k_log s) -> (forall i, i ∈ T -> wakeable s R i) ->
  (length T < fuel)%nat ->
  (forall s', woken s s' R (tq_expired pool now T) (tq_asleep pool now T) -> Q tt s') ->
  wp (tq_wakeup_loop fuel) Q s.
Proof.
  intros pool now. subst pool now. revert s R T.
  induction fuel as [|fuel IH]; intros s R T Hrq Hq Hlog Hwk Hf HQ; [lia|].
  cbn [tq_wakeup_loop]. wp_steps. destruct (tq_rep _ _ _ _ Hq) as (-> & Hnd & _).
  destruct T as [|i T]; simpl.
  { apply wp_ret, HQ. by split. }
  destruct (tq_task _ _ _ _ i Hq) as (Hth & t & Et & Hw); [by left|].
  wp_steps. eapply wp_as_task; [exact Hth|]. wp_steps. rewrite Hw. simpl in HQ.
  destruct (Z.leb_spec (wup_of (task_pool (k_task s)) i) (u64 (system_time (k_time s)))); [|
    apply wp_ret, HQ; by split].
  apply NoDup_fmap_1 in Hnd. apply NoDup_cons in Hnd as [HiT Hnd].
  pose proof (wp_tq_wake1 s R i T (fun _ s' => wp (tq_wakeup_loop fuel) Q s') Hrq Hq Hlog
    (Hwk i ltac:(left))) as Hstep.
  lapply Hstep; [clear Hstep; unfold wp at 1 3, bind|].
  { destruct (tq_remove i s) as [[[] s1]|]; [|done].
    destruct (rq_insert i s1) as [[[] s2]|]; [|done].
    by destruct (upd_task i (set_wobjid E_TMOUT) s2) as [[[] s3]|]. }
  intros s' Hk. pose proof Hk as [F _ L RQ TQ P].
  apply (IH s' _ T RQ TQ L).
  - intros j Hj. eapply wakeable_mono; [exact Hk|apply Hwk; by right|].
    rewrite list_elem_of_singleton. by intros ->.
  - simpl in Hf. lia.
  - intros s'' Hk'. apply HQ. rewrite (kf_time _ _ F), P in Hk'.
    destruct (tq_scan_ext (task_pool (k_task s)) (timed_out (task_pool (k_task s)) [i])
      (u64 (system_time (k_time s))) T (wup_of_timed_out _ _)) as [-> ->] in Hk'.
    apply (woken_trans _ _ _ _ [i] _ _ _ Hk Hk').
Qed.

Lemma wp_tq_wakeup s R T (Q : unit -> kstate -> Prop) :
  let pool := task_pool (k_task s) in let now := u64 (system_time (k_time s)) in
  rq s R -> tq s T -> log_ok (k_log s) -> (forall i, i ∈ T -> wakeable s R i) ->
  (forall s', woken s s' R (tq_expired pool now T) (tq_asleep pool now T) -> Q tt s') ->
  wp tq_wakeup Q s.
Proof.
  intros pool now Hrq Hq Hlog Hwk HQ. unfold tq_wakeup. wp_steps.
  eapply wp_tq_wakeup_loop; try done. pose proof (tq_length _ _ _ _ Hq). unfold tq_fuel. lia.
Qed.
