(* ===== verification/Dispatch.v ===== *)
(** * Dispatching: the scheduler of sched.c

    [rq_get_head] finds the first task of the highest non-empty priority;
    [scheduler] switches to it, or to the idle task. *)

From Stdlib Require Import ZArith Lia.
From stdpp Require Import base tactics gmap option functions countable list.
From S2P Require Import Prelude Bits Queue Qfam Mem Kstate Syslog Sched Timeout.

Open Scope Z_scope.
Open Scope kernel_scope.

(** ** The abstract ready queue *)

(** The first task of the highest priority with ready tasks (0 is the
    highest), searching [n] priorities from [p]. *)
Fixpoint first_ready (n p : nat) (R : nat -> list nat) : option nat :=
  match n with
  | O => None
  | S n => match R p with i :: _ => Some i | [] => first_ready n (S p) R end
  end.

Definition rq_top (R : nat -> list nat) : option nat := first_ready 32 0 R.

Lemma first_ready_at n p R q i l :
  R q = i :: l -> (forall r, (p <= r < q)%nat -> R r = []) -> (p <= q < p + n)%nat ->
  first_ready n p R = Some i.
Proof.
  revert p. induction n as [|n IH]; intros p Hq Hlow Hle; [lia|]. simpl.
  destruct (decide (p = q)) as [->|Hne]; [by rewrite Hq|].
  rewrite Hlow by lia. apply IH; [done| |lia]. intros r Hr. apply Hlow. lia.
Qed.

Lemma first_ready_none n p R : (forall r, (p <= r < p + n)%nat -> R r = []) -> first_ready n p R = None.
Proof.
  revert p. induction n as [|n IH]; intros p Hlow; simpl; [done|].
  rewrite Hlow by lia. apply IH. intros r Hr. apply Hlow. lia.
Qed.

(** The chosen task is at the head of its queue and every higher priority is
    empty. *)
Lemma rq_top_spec R i : rq_top R = Some i ->
  exists p l, (p < 32)%nat /\ R p = i :: l /\ forall q, (q < p)%nat -> R q = [].
Proof.
  unfold rq_top. assert (forall n p, (forall q, (q < p)%nat -> R q = []) ->
    first_ready n p R = Some i ->
    exists r l, (r < p + n)%nat /\ R r = i :: l /\ forall q, (q < r)%nat -> R q = []) as H.
  { induction n as [|n IH]; intros p Hlow E; [done|]. simpl in E.
    destruct (R p) as [|j l] eqn:Ep.
    - destruct (IH (S p)) as (r & l & Hr & Er & Hq); [|done|].
      + intros q Hq. destruct (decide (q = p)) as [->|]; [done|apply Hlow; lia].
      + exists r, l. split_and!; [lia|done|done].
    - injection E as ->. exists p, l. split_and!; [lia|done|done]. }
  apply H. lia.
Qed.

Lemma rq_top_None R : (forall p, (32 <= p)%nat -> R p = []) -> rq_top R = None -> forall p, R p = [].
Proof.
  intros Hhi E p. destruct (R p) as [|i l] eqn:Ep; [done|exfalso].
  destruct (decide (32 <= p)%nat) as [Hp|Hp]; [by rewrite Hhi in Ep|].
  assert (exists q, (q < 32)%nat /\ R q <> [] /\ forall r, (r < q)%nat -> R r = []) as (q & Hq & Hne & Hlow).
  { assert (p < 32)%nat as Hp' by lia. clear E Hp. revert i l Ep Hp'.
    induction p as [p IH] using lt_wf_ind. intros i l Ep Hp.
    destruct (decide (Forall (fun r => R r = []) (seq 0 p))) as [Hf|Hf].
    - exists p. split_and!; [done|by rewrite Ep|]. intros r Hr. rewrite Forall_forall in Hf.
      apply Hf, elem_of_seq. lia.
    - apply not_Forall_Exists in Hf; [|apply _]. apply Exists_exists in Hf as (r & Hr & Hne).
      apply elem_of_seq in Hr. simpl in Hne. destruct (R r) as [|j l'] eqn:Er; [done|].
      eapply (IH r); [lia|exact Er|lia]. }
  unfold rq_top in E. destruct (R q) as [|j l'] eqn:Eq; [done|].
  by rewrite (first_ready_at 32 0 R q j l') in E by (done || lia || (intros; apply Hlow; lia)).
Qed.

Lemma wp_rq_get_head s R (Q : option nat -> kstate -> Prop) :
  rq s R -> Q (rq_top R) s -> wp rq_get_head Q s.
Proof.
  intros Hrq HQ. pose proof Hrq as [Hlen Hf Hw Hbit Hhi Hpri].
  unfold rq_get_head. wp_steps.
  destruct (nz (priobmap (k_sched s))) eqn:Enz; simpl; unfold nz in Enz.
  - apply negb_true_iff, Z.eqb_neq in Enz.
    assert (i32 (priobmap (k_sched s)) <> 0) as Hne.
    { rewrite i32_bits0. intros H. apply Enz. by apply word32_bits0. }
    destruct (_ffs_spec _ Hne) as (Hr & Hset & Hlow).
    set (i := _ffs (priobmap (k_sched s))) in *.
    rewrite <- (Z2Nat.id i), Hbit, bool_decide_eq_true in Hset by lia.
    assert (forall p, (p < Z.to_nat i)%nat -> R p = []) as Hemp.
    { intros p Hp. specialize (Hlow (Z.of_nat p) ltac:(lia)). rewrite Hbit in Hlow by lia.
      by apply bool_decide_eq_false, dec_stable in Hlow. }
    destruct (R (Z.to_nat i)) as [|j l] eqn:Ej; [done|].
    wp_steps. apply wp_get_prioqueue; [done|done|].
    pose proof (qf_rep _ _ _ _ Hf (Z.to_nat i)) as (Hh & _). rewrite Ej in Hh.
    wp_steps. eapply wp_deref; [exact Hh|]. wp_steps.
    rewrite (qf_this _ _ _ _ Hf (Z.to_nat i) j) by (rewrite Ej; left). simpl. apply wp_ret.
    unfold rq_top in HQ. erewrite (first_ready_at 32 0 R) in HQ; [done|exact Ej| |lia].
    intros. apply Hemp. lia.
  - apply negb_false_iff, Z.eqb_eq in Enz. apply wp_ret.
    unfold rq_top in HQ. rewrite first_ready_none in HQ; [done|]. intros r Hr.
    specialize (Hbit r ltac:(lia)). rewrite Enz, Z.bits_0 in Hbit.
    symmetry in Hbit. by apply bool_decide_eq_false, dec_stable in Hbit.
Qed.

(** ** The scheduler *)

(** The states of the two tasks of a context switch: the task left behind is
    ready if it was running, the new one runs. *)
Definition pool_switch (pool : list task_t) (c new : nat) : list task_t :=
  if decide (c = new) then pool else
  alter (set_tskstat TTS_RUN) new
    (alter (fun t => if tskstat t =? TTS_RUN then set_tskstat TTS_RDY t else t) c pool).

(** What the scheduler leaves alone. *)
Record sched_frame (s s' : kstate) : Prop := {
  sf_mem : k_mem s' = k_mem s;
  sf_nodes : k_nodes s' = k_nodes s;
  sf_bmap : taskbmap (k_task s') = taskbmap (k_task s);
  sf_queue : prioqueue (k_sched s') = prioqueue (k_sched s);
  sf_prio : priobmap (k_sched s') = priobmap (k_sched s);
  sf_tq : timeout_queue (k_sched s') = timeout_queue (k_sched s);
  sf_idle : idle_task (k_sched s') = idle_task (k_sched s);
  sf_dsp : dispatching (k_sched s') = dispatching (k_sched s);
  sf_imask : imask (k_int s') = imask (k_int s);
  sf_nest : int_nest_count (k_int s') = int_nest_count (k_int s);
  sf_time : system_time (k_time s') = system_time (k_time s);
  sf_sem : k_sem s' = k_sem s;
  sf_flg : k_flg s' = k_flg s;
  sf_mbx : k_mbx s' = k_mbx s;
  sf_mpl : k_mpl s' = k_mpl s;
  sf_setup : k_setup s' = k_setup s
}.

(** The scheduler has switched from [c] to [new]. *)
Record dispatched (s s' : kstate) (c new : nat) : Prop := {
  dp_frame : sched_frame s s';
  dp_log : log_ok (k_log s');
  dp_cur : current_task (k_sched s') = Some new;
  dp_pool : task_pool (k_task s') = pool_switch (task_pool (k_task s)) c new
}.

(** Called from an interrupt handler, the scheduler only records the request. *)
Lemma wp_scheduler_nested s (Q : unit -> kstate -> Prop) :
  int_nest_count (k_int s) > 0 ->
  Q tt (set_k_int (set_need_resched 1 (k_int s)) s) -> wp scheduler Q s.
Proof.
  intros Hn HQ. unfold scheduler. wp_steps.
  destruct (Z.gtb_spec (int_nest_count (k_int s)) 0); [|lia]. by wp_steps.
Qed.

(** With dispatching disabled nothing changes but the saved mask. *)
Lemma wp_scheduler_disabled s (Q : unit -> kstate -> Prop) :
  int_nest_count (k_int s) <= 0 -> dispatching (k_sched s) = FALSE ->
  Q tt (set_k_int (set_interrupt_flags (imask (k_int s)) (k_int s)) s) -> wp scheduler Q s.
Proof.
  intros Hn Hd HQ. unfold scheduler. wp_steps.
  destruct (Z.gtb_spec (int_nest_count (k_int s)) 0); [lia|]. wp_steps. simpl. rewrite Hd. simpl.
  wp_steps. simpl. by destruct s as [? ? ? ? [] ? ? ? ? ? ? ?].
Qed.

Lemma pool_switch_same pool c : pool_switch pool c c = pool.
Proof. unfold pool_switch. by rewrite decide_True. Qed.

Lemma pool_switch_ne pool c new tc tn : c <> new -> pool !! c = Some tc -> pool !! new = Some tn ->
  pool_switch pool c new =
    <[new := set_tskstat TTS_RUN tn]>
      (<[c := if tskstat tc =? TTS_RUN then set_tskstat TTS_RDY tc else tc]> pool).
Proof.
  intros Hne Hc Hn. unfold pool_switch. rewrite decide_False by done.
  rewrite (alter_insert _ c tc) by done. rewrite (alter_insert _ new tn); [done|].
  by rewrite list_lookup_insert_ne.
Qed.

(** The switch itself, from [c] to [new]. *)
Lemma wp_switch s c new tc tn (Q : unit -> kstate -> Prop) :
  current_task (k_sched s) = Some c -> log_ok (k_log s) ->
  task_pool (k_task s) !! c = Some tc -> task_pool (k_task s) !! new = Some tn -> c <> new ->
  (forall l, log_ok l ->
     Q tt (set_k_sched (set_current_task (Some new) (k_sched s))
       (set_k_int (set_need_resched 0 (k_int s)) (set_k_log l
         (set_k_task (set_task_pool (pool_switch (task_pool (k_task s)) c new) (k_task s)) s))))) ->
  wp (switch_task (Some new)) Q s.
Proof.
  intros Hc Hlog Ec En Hne HQ. unfold switch_task. wp_steps.
  rewrite (pool_switch_ne _ c new tc tn) in HQ by done.
  set (pool1 := <[c := if tskstat tc =? TTS_RUN then set_tskstat TTS_RDY tc else tc]>
    (task_pool (k_task s))) in *.
  assert (pool1 !! new = Some tn) as En1 by (unfold pool1; by rewrite list_lookup_insert_ne).
  assert (exists tc', <[new := set_tskstat TTS_RUN tn]> pool1 !! c = Some tc') as [tc' Ec1].
  { rewrite list_lookup_insert_ne by done. unfold pool1.
    rewrite list_lookup_insert_eq by (by eapply lookup_lt_Some). eauto. }
  assert (<[new := set_tskstat TTS_RUN tn]> pool1 !! new = Some (set_tskstat TTS_RUN tn)) as En2.
  { apply list_lookup_insert_eq. by eapply lookup_lt_Some. }
  assert (when (tskstat tc =? TTS_RUN) (upd_task c (set_tskstat TTS_RDY)) s =
    Some (tt, set_k_task (set_task_pool pool1 (k_task s)) s)) as E1.
  { unfold when, pool1. destruct (tskstat tc =? TTS_RUN).
    - unfold upd_task. by rewrite Ec.
    - rewrite list_insert_id by done. by destruct s as [? ? [] ? ? ? ? ? ? ? ? ?]. }
  unfold wp at 1. rewrite E1. fold (@wp kstate unit). cbn [deref]. wp_steps.
  eapply wp_upd_task; [exact En1|]. wp_steps. apply wp_write_log; [done|]. intros l Hl.
  wp_steps. apply wp_modify. by apply HQ.
Qed.

(** The task the scheduler gives the processor to: the idle task when no task
    is ready. *)
Definition next_task (R : nat -> list nat) (idle : nat) : nat := default idle (rq_top R).

Lemma rq_top_pool s R i : rq s R -> rq_top R = Some i -> is_Some (task_pool (k_task s) !! i).
Proof.
  intros Hrq (p & l & _ & E & _)%rq_top_spec.
  destruct (rq_pri _ _ _ _ Hrq p i) as (t & -> & _); [rewrite E; left|done].
Qed.

Lemma wp_scheduler s R c d (Q : unit -> kstate -> Prop) :
  int_nest_count (k_int s) <= 0 -> dispatching (k_sched s) <> FALSE ->
  rq s R -> log_ok (k_log s) ->
  current_task (k_sched s) = Some c -> is_Some (task_pool (k_task s) !! c) ->
  idle_task (k_sched s) = Some d -> is_Some (task_pool (k_task s) !! d) ->
  (forall s', dispatched s s' c (next_task R d) -> Q tt s') ->
  wp scheduler Q s.
Proof.
  intros Hn Hd Hrq Hlog Hc [tc Etc] Hi [td Etd] HQ.
  assert (is_Some (task_pool (k_task s) !! next_task R d)) as [tn Etn].
  { unfold next_task. destruct (rq_top R) eqn:E; simpl; [|eauto]. by eapply rq_top_pool. }
  unfold scheduler. wp_steps.
  destruct (Z.gtb_spec (int_nest_count (k_int s)) 0); [lia|]. wp_steps. simpl.
  assert (nz (dispatching (k_sched s)) = true) as -> by (apply negb_true_iff, Z.eqb_neq; done).
  simpl. wp_steps. apply wp_rq_get_head with R; [exact Hrq|]. wp_steps. simpl.
  set (s1 := set_k_int (set_imask 0 (set_interrupt_flags (imask (k_int s)) (k_int s))) s).
  (* the state after the choice differs in start_idle at most *)
  assert (exists s2, (match rq_top R with
      | Some t => ret (Some t)
      | None => let* c := get_cycles in upd_sched (set_start_idle c) ;;; ret (idle_task (k_sched s))
      end) s1 = Some (Some (next_task R d), s2) /\
      exists z, s2 = set_k_sched (set_start_idle z (k_sched s)) s1) as (s2 & E2 & z & ->).
  { unfold next_task. destruct (rq_top R); simpl.
    - eexists. split; [done|]. exists (start_idle (k_sched s)).
      by destruct s as [? ? ? [] ? ? ? ? ? ? ? ?].
    - rewrite Hi. eexists. split; [done|]. by eexists. }
  unfold wp at 1. rewrite E2. fold (@wp kstate unit). wp_steps. simpl. rewrite Hc.
  destruct (decide (c = next_task R d)) as [Heq|Hne].
  - rewrite bool_decide_eq_false_2 by naive_solver. simpl. wp_steps. apply HQ.
    split; [split; simpl; done|done|simpl; congruence|simpl; by rewrite <- Heq, pool_switch_same].
  - rewrite bool_decide_eq_true_2 by naive_solver. cbn [when]. wp_steps.
    set (s3 := set_k_sched _ _). unfold when at 1.
    assert (forall e ti, wp (switch_task (Some (next_task R d))) (fun _ s' => wp hw_sti Q s')
      (set_k_time (set_tot_idle ti (k_time s)) (set_k_sched (set_end_idle e (k_sched s3)) s3))) as Hsw.
    { intros e ti. eapply wp_switch; [exact Hc|exact Hlog|exact Etc|exact Etn|done|].
      intros l Hl. wp_steps. apply HQ. split; [split; simpl; done|done|done|done]. }
    destruct (bool_decide (Some c = idle_task (k_sched s))).
    + wp_steps. apply Hsw.
    + wp_steps. specialize (Hsw (end_idle (k_sched s3)) (tot_idle (k_time s))).
      revert Hsw. unfold s3, s1. by destruct s as [? ? ? [] ? [] ? ? ? ? ? ?].
Qed.

(** ** Changing the priority of a ready task *)

(** The ready lists after the task [i] moves from priority [p] to [p']. *)
Definition rq_move (R : nat -> list nat) (i p p' : nat) : nat -> list nat :=
  let R1 := <[p := without i (R p)]> R in <[p' := R1 p' ++ [i]]> R1.

Lemma wp_rq_relocate s R i t newpri (Q : unit -> kstate -> Prop) :
  rq s R -> log_ok (k_log s) -> task_pool (k_task s) !! i = Some t ->
  0 <= tskpri t < 32 -> 0 <= newpri < 32 ->
  this (node (k_nodes s) (RdyQue i)) = Some (OTask i) ->
  (forall s', kframe s s' -> nodes_upd RdyQue (k_nodes s) (k_nodes s') ->
     task_pool (k_task s') = <[i := set_tskpri newpri t]> (task_pool (k_task s)) ->
     timeout_queue (k_sched s') = timeout_queue (k_sched s) -> log_ok (k_log s') ->
     rq s' (rq_move R i (Z.to_nat (tskpri t)) (Z.to_nat newpri)) -> Q tt s') ->
  wp (rq_relocate i newpri) Q s.
Proof.
  intros Hrq Hlog Ht Hp Hp' Hth HQ. unfold rq_relocate. wp_steps.
  eapply wp_get_prioqueue; [done|apply Hrq|]. wp_steps.
  set (p := Z.to_nat (tskpri t)) in *. set (p' := Z.to_nat newpri) in *.
  destruct (rq_ok_remove _ _ _ _ p i t Hrq Ht ltac:(unfold p; lia) ltac:(unfold p; lia)) as [Hok Hup].
  destruct (queue_remove (k_nodes s) (prioq (k_sched s) p) (RdyQue i)) as [m sq]; simpl in *.
  replace (Z.of_nat p) with (tskpri t) in Hok by (unfold p; lia).
  set (bm := if queue_is_empty sq then clearbit (priobmap (k_sched s)) (tskpri t)
             else priobmap (k_sched s)) in *.
  set (R1 := <[p := without i (R p)]> R) in *.
  assert (forall q, i ∉ R1 q) as Hni.
  { intros q Hq. apply elem_of_fn_insert in Hq as [[_ Hq]|[Hne Hq]]; [by apply without_not_in in Hq|].
    destruct (rq_pri _ _ _ _ Hrq q i Hq) as (t' & Et' & Ep). rewrite Ht in Et'. injection Et' as <-.
    apply Hne. unfold p. lia. }
  wp_steps.
  match goal with |- wp (when _ _) _ ?st => set (s1 := st) end.
  assert (when (queue_is_empty sq) (upd_sched (fun r => set_priobmap (clearbit (priobmap r) (tskpri t)) r)) s1
    = Some (tt, set_k_sched (set_priobmap bm (k_sched s1)) s1)) as E1.
  { unfold when, bm, s1. destruct (queue_is_empty sq); [done|]. by destruct s as [? ? ? [] ? ? ? ? ? ? ? ?]. }
  unfold wp at 1. rewrite E1. fold (@wp kstate unit). wp_steps.
  eapply wp_upd_task; [exact Ht|]. wp_steps.
  set (pool' := <[i := set_tskpri newpri t]> (task_pool (k_task s))).
  assert (rq_ok m (set_priobmap bm (set_prioqueue (<[p := sq]> (prioqueue (k_sched s))) (k_sched s))) pool' R1)
    as Hok'.
  { eapply rq_ok_frame; [done|done|done| |exact Hok]. intros j tj Ej (q & Hj). exists tj.
    unfold pool'. rewrite list_lookup_insert_ne; [done|]. intros <-. by apply (Hni q). }
  eapply wp_get_prioqueue; [done|apply Hok'|]. wp_steps. simpl.
  assert (pool' !! i = Some (set_tskpri newpri t)) as Ei
    by (apply list_lookup_insert_eq; by eapply lookup_lt_Some).
  pose proof (rq_ok_insert _ _ _ _ p' i _ Hok' Ei ltac:(simpl; unfold p'; lia) ltac:(unfold p'; lia) Hni
    ltac:(destruct Hup as [_ ->]; done)) as Hins.
  pose proof (qfam_insert_only RdyQue m _ R1 p' i (rq_fam _ _ _ _ Hok')) as Hon.
  match goal with |- context [queue_insert m ?q0 (RdyQue i)] => change q0 with
    (prioq (set_priobmap bm (set_prioqueue (<[p := sq]> (prioqueue (k_sched s))) (k_sched s))) p') end.
  assert (forall a, this (node (queue_insert m
      (prioq (set_priobmap bm (set_prioqueue (<[p := sq]> (prioqueue (k_sched s))) (k_sched s))) p')
      (RdyQue i)).1 a) = this (node m a)) as Hth' by (intros; apply queue_insert_this).
  destruct (queue_insert m _ (RdyQue i)) as [m' sq']; simpl in *.
  replace (Z.of_nat p') with newpri in Hins by (unfold p'; lia).
  wp_steps. apply wp_write_log; [done|]. intros l Hl. apply HQ; try done.
  - split; simpl; try done. by rewrite length_insert.
  - simpl. eapply nodes_upd_trans; [exact Hup|]. by split.
Qed.
