(* ===== verification/Kinv.v ===== *)
(** * The invariant of the kernel

    A task is in one place: in the queue of its priority, in one wait queue, in
    the timeout queue, or in none. [kinv] ties the three kinds of queues to the
    states of the tasks and to the task bitmap. *)

From Stdlib Require Import ZArith Lia.
From stdpp Require Import base tactics gmap option functions countable list.
From S2P Require Import Prelude Bits Queue Qfam Mem Kstate Syslog Sched Timeout Dispatch.

Open Scope Z_scope.
Open Scope kernel_scope.

(** ** The wait queues *)

(** The objects a task can wait for. *)
Inductive wkey :=
  | WSem (i : nat)
  | WFlg (i : nat)
  | WMbx (i : nat)
  | WMpf (i : nat).

#[export] Instance wkey_eq_dec : EqDecision wkey.
Proof. solve_decision. Defined.

Definition waitq (s : kstate) (k : wkey) : queue_t :=
  match k with
  | WSem i => default null_queue (semque <$> sem_pool (k_sem s) !! i)
  | WFlg i => default null_queue (flgque <$> flg_pool (k_flg s) !! i)
  | WMbx i => default null_queue (mbxque <$> mbx_pool (k_mbx s) !! i)
  | WMpf i => default null_queue (mpfque <$> mpf_pool (k_mpl s) !! i)
  end.

(** [W k] are the tasks that wait for [k], in arrival order. *)
Definition sync (s : kstate) (W : wkey -> list nat) : Prop :=
  qfam SynQue (k_nodes s) (waitq s) W.

(** The object exists. *)
Definition open_obj (s : kstate) (k : wkey) : Prop :=
  match k with
  | WSem i => Z.testbit (sembmap (k_sem s)) (Z.of_nat i) = true
  | WFlg i => Z.testbit (flgbmap (k_flg s)) (Z.of_nat i) = true
  | WMbx i => Z.testbit (mbxbmap (k_mbx s)) (Z.of_nat i) = true
  | WMpf i => Z.testbit (mpfbmap (k_mpl s)) (Z.of_nat i) = true
  end.

(** ** The tasks *)

(** The task exists. *)
Definition live (s : kstate) (i : nat) : Prop :=
  Z.of_nat i < MAX_TASKS /\ Z.testbit (taskbmap (k_task s)) (Z.of_nat i) = true.

Definition is_idle (s : kstate) (i : nat) : Prop := idle_task (k_sched s) = Some i.

Record tasks_ok (s : kstate) : Prop := {
  to_len : Z.of_nat (length (task_pool (k_task s))) = MAX_TASKS + 2;
  to_bmap : word32 (taskbmap (k_task s));
  to_task : forall i t, live s i -> task_pool (k_task s) !! i = Some t ->
    tskid t = Z.of_nat i + 1 /\ 0 <= tskpri t < 32;
  to_this : forall i nd, live s i -> ~ is_idle s i -> nd ∈ [RdyQue; SynQue; SlpQue] ->
    this (node (k_nodes s) (nd i)) = Some (OTask i);
  to_idle : exists d t, is_idle s d /\ live s d /\ task_pool (k_task s) !! d = Some t /\
    tskstat t <> TTS_DMT
}.

(** Where the tasks are: a task is in one queue at most; a ready or running
    task is in the ready queue, a dormant one in none. The idle task is in no
    queue. *)
Record places (s : kstate) (R : nat -> list nat) (W : wkey -> list nat) (T : list nat) : Prop := {
  pl_ready : forall p i, i ∈ R p -> (live s i /\ ~ is_idle s i) /\ (i ∉ T) /\ forall k, i ∉ W k;
  pl_wait : forall k i, i ∈ W k -> (live s i /\ ~ is_idle s i) /\ i ∉ T;
  pl_sleep : forall i, i ∈ T -> live s i /\ ~ is_idle s i;
  pl_run : forall i t, live s i -> ~ is_idle s i -> task_pool (k_task s) !! i = Some t ->
    tskstat t = TTS_RUN \/ tskstat t = TTS_RDY -> exists p, i ∈ R p;
  pl_dmt : forall i t, live s i -> ~ is_idle s i -> task_pool (k_task s) !! i = Some t ->
    tskstat t = TTS_DMT -> (forall p, i ∉ R p) /\ (i ∉ T) /\ forall k, i ∉ W k;
  pl_open : forall k i, i ∈ W k -> open_obj s k
}.

(** The pools of the objects have their sizes; the bitmaps are words. *)
Record pools_ok (s : kstate) : Prop := {
  po_sem : Z.of_nat (length (sem_pool (k_sem s))) = CONFIG_MAX_SEM;
  po_flg : Z.of_nat (length (flg_pool (k_flg s))) = CONFIG_MAX_EVENT;
  po_mbx : Z.of_nat (length (mbx_pool (k_mbx s))) = CONFIG_MAX_MAILBOX;
  po_mpf : Z.of_nat (length (mpf_pool (k_mpl s))) = CONFIG_MAX_FMPOOL;
  po_semb : word32 (sembmap (k_sem s));
  po_flgb : word32 (flgbmap (k_flg s));
  po_mbxb : word32 (mbxbmap (k_mbx s));
  po_mpfb : word32 (mpfbmap (k_mpl s));
  po_asem : forall a, active_sem (k_sem s) = Some a -> exists j, a = SemAct j;
  po_aflg : forall a, active_flg (k_flg s) = Some a -> exists j, a = FlgAct j
}.

(** The invariant in the middle of a system call, when the current task may
    have been taken out of the ready queue. *)
Record kinv0 (s : kstate) (R : nat -> list nat) (W : wkey -> list nat) (T : list nat) : Prop := {
  ki_rq : rq s R;
  ki_sync : sync s W;
  ki_tq : tq s T;
  ki_log : log_ok (k_log s);
  ki_tasks : tasks_ok s;
  ki_pools : pools_ok s;
  ki_places : places s R W T;
  ki_dsp : int_nest_count (k_int s) <= 0 /\ dispatching (k_sched s) <> FALSE;
  ki_cur : exists c, current_task (k_sched s) = Some c /\ is_Some (task_pool (k_task s) !! c)
}.

(** The processor is given to the first task of the highest priority, or to
    the idle task when none is ready. *)
Definition scheduled (s : kstate) (R : nat -> list nat) : Prop :=
  exists d, is_idle s d /\ current_task (k_sched s) = Some (next_task R d).

(** The invariant between system calls: the current task is the idle task or
    it is ready. *)
Definition kinv (s : kstate) (R : nat -> list nat) (W : wkey -> list nat) (T : list nat) : Prop :=
  kinv0 s R W T /\
  exists c, current_task (k_sched s) = Some c /\ (is_idle s c \/ exists p, c ∈ R p).

Definition kernel_ok (s : kstate) : Prop := exists R W T, kinv s R W T.

(** ** Consequences *)

Lemma live_pool s i : tasks_ok s -> live s i -> exists t, task_pool (k_task s) !! i = Some t.
Proof.
  intros H [Hi _]. apply lookup_lt_is_Some_2. pose proof (to_len _ H). lia.
Qed.

Lemma live_bit s id : tasks_ok s -> 1 <= id <= MAX_TASKS ->
  nz (isbitset (taskbmap (k_task s)) (id - 1)) = true <-> live s (Z.to_nat (id - 1)).
Proof.
  intros H Hid. assert (MAX_TASKS = 5) as HM by done. rewrite isbitset_spec by lia. unfold live.
  rewrite Z2Nat.id by lia. split; [intros E; split; [lia|done]|by intros [_ ?]].
Qed.

Lemma kinv_wakeable s R W T i : kinv0 s R W T -> live s i -> ~ is_idle s i ->
  (forall p, i ∉ R p) -> wakeable s R i.
Proof.
  intros H Hl Hi Hn. destruct (live_pool s i (ki_tasks _ _ _ _ H) Hl) as [t Et].
  destruct (to_task _ (ki_tasks _ _ _ _ H) i t Hl Et). split_and!.
  - eauto.
  - done.
  - by apply (to_this _ (ki_tasks _ _ _ _ H) i RdyQue); [..|left].
Qed.

(** ** Frames of the invariant *)

(** The state of a task has changed to one the invariant allows. *)
Definition pool_step (s : kstate) (R : nat -> list nat) (pool' : list task_t) : Prop :=
  length pool' = length (task_pool (k_task s)) /\
  forall i t', pool' !! i = Some t' -> exists t, task_pool (k_task s) !! i = Some t /\
    tskid t' = tskid t /\ tskpri t' = tskpri t /\ wuptim t' = wuptim t /\
    (tskstat t' = tskstat t \/ ((is_idle s i /\ tskstat t' <> TTS_DMT) \/ ~ live s i) \/
     (tskstat t' <> TTS_DMT /\ exists p, i ∈ R p) \/
     (tskstat t' <> TTS_DMT /\ tskstat t' <> TTS_RUN /\ tskstat t' <> TTS_RDY)).

Lemma pool_step_refl s R : pool_step s R (task_pool (k_task s)).
Proof. split; [done|]. intros i t Et. exists t. naive_solver. Qed.

Lemma pool_step_back s R pool' i t : pool_step s R pool' -> task_pool (k_task s) !! i = Some t ->
  exists t', pool' !! i = Some t' /\ tskpri t' = tskpri t /\ wuptim t' = wuptim t.
Proof.
  intros [Hl H] Et. destruct (lookup_lt_is_Some_2 pool' i) as [t' Et'].
  { rewrite Hl. by eapply lookup_lt_Some. }
  destruct (H i t' Et') as (u & Eu & _ & Hp & Hw & _). exists t'. split; [done|].
  rewrite Et in Eu. injection Eu as <-. done.
Qed.

Lemma tq_ok_ext m h pool pool' T :
  length pool' = length pool -> (forall i, i ∈ T -> wup_of pool' i = wup_of pool i) ->
  tq_ok m h pool T -> tq_ok m h pool' T.
Proof.
  intros Hl Hw [Hr Ht Hp Hs Hc]. split; auto.
  - intros i Hi. rewrite Hl. auto.
  - clear -Hs Hw. induction Hs as [|j T Hs IH Hj]; constructor.
    + apply IH. intros. apply Hw. by right.
    + rewrite Forall_forall in *. intros k Hk. rewrite !Hw by (by constructor). auto.
Qed.

(** The parts of the state the invariant reads. *)
Record same_queues (s s' : kstate) : Prop := {
  sq_nodes : k_nodes s' = k_nodes s;
  sq_queue : prioqueue (k_sched s') = prioqueue (k_sched s);
  sq_prio : priobmap (k_sched s') = priobmap (k_sched s);
  sq_tq : timeout_queue (k_sched s') = timeout_queue (k_sched s);
  sq_idle : idle_task (k_sched s') = idle_task (k_sched s);
  sq_bmap : taskbmap (k_task s') = taskbmap (k_task s);
  sq_dsp : dispatching (k_sched s') = dispatching (k_sched s);
  sq_nest : int_nest_count (k_int s') = int_nest_count (k_int s)
}.

Record same_objs (s s' : kstate) : Prop := {
  so_sem : k_sem s' = k_sem s;
  so_flg : k_flg s' = k_flg s;
  so_mbx : k_mbx s' = k_mbx s;
  so_mpl : k_mpl s' = k_mpl s
}.

Lemma live_same s s' i : taskbmap (k_task s') = taskbmap (k_task s) -> live s' i <-> live s i.
Proof. unfold live. by intros ->. Qed.

Lemma idle_same s s' i : idle_task (k_sched s') = idle_task (k_sched s) -> is_idle s' i <-> is_idle s i.
Proof. unfold is_idle. by intros ->. Qed.

Lemma tasks_ok_frame s s' R : same_queues s s' -> pool_step s R (task_pool (k_task s')) ->
  tasks_ok s -> tasks_ok s'.
Proof.
  intros [Hn _ _ _ Hi Hb _ _] [Hl Hp] [Hlen Hbm Ht Hth Hid]. split.
  - by rewrite Hl.
  - by rewrite Hb.
  - intros i t' HL Et'. rewrite (live_same s) in HL by done.
    destruct (Hp i t' Et') as (t & Et & -> & -> & _). by apply Ht.
  - intros i nd HL Hni Hnd. rewrite Hn. rewrite (live_same s) in HL by done.
    rewrite (idle_same s) in Hni by done. by apply Hth.
  - destruct Hid as (d & t & Hd & HL & Et & Hst).
    destruct (lookup_lt_is_Some_2 (task_pool (k_task s')) d) as [t' Et'].
    { rewrite Hl. by eapply lookup_lt_Some. }
    exists d, t'. rewrite (idle_same s), (live_same s) by done. split_and!; [done..|].
    destruct (Hp d t' Et') as (t0 & Et0 & _ & _ & _ & [E|[[[_ ?]|?]|[[? _]|[? _]]]]); try done.
    rewrite Et in Et0. injection Et0 as <-. by rewrite E.
Qed.

Lemma places_frame s s' R W T : same_queues s s' -> same_objs s s' ->
  pool_step s R (task_pool (k_task s')) -> places s R W T -> places s' R W T.
Proof.
  intros [Hn _ _ _ Hi Hb _ _] [Es Ef Em Ep] [Hl Hp] [H1 H2 H3 H4 H5 H6]. split.
  - intros p i Hin. rewrite (live_same s), (idle_same s) by done. eauto.
  - intros k i Hin. rewrite (live_same s), (idle_same s) by done. eauto.
  - intros i Hin. rewrite (live_same s), (idle_same s) by done. eauto.
  - intros i t' HL Hni Et' Hst. rewrite (live_same s) in HL by done. rewrite (idle_same s) in Hni by done.
    destruct (Hp i t' Et') as (t & Et & _ & _ & _ & [Hs|[[[? _]|?]|[(? & p & Hin)|(? & ? & ?)]]]);
      [rewrite Hs in Hst; by eapply H4|done|done|eauto|naive_solver].
  - intros i t' HL Hni Et' Hst. rewrite (live_same s) in HL by done. rewrite (idle_same s) in Hni by done.
    destruct (Hp i t' Et') as (t & Et & _ & _ & _ & [Hs|[[[? _]|?]|[(? & p & Hin)|(? & ? & ?)]]]);
      [rewrite Hs in Hst; by eapply H5|done..].
  - intros k i Hin. specialize (H6 k i Hin). destruct k; simpl in *; congruence.
Qed.

Lemma sync_frame s s' W :
  (forall i, node (k_nodes s') (SynQue i) = node (k_nodes s) (SynQue i)) ->
  same_objs s s' -> sync s W -> sync s' W.
Proof.
  intros Hn [Es Ef Em Ep]. apply qfam_frame; [done|].
  intros []; simpl; congruence.
Qed.

Lemma pools_ok_frame s s' : same_objs s s' -> pools_ok s -> pools_ok s'.
Proof. intros [Es Ef Em Ep] []. split; rewrite ?Es, ?Ef, ?Em, ?Ep; done. Qed.

Lemma kinv0_frame s s' R W T :
  kinv0 s R W T -> same_queues s s' -> same_objs s s' ->
  pool_step s R (task_pool (k_task s')) -> log_ok (k_log s') ->
  (exists c, current_task (k_sched s') = Some c /\ is_Some (task_pool (k_task s') !! c)) ->
  kinv0 s' R W T.
Proof.
  intros [Hrq Hsy Htq Hlog Hta Hpo Hpl Hd Hc] Hq Ho Hp Hl Hcur. pose proof Hq as [Hn Hqu Hpr Ht Hi Hb Hds Hne].
  split; try done.
  - eapply (rq_ok_frame (k_nodes s)); [by rewrite Hn|done|done| |exact Hrq].
    intros i t Et _. destruct (pool_step_back _ _ _ _ _ Hp Et) as (t' & ? & ? & _). eauto.
  - eapply sync_frame; [by rewrite Hn|done|done].
  - unfold tq. rewrite Hn, Ht. eapply tq_ok_ext; [by destruct Hp| |exact Htq].
    intros i Hin. destruct (tq_task _ _ _ _ i Htq Hin) as (_ & t & Et & <-).
    destruct (pool_step_back _ _ _ _ _ Hp Et) as (t' & Et' & _ & <-). unfold wup_of. by rewrite Et'.
  - by eapply tasks_ok_frame.
  - by eapply pools_ok_frame.
  - by eapply places_frame.
  - by rewrite Hds, Hne.
Qed.

(** ** The scheduler establishes the invariant *)

Lemma pool_switch_lookup pool c new i : pool_switch pool c new !! i =
  (fun t => if decide (c = new) then t
            else if decide (i = new) then set_tskstat TTS_RUN t
            else if decide (i = c) then (if tskstat t =? TTS_RUN then set_tskstat TTS_RDY t else t)
            else t) <$> pool !! i.
Proof.
  unfold pool_switch. destruct (decide (c = new)) as [->|Hne]; [by destruct (pool !! i)|].
  destruct (decide (i = new)) as [->|Hin].
  - rewrite list_lookup_alter_eq, list_lookup_alter_ne by done. done.
  - rewrite list_lookup_alter_ne by done. destruct (decide (i = c)) as [->|Hic].
    + by rewrite list_lookup_alter_eq.
    + rewrite list_lookup_alter_ne by done. by destruct (pool !! i).
Qed.

Lemma pool_switch_length pool c new : length (pool_switch pool c new) = length pool.
Proof. unfold pool_switch. case_decide; [done|]. by rewrite !length_alter. Qed.

Lemma next_task_place s R d : is_idle s d -> is_idle s (next_task R d) \/ exists p, next_task R d ∈ R p.
Proof.
  intros Hd. unfold next_task. destruct (rq_top R) as [i|] eqn:E; simpl; [right|by left].
  apply rq_top_spec in E as (p & l & _ & E & _). exists p. rewrite E. left.
Qed.

Lemma pool_switch_step s R W T c d : kinv0 s R W T -> is_idle s d ->
  pool_step s R (pool_switch (task_pool (k_task s)) c (next_task R d)).
Proof.
  intros H Hd. split; [apply pool_switch_length|]. intros i t' E.
  rewrite pool_switch_lookup in E. apply fmap_Some in E as (t & Et & ->).
  exists t. split; [done|]. split_and!; try (repeat case_decide; try case_match; done).
  repeat case_decide; try (by left).
  - right. destruct (next_task_place s R d Hd) as [|]; subst; [left; left; done|right; left; done].
  - destruct (Z.eqb_spec (tskstat t) TTS_RUN) as [Er|]; [|by left]. right.
    destruct (decide (idle_task (k_sched s) = Some i)) as [|Hni]; [left; left; done|].
    unfold live. destruct (decide (Z.of_nat i < MAX_TASKS)); [|left; right; tauto].
    destruct (Z.testbit (taskbmap (k_task s)) (Z.of_nat i)) eqn:Eb; [|left; right; naive_solver].
    right; left. split; [done|].
    by eapply (pl_run _ _ _ _ (ki_places _ _ _ _ H) i t); [split| | |left].
Qed.

Lemma wp_scheduler_kinv s R W T (Q : unit -> kstate -> Prop) :
  kinv0 s R W T ->
  (forall s' c d, kinv s' R W T -> scheduled s' R -> dispatched s s' c (next_task R d) ->
     current_task (k_sched s) = Some c -> is_idle s d -> Q tt s') ->
  wp scheduler Q s.
Proof.
  intros H HQ. destruct (ki_dsp _ _ _ _ H) as [Hn Hd]. destruct (ki_cur _ _ _ _ H) as (c & Ec & Hc).
  destruct (to_idle _ (ki_tasks _ _ _ _ H)) as (d & td & Ed & HLd & Etd & _).
  eapply wp_scheduler; [done|done|apply H|apply H|exact Ec|done|exact Ed|eauto|].
  intros s' Hs'. pose proof Hs' as [Hf Hl Hcur Hp]. pose proof Hf as [].
  assert (is_Some (task_pool (k_task s') !! next_task R d)) as Hnew.
  { rewrite Hp, pool_switch_lookup, fmap_is_Some.
    unfold next_task. destruct (rq_top R) as [i|] eqn:E; simpl; [|eauto].
    by eapply rq_top_pool; [apply H|]. }
  assert (kinv0 s' R W T) as H'.
  { eapply kinv0_frame; [exact H|by split|by split| |done|eauto].
    rewrite Hp. by eapply pool_switch_step. }
  eapply HQ; [|exists d|exact Hs'|done|done].
  - split; [done|]. exists (next_task R d). split; [done|].
    destruct (next_task_place s R d Ed) as [Hi|]; [left|by right]. by rewrite (idle_same s).
  - split; [by rewrite (idle_same s)|done].
Qed.

(** ** Moving one task *)

(** What a move of one task leaves alone. *)
Record same_tasks (s s' : kstate) : Prop := {
  st_this : forall a, this (node (k_nodes s') a) = this (node (k_nodes s) a);
  st_idle : idle_task (k_sched s') = idle_task (k_sched s);
  st_cur : current_task (k_sched s') = current_task (k_sched s);
  st_dsp : dispatching (k_sched s') = dispatching (k_sched s);
  st_nest : int_nest_count (k_int s') = int_nest_count (k_int s);
  st_bmap : taskbmap (k_task s') = taskbmap (k_task s);
  st_len : length (task_pool (k_task s')) = length (task_pool (k_task s))
}.

(** [c] may be in a place that its state allows. *)
Definition place_ok (R : nat -> list nat) (W : wkey -> list nat) (T : list nat) (c : nat) (stat : Z) : Prop :=
  (stat = TTS_RUN \/ stat = TTS_RDY -> exists p, c ∈ R p) /\
  (stat = TTS_DMT -> (forall p, c ∉ R p) /\ (c ∉ T) /\ forall k, c ∉ W k) /\
  (forall p, c ∈ R p -> (c ∉ T) /\ forall k, c ∉ W k) /\
  (forall k, c ∈ W k -> c ∉ T).

(** The lists differ in [c] only. *)
Definition others_same (R R' : nat -> list nat) (W W' : wkey -> list nat) (T T' : list nat) (c : nat) : Prop :=
  forall i, i <> c ->
    (forall p, i ∈ R' p <-> i ∈ R p) /\ (forall k, i ∈ W' k <-> i ∈ W k) /\ (i ∈ T' <-> i ∈ T).

Lemma kinv0_move s s' R W T R' W' T' c t' :
  kinv0 s R W T -> live s c -> ~ is_idle s c ->
  rq s' R' -> sync s' W' -> tq s' T' -> log_ok (k_log s') -> pools_ok s' ->
  same_tasks s s' ->
  (forall i, i <> c -> task_pool (k_task s') !! i = task_pool (k_task s) !! i) ->
  task_pool (k_task s') !! c = Some t' -> tskid t' = Z.of_nat c + 1 -> 0 <= tskpri t' < 32 ->
  others_same R R' W W' T T' c -> place_ok R' W' T' c (tskstat t') ->
  (forall k i, i ∈ W' k -> open_obj s' k) ->
  kinv0 s' R' W' T'.
Proof.
  intros H HL HI Hrq Hsy Htq Hlog Hpo [Hth Hid Hcur Hdsp Hne Hbm Hlen] Hpool Ec Eid Epri Hoth
    (Hrun & Hdmt & Hex1 & Hex2) Hopen.
  pose proof (ki_tasks _ _ _ _ H) as [Hl Hb Ht Hthis (d & td & Hd & HLd & Etd & Hstd)].
  pose proof (ki_places _ _ _ _ H) as [P1 P2 P3 P4 P5 P6].
  assert (forall i, live s' i <-> live s i) as HLs by (intros; by apply live_same).
  assert (forall i, is_idle s' i <-> is_idle s i) as HIs by (intros; by apply idle_same).
  split; try done.
  - split.
    + by rewrite Hlen.
    + by rewrite Hbm.
    + intros i t Hi Et. rewrite HLs in Hi. destruct (decide (i = c)) as [->|Hne'].
      * rewrite Ec in Et. by injection Et as <-.
      * rewrite Hpool in Et by done. by apply Ht.
    + intros i nd. rewrite HLs, HIs, Hth. apply Hthis.
    + exists d, td. rewrite HIs, HLs, Hpool by (by intros ->). done.
  - split.
    + intros p i Hin. rewrite HLs, HIs. destruct (decide (i = c)) as [->|Hne'].
      * split; [done|]. by apply (Hex1 p).
      * destruct (Hoth i Hne') as (HR & HW & HT). rewrite HR in Hin. rewrite HT.
        destruct (P1 p i Hin) as (? & ? & Hw). split_and!; try tauto. intros k. rewrite HW. apply Hw.
    + intros k i Hin. rewrite HLs, HIs. destruct (decide (i = c)) as [->|Hne']; [eauto|].
      destruct (Hoth i Hne') as (HR & HW & HT). rewrite HW in Hin. rewrite HT. eauto.
    + intros i Hin. rewrite HLs, HIs. destruct (decide (i = c)) as [->|Hne']; [eauto|].
      destruct (Hoth i Hne') as (HR & HW & HT). rewrite HT in Hin. eauto.
    + intros i t. rewrite HLs, HIs. intros Hi Hni Et Hst. destruct (decide (i = c)) as [->|Hne'].
      * rewrite Ec in Et. injection Et as <-. auto.
      * rewrite Hpool in Et by done. destruct (P4 i t Hi Hni Et Hst) as [p Hp]. exists p.
        by apply (Hoth i Hne').
    + intros i t. rewrite HLs, HIs. intros Hi Hni Et Hst. destruct (decide (i = c)) as [->|Hne'].
      * rewrite Ec in Et. injection Et as <-. auto.
      * rewrite Hpool in Et by done. destruct (P5 i t Hi Hni Et Hst) as (A & B & C).
        destruct (Hoth i Hne') as (HR & HW & HT). split_and!.
        -- intros p. rewrite HR. auto.
        -- by rewrite HT.
        -- intros k. rewrite HW. auto.
    + done.
  - rewrite Hne, Hdsp. apply H.
  - destruct (ki_cur _ _ _ _ H) as (c0 & Ec0 & Hc0). exists c0. rewrite Hcur. split; [done|].
    apply lookup_lt_is_Some_2. rewrite Hlen. by apply lookup_lt_is_Some_1.
Qed.

(** ** Wait queues of semaphores and of the other objects *)

Lemma rq_syn s s' R :
  only_nodes SynQue (k_nodes s) (k_nodes s') ->
  prioqueue (k_sched s') = prioqueue (k_sched s) -> priobmap (k_sched s') = priobmap (k_sched s) ->
  task_pool (k_task s') = task_pool (k_task s) -> rq s R -> rq s' R.
Proof.
  intros Hn Hq Hb Hp. unfold rq. rewrite Hp. apply rq_ok_frame; [|done|done|eauto].
  intros i. by apply Hn.
Qed.

Lemma tq_syn s s' T :
  only_nodes SynQue (k_nodes s) (k_nodes s') ->
  timeout_queue (k_sched s') = timeout_queue (k_sched s) ->
  task_pool (k_task s') = task_pool (k_task s) -> tq s T -> tq s' T.
Proof.
  intros Hn Hh Hp. unfold tq. rewrite Hp, Hh. apply tq_ok_frame. intros i. by apply Hn.
Qed.

(** The wait queue of [k] after its head leaves, or after a task arrives. *)
Lemma sync_insert s s' W k i :
  sync s W -> (forall k', i ∉ W k') -> this (node (k_nodes s) (SynQue i)) = Some (OTask i) ->
  k_nodes s' = (queue_insert (k_nodes s) (waitq s k) (SynQue i)).1 ->
  waitq s' k = (queue_insert (k_nodes s) (waitq s k) (SynQue i)).2 ->
  (forall k', k' <> k -> waitq s' k' = waitq s k') ->
  sync s' (<[k := W k ++ [i]]> W) /\ nodes_upd SynQue (k_nodes s) (k_nodes s').
Proof.
  intros H Hn Hth Em Eq Ho. unfold sync. rewrite Em. split.
  - by apply (qfam_insert SynQue (k_nodes s) (waitq s)).
  - split; [by eapply qfam_insert_only|]. intros a. apply queue_insert_this.
Qed.

Lemma sync_extract s s' W k i l :
  sync s W -> W k = i :: l ->
  k_nodes s' = (queue_extract (k_nodes s) (waitq s k)).1.2 ->
  waitq s' k = (queue_extract (k_nodes s) (waitq s k)).2 ->
  (forall k', k' <> k -> waitq s' k' = waitq s k') ->
  (queue_extract (k_nodes s) (waitq s k)).1.1 = Some (OTask i) /\
  sync s' (<[k := l]> W) /\ nodes_upd SynQue (k_nodes s) (k_nodes s').
Proof.
  intros H E Em Eq Ho.
  destruct (qfam_extract SynQue (k_nodes s) (waitq s) (waitq s') W k i l H E Eq Ho) as [Ex Hf].
  unfold sync. rewrite Em, Ex. split_and!; [done|done|].
  split; [|intros; apply unlink_this]. simpl. apply (qfam_unlink_only SynQue _ _ _ k i H). rewrite E. left.
Qed.

Lemma sync_extract_nil s W k : sync s W -> W k = [] ->
  queue_extract (k_nodes s) (waitq s k) = (None, k_nodes s, null_queue) /\ waitq s k = null_queue.
Proof.
  intros H E. pose proof (qf_rep _ _ _ _ H k) as Hr. rewrite E in Hr.
  split; [by apply queue_extract_empty|]. destruct Hr as (Hh & Ht & _). simpl in *.
  destruct (waitq s k); simpl in *. by subst.
Qed.

(** ** Symbolic execution under the invariant *)

Lemma kinv0_int s R W T i : kinv0 s R W T -> int_nest_count i = int_nest_count (k_int s) ->
  kinv0 (set_k_int i s) R W T.
Proof.
  intros H Hi. eapply kinv0_frame; [exact H|by split|by split|exact (pool_step_refl s R)|apply H|apply H].
Qed.

Lemma kinv0_log s R W T l : kinv0 s R W T -> log_ok l -> kinv0 (set_k_log l s) R W T.
Proof.
  intros H Hl. eapply kinv0_frame; [exact H|by split|by split|exact (pool_step_refl s R)|done|apply H].
Qed.

Lemma kinv0_mem s R W T m : kinv0 s R W T -> kinv0 (set_k_mem m s) R W T.
Proof.
  intros H. eapply kinv0_frame; [exact H|by split|by split|exact (pool_step_refl s R)|apply H|apply H].
Qed.

(** A write to the fields of a task that the invariant does not read. *)
Lemma kinv0_upd_task s R W T i t f :
  kinv0 s R W T -> task_pool (k_task s) !! i = Some t ->
  tskid (f t) = tskid t -> tskpri (f t) = tskpri t -> wuptim (f t) = wuptim t ->
  tskstat (f t) = tskstat t ->
  kinv0 (set_k_task (set_task_pool (<[i := f t]> (task_pool (k_task s))) (k_task s)) s) R W T.
Proof.
  intros H Et H1 H2 H3 H4. eapply kinv0_frame; [exact H|by split|by split| |apply H|].
  - split; simpl; [by rewrite length_insert|]. intros j t' Ej.
    apply list_lookup_insert_Some in Ej as [(-> & <- & _)|(Hne & Ej)]; [|exists t'; naive_solver].
    exists t. split_and!; auto.
  - destruct (ki_cur _ _ _ _ H) as (c & Ec & Hc). exists c. split; [done|]. simpl.
    apply lookup_lt_is_Some_2. rewrite length_insert. by apply lookup_lt_is_Some_1.
Qed.

(** A task in the ready queue, with its priority. *)
Lemma rq_place s R W T c p : kinv0 s R W T -> c ∈ R p ->
  exists t, task_pool (k_task s) !! c = Some t /\ tskpri t = Z.of_nat p /\
    tskid t = Z.of_nat c + 1 /\ 0 <= tskpri t < 32 /\ live s c /\ (~ is_idle s c) /\
    (c ∉ T) /\ (forall k, c ∉ W k) /\ forall q, c ∈ R q -> q = p.
Proof.
  intros H Hc. destruct (rq_pri _ _ _ _ (ki_rq _ _ _ _ H) p c Hc) as (t & Et & Hp).
  destruct (pl_ready _ _ _ _ (ki_places _ _ _ _ H) p c Hc) as ((HL & HI) & HT & HW).
  destruct (to_task _ (ki_tasks _ _ _ _ H) c t HL Et) as [Hid Hpri].
  exists t. split_and!; try done; [lia..|]. intros q Hq.
  destruct (rq_pri _ _ _ _ (ki_rq _ _ _ _ H) q c Hq) as (t' & Et' & Hp').
  rewrite Et in Et'. injection Et' as <-. lia.
Qed.

(** The ready lists without the task [c] of priority [p]. *)
Definition rq_drop (R : nat -> list nat) (p c : nat) : nat -> list nat := <[p := without c (R p)]> R.

Lemma elem_of_rq_drop R p c q i : (forall q, c ∈ R q -> q = p) ->
  i ∈ rq_drop R p c q <-> i <> c /\ i ∈ R q.
Proof.
  intros Hu. unfold rq_drop. rewrite elem_of_fn_insert, elem_of_without.
  destruct (decide (q = p)) as [->|Hne]; [tauto|]. split; [|tauto].
  intros [?|[_ Hi]]; [tauto|]. split; [|done]. intros ->. by apply Hne, Hu.
Qed.

Lemma elem_of_enqueue (W : wkey -> list nat) k c k' i :
  i ∈ (<[k := W k ++ [c]]> W) k' <-> i ∈ W k' \/ (i = c /\ k' = k).
Proof.
  rewrite elem_of_fn_insert, elem_of_app, list_elem_of_singleton.
  destruct (decide (k' = k)); naive_solver.
Qed.

(** A wait queue without its head. *)
Lemma elem_of_dequeue s (W : wkey -> list nat) k c l k' i : sync s W -> W k = c :: l ->
  i ∈ (<[k := l]> W) k' <-> i <> c /\ i ∈ W k'.
Proof.
  intros H E. pose proof (qfam_NoDup SynQue _ _ _ k H) as Hnd. rewrite E in Hnd.
  apply NoDup_cons in Hnd as [Hc _].
  rewrite elem_of_fn_insert. split.
  - intros [[-> Hi]|[Hne Hi]].
    + split; [by intros ->|rewrite E; by right].
    + split; [|done]. intros ->. apply Hne.
      apply (qf_disj _ _ _ _ H k' k c); [done|rewrite E; left].
  - intros [Hi Hin]. destruct (decide (k' = k)) as [->|]; [|tauto].
    rewrite E in Hin. apply elem_of_cons in Hin. naive_solver.
Qed.

(** The task [c] leaves the wait queue of [k], in which [l] is left. *)
Definition dequeues (W : wkey -> list nat) (k : wkey) (c : nat) (l : list nat) : Prop :=
  c ∈ W k /\ forall k' i, i ∈ (<[k := l]> W) k' <-> i <> c /\ i ∈ W k'.

Lemma dequeues_head s W k c l : sync s W -> W k = c :: l -> dequeues W k c l.
Proof.
  intros H E. split; [rewrite E; left|]. intros k' i. by apply (elem_of_dequeue s).
Qed.

Lemma dequeues_without s W k c : sync s W -> c ∈ W k -> dequeues W k c (without c (W k)).
Proof.
  intros H Hc. split; [done|]. intros k' i. rewrite elem_of_fn_insert, elem_of_without.
  destruct (decide (k' = k)) as [->|Hne]; [tauto|]. split; [|tauto].
  intros [[? _]|[_ Hi]]; [done|]. split; [|done]. intros ->. apply Hne.
  by apply (qf_disj _ _ _ _ H k' k c).
Qed.

(** ** The moves of the system calls *)

Section moves.
Variables (s s' : kstate) (R : nat -> list nat) (W : wkey -> list nat) (T : list nat).
Hypothesis Hinv : kinv0 s R W T.
Hypothesis Hlog : log_ok (k_log s').
Hypothesis Hpools : pools_ok s'.
Hypothesis Hsame : same_tasks s s'.
Hypothesis Hopen : forall k, open_obj s k -> open_obj s' k.

(** A ready task that waits for [k]. *)
Lemma kinv0_block c p k t' :
  c ∈ R p -> rq s' (rq_drop R p c) -> sync s' (<[k := W k ++ [c]]> W) -> tq s' T ->
  (forall i, i <> c -> task_pool (k_task s') !! i = task_pool (k_task s) !! i) ->
  task_pool (k_task s') !! c = Some t' -> tskid t' = Z.of_nat c + 1 -> 0 <= tskpri t' < 32 ->
  tskstat t' = TTS_WAI -> open_obj s k ->
  kinv0 s' (rq_drop R p c) (<[k := W k ++ [c]]> W) T.
Proof.
  intros Hc Hrq Hsy Htq Hpool Ec Hid Hpri Hst Hk.
  destruct (rq_place _ _ _ _ _ _ Hinv Hc) as (t & Et & _ & _ & _ & HL & HI & HT & HW & Hu).
  eapply (kinv0_move s s' R W T); try done.
  - intros i Hi. split_and!; [| |done].
    + intros q. rewrite elem_of_rq_drop by done. tauto.
    + intros k'. rewrite elem_of_enqueue. naive_solver.
  - rewrite Hst. split_and!; [by intros [|]|done| |].
    + intros q. rewrite elem_of_rq_drop by done. tauto.
    + intros k' _. done.
  - intros k' i. rewrite elem_of_enqueue. intros [Hi|[_ ->]]; [|auto].
    apply Hopen. by eapply (pl_open _ _ _ _ (ki_places _ _ _ _ Hinv)).
Qed.

(** A ready task that leaves the ready queue for none. *)
Lemma kinv0_leave c p t' :
  c ∈ R p -> rq s' (rq_drop R p c) -> sync s' W -> tq s' T ->
  (forall i, i <> c -> task_pool (k_task s') !! i = task_pool (k_task s) !! i) ->
  task_pool (k_task s') !! c = Some t' -> tskid t' = Z.of_nat c + 1 -> 0 <= tskpri t' < 32 ->
  tskstat t' = TTS_WAI \/ tskstat t' = TTS_DMT ->
  kinv0 s' (rq_drop R p c) W T.
Proof.
  intros Hc Hrq Hsy Htq Hpool Ec Hid Hpri Hst.
  destruct (rq_place _ _ _ _ _ _ Hinv Hc) as (t & Et & _ & _ & _ & HL & HI & HT & HW & Hu).
  eapply (kinv0_move s s' R W T); try done.
  - intros i Hi. split_and!; [|done..]. intros q. rewrite elem_of_rq_drop by done. tauto.
  - split_and!; [by intros [E|E]; rewrite E in Hst; destruct Hst| | |].
    + intros _. split_and!; [|done..]. intros q. rewrite elem_of_rq_drop by done. tauto.
    + intros q. rewrite elem_of_rq_drop by done. tauto.
    + intros k _. done.
  - intros k i Hi. apply Hopen. by eapply (pl_open _ _ _ _ (ki_places _ _ _ _ Hinv)).
Qed.

(** A ready task that goes to sleep. *)
Lemma kinv0_sleep c p t' pool w :
  c ∈ R p -> rq s' (rq_drop R p c) -> sync s' W -> tq s' (tq_place pool w c T) ->
  (forall i, i <> c -> task_pool (k_task s') !! i = task_pool (k_task s) !! i) ->
  task_pool (k_task s') !! c = Some t' -> tskid t' = Z.of_nat c + 1 -> 0 <= tskpri t' < 32 ->
  tskstat t' = TTS_WAI ->
  kinv0 s' (rq_drop R p c) W (tq_place pool w c T).
Proof.
  intros Hc Hrq Hsy Htq Hpool Ec Hid Hpri Hst.
  destruct (rq_place _ _ _ _ _ _ Hinv Hc) as (t & Et & _ & _ & _ & HL & HI & HT & HW & Hu).
  eapply (kinv0_move s s' R W T); try done.
  - intros i Hi. split_and!; [|done|].
    + intros q. rewrite elem_of_rq_drop by done. tauto.
    + rewrite elem_of_tq_place. naive_solver.
  - rewrite Hst. split_and!; [by intros [|]|done| |].
    + intros q. rewrite elem_of_rq_drop by done. tauto.
    + intros k Hk. by apply HW in Hk.
  - intros k i Hi. apply Hopen. by eapply (pl_open _ _ _ _ (ki_places _ _ _ _ Hinv)).
Qed.

(** A task that waits for [k] becomes ready. *)
Lemma kinv0_wake c k l t' pool :
  dequeues W k c l -> rq s' (rq_append pool R c) -> sync s' (<[k := l]> W) -> tq s' T ->
  (forall i, i <> c -> task_pool (k_task s') !! i = task_pool (k_task s) !! i) ->
  task_pool (k_task s') !! c = Some t' -> tskid t' = Z.of_nat c + 1 -> 0 <= tskpri t' < 32 ->
  tskstat t' <> TTS_DMT ->
  kinv0 s' (rq_append pool R c) (<[k := l]> W) T.
Proof.
  intros [Hck Hdq] Hrq Hsy Htq Hpool Ec Hid Hpri Hst.
  pose proof (ki_sync _ _ _ _ Hinv) as HS. pose proof (ki_places _ _ _ _ Hinv) as HP.
  destruct (pl_wait _ _ _ _ HP k c Hck) as ((HL & HI) & HT).
  eapply (kinv0_move s s' R W T); try done.
  - intros i Hi. split_and!; [| |done].
    + intros q. rewrite elem_of_rq_append. naive_solver.
    + intros k'. rewrite Hdq. tauto.
  - split_and!; [|done| |].
    + intros _. exists (pri_of pool c). rewrite elem_of_rq_append. by right.
    + intros _ _. split; [done|]. intros k'. rewrite Hdq. tauto.
    + done.
  - intros k' i. rewrite Hdq. intros [_ Hi].
    apply Hopen. by eapply (pl_open _ _ _ _ HP).
Qed.
End moves.

(** ** Blocking the current task *)

(** The state [s1] differs from [s] in the wait queues and in the log. *)
Record enqueued (s s1 : kstate) : Prop := {
  eq_nodes : nodes_upd SynQue (k_nodes s) (k_nodes s1);
  eq_task : k_task s1 = k_task s;
  eq_sched : k_sched s1 = k_sched s;
  eq_int : k_int s1 = k_int s;
  eq_log : log_ok (k_log s1);
  eq_pools : pools_ok s1;
  eq_open : forall k, open_obj s k -> open_obj s1 k
}.

(** The nodes of the messages are the same. *)
Definition same_msgs (m m' : gmap laddr linked_list_t) : Prop :=
  forall b, node m' (MsgQue b) = node m (MsgQue b).

#[export] Instance same_msgs_refl : Reflexive same_msgs.
Proof. by intros m. Qed.

#[export] Instance same_msgs_trans : Transitive same_msgs.
Proof. intros m1 m2 m3 H H' b. by rewrite H'. Qed.

Lemma same_msgs_only (nd : nat -> laddr) m m' : (forall j b, nd j <> MsgQue b) -> nodes_upd nd m m' ->
  same_msgs m m'.
Proof. intros Hnd [H _] b. apply H. intros j. by apply not_eq_sym. Qed.

(** What [upd_task] and [rq_remove] leave alone. *)
Record blocked (s1 s' : kstate) (c : nat) (t' : task_t) : Prop := {
  bl_objs : same_objs s1 s';
  bl_int : k_int s' = k_int s1;
  bl_mem : k_mem s' = k_mem s1;
  bl_time : k_time s' = k_time s1;
  bl_cur : current_task (k_sched s') = current_task (k_sched s1);
  bl_pool : task_pool (k_task s') = <[c := t']> (task_pool (k_task s1));
  bl_msgs : same_msgs (k_nodes s1) (k_nodes s')
}.

Lemma pri_of_insert pool c t t' i : pool !! c = Some t -> tskpri t' = tskpri t ->
  pri_of (<[c := t']> pool) i = pri_of pool i.
Proof.
  intros Et Hp. unfold pri_of. destruct (decide (i = c)) as [->|Hne].
  - rewrite list_lookup_insert_eq by (by eapply lookup_lt_Some). rewrite Et. by rewrite Hp.
  - by rewrite list_lookup_insert_ne.
Qed.

(** The same tasks exist, with the same priorities. *)
Definition keeps (s s' : kstate) : Prop :=
  (forall i, live s' i <-> live s i) /\
  forall i, pri_of (task_pool (k_task s')) i = pri_of (task_pool (k_task s)) i.

#[export] Instance keeps_refl : Reflexive keeps.
Proof. by intros s. Qed.

#[export] Instance keeps_trans : Transitive keeps.
Proof. intros s1 s2 s3 [H1 P1] [H2 P2]. split; intros i; [by rewrite H2|by rewrite P2]. Qed.

(** The tail of every blocking system call: set the state of the task to
    WAITING and take it out of the ready queue. *)
Lemma wp_block s s1 R W T c p t k f (Q : unit -> kstate -> Prop) :
  kinv0 s R W T -> enqueued s s1 -> c ∈ R p -> task_pool (k_task s) !! c = Some t ->
  sync s1 (<[k := W k ++ [c]]> W) -> open_obj s k ->
  tskstat (f t) = TTS_WAI -> tskid (f t) = tskid t -> tskpri (f t) = tskpri t -> wuptim (f t) = wuptim t ->
  (forall s', kinv0 s' (rq_drop R p c) (<[k := W k ++ [c]]> W) T -> blocked s1 s' c (f t) ->
     keeps s s' -> Q tt s') ->
  wp (upd_task c f ;;; rq_remove c) Q s1.
Proof.
  intros H [Hup Ek Es Ei Hl Hpo Hop] Hc Et Hsy Hk F1 F2 F3 F4 HQ.
  destruct (rq_place _ _ _ _ _ _ H Hc) as (t0 & Et0 & Hp & Hid & Hpri & HL & HI & HT & HW & Hu).
  rewrite Et in Et0. injection Et0 as <-.
  wp_steps. eapply wp_upd_task; [by rewrite Ek|].
  assert (<[c := f t]> (task_pool (k_task s)) !! c = Some (f t)) as Ec.
  { apply list_lookup_insert_eq. by eapply lookup_lt_Some. }
  eapply (wp_rq_remove _ R c (f t)); simpl.
  - rewrite Ek. apply (rq_ok_upd _ _ _ _ c t); [done|done|]. simpl.
    eapply (rq_ok_frame (k_nodes s) _ (k_sched s)); [|by rewrite Es..|eauto|apply H].
    intros j. by apply Hup.
  - done.
  - by rewrite Ek.
  - by rewrite F3.
  - replace (Z.to_nat (tskpri (f t))) with p by lia.
    intros m qs bm l Hl' Hup' Hrq'. simpl in Hup'. apply HQ.
    + eapply (kinv0_block s _ R W T H); [exact Hl'| | |exact Hop|exact Hc|exact Hrq'| | | | | | |exact F1|done].
      * by apply (pools_ok_frame s1).
      * split; simpl; rewrite ?Ek, ?Es, ?Ei; try done; [|by rewrite length_insert].
        intros a. destruct Hup' as [_ ->]. by destruct Hup as [_ ->].
      * apply (sync_frame s1); [|by split|done]. intros j. by apply Hup'.
      * unfold tq. simpl. rewrite Ek, Es. eapply (tq_ok_pool _ _ _ _ f); [|exact Et|by right].
        eapply tq_ok_rdy; [exact Hup'|]. eapply tq_ok_frame; [|apply H]. intros j. by apply Hup.
      * intros j Hj. simpl. rewrite Ek. by rewrite list_lookup_insert_ne.
      * simpl. by rewrite Ek.
      * by rewrite F2.
      * by rewrite F3.
    + split; simpl; rewrite ?Ek; try done. by apply (same_msgs_only RdyQue) in Hup'.
    + split; intros j; simpl; rewrite Ek; [done|]. by eapply pri_of_insert.
Qed.

(** ** Masking *)

(** The state inside and after a masked section. *)
Definition cli_state (s : kstate) : kstate :=
  set_k_int (set_imask 0 (set_interrupt_flags (imask (k_int s)) (k_int s))) s.

Definition sti_state (s : kstate) : kstate :=
  set_k_int (set_imask (interrupt_flags (k_int s)) (k_int s)) s.

(** A masked section has saved the mask [im]. *)
Definition masked (im : Z) (s : kstate) : Prop := interrupt_flags (k_int s) = im.

Lemma wp_cli s (Q : unit -> kstate -> Prop) : Q tt (cli_state s) -> wp hw_cli Q s.
Proof. done. Qed.

Lemma wp_sti s (Q : unit -> kstate -> Prop) : Q tt (sti_state s) -> wp hw_sti Q s.
Proof. done. Qed.

Lemma kinv0_cli s R W T : kinv0 s R W T -> kinv0 (cli_state s) R W T.
Proof. intros H. by apply kinv0_int. Qed.

Lemma kinv0_sti s R W T : kinv0 s R W T -> kinv0 (sti_state s) R W T.
Proof. intros H. by apply kinv0_int. Qed.

Lemma kinv_cli s R W T : kinv s R W T -> kinv (cli_state s) R W T.
Proof. intros [H Hc]. split; [by apply kinv0_cli|done]. Qed.

Lemma kinv_sti s R W T : kinv s R W T -> kinv (sti_state s) R W T.
Proof. intros [H Hc]. split; [by apply kinv0_sti|done]. Qed.

Lemma kinv_log s R W T l : kinv s R W T -> log_ok l -> kinv (set_k_log l s) R W T.
Proof. intros [H Hc] Hl. split; [by apply kinv0_log|done]. Qed.

(** [hw_sti; scheduler] at the end of a system call: the invariant and the mask
    are back and the scheduler has chosen the task. *)
Lemma wp_sti_scheduler {A} s R W T im (r : A) (Q : A -> kstate -> Prop) :
  kinv0 s R W T -> masked im s ->
  (forall s' c d, kinv s' R W T -> scheduled s' R -> imask (k_int s') = im ->
     dispatched (sti_state s) s' c (next_task R d) ->
     current_task (k_sched s) = Some c -> is_idle s d -> Q r s') ->
  wp (hw_sti ;;; scheduler ;;; ret r) Q s.
Proof.
  intros H Hm HQ. apply wp_bind, wp_sti, wp_bind.
  eapply wp_scheduler_kinv; [by apply kinv0_sti|]. intros s' c d Hk Hs Hd Hc Hi. apply wp_ret.
  eapply HQ; [done|done| |exact Hd|done|done]. by rewrite (sf_imask _ _ (dp_frame _ _ _ _ Hd)).
Qed.

(** ** The abstract kernel

    Priorities, and the lists of ready, waiting and sleeping tasks. *)
Record akernel := mk_ak {
  a_pri : nat -> nat;
  a_ready : nat -> list nat;
  a_wait : wkey -> list nat;
  a_sleep : list nat
}.

(** The state [s] implements [A]. *)
Definition impl (s : kstate) (A : akernel) : Prop :=
  kinv s (a_ready A) (a_wait A) (a_sleep A) /\
  forall i, live s i -> a_pri A i = pri_of (task_pool (k_task s)) i.

(** A system call that goes on after [scheduler()] has given the processor to
    the first task of the highest priority. *)
Definition rescheduled (r : sysres) (s : kstate) (A : akernel) : Prop :=
  match r with Cont _ => scheduled s (a_ready A) | _ => True end.

(** The task [c] waits for [k]. *)
Definition a_block (c : nat) (k : wkey) (A : akernel) : akernel :=
  mk_ak (a_pri A) (rq_drop (a_ready A) (a_pri A c) c)
    (<[k := a_wait A k ++ [c]]> (a_wait A)) (a_sleep A).

(** The first task that waits for [k] becomes ready. *)
Definition a_wake (k : wkey) (A : akernel) : option akernel :=
  match a_wait A k with
  | [] => None
  | c :: l => Some (mk_ak (a_pri A) (<[a_pri A c := a_ready A (a_pri A c) ++ [c]]> (a_ready A))
                     (<[k := l]> (a_wait A)) (a_sleep A))
  end.

Lemma impl_cur s A c : impl s A -> current_task (k_sched s) = Some c -> ~ is_idle s c ->
  c ∈ a_ready A (a_pri A c).
Proof.
  intros [[H (c0 & Ec0 & Hc0)] Hp] Ec Hi. rewrite Ec in Ec0. injection Ec0 as <-.
  destruct Hc0 as [|[p Hc]]; [done|].
  destruct (rq_place _ _ _ _ _ _ H Hc) as (t & Et & Hpt & _ & Hr & HL & _).
  rewrite (Hp c HL). unfold pri_of. rewrite Et. by replace (Z.to_nat (tskpri t)) with p by lia.
Qed.

Lemma pri_of_switch pool c new i : pri_of (pool_switch pool c new) i = pri_of pool i.
Proof.
  unfold pri_of. rewrite pool_switch_lookup. destruct (pool !! i) as [t|]; simpl; [|done].
  repeat case_decide; try done. by case_match.
Qed.

Lemma dispatched_keeps s s' c new : dispatched s s' c new -> keeps s s'.
Proof.
  intros H. split; intros i; [apply live_same, H|]. rewrite (dp_pool _ _ _ _ H). apply pri_of_switch.
Qed.

Lemma impl_keeps s s' A A' : impl s A -> keeps s s' -> a_pri A' = a_pri A ->
  kinv s' (a_ready A') (a_wait A') (a_sleep A') -> impl s' A'.
Proof.
  intros [_ Hp] [HL HP] Hpri H. split; [done|]. intros i Hi. rewrite HL in Hi. rewrite HP, Hpri. auto.
Qed.

(** ** Waking the first task of a wait queue *)

(** What waking leaves alone. *)
Record woke (s1 s' : kstate) (c : nat) (t' : task_t) : Prop := {
  wo_objs : same_objs s1 s';
  wo_int : k_int s' = k_int s1;
  wo_mem : k_mem s' = k_mem s1;
  wo_cur : current_task (k_sched s') = current_task (k_sched s1);
  wo_idle : idle_task (k_sched s') = idle_task (k_sched s1);
  wo_pool : task_pool (k_task s') = <[c := t']> (task_pool (k_task s1));
  wo_msgs : same_msgs (k_nodes s1) (k_nodes s')
}.

Section wake.
Variables (s s1 : kstate) (R : nat -> list nat) (W : wkey -> list nat) (T : list nat).
Variables (c : nat) (t : task_t) (k : wkey) (l : list nat) (f : task_t -> task_t).
Hypothesis Hinv : kinv0 s R W T.
Hypothesis Heq : enqueued s s1.
Hypothesis HW : dequeues W k c l.
Hypothesis Hsy : sync s1 (<[k := l]> W).
Hypothesis Et : task_pool (k_task s) !! c = Some t.
Hypothesis Hdmt : tskstat (f t) <> TTS_DMT.
Hypothesis Hid : tskid (f t) = tskid t.
Hypothesis Hpri : tskpri (f t) = tskpri t.
Hypothesis Hwup : wuptim (f t) = wuptim t.

Lemma waiting_place : live s c /\ (~ is_idle s c) /\ (c ∉ T) /\ (forall p, c ∉ R p) /\
  tskid t = Z.of_nat c + 1 /\ 0 <= tskpri t < 32.
Proof.
  destruct HW as [Hc _]. pose proof (ki_places _ _ _ _ Hinv) as HP.
  destruct (pl_wait _ _ _ _ HP k c Hc) as [[HL HI] HT].
  destruct (to_task _ (ki_tasks _ _ _ _ Hinv) c t HL Et). split_and!; try done; try lia.
  intros p Hp. destruct (pl_ready _ _ _ _ HP p c Hp) as (_ & _ & Hn). by apply (Hn k).
Qed.

(** Both orders of the two statements end in a state like [s']. *)
Lemma wake_kinv s' :
  nodes_upd RdyQue (k_nodes s1) (k_nodes s') -> taskbmap (k_task s') = taskbmap (k_task s) ->
  timeout_queue (k_sched s') = timeout_queue (k_sched s) -> log_ok (k_log s') ->
  dispatching (k_sched s') = dispatching (k_sched s) ->
  rq s' (rq_append (task_pool (k_task s)) R c) -> woke s1 s' c (f t) ->
  kinv0 s' (rq_append (task_pool (k_task s)) R c) (<[k := l]> W) T /\ keeps s s'.
Proof.
  intros Hup Hb Ht Hl Hd Hrq [Ho Hi _ Hcu Hidl Hpool _].
  pose proof Heq as [[Hup1 Hth1] Ek Es Ei Hl1 Hpo Hop].
  destruct waiting_place as (HL & HI & HT & Hn & Hidt & Hprit). rewrite Ek in Hpool. split.
  - eapply (kinv0_wake s s' R W T Hinv Hl); [| | |exact HW|exact Hrq| | | |rewrite Hpool| | |].
    + by eapply pools_ok_frame.
    + split; rewrite ?Hcu, ?Hidl, ?Hi, ?Es, ?Ei; try done.
      * intros a. destruct Hup as [_ ->]. apply Hth1.
      * by rewrite Hpool, length_insert.
    + intros k' Hk'. apply Hop in Hk'. destruct Ho. destruct k'; simpl in *; congruence.
    + eapply (sync_frame s1); [|done|done]. intros j. by apply Hup.
    + unfold tq. rewrite Ht, Hpool. eapply (tq_ok_pool _ _ _ _ f); [|exact Et|by right].
      eapply tq_ok_rdy; [exact Hup|]. eapply tq_ok_frame; [|apply Hinv]. intros j. by apply Hup1.
    + intros j Hj. by rewrite Hpool, list_lookup_insert_ne.
    + apply list_lookup_insert_eq. by eapply lookup_lt_Some.
    + by rewrite Hid.
    + by rewrite Hpri.
    + done.
  - split; intros j; [by apply live_same|]. rewrite Hpool. by eapply pri_of_insert.
Qed.

Lemma wake_rq : rq s1 R /\ wakeable s1 R c.
Proof.
  pose proof Heq as [[Hup1 Hth1] Ek Es Ei Hl1 Hpo Hop].
  destruct waiting_place as (HL & HI & HT & Hn & Hidt & Hprit). split.
  - unfold rq. rewrite Ek, Es. eapply (rq_ok_frame (k_nodes s)); [|done|done|eauto|apply Hinv].
    intros j. by apply Hup1.
  - split_and!; [rewrite Ek; eauto|done|]. rewrite Hth1.
    by apply (to_this _ (ki_tasks _ _ _ _ Hinv) c RdyQue); [..|left].
Qed.

Lemma wp_wake (Q : unit -> kstate -> Prop) :
  (forall s', kinv0 s' (rq_append (task_pool (k_task s)) R c) (<[k := l]> W) T ->
     woke s1 s' c (f t) -> keeps s s' -> Q tt s') ->
  wp (upd_task c f ;;; rq_insert c) Q s1.
Proof.
  intros HQ. pose proof Heq as [Hup1 Ek Es Ei Hl1 Hpo Hop]. destruct wake_rq as [Hrq Hwk].
  apply wp_bind. eapply wp_upd_task; [by rewrite Ek|]. apply (wp_rq_insert_frame _ R); simpl.
  - unfold rq. simpl. apply (rq_ok_upd _ _ _ _ c t); [by rewrite Ek|done|exact Hrq].
  - done.
  - destruct Hwk as (_ & Hn & Hth). destruct waiting_place as (_ & _ & _ & _ & _ & Hr).
    split_and!; [|done|done]. exists (f t). simpl. rewrite Hpri. split; [|done].
    rewrite Ek. apply list_lookup_insert_eq. by eapply lookup_lt_Some.
  - intros s' Hf Hup Hpool Htq Hl Hr. rewrite Ek in Hr, Hpool. simpl in *.
    assert (rq_append (<[c := f t]> (task_pool (k_task s))) R c = rq_append (task_pool (k_task s)) R c)
      as Er by (unfold rq_append; by rewrite (pri_of_insert _ c t)).
    rewrite Er in Hr.
    assert (woke s1 s' c (f t)) as Hwo.
    { destruct Hf. split; [by split|done|done|done|done| |]; [by rewrite Hpool, Ek|].
      by apply (same_msgs_only RdyQue) in Hup. }
    destruct (wake_kinv s') as [HK Hke]; try done.
    + by rewrite (kf_bmap _ _ Hf); simpl; rewrite Ek.
    + by rewrite Htq, Es.
    + by rewrite (kf_dsp _ _ Hf); simpl; rewrite Es.
    + by apply HQ.
Qed.

Lemma wp_wake_then (Q : unit -> kstate -> Prop) :
  (forall s', kinv0 s' (rq_append (task_pool (k_task s)) R c) (<[k := l]> W) T ->
     woke s1 s' c (f t) -> keeps s s' -> Q tt s') ->
  wp (rq_insert c ;;; upd_task c f) Q s1.
Proof.
  intros HQ. pose proof Heq as [Hup1 Ek Es Ei Hl1 Hpo Hop]. destruct wake_rq as [Hrq Hwk].
  apply wp_bind. apply (wp_rq_insert_frame _ R); [done|done|done|].
  intros s' Hf Hup Hpool Htq Hl Hr. rewrite Ek in Hr, Hpool.
  eapply wp_upd_task; [rewrite Hpool; exact Et|].
  set (s2 := set_k_task _ s').
  assert (woke s1 s2 c (f t)) as Hwo.
  { destruct Hf. split; [by split|done..| |]; [simpl; by rewrite Hpool, Ek|].
    by apply (same_msgs_only RdyQue) in Hup. }
  destruct (wake_kinv s2) as [HK Hke]; try done.
  - simpl. by rewrite (kf_bmap _ _ Hf), Ek.
  - simpl. by rewrite Htq, Es.
  - simpl. by rewrite (kf_dsp _ _ Hf), Es.
  - unfold rq in *. simpl. rewrite Hpool in Hr |- *. by apply (rq_ok_upd _ _ _ _ c t).
  - by apply HQ.
Qed.
End wake.

(** The lists matter pointwise. *)
Lemma kinv0_ext s R W W' T : (forall k, W' k = W k) -> kinv0 s R W T -> kinv0 s R W' T.
Proof.
  intros E [Hrq Hsy Htq Hlog Hta Hpo [P1 P2 P3 P4 P5 P6] Hd Hc]. split; try done.
  - eapply qfam_ext; [exact E|exact Hsy].
  - split; try done; intros *; rewrite ?E; eauto.
    + intros Hi. destruct (P1 _ _ Hi) as (? & ? & Hn). split_and!; try tauto. intros k. rewrite E. auto.
    + intros HL HI Et Hs. destruct (P5 _ _ HL HI Et Hs) as (? & ? & Hn). split_and!; try tauto.
      intros k. rewrite E. auto.
Qed.

(** A waiting list has at most one entry per slot of the task pool. *)
Lemma wait_length s R W T k : kinv0 s R W T -> (length (W k) <= length (task_pool (k_task s)))%nat.
Proof.
  intros H. rewrite <- (length_seq (length (task_pool (k_task s))) 0).
  apply submseteq_length, NoDup_submseteq.
  - by eapply (qfam_NoDup SynQue), H.
  - intros i Hi. apply elem_of_seq.
    destruct (pl_wait _ _ _ _ (ki_places _ _ _ _ H) k i Hi) as [[HL _] _].
    destruct (live_pool s i (ki_tasks _ _ _ _ H) HL) as [t Et]. apply lookup_lt_Some in Et. lia.
Qed.

(** ** Creating and deleting objects *)

(** The nodes that link tasks are the same. *)
Definition task_nodes (m m' : gmap laddr linked_list_t) : Prop :=
  forall i nd, nd ∈ [RdyQue; SynQue; SlpQue] -> node m' (nd i) = node m (nd i).

Lemma task_kinds nd : nd ∈ [RdyQue; SynQue; SlpQue] -> nd = RdyQue \/ nd = SynQue \/ nd = SlpQue.
Proof. rewrite !elem_of_cons. intros [|[|[|H]]]; auto. by apply not_elem_of_nil in H. Qed.

Lemma task_nodes_rdy m m' i : task_nodes m m' -> node m' (RdyQue i) = node m (RdyQue i).
Proof. intros H. apply H. left. Qed.
Lemma task_nodes_syn m m' i : task_nodes m m' -> node m' (SynQue i) = node m (SynQue i).
Proof. intros H. apply H. right; left. Qed.
Lemma task_nodes_slp m m' i : task_nodes m m' -> node m' (SlpQue i) = node m (SlpQue i).
Proof. intros H. apply H. right; right; left. Qed.

#[export] Hint Resolve task_nodes_rdy task_nodes_syn task_nodes_slp : kernel.

(** Creation and deletion of an object that nobody waits for. *)
Lemma kinv0_objs s s' R W T :
  kinv0 s R W T -> task_nodes (k_nodes s) (k_nodes s') ->
  k_task s' = k_task s -> k_sched s' = k_sched s -> k_int s' = k_int s ->
  log_ok (k_log s') -> pools_ok s' -> (forall k, waitq s' k = waitq s k) ->
  (forall k i, i ∈ W k -> open_obj s' k) -> kinv0 s' R W T.
Proof.
  intros [Hrq Hsy Htq Hlog Hta Hpo Hpl Hd Hc] Hn Et Es Ei Hl Hpo' Hw Hop. split; try done.
  - unfold rq. rewrite Et, Es. eapply (rq_ok_frame (k_nodes s)); eauto with kernel.
  - unfold sync. eapply (qfam_frame SynQue (k_nodes s)); [|exact Hw|exact Hsy]. auto with kernel.
  - unfold tq. rewrite Et, Es. eapply tq_ok_frame; [|exact Htq]. auto with kernel.
  - destruct Hta as [A B C D E]. unfold live, is_idle in *.
    split; unfold live, is_idle; rewrite ?Et, ?Es; try done.
    intros i nd HL HI Hnd. rewrite (Hn i nd Hnd). by apply D.
  - destruct Hpl as [P1 P2 P3 P4 P5 P6]. unfold live, is_idle in *.
    split; unfold live, is_idle; rewrite ?Et, ?Es; try done.
  - by rewrite Ei, Es.
  - by rewrite Es, Et.
Qed.

(** A dormant task becomes ready. *)
Lemma kinv0_activate s s' R W T i t t' pool :
  kinv0 s R W T -> live s i -> ~ is_idle s i -> task_pool (k_task s) !! i = Some t ->
  tskstat t = TTS_DMT -> tskstat t' = TTS_RDY -> tskid t' = tskid t -> tskpri t' = tskpri t ->
  log_ok (k_log s') -> same_tasks s s' -> same_objs s s' ->
  rq s' (rq_append pool R i) -> sync s' W -> tq s' T ->
  task_pool (k_task s') = <[i := t']> (task_pool (k_task s)) ->
  kinv0 s' (rq_append pool R i) W T.
Proof.
  intros H HL HI Et Hst Hst' Hid Hpri Hlog Hsame Ho Hrq Hsy Htq Hpool.
  destruct (to_task _ (ki_tasks _ _ _ _ H) i t HL Et) as [Hidt Hprit].
  destruct (pl_dmt _ _ _ _ (ki_places _ _ _ _ H) i t HL HI Et Hst) as (HR & HT & HW).
  eapply (kinv0_move s s' R W T _ _ _ i t'); try done.
  - by eapply pools_ok_frame; [|apply H].
  - intros j Hj. by rewrite Hpool, list_lookup_insert_ne.
  - rewrite Hpool. apply list_lookup_insert_eq. by eapply lookup_lt_Some.
  - by rewrite Hid.
  - by rewrite Hpri.
  - intros j Hj. split_and!; [|done..]. intros p. rewrite elem_of_rq_append. naive_solver.
  - rewrite Hst'. split_and!; [|done|done|done]. intros _. exists (pri_of pool i).
    rewrite elem_of_rq_append. by right.
  - intros k j Hj. pose proof (pl_open _ _ _ _ (ki_places _ _ _ _ H) k j Hj).
    destruct Ho. destruct k; simpl in *; congruence.
Qed.

(** ** Leaving the ready queue *)

Section leave.
Variables (s : kstate) (R : nat -> list nat) (W : wkey -> list nat) (T : list nat).
Variables (c p : nat) (t : task_t) (f : task_t -> task_t).
Hypothesis Hinv : kinv0 s R W T.
Hypothesis Hc : c ∈ R p.
Hypothesis Et : task_pool (k_task s) !! c = Some t.
Hypothesis Hst : tskstat (f t) = TTS_WAI \/ tskstat (f t) = TTS_DMT.
Hypothesis Hid : tskid (f t) = tskid t.
Hypothesis Hpri : tskpri (f t) = tskpri t.
Hypothesis Hwup : wuptim (f t) = wuptim t.

Lemma leave_kinv s' :
  nodes_upd RdyQue (k_nodes s) (k_nodes s') -> taskbmap (k_task s') = taskbmap (k_task s) ->
  timeout_queue (k_sched s') = timeout_queue (k_sched s) -> log_ok (k_log s') ->
  dispatching (k_sched s') = dispatching (k_sched s) ->
  idle_task (k_sched s') = idle_task (k_sched s) ->
  rq s' (rq_drop R p c) -> blocked s s' c (f t) ->
  kinv0 s' (rq_drop R p c) W T /\ keeps s s'.
Proof.
  intros Hup Hb Ht Hl Hd Hidl Hrq [Ho Hi _ _ Hcu Hpool _].
  destruct (rq_place _ _ _ _ _ _ Hinv Hc) as (t0 & Et0 & _ & Hidt & Hprit & HL & HI & _).
  rewrite Et in Et0. injection Et0 as <-. split.
  - eapply (kinv0_leave s s' R W T Hinv Hl); [| | |exact Hc|exact Hrq| | | |rewrite Hpool| | |exact Hst].
    + by eapply pools_ok_frame; [|apply Hinv].
    + split; rewrite ?Hcu, ?Hidl, ?Hi; try done; [by apply Hup|]. by rewrite Hpool, length_insert.
    + intros k Hk. destruct Ho. destruct k; simpl in *; congruence.
    + eapply (sync_frame s); [|done|apply Hinv]. intros j. by apply Hup.
    + unfold tq. rewrite Ht, Hpool. eapply (tq_ok_pool _ _ _ _ f); [|exact Et|by right].
      eapply tq_ok_rdy; [exact Hup|apply Hinv].
    + intros j Hj. by rewrite Hpool, list_lookup_insert_ne.
    + apply list_lookup_insert_eq. by eapply lookup_lt_Some.
    + by rewrite Hid.
    + by rewrite Hpri.
  - split; intros j; [by apply live_same|]. rewrite Hpool. by eapply pri_of_insert.
Qed.

(** The task leaves after its state is written, or before. *)
Lemma wp_leave (Q : unit -> kstate -> Prop) :
  (forall s', kinv0 s' (rq_drop R p c) W T -> blocked s s' c (f t) -> keeps s s' -> Q tt s') ->
  wp (upd_task c f ;;; rq_remove c) Q s.
Proof.
  intros HQ. destruct (rq_place _ _ _ _ _ _ Hinv Hc) as (t0 & Et0 & Hp & _ & Hprit & _).
  rewrite Et in Et0. injection Et0 as <-.
  apply wp_bind. eapply wp_upd_task; [exact Et|].
  eapply (wp_rq_remove _ R c (f t)).
  - apply (rq_ok_upd _ _ _ _ c t); [done|done|apply Hinv].
  - apply Hinv.
  - apply list_lookup_insert_eq. by eapply lookup_lt_Some.
  - by rewrite Hpri.
  - replace (Z.to_nat (tskpri (f t))) with p by lia.
    intros m qs bm l Hl Hup Hrq. set (s' := rq_state _ _ _ _ _) in *.
    assert (blocked s s' c (f t)) as Hbl
      by (split; try done; by apply (same_msgs_only RdyQue) in Hup).
    destruct (leave_kinv s') as [HK Hke]; try done. by apply HQ.
Qed.

Lemma wp_leave_then (Q : unit -> kstate -> Prop) :
  (forall s', kinv0 s' (rq_drop R p c) W T -> blocked s s' c (f t) -> keeps s s' -> Q tt s') ->
  wp (rq_remove c ;;; upd_task c f) Q s.
Proof.
  intros HQ. destruct (rq_place _ _ _ _ _ _ Hinv Hc) as (t0 & Et0 & Hp & _ & Hprit & _).
  rewrite Et in Et0. injection Et0 as <-.
  apply wp_bind. eapply (wp_rq_remove _ R c t); [apply Hinv|apply Hinv|exact Et|done|].
  replace (Z.to_nat (tskpri t)) with p by lia.
  intros m qs bm l Hl Hup Hrq. eapply wp_upd_task; [exact Et|].
  set (s' := set_k_task _ _). assert (blocked s s' c (f t)) as Hbl
    by (split; try done; by apply (same_msgs_only RdyQue) in Hup).
  destruct (leave_kinv s') as [HK Hke]; try done.
  - by apply (rq_ok_upd _ _ _ _ c t).
  - by apply HQ.
Qed.
End leave.

(** ** Deleting and creating tasks *)

(** A task that is in no queue. *)
Definition nowhere (R : nat -> list nat) (W : wkey -> list nat) (T : list nat) (c : nat) : Prop :=
  (forall p, c ∉ R p) /\ (forall k, c ∉ W k) /\ c ∉ T.

(** The bit of a task that is in no queue is cleared. *)
Lemma kinv0_kill s R W T c :
  kinv0 s R W T -> (c < 32)%nat -> nowhere R W T c -> ~ is_idle s c ->
  kinv0 (set_k_task (set_taskbmap (clearbit (taskbmap (k_task s)) (Z.of_nat c)) (k_task s)) s) R W T.
Proof.
  intros [Hrq Hsy Htq Hlog Hta Hpo Hpl Hd Hc] Hlt (HR & HW & HT) HI.
  pose proof (to_bmap _ Hta) as Hbm. set (s' := set_k_task _ s).
  assert (forall i, live s' i <-> i <> c /\ live s i) as HL.
  { intros i. unfold live, s'. cbn [k_task set_k_task taskbmap set_taskbmap].
    rewrite clearbit_bit by (done || lia).
    destruct (Z.eqb_spec (Z.of_nat c) (Z.of_nat i)); simpl; split.
    - by intros [_ ?].
    - intros [? _]. lia.
    - intros [? ?]. split; [lia|done].
    - tauto. }
  split; try done.
  - destruct Hta as [A B C D (d & td & E1 & E2 & E3 & E4)]. split; try done.
    + by apply clearbit_word.
    + intros i t [_ Hi]%HL. by apply C.
    + intros i nd [_ Hi]%HL. by apply D.
    + exists d, td. split_and!; try done. apply HL. split; [|done]. intros ->. done.
  - by eapply pools_ok_frame; [|exact Hpo].
  - destruct Hpl as [P1 P2 P3 P4 P5 P6]. split; try done.
    + intros p i Hi. destruct (P1 p i Hi) as ((? & ?) & ? & ?). split_and!; try done.
      apply HL. split; [|done]. intros ->. by apply (HR p).
    + intros k i Hi. destruct (P2 k i Hi) as ((? & ?) & ?). split_and!; try done.
      apply HL. split; [|done]. intros ->. by apply (HW k).
    + intros i Hi. destruct (P3 i Hi) as (? & ?). split; [|done].
      apply HL. split; [|done]. by intros ->.
    + intros i t [_ Hi]%HL. by apply P4.
    + intros i t [_ Hi]%HL. by apply P5.
Qed.

(** The nodes of a task in no queue are reset. *)
Lemma qfam_reset {K} nd `{!Inj (=) (=) nd} m m' (q : K -> queue_t) Q i :
  (forall j, j <> i -> node m' (nd j) = node m (nd j)) -> clean m' (nd i) ->
  (forall k, i ∉ Q k) -> qfam nd m q Q -> qfam nd m' q Q.
Proof.
  intros Hm Hcl Hi [Hr Ht Hd Hc]. split; try done.
  - intros k. eapply qrep_agree; [|apply Hr]. intros a (j & -> & Hj)%list_elem_of_fmap.
    rewrite Hm; [done|]. intros ->. by apply (Hi k).
  - intros k j Hj. rewrite Hm; [by eapply Ht|]. intros ->. by apply (Hi k).
  - intros j Hj. destruct (decide (j = i)) as [->|Hne]; [done|]. unfold clean. rewrite Hm by done.
    by apply Hc.
Qed.

Lemma tq_ok_reset m m' h pool T i :
  (forall j, j <> i -> node m' (SlpQue j) = node m (SlpQue j)) -> clean m' (SlpQue i) ->
  i ∉ T -> tq_ok m h pool T -> tq_ok m' h pool T.
Proof.
  intros Hm Hcl Hi [(Hh & Hnd & Hl) Ht Hp Hs Hc]. split; try done.
  - split_and!; try done. eapply linked_agree; [|done].
    intros a (j & -> & Hj)%list_elem_of_fmap. rewrite Hm; [done|]. by intros ->.
  - intros j Hj. rewrite Hm; [auto|]. by intros ->.
  - intros j Hj. destruct (decide (j = i)) as [->|Hne]; [done|]. unfold clean. rewrite Hm by done.
    by apply Hc.
Qed.

(** A free slot is in no queue. *)
Lemma free_nowhere s R W T i : kinv0 s R W T -> ~ live s i -> nowhere R W T i.
Proof.
  intros H HL. pose proof (ki_places _ _ _ _ H) as HP. split_and!.
  - intros p Hp. by destruct (pl_ready _ _ _ _ HP p i Hp) as ((? & _) & _).
  - intros k Hk. by destruct (pl_wait _ _ _ _ HP k i Hk) as ((? & _) & _).
  - intros HT. by destruct (pl_sleep _ _ _ _ HP i HT).
Qed.

(** A task is created, dormant, in a free slot. *)
Lemma kinv0_born s s' R W T i t' :
  kinv0 s R W T -> Z.of_nat i < MAX_TASKS -> ~ live s i ->
  k_sched s' = k_sched s -> k_int s' = k_int s -> same_objs s s' -> log_ok (k_log s') ->
  taskbmap (k_task s') = setbit (taskbmap (k_task s)) (Z.of_nat i) ->
  task_pool (k_task s') = <[i := t']> (task_pool (k_task s)) ->
  tskid t' = Z.of_nat i + 1 -> 0 <= tskpri t' < 32 -> tskstat t' = TTS_DMT ->
  (forall j nd, nd ∈ [RdyQue; SynQue; SlpQue] -> j <> i -> node (k_nodes s') (nd j) = node (k_nodes s) (nd j)) ->
  (forall nd, nd ∈ [RdyQue; SynQue; SlpQue] -> clean (k_nodes s') (nd i) /\
     this (node (k_nodes s') (nd i)) = Some (OTask i)) ->
  kinv0 s' R W T.
Proof.
  intros H Hlt HL Es Ei Ho Hlog Hbm Hpool Hid Hpri Hst Hn Hni.
  destruct (free_nowhere _ _ _ _ _ H HL) as (HR & HW & HT).
  pose proof H as [Hrq Hsy Htq _ Hta Hpo Hpl Hd Hc].
  pose proof (to_bmap _ Hta) as Hw. assert (MAX_TASKS = 5) as HM by done.
  assert (forall j, live s' j <-> j = i \/ live s j) as HLs.
  { intros j. unfold live. rewrite Hbm, setbit_bit by (done || lia).
    destruct (Z.eqb_spec (Z.of_nat i) (Z.of_nat j)); simpl.
    - assert (j = i) as -> by lia. tauto.
    - split; [tauto|]. intros [->|?]; [lia|tauto]. }
  assert (forall j, is_idle s' j <-> is_idle s j) as HIs by (intros; apply idle_same; by rewrite Es).
  assert (~ is_idle s i) as HIi.
  { intros Hi. destruct (to_idle _ Hta) as (d & td & Hd' & HLd & _). unfold is_idle in *.
    rewrite Hi in Hd'. by injection Hd' as <-. }
  assert (forall j, j <> i -> task_pool (k_task s') !! j = task_pool (k_task s) !! j) as Hpj.
  { intros j Hj. by rewrite Hpool, list_lookup_insert_ne. }
  assert (task_pool (k_task s') !! i = Some t') as Epi.
  { rewrite Hpool. apply list_lookup_insert_eq. pose proof (to_len _ Hta). lia. }
  split; try done.
  - destruct Hrq as [A B C D E F]. split; rewrite ?Es; try done.
    + eapply (qfam_reset RdyQue (k_nodes s)); [|apply Hni; left|done|exact B].
      intros j Hj. apply Hn; [left|done].
    + intros p j Hj. rewrite Hpj; [eauto|]. intros ->. by apply (HR p).
  - assert (forall k, waitq s' k = waitq s k) as Hwq by (intros []; simpl; destruct Ho; congruence).
    eapply (qfam_frame SynQue (k_nodes s')); [done|exact Hwq|].
    eapply (qfam_reset SynQue (k_nodes s)); [|apply Hni; right; left|done|exact Hsy].
    intros j Hj. apply Hn; [right; left|done].
  - unfold tq. rewrite Es. eapply tq_ok_ext; [| |eapply (tq_ok_reset (k_nodes s))].
    + by rewrite Hpool, length_insert.
    + intros j Hj. unfold wup_of. rewrite Hpj; [done|]. by intros ->.
    + intros j Hj. apply Hn; [right; right; left|done].
    + apply Hni; right; right; left.
    + done.
    + exact Htq.
  - destruct Hta as [A B C D (d & td & E1 & E2 & E3 & E4)]. split.
    + by rewrite Hpool, length_insert.
    + rewrite Hbm. by apply setbit_word.
    + intros j t HLj Et. destruct (decide (j = i)) as [->|Hne].
      * rewrite Epi in Et. by injection Et as <-.
      * rewrite Hpj in Et by done. apply HLs in HLj as [|]; [done|]. by apply C.
    + intros j nd HLj HIj Hnd. destruct (decide (j = i)) as [->|Hne]; [by apply Hni|].
      rewrite Hn by done. rewrite HIs in HIj. apply HLs in HLj as [|]; [done|]. by apply D.
    + exists d, td. rewrite HIs, HLs, Hpj by (by intros ->). tauto.
  - by eapply pools_ok_frame.
  - destruct Hpl as [P1 P2 P3 P4 P5 P6]. split.
    + intros p j Hj. rewrite HLs, HIs. destruct (P1 p j Hj) as ((? & ?) & ? & ?). tauto.
    + intros k j Hj. rewrite HLs, HIs. destruct (P2 k j Hj) as ((? & ?) & ?). tauto.
    + intros j Hj. rewrite HLs, HIs. destruct (P3 j Hj) as (? & ?). tauto.
    + intros j t HLj HIj Et Hs. destruct (decide (j = i)) as [->|Hne].
      * rewrite Epi in Et. injection Et as <-. rewrite Hst in Hs. by destruct Hs.
      * rewrite Hpj in Et by done. rewrite HIs in HIj. apply HLs in HLj as [|]; [done|]. by eapply P4.
    + intros j t HLj HIj Et Hs. destruct (decide (j = i)) as [->|Hne]; [done|].
      rewrite Hpj in Et by done. rewrite HIs in HIj. apply HLs in HLj as [|]; [done|]. by eapply P5.
    + intros k j Hj. pose proof (P6 k j Hj). destruct Ho. destruct k; simpl in *; congruence.
  - by rewrite Ei, Es.
  - destruct Hc as (c & Ec & Hcp). exists c. rewrite Es. split; [done|].
    apply lookup_lt_is_Some_2. rewrite Hpool, length_insert. by apply lookup_lt_is_Some_1.
Qed.
