(* ===== verification/Blind.v ===== *)
(** * Code that does not look at the switch of the dispatcher

    Between [dis_dsp] and [ena_dsp], and before the first [ena_dsp] of start-up,
    the switch [dispatching] is off. What is proved of a routine with the switch on
    holds with the switch off as long as the routine does not read the switch. *)

From Stdlib Require Import ZArith Lia.
From stdpp Require Import base tactics gmap option functions countable list.
From S2P Require Import Prelude Bits Queue Qfam Mem Kstate Tlsf Syslog Sched Timeout Dispatch Kinv.

Open Scope Z_scope.
Open Scope kernel_scope.

Definition dsp (v : Z) (s : kstate) : kstate := set_k_sched (set_dispatching v (k_sched s)) s.

Definition blind {A} (m : KM A) : Prop := forall v s a s', m s = Some (a, s') -> m (dsp v s) = Some (a, dsp v s').

Lemma dsp_same s : dsp (dispatching (k_sched s)) s = s.
Proof. by destruct s as [? ? ? [] ? ? ? ? ? ? ? ?]. Qed.

Lemma dsp_dsp v w s : dsp v (dsp w s) = dsp v s.
Proof. done. Qed.

(** Blind code leaves the switch alone. *)
Lemma blind_switch {A} (m : KM A) s a s' : blind m -> m s = Some (a, s') -> dispatching (k_sched s') = dispatching (k_sched s).
Proof.
  intros Hm E. pose proof (Hm (dispatching (k_sched s)) s a s' E) as E'. rewrite dsp_same, E in E'. injection E' as E'.
  rewrite E'. done.
Qed.

Lemma wlp_blind {A} (m : KM A) v (Q : A -> kstate -> Prop) s :
  blind m -> wlp m Q (dsp v s) -> wlp m (fun a s' => Q a (dsp v s') /\ dispatching (k_sched s') = dispatching (k_sched s)) s.
Proof.
  intros Hb H. unfold wlp in *. destruct (m s) as [[a s']|] eqn:E; [|done]. rewrite (Hb v _ _ _ E) in H.
  split; [done|]. by eapply blind_switch.
Qed.

Lemma wp_blind {A} (m : KM A) v (Q : A -> kstate -> Prop) s :
  blind m -> wp m (fun a s' => Q a (dsp v s')) s -> wp m Q (dsp v s).
Proof. intros Hb H. unfold wp in *. destruct (m s) as [[a s']|] eqn:E; [|done]. by rewrite (Hb v _ _ _ E). Qed.

(** ** Routines *)

Lemma blind_ret {A} (a : A) : blind (ret a).
Proof. by intros v s b s' [= <- <-]. Qed.

Lemma blind_fault {A} : blind (fault (A := A)).
Proof. by intros ????. Qed.

Lemma blind_bind {A B} (m : KM A) (k : A -> KM B) : blind m -> (forall a, blind (k a)) -> blind (bind m k).
Proof.
  intros Hm Hk v s b s'. unfold bind. destruct (m s) as [[a s1]|] eqn:E; [|done]. rewrite (Hm v _ _ _ E). apply Hk.
Qed.

Lemma blind_gets {A} (f : kstate -> A) : (forall v s, f (dsp v s) = f s) -> blind (gets f).
Proof. intros Hf v s a s' [= <- <-]. unfold gets. by rewrite Hf. Qed.

Lemma blind_modify (f : kstate -> kstate) : (forall v s, f (dsp v s) = dsp v (f s)) -> blind (modify f).
Proof. intros Hf v s a s' [= <- <-]. unfold modify. by rewrite Hf. Qed.

Lemma blind_kmem {A} (m : M (gmap Z Z) A) : blind (kmem m).
Proof. intros v s a s'. unfold kmem, zoom. cbn. destruct (m (k_mem s)) as [[? ?]|]; [|done]. by intros [= <- <-]. Qed.

Lemma blind_ktlsf {A} (m : TM A) : blind (ktlsf m).
Proof. intros v s a s'. unfold ktlsf, zoom. cbn. destruct (m _) as [[? ?]|]; [|done]. by intros [= <- <-]. Qed.

Lemma blind_deref {A} (o : option A) : blind (deref o).
Proof. destruct o; [apply blind_ret|by intros ????]. Qed.

Lemma blind_cli : blind hw_cli.
Proof. by intros v s a s' [= <- <-]. Qed.

Lemma blind_sti : blind hw_sti.
Proof. by intros v s a s' [= <- <-]. Qed.

Lemma blind_log ev a1 a2 : blind (write_log ev a1 a2).
Proof. intros v s a s'. unfold write_log. cbn. case_match; [|done]. by intros [= <- <-]. Qed.

Lemma blind_upd_nodes f : blind (upd_nodes f).
Proof. by intros v s a s' [= <- <-]. Qed.

Lemma blind_get_task i : blind (get_task i).
Proof. intros v s a s'. unfold get_task. cbn. case_match; [|done]. by intros [= <- <-]. Qed.

Lemma blind_upd_task i f : blind (upd_task i f).
Proof. intros v s a s'. unfold upd_task. cbn. case_match; [|done]. by intros [= <- <-]. Qed.

Lemma blind_upd_task_mod f : blind (upd_task_mod f).
Proof. by intros v s a s' [= <- <-]. Qed.

Lemma blind_task_ptr o : blind (task_ptr o).
Proof. destruct o as [[]|]; try apply blind_ret; by intros ????. Qed.

Create HintDb blind.
#[export] Hint Resolve blind_ret blind_fault blind_kmem blind_ktlsf blind_deref blind_cli blind_sti blind_log
  blind_upd_nodes blind_get_task blind_upd_task blind_upd_task_mod blind_task_ptr : blind.
#[export] Hint Extern 1 (blind (gets _)) => by apply blind_gets : blind.

Ltac blind_steps := repeat first [apply blind_bind; [auto with blind|intros ?] | case_match]; auto with blind.

Lemma blind_get_prioqueue p : blind (get_prioqueue p).
Proof. intros v s a s'. unfold get_prioqueue. cbn. repeat case_match; try done. by intros [= <- <-]. Qed.

Lemma blind_put_prioqueue p q : blind (put_prioqueue p q).
Proof. by intros v s a s' [= <- <-]. Qed.

Lemma blind_set_prio p : blind (upd_sched (fun r => set_priobmap (setbit (priobmap r) p) r)).
Proof. by intros v s a s' [= <- <-]. Qed.

#[export] Hint Resolve blind_get_prioqueue blind_put_prioqueue blind_set_prio : blind.

Lemma blind_rq_insert i : blind (rq_insert i).
Proof. unfold rq_insert. blind_steps. Qed.

#[export] Hint Resolve blind_rq_insert : blind.

(** The scheduler with the switch off. *)
Lemma scheduler_off s : dispatching (k_sched s) = FALSE -> int_nest_count (k_int s) <= 0 ->
  scheduler s = Some (tt, sti_state (cli_state s)).
Proof.
  intros Hd Hn. unfold scheduler, bind at 1, gets. destruct (Z.gtb_spec (int_nest_count (k_int s)) 0); [lia|].
  unfold bind, hw_cli, upd_int, modify. cbn. rewrite Hd. done.
Qed.
