(* ===== verification/Ktime.v ===== *)
(** * System time: time.c, and the timer interrupt

    The core timer interrupt of entry.S ([_evt_timer]) calls [evt_tmr_isr] and
    then the scheduler. Programming the timer registers ([init_core_timer]) has
    no effect on the state of the kernel. *)

From Stdlib Require Import ZArith Lia Sorting.Sorted.
From stdpp Require Import base tactics gmap option functions countable list.
From S2P Require Import Prelude Bits Queue Qfam Mem Kstate Syslog Sched Timeout Dispatch Kinv.

Open Scope Z_scope.
Open Scope kernel_scope.

Definition CPU_USAGE_TIME_SLOT : Z := 500.

Definition evt_tmr_isr : KM unit :=
  upd_time (fun r => set_system_time (i64 (system_time r + 1)) r) ;;;
  let* now := get_system_time in
  when (now =? CPU_USAGE_TIME_SLOT) (upd_time (set_tot_idle 0)) ;;;
  tq_wakeup.

(** [_evt_timer] *)
Definition evt_timer : KM unit := evt_tmr_isr ;;; scheduler.

(** The 64-bit time is stored as two words, the low one first. *)
Definition get_tim_sys (pk_tim : Z) : KM sysres :=
  if negb (nz pk_tim) then ret (Done E_PAR) else
  if nz (Z.land pk_tim 0x3) then ret (Done E_PAR) else
  hw_cli ;;;
  let* t := get_system_time in
  kmem (store pk_tim (u32 t)) ;;;
  kmem (store (pk_tim + 4) (u32 (Z.shiftr t 32))) ;;;
  hw_sti ;;;
  ret (Done E_OK).

Definition init_time : KM unit := upd_time (set_system_time 0).

(** ** The invariant after the timer interrupt *)

Lemma elem_of_rq_append_all_iff pool R l p j :
  j ∈ foldl (rq_append pool) R l p <-> j ∈ R p \/ (j ∈ l /\ p = pri_of pool j).
Proof.
  revert R. induction l as [|i l IH]; intros R; simpl.
  - split; [by left|]. intros [?|[Hj _]]; [done|]. by apply not_elem_of_nil in Hj.
  - rewrite IH, elem_of_rq_append, elem_of_cons. naive_solver.
Qed.

Lemma kinv0_woken s s' R W T E T' : kinv0 s R W T -> T = E ++ T' -> woken s s' R E T' ->
  kinv0 s' (foldl (rq_append (task_pool (k_task s))) R E) W T'.
Proof.
  intros H ET [Hf [Hn Hth] Hl Hrq Htq Hp].
  pose proof H as [_ Hsy Htq0 _ Hta Hpo Hpl Hd Hc]. pose proof Hf as [_ Fb Fl Fc Fi Fd Fn Ft Fse Ffl Fmb Fmp _].
  assert (NoDup T) as Hnd by (destruct (tq_rep _ _ _ _ Htq0) as (_ & ? & _); by eapply NoDup_fmap_1).
  rewrite ET in Hnd. apply NoDup_app in Hnd as (_ & Hdis & _).
  assert (forall i, live s' i <-> live s i) as HLs by (intros; by apply live_same).
  assert (forall i, is_idle s' i <-> is_idle s i) as HIs by (intros; by apply idle_same).
  assert (forall i t', task_pool (k_task s') !! i = Some t' -> exists t, task_pool (k_task s) !! i = Some t /\
    tskid t' = tskid t /\ tskpri t' = tskpri t /\ tskstat t' = tskstat t) as Hpool.
  { intros i t'. rewrite Hp, timed_out_lookup. case_decide; [|by intros; exists t'].
    intros (t & Et & ->)%fmap_Some. by exists t. }
  split; try done.
  - eapply (sync_frame s); [|by split|exact Hsy]. intros i. by apply Hn.
  - destruct Hta as [A B C D (d & td & E1 & E2 & E3 & E4)]. split.
    + by rewrite Fl.
    + by rewrite Fb.
    + intros i t' HL Et'. rewrite HLs in HL. destruct (Hpool i t' Et') as (t & Et & -> & -> & _). by apply C.
    + intros i nd HL HI Hnd. rewrite Hth. rewrite HLs in HL. rewrite HIs in HI. by apply D.
    + destruct (lookup_lt_is_Some_2 (task_pool (k_task s')) d) as [t' Et'].
      { rewrite Fl. by eapply lookup_lt_Some. }
      exists d, t'. rewrite HIs, HLs. split_and!; try done.
      destruct (Hpool d t' Et') as (t & Et & _ & _ & ->). rewrite E3 in Et. by injection Et as <-.
  - apply (pools_ok_frame s); [by split|done].
  - destruct Hpl as [P1 P2 P3 P4 P5 P6]. split.
    + intros p i Hi. rewrite HLs, HIs. apply elem_of_rq_append_all_iff in Hi as [Hi|[Hi _]].
      * destruct (P1 p i Hi) as (? & Ht & ?). split_and!; try tauto. rewrite ET in Ht. set_solver.
      * assert (i ∈ T) as Ht by (rewrite ET; set_solver). split_and!; [by apply P3..|by apply Hdis|].
        intros k Hk. by destruct (P2 k i Hk) as (_ & ?).
    + intros k i Hi. rewrite HLs, HIs. destruct (P2 k i Hi) as (? & Ht). split; [done|]. rewrite ET in Ht. set_solver.
    + intros i Hi. rewrite HLs, HIs. apply P3. rewrite ET. set_solver.
    + intros i t' HL HI Et' Hs. rewrite HLs in HL. rewrite HIs in HI.
      destruct (Hpool i t' Et') as (t & Et & _ & _ & Es). rewrite Es in Hs.
      destruct (P4 i t HL HI Et Hs) as [p Hi]. exists p. by apply elem_of_rq_append_all.
    + intros i t' HL HI Et' Hs. rewrite HLs in HL. rewrite HIs in HI.
      destruct (Hpool i t' Et') as (t & Et & _ & _ & Es). rewrite Es in Hs.
      destruct (P5 i t HL HI Et Hs) as (Q1 & Q2 & Q3). rewrite ET in Q2. split_and!; [|set_solver|done].
      intros p [Hi|[Hi _]]%elem_of_rq_append_all_iff; [by apply (Q1 p)|]. set_solver.
    + intros k i Hi. pose proof (P6 k i Hi). destruct k; simpl in *; congruence.
  - by rewrite Fn, Fd.
  - destruct Hc as (c & Ec & Hc). exists c. rewrite Fc. split; [done|].
    apply lookup_lt_is_Some_2. rewrite Fl. by apply lookup_lt_is_Some_1.
Qed.

Lemma kinv0_time s R W T t : kinv0 s R W T -> kinv0 (set_k_time t s) R W T.
Proof.
  intros H. eapply kinv0_frame; [exact H|by split|by split|exact (pool_step_refl s R)|apply H|apply H].
Qed.

Lemma wup_of_switch pool c new i : wup_of (pool_switch pool c new) i = wup_of pool i.
Proof.
  unfold wup_of. rewrite pool_switch_lookup. destruct (pool !! i) as [t|]; [|done]. cbn.
  repeat case_decide; try case_match; by destruct t.
Qed.

(** A tick: the time advances, the tasks whose time has come become ready, in
    the order of their wake-up times, and the scheduler chooses. *)
Lemma wp_evt_timer s R W T (Q : unit -> kstate -> Prop) :
  kinv0 s R W T ->
  (forall s', let pool := task_pool (k_task s) in let now := u64 (i64 (system_time (k_time s) + 1)) in
     kinv s' (foldl (rq_append pool) R (tq_expired pool now T)) W (tq_asleep pool now T) ->
     scheduled s' (foldl (rq_append pool) R (tq_expired pool now T)) ->
     system_time (k_time s') = i64 (system_time (k_time s) + 1) ->
     imask (k_int s') = imask (k_int s) -> keeps s s' ->
     (forall i, wup_of (task_pool (k_task s')) i = wup_of pool i) -> Q tt s') ->
  wp evt_timer Q s.
Proof.
  intros H HQ. unfold evt_timer, evt_tmr_isr. apply wp_bind, wp_bind, wp_modify, wp_bind, wp_gets, wp_bind.
  set (t1 := set_system_time _ (k_time s)).
  assert (forall Q : unit -> kstate -> Prop,
    (forall t2, system_time t2 = system_time t1 -> Q tt (set_k_time t2 s)) ->
    wp (when (system_time (k_time (set_k_time t1 s)) =? CPU_USAGE_TIME_SLOT) (upd_time (set_tot_idle 0))) Q
      (set_k_time t1 s)) as Hw.
  { intros Q' HQ'. unfold when. case_match; [by apply wp_modify, HQ'|by apply wp_ret, HQ']. }
  apply Hw. clear Hw. intros t2 Et2. pose proof (kinv0_time s R W T t2 H) as H2.
  eapply (wp_tq_wakeup (set_k_time t2 s)); [apply H2|apply H2|apply H2| |].
  { intros i Hi. destruct (pl_sleep _ _ _ _ (ki_places _ _ _ _ H) i Hi) as [HL HI].
    apply (kinv_wakeable _ _ W T); [done|done|done|]. intros p Hp.
    by destruct (pl_ready _ _ _ _ (ki_places _ _ _ _ H) p i Hp) as (_ & ? & _). }
  intros s1 Hwk. cbn [k_time set_k_time k_task] in Hwk. rewrite Et2 in Hwk.
  pose proof (kinv0_woken _ s1 R W T _ _ H2 (eq_sym (tq_expired_asleep _ _ T)) Hwk) as H1.
  eapply wp_scheduler_kinv; [exact H1|]. intros s' c d Hk Hs Hd _ _.
  destruct Hwk as [Hf _ _ _ _ Hp]. pose proof (dp_frame _ _ _ _ Hd) as Hd'. apply HQ; [exact Hk|exact Hs| | | |].
  - rewrite (sf_time _ _ Hd'), (kf_time _ _ Hf). exact Et2.
  - by rewrite (sf_imask _ _ Hd'), (kf_int _ _ Hf).
  - etrans; [|by eapply dispatched_keeps]. split; intros j; [apply live_same, Hf|].
    rewrite Hp. unfold pri_of. rewrite timed_out_lookup. case_decide; [|done]. cbn. by destruct (task_pool (k_task s) !! j).
  - intros i. rewrite (dp_pool _ _ _ _ Hd), wup_of_switch, Hp. apply wup_of_timed_out.
Qed.

(** ** Sleeping tasks wake up *)

(** In a sorted queue the expired tasks are those whose time has come. *)
Lemma elem_of_tq_expired pool now T i : StronglySorted (fun i j => wup_of pool i <= wup_of pool j) T ->
  i ∈ tq_expired pool now T <-> i ∈ T /\ wup_of pool i <= now.
Proof.
  induction 1 as [|j T _ IH Hj]; simpl; [set_solver|]. rewrite Forall_forall in Hj.
  destruct (Z.leb_spec (wup_of pool j) now) as [Hn|Hn].
  - rewrite !elem_of_cons, IH. naive_solver.
  - split; [set_solver|]. intros [[->|Hi]%elem_of_cons Hw]; [lia|]. specialize (Hj i Hi). lia.
Qed.

Lemma elem_of_tq_asleep pool now T i : StronglySorted (fun i j => wup_of pool i <= wup_of pool j) T ->
  i ∈ tq_asleep pool now T <-> i ∈ T /\ now < wup_of pool i.
Proof.
  induction 1 as [|j T _ IH Hj]; simpl; [set_solver|]. rewrite Forall_forall in Hj.
  destruct (Z.leb_spec (wup_of pool j) now) as [Hn|Hn].
  - rewrite elem_of_cons, IH. split; [naive_solver|]. intros [[->|?] ?]; [lia|done].
  - split; [|naive_solver]. intros Hi. split; [done|]. apply elem_of_cons in Hi as [->|Hi]; [done|].
    specialize (Hj i Hi). lia.
Qed.

(** [n] timer interrupts with no system call between them. *)
Fixpoint ticks (n : nat) : KM unit :=
  match n with
  | O => ret tt
  | S n => evt_timer ;;; ticks n
  end.

(** A ready task stays ready. *)
Lemma wp_ticks_ready n s R W T i p : kinv s R W T -> i ∈ R p ->
  wp (ticks n) (fun _ s' => exists R' T', kinv s' R' W T' /\ i ∈ R' p) s.
Proof.
  revert s R T. induction n as [|n IH]; intros s R T Hk Hi; [apply wp_ret; eauto|].
  apply wp_bind. eapply wp_evt_timer; [apply Hk|]. intros s' pool now Hk' _ _ _ _ _.
  eapply IH; [exact Hk'|]. apply elem_of_rq_append_all_iff. by left.
Qed.

(** A task that sleeps until [w] is asleep before and ready from then on. *)
Lemma wp_ticks_sleep n s R W T i w :
  kinv s R W T -> i ∈ T -> wup_of (task_pool (k_task s)) i = w ->
  0 <= system_time (k_time s) < w -> w < 2 ^ 63 ->
  wp (ticks n) (fun _ s' => exists R' T', kinv s' R' W T' /\
    if system_time (k_time s) + Z.of_nat n <? w then i ∈ T'
    else i ∈ R' (pri_of (task_pool (k_task s)) i)) s.
Proof.
  revert s R T. induction n as [|n IH]; intros s R T Hk Hi Hw Ht Hmax.
  { apply wp_ret. exists R, T. split; [done|]. destruct (Z.ltb_spec (system_time (k_time s) + Z.of_nat 0) w); [done|lia]. }
  pose proof (tq_sorted _ _ _ _ (ki_tq _ _ _ _ (proj1 Hk))) as Hs.
  apply wp_bind. eapply wp_evt_timer; [apply Hk|]. intros s' pool now Hk' _ Ht' _ Hke Hwu.
  rewrite i64_small in Ht' by lia. assert (now = system_time (k_time s) + 1) as En.
  { unfold now. rewrite i64_small, u64_small; lia. }
  destruct (Z.leb_spec w now) as [Hn|Hn].
  - eapply wp_mono; [eapply (wp_ticks_ready n s' _ W _ i); [exact Hk'|]|].
    { apply elem_of_rq_append_all_iff. right. split; [|done]. apply elem_of_tq_expired; [done|]. fold pool in Hw. split; [done|lia]. }
    intros _ s2 (R' & T' & HK & HR). exists R', T'. split; [done|].
    destruct (Z.ltb_spec (system_time (k_time s) + Z.of_nat (S n)) w); [lia|done].
  - eapply wp_mono; [eapply IH; [exact Hk'| | |lia|done]|].
    + apply elem_of_tq_asleep; [done|]. fold pool in Hw. split; [done|lia].
    + by rewrite (Hwu i).
    + intros _ s2 (R' & T' & HK & HR). exists R', T'. split; [done|].
      rewrite Ht', (proj2 Hke) in HR.
      replace (system_time (k_time s) + 1 + Z.of_nat n) with (system_time (k_time s) + Z.of_nat (S n)) in HR by lia. done.
Qed.
