(* ===== verification/Waitobj.v ===== *)
(** * Objects that tasks wait for

    Semaphores, eventflags, mailboxes and fixed-size memory pools are arrays of
    structures with a queue of waiting tasks. [WaitPool] is the interface of
    such an array; the statements that enqueue, extract, remove, wake and block
    tasks are verified once, against the interface. *)

From Stdlib Require Import ZArith Lia.
From stdpp Require Import base tactics gmap option functions countable list.
From S2P Require Import Prelude Bits Queue Qfam Mem Kstate Syslog Sched Timeout Dispatch Kinv.

Open Scope Z_scope.
Open Scope kernel_scope.

(** ** The interface *)

(** An array of objects: where it is, its bitmap, its size, and the wait queue
    of an element. *)
Class WaitPool (X : Type) := {
  w_max : Z;
  w_bmap : kstate -> Z;
  w_set_bmap : Z -> kstate -> kstate;
  w_pool : kstate -> list X;
  w_set_pool : list X -> kstate -> kstate;
  w_que : X -> queue_t;
  w_set_que : queue_t -> X -> X;
  w_key : nat -> wkey
}.

(** What a write to the array leaves alone. *)
Record same_rest (s s' : kstate) : Prop := {
  sr_nodes : k_nodes s' = k_nodes s;
  sr_task : k_task s' = k_task s;
  sr_sched : k_sched s' = k_sched s;
  sr_int : k_int s' = k_int s;
  sr_mem : k_mem s' = k_mem s;
  sr_time : k_time s' = k_time s;
  sr_log : k_log s' = k_log s
}.

Class WaitPoolOk (X : Type) `{!WaitPool X} : Prop := {
  w_pool_set : forall l s, w_pool (w_set_pool l s) = l;
  w_pool_id : forall s, w_set_pool (w_pool s) s = s;
  w_pool_objs : forall s s', same_objs s s' -> w_pool s' = w_pool s;
  w_set_objs : forall l s s', same_objs s s' -> same_objs (w_set_pool l s) (w_set_pool l s');
  w_set_set : forall l l' s, w_set_pool l (w_set_pool l' s) = w_set_pool l s;
  w_que_set : forall q x, w_que (w_set_que q x) = q;
  w_que_id : forall x, w_set_que (w_que x) x = x;
  w_que_set2 : forall q q' x, w_set_que q (w_set_que q' x) = w_set_que q x;
  w_waitq : forall s i, waitq s (w_key i) = default null_queue (w_que <$> w_pool s !! i);
  w_key_inj : Inj (=) (=) w_key;
  w_other : forall l s k, (forall i, k <> w_key i) -> waitq (w_set_pool l s) k = waitq s k;
  w_key_dec : forall k, (exists i, k = w_key i) \/ forall i, k <> w_key i;
  w_rest : forall l s, same_rest s (w_set_pool l s);
  w_pools_ok : forall l s, length l = length (w_pool s) -> pools_ok s -> pools_ok (w_set_pool l s);
  w_open : forall l s k, open_obj (w_set_pool l s) k <-> open_obj s k;
  w_max_word : 0 < w_max <= 32;
  w_len : forall s, pools_ok s -> Z.of_nat (length (w_pool s)) = w_max;
  w_word : forall s, pools_ok s -> word32 (w_bmap s);
  w_bit : forall s i, open_obj s (w_key i) <-> Z.testbit (w_bmap s) (Z.of_nat i) = true;
  w_bmap_rest : forall b s, same_rest s (w_set_bmap b s);
  w_bmap_objs : forall s s', same_objs s s' -> w_bmap s' = w_bmap s;
  w_bmap_set : forall b s, w_bmap (w_set_bmap b s) = b;
  w_bmap_waitq : forall b s k, waitq (w_set_bmap b s) k = waitq s k;
  w_bmap_ok : forall b s, word32 b -> pools_ok s -> pools_ok (w_set_bmap b s);
  w_bmap_other : forall b s k, (forall i, k <> w_key i) -> open_obj (w_set_bmap b s) k <-> open_obj s k
}.

(** ** The statements *)

Section statements.
Context {X : Type} `{!WaitPool X}.

(** [pool[i]]: an index out of the array faults. *)
Definition get_obj (i : nat) : KM X :=
  fun s => match w_pool s !! i with Some x => Some (x, s) | None => None end.

Definition upd_obj (i : nat) (f : X -> X) : KM unit :=
  fun s => match w_pool s !! i with
           | Some x => Some (tt, w_set_pool (<[i := f x]> (w_pool s)) s)
           | None => None
           end.

(** [queue_extract(&obj->que)] *)
Definition q_extract (i : nat) : KM (option nat) :=
  let* x := get_obj i in
  let* m := gets k_nodes in
  let* '(o, m, q) := ret (queue_extract m (w_que x)) in
  upd_nodes (fun _ => m) ;;;
  upd_obj i (w_set_que q) ;;;
  task_ptr o.

(** [queue_insert(&obj->que, &tsk->synque)] *)
Definition q_enqueue (i tsk : nat) : KM unit :=
  let* x := get_obj i in
  let* m := gets k_nodes in
  let* '(m, q) := ret (queue_insert m (w_que x) (SynQue tsk)) in
  upd_nodes (fun _ => m) ;;;
  upd_obj i (w_set_que q).

(** [queue_remove(&obj->que, &tsk->synque)] *)
Definition q_remove (i tsk : nat) : KM unit :=
  let* x := get_obj i in
  let* m := gets k_nodes in
  let* '(m, q) := ret (queue_remove m (w_que x) (SynQue tsk)) in
  upd_nodes (fun _ => m) ;;;
  upd_obj i (w_set_que q).

(** [queue_is_empty(&obj->que)] *)
Definition q_is_empty (i : nat) : KM bool :=
  let* x := get_obj i in ret (queue_is_empty (w_que x)).

(** [while (tsk=queue_extract(&obj->que)) { body }] *)
Fixpoint q_drain (fuel : nat) (i : nat) (body : nat -> KM unit) : KM unit :=
  match fuel with
  | O => fault
  | S fuel =>
      let* o := q_extract i in
      match o with
      | None => ret tt
      | Some tsk => body tsk ;;; q_drain fuel i body
      end
  end.
End statements.

(** ** The queue statements *)

#[export] Instance same_objs_refl : Reflexive same_objs.
Proof. by intros s. Qed.

#[export] Instance same_objs_trans : Transitive same_objs.
Proof. intros s1 s2 s3 [A B C D] [E F G H]. split; congruence. Qed.

Lemma open_log s l k : open_obj s k -> open_obj (set_k_log l s) k.
Proof. by destruct k. Qed.

(** Linking the [actlst] node of an object changes no node of a task. *)
Lemma activate_nodes m h p o :
  (forall j, p <> RdyQue j /\ p <> SynQue j /\ p <> SlpQue j) ->
  (forall a, h = Some a -> forall j, a <> RdyQue j /\ a <> SynQue j /\ a <> SlpQue j) ->
  (insert_linked_list (set_this p o (<[p := null_node]> m)) h p).2 = Some p /\
  task_nodes m (insert_linked_list (set_this p o (<[p := null_node]> m)) h p).1.
Proof.
  intros Hp Hh. split; [apply insert_linked_list_head|]. intros j nd Hnd.
  assert (nd j <> p /\ forall a, h = Some a -> nd j <> a) as [Hne Hna].
  { destruct (Hp j) as (? & ? & ?).
    apply task_kinds in Hnd as [->|[->| ->]]; split; try done; intros a Ea; by destruct (Hh a Ea j) as (? & ? & ?). }
  rewrite insert_linked_list_other.
  - unfold set_this. rewrite !node_insert, !decide_False by done. done.
  - done.
  - intros E. by apply (Hna (nd j)).
Qed.

(** The tasks [l] have been changed by [f], the others not. *)
Definition told (f : task_t -> task_t) (pool pool' : list task_t) (l : list nat) : Prop :=
  forall j, pool' !! j = (fun t => if decide (j ∈ l) then f t else t) <$> pool !! j.

Lemma told_nil f pool : told f pool pool [].
Proof. intros j. by destruct (pool !! j). Qed.

Lemma told_cons f pool c t pool' l : pool !! c = Some t -> c ∉ l ->
  told f (<[c := f t]> pool) pool' l -> told f pool pool' (c :: l).
Proof.
  intros Et Hc H j. rewrite H. destruct (decide (j = c)) as [->|Hne].
  - rewrite list_lookup_insert_eq, Et by (by eapply lookup_lt_Some). simpl.
    rewrite (decide_True (P := c ∈ c :: l)) by left. by rewrite decide_False.
  - rewrite list_lookup_insert_ne by done. destruct (pool !! j); simpl; [|done].
    repeat case_decide; set_solver.
Qed.

(** [body] makes a task that has left a wait queue ready, and changes it by [f]. *)
Definition wakes (body : nat -> KM unit) (f : task_t -> task_t) : Prop :=
  forall s s1 R W T c t k l (Q : unit -> kstate -> Prop),
    kinv0 s R W T -> enqueued s s1 -> dequeues W k c l -> sync s1 (<[k := l]> W) ->
    task_pool (k_task s) !! c = Some t ->
    (forall s', kinv0 s' (rq_append (task_pool (k_task s)) R c) (<[k := l]> W) T ->
       woke s1 s' c (f t) -> keeps s s' -> Q tt s') ->
    wp (body c) Q s1.

(** A waiting task is not dormant. *)
Lemma waiting_stat s R W T k c t : kinv0 s R W T -> c ∈ W k -> task_pool (k_task s) !! c = Some t ->
  tskstat t <> TTS_DMT.
Proof.
  intros H Hc Et Hd. destruct (pl_wait _ _ _ _ (ki_places _ _ _ _ H) k c Hc) as [[HL HI] _].
  destruct (pl_dmt _ _ _ _ (ki_places _ _ _ _ H) c t HL HI Et Hd) as (_ & _ & Hn). by apply (Hn k).
Qed.

Lemma waiting_task s R W T k c : kinv0 s R W T -> c ∈ W k ->
  live s c /\ exists t, task_pool (k_task s) !! c = Some t.
Proof.
  intros H Hc. destruct (pl_wait _ _ _ _ (ki_places _ _ _ _ H) k c Hc) as [[HL _] _].
  split; [done|]. by apply live_pool; [apply H|].
Qed.

(** Fields of a task that the queues and the invariant do not read. *)
Definition inert (f : task_t -> task_t) : Prop := forall t,
  tskid (f t) = tskid t /\ tskpri (f t) = tskpri t /\ wuptim (f t) = wuptim t.

(** The forms of the body in the sources. *)
Lemma wakes_rdy f : inert f -> (forall t, tskstat (f t) = TTS_RDY) ->
  wakes (fun c => upd_task c f ;;; rq_insert c) f.
Proof.
  intros Hf Hs s s1 R W T c t k l Q H He Hd Hsy Et HQ. destruct (Hf t) as (F1 & F2 & F3).
  eapply (wp_wake s s1 R W T c t k l f); try done. by rewrite Hs.
Qed.

Lemma wakes_then f : inert f -> (forall t, tskstat (f t) = tskstat t) ->
  wakes (fun c => rq_insert c ;;; upd_task c f) f.
Proof.
  intros Hf Hs s s1 R W T c t k l Q H He Hd Hsy Et HQ. destruct (Hf t) as (F1 & F2 & F3).
  eapply (wp_wake_then s s1 R W T c t k l f); try done. rewrite Hs.
  apply (waiting_stat s R W T k c t); [done|exact (proj1 Hd)|done].
Qed.

Lemma wakes_rdy_then f g : inert f -> (forall t, tskstat (f t) = TTS_RDY) ->
  inert g -> (forall t, tskstat (g t) = tskstat t) ->
  wakes (fun c => upd_task c f ;;; rq_insert c ;;; upd_task c g) (fun t => g (f t)).
Proof.
  intros Hf Hs Hg Hsg s s1 R W T c t k l Q H He Hd Hsy Et HQ.
  pose proof (wakes_rdy f Hf Hs s s1 R W T c t k l) as Hw. destruct (Hg (f t)) as (G1 & G2 & G3).
  apply wp_seq. apply Hw; try done. intros s' H' Hwo Hke. pose proof (wo_pool _ _ _ _ Hwo) as Ep.
  assert (task_pool (k_task s') !! c = Some (f t)) as Ec.
  { rewrite Ep, (eq_task _ _ He). apply list_lookup_insert_eq. by eapply lookup_lt_Some. }
  eapply wp_upd_task; [exact Ec|]. apply HQ.
  - by apply (kinv0_upd_task s').
  - destruct Hwo as [Ho Hi Hm Hc Hdl Hp]. split; simpl; try done; [by destruct Ho|].
    by rewrite Hp, list_insert_insert_eq.
  - destruct Hke as [HL HP]. split; intros j; [apply HL|]. simpl. rewrite (pri_of_insert _ _ (f t)) by done. apply HP.
Qed.

Section wait_queues.
Context {X : Type} `{!WaitPool X} `{!WaitPoolOk X}.
Implicit Types (s : kstate) (i c : nat) (x : X) (W : wkey -> list nat).

#[local] Existing Instance w_key_inj.

(** The state after a write to the nodes and to one object. *)
Definition q_state s m i x : kstate := w_set_pool (<[i := x]> (w_pool s)) (set_k_nodes m s).

Lemma q_state_pool s m i x y : w_pool s !! i = Some y -> w_pool (q_state s m i x) !! i = Some x.
Proof.
  intros Ey. unfold q_state. rewrite w_pool_set. apply list_lookup_insert_eq. by eapply lookup_lt_Some.
Qed.

Lemma waitq_q_state s m i x y k : w_pool s !! i = Some y ->
  waitq (q_state s m i x) k = if decide (k = w_key i) then w_que x else waitq s k.
Proof.
  intros Ey. unfold q_state. assert (forall k, waitq (set_k_nodes m s) k = waitq s k) as Hm by (by intros []).
  destruct (w_key_dec k) as [[j ->]|Hk].
  - rewrite w_waitq, w_pool_set. case_decide as E.
    + apply (inj w_key) in E as ->. rewrite list_lookup_insert_eq by (by eapply lookup_lt_Some). done.
    + rewrite list_lookup_insert_ne by congruence. by rewrite w_waitq.
  - rewrite decide_False by done. by rewrite w_other.
Qed.

Lemma wp_get_obj s i x (Q : X -> kstate -> Prop) :
  w_pool s !! i = Some x -> Q x s -> wp (get_obj i) Q s.
Proof. intros E HQ. unfold wp, get_obj. by rewrite E. Qed.

Lemma wp_upd_obj s i x f (Q : unit -> kstate -> Prop) :
  w_pool s !! i = Some x -> Q tt (w_set_pool (<[i := f x]> (w_pool s)) s) -> wp (upd_obj i f) Q s.
Proof. intros E HQ. unfold wp, upd_obj. by rewrite E. Qed.

(** The tail of the three statements: write the nodes, then the queue. *)
Lemma wp_q_write {A} s m i x q (k : KM A) (Q : A -> kstate -> Prop) :
  w_pool s !! i = Some x -> wp k Q (q_state s m i (w_set_que q x)) ->
  wp (upd_nodes (fun _ => m) ;;; upd_obj i (w_set_que q) ;;; k) Q s.
Proof.
  intros Ex HQ. assert (w_pool (set_k_nodes m s) = w_pool s) as E by (by apply w_pool_objs).
  wp_steps. eapply wp_upd_obj; rewrite E; [exact Ex|]. done.
Qed.

Lemma waitq_obj s i x : w_pool s !! i = Some x -> waitq s (w_key i) = w_que x.
Proof. intros Ex. rewrite w_waitq. by rewrite Ex. Qed.

Lemma k_nodes_q_state s m i x : k_nodes (q_state s m i x) = m.
Proof. unfold q_state. by rewrite (sr_nodes _ _ (w_rest _ _)). Qed.

Lemma wp_q_enqueue s W i c x (Q : unit -> kstate -> Prop) :
  sync s W -> w_pool s !! i = Some x -> (forall k, c ∉ W k) ->
  this (node (k_nodes s) (SynQue c)) = Some (OTask c) ->
  (forall m q, nodes_upd SynQue (k_nodes s) m ->
     sync (q_state s m i (w_set_que q x)) (<[w_key i := W (w_key i) ++ [c]]> W) ->
     Q tt (q_state s m i (w_set_que q x))) ->
  wp (q_enqueue i c) Q s.
Proof.
  intros Hs Ex Hc Hth HQ. unfold q_enqueue. apply wp_bind. eapply wp_get_obj; [exact Ex|].
  rewrite <- (waitq_obj _ _ _ Ex). apply wp_bind, wp_gets, wp_bind, wp_ret.
  destruct (queue_insert (k_nodes s) (waitq s (w_key i)) (SynQue c)) as [m q] eqn:Eq.
  edestruct (sync_insert s (q_state s m i (w_set_que q x)) W (w_key i) c) as [Hs' Hup]; [done..| | | |].
  - by rewrite k_nodes_q_state, Eq.
  - rewrite (waitq_q_state _ _ _ _ _ _ Ex), decide_True, Eq by done. by rewrite w_que_set.
  - intros k' Hk. rewrite (waitq_q_state _ _ _ _ _ _ Ex). by rewrite decide_False.
  - rewrite k_nodes_q_state in Hup. wp_steps.
    assert (w_pool (set_k_nodes m s) = w_pool s) as E by (by apply w_pool_objs).
    eapply wp_upd_obj; rewrite E; [exact Ex|]. by apply HQ.
Qed.

Lemma q_state_id s i x : w_pool s !! i = Some x -> q_state s (k_nodes s) i x = s.
Proof.
  intros Ex. unfold q_state. rewrite list_insert_id by done.
  replace (set_k_nodes (k_nodes s) s) with s by (by destruct s). apply w_pool_id.
Qed.

Lemma wp_q_extract s W i x (Q : option nat -> kstate -> Prop) :
  sync s W -> w_pool s !! i = Some x ->
  match W (w_key i) with
  | [] => Q None s
  | c :: l => forall m q, nodes_upd SynQue (k_nodes s) m ->
      sync (q_state s m i (w_set_que q x)) (<[w_key i := l]> W) ->
      Q (Some c) (q_state s m i (w_set_que q x))
  end ->
  wp (q_extract i) Q s.
Proof.
  intros Hs Ex HQ. unfold q_extract. apply wp_bind. eapply wp_get_obj; [exact Ex|].
  rewrite <- (waitq_obj _ _ _ Ex). apply wp_bind, wp_gets, wp_bind, wp_ret.
  destruct (W (w_key i)) as [|c l] eqn:El.
  - destruct (sync_extract_nil s W (w_key i) Hs El) as [-> Hq]. rewrite (waitq_obj _ _ _ Ex) in Hq.
    eapply wp_q_write; [exact Ex|]. apply wp_ret. rewrite <- Hq, w_que_id, q_state_id by done. done.
  - destruct (queue_extract (k_nodes s) (waitq s (w_key i))) as [[o m] q] eqn:Eq.
    destruct (sync_extract s (q_state s m i (w_set_que q x)) W (w_key i) c l) as (Eo & Hs' & Hup); try done.
    + by rewrite k_nodes_q_state, Eq.
    + rewrite (waitq_q_state _ _ _ _ _ _ Ex), decide_True, Eq by done. by rewrite w_que_set.
    + intros k' Hk. rewrite (waitq_q_state _ _ _ _ _ _ Ex). by rewrite decide_False.
    + rewrite k_nodes_q_state in Hup. rewrite Eq in Eo. simpl in Eo. subst o.
      eapply wp_q_write; [exact Ex|]. apply wp_ret. by apply HQ.
Qed.

Lemma wp_q_remove s W i c x (Q : unit -> kstate -> Prop) :
  sync s W -> w_pool s !! i = Some x -> c ∈ W (w_key i) ->
  (forall q, let m := unlink (k_nodes s) (SynQue c) in nodes_upd SynQue (k_nodes s) m ->
     sync (q_state s m i (w_set_que q x)) (<[w_key i := without c (W (w_key i))]> W) ->
     Q tt (q_state s m i (w_set_que q x))) ->
  wp (q_remove i c) Q s.
Proof.
  intros Hs Ex Hc HQ. unfold q_remove. apply wp_bind. eapply wp_get_obj; [exact Ex|].
  rewrite <- (waitq_obj _ _ _ Ex). apply wp_bind, wp_gets, wp_bind, wp_ret.
  destruct (queue_remove (k_nodes s) (waitq s (w_key i)) (SynQue c)) as [m q] eqn:Eq.
  destruct (qfam_remove SynQue (k_nodes s) (waitq s) (waitq (q_state s m i (w_set_que q x))) W
    (w_key i) c Hs Hc) as [Em Hf].
  - rewrite (waitq_q_state _ _ _ _ _ _ Ex), decide_True, Eq by done. by rewrite w_que_set.
  - intros k' Hk. rewrite (waitq_q_state _ _ _ _ _ _ Ex). by rewrite decide_False.
  - rewrite Eq in Em. simpl in Em. subst m. wp_steps.
    assert (w_pool (set_k_nodes (unlink (k_nodes s) (SynQue c)) s) = w_pool s) as E by (by apply w_pool_objs).
    eapply wp_upd_obj; rewrite E; [exact Ex|]. apply HQ.
    + split; [by eapply (qfam_unlink_only SynQue)|]. intros a. apply unlink_this.
    + unfold sync. by rewrite k_nodes_q_state.
Qed.

(** ** The invariant *)

(** A write to an object that keeps its wait queue. *)
Lemma kinv0_upd_obj s R W T i x y : kinv0 s R W T -> w_pool s !! i = Some x -> w_que y = w_que x ->
  kinv0 (w_set_pool (<[i := y]> (w_pool s)) s) R W T.
Proof.
  intros H Ex Hf. set (s' := w_set_pool _ s). pose proof (w_rest (<[i := y]> (w_pool s)) s : same_rest s s') as [].
  eapply (kinv0_objs s); [exact H| |done|done|done| | | |].
  - intros j nd _. by rewrite sr_nodes0.
  - rewrite sr_log0. apply H.
  - apply w_pools_ok; [apply length_insert|apply H].
  - intros k. destruct (decide (k = w_key i)) as [->|Hk].
    + rewrite !w_waitq, Ex. unfold s'. rewrite w_pool_set, list_lookup_insert_eq by (by eapply lookup_lt_Some).
      simpl. by rewrite Hf.
    + destruct (w_key_dec k) as [[j ->]|Hk']; [|by apply w_other].
      rewrite !w_waitq. unfold s'. rewrite w_pool_set, list_lookup_insert_ne by congruence. done.
  - intros k j Hj. apply w_open. by eapply (pl_open _ _ _ _ (ki_places _ _ _ _ H)).
Qed.

Lemma enqueued_q s m i x y l : pools_ok s -> log_ok l -> nodes_upd SynQue (k_nodes s) m ->
  w_pool s !! i = Some x -> enqueued s (set_k_log l (q_state s m i y)).
Proof.
  intros Hpo Hl Hup Ex. unfold q_state. assert (w_pool (set_k_nodes m s) = w_pool s) as E by (by apply w_pool_objs).
  pose proof (w_rest (<[i := y]> (w_pool s)) (set_k_nodes m s)) as [].
  split; [by simpl; rewrite sr_nodes0|exact sr_task0|exact sr_sched0|exact sr_int0|exact Hl| |].
  - apply (pools_ok_frame (w_set_pool (<[i := y]> (w_pool s)) (set_k_nodes m s))); [by split|].
    apply w_pools_ok; [by rewrite E, length_insert|by apply (pools_ok_frame s)].
  - intros k Hk. eapply (open_log (w_set_pool (<[i := y]> (w_pool s)) (set_k_nodes m s))), w_open.
    by destruct k.
Qed.

Lemma enqueued_q0 s m i x y : pools_ok s -> log_ok (k_log s) -> nodes_upd SynQue (k_nodes s) m ->
  w_pool s !! i = Some x -> enqueued s (q_state s m i y).
Proof.
  intros Hpo Hl Hup Ex. pose proof (enqueued_q s m i x y (k_log s) Hpo Hl Hup Ex) as H.
  replace (set_k_log (k_log s) (q_state s m i y)) with (q_state s m i y) in H; [done|].
  unfold q_state. pose proof (sr_log _ _ (w_rest (<[i := y]> (w_pool s)) (set_k_nodes m s))) as E.
  destruct (w_set_pool _ _). simpl in *. by subst.
Qed.

(** The object [i] has the queue [q]. *)
Definition requeued s s' i x q : Prop := same_objs (w_set_pool (<[i := w_set_que q x]> (w_pool s)) s) s'.

Lemma q_state_objs s m i x q : requeued s (q_state s m i (w_set_que q x)) i x q.
Proof. unfold requeued, q_state. by apply w_set_objs. Qed.

(** The current task waits for the object: the statements between the test
    and the [__hw_sti] of the blocking system calls. *)
Lemma wp_q_block s R W T c p i x fn id f (Q : unit -> kstate -> Prop) :
  kinv0 s R W T -> c ∈ R p -> w_pool s !! i = Some x -> open_obj s (w_key i) ->
  (forall t, tskstat (f t) = TTS_WAI /\ tskid (f t) = tskid t /\ tskpri (f t) = tskpri t /\ wuptim (f t) = wuptim t) ->
  (forall s' q t, kinv0 s' (rq_drop R p c) (<[w_key i := W (w_key i) ++ [c]]> W) T ->
     k_int s' = k_int s -> current_task (k_sched s') = current_task (k_sched s) -> k_mem s' = k_mem s ->
     k_time s' = k_time s ->
     requeued s s' i x q -> task_pool (k_task s) !! c = Some t ->
     task_pool (k_task s') = <[c := f t]> (task_pool (k_task s)) -> keeps s s' ->
     same_msgs (k_nodes s) (k_nodes s') -> Q tt s') ->
  wp (q_enqueue i c ;;; write_log fn id TTS_WAI ;;; upd_task c f ;;; rq_remove c) Q s.
Proof.
  intros H Hc Ex Ho Hf HQ.
  destruct (rq_place _ _ _ _ _ _ H Hc) as (t & Et & _ & _ & _ & HL & HI & _ & HW & _).
  destruct (Hf t) as (F1 & F2 & F3 & F4). apply wp_bind.
  eapply wp_q_enqueue; [apply H|exact Ex|done| |].
  { apply (to_this _ (ki_tasks _ _ _ _ H) c SynQue); [done|done|]. right; left. }
  intros m q Hup Hsy.
  assert (log_ok (k_log (q_state s m i (w_set_que q x)))) as Hl0.
  { unfold q_state. rewrite (sr_log _ _ (w_rest _ _)). apply H. }
  apply wp_bind, wp_write_log; [done|]. intros l Hl.
  pose proof (enqueued_q s m i x (w_set_que q x) l (ki_pools _ _ _ _ H) Hl Hup Ex) as He.
  eapply (wp_block s); [exact H|exact He|exact Hc|exact Et| |exact Ho|done..|].
  - eapply (sync_frame (q_state s m i (w_set_que q x))); [done|by split|exact Hsy].
  - intros s' Hs' [Hob Hi Hm Hti Hcu Hpool Hms] Hke. destruct He as [_ Ek Es Ei _ _ _].
    pose proof (w_rest (<[i := w_set_que q x]> (w_pool s)) (set_k_nodes m s)) as [].
    eapply (HQ s' q t); try done.
    + by rewrite Hi, Ei.
    + by rewrite Hcu, Es.
    + rewrite Hm. exact sr_mem0.
    + rewrite Hti. exact sr_time0.
    + unfold requeued. etrans; [apply (q_state_objs s m)|]. etrans; [|exact Hob]. by split.
    + by rewrite Hpool, Ek.
    + etrans; [by eapply (same_msgs_only SynQue)|]. intros b. rewrite Hms. cbn [k_nodes set_k_log].
      by rewrite k_nodes_q_state.
Qed.

(** ** Creation and deletion *)

(** The check of an identifier. *)
Lemma obj_bit s id : 1 <= id <= w_max ->
  nz (isbitset (w_bmap s) (id - 1)) = Z.testbit (w_bmap s) (Z.of_nat (Z.to_nat (id - 1))).
Proof.
  intros H. pose proof w_max_word. rewrite Z2Nat.id by lia. apply isbitset_spec. lia.
Qed.

Lemma obj_slot s i : pools_ok s -> Z.of_nat i < w_max -> exists x, w_pool s !! i = Some x.
Proof. intros H Hi. apply lookup_lt_is_Some_2. pose proof (w_len s H). lia. Qed.

(** A write to the bitmap that closes no object that a task waits for. *)
Lemma kinv0_bmap s R W T b : kinv0 s R W T -> word32 b ->
  (forall i, W (w_key i) <> [] -> Z.testbit b (Z.of_nat i) = true) ->
  kinv0 (w_set_bmap b s) R W T.
Proof.
  intros H Hb Hop. pose proof (w_bmap_rest b s) as [].
  eapply (kinv0_objs s); [exact H| |done|done|done| | | |].
  - intros j nd _. by rewrite sr_nodes0.
  - rewrite sr_log0. apply H.
  - by apply w_bmap_ok; [|apply H].
  - apply w_bmap_waitq.
  - intros k j Hj. destruct (w_key_dec k) as [[i ->]|Hk].
    + apply w_bit. rewrite w_bmap_set. apply Hop. intros E. rewrite E in Hj. by apply not_elem_of_nil in Hj.
    + apply w_bmap_other; [done|]. by eapply (pl_open _ _ _ _ (ki_places _ _ _ _ H)).
Qed.

(** The object [i], for which nobody waits, is deleted. *)
Lemma kinv0_close s R W T i : kinv0 s R W T -> Z.of_nat i < w_max -> W (w_key i) = [] ->
  kinv0 (w_set_bmap (clearbit (w_bmap s) (Z.of_nat i)) s) R W T.
Proof.
  intros H Hi HW. pose proof w_max_word. pose proof (w_word s (ki_pools _ _ _ _ H)) as Hw.
  apply kinv0_bmap; [done|by apply clearbit_word|].
  intros j Hj. rewrite clearbit_bit by (done || lia). destruct (Z.eqb_spec (Z.of_nat i) (Z.of_nat j)).
  - assert (j = i) as -> by lia. done.
  - destruct (W (w_key j)) as [|a l] eqn:E; [done|]. apply w_bit.
    eapply (pl_open _ _ _ _ (ki_places _ _ _ _ H) _ a). rewrite E. left.
Qed.

(** Nobody waits for an object that does not exist, and its queue is empty. *)
Lemma closed_empty s R W T i x : kinv0 s R W T -> w_pool s !! i = Some x -> ~ open_obj s (w_key i) ->
  W (w_key i) = [] /\ w_que x = null_queue.
Proof.
  intros H Ex Hc. assert (W (w_key i) = []) as HW.
  { destruct (W (w_key i)) as [|j l'] eqn:E; [done|]. exfalso. apply Hc.
    eapply (pl_open _ _ _ _ (ki_places _ _ _ _ H) _ j). rewrite E. left. }
  split; [done|]. destruct (sync_extract_nil s W (w_key i) (ki_sync _ _ _ _ H) HW) as [_ Hq].
  by rewrite (waitq_obj _ _ _ Ex) in Hq.
Qed.

(** The object [i] is created: its structure is written and its bit is set. *)
Lemma kinv0_open s R W T i x y : kinv0 s R W T -> w_pool s !! i = Some x -> Z.of_nat i < w_max ->
  ~ open_obj s (w_key i) -> w_que y = null_queue ->
  kinv0 (w_set_pool (<[i := y]> (w_pool s)) s) R W T /\
  kinv0 (w_set_bmap (setbit (w_bmap s) (Z.of_nat i)) s) R W T.
Proof.
  intros H Ex Hi Hc Hy. destruct (closed_empty _ _ _ _ _ _ H Ex Hc) as [HW Hq]. split.
  - apply (kinv0_upd_obj s R W T i x); [done|done|by rewrite Hy].
  - pose proof w_max_word. pose proof (w_word s (ki_pools _ _ _ _ H)) as Hw.
    apply kinv0_bmap; [done|by apply setbit_word|]. intros j Hj.
    rewrite setbit_bit by (done || lia). destruct (W (w_key j)) as [|a l] eqn:E; [done|].
    apply orb_true_iff. right. apply w_bit.
    eapply (pl_open _ _ _ _ (ki_places _ _ _ _ H) _ a). rewrite E. left.
Qed.

(** ** Emptying a wait queue *)

(** All the tasks that wait for the object become ready, changed by [f]. *)
Record drained (f : task_t -> task_t) (s s' : kstate) (i : nat) (x : X) (l : list nat) : Prop := {
  dr_int : k_int s' = k_int s;
  dr_mem : k_mem s' = k_mem s;
  dr_cur : current_task (k_sched s') = current_task (k_sched s);
  dr_idle : idle_task (k_sched s') = idle_task (k_sched s);
  dr_keeps : keeps s s';
  dr_objs : exists q, requeued s s' i x q;
  dr_pool : told f (task_pool (k_task s)) (task_pool (k_task s')) l;
  dr_msgs : same_msgs (k_nodes s) (k_nodes s')
}.

Lemma requeued_refl s i x : w_pool s !! i = Some x -> requeued s s i x (w_que x).
Proof. intros Ex. unfold requeued. by rewrite w_que_id, list_insert_id, w_pool_id. Qed.

Lemma requeued_pool s s' i x q : w_pool s !! i = Some x -> requeued s s' i x q ->
  w_pool s' !! i = Some (w_set_que q x).
Proof.
  intros Ex H. rewrite (w_pool_objs _ _ H), w_pool_set. apply list_lookup_insert_eq.
  by eapply lookup_lt_Some.
Qed.

Lemma requeued_trans s s' s'' i x q q' : w_pool s !! i = Some x -> requeued s s' i x q ->
  requeued s' s'' i (w_set_que q x) q' -> requeued s s'' i x q'.
Proof.
  unfold requeued. intros Ex H H'. etrans; [|exact H']. rewrite w_que_set2.
  rewrite (w_pool_objs _ _ H), w_pool_set, list_insert_insert_eq.
  etrans; [|apply w_set_objs; exact H]. by rewrite w_set_set.
Qed.

Lemma drained_cons f s s1 s' s'' i x q c t l : w_pool s !! i = Some x ->
  requeued s s1 i x q -> k_int s1 = k_int s -> k_mem s1 = k_mem s -> k_task s1 = k_task s -> k_sched s1 = k_sched s ->
  same_msgs (k_nodes s) (k_nodes s1) -> task_pool (k_task s) !! c = Some t -> c ∉ l -> woke s1 s' c (f t) -> keeps s s' ->
  drained f s' s'' i (w_set_que q x) l -> drained f s s'' i x (c :: l).
Proof.
  intros Ex Hq Ei Em Ek Es Hms Et Hc [Ho Hi Hm Hcu Hidl Hpool Hms'] Hke [D1 D2 D3 D4 D5 (q' & D6) D7 D8].
  split; try congruence.
  - by etrans.
  - exists q'. eapply requeued_trans; [exact Ex| |exact D6]. unfold requeued. by etrans.
  - eapply told_cons; [exact Et|done|]. by rewrite Hpool, Ek in D7.
Qed.

Lemma wp_q_drain body f fuel s R W T i x (Q : unit -> kstate -> Prop) :
  wakes body f -> kinv0 s R W T -> w_pool s !! i = Some x -> (length (W (w_key i)) < fuel)%nat ->
  (forall s', kinv0 s' (foldl (rq_append (task_pool (k_task s))) R (W (w_key i))) (<[w_key i := []]> W) T ->
     drained f s s' i x (W (w_key i)) -> Q tt s') ->
  wp (q_drain fuel i body) Q s.
Proof.
  intros Hb. revert s R W x. induction fuel as [|fuel IH]; intros s R W x H Ex Hf HQ; [lia|].
  cbn [q_drain]. apply wp_bind. eapply wp_q_extract; [apply H|exact Ex|].
  destruct (W (w_key i)) as [|c l] eqn:Ew.
  - apply wp_ret, HQ.
    + eapply kinv0_ext; [|exact H]. intros k. destruct (decide (k = w_key i)) as [->|].
      * by rewrite fn_lookup_insert.
      * by rewrite fn_lookup_insert_ne.
    + split; try done; [|apply told_nil]. exists (w_que x). by apply requeued_refl.
  - intros m q Hup Hsy. assert (c ∈ W (w_key i)) as Hc by (rewrite Ew; left).
    destruct (waiting_task _ _ _ _ _ _ H Hc) as [HL [t Et]].
    pose proof (enqueued_q0 s m i x (w_set_que q x) (ki_pools _ _ _ _ H) (ki_log _ _ _ _ H) Hup Ex) as He.
    apply wp_bind. eapply Hb; [exact H|exact He|by eapply dequeues_head, Ew; apply H|exact Hsy|exact Et|].
    intros s' H' Hwo Hke. pose proof (q_state_objs s m i x q) as Hq.
    pose proof (requeued_pool s s' i x q Ex (transitivity Hq (wo_objs _ _ _ _ Hwo))) as Ex'.
    apply (IH s' _ _ _ H' Ex'). { rewrite fn_lookup_insert. simpl in Hf. lia. }
    rewrite fn_lookup_insert. intros s'' H'' HD. apply HQ.
    + simpl. rewrite (rq_append_all_ext (task_pool (k_task s))) in H'' by apply Hke.
      eapply kinv0_ext; [|exact H'']. intros k. destruct (decide (k = w_key i)) as [->|].
      * by rewrite !fn_lookup_insert.
      * by rewrite !fn_lookup_insert_ne.
    + pose proof (w_rest (<[i := w_set_que q x]> (w_pool s)) (set_k_nodes m s)) as [].
      eapply (drained_cons f s _ s'); [exact Ex|exact Hq|done|done|done|done| |exact Et| |exact Hwo|exact Hke|exact HD].
      { rewrite k_nodes_q_state. by eapply (same_msgs_only SynQue). }
      pose proof (qfam_NoDup SynQue _ _ _ (w_key i) (ki_sync _ _ _ _ H)) as Hnd. rewrite Ew in Hnd.
      by apply NoDup_cons in Hnd as [? _].
Qed.
End wait_queues.

(** ** The entry and the exit of the system calls *)

Lemma impl_cli s A : impl s A -> impl (cli_state s) A.
Proof. intros [H Hp]. split; [by apply kinv_cli|done]. Qed.

Lemma impl_sti s A : impl s A -> impl (sti_state s) A.
Proof. intros [H Hp]. split; [by apply kinv_sti|done]. Qed.

(** A masked section that changes no queue. *)
Lemma impl_frame s s' A : impl s A -> kinv0 s' (a_ready A) (a_wait A) (a_sleep A) ->
  k_sched s' = k_sched s -> k_task s' = k_task s -> impl s' A.
Proof.
  intros [[_ (c & Ec & Hc)] Hp] H' Hs Ht. split; [split; [done|exists c]|].
  - unfold is_idle. by rewrite Hs.
  - unfold live. by rewrite Ht.
Qed.

(** The existence test: [E_NOEXS], or the rest of the call on the object. *)
Lemma wp_existing {X} `{!WaitPool X} `{!WaitPoolOk X} s A id g (k : KM sysres) (Q : sysres -> kstate -> Prop) :
  impl s A -> 1 <= id <= w_max -> (forall s, g s = w_bmap s) ->
  (~ open_obj s (w_key (Z.to_nat (id - 1))) ->
     impl (sti_state (cli_state s)) A -> Q (Done E_NOEXS) (sti_state (cli_state s))) ->
  (forall i x, i = Z.to_nat (id - 1) -> id - 1 = Z.of_nat i -> Z.of_nat i < w_max -> w_pool s !! i = Some x ->
     open_obj s (w_key i) -> wp k Q (cli_state s)) ->
  wp (hw_cli ;;;
      let* bm := gets g in
      if negb (nz (isbitset bm (id - 1))) then hw_sti ;;; ret (Done E_NOEXS) else k) Q s.
Proof.
  intros HI Hid Hg HN HK. apply wp_bind, wp_cli, wp_bind, wp_gets. rewrite Hg.
  rewrite (w_bmap_objs s) by done. rewrite obj_bit by done. set (i := Z.to_nat (id - 1)) in *.
  destruct (obj_slot s i (ki_pools _ _ _ _ (proj1 (proj1 HI)))) as [x Ex]; [lia|].
  destruct (Z.testbit (w_bmap s) (Z.of_nat i)) eqn:Eb; simpl.
  - apply (HK i x); [done|lia|lia|done|by apply w_bit].
  - wp_steps. apply HN; [|by apply impl_sti, impl_cli]. rewrite w_bit. by rewrite Eb.
Qed.

(** A dispatch changes nothing in a task but its state. *)
Definition stat_only (s s' : kstate) : Prop :=
  forall i t', task_pool (k_task s') !! i = Some t' ->
    exists t, task_pool (k_task s) !! i = Some t /\ t' = set_tskstat (tskstat t') t.

(** [__hw_sti(); scheduler(); return] after the lists have become those of [A']. *)
Lemma wp_finish {B} s0 s A A' im (r : B) (Q : B -> kstate -> Prop) :
  impl s0 A -> keeps s0 s -> a_pri A' = a_pri A ->
  kinv0 s (a_ready A') (a_wait A') (a_sleep A') -> masked im s ->
  (forall s', impl s' A' -> scheduled s' (a_ready A') -> imask (k_int s') = im -> same_objs s s' ->
     k_mem s' = k_mem s -> k_nodes s' = k_nodes s -> stat_only s s' -> Q r s') ->
  wp (hw_sti ;;; scheduler ;;; ret r) Q s.
Proof.
  intros HI Hke Hp H Hm HQ. eapply wp_sti_scheduler; [exact H|exact Hm|].
  intros s' c d Hk' Hs' Him Hd Hc Hdl. pose proof (dispatched_keeps _ _ _ _ Hd) as Hke'.
  destruct (dp_frame _ _ _ _ Hd). apply HQ; try done.
  - eapply impl_keeps; [exact HI| |exact Hp|exact Hk']. by etrans.
  - intros i t'. rewrite (dp_pool _ _ _ _ Hd), pool_switch_lookup. intros (t & Et & ->)%fmap_Some.
    exists t. split; [done|]. repeat case_decide; try case_match; by destruct t.
Qed.
