(* ===== verification/Task.v ===== *)
(** * Task management: task.c, and the stacks of blackfin/stack.c

    Every system call is translated whole: parameter checks, the masked
    section, the call of the scheduler, and what runs when the task is
    scheduled again ([Cont]). *)

From Stdlib Require Import ZArith Lia.
From stdpp Require Import base tactics gmap option functions countable list.
From S2P Require Import Prelude Bits Queue Qfam Mem Kstate Tlsf Syslog Sched Timeout Dispatch Kinv.

Open Scope Z_scope.
Open Scope kernel_scope.

(** itronsys/task.h: [T_CTSK]. *)
Record T_CTSK := mk_ctsk {
  c_exinf : Z;
  c_tskatr : Z;
  c_task : Z;
  c_itskpri : Z;
  c_stksz : Z;
  c_stk : Z;
  c_extdat : Z
}.

(** ** stack.c *)

(** [init_stack]: the kernel stack of a kernel task is its own; a user task
    gets one from the fast pool. The entry [startup_fn] is pushed on it. *)
Definition init_stack (tsk : nat) : KM Z :=
  let* t := get_task tsk in
  (if nz (Z.land (exinf t) TSK_KERNEL) then
     upd_task tsk (fun t => set_kstk (u32 (stk t + stksz t - 4)) t)
   else
     upd_task tsk (fun t => set_stk (u32 (stk t + stksz t - 4)) t) ;;;
     let* pool := gets (fun s => kfast_pool (k_setup s)) in
     let* p := ktlsf (malloc_ex CONFIG_KSTACK_SIZE pool) in
     upd_task tsk (set_kstk (u32 (p + CONFIG_KSTACK_SIZE - 4)))) ;;;
  upd_task tsk (fun t => set_kstk (u32 (kstk t - 4)) t) ;;;
  let* t := get_task tsk in
  let* fn := gets (fun s => startup_entry (img (k_setup s))) in
  kmem (store (kstk t) fn) ;;;
  ret 0.

(** What a task does when it is first scheduled: unmask the interrupts and
    jump to its entry with its argument, in user mode or in kernel mode. *)
Definition startup_fn : KM (Z * Z * bool) :=
  let* cur := get_current in
  let* t := get_task cur in
  hw_sti ;;;
  ret (task t, extdat t, nz (Z.land (exinf t) TSK_KERNEL)).

(** ** Creation *)

(** [rdyque.this = synque.this = slpque.this = tsk] *)
Definition set_task_this (tsk : nat) : KM unit :=
  upd_nodes (set_this (SlpQue tsk) (Some (OTask tsk))) ;;;
  upd_nodes (set_this (SynQue tsk) (Some (OTask tsk))) ;;;
  upd_nodes (set_this (RdyQue tsk) (Some (OTask tsk))).

(** [memset(tsk, 0, sizeof(task_t))]: the fields and the four list nodes. *)
Definition zero_task_at (tsk : nat) : KM unit :=
  upd_task tsk (fun _ => zero_task) ;;;
  upd_nodes (fun m => <[TskAct tsk := null_node]> (<[SlpQue tsk := null_node]>
    (<[SynQue tsk := null_node]> (<[RdyQue tsk := null_node]> m)))).

Definition init_task_pool : KM unit :=
  upd_task_mod (fun _ => mk_task_mod clearbitmap
    (replicate (Z.to_nat (MAX_TASKS + 2)) zero_task)) ;;;
  upd_nodes (fun m => foldr (fun i m => <[TskAct i := null_node]> (<[SlpQue i := null_node]>
    (<[SynQue i := null_node]> (<[RdyQue i := null_node]> m)))) m
    (seq 0 (Z.to_nat (MAX_TASKS + 2)))).

(** [taskbmap = setbit(taskbmap, idx)] and [clearbit]. *)
Definition set_taskbit (idx : Z) : KM unit :=
  upd_task_mod (fun r => set_taskbmap (setbit (taskbmap r) idx) r).
Definition clear_taskbit (idx : Z) : KM unit :=
  upd_task_mod (fun r => set_taskbmap (clearbit (taskbmap r) idx) r).

Definition create_main_task : KM unit :=
  let* bm := gets (fun s => taskbmap (k_task s)) in
  let id := _ffc bm in
  (* &task_pool[tskid] with a negative index is outside of the array *)
  if id <? 0 then fault else
  let main_task := Z.to_nat id in
  set_taskbit id ;;;
  let* entry := gets (fun s => main_entry (img (k_setup s))) in
  upd_task main_task (fun t => set_tskstat TTS_RDY (set_task entry
    (set_tskid (id + 1) (set_tskpri MAX_TASK_PRIORITY t)))) ;;;
  set_task_this main_task ;;;
  upd_task main_task (fun t => set_exinf NULL (set_stksz USER_STACK_SIZE (set_stk USER_STACK t))) ;;;
  let* _ := init_stack main_task in
  rq_insert main_task ;;;
  upd_nodes (set_this (TskAct main_task) (Some (OTask main_task))).

Definition create_idle_task : KM unit :=
  let* bm := gets (fun s => taskbmap (k_task s)) in
  let id := _ffc bm in
  if id <? 0 then fault else
  let idle := Z.to_nat id in
  upd_sched (set_idle_task (Some idle)) ;;;
  set_taskbit id ;;;
  upd_task idle (fun t => set_exinf TSK_KERNEL (set_tskid (id + 1) (set_tskpri MIN_TASK_PRIORITY t))) ;;;
  upd_sched (set_current_task (Some idle)).

Definition get_task_by_id (id : Z) : KM (option nat) :=
  if (id <? 1) || (id >? MAX_TASKS) then ret None else
  let idx := id - 1 in
  let* bm := gets (fun s => taskbmap (k_task s)) in
  if negb (nz (isbitset bm idx)) then ret None else ret (Some (Z.to_nat idx)).

(** The common part of [acre_tsk_sys] and [cre_tsk_sys]: fill the slot [idx]. *)
Definition fill_task (idx id : Z) (pk : T_CTSK) : KM unit :=
  let tsk := Z.to_nat idx in
  zero_task_at tsk ;;;
  upd_task tsk (fun t => set_tskpri (c_itskpri pk) (set_tskstat TTS_DMT (set_extdat (c_extdat pk)
    (set_task (c_task pk) (set_exinf (c_exinf pk) (set_tskatr (c_tskatr pk) t)))))) ;;;
  set_task_this tsk ;;;
  upd_task tsk (set_tskid id) ;;;
  (* Initialize stack *)
  upd_task tsk (fun t => set_stk (c_stk pk) (set_stksz (c_stksz pk) t)) ;;;
  let* _ := init_stack tsk in
  set_taskbit idx.

Definition acre_tsk_sys (pk_ctsk : option T_CTSK) : KM sysres :=
  match pk_ctsk with
  | None => ret (Done E_PAR)
  | Some pk =>
      if negb (nz (c_task pk)) || (c_stksz pk <? 0) || (c_itskpri pk <? 0)
         || (c_stk pk =? NULL) || (c_itskpri pk >? MIN_TASK_PRIORITY) then ret (Done E_PAR) else
      hw_cli ;;;
      (* Check if any ID is available *)
      let* bm := gets (fun s => taskbmap (k_task s)) in
      let idx := _ffc bm in
      let id := idx + 1 in
      (* No task ID available *)
      if (id <? 1) || (id >? MAX_TASKS) then hw_sti ;;; ret (Done E_NOID) else
      fill_task idx id pk ;;;
      write_log TFN_ACRE_TSK id 0 ;;;
      upd_nodes (set_this (TskAct (Z.to_nat idx)) (Some (OTask (Z.to_nat idx)))) ;;;
      hw_sti ;;;
      ret (Done id)
  end.

Definition cre_tsk_sys (id : Z) (pk_ctsk : option T_CTSK) : KM sysres :=
  let idx := id - 1 in
  if (id <? 1) || (id >? MAX_TASKS) then ret (Done E_ID) else
  match pk_ctsk with
  | None => ret (Done E_PAR)
  | Some pk =>
      if negb (nz (c_task pk)) || (c_stksz pk <? 0) || (c_itskpri pk <? 0)
         || (c_itskpri pk >? MIN_TASK_PRIORITY) then ret (Done E_PAR) else
      hw_cli ;;;
      (* Check if ID is in use *)
      let* bm := gets (fun s => taskbmap (k_task s)) in
      if nz (isbitset bm idx) then hw_sti ;;; ret (Done E_OBJ) else
      fill_task idx id pk ;;;
      write_log TFN_CRE_TSK id E_OK ;;;
      upd_nodes (set_this (TskAct (Z.to_nat idx)) (Some (OTask (Z.to_nat idx)))) ;;;
      hw_sti ;;;
      ret (Done E_OK)
  end.

(** ** The system calls on a task *)

(** [tskid < 1 || tskid > MAX_TASKS] *)
Definition bad_tskid (id : Z) : bool := (id <? 1) || (id >? MAX_TASKS).

(** "Get task from the task pool", in the masked section: the task, or the
    error after unmasking. *)
Definition pick_task (id : Z) : KM (Z + nat) :=
  if id =? TSK_SELF then let* cur := get_current in ret (inr cur) else
  let idx := id - 1 in
  let* bm := gets (fun s => taskbmap (k_task s)) in
  if negb (nz (isbitset bm idx)) then hw_sti ;;; ret (inl E_NOEXS)
  else ret (inr (Z.to_nat idx)).

Definition act_tsk_sys (id : Z) : KM sysres :=
  if bad_tskid id then ret (Done E_ID) else
  hw_cli ;;;
  let* r := pick_task id in
  match r with
  | inl er => ret (Done er)
  | inr tsk =>
      let* t := get_task tsk in
      write_log TFN_ACT_TSK id (actcnt t) ;;;
      (* Activate task or increase activation request count *)
      (if tskstat t =? TTS_DMT then
         rq_insert tsk ;;; upd_task tsk (set_tskstat TTS_RDY)
       else upd_task tsk (fun t => set_actcnt (i32 (actcnt t + 1)) t)) ;;;
      hw_sti ;;;
      scheduler ;;;
      ret (Cont (KReturn E_OK))
  end.

Definition can_act_sys (id : Z) : KM sysres :=
  if bad_tskid id then ret (Done E_ID) else
  hw_cli ;;;
  let* r := pick_task id in
  match r with
  | inl er => ret (Done er)
  | inr tsk =>
      let* t := get_task tsk in
      upd_task tsk (set_actcnt 0) ;;;
      write_log TFN_CAN_ACT id (actcnt t) ;;;
      hw_sti ;;;
      ret (Done (actcnt t))
  end.

Definition can_wup_sys (id : Z) : KM sysres :=
  if bad_tskid id then ret (Done E_ID) else
  hw_cli ;;;
  let* r := pick_task id in
  match r with
  | inl er => ret (Done er)
  | inr tsk =>
      let* t := get_task tsk in
      upd_task tsk (set_wupcnt 0) ;;;
      write_log TFN_CAN_WUP id (wupcnt t) ;;;
      hw_sti ;;;
      ret (Done (wupcnt t))
  end.

Definition chg_pri_sys (id pri : Z) : KM sysres :=
  if bad_tskid id then ret (Done E_ID) else
  if (pri <? 0) || (pri >? MIN_TASK_PRIORITY) then ret (Done E_PAR) else
  hw_cli ;;;
  let* r := pick_task id in
  match r with
  | inl er => ret (Done er)
  | inr tsk =>
      let* t := get_task tsk in
      write_log TFN_CHG_PRI id pri ;;;
      (* If the task was ready change its location on the ready queue *)
      when (tskstat t =? TTS_RDY)
        (rq_relocate tsk pri ;;; upd_task tsk (set_tskpri pri)) ;;;
      hw_sti ;;;
      scheduler ;;;
      ret (Cont (KReturn E_OK))
  end.

Definition del_tsk_sys (id : Z) : KM sysres :=
  let idx := id - 1 in
  if bad_tskid id then ret (Done E_ID) else
  hw_cli ;;;
  let* bm := gets (fun s => taskbmap (k_task s)) in
  if negb (nz (isbitset bm idx)) then hw_sti ;;; ret (Done E_NOEXS) else
  let tsk := Z.to_nat idx in
  let* t := get_task tsk in
  if negb (tskstat t =? TTS_DMT) then hw_sti ;;; ret (Done E_OBJ) else
  clear_taskbit idx ;;;
  write_log TFN_DEL_TSK id E_OK ;;;
  hw_sti ;;;
  ret (Done E_OK).

Definition ext_tsk_sys : KM sysres :=
  hw_cli ;;;
  let* cur := get_current in
  rq_remove cur ;;;
  upd_task cur (set_tskstat TTS_DMT) ;;;
  let* t := get_task cur in
  write_log TFN_EXT_TSK (tskid t) 0 ;;;
  hw_sti ;;;
  scheduler ;;;
  ret (Cont KExit).

Definition exd_tsk_sys : KM sysres :=
  hw_cli ;;;
  let* cur := get_current in
  rq_remove cur ;;;
  upd_task cur (set_tskstat TTS_DMT) ;;;
  let* t := get_task cur in
  clear_taskbit (tskid t - 1) ;;;
  write_log TFN_EXD_TSK (tskid t) 0 ;;;
  hw_sti ;;;
  scheduler ;;;
  ret (Cont KExit).

Definition get_pri_sys (id p_tskpri : Z) : KM sysres :=
  if bad_tskid id then ret (Done E_ID) else
  if negb (nz p_tskpri) || nz (Z.land p_tskpri 0x3) then ret (Done E_PAR) else
  hw_cli ;;;
  let* r := pick_task id in
  match r with
  | inl er => ret (Done er)
  | inr tsk =>
      let* t := get_task tsk in
      if tskstat t =? TTS_DMT then hw_sti ;;; ret (Done E_OBJ) else
      kmem (store p_tskpri (u32 (tskpri t))) ;;;
      hw_sti ;;;
      ret (Done E_OK)
  end.

Definition slp_tsk_sys : KM sysres :=
  hw_cli ;;;
  let* cur := get_current in
  let* t := get_task cur in
  write_log TFN_SLP_TSK (tskid t) 0 ;;;
  upd_task cur (fun t => set_tskwait TTW_SLP (set_tskstat TTS_WAI t)) ;;;
  rq_remove cur ;;;
  hw_sti ;;;
  scheduler ;;;
  ret (Cont (KReturn E_OK)).

Definition tslp_tsk_sys (tmout : Z) : KM sysres :=
  (* If tmo = TMO_FEVR tslp_tsk() acts the same as slp_tsk() *)
  if tmout =? TMO_FEVR then slp_tsk_sys else
  (* Wait by polling *)
  if tmout =? TMO_POL then
    let* cur := get_current in
    let* t := get_task cur in
    if wupcnt t >? 0 then ret (Done E_OK) else ret Spin
  else
  if tmout <? 1 then ret (Done E_PAR) else
  hw_cli ;;;
  let* cur := get_current in
  tq_insert cur tmout ;;;
  let* t := get_task cur in
  write_log TFN_TSLP_TSK (tskid t) tmout ;;;
  upd_task cur (fun t => set_tskwait TTW_SLP (set_tskstat TTS_WAI t)) ;;;
  rq_remove cur ;;;
  hw_sti ;;;
  scheduler ;;;
  ret (Cont (KReturn E_OK)).

Definition wup_tsk_sys (id : Z) : KM sysres := ret (Done E_OK).

Definition sus_tsk_sys (id : Z) : KM sysres := ret NoValue.

(** [!pk_rtsk == TSK_SELF] compares the negation of the pointer with 0. *)
Definition ref_tsk_sys (id pk_rtsk : Z) : KM sysres :=
  if bad_tskid id then ret (Done E_ID) else
  if (if nz pk_rtsk then 0 else 1) =? TSK_SELF then ret (Done E_PAR) else
  hw_cli ;;;
  let* r := pick_task id in
  match r with
  | inl er => ret (Done er)
  | inr tsk =>
      let* t := get_task tsk in
      kmem (store pk_rtsk (tskstat t)) ;;;
      kmem (store (pk_rtsk + 4) (u32 (tskpri t))) ;;;
      kmem (store (pk_rtsk + 8) (u32 (tskbpri t))) ;;;
      kmem (store (pk_rtsk + 12) (tskwait t)) ;;;
      kmem (store (pk_rtsk + 16) (wobjid t)) ;;;
      kmem (store (pk_rtsk + 24) (u32 (actcnt t))) ;;;
      kmem (store (pk_rtsk + 28) (u32 (wupcnt t))) ;;;
      kmem (store (pk_rtsk + 32) (u32 (suscnt t))) ;;;
      let* now := get_system_time in
      kmem (store (pk_rtsk + 20) (u32 (wuptim t - now))) ;;;
      hw_sti ;;;
      ret (Done E_OK)
  end.

Definition ref_tst_sys (id pk_rtst : Z) : KM sysres :=
  if bad_tskid id then ret (Done E_ID) else
  if (if nz pk_rtst then 0 else 1) =? TSK_SELF then ret (Done E_PAR) else
  hw_cli ;;;
  let* r := pick_task id in
  match r with
  | inl er => ret (Done er)
  | inr tsk =>
      let* t := get_task tsk in
      kmem (store pk_rtst (tskstat t)) ;;;
      kmem (store (pk_rtst + 4) (tskwait t)) ;;;
      hw_sti ;;;
      ret (Done E_OK)
  end.

Definition rel_wai_sys (id : Z) : KM sysres :=
  let idx := id - 1 in
  if bad_tskid id then ret (Done E_ID) else
  if id =? TSK_SELF then ret (Done E_OBJ) else
  hw_cli ;;;
  let* bm := gets (fun s => taskbmap (k_task s)) in
  if negb (nz (isbitset bm idx)) then hw_sti ;;; ret (Done E_NOEXS) else
  let tsk := Z.to_nat idx in
  let* t := get_task tsk in
  if negb (nz (Z.land (tskstat t) TTS_WAI)) then hw_sti ;;; ret (Done E_OBJ) else
  upd_task tsk (fun t => set_tskstat (Z.land (tskstat t) (u32 (Z.lnot TTS_WAI))) t) ;;;
  let* t := get_task tsk in
  when (negb (nz (tskstat t))) (rq_insert tsk ;;; upd_task tsk (set_tskstat TTS_RDY)) ;;;
  hw_sti ;;;
  scheduler ;;;
  ret (Cont (KReturn E_OK)).

(** The function ends inside its masked section, without a value. *)
Definition ter_tsk_sys (id : Z) : KM sysres :=
  let idx := id - 1 in
  if bad_tskid id then ret (Done E_ID) else
  if id =? TSK_SELF then ret (Done E_ILUSE) else
  hw_cli ;;;
  let* bm := gets (fun s => taskbmap (k_task s)) in
  if negb (nz (isbitset bm idx)) then hw_sti ;;; ret (Done E_NOEXS) else
  let tsk := Z.to_nat idx in
  let* t := get_task tsk in
  if tskstat t =? TTS_DMT then hw_sti ;;; ret (Done E_OBJ) else
  ret NoValue.

(** ** Finding the task *)

Lemma bad_tskid_false id : bad_tskid id = false -> 1 <= id <= MAX_TASKS.
Proof. unfold bad_tskid. rewrite orb_false_iff, Z.ltb_ge, Z.gtb_ltb, Z.ltb_ge. lia. Qed.

Lemma bad_tskid_true id : bad_tskid id = true -> ~ (1 <= id <= MAX_TASKS).
Proof. unfold bad_tskid. rewrite orb_true_iff, Z.ltb_lt, Z.gtb_ltb, Z.ltb_lt. lia. Qed.

(** [pick_task] finds the task of a valid identifier, if it exists. *)
Lemma wp_pick_task s id (Q : Z + nat -> kstate -> Prop) :
  tasks_ok s -> bad_tskid id = false ->
  (~ live s (Z.to_nat (id - 1)) -> Q (inl E_NOEXS) (sti_state s)) ->
  (forall t, live s (Z.to_nat (id - 1)) -> task_pool (k_task s) !! Z.to_nat (id - 1) = Some t ->
     Q (inr (Z.to_nat (id - 1))) s) ->
  wp (pick_task id) Q s.
Proof.
  intros Ht Hid Hno Hyes. pose proof (bad_tskid_false id Hid) as Hr.
  pose proof (live_bit s id Ht Hr) as Hl. unfold pick_task.
  destruct (Z.eqb_spec id TSK_SELF) as [E|_]; [unfold TSK_SELF in E; lia|]. wp_steps.
  destruct (nz (isbitset (taskbmap (k_task s)) (id - 1))); simpl.
  - assert (live s (Z.to_nat (id - 1))) as HL by (by apply Hl).
    destruct (live_pool s _ Ht HL) as [t Et]. apply wp_ret. by apply (Hyes t).
  - apply wp_bind, wp_sti, wp_ret, Hno. intros HL. by apply Hl in HL.
Qed.

(** A task system call on [id] that does not exist, or exists as [t]. *)
Definition task_call (s : kstate) (id : Z) (r : sysres) (s' : kstate)
    (Q : nat -> task_t -> Prop) : Prop :=
  imask (k_int s') = imask (k_int s) /\
  if bad_tskid id then r = Done E_ID /\ s' = s else
  let i := Z.to_nat (id - 1) in
  (~ live s i /\ r = Done E_NOEXS /\ s' = sti_state (cli_state s)) \/
  (live s i /\ exists t, task_pool (k_task s) !! i = Some t /\ Q i t).

(** ** Activation *)

(** The masked part of [act_tsk]: a dormant task becomes ready; for another task
    the request is counted. *)
Definition activate (tsk : nat) (t : task_t) : KM unit :=
  if tskstat t =? TTS_DMT then rq_insert tsk ;;; upd_task tsk (set_tskstat TTS_RDY)
  else upd_task tsk (fun t => set_actcnt (i32 (actcnt t + 1)) t).

Definition activated (s : kstate) (R : nat -> list nat) (i : nat) (t : task_t) : nat -> list nat :=
  if tskstat t =? TTS_DMT then rq_append (task_pool (k_task s)) R i else R.

Definition activated_task (t : task_t) : task_t :=
  if tskstat t =? TTS_DMT then set_tskstat TTS_RDY t else set_actcnt (i32 (actcnt t + 1)) t.

Lemma wp_activate s R W T i t (Q : unit -> kstate -> Prop) :
  kinv0 s R W T -> live s i -> task_pool (k_task s) !! i = Some t ->
  (forall s', kinv0 s' (activated s R i t) W T -> kframe s s' ->
     task_pool (k_task s') = <[i := activated_task t]> (task_pool (k_task s)) -> Q tt s') ->
  wp (activate i t) Q s.
Proof.
  intros H2 HL2 Et2 HQ. unfold activate, activated, activated_task in *. destruct (Z.eqb_spec (tskstat t) TTS_DMT) as [Hst|Hst].
  - assert (~ is_idle s i) as HI.
    { intros Hd. destruct (to_idle _ (ki_tasks _ _ _ _ H2)) as (d & td & Hd' & _ & Etd & Hn).
      unfold is_idle in *. rewrite Hd in Hd'. injection Hd' as <-. rewrite Et2 in Etd.
      by injection Etd as <-. }
    destruct (pl_dmt _ _ _ _ (ki_places _ _ _ _ H2) i t HL2 HI Et2 Hst) as (HR & HT & HW).
    apply wp_bind, (wp_rq_insert_frame _ R); [apply H2|apply H2|by eapply kinv_wakeable|].
    intros s3 Hf Hup Hpool Htq Hl3 Hrq. eapply wp_upd_task; [by rewrite Hpool|].
    rewrite Hpool. set (s4 := set_k_task _ s3). destruct Hf. apply HQ; [|split; try done; by simpl; rewrite length_insert|done].
    eapply (kinv0_activate s s4 R W T i t (set_tskstat TTS_RDY t)); try done.
    + split; try done; unfold s4; simpl; [apply Hup|by rewrite kf_int|by rewrite length_insert].
    + unfold rq in *. simpl. rewrite Hpool in Hrq. by apply rq_ok_upd.
    + apply (sync_frame s); [|done|apply H2]. intros j. by apply Hup.
    + unfold tq. simpl. rewrite Htq. eapply (tq_ok_pool _ _ _ _ (set_tskstat TTS_RDY)); [|done|by right].
      eapply tq_ok_rdy; [exact Hup|apply H2].
  - eapply wp_upd_task; [exact Et2|]. apply HQ; [|split; try done; by simpl; rewrite length_insert|done].
    by apply (kinv0_upd_task _ _ _ _ _ _ (fun t => set_actcnt (i32 (actcnt t + 1)) t)).
Qed.

(** The state after a call that has changed the task [i] to [t'] and then called the
    scheduler: the processor may have been switched, the ready queue has been
    written, there are entries in the log; the rest is as it was. *)
Definition rescheduled_with (s s' : kstate) (i : nat) (t' : task_t) : Prop :=
  (exists c c', current_task (k_sched s) = Some c /\ current_task (k_sched s') = Some c' /\
     task_pool (k_task s') = pool_switch (<[i := t']> (task_pool (k_task s))) c c') /\
  taskbmap (k_task s') = taskbmap (k_task s) /\ k_mem s' = k_mem s /\ same_objs s s' /\
  system_time (k_time s') = system_time (k_time s).

Lemma wp_act_tsk s R W T id :
  kinv s R W T ->
  wp (act_tsk_sys id) (fun r s' => task_call s id r s' (fun i t =>
    r = Cont (KReturn E_OK) /\ rescheduled_with s s' i (activated_task t) /\
    let R' := if tskstat t =? TTS_DMT then rq_append (task_pool (k_task s)) R i else R in
    kinv s' R' W T /\ scheduled s' R')) s.
Proof.
  intros Hk. pose proof (kinv0_cli _ _ _ _ (proj1 Hk)) as H1. unfold act_tsk_sys, task_call.
  destruct (bad_tskid id) eqn:Eb; [by apply wp_ret|].
  apply wp_bind, wp_cli, wp_bind, wp_pick_task; [apply H1|done| |].
  { intros HL. apply wp_ret. split; [done|]. left. done. }
  intros t HL Et. set (i := Z.to_nat (id - 1)) in *.
  apply wp_bind. eapply wp_get_task; [exact Et|].
  apply wp_bind, wp_write_log; [apply H1|]. intros l Hl. apply wp_bind.
  pose proof (kinv0_log _ _ _ _ l H1 Hl) as H2. set (s2 := set_k_log l (cli_state s)) in *.
  assert (task_pool (k_task s2) !! i = Some t) as Et2 by exact Et.
  assert (live s2 i) as HL2 by exact HL.
  eapply (wp_activate s2 R W T i t); [exact H2|exact HL2|exact Et2|]. intros s4 H4 [] Hp4.
  eapply wp_sti_scheduler; [exact H4|by unfold masked; rewrite kf_int|].
  intros s' c d Hk' Hs' Him Hd Hc Hi. split; [done|]. right. split; [done|]. exists t. split; [done|].
  split; [done|]. split; [|done]. destruct Hd as [[] _ Hcu Hp]. simpl in *. split_and!; try congruence.
  - exists c, (next_task (activated s2 R i t) d). split_and!; [congruence|done|]. by rewrite Hp, Hp4.
  - split; congruence.
Qed.

(** ** Sleeping *)

(** The caller of a system call: the current task, which is not the idle task. *)
Lemma caller_ready s R W T c : kinv s R W T -> current_task (k_sched s) = Some c -> ~ is_idle s c ->
  exists p t, c ∈ R p /\ task_pool (k_task s) !! c = Some t /\ tskpri t = Z.of_nat p /\ tskid t = Z.of_nat c + 1.
Proof.
  intros [H (c0 & Ec0 & Hc0)] Ec HI. rewrite Ec in Ec0. injection Ec0 as <-.
  destruct Hc0 as [|[p Hp]]; [done|].
  destruct (rq_place _ _ _ _ _ _ H Hp) as (t & Et & Hpt & Hid & _). exists p, t. done.
Qed.

Lemma wp_slp_tsk s R W T c :
  kinv s R W T -> current_task (k_sched s) = Some c -> ~ is_idle s c ->
  wp slp_tsk_sys (fun r s' => exists p, c ∈ R p /\ r = Cont (KReturn E_OK) /\
    imask (k_int s') = imask (k_int s) /\
    kinv s' (rq_drop R p c) W T /\ scheduled s' (rq_drop R p c)) s.
Proof.
  intros Hk Hcur HI. destruct (caller_ready s R W T c Hk Hcur HI) as (p & t & Hc & Et & Hpt & Hid).
  pose proof (kinv0_cli _ _ _ _ (proj1 Hk)) as H1. unfold slp_tsk_sys.
  apply wp_bind, wp_cli. wp_steps. apply wp_write_log; [apply H1|]. intros l Hl. apply wp_seq.
  pose proof (kinv0_log _ _ _ _ l H1 Hl) as H2.
  eapply (wp_leave _ R W T c p t); [exact H2|done|exact Et|by left|done..|].
  intros s3 H3 Hbl Hke. eapply wp_sti_scheduler; [exact H3|by unfold masked; rewrite (bl_int _ _ _ _ Hbl)|].
  intros s' c' d Hk' Hs' Him Hd _ _. exists p. done.
Qed.

Lemma tq_state_rq s R m h i t f : nodes_upd SlpQue (k_nodes s) m -> task_pool (k_task s) !! i = Some t ->
  tskpri (f t) = tskpri t -> rq s R -> rq (tq_state s m h (<[i := f t]> (task_pool (k_task s)))) R.
Proof.
  intros [Hup _] Et Hf H. apply rq_ok_upd; [done|done|]. simpl.
  eapply (rq_ok_frame (k_nodes s) _ (k_sched s)); [|done|done|eauto|exact H]. intros j. by apply Hup.
Qed.

(** [tslp_tsk] moves the caller from the ready queue to its place in the
    timeout queue. *)
Lemma wp_tslp_tsk s R W T c tmout :
  kinv s R W T -> current_task (k_sched s) = Some c -> ~ is_idle s c ->
  1 <= tmout < u32 (-1) ->
  wp (tslp_tsk_sys tmout) (fun r s' => exists p t, c ∈ R p /\ task_pool (k_task s) !! c = Some t /\
    r = Cont (KReturn E_OK) /\ imask (k_int s') = imask (k_int s) /\
    let w := u64 (tmout + system_time (k_time s)) in
    let T' := tq_place (<[c := set_wuptim w t]> (task_pool (k_task s))) w c T in
    kinv s' (rq_drop R p c) W T' /\ scheduled s' (rq_drop R p c)) s.
Proof.
  intros Hk Hcur HI Htm. destruct (caller_ready s R W T c Hk Hcur HI) as (p & t & Hc & Et & Hpt & Hid).
  pose proof (kinv0_cli _ _ _ _ (proj1 Hk)) as H1.
  destruct (rq_place _ _ _ _ _ _ H1 Hc) as (t0 & Et0 & _ & _ & Hpri & HL & _ & HT & HW & Hu).
  replace t0 with t in * by (simpl in Et0; congruence). clear Et0.
  unfold tslp_tsk_sys, TMO_FEVR, TMO_POL.
  destruct (Z.eqb_spec tmout 0); [lia|]. destruct (Z.eqb_spec tmout (u32 (-1))); [lia|].
  destruct (Z.ltb_spec tmout 1); [lia|].
  apply wp_bind, wp_cli. wp_steps.
  eapply (wp_tq_insert _ T c t); [apply H1|exact Et|done| |].
  { apply (to_this _ (ki_tasks _ _ _ _ H1) c SlpQue); [done|done|]. right; right; left. }
  set (w := u64 (tmout + system_time (k_time (cli_state s)))). intros m h Hup Htq.
  set (pool := <[c := set_wuptim w t]> (task_pool (k_task (cli_state s)))) in *.
  assert (pool !! c = Some (set_wuptim w t)) as Ec
    by (apply list_lookup_insert_eq; by eapply lookup_lt_Some).
  wp_steps. apply wp_write_log; [apply H1|]. intros l Hl. wp_steps.
  eapply wp_upd_task; [exact Ec|]. set (t' := set_tskwait _ _). apply wp_bind.
  eapply (wp_rq_remove _ R c t').
  - apply (rq_ok_upd _ _ _ _ c (set_wuptim w t) (fun _ => t')); [exact Ec|done|].
    eapply (tq_state_rq (cli_state s) R m h c t (set_wuptim w)); [done|done|done|apply H1].
  - exact Hl.
  - apply list_lookup_insert_eq. by eapply lookup_lt_Some.
  - done.
  - replace (Z.to_nat (tskpri t')) with p by (simpl; lia). intros m' qs bm l' Hl' Hup' Hrq'.
    set (s3 := rq_state _ _ _ _ _) in *.
    assert (kinv0 s3 (rq_drop R p c) W (tq_place pool w c T)) as H3.
    { eapply (kinv0_sleep (cli_state s) s3 R W T H1 Hl'); [| |done|exact Hc|exact Hrq'| | | | | | |].
      - by eapply pools_ok_frame; [|apply H1].
      - split; try done.
        + intros a. unfold s3. simpl. destruct Hup' as [_ ->]. simpl. by destruct Hup as [_ ->].
        + unfold s3, pool. simpl. by rewrite !length_insert.
      - apply (sync_frame (cli_state s)); [|done|apply H1]. intros j. unfold s3. simpl.
        destruct Hup' as [-> _]; [|done]. simpl. destruct Hup as [-> _]; done.
      - unfold tq, s3. simpl. eapply (tq_ok_pool _ _ _ _ (fun _ => t')); [|exact Ec|by right].
        eapply tq_ok_rdy; [exact Hup'|exact Htq].
      - intros j Hj. unfold s3, pool. simpl. by rewrite !list_lookup_insert_ne.
      - unfold s3. simpl. apply list_lookup_insert_eq. by eapply lookup_lt_Some.
      - done.
      - done.
      - done. }
    eapply wp_sti_scheduler; [exact H3|done|].
    intros s' c' d Hk' Hs' Him Hd _ _. exists p, t. done.
Qed.

(** ** Exit *)

(** The lists after the task [c] of priority [p] has left hold it no more. *)
Lemma nowhere_drop s R W T p c : kinv0 s R W T -> c ∈ R p -> nowhere (rq_drop R p c) W T c.
Proof.
  intros H Hc. destruct (rq_place _ _ _ _ _ _ H Hc) as (t & _ & _ & _ & _ & _ & _ & HT & HW & Hu).
  split_and!; [|done|done]. intros q. rewrite elem_of_rq_drop by done. tauto.
Qed.

Lemma wp_ext_tsk s R W T c :
  kinv s R W T -> current_task (k_sched s) = Some c -> ~ is_idle s c ->
  wp ext_tsk_sys (fun r s' => exists p, c ∈ R p /\ r = Cont KExit /\
    imask (k_int s') = imask (k_int s) /\ live s' c /\
    kinv s' (rq_drop R p c) W T /\ scheduled s' (rq_drop R p c)) s.
Proof.
  intros Hk Hcur HI. destruct (caller_ready s R W T c Hk Hcur HI) as (p & t & Hc & Et & Hpt & Hid).
  pose proof (kinv0_cli _ _ _ _ (proj1 Hk)) as H1. unfold ext_tsk_sys.
  apply wp_bind, wp_cli, wp_bind. eapply wp_get_current; [exact Hcur|]. apply wp_seq.
  eapply (wp_leave_then _ R W T c p t (set_tskstat TTS_DMT)); [exact H1|done|exact Et|by right|done..|].
  intros s2 H2 [_ Hint _ _ _ Hpool] Hke. apply wp_bind. eapply wp_get_task.
  { rewrite Hpool. apply list_lookup_insert_eq. by eapply lookup_lt_Some. }
  apply wp_bind, wp_write_log; [apply H2|]. intros l Hl.
  eapply wp_sti_scheduler; [by apply kinv0_log|by unfold masked; simpl; rewrite Hint|].
  intros s' c' d Hk' Hs' Him Hd _ _. exists p. split_and!; try done.
  apply (dispatched_keeps _ _ _ _ Hd). apply Hke.
  by destruct (rq_place _ _ _ _ _ _ H1 Hc) as (? & _ & _ & _ & _ & HL & _).
Qed.

Lemma wp_exd_tsk s R W T c :
  kinv s R W T -> current_task (k_sched s) = Some c -> ~ is_idle s c ->
  wp exd_tsk_sys (fun r s' => exists p, c ∈ R p /\ r = Cont KExit /\
    imask (k_int s') = imask (k_int s) /\ (~ live s' c) /\
    kinv s' (rq_drop R p c) W T /\ scheduled s' (rq_drop R p c)) s.
Proof.
  intros Hk Hcur HI. destruct (caller_ready s R W T c Hk Hcur HI) as (p & t & Hc & Et & Hpt & Hid).
  pose proof (kinv0_cli _ _ _ _ (proj1 Hk)) as H1. unfold exd_tsk_sys.
  apply wp_bind, wp_cli, wp_bind. eapply wp_get_current; [exact Hcur|]. apply wp_seq.
  eapply (wp_leave_then _ R W T c p t (set_tskstat TTS_DMT)); [exact H1|done|exact Et|by right|done..|].
  intros s2 H2 [_ Hint _ _ Hcu Hpool] Hke. apply wp_bind. eapply wp_get_task.
  { rewrite Hpool. apply list_lookup_insert_eq. by eapply lookup_lt_Some. }
  unfold clear_taskbit. wp_steps. apply wp_write_log; [apply H2|]. intros l Hl.
  simpl tskid. rewrite Hid. replace (Z.of_nat c + 1 - 1) with (Z.of_nat c) by lia.
  destruct (rq_place _ _ _ _ _ _ H1 Hc) as (? & _ & _ & _ & _ & HL & _).
  assert (c < 32)%nat as Hc32 by (destruct HL as [HL _]; unfold MAX_TASKS, CONFIG_MAX_TASKS in HL; lia).
  assert (~ is_idle s2 c) as HI2.
  { intros Hi. destruct (to_idle _ (ki_tasks _ _ _ _ H2)) as (d & td & Hd & _ & Etd & Hn).
    unfold is_idle in *. rewrite Hi in Hd. injection Hd as <-.
    rewrite Hpool, list_lookup_insert_eq in Etd by (by eapply lookup_lt_Some).
    by injection Etd as <-. }
  pose proof (kinv0_kill s2 _ _ _ c H2 Hc32 (nowhere_drop _ _ _ _ _ _ H1 Hc) HI2) as H3.
  eapply wp_sti_scheduler; [by apply kinv0_log|by unfold masked; simpl; rewrite Hint|].
  intros s' c' d Hk' Hs' Him Hd _ _. exists p. split_and!; try done.
  intros [_ HL']%(dispatched_keeps _ _ _ _ Hd). simpl in HL'.
  rewrite clearbit_bit, Z.eqb_refl in HL' by (apply (to_bmap _ (ki_tasks _ _ _ _ H2)) || lia). done.
Qed.

(** ** Deletion *)

Lemma wp_del_tsk s R W T id :
  kinv s R W T ->
  wp (del_tsk_sys id) (fun r s' => task_call s id r s' (fun i t =>
    kinv s' R W T /\
    if tskstat t =? TTS_DMT then r = Done E_OK /\ ~ live s' i else r = Done E_OBJ /\ live s' i)) s.
Proof.
  intros Hk. pose proof (kinv0_cli _ _ _ _ (proj1 Hk)) as H1. unfold del_tsk_sys, task_call.
  destruct (bad_tskid id) eqn:Eb; [by apply wp_ret|].
  apply wp_bind, wp_cli. wp_steps. pose proof (bad_tskid_false id Eb) as Hid.
  pose proof (live_bit (cli_state s) id (ki_tasks _ _ _ _ H1) Hid) as Hl.
  destruct (nz (isbitset (taskbmap (k_task (cli_state s))) (id - 1))); cbn [negb].
  2: { wp_steps. split; [done|]. left. split_and!; [|done|done]. intros HL.
       assert (false = true) by (by apply Hl). done. }
  set (i := Z.to_nat (id - 1)) in *. assert (live (cli_state s) i) as HL by (by apply Hl).
  destruct (live_pool _ _ (ki_tasks _ _ _ _ H1) HL) as [t Et].
  apply wp_bind. eapply wp_get_task; [exact Et|].
  destruct (Z.eqb_spec (tskstat t) TTS_DMT) as [Hst|Hst]; cbn [negb].
  2: { wp_steps. split; [done|]. right. split; [done|]. exists t. split; [done|].
       destruct (Z.eqb_spec (tskstat t) TTS_DMT); [done|]. split; [|done].
       by apply (kinv_sti (cli_state s)), kinv_cli. }
  assert (~ is_idle (cli_state s) i) as HI.
  { intros Hd. destruct (to_idle _ (ki_tasks _ _ _ _ H1)) as (d & td & Hd' & _ & Etd & Hn).
    unfold is_idle in *. rewrite Hd in Hd'. injection Hd' as <-. rewrite Et in Etd. by injection Etd as <-. }
  destruct (pl_dmt _ _ _ _ (ki_places _ _ _ _ H1) i t HL HI Et Hst) as (HR & HT & HW).
  assert (MAX_TASKS = 5) as HM by done.
  assert (id - 1 = Z.of_nat i) as Ei by (unfold i; lia). rewrite Ei.
  unfold clear_taskbit. wp_steps. apply wp_write_log; [apply H1|]. intros l Hlog. wp_steps.
  assert (i < 32)%nat as Hi32 by lia.
  pose proof (kinv0_kill (cli_state s) R W T i H1 Hi32 (conj HR (conj HW HT)) HI) as H2.
  split; [done|]. right. split; [done|]. exists t. split; [done|]. rewrite Hst. simpl. split_and!; [|done|].
  - split; [|apply Hk]. by apply kinv0_sti, kinv0_log.
  - intros [_ HL']. simpl in HL'.
    rewrite clearbit_bit, Z.eqb_refl in HL' by (apply (to_bmap _ (ki_tasks _ _ _ _ H1)) || lia). done.
Qed.

(** ** Priorities and counters *)

Lemma elem_of_rq_move R i p p' q j : (forall q, i ∈ R q -> q = p) ->
  j ∈ rq_move R i p p' q <-> (j <> i /\ j ∈ R q) \/ (j = i /\ q = p').
Proof.
  intros Hu. unfold rq_move. fold (rq_drop R p i).
  rewrite elem_of_fn_insert, elem_of_app, list_elem_of_singleton.
  destruct (decide (q = p')) as [->|Hne]; rewrite !elem_of_rq_drop by done; intuition.
Qed.

Lemma set_tskpri_twice n t : set_tskpri n (set_tskpri n t) = set_tskpri n t.
Proof. by destruct t. Qed.

(** A ready task moves to the tail of its new priority; the priority of a task
    in any other state is not changed. *)
Lemma wp_chg_pri s R W T id pri :
  kinv s R W T -> ~ is_idle s (Z.to_nat (id - 1)) -> 0 <= pri ->
  wp (chg_pri_sys id pri) (fun r s' =>
    if bad_tskid id then r = Done E_ID /\ s' = s else
    if pri >? MIN_TASK_PRIORITY then r = Done E_PAR /\ s' = s else
    task_call s id r s' (fun i t =>
      r = Cont (KReturn E_OK) /\
      if tskstat t =? TTS_RDY
      then let R' := rq_move R i (Z.to_nat (tskpri t)) (Z.to_nat pri) in
           kinv s' R' W T /\ scheduled s' R'
      else kinv s' R W T /\ scheduled s' R)) s.
Proof.
  intros Hk HI Hpri. pose proof (kinv0_cli _ _ _ _ (proj1 Hk)) as H1. unfold chg_pri_sys, task_call.
  destruct (bad_tskid id) eqn:Eb; [by apply wp_ret|].
  destruct (Z.ltb_spec pri 0); [lia|]. simpl. unfold MIN_TASK_PRIORITY, PRIORITY_LEVELS in *.
  destruct (Z.gtb_spec pri (32 - 1)) as [|Hle]; [by apply wp_ret|].
  apply wp_bind, wp_cli, wp_bind, wp_pick_task; [apply H1|done| |].
  { intros HL. apply wp_ret. split; [done|]. left. done. }
  intros t HL Et. set (i := Z.to_nat (id - 1)) in *.
  apply wp_bind. eapply wp_get_task; [exact Et|].
  apply wp_bind, wp_write_log; [apply H1|]. intros l Hl. apply wp_bind.
  pose proof (kinv0_log _ _ _ _ l H1 Hl) as H2. set (s2 := set_k_log l (cli_state s)) in *.
  unfold when. destruct (Z.eqb_spec (tskstat t) TTS_RDY) as [Hst|Hst].
  - destruct (pl_run _ _ _ _ (ki_places _ _ _ _ H2) i t HL HI Et (or_intror Hst)) as [p Hp].
    destruct (rq_place _ _ _ _ _ _ H2 Hp) as (t0 & Et0 & Hpt & Hid & Hprit & _ & _ & HT & HW & Hu).
    replace t0 with t in * by (simpl in *; congruence). clear Et0.
    apply wp_bind. eapply (wp_rq_relocate s2 R i t pri); [apply H2|done|exact Et|done|lia| |].
    { by apply (to_this _ (ki_tasks _ _ _ _ H2) i RdyQue); [..|left]. }
    intros s3 Hf Hup Hpool Htq Hl3 Hrq.
    assert (task_pool (k_task s3) !! i = Some (set_tskpri pri t)) as E3.
    { rewrite Hpool. apply list_lookup_insert_eq. by eapply lookup_lt_Some. }
    eapply wp_upd_task; [exact E3|]. rewrite set_tskpri_twice, list_insert_id by done.
    replace (set_k_task (set_task_pool (task_pool (k_task s3)) (k_task s3)) s3) with s3
      by (by destruct s3 as [? ? [] ? ? ? ? ? ? ? ? ?]).
    replace (Z.to_nat (tskpri t)) with p in * by lia.
    assert (kinv0 s3 (rq_move R i p (Z.to_nat pri)) W T) as H3.
    { destruct Hf. eapply (kinv0_move s2 s3 R W T _ _ _ i (set_tskpri pri t)); try done.
      - apply (sync_frame s2); [|done|apply H2]. intros j. by apply Hup.
      - unfold tq. rewrite Htq, Hpool. eapply (tq_ok_pool _ _ _ _ (set_tskpri pri)); [|done|by right].
        eapply tq_ok_rdy; [exact Hup|apply H2].
      - by eapply pools_ok_frame; [|apply H2].
      - split; try done; [apply Hup|]. by rewrite kf_int.
      - intros j Hj. by rewrite Hpool, list_lookup_insert_ne.
      - simpl. lia.
      - intros j Hj. split_and!; [|done..]. intros q. rewrite elem_of_rq_move by done. naive_solver.
      - simpl. rewrite Hst. split_and!; [|done|done|done]. intros _. exists (Z.to_nat pri).
        rewrite elem_of_rq_move by done. by right.
      - intros k j Hj. pose proof (pl_open _ _ _ _ (ki_places _ _ _ _ H2) k j Hj).
        destruct k; simpl in *; congruence. }
    eapply wp_sti_scheduler; [exact H3|by unfold masked; rewrite (kf_int _ _ Hf)|].
    intros s' c d Hk' Hs' Him Hd _ _. split; [done|]. right. split; [done|]. exists t. split; [done|].
    rewrite Hst. simpl. by replace (Z.to_nat (tskpri t)) with p by lia.
  - apply wp_ret. eapply wp_sti_scheduler; [exact H2|done|].
    intros s' c d Hk' Hs' Him Hd _ _. split; [done|]. right. split; [done|]. exists t. split; [done|].
    by destruct (Z.eqb_spec (tskstat t) TTS_RDY).
Qed.

(** [can_act] returns the pending activations and clears them. *)
Lemma wp_can_act s R W T id :
  kinv s R W T ->
  wp (can_act_sys id) (fun r s' => task_call s id r s' (fun i t =>
    r = Done (actcnt t) /\ kinv s' R W T /\
    task_pool (k_task s') = <[i := set_actcnt 0 t]> (task_pool (k_task s)))) s.
Proof.
  intros Hk. pose proof (kinv0_cli _ _ _ _ (proj1 Hk)) as H1. unfold can_act_sys, task_call.
  destruct (bad_tskid id) eqn:Eb; [by apply wp_ret|].
  apply wp_bind, wp_cli, wp_bind, wp_pick_task; [apply H1|done| |].
  { intros HL. apply wp_ret. split; [done|]. left. done. }
  intros t HL Et. apply wp_bind. eapply wp_get_task; [exact Et|].
  apply wp_bind. eapply wp_upd_task; [exact Et|].
  pose proof (kinv0_upd_task _ _ _ _ _ t (set_actcnt 0) H1 Et eq_refl eq_refl eq_refl eq_refl) as H2.
  apply wp_bind, wp_write_log; [apply H2|]. intros l Hl. wp_steps.
  split; [done|]. right. split; [done|]. exists t. split_and!; [done|done| |done].
  split; [|apply Hk]. by apply kinv0_sti, kinv0_log.
Qed.

Lemma wp_can_wup s R W T id :
  kinv s R W T ->
  wp (can_wup_sys id) (fun r s' => task_call s id r s' (fun i t =>
    r = Done (wupcnt t) /\ kinv s' R W T /\
    task_pool (k_task s') = <[i := set_wupcnt 0 t]> (task_pool (k_task s)))) s.
Proof.
  intros Hk. pose proof (kinv0_cli _ _ _ _ (proj1 Hk)) as H1. unfold can_wup_sys, task_call.
  destruct (bad_tskid id) eqn:Eb; [by apply wp_ret|].
  apply wp_bind, wp_cli, wp_bind, wp_pick_task; [apply H1|done| |].
  { intros HL. apply wp_ret. split; [done|]. left. done. }
  intros t HL Et. apply wp_bind. eapply wp_get_task; [exact Et|].
  apply wp_bind. eapply wp_upd_task; [exact Et|].
  pose proof (kinv0_upd_task _ _ _ _ _ t (set_wupcnt 0) H1 Et eq_refl eq_refl eq_refl eq_refl) as H2.
  apply wp_bind, wp_write_log; [apply H2|]. intros l Hl. wp_steps.
  split; [done|]. right. split; [done|]. exists t. split_and!; [done|done| |done].
  split; [|apply Hk]. by apply kinv0_sti, kinv0_log.
Qed.

(** [get_pri] stores the priority of a task that is not dormant. *)
Lemma wp_get_pri s R W T id ptr :
  kinv s R W T ->
  wp (get_pri_sys id ptr) (fun r s' =>
    if bad_tskid id then r = Done E_ID /\ s' = s else
    if valid_addr ptr then task_call s id r s' (fun i t =>
      kinv s' R W T /\
      if tskstat t =? TTS_DMT then r = Done E_OBJ
      else r = Done E_OK /\ peek (k_mem s') ptr = tskpri t)
    else r = Done E_PAR /\ s' = s) s.
Proof.
  intros Hk. pose proof (kinv0_cli _ _ _ _ (proj1 Hk)) as H1. unfold get_pri_sys, task_call.
  destruct (bad_tskid id) eqn:Eb; [by apply wp_ret|].
  assert (negb (nz ptr) || nz (Z.land ptr 3) = negb (valid_addr ptr)) as ->.
  { unfold valid_addr, nz. by destruct (ptr =? 0), (Z.land ptr 3 =? 0). }
  destruct (valid_addr ptr) eqn:Ev; cbn [negb]; [|by apply wp_ret].
  apply wp_bind, wp_cli, wp_bind, wp_pick_task; [apply H1|done| |].
  { intros HL. apply wp_ret. split; [done|]. left. done. }
  intros t HL Et. apply wp_bind. eapply wp_get_task; [exact Et|].
  destruct (to_task _ (ki_tasks _ _ _ _ H1) _ t HL Et) as [_ Hpri].
  destruct (Z.eqb_spec (tskstat t) TTS_DMT) as [Hst|Hst].
  - wp_steps. split; [done|]. right. split; [done|]. exists t. split; [done|]. rewrite Hst. simpl.
    split; [|done]. by apply (kinv_sti (cli_state s)), kinv_cli.
  - apply wp_bind. unfold kmem, zoom, wp at 1. rewrite store_valid by done. wp_steps.
    split; [done|]. right. split; [done|]. exists t. split; [done|]. simpl.
    destruct (Z.eqb_spec (tskstat t) TTS_DMT); [done|]. split_and!; [|done|].
    + split; [|apply Hk]. by apply kinv0_sti, (kinv0_mem (cli_state s)).
    + rewrite peek_insert_eq. apply u32_small. lia.
Qed.

(** ** Creation *)

(** The stack pointers of a task have changed, and nothing else of it. *)
Definition same_but_stack (t t' : task_t) : Prop :=
  set_stk 0 (set_kstk 0 t') = set_stk 0 (set_kstk 0 t).

(** The state after a write to the memory and to one task. *)
Definition stack_state (s : kstate) mem su (i : nat) (t : task_t) : kstate :=
  set_k_setup su (set_k_mem mem
    (set_k_task (set_task_pool (<[i := t]> (task_pool (k_task s))) (k_task s)) s)).

(** [init_stack] writes the stack pointers of the task, the stack and the
    allocator. *)
Lemma init_stack_frame s i t : task_pool (k_task s) !! i = Some t ->
  wlp (init_stack i) (fun _ s' => exists mem su t', same_but_stack t t' /\
    s' = stack_state s mem su i t') s.
Proof.
  intros Et. unfold init_stack.
  assert (forall s1 t1 mem1 su1, same_but_stack t t1 -> s1 = stack_state s mem1 su1 i t1 ->
    wlp (upd_task i (fun t => set_kstk (u32 (kstk t - 4)) t) ;;;
         let* t := get_task i in
         let* fn := gets (fun s => startup_entry (img (k_setup s))) in
         kmem (store (kstk t) fn) ;;; ret 0)
      (fun _ s' => exists mem su t', same_but_stack t t' /\ s' = stack_state s mem su i t') s1) as Htail.
  { intros s1 t1 mem1 su1 H1 ->. assert (i < length (task_pool (k_task s)))%nat as Hi by (by eapply lookup_lt_Some).
    unfold wlp, bind, upd_task, get_task, gets, kmem, zoom, store, ret. cbn -[insert lookup].
    rewrite !list_lookup_insert_eq by done. cbn -[insert lookup].
    rewrite list_insert_insert_eq, list_lookup_insert_eq by done. cbn -[insert lookup].
    destruct (valid_addr _); [|done]. cbn -[insert lookup].
    eexists _, _, _. split; [|reflexivity]. revert H1. unfold same_but_stack. by destruct t, t1. }
  apply wlp_bind. unfold wlp at 1. unfold get_task. rewrite Et. apply wlp_bind.
  destruct (nz (Z.land (exinf t) TSK_KERNEL)).
  - unfold wlp at 1, upd_task at 1. rewrite Et. apply (Htail _ (set_kstk (u32 (stk t + stksz t - 4)) t) (k_mem s) (k_setup s)).
    + by destruct t.
    + by destruct s.
  - assert (i < length (task_pool (k_task s)))%nat as Hi by (by eapply lookup_lt_Some).
    unfold wlp at 1, bind, upd_task at 1. rewrite Et. unfold gets, ktlsf, zoom.
    destruct (malloc_ex _ _ _) as [[p tl]|]; [|done]. unfold upd_task. cbn -[insert lookup].
    rewrite list_lookup_insert_eq by done.
    apply (Htail _ (set_kstk (u32 (p + CONFIG_KSTACK_SIZE - 4)) (set_stk (u32 (stk t + stksz t - 4)) t))
      (t_mem tl) (set_mp (t_mp tl) (k_setup s))).
    + by destruct t.
    + unfold stack_state. cbn -[insert]. by rewrite list_insert_insert_eq.
Qed.

(** The task that a creation writes, up to its stack. *)
Definition new_task (id : Z) (pk : T_CTSK) : task_t :=
  set_stk (c_stk pk) (set_stksz (c_stksz pk) (set_tskid id (set_tskpri (c_itskpri pk)
    (set_tskstat TTS_DMT (set_extdat (c_extdat pk) (set_task (c_task pk)
      (set_exinf (c_exinf pk) (set_tskatr (c_tskatr pk) zero_task)))))))).

(** The node store after a slot is reset and its [this] pointers are set. *)
Definition born_nodes (i : nat) (m : gmap laddr linked_list_t) : gmap laddr linked_list_t :=
  set_this (RdyQue i) (Some (OTask i)) (set_this (SynQue i) (Some (OTask i))
    (set_this (SlpQue i) (Some (OTask i)) (<[TskAct i := null_node]> (<[SlpQue i := null_node]>
      (<[SynQue i := null_node]> (<[RdyQue i := null_node]> m)))))).

Lemma born_nodes_other i m a :
  a <> RdyQue i -> a <> SynQue i -> a <> SlpQue i -> a <> TskAct i -> node (born_nodes i m) a = node m a.
Proof.
  intros H1 H2 H3 H4. unfold born_nodes, set_this.
  by repeat (rewrite node_insert, decide_False by (by intros <-)).
Qed.

Lemma born_nodes_self i m nd : nd ∈ [RdyQue; SynQue; SlpQue] ->
  node (born_nodes i m) (nd i) = mk_list None None (Some (OTask i)).
Proof.
  intros Hnd. apply node_eq; unfold born_nodes;
    (apply task_kinds in Hnd as [->|[->| ->]]; node_simpl;
     repeat (rewrite node_insert; case_decide; try done)).
Qed.

(** The state in which the stack of a new task is set up. *)
Definition born_state (s : kstate) (i : nat) (pk : T_CTSK) : kstate :=
  set_k_task (set_task_pool (<[i := new_task (Z.of_nat i + 1) pk]> (task_pool (k_task s)))
    (k_task s)) (set_k_nodes (born_nodes i (k_nodes s)) s).

Lemma fill_task_eq s i pk t : task_pool (k_task s) !! i = Some t ->
  fill_task (Z.of_nat i) (Z.of_nat i + 1) pk s =
  (let* _ := init_stack i in set_taskbit (Z.of_nat i)) (born_state s i pk).
Proof.
  intros Et. assert (i < length (task_pool (k_task s)))%nat as Hlt by (by eapply lookup_lt_Some).
  unfold fill_task, zero_task_at, set_task_this. rewrite Nat2Z.id.
  unfold bind at 1 2 3 4 5 6 7 8. unfold upd_task, upd_nodes, modify. rewrite Et. cbn -[insert lookup init_stack].
  repeat (rewrite list_lookup_insert_eq by (by rewrite ?length_insert); cbn -[insert lookup init_stack]).
  by rewrite !list_insert_insert_eq.
Qed.

(** Filling a free slot: if the stack can be set up, the task is created. *)
Lemma wlp_fill_task s R W T i pk (Q : unit -> kstate -> Prop) :
  kinv0 s R W T -> Z.of_nat i < MAX_TASKS -> ~ live s i -> 0 <= c_itskpri pk < 32 ->
  (forall s', kinv0 s' R W T -> live s' i -> (forall j, live s j -> live s' j) ->
     k_sched s' = k_sched s -> k_int s' = k_int s -> same_objs s s' -> k_log s' = k_log s ->
     taskbmap (k_task s') = setbit (taskbmap (k_task s)) (Z.of_nat i) ->
     (exists t', task_pool (k_task s') = <[i := t']> (task_pool (k_task s)) /\
        same_but_stack (new_task (Z.of_nat i + 1) pk) t') -> Q tt s') ->
  wlp (fill_task (Z.of_nat i) (Z.of_nat i + 1) pk) Q s.
Proof.
  intros H Hi HL Hpri HQ. pose proof (to_len _ (ki_tasks _ _ _ _ H)) as Hlen.
  assert (MAX_TASKS = 5) as HM by done.
  destruct (lookup_lt_is_Some_2 (task_pool (k_task s)) i) as [t Et]; [lia|].
  assert (i < length (task_pool (k_task s)))%nat as Hlt by lia.
  unfold wlp. rewrite (fill_task_eq s i pk t Et). set (s1 := born_state s i pk).
  change (wlp (let* _ := init_stack i in set_taskbit (Z.of_nat i)) Q s1).
  apply wlp_bind. eapply wlp_mono.
  { eapply init_stack_frame. apply list_lookup_insert_eq. done. }
  intros _ s2 (mem & su & t' & Hst & ->). apply wp_wlp. unfold set_taskbit. apply wp_modify.
  assert (tskid t' = Z.of_nat i + 1 /\ tskpri t' = c_itskpri pk /\ tskstat t' = TTS_DMT) as (F1 & F2 & F3).
  { unfold same_but_stack in Hst. destruct t'. unfold new_task, set_stk, set_kstk in Hst. simpl in Hst.
    by injection Hst as -> _ _ _ -> -> _. }
  set (s3 := set_k_task _ _).
  assert (task_pool (k_task s3) = <[i := t']> (task_pool (k_task s))) as Hpool.
  { unfold s3, stack_state, s1, born_state. cbn -[insert]. by rewrite list_insert_insert_eq. }
  assert (kinv0 s3 R W T) as H3.
  { eapply (kinv0_born s s3 R W T i t'); try done.
    - apply H.
    - by rewrite F2.
    - intros j nd Hnd Hj. apply born_nodes_other; apply task_kinds in Hnd as [->|[->| ->]]; congruence.
    - intros nd Hnd. unfold clean. simpl. rewrite (born_nodes_self i _ nd Hnd). done. }
  pose proof (to_bmap _ (ki_tasks _ _ _ _ H)) as Hbm.
  apply HQ; try done.
  - split; [done|]. cbn. by rewrite setbit_bit, Z.eqb_refl by (done || lia).
  - intros j [Hj1 Hj2]. split; [done|]. cbn. by rewrite setbit_bit, Hj2, orb_true_r by (done || lia).
  - by exists t'.
Qed.

Lemma kinv0_actnode s R W T i : kinv0 s R W T ->
  kinv0 (set_k_nodes (set_this (TskAct i) (Some (OTask i)) (k_nodes s)) s) R W T.
Proof.
  intros H. eapply (kinv0_objs s); [exact H| |done|done|done|apply H| |by intros []|].
  - intros j nd Hnd. unfold set_this. simpl. rewrite node_insert, decide_False; [done|].
    by apply task_kinds in Hnd as [->|[->| ->]].
  - by eapply pools_ok_frame; [|apply H].
  - intros k j Hj. by apply (pl_open _ _ _ _ (ki_places _ _ _ _ H) k j).
Qed.

(** What a successful creation leaves. *)
Definition created (s s' : kstate) R W T (i : nat) (pk : T_CTSK) : Prop :=
  kinv s' R W T /\ (forall j, live s j -> live s' j) /\ live s' i /\
  taskbmap (k_task s') = setbit (taskbmap (k_task s)) (Z.of_nat i) /\ k_sched s' = k_sched s /\
  exists t', task_pool (k_task s') = <[i := t']> (task_pool (k_task s)) /\
    same_but_stack (new_task (Z.of_nat i + 1) pk) t'.

Lemma wlp_create s R W T i pk fn x (r : sysres) :
  kinv s R W T -> Z.of_nat i < MAX_TASKS -> ~ live s i -> 0 <= c_itskpri pk < 32 ->
  wlp (fill_task (Z.of_nat i) (Z.of_nat i + 1) pk ;;; write_log fn (Z.of_nat i + 1) x ;;;
       upd_nodes (set_this (TskAct i) (Some (OTask i))) ;;; hw_sti ;;; ret r)
    (fun r' s' => r' = r /\ imask (k_int s') = imask (k_int s) /\ created s s' R W T i pk) (cli_state s).
Proof.
  intros Hk Hi HL Hpri. pose proof (kinv0_cli _ _ _ _ (proj1 Hk)) as H1.
  apply wlp_bind. eapply wlp_fill_task; [exact H1|done|done|done|].
  intros s1 Hs1 HL1 Hmono Hsc Hint Ho Hlog Hbm (t' & Hpool & Hst). apply wp_wlp.
  apply wp_bind, wp_write_log; [apply Hs1|]. intros l Hl. wp_steps.
  pose proof (kinv0_sti _ _ _ _ (kinv0_actnode _ _ _ _ i (kinv0_log _ _ _ _ l Hs1 Hl))) as H2.
  split_and!; [done|simpl; by rewrite Hint|]. split_and!.
  - split; [exact H2|]. destruct Hk as [_ (c & Ec & Hc)]. exists c. split; simpl; [by rewrite Hsc|].
    unfold is_idle. simpl. by rewrite Hsc.
  - exact Hmono.
  - exact HL1.
  - exact Hbm.
  - exact Hsc.
  - exists t'. done.
Qed.

(** The packet checks of [cre_tsk] and of [acre_tsk]. *)
Definition bad_ctsk (pk : T_CTSK) : bool :=
  negb (nz (c_task pk)) || (c_stksz pk <? 0) || (c_itskpri pk <? 0) || (c_itskpri pk >? MIN_TASK_PRIORITY).

Lemma bad_ctsk_false pk : bad_ctsk pk = false -> 0 <= c_itskpri pk < 32.
Proof.
  unfold bad_ctsk. rewrite !orb_false_iff, Z.gtb_ltb, !Z.ltb_ge.
  unfold MIN_TASK_PRIORITY, PRIORITY_LEVELS. lia.
Qed.

Lemma wlp_cre_tsk s R W T id pk :
  kinv s R W T ->
  wlp (cre_tsk_sys id pk) (fun r s' =>
    let i := Z.to_nat (id - 1) in
    imask (k_int s') = imask (k_int s) /\
    if bad_tskid id then r = Done E_ID /\ s' = s else
    match pk with
    | None => r = Done E_PAR /\ s' = s
    | Some pk =>
        if bad_ctsk pk then r = Done E_PAR /\ s' = s else
        (live s i /\ r = Done E_OBJ /\ kinv s' R W T) \/
        ((~ live s i) /\ r = Done E_OK /\ created s s' R W T i pk)
    end) s.
Proof.
  intros Hk. pose proof (kinv0_cli _ _ _ _ (proj1 Hk)) as H1. unfold cre_tsk_sys.
  fold (bad_tskid id). destruct (bad_tskid id) eqn:Eb; [by apply wlp_ret|].
  destruct pk as [pk|]; [|by apply wlp_ret]. fold (bad_ctsk pk).
  destruct (bad_ctsk pk) eqn:Ep; [by apply wlp_ret|].
  pose proof (bad_tskid_false id Eb) as Hid. pose proof (bad_ctsk_false pk Ep) as Hpri.
  apply wlp_bind, wp_wlp, wp_cli. apply wlp_bind, wp_wlp, wp_gets.
  pose proof (live_bit (cli_state s) id (ki_tasks _ _ _ _ H1) Hid) as Hl.
  set (i := Z.to_nat (id - 1)) in *.
  destruct (nz (isbitset (taskbmap (k_task (cli_state s))) (id - 1))).
  - apply wp_wlp. wp_steps. split; [done|]. left. split_and!; [by apply Hl|done|].
    by apply (kinv_sti (cli_state s)), kinv_cli.
  - assert (~ live s i) as HL by (intros HL; assert (false = true) by (by apply Hl); done).
    assert (id = Z.of_nat i + 1) as Eid by (unfold i; lia). clearbody i. subst id.
    replace (Z.of_nat i + 1 - 1) with (Z.of_nat i) by lia.
    eapply wlp_mono; [apply wlp_create; [exact Hk|lia|done|done]|].
    intros r s' (-> & Him & Hc). split; [done|]. right. done.
Qed.

(** [acre_tsk] takes the lowest free identifier. *)
Lemma wlp_acre_tsk s R W T pk :
  kinv s R W T ->
  wlp (acre_tsk_sys pk) (fun r s' =>
    imask (k_int s') = imask (k_int s) /\
    match pk with
    | None => r = Done E_PAR /\ s' = s
    | Some pk =>
        if bad_ctsk pk || (c_stk pk =? NULL) then r = Done E_PAR /\ s' = s else
        (r = Done E_NOID /\ kinv s' R W T /\ forall i, Z.of_nat i < MAX_TASKS -> live s i) \/
        exists i, Z.of_nat i < MAX_TASKS /\ (~ live s i) /\ (forall j, (j < i)%nat -> live s j) /\
          r = Done (Z.of_nat i + 1) /\ created s s' R W T i pk
    end) s.
Proof.
  intros Hk. pose proof (kinv0_cli _ _ _ _ (proj1 Hk)) as H1. unfold acre_tsk_sys.
  destruct pk as [pk|]; [|by apply wlp_ret].
  assert (negb (nz (c_task pk)) || (c_stksz pk <? 0) || (c_itskpri pk <? 0) || (c_stk pk =? NULL)
    || (c_itskpri pk >? MIN_TASK_PRIORITY) = bad_ctsk pk || (c_stk pk =? NULL)) as ->.
  { unfold bad_ctsk. rewrite <- !orb_assoc. do 3 f_equal. apply orb_comm. }
  destruct (bad_ctsk pk || (c_stk pk =? NULL)) eqn:Ep; [by apply wlp_ret|].
  apply orb_false_iff in Ep as [Ep _]. pose proof (bad_ctsk_false pk Ep) as Hpri.
  apply wlp_bind, wp_wlp, wp_cli. apply wlp_bind, wp_wlp, wp_gets.
  change (k_task (cli_state s)) with (k_task s). fold (bad_tskid (_ffc (taskbmap (k_task s)) + 1)).
  assert (MAX_TASKS = 5) as HM by done.
  destruct (_ffc_cases (taskbmap (k_task s)) (to_bmap _ (ki_tasks _ _ _ _ H1))) as [[-> Hall]|(Hr & Hclr & Hlow)].
  { apply wp_wlp. cbn [bad_tskid]. wp_steps. split; [done|]. left. split_and!; [done| |].
    - by apply (kinv_sti (cli_state s)), kinv_cli.
    - intros i Hi. split; [done|]. apply Hall. lia. }
  set (idx := _ffc (taskbmap (k_task s))) in *. set (i := Z.to_nat idx).
  assert (idx = Z.of_nat i) as Ei by (unfold i; lia).
  destruct (bad_tskid (idx + 1)) eqn:Eb.
  { apply bad_tskid_true in Eb. apply wp_wlp. wp_steps. split; [done|]. left. split_and!; [done| |].
    - by apply (kinv_sti (cli_state s)), kinv_cli.
    - intros j Hj. split; [done|]. apply Hlow. lia. }
  apply bad_tskid_false in Eb. fold i. clearbody i. rewrite Ei in Hclr, Hlow, Eb |- *.
  assert (~ live s i) as HL by (intros [_ E]; by rewrite Hclr in E).
  eapply wlp_mono; [apply wlp_create; [exact Hk|lia|done|done]|].
  intros r s' (-> & Him & Hc). split; [done|]. right. exists i. split_and!; try done; [lia|].
  intros j Hj. split; [lia|]. apply Hlow. lia.
Qed.
