(* ===== verification/Semaphore.v ===== *)
(** * Semaphores: semaphore.c *)

From Stdlib Require Import ZArith Lia.
From stdpp Require Import base tactics gmap option functions countable list.
From S2P Require Import Prelude Bits Queue Qfam Mem Kstate Syslog Sched Timeout Dispatch Kinv.
From S2P Require Import Waitobj.

Open Scope Z_scope.
Open Scope kernel_scope.

(** [T_CSEM]: attributes, initial and maximal count. *)
Record T_CSEM := mk_csem { c_sematr : Z; c_isemcnt : Z; c_maxsem : Z }.

(** [sem_pool], [sembmap] and the queue [semque] of a semaphore. *)
#[export] Instance sem_wait : WaitPool semaphore_t := {
  w_max := CONFIG_MAX_SEM;
  w_bmap s := sembmap (k_sem s);
  w_set_bmap b s := set_k_sem (set_sembmap b (k_sem s)) s;
  w_pool s := sem_pool (k_sem s);
  w_set_pool l s := set_k_sem (set_sem_pool l (k_sem s)) s;
  w_que := semque;
  w_set_que := set_semque;
  w_key := WSem
}.

Abbreviation get_sem := (get_obj (X := semaphore_t)).
Abbreviation upd_sem := (upd_obj (X := semaphore_t)).
Abbreviation sem_extract := (q_extract (X := semaphore_t)).
Abbreviation sem_enqueue := (q_enqueue (X := semaphore_t)).

Definition init_sem_pool : KM unit :=
  upd_sem_mod (fun _ => mk_sem_mod clearbitmap
    (replicate (Z.to_nat CONFIG_MAX_SEM) zero_sem) None) ;;;
  upd_nodes (fun m => foldr (fun i m => <[SemAct i := null_node]> m) m
    (seq 0 (Z.to_nat CONFIG_MAX_SEM))).

Definition set_sembit (idx : Z) : KM unit :=
  upd_sem_mod (fun r => set_sembmap (setbit (sembmap r) idx) r).
Definition clear_sembit (idx : Z) : KM unit :=
  upd_sem_mod (fun r => set_sembmap (clearbit (sembmap r) idx) r).

(** [sem->actlst.this = sem; insert_linked_list(&active_sem, &sem->actlst)] *)
Definition activate_sem (i : nat) : KM unit :=
  upd_nodes (set_this (SemAct i) (Some (OSem i))) ;;;
  let* h := gets (fun s => active_sem (k_sem s)) in
  let* m := gets k_nodes in
  let* '(m, h) := ret (insert_linked_list m h (SemAct i)) in
  upd_nodes (fun _ => m) ;;;
  upd_sem_mod (set_active_sem h).

(** The common part of creation: [memset] the slot and assign attributes. *)
Definition fill_sem (idx : Z) (pk : T_CSEM) : KM unit :=
  let i := Z.to_nat idx in
  upd_sem i (fun _ => zero_sem) ;;;
  upd_nodes (fun m => <[SemAct i := null_node]> m) ;;;
  upd_sem i (fun x => set_maxsem (c_maxsem pk) (set_semcnt (c_isemcnt pk) (set_sematr (c_sematr pk) x))) ;;;
  set_sembit idx.

Definition bad_semid (id : Z) : bool := (id <? 1) || (id >? CONFIG_MAX_SEM).

Definition acre_sem_sys (pk_csem : option T_CSEM) : KM sysres :=
  match pk_csem with
  | None => ret (Done E_PAR)
  | Some pk =>
      if (c_maxsem pk <? c_isemcnt pk) || (c_maxsem pk =? 0) then ret (Done E_PAR) else
      hw_cli ;;;
      let* bm := gets (fun s => sembmap (k_sem s)) in
      let idx := _ffc bm in
      let id := idx + 1 in
      if bad_semid id then hw_sti ;;; ret (Done E_NOID) else
      fill_sem idx pk ;;;
      write_log TFN_ACRE_SEM id E_OK ;;;
      activate_sem (Z.to_nat idx) ;;;
      hw_sti ;;;
      ret (Done id)
  end.

Definition cre_sem_sys (id : Z) (pk_csem : option T_CSEM) : KM sysres :=
  let idx := id - 1 in
  if bad_semid id then ret (Done E_ID) else
  match pk_csem with
  | None => ret (Done E_PAR)
  | Some pk =>
      if (c_maxsem pk <? c_isemcnt pk) || (c_maxsem pk =? 0) then ret (Done E_PAR) else
      hw_cli ;;;
      let* bm := gets (fun s => sembmap (k_sem s)) in
      if nz (isbitset bm idx) then hw_sti ;;; ret (Done E_OBJ) else
      fill_sem idx pk ;;;
      write_log TFN_CRE_SEM id E_OK ;;;
      activate_sem (Z.to_nat idx) ;;;
      hw_sti ;;;
      ret (Done E_OK)
  end.

(** The body of the loop of [del_sem_sys]. *)
Definition del_sem_body (tsk : nat) : KM unit :=
  rq_insert tsk ;;; upd_task tsk (set_wobjid E_DLT).

Definition del_sem_sys (id : Z) : KM sysres :=
  let idx := id - 1 in
  if bad_semid id then ret (Done E_ID) else
  hw_cli ;;;
  let* bm := gets (fun s => sembmap (k_sem s)) in
  if negb (nz (isbitset bm idx)) then hw_sti ;;; ret (Done E_NOEXS) else
  let i := Z.to_nat idx in
  write_log TFN_DEL_SEM id E_OK ;;;
  let* fuel := gets tq_fuel in
  q_drain (X := semaphore_t) fuel i del_sem_body ;;;
  clear_sembit idx ;;;
  hw_sti ;;;
  ret (Done E_OK).

Definition sig_sem_sys (id : Z) : KM sysres :=
  let idx := id - 1 in
  if bad_semid id then ret (Done E_ID) else
  hw_cli ;;;
  let* bm := gets (fun s => sembmap (k_sem s)) in
  if negb (nz (isbitset bm idx)) then hw_sti ;;; ret (Done E_NOEXS) else
  let i := Z.to_nat idx in
  let* x := get_sem i in
  (* Queuing overflow *)
  if semcnt x =? maxsem x then hw_sti ;;; ret (Done E_QOVR) else
  write_log TFN_SIG_SEM id E_OK ;;;
  (* Check if there were tasks on the wait queue of the semaphore *)
  let* o := sem_extract i in
  match o with
  | Some tsk => upd_task tsk (set_tskstat TTS_RDY) ;;; rq_insert tsk
  | None => upd_sem i (fun x => set_semcnt (i32 (semcnt x + 1)) x)
  end ;;;
  hw_sti ;;;
  scheduler ;;;
  ret (Cont (KReturn E_OK)).

(** The semaphore is unavailable: the current task waits. *)
Definition sem_block (i : nat) (id fn : Z) : KM unit :=
  let* cur := get_current in
  sem_enqueue i cur ;;;
  write_log fn id TTS_WAI ;;;
  upd_task cur (fun t => set_wobjid id (set_tskwait TTW_SEM (set_tskstat TTS_WAI t))) ;;;
  rq_remove cur.

Definition wai_sem_sys (id : Z) : KM sysres :=
  let idx := id - 1 in
  if bad_semid id then ret (Done E_ID) else
  hw_cli ;;;
  let* bm := gets (fun s => sembmap (k_sem s)) in
  if negb (nz (isbitset bm idx)) then hw_sti ;;; ret (Done E_NOEXS) else
  let i := Z.to_nat idx in
  let* x := get_sem i in
  if semcnt x >=? 1 then
    (* Semaphore available *)
    upd_sem i (fun x => set_semcnt (semcnt x - 1) x) ;;;
    write_log TFN_WAI_SEM id E_OK ;;;
    hw_sti ;;;
    ret (Done E_OK)
  else
    sem_block i id TFN_WAI_SEM ;;;
    hw_sti ;;;
    scheduler ;;;
    ret (Cont (KWaiSem id)).

(** [wai_sem_sys] after [scheduler()]. *)
Definition wai_sem_resume (id : Z) : KM Z :=
  hw_cli ;;;
  let* cur := get_current in
  let* t := get_task cur in
  if wobjid t =? E_DLT then hw_sti ;;; ret E_DLT else
  write_log TFN_WAI_SEM id E_OK ;;;
  hw_sti ;;;
  ret E_OK.

Definition twai_sem_sys (id tmout : Z) : KM sysres :=
  let idx := id - 1 in
  (* If tmo = TMO_FEVR twai_sem() acts the same as wai_sem() *)
  if tmout =? TMO_FEVR then wai_sem_sys id else
  if bad_semid id then ret (Done E_ID) else
  hw_cli ;;;
  let* bm := gets (fun s => sembmap (k_sem s)) in
  if negb (nz (isbitset bm idx)) then hw_sti ;;; ret (Done E_NOEXS) else
  let i := Z.to_nat idx in
  let* x := get_sem i in
  if semcnt x >=? 1 then
    upd_sem i (fun x => set_semcnt (semcnt x - 1) x) ;;;
    write_log TFN_TWAI_SEM id E_OK ;;;
    hw_sti ;;;
    ret (Done E_OK)
  else
    sem_block i id TFN_TWAI_SEM ;;;
    let* cur := get_current in
    tq_insert cur tmout ;;;
    hw_sti ;;;
    scheduler ;;;
    ret (Cont (KTwaiSem id)).

(** [twai_sem_sys] after [scheduler()]. *)
Definition twai_sem_resume (id : Z) : KM Z :=
  hw_cli ;;;
  let* cur := get_current in
  let* t := get_task cur in
  if wobjid t =? E_DLT then hw_sti ;;; ret E_DLT else
  if wobjid t =? E_TMOUT then hw_sti ;;; ret E_TMOUT else
  tq_remove cur ;;;
  write_log TFN_TWAI_SEM id E_OK ;;;
  hw_sti ;;;
  ret E_OK.

(** ** The interface of the wait queues *)

#[export] Instance sem_wait_ok : WaitPoolOk semaphore_t.
Proof.
  split; cbn [sem_wait w_max w_bmap w_set_bmap w_pool w_set_pool w_que w_set_que w_key]; try done.
  - by intros [? ? ? ? ? ? ? [] ? ? ? ?].
  - by intros s s' [-> _ _ _].
  - intros l s s' []. split; simpl; congruence.
  - by intros [].
  - by intros i j [= ->].
  - intros l s k Hk. by destruct k as [i| | |]; [destruct (Hk i)|..].
  - intros [i| | |]; [by left; exists i|by right..].
  - intros l s Hl []. split; simpl; try done. by rewrite Hl.
  - by intros s [].
  - by intros s [].
  - by intros s s' [-> _ _ _].
  - intros b s Hb []. by split.
  - intros b s k Hk. by destruct k as [i| | |]; [destruct (Hk i)|..].
Qed.

(** The current task waits for the semaphore. *)
Lemma wp_sem_block s R W T c p i x id fn (Q : unit -> kstate -> Prop) :
  kinv0 s R W T -> current_task (k_sched s) = Some c -> c ∈ R p ->
  sem_pool (k_sem s) !! i = Some x -> open_obj s (WSem i) ->
  (forall s' q, kinv0 s' (rq_drop R p c) (<[WSem i := W (WSem i) ++ [c]]> W) T ->
     k_int s' = k_int s -> current_task (k_sched s') = Some c ->
     k_sem s' = set_sem_pool (<[i := set_semque q x]> (sem_pool (k_sem s))) (k_sem s) ->
     keeps s s' -> Q tt s') ->
  wp (sem_block i id fn) Q s.
Proof.
  intros H Hcur Hc Ex Ho HQ. unfold sem_block. wp_step. eapply wp_get_current; [exact Hcur|].
  eapply (wp_q_block s R W T c p i x); [done|done|exact Ex|exact Ho|done|].
  intros s' q t H' Hi Hcu _ _ Hq _ _ Hke _. apply (HQ s' q); try done.
  - by rewrite Hcu.
  - exact (so_sem _ _ Hq).
Qed.

(** ** What the semaphores promise *)

(** The count and the maximal count of each semaphore that exists. *)
Definition sem_view (r : sem_mod) (i : nat) : option (Z * Z) :=
  if Z.testbit (sembmap r) (Z.of_nat i) then (fun x => (semcnt x, maxsem x)) <$> sem_pool r !! i
  else None.

(** The kernel with its semaphores. *)
Definition sem_impl (s : kstate) (A : akernel) (S : nat -> option (Z * Z)) : Prop :=
  impl s A /\ forall i, sem_view (k_sem s) i = S i.

(** Acquire: take a unit, or wait in arrival order. *)
Definition a_wai_sem (c : nat) (id : Z) (A : akernel) (S : nat -> option (Z * Z))
  : sysres * akernel * (nat -> option (Z * Z)) :=
  if bad_semid id then (Done E_ID, A, S) else
  let i := Z.to_nat (id - 1) in
  match S i with
  | None => (Done E_NOEXS, A, S)
  | Some (n, mx) =>
      if n >=? 1 then (Done E_OK, A, <[i := Some (n - 1, mx)]> S)
      else (Cont (KWaiSem id), a_block c (WSem i) A, S)
  end.

(** Release: give the unit to the first waiting task, or count it. *)
Definition a_sig_sem (id : Z) (A : akernel) (S : nat -> option (Z * Z))
  : sysres * akernel * (nat -> option (Z * Z)) :=
  if bad_semid id then (Done E_ID, A, S) else
  let i := Z.to_nat (id - 1) in
  match S i with
  | None => (Done E_NOEXS, A, S)
  | Some (n, mx) =>
      if n =? mx then (Done E_QOVR, A, S) else
      match a_wake (WSem i) A with
      | Some A' => (Cont (KReturn E_OK), A', S)
      | None => (Cont (KReturn E_OK), A, <[i := Some (i32 (n + 1), mx)]> S)
      end
  end.

(** The bit of a valid identifier. *)
Lemma sem_bit b id : bad_semid id = false ->
  nz (isbitset b (id - 1)) = Z.testbit b (Z.of_nat (Z.to_nat (id - 1))) /\
  Z.of_nat (Z.to_nat (id - 1)) < CONFIG_MAX_SEM.
Proof.
  unfold bad_semid. rewrite orb_false_iff, Z.ltb_ge, Z.gtb_ltb, Z.ltb_ge. intros [H1 H2].
  assert (CONFIG_MAX_SEM = 4) by done. rewrite Z2Nat.id, isbitset_spec by lia. split; [done|lia].
Qed.

Lemma sem_slot s i : pools_ok s -> Z.of_nat i < CONFIG_MAX_SEM -> exists x, sem_pool (k_sem s) !! i = Some x.
Proof. intros H Hi. apply lookup_lt_is_Some_2. pose proof (po_sem _ H). lia. Qed.

(** The view after a write to one semaphore. *)
Lemma sem_view_upd r i x x' j : sem_pool r !! i = Some x ->
  sem_view (set_sem_pool (<[i := x']> (sem_pool r)) r) j =
    if decide (j = i) then (if Z.testbit (sembmap r) (Z.of_nat i) then Some (semcnt x', maxsem x') else None)
    else sem_view r j.
Proof.
  intros Ex. unfold sem_view. simpl. case_decide as E.
  - subst. rewrite list_lookup_insert_eq by (by eapply lookup_lt_Some). done.
  - by rewrite list_lookup_insert_ne.
Qed.

Lemma sem_impl_cli s A S : sem_impl s A S -> sem_impl (cli_state s) A S.
Proof. intros [[H Hp] HS]. split; [split; [by apply kinv_cli|done]|done]. Qed.

Lemma sem_impl_sti s A S : sem_impl s A S -> sem_impl (sti_state s) A S.
Proof. intros [[H Hp] HS]. split; [split; [by apply kinv_sti|done]|done]. Qed.

Lemma wp_wai_sem s A S c id :
  sem_impl s A S -> current_task (k_sched s) = Some c -> ~ is_idle s c ->
  wp (wai_sem_sys id) (fun r s' =>
    let '(r', A', S') := a_wai_sem c id A S in
    r = r' /\ sem_impl s' A' S' /\ imask (k_int s') = imask (k_int s) /\ rescheduled r s' A') s.
Proof.
  intros HI Hcur Hni. pose proof HI as [[Hk Hp] HS].
  unfold wai_sem_sys, a_wai_sem. destruct (bad_semid id) eqn:Eb; [by apply wp_ret|].
  apply wp_bind, wp_cli. wp_steps. change (k_sem (cli_state s)) with (k_sem s).
  destruct (sem_bit (sembmap (k_sem s)) id Eb) as [-> Hi]. set (i := Z.to_nat (id - 1)) in *.
  destruct (sem_slot s i (ki_pools _ _ _ _ (proj1 Hk)) Hi) as [x Ex].
  assert (S i = if Z.testbit (sembmap (k_sem s)) (Z.of_nat i) then Some (semcnt x, maxsem x) else None)
    as -> by (rewrite <- HS; unfold sem_view; by rewrite Ex).
  destruct (Z.testbit (sembmap (k_sem s)) (Z.of_nat i)) eqn:Ebit; simpl.
  2: { wp_steps. split_and!; [done|by apply (sem_impl_sti (cli_state s)), sem_impl_cli|done|done]. }
  apply wp_bind. eapply wp_get_obj; [exact Ex|]. destruct (semcnt x >=? 1).
  - apply wp_bind. eapply wp_upd_obj; [exact Ex|]. apply wp_bind, wp_write_log; [apply Hk|].
    intros l Hl. wp_steps. split_and!; [done| |done|done].
    pose proof (kinv0_upd_obj (cli_state s) _ _ _ i x (set_semcnt (semcnt x - 1) x)
      (kinv0_cli _ _ _ _ (proj1 Hk)) Ex eq_refl) as H1.
    split; [split|].
    + split; [|apply Hk]. by apply kinv0_sti, kinv0_log.
    + exact Hp.
    + intros j. cbn -[insert sem_view]. rewrite (sem_view_upd _ _ x) by done. case_decide as Ej.
      * subst j. rewrite fn_lookup_insert, Ebit. done.
      * rewrite fn_lookup_insert_ne by done. apply HS.
  - apply wp_bind.
    eapply (wp_sem_block (cli_state s) _ _ _ c (a_pri A c)); [apply kinv0_cli, Hk|done| |exact Ex|exact Ebit|].
    { by eapply impl_cur. }
    intros s1 q H1 Hint Hc1 Hsem Hke.
    eapply wp_sti_scheduler; [exact H1|by unfold masked; rewrite Hint|].
    intros s' c' d Hk' Hs' Him Hd Hc' Hdl. split_and!; [done| |by rewrite Him|exact Hs']. split.
    + eapply impl_keeps; [split; [exact Hk|exact Hp]| |done|exact Hk'].
      etrans; [|by eapply dispatched_keeps]. exact Hke.
    + intros j. rewrite (sf_sem _ _ (dp_frame _ _ _ _ Hd)), <- HS.
      cbn -[insert sem_view]. rewrite Hsem, (sem_view_upd _ _ x) by done.
      change (k_sem (cli_state s)) with (k_sem s). case_decide as Ej; [|done]. subst j.
      rewrite Ebit. unfold sem_view. by rewrite Ebit, Ex.
Qed.

Lemma wp_sig_sem s A S c id :
  sem_impl s A S -> current_task (k_sched s) = Some c ->
  wp (sig_sem_sys id) (fun r s' =>
    let '(r', A', S') := a_sig_sem id A S in
    r = r' /\ sem_impl s' A' S' /\ imask (k_int s') = imask (k_int s) /\ rescheduled r s' A') s.
Proof.
  intros HI Hcur. pose proof HI as [[Hk Hp] HS].
  unfold sig_sem_sys, a_sig_sem. destruct (bad_semid id) eqn:Eb; [by apply wp_ret|].
  apply wp_bind, wp_cli. wp_steps. change (k_sem (cli_state s)) with (k_sem s).
  destruct (sem_bit (sembmap (k_sem s)) id Eb) as [-> Hi]. set (i := Z.to_nat (id - 1)) in *.
  destruct (sem_slot s i (ki_pools _ _ _ _ (proj1 Hk)) Hi) as [x Ex].
  assert (S i = if Z.testbit (sembmap (k_sem s)) (Z.of_nat i) then Some (semcnt x, maxsem x) else None)
    as -> by (rewrite <- HS; unfold sem_view; by rewrite Ex).
  destruct (Z.testbit (sembmap (k_sem s)) (Z.of_nat i)) eqn:Ebit; simpl.
  2: { wp_steps. split_and!; [done|by apply (sem_impl_sti (cli_state s)), sem_impl_cli|done|done]. }
  apply wp_bind. eapply wp_get_obj; [exact Ex|]. destruct (semcnt x =? maxsem x).
  { wp_steps. split_and!; [done|by apply (sem_impl_sti (cli_state s)), sem_impl_cli|done|done]. }
  apply wp_bind, wp_write_log; [apply Hk|]. intros l Hl. apply wp_bind.
  set (s1 := set_k_log l (cli_state s)).
  assert (kinv0 s1 (a_ready A) (a_wait A) (a_sleep A)) as H1 by (apply kinv0_log; [apply kinv0_cli, Hk|done]).
  eapply (wp_q_extract s1); [apply H1|exact Ex|].
  unfold a_wake. cbn [w_key sem_wait]. destruct (a_wait A (WSem i)) as [|w lw] eqn:Ew.
  - (* nobody waits *)
    apply wp_bind. eapply wp_upd_obj; [exact Ex|].
    pose proof (kinv0_upd_obj s1 _ _ _ i x (set_semcnt (i32 (semcnt x + 1)) x) H1 Ex eq_refl) as H2.
    eapply wp_sti_scheduler; [exact H2|done|].
    intros s' c' d Hk' Hs' Him Hd Hc' Hdl. split_and!; [done| |by rewrite Him|exact Hs']. split.
    + eapply impl_keeps; [split; [exact Hk|exact Hp]| |done|exact Hk'].
      etrans; [|by eapply dispatched_keeps]. done.
    + intros j. rewrite (sf_sem _ _ (dp_frame _ _ _ _ Hd)).
      cbn -[insert sem_view]. rewrite (sem_view_upd _ _ x) by done. case_decide as Ej.
      * subst j. by rewrite fn_lookup_insert, Ebit.
      * rewrite fn_lookup_insert_ne by done. apply HS.
  - (* the first waiting task gets the unit *)
    intros m q Hup Hsy. apply wp_bind.
    assert (exists t, task_pool (k_task s) !! w = Some t) as [t Et].
    { eapply (live_pool s1); [apply H1|].
      destruct (pl_wait _ _ _ _ (ki_places _ _ _ _ H1) (WSem i) w) as [[? _] _]; [rewrite Ew; left|done]. }
    eapply (wp_wake s1 _ _ _ _ w t (WSem i) lw (set_tskstat TTS_RDY) H1);
      [|by eapply dequeues_head; [apply H1|]|exact Hsy|exact Et|done..|].
    { by eapply enqueued_q0; [apply H1..|done|exact Ex]. }
    intros s2 H2 Hwo Hke. eapply wp_sti_scheduler; [exact H2|by unfold masked; rewrite (wo_int _ _ _ _ Hwo)|].
    intros s' c' d Hk' Hs' Him Hd Hc' Hdl.
    assert (a_pri A w = pri_of (task_pool (k_task s)) w) as Hpw.
    { apply Hp. by destruct (pl_wait _ _ _ _ (ki_places _ _ _ _ H1) (WSem i) w) as [[? _] _]; [rewrite Ew; left|]. }
    split_and!; [done| |by rewrite Him|simpl; rewrite Hpw; exact Hs']. split.
    + eapply impl_keeps; [split; [exact Hk|exact Hp]| |done|].
      * etrans; [|by eapply dispatched_keeps]. exact Hke.
      * simpl. rewrite Hpw. exact Hk'.
    + intros j. rewrite (sf_sem _ _ (dp_frame _ _ _ _ Hd)), <- HS.
      cbn -[insert sem_view]. rewrite (so_sem _ _ (wo_objs _ _ _ _ Hwo)).
      cbn -[insert sem_view]. rewrite (sem_view_upd _ _ x) by done. case_decide as Ej; [|done]. subst j.
      rewrite Ebit. unfold sem_view. by rewrite Ebit, Ex.
Qed.

(** ** Deletion *)

(** The waiting tasks become ready and are told that the semaphore is deleted. *)
Lemma del_sem_wakes : wakes del_sem_body (set_wobjid E_DLT).
Proof. by apply wakes_then. Qed.

Lemma bad_semid_false id : bad_semid id = false -> 1 <= id <= 4.
Proof.
  unfold bad_semid. rewrite orb_false_iff, Z.ltb_ge, Z.gtb_ltb, Z.ltb_ge.
  unfold CONFIG_MAX_SEM. lia.
Qed.

(** The view after a bit of the bitmap is cleared or set. *)
Lemma sem_view_clear r i j : word32 (sembmap r) -> (i < 32)%nat ->
  sem_view (set_sembmap (clearbit (sembmap r) (Z.of_nat i)) r) j =
    if decide (j = i) then None else sem_view r j.
Proof.
  intros Hw Hi. unfold sem_view. simpl. rewrite clearbit_bit by (done || lia).
  case_decide as E.
  - subst. by rewrite Z.eqb_refl.
  - by destruct (Z.eqb_spec (Z.of_nat i) (Z.of_nat j)); [lia|].
Qed.

Lemma wp_del_sem s A S id :
  sem_impl s A S ->
  wp (del_sem_sys id) (fun r s' =>
    if bad_semid id then r = Done E_ID /\ s' = s else
    let i := Z.to_nat (id - 1) in
    imask (k_int s') = imask (k_int s) /\
    match S i with
    | None => r = Done E_NOEXS /\ sem_impl s' A S
    | Some _ =>
        let ws := a_wait A (WSem i) in
        r = Done E_OK /\ told (set_wobjid E_DLT) (task_pool (k_task s)) (task_pool (k_task s')) ws /\
        sem_impl s' (mk_ak (a_pri A) (foldl (rq_append (task_pool (k_task s))) (a_ready A) ws)
                      (<[WSem i := []]> (a_wait A)) (a_sleep A))
                    (<[i := None]> S)
    end) s.
Proof.
  intros HI. pose proof HI as [[Hk Hp] HS].
  unfold del_sem_sys. destruct (bad_semid id) eqn:Eb; [by apply wp_ret|].
  apply wp_bind, wp_cli. wp_steps. change (k_sem (cli_state s)) with (k_sem s).
  destruct (sem_bit (sembmap (k_sem s)) id Eb) as [-> Hi]. set (i := Z.to_nat (id - 1)) in *.
  destruct (sem_slot s i (ki_pools _ _ _ _ (proj1 Hk)) Hi) as [x Ex].
  assert (S i = if Z.testbit (sembmap (k_sem s)) (Z.of_nat i) then Some (semcnt x, maxsem x) else None)
    as -> by (rewrite <- HS; unfold sem_view; by rewrite Ex).
  destruct (Z.testbit (sembmap (k_sem s)) (Z.of_nat i)) eqn:Ebit; cbn [negb].
  2: { wp_steps. split_and!; [done|done|by apply (sem_impl_sti (cli_state s)), sem_impl_cli]. }
  apply wp_bind, wp_write_log; [apply Hk|]. intros l Hl. wp_steps.
  set (s1 := set_k_log l (cli_state s)).
  assert (kinv0 s1 (a_ready A) (a_wait A) (a_sleep A)) as H1 by (apply kinv0_log; [apply kinv0_cli, Hk|done]).
  eapply (wp_q_drain _ _ _ s1 _ _ _ i x); [exact del_sem_wakes|exact H1|exact Ex| |].
  { pose proof (wait_length _ _ _ _ (WSem i) H1). unfold tq_fuel. cbn [w_key sem_wait]. lia. }
  intros s2 H2 [D1 _ D2 D7 D3 (q & D4) D6 _]. wp_steps.
  pose proof (bad_semid_false id Eb) as Hid.
  assert (id - 1 = Z.of_nat i) as Ei by (unfold i; lia). rewrite Ei.
  pose proof (kinv0_close (X := semaphore_t) s2 _ _ _ i H2 Hi (fn_lookup_insert _ _ _)) as H3.
  split_and!; [|done|exact D6|].
  { cbn [k_int set_k_int set_imask imask set_k_sem]. by rewrite D1. }
  split; [split; [split|]|].
  - by apply (kinv0_sti (set_k_sem _ s2)).
  - destruct Hk as [_ (c & Ec & Hc)]. exists c. split; [exact (eq_trans D2 Ec)|].
    destruct Hc as [Hc|(p & Hc)]; [left|right].
    + exact (eq_trans D7 Hc).
    + exists p. by apply elem_of_rq_append_all.
  - intros j HL. etrans; [apply Hp|symmetry; apply (proj2 D3)]. by apply (proj1 D3) in HL.
  - pose proof (po_semb _ (ki_pools _ _ _ _ H2)) as Hw. intros j.
    etrans; [apply sem_view_clear; [exact Hw|lia]|]. destruct (decide (j = i)) as [->|Hj].
    + by rewrite fn_lookup_insert.
    + rewrite fn_lookup_insert_ne, <- HS, (so_sem _ _ D4) by done. cbn -[insert sem_view].
      rewrite (sem_view_upd _ _ x) by done. by rewrite decide_False.
Qed.

(** ** Creation *)

Lemma sem_view_set r i x x' j : word32 (sembmap r) -> (i < 32)%nat -> sem_pool r !! i = Some x ->
  sem_view (set_sembmap (setbit (sembmap r) (Z.of_nat i)) (set_sem_pool (<[i := x']> (sem_pool r)) r)) j =
    if decide (j = i) then Some (semcnt x', maxsem x') else sem_view r j.
Proof.
  intros Hw Hi Ex. unfold sem_view. cbn [sembmap set_sembmap set_sem_pool sem_pool].
  rewrite setbit_bit by (done || lia). case_decide as E.
  - subst. rewrite Z.eqb_refl, list_lookup_insert_eq by (by eapply lookup_lt_Some). done.
  - rewrite list_lookup_insert_ne by done. by destruct (Z.eqb_spec (Z.of_nat i) (Z.of_nat j)); [lia|].
Qed.

(** The semaphore a creation writes. *)
Definition new_sem (pk : T_CSEM) : semaphore_t := mk_sem 0 0 (c_sematr pk) (c_isemcnt pk) (c_maxsem pk) null_queue.

(** Filling a free slot and linking it in the list of active semaphores. *)
Lemma wp_create_sem s R W T i pk fn id (Q : unit -> kstate -> Prop) :
  kinv0 s R W T -> (i < 4)%nat -> ~ open_obj s (WSem i) ->
  (forall s' l, kinv0 s' R W T -> k_int s' = k_int s -> k_sched s' = k_sched s -> k_task s' = k_task s ->
     k_sem s' = set_active_sem (Some (SemAct i)) (set_sembmap (setbit (sembmap (k_sem s)) (Z.of_nat i))
       (set_sem_pool (<[i := new_sem pk]> (sem_pool (k_sem s))) (k_sem s))) ->
     k_log s' = l -> Q tt s') ->
  wp (fill_sem (Z.of_nat i) pk ;;; write_log fn id E_OK ;;; activate_sem i) Q s.
Proof.
  intros H Hi Hop HQ. pose proof (ki_pools _ _ _ _ H) as HP.
  destruct (sem_slot s i HP) as [x Ex]; [change CONFIG_MAX_SEM with 4; lia|].
  unfold fill_sem, set_sembit. rewrite Nat2Z.id. wp_steps. eapply wp_upd_obj; [exact Ex|]. wp_steps.
  eapply wp_upd_obj; [apply list_lookup_insert_eq; by eapply lookup_lt_Some|]. wp_steps.
  apply wp_write_log; [apply H|]. intros l Hl. unfold activate_sem. wp_steps.
  cbn [w_pool w_set_pool sem_wait k_sem k_nodes set_k_sem set_k_nodes set_k_log set_sembmap set_sem_pool active_sem sem_pool sembmap].
  rewrite list_insert_insert_eq.
  destruct (activate_nodes (k_nodes s) (active_sem (k_sem s)) (SemAct i) (Some (OSem i))) as [Hh Hn].
  { done. }
  { intros a Ea. by destruct (po_asem _ HP a Ea) as [j ->]. }
  destruct (insert_linked_list _ _ _) as [m' h]. simpl in Hh, Hn. subst h.
  wp_steps. destruct (@kinv0_open semaphore_t sem_wait _ s R W T i x (new_sem pk) H Ex) as [H1 _];
    [cbn; change CONFIG_MAX_SEM with 4; lia|done|done|].
  destruct (@kinv0_open semaphore_t sem_wait _ _ R W T i (new_sem pk) (new_sem pk) H1) as [_ H2];
    [|cbn; change CONFIG_MAX_SEM with 4; lia|done|done|].
  { apply list_lookup_insert_eq. by eapply lookup_lt_Some. }
  eapply HQ; [|done..]. eapply (kinv0_objs _ _ R W T H2); [exact Hn|done|done|done|exact Hl| |done|].
  - destruct (ki_pools _ _ _ _ H2). split; try done. intros a [= <-]. eauto.
  - intros k j Hj. pose proof (pl_open _ _ _ _ (ki_places _ _ _ _ H2) k j Hj). by destruct k.
Qed.

(** The kernel after a creation. *)
Lemma sem_impl_created s s' A S i pk x :
  sem_impl s A S -> kinv0 s' (a_ready A) (a_wait A) (a_sleep A) ->
  k_sched s' = k_sched s -> k_task s' = k_task s -> (i < 4)%nat -> sem_pool (k_sem s) !! i = Some x ->
  k_sem s' = set_active_sem (Some (SemAct i)) (set_sembmap (setbit (sembmap (k_sem s)) (Z.of_nat i))
    (set_sem_pool (<[i := new_sem pk]> (sem_pool (k_sem s))) (k_sem s))) ->
  sem_impl (sti_state s') A (<[i := Some (c_isemcnt pk, c_maxsem pk)]> S).
Proof.
  intros [[Hk Hp] HS] H' Hsc Hta Hi Ex Hsem. split; [split; [split|]|].
  - by apply kinv0_sti.
  - destruct Hk as [_ (c & Ec & Hc)]. exists c. split; simpl; [by rewrite Hsc|].
    unfold is_idle. simpl. by rewrite Hsc.
  - intros j HL. simpl. rewrite Hta. apply Hp. unfold live in *. simpl in HL. by rewrite Hta in HL.
  - intros j. simpl. rewrite Hsem. etrans.
    { apply (sem_view_set (k_sem s) i x (new_sem pk) j); [|lia|done]. apply Hk. }
    destruct (decide (j = i)) as [->|Hj]; [by rewrite fn_lookup_insert|].
    rewrite fn_lookup_insert_ne by done. apply HS.
Qed.

(** The checks of a creation packet. *)
Definition bad_csem (pk : T_CSEM) : bool := (c_maxsem pk <? c_isemcnt pk) || (c_maxsem pk =? 0).

Lemma wp_cre_sem s A S id pk :
  sem_impl s A S ->
  wp (cre_sem_sys id pk) (fun r s' =>
    let i := Z.to_nat (id - 1) in
    imask (k_int s') = imask (k_int s) /\
    if bad_semid id then r = Done E_ID /\ s' = s else
    match pk with
    | None => r = Done E_PAR /\ s' = s
    | Some pk =>
        if bad_csem pk then r = Done E_PAR /\ s' = s else
        match S i with
        | Some _ => r = Done E_OBJ /\ sem_impl s' A S
        | None => r = Done E_OK /\ sem_impl s' A (<[i := Some (c_isemcnt pk, c_maxsem pk)]> S)
        end
    end) s.
Proof.
  intros HI. pose proof HI as [[Hk Hp] HS].
  unfold cre_sem_sys. destruct (bad_semid id) eqn:Eb; [by apply wp_ret|].
  destruct pk as [pk|]; [|by apply wp_ret]. fold (bad_csem pk). destruct (bad_csem pk); [by apply wp_ret|].
  apply wp_bind, wp_cli. wp_steps. change (k_sem (cli_state s)) with (k_sem s).
  destruct (sem_bit (sembmap (k_sem s)) id Eb) as [-> Hi]. set (i := Z.to_nat (id - 1)) in *.
  destruct (sem_slot s i (ki_pools _ _ _ _ (proj1 Hk)) Hi) as [x Ex].
  assert (S i = if Z.testbit (sembmap (k_sem s)) (Z.of_nat i) then Some (semcnt x, maxsem x) else None)
    as -> by (rewrite <- HS; unfold sem_view; by rewrite Ex).
  destruct (Z.testbit (sembmap (k_sem s)) (Z.of_nat i)) eqn:Ebit.
  { wp_steps. split_and!; [done|done|by apply (sem_impl_sti (cli_state s)), sem_impl_cli]. }
  pose proof (bad_semid_false id Eb) as Hid.
  replace (id - 1) with (Z.of_nat i) by (unfold i; lia).
  apply wp_seq3. eapply (wp_create_sem (cli_state s)); [apply kinv0_cli, Hk|unfold i; lia|by simpl; rewrite Ebit|].
  intros s' l H' Hint Hsc Hta Hsem _. wp_steps. split_and!; [by rewrite Hint|done|].
  eapply sem_impl_created; [exact HI|done..| |exact Ex|exact Hsem]. unfold i. lia.
Qed.

(** [acre_sem_sys] creates the semaphore of the lowest free identifier. *)
Lemma wp_acre_sem s A S pk :
  sem_impl s A S ->
  wp (acre_sem_sys pk) (fun r s' =>
    imask (k_int s') = imask (k_int s) /\
    match pk with
    | None => r = Done E_PAR /\ s' = s
    | Some pk =>
        if bad_csem pk then r = Done E_PAR /\ s' = s else
        (r = Done E_NOID /\ sem_impl s' A S /\ forall i, (i < 4)%nat -> S i <> None) \/
        exists i, (i < 4)%nat /\ S i = None /\ (forall j, (j < i)%nat -> S j <> None) /\
          r = Done (Z.of_nat i + 1) /\ sem_impl s' A (<[i := Some (c_isemcnt pk, c_maxsem pk)]> S)
    end) s.
Proof.
  intros HI. pose proof HI as [[Hk Hp] HS]. pose proof (ki_pools _ _ _ _ (proj1 Hk)) as HP.
  unfold acre_sem_sys. destruct pk as [pk|]; [|by apply wp_ret].
  fold (bad_csem pk). destruct (bad_csem pk); [by apply wp_ret|].
  apply wp_bind, wp_cli. wp_steps. change (k_sem (cli_state s)) with (k_sem s).
  assert (forall j, (j < 4)%nat -> S j <> None <-> Z.testbit (sembmap (k_sem s)) (Z.of_nat j) = true) as HB.
  { intros j Hj. rewrite <- HS. unfold sem_view.
    destruct (sem_slot s j HP) as [x Ex]; [change CONFIG_MAX_SEM with 4; lia|]. rewrite Ex.
    by destruct (Z.testbit (sembmap (k_sem s)) (Z.of_nat j)). }
  destruct (_ffc_cases (sembmap (k_sem s)) (po_semb _ HP)) as [[-> Hall]|(Hr & Hclr & Hlow)].
  { wp_steps. split_and!; [done|]. left. split_and!;
      [done|by apply (sem_impl_sti (cli_state s)), sem_impl_cli|].
    intros j Hj. apply HB; [done|]. apply Hall. lia. }
  set (idx := _ffc (sembmap (k_sem s))) in *. destruct (bad_semid (idx + 1)) eqn:Eb.
  { wp_steps. split_and!; [done|]. left. split_and!;
      [done|by apply (sem_impl_sti (cli_state s)), sem_impl_cli|].
    intros j Hj. apply HB; [done|]. apply Hlow. unfold bad_semid, CONFIG_MAX_SEM in Eb.
    apply orb_true_iff in Eb as [Eb|Eb]; [apply Z.ltb_lt in Eb; lia|].
    rewrite Z.gtb_ltb in Eb. apply Z.ltb_lt in Eb. lia. }
  pose proof (bad_semid_false _ Eb) as Hid. set (i := Z.to_nat idx) in *.
  assert (idx = Z.of_nat i) as Ei by (unfold i; lia).
  destruct (sem_slot s i HP) as [x Ex]; [change CONFIG_MAX_SEM with 4; lia|].
  replace (fill_sem idx pk) with (fill_sem (Z.of_nat i) pk) by (by rewrite Ei).
  apply wp_seq3. eapply (wp_create_sem (cli_state s)); [apply kinv0_cli, Hk|lia| |].
  { simpl. rewrite <- Ei, Hclr. done. }
  intros s' l H' Hint Hsc Hta Hsem _. wp_steps. split; [by rewrite Hint|]. right. exists i.
  split_and!; [lia| | |by rewrite <- Ei|].
  - destruct (S i) eqn:E; [|done]. exfalso.
    assert (Z.testbit (sembmap (k_sem s)) (Z.of_nat i) = true) as E' by (apply HB; [lia|by rewrite E]).
    by rewrite <- Ei, Hclr in E'.
  - intros j Hj. apply HB; [lia|]. apply Hlow. lia.
  - eapply sem_impl_created; [exact HI|done..|lia|exact Ex|exact Hsem].
Qed.

(** ** What the semaphores guarantee *)

(** Every count is between zero and its maximum, a C integer, and nobody waits
    for a semaphore that has units. *)
Definition sem_sane (A : akernel) (S : nat -> option (Z * Z)) : Prop :=
  forall i n mx, S i = Some (n, mx) ->
    0 <= n <= mx /\ mx < 2 ^ 31 /\ (a_wait A (WSem i) <> [] -> n = 0).

Lemma a_wai_sem_sane c id A S r A' S' :
  sem_sane A S -> a_wai_sem c id A S = (r, A', S') -> sem_sane A' S'.
Proof.
  unfold a_wai_sem. intros H. destruct (bad_semid id); [by intros [= _ <- <-]|].
  set (i := Z.to_nat (id - 1)). destruct (S i) as [[n mx]|] eqn:E; [|by intros [= _ <- <-]].
  destruct (H i n mx E) as (Hn & Hmx & Hw).
  rewrite Z.geb_leb. destruct (Z.leb_spec 1 n); intros [= _ <- <-] j n' mx' Ej.
  - destruct (decide (j = i)) as [->|Hne].
    + rewrite fn_lookup_insert in Ej. injection Ej as <- <-. split_and!; [lia..|].
      intros Hw'. specialize (Hw Hw'). lia.
    + rewrite fn_lookup_insert_ne in Ej by done. by apply H.
  - destruct (H j n' mx' Ej) as (? & ? & Hj). split_and!; [lia..|]. simpl.
    destruct (decide (j = i)) as [->|Hne].
    + intros _. rewrite E in Ej. injection Ej as <- <-. lia.
    + rewrite fn_lookup_insert_ne by congruence. done.
Qed.

Lemma a_sig_sem_sane id A S r A' S' :
  sem_sane A S -> a_sig_sem id A S = (r, A', S') -> sem_sane A' S'.
Proof.
  unfold a_sig_sem. intros H. destruct (bad_semid id); [by intros [= _ <- <-]|].
  set (i := Z.to_nat (id - 1)). destruct (S i) as [[n mx]|] eqn:E; [|by intros [= _ <- <-]].
  destruct (H i n mx E) as (Hn & Hmx & Hw).
  destruct (Z.eqb_spec n mx) as [|Hne]; [by intros [= _ <- <-]|].
  unfold a_wake. destruct (a_wait A (WSem i)) as [|c l] eqn:Ew; intros [= _ <- <-] j n' mx' Ej.
  - destruct (decide (j = i)) as [->|Hne'].
    + rewrite fn_lookup_insert in Ej. injection Ej as <- <-.
      rewrite i32_small by lia. split_and!; [lia..|]. by rewrite Ew.
    + rewrite fn_lookup_insert_ne in Ej by done. by apply H.
  - destruct (H j n' mx' Ej) as (? & ? & Hj). split_and!; [lia..|]. simpl.
    destruct (decide (j = i)) as [->|Hne'].
    + intros _. apply Hj. by rewrite Ew.
    + rewrite fn_lookup_insert_ne by congruence. done.
Qed.
