(* ===== verification/Event.v ===== *)
(** * Eventflags: event.c *)

From Stdlib Require Import ZArith Lia.
From stdpp Require Import base tactics gmap option functions countable list.
From S2P Require Import Prelude Bits Queue Qfam Mem Kstate Syslog Sched Timeout Dispatch Kinv.
From S2P Require Import Waitobj.

Open Scope Z_scope.
Open Scope kernel_scope.

(** [T_CFLG]: attributes and initial pattern. *)
Record T_CFLG := mk_cflg { c_flgatr : Z; c_iflgptn : Z }.

(** [flg_pool], [flgbmap] and the queue [flgque] of an eventflag. *)
#[export] Instance flg_wait : WaitPool eventflag_t := {
  w_max := CONFIG_MAX_EVENT;
  w_bmap s := flgbmap (k_flg s);
  w_set_bmap b s := set_k_flg (set_flgbmap b (k_flg s)) s;
  w_pool s := flg_pool (k_flg s);
  w_set_pool l s := set_k_flg (set_flg_pool l (k_flg s)) s;
  w_que := flgque;
  w_set_que := set_flgque;
  w_key := WFlg
}.

Abbreviation get_flg := (get_obj (X := eventflag_t)).
Abbreviation upd_flg := (upd_obj (X := eventflag_t)).
Abbreviation flg_enqueue := (q_enqueue (X := eventflag_t)).
Abbreviation flg_remove := (q_remove (X := eventflag_t)).

Definition init_flg_pool : KM unit :=
  upd_flg_mod (fun _ => mk_flg_mod clearbitmap
    (replicate (Z.to_nat CONFIG_MAX_EVENT) zero_flg) None) ;;;
  upd_nodes (fun m => foldr (fun i m => <[FlgAct i := null_node]> m) m
    (seq 0 (Z.to_nat CONFIG_MAX_EVENT))).

Definition bad_flgid (id : Z) : bool := (id <? 1) || (id >? CONFIG_MAX_EVENT).

(** [clrptn == -1] converts -1 to the unsigned type of [clrptn]. *)
Definition clr_flg_sys (id clrptn : Z) : KM sysres :=
  let idx := id - 1 in
  (* No action required *)
  if clrptn =? u32 (-1) then ret (Done E_OK) else
  if bad_flgid id then ret (Done E_ID) else
  hw_cli ;;;
  let* bm := gets (fun s => flgbmap (k_flg s)) in
  if negb (nz (isbitset bm idx)) then hw_sti ;;; ret (Done E_NOEXS) else
  let i := Z.to_nat idx in
  upd_flg i (fun x => set_flgptn (Z.land (flgptn x) clrptn) x) ;;;
  hw_sti ;;;
  ret (Done E_OK).

Definition set_flgbit (idx : Z) : KM unit :=
  upd_flg_mod (fun r => set_flgbmap (setbit (flgbmap r) idx) r).
Definition clear_flgbit (idx : Z) : KM unit :=
  upd_flg_mod (fun r => set_flgbmap (clearbit (flgbmap r) idx) r).

(** [flg->actlst.this = flg; insert_linked_list(&active_flg, &flg->actlst)] *)
Definition activate_flg (i : nat) : KM unit :=
  upd_nodes (set_this (FlgAct i) (Some (OFlg i))) ;;;
  let* h := gets (fun s => active_flg (k_flg s)) in
  let* m := gets k_nodes in
  let* '(m, h) := ret (insert_linked_list m h (FlgAct i)) in
  upd_nodes (fun _ => m) ;;;
  upd_flg_mod (set_active_flg h).

(** [memset] the slot and assign the attributes. *)
Definition fill_flg (i : nat) (pk : T_CFLG) : KM unit :=
  upd_flg i (fun _ => zero_flg) ;;;
  upd_nodes (fun m => <[FlgAct i := null_node]> m) ;;;
  upd_flg i (set_flgatr (c_flgatr pk)).

Definition cre_flg_sys (id : Z) (pk_cflg : option T_CFLG) : KM sysres :=
  let idx := id - 1 in
  if bad_flgid id then ret (Done E_ID) else
  match pk_cflg with
  | None => ret (Done E_PAR)
  | Some pk =>
      hw_cli ;;;
      let* bm := gets (fun s => flgbmap (k_flg s)) in
      (* ID already in use *)
      if nz (isbitset bm idx) then hw_sti ;;; ret (Done E_OBJ) else
      let i := Z.to_nat idx in
      fill_flg i pk ;;;
      set_flgbit idx ;;;
      write_log TFN_CRE_FLG id E_OK ;;;
      activate_flg i ;;;
      hw_sti ;;;
      ret (Done E_OK)
  end.

(** The body of the loop of [del_flg_sys]. *)
Definition del_flg_body (tsk : nat) : KM unit :=
  upd_task tsk (set_tskstat TTS_RDY) ;;;
  rq_insert tsk ;;;
  upd_task tsk (set_wobjid E_DLT).

Definition del_flg_sys (id : Z) : KM sysres :=
  let idx := id - 1 in
  if bad_flgid id then ret (Done E_ID) else
  hw_cli ;;;
  let* bm := gets (fun s => flgbmap (k_flg s)) in
  if negb (nz (isbitset bm idx)) then hw_sti ;;; ret (Done E_NOEXS) else
  let i := Z.to_nat idx in
  write_log TFN_DEL_FLG id E_OK ;;;
  (* Wakeup waiting tasks *)
  let* fuel := gets tq_fuel in
  q_drain (X := eventflag_t) fuel i del_flg_body ;;;
  clear_flgbit idx ;;;
  hw_sti ;;;
  scheduler ;;;
  ret (Cont (KReturn E_OK)).

(** The release condition: some awaited bit is set, and all of them are when
    the wait is an AND wait. *)
Definition flg_match (waiptn mode ptn : Z) : bool :=
  let ptnmatch := Z.land waiptn ptn in
  nz ptnmatch && (nz (Z.land mode TWF_ORW) || (ptnmatch =? waiptn)).

(** The loop of [set_flg_sys] over the waiting tasks, [slist] being the node it
    looks at; [slist->next] is read at the end of the iteration. *)
Fixpoint set_flg_loop (fuel i : nat) (slist : option laddr) : KM unit :=
  match slist with
  | None => ret tt
  | Some p =>
      match fuel with
      | O => fault
      | S fuel =>
          let continue :=
            let* m := gets k_nodes in set_flg_loop fuel i (next (node m p)) in
          let* m := gets k_nodes in
          let* tsk := as_task (this (node m p)) in
          let* t := get_task tsk in
          let* flg := get_flg i in
          if flg_match (wflgptn t) (wflgatr t) (flgptn flg) then
            (* Release condition satisfied: wakeup task *)
            flg_remove i tsk ;;;
            upd_task tsk (set_tskstat TTS_RDY) ;;;
            rq_insert tsk ;;;
            if nz (Z.land (flgatr flg) TA_CLR) then upd_flg i (set_flgptn 0)
            else if negb (nz (Z.land (flgatr flg) TA_WMUL)) then ret tt
            else continue
          else continue
      end
  end.

Definition set_flg_sys (id setptn : Z) : KM sysres :=
  let idx := id - 1 in
  (* No action required *)
  if negb (nz setptn) then ret (Done E_OK) else
  if bad_flgid id then ret (Done E_ID) else
  hw_cli ;;;
  let* bm := gets (fun s => flgbmap (k_flg s)) in
  if negb (nz (isbitset bm idx)) then hw_sti ;;; ret (Done E_NOEXS) else
  let i := Z.to_nat idx in
  (* Update the flag pattern to the bitwise OR *)
  upd_flg i (fun x => set_flgptn (Z.lor (flgptn x) setptn) x) ;;;
  write_log TFN_SET_FLG id E_OK ;;;
  (* Look for tasks satisfying its release condition *)
  let* x := get_flg i in
  let* fuel := gets tq_fuel in
  when (negb (queue_is_empty (flgque x))) (set_flg_loop fuel i (head (flgque x))) ;;;
  hw_sti ;;;
  scheduler ;;;
  ret (Cont (KReturn E_OK)).

Definition wai_flg_sys (id waiptn wfmode p_flgptn : Z) : KM sysres :=
  let idx := id - 1 in
  if negb (nz waiptn) then ret (Done E_PAR) else
  if wfmode >? 1 then ret (Done E_PAR) else
  if negb (nz p_flgptn) then ret (Done E_PAR) else
  if bad_flgid id then ret (Done E_ID) else
  hw_cli ;;;
  let* bm := gets (fun s => flgbmap (k_flg s)) in
  if negb (nz (isbitset bm idx)) then hw_sti ;;; ret (Done E_NOEXS) else
  let i := Z.to_nat idx in
  let* x := get_flg i in
  (* There is already a task waiting for an eventflag without TA_WMUL *)
  if negb (nz (Z.land (flgatr x) TA_WMUL)) && negb (queue_is_empty (flgque x)) then
    hw_sti ;;; ret (Done E_ILUSE) else
  if flg_match waiptn wfmode (flgptn x) then
    (* Satisfied: save return pattern *)
    kmem (store p_flgptn (flgptn x)) ;;;
    when (nz (Z.land (flgatr x) TA_CLR)) (upd_flg i (set_flgptn 0)) ;;;
    write_log TFN_WAI_FLG id E_OK ;;;
    hw_sti ;;;
    ret (Done E_OK)
  else
    let* cur := get_current in
    upd_task cur (set_wflgptn waiptn) ;;;
    flg_enqueue i cur ;;;
    write_log TFN_WAI_FLG id TTS_WAI ;;;
    upd_task cur (fun t => set_tskwait TTW_FLG (set_tskstat TTS_WAI t)) ;;;
    rq_remove cur ;;;
    hw_sti ;;;
    scheduler ;;;
    ret (Cont (KWaiFlg id)).

(** [wai_flg_sys] after [scheduler()]. *)
Definition wai_flg_resume (id : Z) : KM Z :=
  hw_cli ;;;
  let* cur := get_current in
  let* t := get_task cur in
  if wobjid t =? E_DLT then
    write_log TFN_WAI_FLG id E_DLT ;;;
    hw_sti ;;;
    ret E_DLT
  else
    write_log TFN_WAI_FLG id E_OK ;;;
    hw_sti ;;;
    ret E_OK.

(** ** The interface of the wait queues *)

#[export] Instance flg_wait_ok : WaitPoolOk eventflag_t.
Proof.
  split; cbn [flg_wait w_max w_bmap w_set_bmap w_pool w_set_pool w_que w_set_que w_key]; try done.
  - by intros [? ? ? ? ? ? ? ? [] ? ? ?].
  - by intros s s' [_ -> _ _].
  - intros l s s' []. split; simpl; congruence.
  - by intros [].
  - by intros i j [= ->].
  - intros l s k Hk. by destruct k as [|i| |]; [|destruct (Hk i)|..].
  - intros [|i| |]; [by right|by left; exists i|by right..].
  - intros l s Hl []. split; simpl; try done. by rewrite Hl.
  - by intros s [].
  - by intros s [].
  - by intros s s' [_ -> _ _].
  - intros b s Hb []. by split.
  - intros b s k Hk. by destruct k as [|i| |]; [|destruct (Hk i)|..].
Qed.

(** ** Releasing a waiting task *)

(** The task [c] waits for a pattern that [ptn] satisfies. *)
Definition releases (pool : list task_t) (ptn : Z) (c : nat) : bool :=
  match pool !! c with Some t => flg_match (wflgptn t) (wflgatr t) ptn | None => false end.

(** The pattern after a task has been released. *)
Definition ptn_after (atr ptn : Z) : Z := if nz (Z.land atr TA_CLR) then 0 else ptn.

(** The state [s'] is [s] after the task [c] that waited for the eventflag [i]
    is made ready. *)
Record released (s s' : kstate) (i c : nat) (x : eventflag_t) : Prop := {
  re_int : k_int s' = k_int s;
  re_mem : k_mem s' = k_mem s;
  re_cur : current_task (k_sched s') = current_task (k_sched s);
  re_keeps : keeps s s';
  re_flg : exists q, k_flg s' = set_flg_pool
    (<[i := mk_flg (flgatr x) (ptn_after (flgatr x) (flgptn x)) q]> (flg_pool (k_flg s))) (k_flg s);
  re_pool : exists t, task_pool (k_task s) !! c = Some t /\
    task_pool (k_task s') = <[c := set_tskstat TTS_RDY t]> (task_pool (k_task s))
}.

(** A task in no wait queue has no successor. *)
Lemma sync_next s W c : sync s W -> (forall k, c ∉ W k) -> next (node (k_nodes s) (SynQue c)) = None.
Proof. intros H Hc. by destruct (qf_clean _ _ _ _ H c Hc). Qed.

Lemma wp_release s R W T i c x fuel (Q : unit -> kstate -> Prop) :
  kinv0 s R W T -> flg_pool (k_flg s) !! i = Some x -> c ∈ W (WFlg i) ->
  (forall s', kinv0 s' (rq_append (task_pool (k_task s)) R c) (<[WFlg i := without c (W (WFlg i))]> W) T ->
     released s s' i c x -> Q tt s') ->
  wp (flg_remove i c ;;;
      upd_task c (set_tskstat TTS_RDY) ;;;
      rq_insert c ;;;
      if nz (Z.land (flgatr x) TA_CLR) then upd_flg i (set_flgptn 0)
      else if negb (nz (Z.land (flgatr x) TA_WMUL)) then ret tt
      else let* m := gets k_nodes in set_flg_loop fuel i (next (node m (SynQue c)))) Q s.
Proof.
  intros H Ex Hc HQ. destruct (waiting_task _ _ _ _ _ _ H Hc) as [HL [t Et]].
  apply wp_bind. eapply wp_q_remove; [apply H|exact Ex|exact Hc|]. intros q m Hup Hsy.
  pose proof (enqueued_q0 s m i x (w_set_que q x) (ki_pools _ _ _ _ H) (ki_log _ _ _ _ H) Hup Ex) as He.
  pose proof (dequeues_without s W (WFlg i) c (ki_sync _ _ _ _ H) Hc) as Hdq.
  apply wp_seq. eapply (wp_wake s _ R W T c t (WFlg i) _ _ H He Hdq Hsy Et); [done..|].
  intros s1 H1 [[_ Hf _ _] Hi Hm Hcu _ Hp] Hke.
  assert (flg_pool (k_flg s1) !! i = Some (set_flgque q x)) as Ex1.
  { rewrite Hf. apply list_lookup_insert_eq. by eapply lookup_lt_Some. }
  unfold ptn_after in *. destruct (nz (Z.land (flgatr x) TA_CLR)) eqn:Eclr.
  - eapply wp_upd_obj; [exact Ex1|]. apply HQ.
    + by apply (kinv0_upd_obj s1 _ _ _ i (set_flgque q x)).
    + split; try done.
      * exists q. unfold ptn_after. rewrite Eclr. cbn -[insert]. rewrite Hf. cbn -[insert].
        by rewrite list_insert_insert_eq.
      * by exists t.
  - assert (released s s1 i c x) as Hre.
    { split; try done.
      - exists q. unfold ptn_after. rewrite Eclr, Hf. by destruct x.
      - by exists t. }
    case_match; [by apply wp_ret, HQ|]. apply wp_bind, wp_gets. rewrite (sync_next s1 _ c (ki_sync _ _ _ _ H1)).
    + destruct fuel; by apply wp_ret, HQ.
    + intros k Hk. apply Hdq in Hk as [? _]. done.
Qed.

(** The loop finds the first task, in arrival order, that the pattern releases. *)
Lemma wp_set_flg_loop s R W T i x l1 l2 fuel (Q : unit -> kstate -> Prop) :
  kinv0 s R W T -> flg_pool (k_flg s) !! i = Some x -> W (WFlg i) = l1 ++ l2 -> (length l2 <= fuel)%nat ->
  match List.find (releases (task_pool (k_task s)) (flgptn x)) l2 with
  | None => Q tt s
  | Some c => forall s', kinv0 s' (rq_append (task_pool (k_task s)) R c)
      (<[WFlg i := without c (W (WFlg i))]> W) T -> released s s' i c x -> Q tt s'
  end ->
  wp (set_flg_loop fuel i ((SynQue <$> l2) !! O)) Q s.
Proof.
  intros H Ex. revert l1 fuel. induction l2 as [|c l2 IH]; intros l1 fuel Ew Hf HQ.
  { destruct fuel; by apply wp_ret. }
  destruct fuel as [|fuel]; [simpl in Hf; lia|]. simpl in Hf, HQ. cbn [fmap list_fmap lookup list_lookup].
  assert (c ∈ W (WFlg i)) as Hc by (rewrite Ew, elem_of_app, elem_of_cons; auto).
  destruct (waiting_task _ _ _ _ _ _ H Hc) as [HL [t Et]].
  cbn [set_flg_loop]. apply wp_bind, wp_gets.
  rewrite (qf_this _ _ _ _ (ki_sync _ _ _ _ H) (WFlg i) c Hc). apply wp_bind, wp_ret, wp_bind.
  eapply wp_get_task; [exact Et|]. apply wp_bind. eapply wp_get_obj; [exact Ex|].
  unfold releases in HQ at 1. rewrite Et in HQ. destruct (flg_match (wflgptn t) (wflgatr t) (flgptn x)).
  - by apply (wp_release s R W T).
  - apply wp_bind, wp_gets.
    pose proof (qf_rep _ _ _ _ (ki_sync _ _ _ _ H) (WFlg i)) as (_ & _ & _ & Hl).
    rewrite Ew, fmap_app, fmap_cons in Hl. destruct (linked_mid _ _ _ _ Hl) as [_ ->].
    apply (IH (l1 ++ [c])); [by rewrite Ew, <- app_assoc|lia|done].
Qed.

Lemma wp_set_flg_scan s R W T i x (Q : unit -> kstate -> Prop) :
  kinv0 s R W T -> flg_pool (k_flg s) !! i = Some x ->
  match List.find (releases (task_pool (k_task s)) (flgptn x)) (W (WFlg i)) with
  | None => Q tt s
  | Some c => forall s', kinv0 s' (rq_append (task_pool (k_task s)) R c)
      (<[WFlg i := without c (W (WFlg i))]> W) T -> released s s' i c x -> Q tt s'
  end ->
  wp (when (negb (queue_is_empty (flgque x))) (set_flg_loop (tq_fuel s) i (head (flgque x)))) Q s.
Proof.
  intros H Ex HQ. pose proof (qf_rep _ _ _ _ (ki_sync _ _ _ _ H) (WFlg i)) as Hr.
  assert (waitq s (WFlg i) = flgque x) as Eq by (simpl; by rewrite Ex). rewrite Eq in Hr.
  destruct (queue_is_empty (flgque x)) eqn:Ee.
  - apply (qrep_empty _ _ _ Hr) in Ee. apply fmap_nil_inv in Ee. rewrite Ee in HQ. by apply wp_ret.
  - cbn [negb when]. destruct Hr as (-> & _). eapply (wp_set_flg_loop s _ _ _ i x []); [exact H|exact Ex|done| |exact HQ].
    pose proof (wait_length _ _ _ _ (WFlg i) H). unfold tq_fuel. lia.
Qed.

(** ** What the eventflags promise *)

(** The attributes and the pattern of each eventflag that exists. *)
Definition flg_view (r : flg_mod) (i : nat) : option (Z * Z) :=
  if Z.testbit (flgbmap r) (Z.of_nat i) then (fun x => (flgatr x, flgptn x)) <$> flg_pool r !! i
  else None.

(** The kernel with its eventflags. *)
Definition flg_impl (s : kstate) (A : akernel) (F : nat -> option (Z * Z)) : Prop :=
  impl s A /\ forall i, flg_view (k_flg s) i = F i.

(** The task [c] that waits for [k] becomes ready. *)
Definition a_release (c : nat) (k : wkey) (A : akernel) : akernel :=
  mk_ak (a_pri A) (<[a_pri A c := a_ready A (a_pri A c) ++ [c]]> (a_ready A))
    (<[k := without c (a_wait A k)]> (a_wait A)) (a_sleep A).

Definition a_clr_flg (id ptn : Z) (F : nat -> option (Z * Z)) : sysres * (nat -> option (Z * Z)) :=
  if ptn =? u32 (-1) then (Done E_OK, F) else
  if bad_flgid id then (Done E_ID, F) else
  let i := Z.to_nat (id - 1) in
  match F i with
  | None => (Done E_NOEXS, F)
  | Some (atr, p) => (Done E_OK, <[i := Some (atr, Z.land p ptn)]> F)
  end.

(** The tasks to release, in arrival order, by the attributes: every waiting task
    whose condition the pattern satisfies; only the first of them when the pattern
    is cleared for it ([TA_CLR]) or when one task only may wait (no [TA_WMUL]). *)
Fixpoint due (pool : list task_t) (atr ptn : Z) (l : list nat) : list nat :=
  match l with
  | [] => []
  | c :: l =>
      if releases pool ptn c
      then c :: (if nz (Z.land atr TA_CLR) || negb (nz (Z.land atr TA_WMUL)) then [] else due pool atr ptn l)
      else due pool atr ptn l
  end.

Definition is_nil {A} (l : list A) : bool := match l with [] => true | _ => false end.

(** Set: the bits are added and those of the tasks to release that [wake] lets
    through become ready, in arrival order. *)
Definition a_set_flg (wake : list nat -> list nat) (pool : list task_t) (id ptn : Z) (A : akernel)
    (F : nat -> option (Z * Z)) : sysres * akernel * (nat -> option (Z * Z)) :=
  if negb (nz ptn) then (Done E_OK, A, F) else
  if bad_flgid id then (Done E_ID, A, F) else
  let i := Z.to_nat (id - 1) in
  match F i with
  | None => (Done E_NOEXS, A, F)
  | Some (atr, p) =>
      let p' := Z.lor p ptn in
      let ws := wake (due pool atr p' (a_wait A (WFlg i))) in
      (Cont (KReturn E_OK), foldl (fun A c => a_release c (WFlg i) A) A ws,
       <[i := Some (atr, if is_nil ws then p' else ptn_after atr p')]> F)
  end.

(** The first task to release is the first whose condition is satisfied. *)
Lemma due_first pool atr ptn l :
  take 1 (due pool atr ptn l) = match List.find (releases pool ptn) l with Some c => [c] | None => [] end.
Proof. induction l as [|c l IH]; cbn; [done|]. by destruct (releases pool ptn c). Qed.

(** The attributes allow one release only. *)
Lemma due_single pool atr ptn l : nz (Z.land atr TA_CLR) = true \/ nz (Z.land atr TA_WMUL) = false ->
  (length (due pool atr ptn l) <= 1)%nat.
Proof.
  intros H. induction l as [|c l IH]; cbn; [lia|]. destruct (releases pool ptn c); [|done].
  by destruct H as [-> | ->]; rewrite ?orb_true_r.
Qed.

(** No second task is to be released by [set_flg id ptn]. *)
Definition one_due (pool : list task_t) (id ptn : Z) (A : akernel) (F : nat -> option (Z * Z)) : Prop :=
  let i := Z.to_nat (id - 1) in
  forall atr p, F i = Some (atr, p) -> (length (due pool atr (Z.lor p ptn) (a_wait A (WFlg i))) <= 1)%nat.

Lemma one_due_set pool id ptn A F : one_due pool id ptn A F ->
  a_set_flg (take 1) pool id ptn A F = a_set_flg (fun l => l) pool id ptn A F.
Proof.
  intros H. unfold a_set_flg. destruct (negb _), (bad_flgid id); try done.
  destruct (F _) as [[atr p]|] eqn:E; [|done]. specialize (H atr p E). by rewrite take_ge.
Qed.

(** Wait: return the pattern, or wait in arrival order. The last component is
    the pattern that is returned. *)
Definition a_wai_flg (c : nat) (id waiptn wfmode p_flgptn : Z) (A : akernel) (F : nat -> option (Z * Z))
  : sysres * akernel * (nat -> option (Z * Z)) * option Z :=
  if negb (nz waiptn) then (Done E_PAR, A, F, None) else
  if wfmode >? 1 then (Done E_PAR, A, F, None) else
  if negb (nz p_flgptn) then (Done E_PAR, A, F, None) else
  if bad_flgid id then (Done E_ID, A, F, None) else
  let i := Z.to_nat (id - 1) in
  match F i with
  | None => (Done E_NOEXS, A, F, None)
  | Some (atr, p) =>
      if negb (nz (Z.land atr TA_WMUL)) && negb (bool_decide (a_wait A (WFlg i) = []))
      then (Done E_ILUSE, A, F, None)
      else if flg_match waiptn wfmode p then (Done E_OK, A, <[i := Some (atr, ptn_after atr p)]> F, Some p)
      else (Cont (KWaiFlg id), a_block c (WFlg i) A, F, None)
  end.

Lemma bad_flgid_false id : bad_flgid id = false -> 1 <= id <= w_max (X := eventflag_t).
Proof.
  unfold bad_flgid. rewrite orb_false_iff, Z.ltb_ge, Z.gtb_ltb, Z.ltb_ge. cbn [w_max flg_wait]. lia.
Qed.

Lemma flg_view_upd r i x x' j : flg_pool r !! i = Some x ->
  flg_view (set_flg_pool (<[i := x']> (flg_pool r)) r) j =
    if decide (j = i) then (if Z.testbit (flgbmap r) (Z.of_nat i) then Some (flgatr x', flgptn x') else None)
    else flg_view r j.
Proof.
  intros Ex. unfold flg_view. simpl. case_decide as E.
  - subst. rewrite list_lookup_insert_eq by (by eapply lookup_lt_Some). done.
  - by rewrite list_lookup_insert_ne.
Qed.

(** The views before and after a write to an eventflag that exists. *)
Lemma flg_view_write s F i x x' : (forall j, flg_view (k_flg s) j = F j) ->
  flg_pool (k_flg s) !! i = Some x -> open_obj s (WFlg i) ->
  F i = Some (flgatr x, flgptn x) /\
  forall j, flg_view (set_flg_pool (<[i := x']> (flg_pool (k_flg s))) (k_flg s)) j =
    (<[i := Some (flgatr x', flgptn x')]> F) j.
Proof.
  intros HF Ex Ho. simpl in Ho. split.
  - rewrite <- HF. unfold flg_view. by rewrite Ho, Ex.
  - intros j. rewrite (flg_view_upd _ _ x) by done. rewrite Ho. case_decide as E.
    + subst. by rewrite fn_lookup_insert.
    + by rewrite fn_lookup_insert_ne.
Qed.

Lemma flg_view_closed s F i : (forall j, flg_view (k_flg s) j = F j) -> ~ open_obj s (WFlg i) -> F i = None.
Proof. intros HF Ho. rewrite <- HF. unfold flg_view. simpl in Ho. by case_match. Qed.

Lemma wp_clr_flg s A F id ptn :
  flg_impl s A F ->
  wp (clr_flg_sys id ptn) (fun r s' =>
    let '(r', F') := a_clr_flg id ptn F in
    r = r' /\ flg_impl s' A F' /\ imask (k_int s') = imask (k_int s)) s.
Proof.
  intros [HI HF]. unfold clr_flg_sys, a_clr_flg. case_match; [by apply wp_ret|].
  destruct (bad_flgid id) eqn:Eb; [by apply wp_ret|].
  eapply (wp_existing (X := eventflag_t)); [done|by apply bad_flgid_false|done| |].
  { intros Hc HI'. by rewrite (flg_view_closed s F). }
  intros i x Ei Ei' Hi Ex Ho. rewrite <- Ei in *.
  destruct (flg_view_write s F i x (set_flgptn (Z.land (flgptn x) ptn) x) HF Ex Ho) as [-> HF'].
  apply wp_bind. eapply wp_upd_obj; [exact Ex|]. wp_steps. split_and!; [done| |done]. split; [|exact HF'].
  eapply (impl_frame s); [done| |done|done]. apply (kinv0_sti (w_set_pool _ _)).
  apply (kinv0_upd_obj (cli_state s) _ _ _ i x); [apply kinv0_cli, HI|done|done].
Qed.

Lemma wp_set_flg s A F id ptn :
  flg_impl s A F ->
  wp (set_flg_sys id ptn) (fun r s' =>
    let '(r', A', F') := a_set_flg (take 1) (task_pool (k_task s)) id ptn A F in
    r = r' /\ flg_impl s' A' F' /\ imask (k_int s') = imask (k_int s) /\ rescheduled r s' A') s.
Proof.
  intros [HI HF]. unfold set_flg_sys, a_set_flg. destruct (nz ptn); [|by apply wp_ret].
  destruct (bad_flgid id) eqn:Eb; [by apply wp_ret|]. cbn [negb].
  eapply (wp_existing (X := eventflag_t)); [done|by apply bad_flgid_false|done| |].
  { intros Hc HI'. by rewrite (flg_view_closed s F). }
  intros i x Ei Ei' Hi Ex Ho. rewrite <- Ei in *.
  set (x1 := set_flgptn (Z.lor (flgptn x) ptn) x).
  destruct (flg_view_write s F i x x1 HF Ex Ho) as [EF HF1]. rewrite EF.
  apply wp_bind. eapply wp_upd_obj; [exact Ex|]. apply wp_bind, wp_write_log; [apply HI|]. intros l Hl.
  set (s1 := set_k_log l _).
  assert (kinv0 s1 (a_ready A) (a_wait A) (a_sleep A)) as H1.
  { apply kinv0_log; [|done]. apply (kinv0_upd_obj (cli_state s) _ _ _ i x); [apply kinv0_cli, HI|done|done]. }
  assert (flg_pool (k_flg s1) !! i = Some x1) as Ex1.
  { apply list_lookup_insert_eq. by eapply lookup_lt_Some. }
  cbv zeta. rewrite due_first.
  apply wp_bind. eapply wp_get_obj; [exact Ex1|]. apply wp_bind, wp_gets, wp_bind.
  eapply (wp_set_flg_scan s1 _ _ _ i x1); [exact H1|exact Ex1|].
  destruct (List.find _ _) as [c|] eqn:Ef.
  - apply List.find_some in Ef as [Hc _]. apply list_elem_of_In in Hc.
    destruct (waiting_task _ _ _ _ _ _ H1 Hc) as [HL _].
    intros s2 H2 [Hi2 _ Hc2 Hk2 (q & Hq) _].
    eapply (wp_finish s s2 A (a_release c (WFlg i) A)); [done|exact Hk2|done| |by unfold masked; rewrite Hi2|].
    { simpl. by rewrite (proj2 HI c HL). }
    intros s' HI' Hsc Him [_ Ho' _ _] _ _ _. split_and!; [done| |done|exact Hsc]. split; [done|].
    assert (k_flg s2 = set_flg_pool (<[i := mk_flg (flgatr x) (ptn_after (flgatr x) (flgptn x1)) q]>
      (flg_pool (k_flg s))) (k_flg s)) as Hq2.
    { rewrite Hq. unfold set_flg_pool. cbn -[insert]. by rewrite list_insert_insert_eq. }
    rewrite Ho', Hq2. by apply (flg_view_write s F i x).
  - eapply (wp_finish s s1 A A); [done|done|done|exact H1|done|].
    intros s' HI' Hsc Him [_ Ho' _ _] _ _ _. split_and!; [done| |done|exact Hsc]. split; [done|].
    rewrite Ho'. exact HF1.
Qed.

(** The word written through the pointer of the caller. *)
Definition out_word (m : gmap Z Z) (p : Z) (o : option Z) : gmap Z Z :=
  match o with Some v => <[p := v]> m | None => m end.

(** The queue that is tested is empty when nobody waits. *)
Lemma flg_empty s R W T i x : kinv0 s R W T -> flg_pool (k_flg s) !! i = Some x ->
  queue_is_empty (flgque x) = bool_decide (W (WFlg i) = []).
Proof.
  intros H Ex. pose proof (qf_rep _ _ _ _ (ki_sync _ _ _ _ H) (WFlg i)) as Hr.
  assert (waitq s (WFlg i) = flgque x) as Eq by (simpl; by rewrite Ex). rewrite Eq in Hr.
  pose proof (qrep_empty _ _ _ Hr) as E. destruct (W (WFlg i)); simpl in E;
    case_bool_decide; destruct (queue_is_empty _); naive_solver.
Qed.

(** The pattern that a waiting task waits for, where [set_flg_sys] reads it. *)
Definition awaits (s : kstate) (c : nat) (ptn : Z) : Prop :=
  exists t, task_pool (k_task s) !! c = Some t /\ wflgptn t = ptn.

(** The tail of [wai_flg_sys] when the condition is not satisfied. *)
Lemma wp_flg_block s A c id ptn i x (r : sysres) (Q : sysres -> kstate -> Prop) :
  impl s A -> current_task (k_sched s) = Some c -> ~ is_idle s c ->
  flg_pool (k_flg s) !! i = Some x -> open_obj s (WFlg i) ->
  (forall s' q, impl s' (a_block c (WFlg i) A) -> scheduled s' (a_ready (a_block c (WFlg i) A)) -> imask (k_int s') = imask (k_int s) -> k_mem s' = k_mem s ->
     k_flg s' = set_flg_pool (<[i := set_flgque q x]> (flg_pool (k_flg s))) (k_flg s) -> awaits s' c ptn -> Q r s') ->
  wp (upd_task c (set_wflgptn ptn) ;;;
      flg_enqueue i c ;;;
      write_log TFN_WAI_FLG id TTS_WAI ;;;
      upd_task c (fun t => set_tskwait TTW_FLG (set_tskstat TTS_WAI t)) ;;;
      rq_remove c ;;;
      hw_sti ;;; scheduler ;;; ret r) Q (cli_state s).
Proof.
  intros HI Hcur Hni Ex Ho HQ. pose proof (impl_cur s A c HI Hcur Hni) as Hc.
  destruct HI as [Hk Hp]. pose proof (kinv0_cli _ _ _ _ (proj1 Hk)) as H0.
  destruct (rq_place _ _ _ _ _ _ H0 Hc) as (t & Et & _).
  apply wp_bind. eapply wp_upd_task; [exact Et|].
  pose proof (kinv0_upd_task (cli_state s) _ _ _ c t (set_wflgptn ptn) H0 Et eq_refl eq_refl eq_refl eq_refl) as H1.
  set (s1 := set_k_task _ (cli_state s)) in *.
  assert (keeps s s1) as Hke1.
  { split; intros j; [done|]. unfold s1. cbn -[insert]. by rewrite (pri_of_insert _ _ t). }
  eapply wp_seq4, (wp_q_block s1 _ _ _ c (a_pri A c) i x); [exact H1|exact Hc|exact Ex|exact Ho|done|].
  intros s2 q t2 H2 Hi2 Hc2 Hm2 _ [_ Hf2 _ _] Et2 Hp2 Hke2 _.
  eapply (wp_finish s s2 A (a_block c (WFlg i) A)); [done|by etrans|done|exact H2|by unfold masked; rewrite Hi2|].
  intros s' HI' Hsc Him [_ Ho' _ _] Hm' _ Hst. apply (HQ s' q); [done|done|done|by rewrite Hm', Hm2|by rewrite Ho', Hf2|].
  assert (c ∈ a_wait (a_block c (WFlg i) A) (WFlg i)) as Hw by (simpl; rewrite fn_lookup_insert; set_solver).
  destruct (waiting_task _ _ _ _ _ _ (proj1 (proj1 HI')) Hw) as [_ [t' Et']].
  exists t'. split; [done|]. destruct (Hst c t' Et') as (t3 & Et3 & ->). rewrite Hp2 in Et3.
  rewrite list_lookup_insert_eq in Et3 by (by eapply lookup_lt_Some). injection Et3 as <-.
  unfold s1 in Et2. cbn -[insert] in Et2. rewrite list_lookup_insert_eq in Et2 by (by eapply lookup_lt_Some).
  by injection Et2 as <-.
Qed.

Lemma wp_wai_flg s A F c id waiptn wfmode p_flgptn :
  flg_impl s A F -> current_task (k_sched s) = Some c -> ~ is_idle s c -> Z.land p_flgptn 3 = 0 ->
  wp (wai_flg_sys id waiptn wfmode p_flgptn) (fun r s' =>
    let '(r', A', F', o) := a_wai_flg c id waiptn wfmode p_flgptn A F in
    r = r' /\ flg_impl s' A' F' /\ k_mem s' = out_word (k_mem s) p_flgptn o /\
    imask (k_int s') = imask (k_int s) /\ rescheduled r s' A' /\ (r = Cont (KWaiFlg id) -> awaits s' c waiptn)) s.
Proof.
  intros [HI HF] Hcur Hni Hal. unfold wai_flg_sys, a_wai_flg. destruct (nz waiptn); [|by apply wp_ret].
  destruct (wfmode >? 1); [by apply wp_ret|]. destruct (nz p_flgptn) eqn:Ep; [|by apply wp_ret].
  destruct (bad_flgid id) eqn:Eb; [by apply wp_ret|]. cbn [negb].
  eapply (wp_existing (X := eventflag_t)); [done|by apply bad_flgid_false|done| |].
  { intros Hc HI'. by rewrite (flg_view_closed s F). }
  intros i x Ei Ei' Hi Ex Ho. rewrite <- Ei in *.
  set (x1 := set_flgptn (ptn_after (flgatr x) (flgptn x)) x).
  destruct (flg_view_write s F i x x1 HF Ex Ho) as [-> HF'].
  apply wp_bind. eapply wp_get_obj; [exact Ex|].
  rewrite (flg_empty s _ _ _ i x (proj1 (proj1 HI)) Ex). destruct (_ && _).
  { wp_steps. split_and!; [done| |done..]. split; [by apply impl_sti, impl_cli|done]. }
  destruct (flg_match waiptn wfmode (flgptn x)).
  - apply wp_bind. apply wp_kmem, wp_store; [unfold valid_addr; by rewrite Ep, Hal|].
    set (s1 := set_k_mem _ _).
    assert (kinv0 s1 (a_ready A) (a_wait A) (a_sleep A)) as H1 by (apply kinv0_mem, kinv0_cli, HI).
    apply wp_bind. set (s2 := set_k_flg (set_flg_pool (<[i := x1]> (flg_pool (k_flg s))) (k_flg s)) s1).
    assert (wp (when (nz (Z.land (flgatr x) TA_CLR)) (upd_flg i (set_flgptn 0))) (fun _ s' => s' = s2) s1) as Hw.
    { unfold s2, x1, ptn_after. destruct (nz (Z.land (flgatr x) TA_CLR)).
      - by eapply wp_upd_obj; [exact Ex|].
      - apply wp_ret. replace (set_flgptn (flgptn x) x) with x by (by destruct x).
        rewrite list_insert_id by done. by destruct s as [? ? ? ? ? ? ? ? [] ? ? ?]. }
    eapply wp_mono; [exact Hw|]. intros _ ? ->.
    assert (kinv0 s2 (a_ready A) (a_wait A) (a_sleep A)) as H2.
    { exact (kinv0_upd_obj s1 _ _ _ i x x1 H1 Ex eq_refl). }
    apply wp_bind, wp_write_log; [apply HI|]. intros l Hl. wp_steps. split_and!; [done| |done..].
    split; [|exact HF']. eapply (impl_frame s); [done| |done|done]. by apply (kinv0_sti (set_k_log _ _)), kinv0_log.
  - apply wp_bind. eapply wp_get_current; [exact Hcur|].
    eapply (wp_flg_block s A); [done|exact Hcur|done|exact Ex|exact Ho|].
    intros s' q HI' Hsc Him Hm Hf Haw. split_and!; [done| |done|done|exact Hsc|done]. split; [done|]. rewrite Hf.
    intros j. rewrite (flg_view_upd _ _ x) by done. case_decide as E; [|by apply HF]. subst j.
    rewrite <- HF. unfold flg_view. simpl in Ho, Ex. by rewrite Ho, Ex.
Qed.

(** ** Deletion and creation *)

(** The waiting tasks become ready and are told that the eventflag is deleted. *)
Lemma del_flg_wakes : wakes del_flg_body (fun t => set_wobjid E_DLT (set_tskstat TTS_RDY t)).
Proof. by apply wakes_rdy_then. Qed.

Lemma flg_view_clear r i j : word32 (flgbmap r) -> (i < 32)%nat ->
  flg_view (set_flgbmap (clearbit (flgbmap r) (Z.of_nat i)) r) j =
    if decide (j = i) then None else flg_view r j.
Proof.
  intros Hw Hi. unfold flg_view. simpl. rewrite clearbit_bit by (done || lia).
  case_decide as E.
  - subst. by rewrite Z.eqb_refl.
  - by destruct (Z.eqb_spec (Z.of_nat i) (Z.of_nat j)); [lia|].
Qed.

Lemma wp_del_flg s A F id :
  flg_impl s A F ->
  wp (del_flg_sys id) (fun r s' =>
    imask (k_int s') = imask (k_int s) /\
    if bad_flgid id then r = Done E_ID /\ s' = s else
    let i := Z.to_nat (id - 1) in
    match F i with
    | None => r = Done E_NOEXS /\ flg_impl s' A F
    | Some _ =>
        let ws := a_wait A (WFlg i) in
        r = Cont (KReturn E_OK) /\
        flg_impl s' (mk_ak (a_pri A) (foldl (rq_append (task_pool (k_task s))) (a_ready A) ws)
                      (<[WFlg i := []]> (a_wait A)) (a_sleep A))
                    (<[i := None]> F) /\
        forall c t, c ∈ ws -> task_pool (k_task s') !! c = Some t -> wobjid t = E_DLT
    end) s.
Proof.
  intros [HI HF]. unfold del_flg_sys. destruct (bad_flgid id) eqn:Eb; [by apply wp_ret|].
  eapply (wp_existing (X := eventflag_t)); [done|by apply bad_flgid_false|done| |].
  { intros Hc HI'. by rewrite (flg_view_closed s F). }
  intros i x Ei Ei' Hi Ex Ho. rewrite <- Ei in *.
  destruct (flg_view_write s F i x x HF Ex Ho) as [-> _].
  apply wp_bind, wp_write_log; [apply HI|]. intros l Hl. apply wp_bind, wp_gets, wp_bind.
  set (s1 := set_k_log l (cli_state s)).
  assert (kinv0 s1 (a_ready A) (a_wait A) (a_sleep A)) as H1 by (apply kinv0_log; [apply kinv0_cli, HI|done]).
  eapply (wp_q_drain _ _ _ s1 _ _ _ i x); [exact del_flg_wakes|exact H1|exact Ex| |].
  { pose proof (wait_length _ _ _ _ (WFlg i) H1). unfold tq_fuel. cbn [w_key flg_wait]. lia. }
  intros s2 H2 [D1 _ D2 D7 D3 (q & D4) D6 _]. rewrite Ei'. apply wp_bind, wp_modify.
  pose proof (kinv0_close (X := eventflag_t) s2 _ _ _ i H2 Hi (fn_lookup_insert _ _ _)) as H3.
  eapply (wp_sti_scheduler _ _ _ _ (imask (k_int s))); [exact H3|unfold masked; cbn; by rewrite D1|].
  intros s' c d Hk' _ Him Hd _ _. split_and!; [done|done| |].
  - split.
    + eapply (impl_keeps s); [done| |done|exact Hk']. etrans; [exact D3|]. exact (dispatched_keeps _ _ _ _ Hd).
    + intros j. rewrite (sf_flg _ _ (dp_frame _ _ _ _ Hd)).
      pose proof (po_flgb _ (ki_pools _ _ _ _ H2)) as Hw. change (w_max) with 2 in Hi.
      etrans; [apply flg_view_clear; [exact Hw|lia]|]. destruct (decide (j = i)) as [->|Hj].
      * by rewrite fn_lookup_insert.
      * rewrite fn_lookup_insert_ne, <- HF, (so_flg _ _ D4) by done. cbn -[insert flg_view].
        rewrite (flg_view_upd _ _ x) by done. by rewrite decide_False.
  - intros w t Hw Et. rewrite (dp_pool _ _ _ _ Hd), pool_switch_lookup in Et.
    apply fmap_Some in Et as (t2 & Et2 & ->). cbn in Et2. rewrite D6 in Et2.
    apply fmap_Some in Et2 as (t1 & _ & ->).
    repeat case_decide; try done; by case_match.
Qed.

(** The eventflag a creation writes: the initial pattern is 0. *)
Definition new_flg (pk : T_CFLG) : eventflag_t := mk_flg (c_flgatr pk) 0 null_queue.

Lemma flg_view_set r i x x' j : word32 (flgbmap r) -> (i < 32)%nat -> flg_pool r !! i = Some x ->
  flg_view (set_flgbmap (setbit (flgbmap r) (Z.of_nat i)) (set_flg_pool (<[i := x']> (flg_pool r)) r)) j =
    if decide (j = i) then Some (flgatr x', flgptn x') else flg_view r j.
Proof.
  intros Hw Hi Ex. unfold flg_view. cbn [flgbmap set_flgbmap set_flg_pool flg_pool].
  rewrite setbit_bit by (done || lia). case_decide as E.
  - subst. rewrite Z.eqb_refl, list_lookup_insert_eq by (by eapply lookup_lt_Some). done.
  - rewrite list_lookup_insert_ne by done. by destruct (Z.eqb_spec (Z.of_nat i) (Z.of_nat j)); [lia|].
Qed.

(** Filling a free slot and linking it in the list of active eventflags. *)
Lemma wp_create_flg s R W T i pk fn id (Q : unit -> kstate -> Prop) :
  kinv0 s R W T -> Z.of_nat i < CONFIG_MAX_EVENT -> ~ open_obj s (WFlg i) ->
  (forall s', kinv0 s' R W T -> k_int s' = k_int s -> k_sched s' = k_sched s -> k_task s' = k_task s ->
     k_flg s' = set_active_flg (Some (FlgAct i)) (set_flgbmap (setbit (flgbmap (k_flg s)) (Z.of_nat i))
       (set_flg_pool (<[i := new_flg pk]> (flg_pool (k_flg s))) (k_flg s))) -> Q tt s') ->
  wp (fill_flg i pk ;;; set_flgbit (Z.of_nat i) ;;; write_log fn id E_OK ;;; activate_flg i) Q s.
Proof.
  intros H Hi Hop HQ. pose proof (ki_pools _ _ _ _ H) as HP.
  destruct (obj_slot (X := eventflag_t) s i HP) as [x Ex]; [exact Hi|]. simpl in Ex.
  unfold fill_flg, set_flgbit. wp_steps. eapply wp_upd_obj; [exact Ex|]. wp_steps.
  eapply wp_upd_obj; [apply list_lookup_insert_eq; by eapply lookup_lt_Some|]. wp_steps.
  apply wp_write_log; [apply H|]. intros l Hl. unfold activate_flg. wp_steps.
  cbn [w_pool w_set_pool flg_wait k_flg k_nodes set_k_flg set_k_nodes set_k_log set_flgbmap set_flg_pool
    active_flg flg_pool flgbmap]. rewrite list_insert_insert_eq.
  destruct (activate_nodes (k_nodes s) (active_flg (k_flg s)) (FlgAct i) (Some (OFlg i))) as [Hh Hn].
  { done. }
  { intros a Ea. by destruct (po_aflg _ HP a Ea) as [j ->]. }
  destruct (insert_linked_list _ _ _) as [m' h]. simpl in Hh, Hn. subst h.
  wp_steps. destruct (@kinv0_open eventflag_t flg_wait _ s R W T i x (new_flg pk) H Ex Hi Hop eq_refl) as [H1 _].
  destruct (@kinv0_open eventflag_t flg_wait _ _ R W T i (new_flg pk) (new_flg pk) H1) as [_ H2]; [|done..|].
  { apply list_lookup_insert_eq. by eapply lookup_lt_Some. }
  apply HQ; [|done..]. eapply (kinv0_objs _ _ R W T H2); [exact Hn|done|done|done|exact Hl| |done|].
  - destruct (ki_pools _ _ _ _ H2). split; try done. intros a [= <-]. eauto.
  - intros k j Hj. pose proof (pl_open _ _ _ _ (ki_places _ _ _ _ H2) k j Hj). by destruct k.
Qed.

Lemma wp_cre_flg s A F id pk :
  flg_impl s A F ->
  wp (cre_flg_sys id pk) (fun r s' =>
    imask (k_int s') = imask (k_int s) /\
    if bad_flgid id then r = Done E_ID /\ s' = s else
    let i := Z.to_nat (id - 1) in
    match pk with
    | None => r = Done E_PAR /\ s' = s
    | Some pk =>
        match F i with
        | Some _ => r = Done E_OBJ /\ flg_impl s' A F
        | None => r = Done E_OK /\ flg_impl s' A (<[i := Some (c_flgatr pk, 0)]> F)
        end
    end) s.
Proof.
  intros [HI HF]. unfold cre_flg_sys. destruct (bad_flgid id) eqn:Eb; [by apply wp_ret|].
  destruct pk as [pk|]; [|by apply wp_ret]. apply wp_bind, wp_cli, wp_bind, wp_gets.
  pose proof (bad_flgid_false id Eb) as Hid. pose proof (obj_bit (X := eventflag_t) s id Hid) as Hb.
  cbn [w_bmap flg_wait] in Hb. cbn [k_flg cli_state set_k_int]. rewrite Hb. clear Hb.
  set (i := Z.to_nat (id - 1)). assert (id - 1 = Z.of_nat i) as Ei by (unfold i; lia).
  assert (Z.of_nat i < CONFIG_MAX_EVENT) as Hi by (unfold i; cbn [w_max flg_wait] in Hid; lia).
  pose proof (ki_pools _ _ _ _ (proj1 (proj1 HI))) as HP.
  destruct (obj_slot (X := eventflag_t) s i HP) as [x Ex]; [exact Hi|]. simpl in Ex.
  assert (F i = if Z.testbit (flgbmap (k_flg s)) (Z.of_nat i) then Some (flgatr x, flgptn x) else None)
    as -> by (rewrite <- HF; unfold flg_view; by rewrite Ex).
  destruct (Z.testbit (flgbmap (k_flg s)) (Z.of_nat i)) eqn:Ebit.
  { wp_steps. split_and!; [done|done|]. split; [by apply impl_sti, impl_cli|done]. }
  rewrite Ei. eapply wp_seq4, (wp_create_flg (cli_state s)); [apply kinv0_cli, HI|done|by simpl; rewrite Ebit|].
  intros s' H' Hint Hsc Hta Hflg. wp_steps. split_and!; [by rewrite Hint|done|]. split.
  - eapply (impl_frame s); [done| |done|done]. by apply kinv0_sti.
  - intros j. cbn [k_flg sti_state set_k_int]. rewrite Hflg. change CONFIG_MAX_EVENT with 2 in Hi.
    etrans; [apply (flg_view_set (k_flg s) i x (new_flg pk) j); [apply HP|lia|done]|].
    case_decide as E; [subst; by rewrite fn_lookup_insert|]. rewrite fn_lookup_insert_ne by done. apply HF.
Qed.
