(* ===== verification/Mailbox.v ===== *)
(** * Mailboxes: mailbox.c

    A message is a [struct mbox_msg_head] in a block of [msg_pool]: for the
    message at address [b], [msgdat] is the word at [b] and [msgque] is the node
    [MsgQue b]. *)

From Stdlib Require Import ZArith Lia.
From stdpp Require Import base tactics gmap option functions countable list.
From S2P Require Import Prelude Bits Queue Qfam Mem Mpool Kstate Tlsf Syslog Sched Timeout Dispatch.
From S2P Require Import Kinv Waitobj.

Open Scope Z_scope.
Open Scope kernel_scope.

(** [T_CMBX]: attributes, maximal message priority, message headers. *)
Record T_CMBX := mk_cmbx { c_mbxatr : Z; c_maxmpri : Z; c_mprihd : Z }.

Definition sizeof_mbox_msg_head : Z := 16.

(** [mbx_pool], [mbxbmap] and the queue [mbxque] of a mailbox. *)
#[export] Instance mbx_wait : WaitPool mailbox_t := {
  w_max := CONFIG_MAX_MAILBOX;
  w_bmap s := mbxbmap (k_mbx s);
  w_set_bmap b s := set_k_mbx (set_mbxbmap b (k_mbx s)) s;
  w_pool s := mbx_pool (k_mbx s);
  w_set_pool l s := set_k_mbx (set_mbx_pool l (k_mbx s)) s;
  w_que := mbxque;
  w_set_que := set_mbxque;
  w_key := WMbx
}.

Abbreviation get_mbx := (get_obj (X := mailbox_t)).
Abbreviation upd_mbx := (upd_obj (X := mailbox_t)).
Abbreviation mbx_extract := (q_extract (X := mailbox_t)).
Abbreviation mbx_enqueue := (q_enqueue (X := mailbox_t)).
Abbreviation mbx_remove := (q_remove (X := mailbox_t)).

(** A [void *] of the message queue. *)
Definition msg_ptr (o : option obj) : KM (option Z) :=
  match o with
  | None => ret None
  | Some (OMsg b) => ret (Some b)
  | Some _ => fault
  end.

(** [queue_extract(&mbx->msgque)] *)
Definition msg_extract (i : nat) : KM (option Z) :=
  let* x := get_mbx i in
  let* m := gets k_nodes in
  let* '(o, m, q) := ret (queue_extract m (msgque x)) in
  upd_nodes (fun _ => m) ;;;
  upd_mbx i (set_msgque q) ;;;
  msg_ptr o.

(** [queue_insert(&mbx->msgque, &msg->msgque)] *)
Definition msg_insert (i : nat) (b : Z) : KM unit :=
  let* x := get_mbx i in
  let* m := gets k_nodes in
  let* '(m, q) := ret (queue_insert m (msgque x) (MsgQue b)) in
  upd_nodes (fun _ => m) ;;;
  upd_mbx i (set_msgque q).

Definition get_msg_pool : KM Z := gets (fun s => msg_pool (k_mbx s)).

(** [mpfree(msg_pool, msg)] *)
Definition free_msg (b : Z) : KM unit :=
  let* p := get_msg_pool in kmem (mpfree p b).

Definition init_mbox_pool : KM unit :=
  upd_mbx_mod (fun r => set_mbx_pool (replicate (Z.to_nat CONFIG_MAX_MAILBOX) zero_mbx)
    (set_mbxbmap clearbitmap r)) ;;;
  let* kf := gets (fun s => kfast_pool (k_setup s)) in
  let* p := ktlsf (malloc_ex (POOL_SIZE sizeof_mbox_msg_head CONFIG_MAX_MAILBOX_MSG) kf) in
  upd_mbx_mod (set_msg_pool p) ;;;
  kmem (init_pool p sizeof_mbox_msg_head CONFIG_MAX_MAILBOX_MSG).

Definition bad_mbxid (id : Z) : bool := (id <? 1) || (id >? CONFIG_MAX_MAILBOX).

Definition set_mbxbit (idx : Z) : KM unit :=
  upd_mbx_mod (fun r => set_mbxbmap (setbit (mbxbmap r) idx) r).
Definition clear_mbxbit (idx : Z) : KM unit :=
  upd_mbx_mod (fun r => set_mbxbmap (clearbit (mbxbmap r) idx) r).

(** [memset] the slot, assign the attributes and mark it as used. *)
Definition fill_mbx (idx : Z) (pk : T_CMBX) : KM unit :=
  let i := Z.to_nat idx in
  upd_mbx i (fun _ => zero_mbx) ;;;
  upd_mbx i (fun x => set_maxmpri (c_maxmpri pk) (set_mbxatr (c_mbxatr pk) x)) ;;;
  set_mbxbit idx.

Definition acre_mbx_sys (pk_cmbx : option T_CMBX) : KM sysres :=
  match pk_cmbx with
  | None => ret (Done E_PAR)
  | Some pk =>
      hw_cli ;;;
      let* bm := gets (fun s => mbxbmap (k_mbx s)) in
      let idx := _ffc bm in
      let id := idx + 1 in
      if bad_mbxid id then hw_sti ;;; ret (Done E_NOID) else
      fill_mbx idx pk ;;;
      write_log TFN_ACRE_MBX id E_OK ;;;
      hw_sti ;;;
      ret (Done id)
  end.

Definition cre_mbx_sys (id : Z) (pk_cmbx : option T_CMBX) : KM sysres :=
  let idx := id - 1 in
  if bad_mbxid id then ret (Done E_ID) else
  match pk_cmbx with
  | None => ret (Done E_PAR)
  | Some pk =>
      hw_cli ;;;
      let* bm := gets (fun s => mbxbmap (k_mbx s)) in
      if nz (isbitset bm idx) then hw_sti ;;; ret (Done E_OBJ) else
      fill_mbx idx pk ;;;
      write_log TFN_CRE_MBX id E_OK ;;;
      hw_sti ;;;
      ret (Done E_OK)
  end.

(** The body of the first loop of [del_mbx_sys]. *)
Definition del_mbx_body (tsk : nat) : KM unit :=
  upd_task tsk (set_tskstat TTS_RDY) ;;;
  rq_insert tsk ;;;
  upd_task tsk (set_wobjid E_DLT).

(** The second loop of [del_mbx_sys]: release messages. *)
Fixpoint free_msgs (fuel : nat) (i : nat) : KM unit :=
  match fuel with
  | O => fault
  | S fuel =>
      let* o := msg_extract i in
      match o with
      | None => ret tt
      | Some b => free_msg b ;;; free_msgs fuel i
      end
  end.

(** A bound on the messages of a mailbox: they are blocks of [msg_pool]. *)
Definition msg_fuel : nat := S (Z.to_nat CONFIG_MAX_MAILBOX_MSG).

Definition del_mbx_sys (id : Z) : KM sysres :=
  let idx := id - 1 in
  if bad_mbxid id then ret (Done E_ID) else
  hw_cli ;;;
  let* bm := gets (fun s => mbxbmap (k_mbx s)) in
  if negb (nz (isbitset bm idx)) then hw_sti ;;; ret (Done E_NOEXS) else
  let i := Z.to_nat idx in
  write_log TFN_DEL_MBX id E_OK ;;;
  (* Wake-up waiting tasks *)
  let* fuel := gets tq_fuel in
  q_drain (X := mailbox_t) fuel i del_mbx_body ;;;
  (* Release messages *)
  free_msgs msg_fuel i ;;;
  clear_mbxbit idx ;;;
  hw_sti ;;;
  scheduler ;;;
  ret (Cont (KReturn E_OK)).

(** [*ppk_msg = msg->msgdat; mpfree(msg_pool, msg)] *)
Definition deliver (b ppk_msg : Z) : KM unit :=
  let* d := kmem (load b) in
  kmem (store ppk_msg d) ;;;
  free_msg b.

(** The current task waits for a message. *)
Definition mbx_block (i : nat) (id fn arg : Z) : KM unit :=
  let* cur := get_current in
  mbx_enqueue i cur ;;;
  write_log fn id arg ;;;
  upd_task cur (fun t => set_wobjid id (set_tskwait TTW_MBX (set_tskstat TTS_WAI t))) ;;;
  rq_remove cur.

Definition rcv_mbx_sys (id ppk_msg : Z) : KM sysres :=
  let idx := id - 1 in
  if bad_mbxid id then ret (Done E_ID) else
  if negb (nz ppk_msg) then ret (Done E_PAR) else
  hw_cli ;;;
  let* bm := gets (fun s => mbxbmap (k_mbx s)) in
  if negb (nz (isbitset bm idx)) then hw_sti ;;; ret (Done E_NOEXS) else
  let i := Z.to_nat idx in
  let* x := get_mbx i in
  if queue_is_empty (msgque x) then
    mbx_block i id TFN_RCV_MBX TTS_WAI ;;;
    hw_sti ;;;
    scheduler ;;;
    ret (Cont (KRcvMbx id ppk_msg))
  else
    let* o := msg_extract i in
    let* b := deref o in
    deliver b ppk_msg ;;;
    write_log TFN_TRCV_MBX id E_OK ;;;
    hw_sti ;;;
    ret (Done E_OK).

(** [rcv_mbx_sys] after [scheduler()]. *)
Definition rcv_mbx_resume (id ppk_msg : Z) : KM Z :=
  hw_cli ;;;
  let* cur := get_current in
  let* t := get_task cur in
  if wobjid t =? E_DLT then
    write_log TFN_RCV_MBX id E_DLT ;;;
    upd_task cur (set_wobjid 0) ;;;
    hw_sti ;;;
    ret E_DLT
  else
    deliver (extdat t) ppk_msg ;;;
    write_log TFN_RCV_MBX id E_OK ;;;
    hw_sti ;;;
    ret E_OK.

Definition trcv_mbx_sys (id ppk_msg tmout : Z) : KM sysres :=
  let idx := id - 1 in
  if tmout =? TMO_FEVR then rcv_mbx_sys id ppk_msg else
  if bad_mbxid id then ret (Done E_ID) else
  if negb (nz ppk_msg) then ret (Done E_PAR) else
  hw_cli ;;;
  let* bm := gets (fun s => mbxbmap (k_mbx s)) in
  if negb (nz (isbitset bm idx)) then hw_sti ;;; ret (Done E_NOEXS) else
  let i := Z.to_nat idx in
  let* x := get_mbx i in
  if queue_is_empty (msgque x) then
    mbx_block i id TFN_TRCV_MBX tmout ;;;
    let* cur := get_current in
    tq_insert cur tmout ;;;
    hw_sti ;;;
    scheduler ;;;
    ret (Cont (KTrcvMbx id ppk_msg tmout))
  else
    let* o := msg_extract i in
    let* b := deref o in
    deliver b ppk_msg ;;;
    write_log TFN_TRCV_MBX id tmout ;;;
    hw_sti ;;;
    ret (Done E_OK).

(** [trcv_mbx_sys] after [scheduler()]. *)
Definition trcv_mbx_resume (id ppk_msg tmout : Z) : KM Z :=
  hw_cli ;;;
  let* cur := get_current in
  let* t := get_task cur in
  if wobjid t =? E_TMOUT then
    mbx_remove (Z.to_nat (id - 1)) cur ;;;
    upd_task cur (set_wobjid 0) ;;;
    hw_sti ;;;
    ret E_TMOUT
  else if wobjid t =? E_DLT then
    write_log TFN_TRCV_MBX id E_DLT ;;;
    upd_task cur (set_wobjid 0) ;;;
    hw_sti ;;;
    ret E_DLT
  else
    deliver (extdat t) ppk_msg ;;;
    tq_remove cur ;;;
    write_log TFN_TRCV_MBX id tmout ;;;
    hw_sti ;;;
    ret E_OK.

(** [T_RMBX] has [wtskid] at offset 0 and [pk_msg] at offset 4. *)
Definition ref_mbx_sys (id pk_rmbx : Z) : KM sysres :=
  let idx := id - 1 in
  if bad_mbxid id then ret (Done E_ID) else
  if negb (nz pk_rmbx) then ret (Done E_PAR) else
  hw_cli ;;;
  let* bm := gets (fun s => mbxbmap (k_mbx s)) in
  if negb (nz (isbitset bm idx)) then hw_sti ;;; ret (Done E_NOEXS) else
  let* x := get_mbx (Z.to_nat idx) in
  kmem (store pk_rmbx TSK_NONE) ;;;
  let* m := gets k_nodes in
  let* tsk := task_ptr (queue_get_head m (mbxque x)) in
  match tsk with
  | Some tsk => let* t := get_task tsk in kmem (store pk_rmbx (tskid t))
  | None => ret tt
  end ;;;
  let* msg := msg_ptr (queue_get_head m (msgque x)) in
  let* d := match msg with Some b => kmem (load b) | None => ret NULL end in
  kmem (store (pk_rmbx + 4) d) ;;;
  hw_sti ;;;
  ret (Done E_OK).

Definition snd_mbx_sys (id pk_msg : Z) : KM sysres :=
  let idx := id - 1 in
  if bad_mbxid id then ret (Done E_ID) else
  if negb (nz pk_msg) then ret (Done E_PAR) else
  hw_cli ;;;
  let* bm := gets (fun s => mbxbmap (k_mbx s)) in
  if negb (nz (isbitset bm idx)) then hw_sti ;;; ret (Done E_NOEXS) else
  let i := Z.to_nat idx in
  let* p := get_msg_pool in
  let* msg := kmem (mpalloc p) in
  kmem (store msg pk_msg) ;;;
  upd_nodes (set_this (MsgQue msg) (Some (OMsg msg))) ;;;
  write_log TFN_SND_MBX id E_OK ;;;
  let* x := get_mbx i in
  (if negb (queue_is_empty (mbxque x)) then
     (* Wake-up the task on the head of the mailbox queue *)
     let* o := mbx_extract i in
     let* tsk := deref o in
     upd_task tsk (fun t => set_extdat msg (set_tskstat TTS_RDY t)) ;;;
     rq_insert tsk
   else
     (* No task waiting, insert the message on the mailbox message queue *)
     msg_insert i msg) ;;;
  hw_sti ;;;
  scheduler ;;;
  ret (Cont (KReturn E_OK)).

(** ** The interface of the wait queues *)

#[export] Instance mbx_wait_ok : WaitPoolOk mailbox_t.
Proof.
  split; cbn [mbx_wait w_max w_bmap w_set_bmap w_pool w_set_pool w_que w_set_que w_key]; try done.
  - by intros [? ? ? ? ? ? ? ? ? [] ? ?].
  - by intros s s' [_ _ -> _].
  - intros l s s' []. split; simpl; congruence.
  - by intros [].
  - by intros i j [= ->].
  - intros l s k Hk. by destruct k as [| |i|]; [..|destruct (Hk i)|].
  - intros [| |i|]; [by right..|by left; exists i|by right].
  - intros l s Hl []. split; simpl; try done. by rewrite Hl.
  - by intros s [].
  - by intros s [].
  - by intros s s' [_ _ -> _].
  - intros b s Hb []. by split.
  - intros b s k Hk. by destruct k as [| |i|]; [..|destruct (Hk i)|].
Qed.

(** ** The messages *)

Definition msgq (s : kstate) (i : nat) : queue_t := default null_queue (msgque <$> mbx_pool (k_mbx s) !! i).

(** The address of the message in the block [j]. *)
Definition msg_at (p j : Z) : Z := block p sizeof_mbox_msg_head j + 4.

(** [Mq i] are the messages queued in the mailbox [i], and [Hd] those on their
    way to a task; [k] and [fl] describe [msg_pool]. *)
Record msgs_ok (s : kstate) (Mq : nat -> list Z) (Hd : list Z) (k : Z) (fl : list Z) : Prop := {
  mo_fam : qfam_of (ob := OMsg) MsgQue (k_nodes s) (msgq s) Mq;
  mo_pool : pool_ok (k_mem s) (msg_pool (k_mbx s)) sizeof_mbox_msg_head CONFIG_MAX_MAILBOX_MSG k fl;
  mo_used : forall b, b ∈ Hd \/ (exists i, b ∈ Mq i) ->
    exists j, 0 <= j < k /\ b = msg_at (msg_pool (k_mbx s)) j /\
      block (msg_pool (k_mbx s)) sizeof_mbox_msg_head j ∉ fl;
  mo_held : forall b i, b ∈ Hd -> b ∉ Mq i;
  mo_nodup : NoDup Hd;
  mo_open : forall i, Mq i <> [] -> open_obj s (WMbx i)
}.

#[export] Instance MsgQue_inj : Inj (=) (=) MsgQue.
Proof. by intros a b [= ->]. Qed.

(** A step that leaves the messages, their pool and the bitmap alone. *)
Lemma msgs_ok_frame s s' Mq Hd k fl : msgs_ok s Mq Hd k fl ->
  same_msgs (k_nodes s) (k_nodes s') -> k_mem s' = k_mem s ->
  msg_pool (k_mbx s') = msg_pool (k_mbx s) -> mbxbmap (k_mbx s') = mbxbmap (k_mbx s) ->
  (forall i, msgq s' i = msgq s i) -> msgs_ok s' Mq Hd k fl.
Proof.
  intros [H1 H2 H3 H4 H5 H6] Hn Hm Hp Hb Hq. split; rewrite ?Hm, ?Hp; try done.
  - eapply (qfam_frame MsgQue); [|exact Hq|exact H1]. apply Hn.
  - intros i Hi. simpl. rewrite Hb. by apply H6.
Qed.

(** A write to a mailbox that keeps its messages. *)
Lemma msgq_upd s l i x y : mbx_pool (k_mbx s) !! i = Some x -> msgque y = msgque x ->
  l = <[i := y]> (mbx_pool (k_mbx s)) -> forall j, msgq (set_k_mbx (set_mbx_pool l (k_mbx s)) s) j = msgq s j.
Proof.
  intros Ex Hy -> j. unfold msgq. simpl. destruct (decide (j = i)) as [->|Hne].
  - rewrite list_lookup_insert_eq, Ex by (by eapply lookup_lt_Some). simpl. by rewrite Hy.
  - by rewrite list_lookup_insert_ne.
Qed.

(** Arithmetic of the pool of messages. *)
Lemma msg_at_spec s Mq Hd k fl j : msgs_ok s Mq Hd k fl -> 0 <= j < k ->
  let p := msg_pool (k_mbx s) in
  valid_addr (msg_at p j) = true /\ (forall j', msg_at p j <> block p sizeof_mbox_msg_head j') /\
  msg_at p j <> mp_free p /\ msg_at p j <> mp_freeidx p /\ msg_at p j < mp_base p + 128 * 80 /\ mp_base p <= msg_at p j.
Proof.
  intros H Hj p. destruct (mo_pool _ _ _ _ _ H) as [[Hp Hpm] _ [Hk _] _ _ _ _ _ _]. fold p in Hp, Hpm.
  unfold msg_at, block, stride, sizeof_mbox_msg_head, sizeof_mpool_block, sizeof_ptr, CONFIG_MAX_MAILBOX_MSG in *.
  split_and!; try offsets.
  apply valid_addr_spec. unfold mp_base. split; [lia|].
  replace (p + 20 + j * (4 * (16 + 4)) + 4) with (p + (6 + 20 * j) * 4) by lia. by rewrite Z_mod_plus_full.
Qed.

(** The words outside [msg_pool]. *)
Definition outside (s : kstate) (a : Z) : Prop :=
  a < msg_pool (k_mbx s) \/ mp_base (msg_pool (k_mbx s)) + 128 * 80 <= a.

(** The memory [m'] has the messages [Mq] and [Hd] and the words outside the
    pool of [s]. *)
Definition same_data (s : kstate) (Mq : nat -> list Z) (Hd : list Z) (m' : gmap Z Z) : Prop :=
  (forall b, b ∈ Hd \/ (exists i, b ∈ Mq i) -> peek m' b = peek (k_mem s) b) /\
  (forall a, outside s a -> peek m' a = peek (k_mem s) a).

Lemma frame_same_data s Mq Hd k fl m' h : msgs_ok s Mq Hd k fl ->
  pool_frame (k_mem s) m' (msg_pool (k_mbx s)) (block (msg_pool (k_mbx s)) sizeof_mbox_msg_head h) ->
  0 <= h < 128 -> same_data s Mq Hd m'.
Proof.
  intros H Hf Hh. pose proof (mo_pool _ _ _ _ _ H) as HP. destruct (pk_base _ _ _ _ _ _ HP) as [Hp _]. split.
  - intros b Hb. destruct (mo_used _ _ _ _ _ H b Hb) as (j & Hj & -> & _).
    destruct (msg_at_spec _ _ _ _ _ j H Hj) as (_ & N1 & N2 & N3 & _). by apply Hf.
  - intros a Ha. apply Hf; unfold outside in Ha; [offsets..|].
    unfold block, stride, sizeof_mbox_msg_head, sizeof_mpool_block, sizeof_ptr. offsets.
Qed.

(** The kernel can still allocate a message. *)
Definition msg_room (s : kstate) : bool :=
  let p := msg_pool (k_mbx s) in
  negb (peek (k_mem s) (mp_free p) =? NULL) ||
  negb (peek (k_mem s) (mp_freeidx p) =? peek (k_mem s) (mp_poolend p)).

Lemma msg_room_spec s Mq Hd k fl : msgs_ok s Mq Hd k fl -> msg_room s = true -> fl <> [] \/ k < 128.
Proof.
  intros H Hr. destruct (mo_pool _ _ _ _ _ H) as [_ _ [Hk _] _ He Hi Hc _ _]. unfold msg_room in Hr.
  destruct fl as [|b fl]; [right|by left]. simpl in Hc. rewrite Hc, Hi, He in Hr. cbn [NULL Z.eqb negb orb] in Hr.
  apply negb_true_iff, Z.eqb_neq in Hr. unfold CONFIG_MAX_MAILBOX_MSG in *. destruct (decide (k = 128)) as [->|]; lia.
Qed.

Lemma msg_block_inj p j j' : msg_at p j = msg_at p j' -> j = j'.
Proof. unfold msg_at, block, stride, sizeof_mbox_msg_head, sizeof_mpool_block, sizeof_ptr. lia. Qed.

(** [mpalloc(msg_pool)] when there is room: a message that is in no mailbox. *)
Lemma wp_alloc_msg s Mq Hd k fl (Q : Z -> kstate -> Prop) :
  msgs_ok s Mq Hd k fl -> msg_room s = true ->
  (forall b m' k' fl', msgs_ok (set_k_mem m' s) Mq (b :: Hd) k' fl' -> same_data s Mq Hd m' ->
     valid_addr b = true -> Q b (set_k_mem m' s)) ->
  wp (kmem (mpalloc (msg_pool (k_mbx s)))) Q s.
Proof.
  intros H Hr HQ. pose proof (msg_room_spec _ _ _ _ _ H Hr) as Hroom.
  pose proof H as [H1 H2 H3 H4 H5 H6]. set (p := msg_pool (k_mbx s)) in *.
  destruct (pk_room _ _ _ _ _ _ H2) as [Hk _].
  (* the new message is block [j] *)
  assert (forall j m' k' fl', pool_ok m' p sizeof_mbox_msg_head CONFIG_MAX_MAILBOX_MSG k' fl' ->
    pool_frame (k_mem s) m' p (block p sizeof_mbox_msg_head j) -> 0 <= j < k' -> k <= k' ->
    block p sizeof_mbox_msg_head j ∉ fl' -> (forall b, b ∈ fl' -> b ∈ fl) ->
    (j < k -> block p sizeof_mbox_msg_head j ∈ fl) -> Q (msg_at p j) (set_k_mem m' s)) as Hgo.
  { intros j m' k' fl' HP Hf Hj Hkk Hjn Hsub Hfl.
    assert (~ (msg_at p j ∈ Hd \/ exists i, msg_at p j ∈ Mq i)) as Hnew.
    { intros Hin. destruct (H3 _ Hin) as (j' & Hj' & E & Hn). apply msg_block_inj in E as <-.
      apply Hn. apply Hfl. lia. }
    apply (HQ _ _ k' fl').
    - split; cbn [k_mem k_mbx k_nodes set_k_mem]; fold p; try done.
      + intros b [[->|Hb]%elem_of_cons|Hb]; [exists j; done| |].
        * destruct (H3 b) as (j' & ? & ? & ?); [by left|]. exists j'. split; [lia|]. split; [done|]. by intros ?%Hsub.
        * destruct (H3 b) as (j' & ? & ? & ?); [by right|]. exists j'. split; [lia|]. split; [done|]. by intros ?%Hsub.
      + intros b i [->|Hb]%elem_of_cons; [|by apply H4]. intros Hb. apply Hnew. eauto.
      + apply NoDup_cons. split; [|done]. intros Hb. apply Hnew. by left.
    - eapply (frame_same_data s Mq Hd k fl m' j H); [done|]. destruct (pk_room _ _ _ _ _ _ HP). unfold CONFIG_MAX_MAILBOX_MSG in *. lia.
    - unfold msg_at, block, mp_base. destruct (pk_base _ _ _ _ _ _ HP) as [Hp Hpm].
      unfold stride, sizeof_mbox_msg_head, sizeof_mpool_block, sizeof_ptr. apply valid_addr_spec. split; [lia|].
      replace (p + 20 + j * (4 * (16 + 4)) + 4) with (p + (6 + 20 * j) * 4) by lia. by rewrite Z_mod_plus_full. }
  apply wp_kmem. eapply wp_mpalloc; [exact H2|]. destruct fl as [|b fl].
  - destruct (Z.eqb_spec k CONFIG_MAX_MAILBOX_MSG) as [->|Hne]; [unfold CONFIG_MAX_MAILBOX_MSG in *; by destruct Hroom|].
    intros m' HP Hf. apply (Hgo k m' (k + 1) []); try done; try lia. apply not_elem_of_nil.
  - intros m' HP Hf. destruct (pk_blk _ _ _ _ _ _ H2 b) as (j & Hj & E); [left|].
    change (b = block p sizeof_mbox_msg_head j) in E. subst b.
    pose proof (pk_nodup _ _ _ _ _ _ H2) as [Hn _]%NoDup_cons.
    apply (Hgo j m' k fl); try done; try lia; [by right|]. intros _. left.
Qed.

(** [mpfree(msg_pool, msg)] on a message that a task has received. *)
Lemma wp_free_msg s Mq Hd k fl b (Q : unit -> kstate -> Prop) :
  msgs_ok s Mq Hd k fl -> b ∈ Hd ->
  (forall m' fl', msgs_ok (set_k_mem m' s) Mq (without b Hd) k fl' -> same_data s Mq Hd m' ->
     Q tt (set_k_mem m' s)) ->
  wp (free_msg b) Q s.
Proof.
  intros H Hb HQ. pose proof H as [H1 H2 H3 H4 H5 H6]. set (p := msg_pool (k_mbx s)) in *.
  destruct (H3 b) as (j & Hj & -> & Hn); [by left|]. destruct (pk_room _ _ _ _ _ _ H2) as [Hk _].
  unfold free_msg, get_msg_pool. apply wp_bind, wp_gets, wp_kmem.
  eapply (wp_mpfree _ _ _ _ _ _ j); [exact H2|done|done|]. intros m' HP Hf.
  apply (HQ m' (block p sizeof_mbox_msg_head j :: fl)).
  - split; cbn [k_mem k_mbx k_nodes set_k_mem]; fold p; try done.
    + intros b Hb'. destruct (H3 b) as (j' & Hj' & -> & Hn').
      { destruct Hb' as [Hb'|?]; [left|by right]. by apply elem_of_without in Hb' as [_ ?]. }
      exists j'. split_and!; [lia..|done|]. apply not_elem_of_cons. split; [|done].
      intros E. assert (j' = j) as -> by (eapply (msg_block_inj p); unfold msg_at; by rewrite E).
      destruct Hb' as [[? _]%elem_of_without|[i Hi]]; [done|]. by apply (H4 _ i Hb).
    + intros b i [_ Hb']%elem_of_without. by apply H4.
    + by apply NoDup_filter.
  - eapply (frame_same_data s Mq Hd k fl m' j H); [done|]. unfold CONFIG_MAX_MAILBOX_MSG in *. lia.
Qed.

(** The state after a write to the nodes of messages and to the queue of a mailbox. *)
Definition m_state (s : kstate) m (i : nat) (x : mailbox_t) : kstate :=
  set_k_mbx (set_mbx_pool (<[i := x]> (mbx_pool (k_mbx s))) (k_mbx s)) (set_k_nodes m s).

Lemma msg_task_nodes m m' : only_nodes MsgQue m m' -> task_nodes m m'.
Proof. intros H i nd Hnd. apply H. intros b. by apply task_kinds in Hnd as [->|[->| ->]]. Qed.

Lemma kinv0_msg s R W T m i x q : kinv0 s R W T -> only_nodes MsgQue (k_nodes s) m ->
  mbx_pool (k_mbx s) !! i = Some x -> kinv0 (m_state s m i (set_msgque q x)) R W T.
Proof.
  intros H Hm Ex.
  pose proof (kinv0_upd_obj (X := mailbox_t) s R W T i x (set_msgque q x) H Ex eq_refl) as H1.
  eapply (kinv0_objs _ _ R W T H1); [by apply msg_task_nodes|done|done|done|apply H| |by intros []|].
  - eapply pools_ok_frame; [|apply H1]. done.
  - intros k j Hj. pose proof (pl_open _ _ _ _ (ki_places _ _ _ _ H1) k j Hj). by destruct k.
Qed.

Lemma msgq_state s m i x q j : mbx_pool (k_mbx s) !! i = Some x ->
  msgq (m_state s m i (set_msgque q x)) j = if decide (j = i) then q else msgq s j.
Proof.
  intros Ex. unfold msgq, m_state. simpl. case_decide as E.
  - subst. by rewrite list_lookup_insert_eq by (by eapply lookup_lt_Some).
  - by rewrite list_lookup_insert_ne.
Qed.

Lemma wp_msg_write {A} s m i x q (k : KM A) (Q : A -> kstate -> Prop) :
  mbx_pool (k_mbx s) !! i = Some x -> wp k Q (m_state s m i (set_msgque q x)) ->
  wp (upd_nodes (fun _ => m) ;;; upd_mbx i (set_msgque q) ;;; k) Q s.
Proof. intros Ex HQ. wp_steps. by eapply wp_upd_obj; [exact Ex|]. Qed.

(** [queue_extract] takes the oldest message. *)
Lemma wp_msg_extract s R W T Mq Hd k fl i x (Q : option Z -> kstate -> Prop) :
  kinv0 s R W T -> msgs_ok s Mq Hd k fl -> mbx_pool (k_mbx s) !! i = Some x ->
  match Mq i with
  | [] => Q None s
  | b :: l => forall m q, let s' := m_state s m i (set_msgque q x) in
      kinv0 s' R W T -> msgs_ok s' (<[i := l]> Mq) (b :: Hd) k fl -> Q (Some b) s'
  end ->
  wp (msg_extract i) Q s.
Proof.
  intros Hk H Ex HQ. pose proof H as [H1 H2 H3 H4 H5 H6].
  assert (msgq s i = msgque x) as Eq by (unfold msgq; by rewrite Ex).
  unfold msg_extract. apply wp_bind. eapply wp_get_obj; [exact Ex|].
  rewrite <- Eq. apply wp_bind, wp_gets, wp_bind, wp_ret. destruct (Mq i) as [|b l] eqn:El.
  - pose proof (qf_rep _ _ _ _ H1 i) as Hr. rewrite El in Hr.
    assert (msgq s i = null_queue) as Eq'.
    { destruct Hr as (Hh & Ht & _). simpl in *. destruct (msgq s i); simpl in *. by subst. }
    rewrite (queue_extract_empty _ _ Hr). eapply wp_msg_write; [exact Ex|]. apply wp_ret.
    replace (m_state s (k_nodes s) i (set_msgque null_queue x)) with s; [done|].
    unfold m_state. rewrite list_insert_id.
    + by destruct s as [? ? ? ? ? ? ? ? ? [] ? ?].
    + rewrite Ex. f_equal. rewrite <- Eq', Eq. by destruct x.
  - destruct (queue_extract (k_nodes s) (msgq s i)) as [[o m] q] eqn:Ee.
    destruct (qfam_extract (ob := OMsg) MsgQue (k_nodes s) (msgq s)
      (msgq (m_state s m i (set_msgque q x))) Mq i b l H1 El) as [E Hf].
    + by rewrite (msgq_state _ _ _ x), decide_True, Ee by done.
    + intros j Hj. by rewrite (msgq_state _ _ _ x), decide_False by done.
    + rewrite Ee in E. simpl in E. injection E as -> ->. eapply wp_msg_write; [exact Ex|]. apply wp_ret.
      assert (b ∈ Mq i) as Hbi by (rewrite El; left).
      apply (HQ _ q).
      * apply kinv0_msg; [done| |done]. by eapply (qfam_unlink_only (ob := OMsg) MsgQue).
      * pose proof (qfam_NoDup (ob := OMsg) MsgQue _ _ _ i H1) as Hnd. rewrite El in Hnd.
        apply NoDup_cons in Hnd as [Hbl _].
        assert (forall b' j, b' ∈ (<[i := l]> Mq) j -> b' ∈ Mq j /\ b' <> b) as Hsub.
        { intros b' j [[-> Hb']|[Hne Hb']]%elem_of_fn_insert.
          - split; [rewrite El; by right|by intros ->].
          - split; [done|]. intros ->. apply Hne. by eapply (qf_disj _ _ _ _ H1). }
        split; try done.
        -- intros b' Hb'. apply H3. destruct Hb' as [[->|?]%elem_of_cons|[j Hj]]; [by right; exists i|by left|].
           right. exists j. by apply Hsub.
        -- intros b' j [->|Hb']%elem_of_cons Hj; [by apply Hsub in Hj as [_ ?]|].
           apply Hsub in Hj as [Hj _]. by apply (H4 b' j).
        -- apply NoDup_cons. split; [|done]. intros Hb'. by apply (H4 b i).
        -- intros j Hj. apply (H6 j). destruct (decide (j = i)) as [->|Hne]; [by rewrite El|].
           by rewrite fn_lookup_insert_ne in Hj.
Qed.

(** [queue_insert] appends a message. *)
Lemma wp_msg_insert s R W T Mq Hd k fl i x b (Q : unit -> kstate -> Prop) :
  kinv0 s R W T -> msgs_ok s Mq (b :: Hd) k fl -> mbx_pool (k_mbx s) !! i = Some x ->
  open_obj s (WMbx i) -> this (node (k_nodes s) (MsgQue b)) = Some (OMsg b) ->
  (forall m q, let s' := m_state s m i (set_msgque q x) in
      kinv0 s' R W T -> msgs_ok s' (<[i := Mq i ++ [b]]> Mq) Hd k fl -> Q tt s') ->
  wp (msg_insert i b) Q s.
Proof.
  intros Hk H Ex Ho Hth HQ. pose proof H as [H1 H2 H3 H4 H5 H6]. apply NoDup_cons in H5 as [Hbd H5].
  assert (msgq s i = msgque x) as Eq by (unfold msgq; by rewrite Ex).
  unfold msg_insert. apply wp_bind. eapply wp_get_obj; [exact Ex|].
  rewrite <- Eq. apply wp_bind, wp_gets, wp_bind, wp_ret.
  destruct (queue_insert (k_nodes s) (msgq s i) (MsgQue b)) as [m q] eqn:Ee.
  pose proof (qfam_insert_only (ob := OMsg) MsgQue _ _ _ i b H1) as Hon. rewrite Ee in Hon. simpl in Hon.
  wp_steps. eapply wp_upd_obj; [exact Ex|]. apply (HQ m q).
  - by apply kinv0_msg.
  - split; try done.
    + change (k_nodes (m_state s m i (set_msgque q x))) with m. replace m with (queue_insert (k_nodes s) (msgq s i) (MsgQue b)).1 by (by rewrite Ee).
      apply (qfam_insert (ob := OMsg) MsgQue (k_nodes s) (msgq s)); [done| |done| |].
      * intros j. apply H4. left.
      * by rewrite (msgq_state _ _ _ x), decide_True, Ee by done.
      * intros j Hj. by rewrite (msgq_state _ _ _ x), decide_False by done.
    + intros b' [Hb'|[j Hj]]; [apply H3; left; by right|]. apply elem_of_fn_insert in Hj as [[-> Hj]|[_ Hj]].
      * apply elem_of_app in Hj as [Hj|Hj%list_elem_of_singleton]; [apply H3; right; by exists i|subst b'; apply H3; left; left].
      * apply H3. right. by exists j.
    + intros b' j Hb' Hj. apply elem_of_fn_insert in Hj as [[-> Hj]|[_ Hj]].
      * apply elem_of_app in Hj as [Hj|Hj%list_elem_of_singleton]; [|by subst b']. by apply (H4 b' i); [right|].
      * by apply (H4 b' j); [right|].
    + intros j Hj. destruct (decide (j = i)) as [->|Hne]; [exact Ho|]. rewrite fn_lookup_insert_ne in Hj by done.
      by apply (H6 j).
Qed.

(** ** What the mailboxes promise *)

(** [C i] are the data of the messages queued in the mailbox [i], if it exists. *)
Definition contents (s : kstate) (Mq : nat -> list Z) (C : nat -> option (list Z)) : Prop :=
  forall i, C i = if Z.testbit (mbxbmap (k_mbx s)) (Z.of_nat i) then Some (peek (k_mem s) <$> Mq i) else None.

(** [C i] are the contents of the mailbox [i], oldest first, if it exists; [Hd]
    are the messages given to tasks that have not yet run. *)
Definition mbx_impl (s : kstate) (A : akernel) (C : nat -> option (list Z)) (Hd : list Z) : Prop :=
  impl s A /\ exists Mq k fl, msgs_ok s Mq Hd k fl /\ contents s Mq C.

Lemma bad_mbxid_false id : bad_mbxid id = false -> 1 <= id <= w_max (X := mailbox_t).
Proof.
  unfold bad_mbxid. rewrite orb_false_iff, Z.ltb_ge, Z.gtb_ltb, Z.ltb_ge. cbn [w_max mbx_wait]. lia.
Qed.

(** The messages of a state whose messages, data and bitmap are those of [s]. *)
Lemma data_eq (m m' : gmap Z Z) (l : list Z) : (forall b, b ∈ l -> peek m' b = peek m b) ->
  peek m' <$> l = peek m <$> l.
Proof. intros H. apply list_fmap_ext. intros i b Hb. apply H. by eapply list_elem_of_lookup_2. Qed.

(** A store outside the pool. *)
Lemma msgs_ok_store s Mq Hd k fl a v : msgs_ok s Mq Hd k fl -> outside s a ->
  msgs_ok (set_k_mem (<[a := v]> (k_mem s)) s) Mq Hd k fl /\
  forall b, b ∈ Hd \/ (exists i, b ∈ Mq i) -> peek (<[a := v]> (k_mem s)) b = peek (k_mem s) b.
Proof.
  intros H Ha. pose proof H as [H1 H2 H3 H4 H5 H6]. destruct (pk_base _ _ _ _ _ _ H2). split.
  - split; try done. cbn [k_mem k_mbx set_k_mem]. eapply pool_ok_mem; [exact H2|]. intros a' Ha'. apply peek_insert_ne. intros ->.
    unfold outside in Ha. destruct Ha' as [?|Hf]; [offsets|].
    destruct (pk_blk _ _ _ _ _ _ H2 _ Hf) as (j & Hj & E). destruct (pk_room _ _ _ _ _ _ H2).
    unfold stride, sizeof_mbox_msg_head, sizeof_mpool_block, sizeof_ptr, CONFIG_MAX_MAILBOX_MSG in *. offsets.
  - intros b Hb. apply peek_insert_ne. intros ->. destruct (H3 b Hb) as (j & Hj & -> & _).
    destruct (msg_at_spec _ _ _ _ _ j H Hj) as (_ & _ & _ & _ & ? & ?). unfold outside in Ha. offsets.
Qed.

(** [*ppk_msg = msg->msgdat; mpfree(msg_pool, msg)] *)
Lemma wp_deliver s Mq Hd k fl b ppk (Q : unit -> kstate -> Prop) :
  msgs_ok s Mq Hd k fl -> b ∈ Hd -> valid_addr ppk = true -> outside s ppk ->
  (forall m' fl', msgs_ok (set_k_mem m' s) Mq (without b Hd) k fl' ->
     (forall b', b' ∈ Hd \/ (exists i, b' ∈ Mq i) -> peek m' b' = peek (k_mem s) b') ->
     (forall a, outside s a -> peek m' a = if decide (a = ppk) then peek (k_mem s) b else peek (k_mem s) a) ->
     Q tt (set_k_mem m' s)) ->
  wp (deliver b ppk) Q s.
Proof.
  intros H Hb Hv Ho HQ. destruct (mo_used _ _ _ _ _ H b (or_introl Hb)) as (j & Hj & Ebj & _).
  destruct (msg_at_spec _ _ _ _ _ j H Hj) as (Hvb & _). rewrite <- Ebj in Hvb.
  destruct (msgs_ok_store s Mq Hd k fl ppk (peek (k_mem s) b) H Ho) as [H1 Hd1].
  unfold deliver. apply wp_bind, wp_kmem, wp_load; [done|].
  replace (set_k_mem (k_mem s) s) with s by (by destruct s).
  apply wp_bind, wp_kmem, wp_store; [done|]. eapply wp_free_msg; [exact H1|done|].
  intros m' fl' H2 [Hd2 Ho2]. apply (HQ m' fl'); [exact H2| |].
  - intros b' Hb'. rewrite Hd2 by done. by apply Hd1.
  - intros a Ha. rewrite Ho2 by done. cbn [k_mem set_k_mem]. rewrite peek_insert.
    repeat case_decide; congruence.
Qed.

(** The entry of a call on a mailbox that exists. *)
Lemma mbx_contents s A C Hd i x : mbx_impl s A C Hd -> mbx_pool (k_mbx s) !! i = Some x ->
  open_obj s (WMbx i) -> exists Mq k fl, msgs_ok s Mq Hd k fl /\
    contents s Mq C /\
    C i = Some (peek (k_mem s) <$> Mq i) /\ queue_is_empty (msgque x) = bool_decide (Mq i = []).
Proof.
  intros (HI & Mq & k & fl & H & HC) Ex Ho. exists Mq, k, fl. split_and!; [done|done| |].
  - rewrite HC. simpl in Ho. by rewrite Ho.
  - pose proof (qf_rep _ _ _ _ (mo_fam _ _ _ _ _ H) i) as Hr.
    assert (msgq s i = msgque x) as Eq by (unfold msgq; by rewrite Ex). rewrite Eq in Hr.
    pose proof (qrep_empty _ _ _ Hr) as E. destruct (Mq i); simpl in E;
      case_bool_decide; destruct (queue_is_empty _); naive_solver.
Qed.

Lemma mbx_closed s A C Hd i : mbx_impl s A C Hd -> ~ open_obj s (WMbx i) -> C i = None.
Proof. intros (_ & Mq & k & fl & _ & HC) Ho. rewrite HC. simpl in Ho. by case_match. Qed.

Lemma mbx_impl_masked s A C Hd : mbx_impl s A C Hd -> mbx_impl (sti_state (cli_state s)) A C Hd.
Proof.
  intros (HI & Mq & k & fl & H & HC). split; [by apply impl_sti, impl_cli|]. exists Mq, k, fl. split; [|done].
  by apply (msgs_ok_frame s).
Qed.

(** ** Sending *)

(** What allocating and filling a message leaves alone. *)
Record msg_made (s s' : kstate) : Prop := {
  mm_task : k_task s' = k_task s;
  mm_sched : k_sched s' = k_sched s;
  mm_int : k_int s' = k_int s;
  mm_log : k_log s' = k_log s;
  mm_mbx : k_mbx s' = k_mbx s
}.

(** Writing the data word of a message that is in no mailbox. *)
Lemma msgs_ok_data s Mq Hd k fl b v : msgs_ok s Mq (b :: Hd) k fl ->
  msgs_ok (set_k_mem (<[b := v]> (k_mem s)) s) Mq (b :: Hd) k fl /\
  forall b', b' ∈ Hd \/ (exists i, b' ∈ Mq i) -> peek (<[b := v]> (k_mem s)) b' = peek (k_mem s) b'.
Proof.
  intros H. pose proof H as [H1 H2 H3 H4 H5 H6].
  destruct (H3 b) as (j & Hj & Eb & _); [left; left|].
  destruct (msg_at_spec _ _ _ _ _ j H Hj) as (_ & Hnb & _ & _ & _ & Hlo). split.
  - split; try done. cbn [k_mem k_mbx set_k_mem]. eapply pool_ok_mem; [exact H2|].
    intros a Ha. apply peek_insert_ne. intros <-. destruct Ha as [?|Hf]; [offsets|].
    destruct (pk_blk _ _ _ _ _ _ H2 _ Hf) as (j' & _ & E). apply (Hnb j'). by rewrite <- Eb.
  - intros b' Hb'. apply peek_insert_ne. intros <-. destruct Hb' as [Hb'|[i Hi]].
    + by apply NoDup_cons in H5 as [? _].
    + by apply (H4 b i); [left|].
Qed.

(** Writing the [this] pointer of a message that is in no mailbox. *)
Lemma msgs_ok_this s Mq Hd k fl b : msgs_ok s Mq (b :: Hd) k fl ->
  msgs_ok (set_k_nodes (set_this (MsgQue b) (Some (OMsg b)) (k_nodes s)) s) Mq (b :: Hd) k fl.
Proof.
  intros [[Hr Ht Hd' Hc] H2 H3 H4 H5 H6]. split; try done.
  split; cbn [k_nodes set_k_nodes]; try done.
  - intros i. eapply qrep_agree; [|apply Hr]. intros a _. by rewrite prev_set_this, next_set_this.
  - intros i b' Hb'. rewrite this_set_this. case_decide as E; [injection E as ->; done|]. by eapply Ht.
  - intros b' Hb'. unfold clean. rewrite prev_set_this, next_set_this. by apply Hc.
Qed.

Lemma wp_new_msg {B} s R W T Mq Hd k fl pk (K : Z -> KM B) (Q : B -> kstate -> Prop) :
  kinv0 s R W T -> msgs_ok s Mq Hd k fl -> msg_room s = true ->
  (forall b s' k' fl', kinv0 s' R W T -> msgs_ok s' Mq (b :: Hd) k' fl' ->
     this (node (k_nodes s') (MsgQue b)) = Some (OMsg b) -> peek (k_mem s') b = pk ->
     (forall b', b' ∈ Hd \/ (exists i, b' ∈ Mq i) -> peek (k_mem s') b' = peek (k_mem s) b') ->
     msg_made s s' -> wp (K b) Q s') ->
  wp (let* p := get_msg_pool in
      let* msg := kmem (mpalloc p) in
      kmem (store msg pk) ;;;
      upd_nodes (set_this (MsgQue msg) (Some (OMsg msg))) ;;; K msg) Q s.
Proof.
  intros Hk H Hr HQ. apply wp_bind, wp_gets, wp_bind. eapply wp_alloc_msg; [exact H|done|].
  intros b m1 k1 fl1 H1 [Hd1 _] Hv. apply wp_bind, wp_kmem, wp_store; [done|].
  destruct (msgs_ok_data _ _ _ _ _ b pk H1) as [H2 Hd2]. apply wp_bind, wp_modify.
  apply (HQ b _ k1 fl1).
  - pose proof (kinv0_mem _ _ _ _ (<[b := pk]> m1) Hk) as Hk1.
    eapply (kinv0_objs _ _ R W T Hk1); [|done..|apply Hk| |by intros []|].
    + apply msg_task_nodes. intros a Ha. unfold set_this. cbn [k_nodes set_k_nodes]. rewrite node_insert.
      case_decide as E; [by destruct (Ha b)|done].
    + by eapply pools_ok_frame; [|apply Hk].
    + intros w j Hj. pose proof (pl_open _ _ _ _ (ki_places _ _ _ _ Hk) w j Hj). by destruct w.
  - exact (msgs_ok_this _ _ _ _ _ b H2).
  - cbn [k_nodes set_k_nodes]. rewrite this_set_this. by rewrite decide_True.
  - apply peek_insert_eq.
  - intros b' Hb'. etrans; [by apply Hd2|]. by apply Hd1.
  - done.
Qed.

(** The contents after a message is appended. *)
Lemma contents_append s s' Mq C i l b pk :
  contents s Mq C -> C i = Some l -> mbxbmap (k_mbx s') = mbxbmap (k_mbx s) -> peek (k_mem s') b = pk ->
  (forall b' j, b' ∈ Mq j -> peek (k_mem s') b' = peek (k_mem s) b') ->
  contents s' (<[i := Mq i ++ [b]]> Mq) (<[i := Some (l ++ [pk])]> C).
Proof.
  intros HC Hi Hb Hpk Hd j. rewrite Hb. destruct (decide (j = i)) as [->|Hne].
  - rewrite !fn_lookup_insert. rewrite HC in Hi. case_match; [|done]. injection Hi as <-.
    rewrite fmap_app. simpl. rewrite Hpk. do 2 f_equal. symmetry. apply data_eq. eauto.
  - rewrite !fn_lookup_insert_ne, HC by done. case_match; [|done]. f_equal. symmetry. apply data_eq. eauto.
Qed.

(** The contents when the data has not changed. *)
Lemma contents_same s s' Mq C : contents s Mq C -> mbxbmap (k_mbx s') = mbxbmap (k_mbx s) ->
  (forall b' j, b' ∈ Mq j -> peek (k_mem s') b' = peek (k_mem s) b') -> contents s' Mq C.
Proof.
  intros HC Hb Hd j. rewrite Hb, HC. case_match; [|done]. f_equal. symmetry. apply data_eq. eauto.
Qed.

Lemma wp_snd_mbx s A C Hd id pk :
  mbx_impl s A C Hd -> msg_room s = true ->
  wp (snd_mbx_sys id pk) (fun r s' =>
    imask (k_int s') = imask (k_int s) /\
    if bad_mbxid id then r = Done E_ID /\ s' = s else
    if negb (nz pk) then r = Done E_PAR /\ s' = s else
    let i := Z.to_nat (id - 1) in
    match C i with
    | None => r = Done E_NOEXS /\ mbx_impl s' A C Hd
    | Some l => r = Cont (KReturn E_OK) /\
        match a_wait A (WMbx i) with
        | [] => mbx_impl s' A (<[i := Some (l ++ [pk])]> C) Hd /\ scheduled s' (a_ready A)
        | c :: _ => exists b A', a_wake (WMbx i) A = Some A' /\ mbx_impl s' A' C (b :: Hd) /\
            scheduled s' (a_ready A') /\
            peek (k_mem s') b = pk /\ forall t, task_pool (k_task s') !! c = Some t -> extdat t = b
        end
    end) s.
Proof.
  intros HM Hroom. unfold snd_mbx_sys. destruct (bad_mbxid id) eqn:Eb; [by apply wp_ret|].
  destruct (nz pk); [|by apply wp_ret]. cbn [negb].
  eapply (wp_existing (X := mailbox_t)); [apply HM|by apply bad_mbxid_false|done| |].
  { intros Hc HI'. split; [done|]. rewrite (mbx_closed s A C Hd) by done. split; [done|].
    by apply mbx_impl_masked. }
  intros i x Ei Ei' Hi Ex Ho. rewrite <- Ei in *.
  destruct (mbx_contents s A C Hd i x HM Ex Ho) as (Mq & k & fl & H & HC & ECi & _). rewrite ECi.
  pose proof HM as [HI _]. pose proof HI as [Hk Hp].
  eapply (wp_new_msg (cli_state s)); [apply kinv0_cli, Hk|by apply (msgs_ok_frame s)|done|].
  intros b s1 k1 fl1 Hk1 H1 Hth Hpk Hda [Mt Ms Mi Ml Mm].
  apply wp_bind, wp_write_log; [rewrite Ml; apply Hk|]. intros l Hl.
  set (s2 := set_k_log l s1).
  assert (kinv0 s2 (a_ready A) (a_wait A) (a_sleep A)) as Hk2 by (by apply kinv0_log).
  assert (msgs_ok s2 Mq (b :: Hd) k1 fl1) as H2 by (by apply (msgs_ok_frame s1)).
  assert (mbx_pool (k_mbx s2) !! i = Some x) as Ex2 by (cbn; by rewrite Mm).
  assert (open_obj s2 (WMbx i)) as Ho2 by (cbn in *; by rewrite Mm).
  assert (keeps s s2) as Hke2 by (split; intros j; [apply live_same|]; cbn; by rewrite Mt).
  assert (mbxbmap (k_mbx s2) = mbxbmap (k_mbx s)) as Hb2 by (cbn; by rewrite Mm).
  apply wp_bind. eapply wp_get_obj; [exact Ex2|].
  pose proof (qf_rep _ _ _ _ (ki_sync _ _ _ _ Hk2) (WMbx i)) as Hr.
  assert (waitq s2 (WMbx i) = mbxque x) as Eq by (simpl in *; by rewrite Ex2). rewrite Eq in Hr.
  apply qrep_empty in Hr. destruct (a_wait A (WMbx i)) as [|c ws] eqn:Ew.
  - destruct Hr as [_ ->]; [|done]. cbn [negb]. apply wp_bind.
    eapply (wp_msg_insert s2 _ _ _ Mq Hd k1 fl1 i x b); [exact Hk2|exact H2|exact Ex2|exact Ho2|exact Hth|].
    intros m q s3 Hk3 H3.
    eapply (wp_finish s s3 A A); [done|exact Hke2|done|exact Hk3|unfold masked; cbn; by rewrite Mi|].
    intros s' HI' Hsc Him [_ _ Hmb _] Hme Hno _. split_and!; [done|done| |done]. split; [done|].
    exists (<[i := Mq i ++ [b]]> Mq), k1, fl1. split.
    + eapply (msgs_ok_frame s3); [exact H3|by rewrite Hno|done|by rewrite Hmb..|].
      intros j. unfold msgq. by rewrite Hmb.
    + eapply contents_append; [exact HC|exact ECi|by rewrite Hmb|by rewrite Hme|].
      intros b' j Hb'. rewrite Hme. apply Hda. right. by exists j.
  - destruct (queue_is_empty (mbxque x)); [by destruct Hr as [Hr _]; specialize (Hr eq_refl)|]. cbn [negb].
    apply wp_bind, wp_bind. eapply wp_q_extract; [apply Hk2|exact Ex2|]. cbn [w_key mbx_wait]. rewrite Ew.
    intros m q Hup Hsy. apply wp_bind, wp_ret. cbn [deref].
    destruct (waiting_task _ _ _ _ (WMbx i) c Hk2) as [HL [t Et]]; [rewrite Ew; left|].
    pose proof (enqueued_q0 s2 m i x (w_set_que q x) (ki_pools _ _ _ _ Hk2) (ki_log _ _ _ _ Hk2) Hup Ex2) as He.
    eapply (wp_wake s2 _ _ _ _ c t (WMbx i) ws (fun t => set_extdat b (set_tskstat TTS_RDY t)) Hk2 He);
      [by eapply dequeues_head; [apply Hk2|]|exact Hsy|exact Et|done..|].
    intros s3 Hk3 [[_ _ Hmb3 _] Hi3 Hm3 Hc3 _ Hp3 Hms3] Hke3.
    assert (live s c) as HLs by (by apply (proj1 Hke2)).
    eapply (wp_finish s s3 A (mk_ak (a_pri A) (<[a_pri A c := a_ready A (a_pri A c) ++ [c]]> (a_ready A))
       (<[WMbx i := ws]> (a_wait A)) (a_sleep A))); [done|by etrans|done| |by unfold masked; rewrite Hi3; cbn; rewrite Mi|].
    { simpl. rewrite (Hp c HLs). rewrite <- (proj2 Hke2 c). exact Hk3. }
    intros s' HI' Hsc Him [_ _ Hmb _] Hme Hno Hst. split_and!; [done|done|].
    eexists b, _. split; [unfold a_wake; by rewrite Ew|]. split; [split; [exact HI'|]|split; [exact Hsc|split]].
    + exists Mq, k1, fl1. split.
      * eapply (msgs_ok_frame s2); [exact H2| |by rewrite Hme, Hm3|by rewrite Hmb, Hmb3..|].
        -- rewrite Hno. etrans; [|exact Hms3]. rewrite k_nodes_q_state. by eapply (same_msgs_only SynQue).
        -- intros j. etrans; [|by eapply (msgq_upd s2 _ i x (set_mbxque q x))]. unfold msgq. by rewrite Hmb, Hmb3.
      * eapply contents_same; [exact HC|by rewrite Hmb, Hmb3|].
        intros b' j Hb'. rewrite Hme, Hm3. apply Hda. right. by exists j.
    + by rewrite Hme, Hm3.
    + intros t' Et'. destruct (Hst c t' Et') as (t3 & Et3 & ->). rewrite Hp3 in Et3.
      rewrite list_lookup_insert_eq in Et3 by (eapply lookup_lt_Some; exact Et). by injection Et3 as <-.
Qed.

(** ** Receiving *)

(** The word at [ppk] is [d]; the other words outside the pool are unchanged. *)
Definition delivered (s s' : kstate) (ppk d : Z) : Prop :=
  peek (k_mem s') ppk = d /\ forall a, outside s a -> a <> ppk -> peek (k_mem s') a = peek (k_mem s) a.

(** The contents after the oldest message is taken. *)
Lemma contents_take s s' Mq C i b l :
  contents s Mq C -> Mq i = b :: l -> mbxbmap (k_mbx s') = mbxbmap (k_mbx s) ->
  (forall b' j, b' ∈ Mq j -> peek (k_mem s') b' = peek (k_mem s) b') ->
  C i <> None -> contents s' (<[i := l]> Mq) (<[i := Some (peek (k_mem s) <$> l)]> C).
Proof.
  intros HC El Hb Hd Hi j. rewrite Hb. destruct (decide (j = i)) as [->|Hne].
  - rewrite !fn_lookup_insert. rewrite HC in Hi. case_match; [|done]. f_equal. symmetry. apply data_eq.
    intros b' Hb'. apply (Hd b' i). rewrite El. by right.
  - rewrite !fn_lookup_insert_ne, HC by done. case_match; [|done]. f_equal. symmetry. apply data_eq. eauto.
Qed.

Lemma wp_rcv_mbx s A C Hd c id ppk :
  mbx_impl s A C Hd -> current_task (k_sched s) = Some c -> ~ is_idle s c ->
  Z.land ppk 3 = 0 -> outside s ppk ->
  wp (rcv_mbx_sys id ppk) (fun r s' =>
    imask (k_int s') = imask (k_int s) /\
    if bad_mbxid id then r = Done E_ID /\ s' = s else
    if negb (nz ppk) then r = Done E_PAR /\ s' = s else
    let i := Z.to_nat (id - 1) in
    match C i with
    | None => r = Done E_NOEXS /\ mbx_impl s' A C Hd
    | Some [] => r = Cont (KRcvMbx id ppk) /\ scheduled s' (a_ready (a_block c (WMbx i) A)) /\
        mbx_impl s' (a_block c (WMbx i) A) C Hd
    | Some (d :: l) => r = Done E_OK /\ mbx_impl s' A (<[i := Some l]> C) Hd /\ delivered s s' ppk d
    end) s.
Proof.
  intros HM Hcur Hni Hal Hout. unfold rcv_mbx_sys. destruct (bad_mbxid id) eqn:Eb; [by apply wp_ret|].
  destruct (nz ppk) eqn:Ep; [|by apply wp_ret]. cbn [negb].
  eapply (wp_existing (X := mailbox_t)); [apply HM|by apply bad_mbxid_false|done| |].
  { intros Hc HI'. split; [done|]. rewrite (mbx_closed s A C Hd) by done. split; [done|].
    by apply mbx_impl_masked. }
  intros i x Ei Ei' Hi Ex Ho. rewrite <- Ei in *.
  destruct (mbx_contents s A C Hd i x HM Ex Ho) as (Mq & k & fl & H & HC & ECi & Hem). rewrite ECi.
  pose proof HM as [HI _]. apply wp_bind. eapply wp_get_obj; [exact Ex|]. rewrite Hem.
  destruct (Mq i) as [|b l] eqn:El; cbn [bool_decide fmap list_fmap].
  - rewrite bool_decide_true by done. apply wp_bind. unfold mbx_block. apply wp_bind.
    eapply wp_get_current; [exact Hcur|]. pose proof (impl_cur s A c HI Hcur Hni) as Hc.
    eapply (wp_q_block (cli_state s) _ _ _ c (a_pri A c) i x); [apply kinv0_cli, HI|exact Hc|exact Ex|exact Ho|done|].
    intros s1 q t Hk1 Hi1 Hc1 Hm1 _ [_ _ Hmb1 _] Et _ Hke1 Hms1.
    eapply (wp_finish s s1 A (a_block c (WMbx i) A)); [done|exact Hke1|done|exact Hk1|by unfold masked; rewrite Hi1|].
    intros s' HI' Hsc Him [_ _ Hmb _] Hme Hno _. split_and!; [done|done|done|]. split; [done|]. exists Mq, k, fl. split.
    + eapply (msgs_ok_frame s); [exact H|by rewrite Hno|by rewrite Hme, Hm1|by rewrite Hmb, Hmb1..|].
      intros j. etrans; [|by eapply (msgq_upd s _ i x (set_mbxque q x))]. unfold msgq. by rewrite Hmb, Hmb1.
    + eapply contents_same; [exact HC|by rewrite Hmb, Hmb1|]. intros b' j _. by rewrite Hme, Hm1.
  - rewrite bool_decide_false by done. apply wp_bind.
    eapply (wp_msg_extract (cli_state s)); [apply kinv0_cli, HI|by apply (msgs_ok_frame s)|exact Ex|].
    rewrite El. intros m q s1 Hk1 H1. apply wp_bind, wp_ret. cbn [deref]. apply wp_bind.
    eapply (wp_deliver s1 _ _ _ _ b ppk); [exact H1|left|unfold valid_addr; by rewrite Ep, Hal|exact Hout|].
    intros m' fl' H2 Hd2 Ho2. apply wp_bind, wp_write_log; [apply HI|]. intros lg Hlg. wp_steps.
    assert (without b (b :: Hd) = Hd) as Ewo.
    { unfold without. rewrite filter_cons, decide_False by naive_solver. apply (without_notin b).
      by destruct (proj1 (NoDup_cons b Hd) (mo_nodup _ _ _ _ _ H1)). }
    split_and!; [done|done| |].
    + split.
      * eapply (impl_frame s); [done| |done|done]. apply (kinv0_sti (set_k_log _ _)), kinv0_log; [|done].
        by apply kinv0_mem.
      * exists (<[i := l]> Mq), k, fl'. split.
        -- rewrite Ewo in H2. by eapply (msgs_ok_frame (set_k_mem m' s1)).
        -- eapply (contents_take s _ Mq C i b l); [done|done|done| |by rewrite ECi].
           intros b' j Hb'. cbn [k_mem sti_state set_k_int set_k_log set_k_mem]. rewrite Hd2; [done|].
           destruct (decide (b' = b)) as [->|Hne]; [left; left|]. right. exists j. apply elem_of_fn_insert.
           destruct (decide (j = i)) as [->|]; [left|by right]. split; [done|]. rewrite El in Hb'.
           by apply elem_of_cons in Hb' as [|].
    + split; cbn [k_mem sti_state set_k_int set_k_log set_k_mem].
      * rewrite Ho2 by done. by rewrite decide_True.
      * intros a Ha Hne. rewrite Ho2 by done. by rewrite decide_False.
Qed.

(** The task that was given the message [b] runs again. *)
Lemma wp_rcv_mbx_resume s A C Hd c t id ppk :
  mbx_impl s A C Hd -> current_task (k_sched s) = Some c -> task_pool (k_task s) !! c = Some t ->
  (wobjid t = E_DLT \/ extdat t ∈ Hd) -> valid_addr ppk = true -> outside s ppk ->
  wp (rcv_mbx_resume id ppk) (fun r s' =>
    imask (k_int s') = imask (k_int s) /\
    if wobjid t =? E_DLT then r = E_DLT /\ mbx_impl s' A C Hd
    else r = E_OK /\ mbx_impl s' A C (without (extdat t) Hd) /\ delivered s s' ppk (peek (k_mem s) (extdat t))) s.
Proof.
  intros [HI (Mq & k & fl & H & HC)] Hcur Et Hin Hv Hout. unfold rcv_mbx_resume.
  apply wp_bind, wp_cli, wp_bind. eapply wp_get_current; [exact Hcur|]. apply wp_bind.
  eapply wp_get_task; [exact Et|]. destruct (Z.eqb_spec (wobjid t) E_DLT) as [Ed|Ed].
  - apply wp_bind, wp_write_log; [apply HI|]. intros l Hl. apply wp_bind. eapply wp_upd_task; [exact Et|]. wp_steps.
    split_and!; [done|done|]. split.
    + eapply (impl_keeps s); [done| |done|].
      * split; intros j; [done|]. cbn -[insert]. by rewrite (pri_of_insert _ _ t).
      * split; [|apply HI]. apply (kinv0_sti (set_k_task _ _)).
        by apply (kinv0_upd_task (set_k_log l (cli_state s)) _ _ _ c t (set_wobjid 0)); [apply kinv0_log; [apply kinv0_cli, HI|]|..].
    + exists Mq, k, fl. split; [by apply (msgs_ok_frame s)|done].
  - destruct Hin as [?|Hin]; [done|]. apply wp_bind.
    eapply (wp_deliver (cli_state s)); [by apply (msgs_ok_frame s)|exact Hin|done|exact Hout|].
    intros m' fl' H2 Hd2 Ho2. apply wp_bind, wp_write_log; [apply HI|]. intros lg Hlg. wp_steps.
    split_and!; [done|done| |].
    + split.
      * eapply (impl_frame s); [done| |done|done]. apply (kinv0_sti (set_k_log _ _)), kinv0_log; [|done].
        apply (kinv0_mem (cli_state s)), kinv0_cli, HI.
      * exists Mq, k, fl'. split; [by eapply (msgs_ok_frame (set_k_mem m' (cli_state s)))|].
        eapply contents_same; [exact HC|done|]. intros b' j Hb'. apply Hd2. right. by exists j.
    + split; cbn [k_mem sti_state set_k_int set_k_log set_k_mem].
      * rewrite Ho2 by done. by rewrite decide_True.
      * intros a Ha Hne. rewrite Ho2 by done. by rewrite decide_False.
Qed.

(** ** Deletion and creation *)

(** A mailbox holds at most as many messages as the pool has blocks. *)
Lemma msgs_length s Mq Hd k fl i : msgs_ok s Mq Hd k fl -> (length (Mq i) <= 128)%nat.
Proof.
  intros H. rewrite <- (length_seq 128 0), <- (length_fmap (fun n => msg_at (msg_pool (k_mbx s)) (Z.of_nat n))).
  apply submseteq_length, NoDup_submseteq.
  - by eapply (qfam_NoDup (ob := OMsg) MsgQue), H.
  - intros b Hb. destruct (mo_used _ _ _ _ _ H b) as (j & Hj & -> & _); [right; by exists i|].
    destruct (pk_room _ _ _ _ _ _ (mo_pool _ _ _ _ _ H)) as [Hk _]. unfold CONFIG_MAX_MAILBOX_MSG in Hk.
    apply list_elem_of_fmap. exists (Z.to_nat j). rewrite Z2Nat.id by lia. split; [done|].
    apply elem_of_seq. lia.
Qed.

(** What releasing the messages of a mailbox leaves alone. *)
Record freed (s s' : kstate) (Mq : nat -> list Z) (i : nat) : Prop := {
  fr_task : k_task s' = k_task s;
  fr_sched : k_sched s' = k_sched s;
  fr_int : k_int s' = k_int s;
  fr_bmap : mbxbmap (k_mbx s') = mbxbmap (k_mbx s);
  fr_data : forall b j, b ∈ Mq j -> peek (k_mem s') b = peek (k_mem s) b
}.

Lemma wp_free_msgs fuel s R W T Mq Hd k fl i x (Q : unit -> kstate -> Prop) :
  kinv0 s R W T -> msgs_ok s Mq Hd k fl -> mbx_pool (k_mbx s) !! i = Some x -> (length (Mq i) < fuel)%nat ->
  (forall s' Mq' fl', (forall j, Mq' j = (<[i := []]> Mq) j) -> kinv0 s' R W T -> msgs_ok s' Mq' Hd k fl' ->
     freed s s' Mq' i -> Q tt s') ->
  wp (free_msgs fuel i) Q s.
Proof.
  revert s Mq fl x. induction fuel as [|fuel IH]; intros s Mq fl x Hk H Ex Hf HQ; [lia|].
  cbn [free_msgs]. apply wp_bind. eapply wp_msg_extract; [exact Hk|exact H|exact Ex|].
  destruct (Mq i) as [|b l] eqn:El.
  - apply wp_ret, (HQ s Mq fl); try done. intros j. destruct (decide (j = i)) as [->|Hne].
    + by rewrite fn_lookup_insert.
    + by rewrite fn_lookup_insert_ne.
  - intros m q s1 Hk1 H1. apply wp_bind. eapply wp_free_msg; [exact H1|left|]. intros m' fl' H2 [Hd2 _].
    assert (without b (b :: Hd) = Hd) as Ewo.
    { unfold without. rewrite filter_cons, decide_False by naive_solver. apply (without_notin b).
      by destruct (proj1 (NoDup_cons b Hd) (mo_nodup _ _ _ _ _ H1)). }
    rewrite Ewo in H2.
    apply (IH (set_k_mem m' s1) (<[i := l]> Mq) fl' (set_msgque q x)).
    + by apply kinv0_mem.
    + exact H2.
    + apply list_lookup_insert_eq. by eapply lookup_lt_Some.
    + rewrite fn_lookup_insert. simpl in Hf. lia.
    + intros s' Mq' fl2 EM Hk' H' [F1 F2 F3 F4 F5].
      assert (forall j, Mq' j = (<[i := []]> Mq) j) as EM'.
      { intros j. rewrite EM. destruct (decide (j = i)) as [->|Hne]; [by rewrite !fn_lookup_insert|].
        by rewrite !fn_lookup_insert_ne. }
      apply (HQ s' Mq' fl2); try done. split; try done.
      intros b' j Hb'. rewrite (F5 b' j Hb'). apply Hd2. right. exists j.
      rewrite EM' in Hb'. apply elem_of_fn_insert in Hb' as [[_ Hb']|[Hne Hb']]; [by apply not_elem_of_nil in Hb'|].
      by rewrite fn_lookup_insert_ne.
Qed.

(** The waiting tasks become ready and are told that the mailbox is deleted. *)
Lemma del_mbx_wakes : wakes del_mbx_body (fun t => set_wobjid E_DLT (set_tskstat TTS_RDY t)).
Proof. by apply wakes_rdy_then. Qed.

(** The bit of an empty mailbox is cleared. *)
Lemma msgs_ok_close s Mq Hd k fl i : msgs_ok s Mq Hd k fl -> Mq i = [] -> (i < 32)%nat ->
  word32 (mbxbmap (k_mbx s)) ->
  msgs_ok (set_k_mbx (set_mbxbmap (clearbit (mbxbmap (k_mbx s)) (Z.of_nat i)) (k_mbx s)) s) Mq Hd k fl.
Proof.
  intros [H1 H2 H3 H4 H5 H6] Hi Hlt Hw. split; try done. intros j Hj. pose proof (H6 j Hj) as Ho.
  cbn in *. rewrite clearbit_bit by (done || lia). destruct (Z.eqb_spec (Z.of_nat i) (Z.of_nat j)) as [E|]; [|done].
  assert (j = i) as -> by lia. done.
Qed.

Lemma wp_del_mbx s A C Hd id :
  mbx_impl s A C Hd ->
  wp (del_mbx_sys id) (fun r s' =>
    imask (k_int s') = imask (k_int s) /\
    if bad_mbxid id then r = Done E_ID /\ s' = s else
    let i := Z.to_nat (id - 1) in
    match C i with
    | None => r = Done E_NOEXS /\ mbx_impl s' A C Hd
    | Some _ =>
        let ws := a_wait A (WMbx i) in
        r = Cont (KReturn E_OK) /\
        mbx_impl s' (mk_ak (a_pri A) (foldl (rq_append (task_pool (k_task s))) (a_ready A) ws)
                      (<[WMbx i := []]> (a_wait A)) (a_sleep A))
                    (<[i := None]> C) Hd
    end) s.
Proof.
  intros HM. unfold del_mbx_sys. destruct (bad_mbxid id) eqn:Eb; [by apply wp_ret|].
  eapply (wp_existing (X := mailbox_t)); [apply HM|by apply bad_mbxid_false|done| |].
  { intros Hc HI'. split; [done|]. rewrite (mbx_closed s A C Hd) by done. split; [done|].
    by apply mbx_impl_masked. }
  intros i x Ei Ei' Hi Ex Ho. rewrite <- Ei in *.
  destruct (mbx_contents s A C Hd i x HM Ex Ho) as (Mq & k & fl & H & HC & ECi & _). rewrite ECi.
  pose proof HM as [HI _]. apply wp_bind, wp_write_log; [apply HI|]. intros l Hl. apply wp_bind, wp_gets, wp_bind.
  set (s1 := set_k_log l (cli_state s)).
  assert (kinv0 s1 (a_ready A) (a_wait A) (a_sleep A)) as H1 by (apply kinv0_log; [apply kinv0_cli, HI|done]).
  eapply (wp_q_drain _ _ _ s1 _ _ _ i x); [exact del_mbx_wakes|exact H1|exact Ex| |].
  { pose proof (wait_length _ _ _ _ (WMbx i) H1). unfold tq_fuel. cbn [w_key mbx_wait]. lia. }
  intros s2 H2 [D1 D2 D3 D4 D5 (q & [_ _ D6 _]) D7 D8].
  assert (msgs_ok s2 Mq Hd k fl) as M2.
  { eapply (msgs_ok_frame s); [exact H|exact D8|exact D2|by rewrite D6..|].
    intros j. etrans; [|by eapply (msgq_upd s _ i x (set_mbxque q x))]. unfold msgq. by rewrite D6. }
  apply wp_bind. eapply (wp_free_msgs msg_fuel s2 _ _ _ Mq Hd k fl i (set_mbxque q x)); [exact H2|exact M2| | |].
  { rewrite D6. apply list_lookup_insert_eq. by eapply lookup_lt_Some. }
  { pose proof (msgs_length _ _ _ _ _ i M2). unfold msg_fuel. change (Z.to_nat CONFIG_MAX_MAILBOX_MSG) with 128%nat. lia. }
  intros s3 Mq3 fl3 EM H3 M3 [F1 F2 F3 F4 F5]. rewrite Ei'. apply wp_bind, wp_modify.
  pose proof (kinv0_close (X := mailbox_t) s3 _ _ _ i H3 Hi (fn_lookup_insert _ _ _)) as H4.
  pose proof (po_mbxb _ (ki_pools _ _ _ _ H3)) as Hw. change w_max with 4 in Hi.
  eapply (wp_finish s _ A (mk_ak _ _ _ _)); [done| |done|exact H4|by unfold masked; cbn; rewrite F3, D1|].
  { etrans; [exact D5|]. split; intros j; cbn; [by apply live_same; cbn; rewrite F1|by rewrite F1]. }
  intros s' HI' _ Him [_ _ Hmb _] Hme Hno _. split_and!; [done|done|]. split; [done|]. exists Mq3, k, fl3. split.
  - eapply (msgs_ok_frame _ s'); [apply (msgs_ok_close s3 _ _ _ _ i M3)|by rewrite Hno|exact Hme|by rewrite Hmb..|].
    + by rewrite EM, fn_lookup_insert.
    + lia.
    + done.
    + intros j. unfold msgq. by rewrite Hmb.
  - eapply (contents_same (set_k_mbx (set_mbxbmap (clearbit (mbxbmap (k_mbx s3)) (Z.of_nat i)) (k_mbx s3)) s3));
      [|by rewrite Hmb|intros b j _; by rewrite Hme].
    intros j. destruct (decide (j = i)) as [->|Hne].
    + rewrite fn_lookup_insert. cbn. by rewrite clearbit_bit, Z.eqb_refl by (done || lia).
    + rewrite fn_lookup_insert_ne, HC by done. cbn. rewrite clearbit_bit by (done || lia).
      destruct (Z.eqb_spec (Z.of_nat i) (Z.of_nat j)); [lia|]. cbn [negb andb]. rewrite F4, D6. cbn.
      case_match; [|done]. f_equal. rewrite EM, fn_lookup_insert_ne by done. symmetry. apply data_eq.
      intros b Hb. rewrite (F5 b j); [by rewrite D2|]. by rewrite EM, fn_lookup_insert_ne.
Qed.

(** The mailbox a creation writes. *)
Definition new_mbx (pk : T_CMBX) : mailbox_t := mk_mbx (c_mbxatr pk) (c_maxmpri pk) 0 null_queue null_queue.

(** Filling the slot of a mailbox that does not exist. *)
Lemma wp_fill_mbx s A C Hd i pk fn id (Q : unit -> kstate -> Prop) :
  mbx_impl s A C Hd -> Z.of_nat i < CONFIG_MAX_MAILBOX -> ~ open_obj s (WMbx i) ->
  (forall s', k_int s' = k_int (cli_state s) -> mbx_impl (sti_state s') A (<[i := Some []]> C) Hd -> Q tt s') ->
  wp (fill_mbx (Z.of_nat i) pk ;;; write_log fn id E_OK) Q (cli_state s).
Proof.
  intros [HI (Mq & k & fl & H & HC)] Hi Hop HQ. pose proof (kinv0_cli _ _ _ _ (proj1 (proj1 HI))) as H0.
  pose proof (ki_pools _ _ _ _ H0) as HP. assert (CONFIG_MAX_MAILBOX = 4) as E4 by done.
  destruct (obj_slot (X := mailbox_t) s i (ki_pools _ _ _ _ (proj1 (proj1 HI)))) as [x Ex]; [exact Hi|]. simpl in Ex.
  unfold fill_mbx. rewrite Nat2Z.id. wp_steps. eapply wp_upd_obj; [exact Ex|]. wp_steps.
  eapply wp_upd_obj; [apply list_lookup_insert_eq; by eapply lookup_lt_Some|]. wp_steps.
  apply wp_write_log; [apply HI|]. intros l Hl.
  cbn [w_pool w_set_pool mbx_wait k_mbx set_k_mbx set_mbxbmap set_mbx_pool mbx_pool mbxbmap].
  rewrite list_insert_insert_eq.
  destruct (@kinv0_open mailbox_t mbx_wait _ (cli_state s) _ _ _ i x (new_mbx pk) H0 Ex Hi Hop eq_refl) as [H1 _].
  destruct (@kinv0_open mailbox_t mbx_wait _ _ _ _ _ i (new_mbx pk) (new_mbx pk) H1) as [_ H2]; [|done..|].
  { apply list_lookup_insert_eq. by eapply lookup_lt_Some. }
  assert (Mq i = []) as HMi.
  { destruct (Mq i) as [|b lb] eqn:E; [done|]. exfalso. apply Hop, (mo_open _ _ _ _ _ H). by rewrite E. }
  assert (msgque x = null_queue) as Hqx.
  { pose proof (qf_rep _ _ _ _ (mo_fam _ _ _ _ _ H) i) as (Hh & Ht & _). rewrite HMi in Hh, Ht.
    unfold msgq in Hh, Ht. rewrite Ex in Hh, Ht. simpl in *. destruct (msgque x); simpl in *; by subst. }
  pose proof (po_mbxb _ HP) as Hw. cbn in Hw. apply HQ; [done|]. split.
  - eapply (impl_frame s); [done| |done|done]. apply (kinv0_sti (set_k_log _ _)). by apply (kinv0_log _ _ _ _ l H2).
  - exists Mq, k, fl. split.
    + destruct H as [M1 M2 M3 M4 M5 M6]. split; try done.
      * eapply (qfam_frame (ob := OMsg) MsgQue); [done| |exact M1]. intros j. unfold msgq. cbn -[insert].
        destruct (decide (j = i)) as [->|Hne]; [|by rewrite list_lookup_insert_ne].
        rewrite list_lookup_insert_eq, Ex by (by eapply lookup_lt_Some). simpl. by rewrite Hqx.
      * intros j Hj. pose proof (M6 j Hj) as Ho. cbn in *. rewrite setbit_bit by (done || lia). by rewrite Ho, orb_true_r.
    + intros j. cbn -[insert]. rewrite setbit_bit by (done || lia). destruct (decide (j = i)) as [->|Hne].
      * by rewrite fn_lookup_insert, Z.eqb_refl, HMi.
      * rewrite fn_lookup_insert_ne, HC by done. by destruct (Z.eqb_spec (Z.of_nat i) (Z.of_nat j)); [lia|].
Qed.

Lemma wp_cre_mbx s A C Hd id pk :
  mbx_impl s A C Hd ->
  wp (cre_mbx_sys id pk) (fun r s' =>
    imask (k_int s') = imask (k_int s) /\
    if bad_mbxid id then r = Done E_ID /\ s' = s else
    let i := Z.to_nat (id - 1) in
    match pk with
    | None => r = Done E_PAR /\ s' = s
    | Some pk =>
        match C i with
        | Some _ => r = Done E_OBJ /\ mbx_impl s' A C Hd
        | None => r = Done E_OK /\ mbx_impl s' A (<[i := Some []]> C) Hd
        end
    end) s.
Proof.
  intros HM. unfold cre_mbx_sys. destruct (bad_mbxid id) eqn:Eb; [by apply wp_ret|].
  destruct pk as [pk|]; [|by apply wp_ret]. apply wp_bind, wp_cli, wp_bind, wp_gets.
  pose proof (bad_mbxid_false id Eb) as Hid. pose proof (obj_bit (X := mailbox_t) s id Hid) as Hb.
  cbn [w_bmap mbx_wait] in Hb. cbn [k_mbx cli_state set_k_int]. rewrite Hb. clear Hb.
  set (i := Z.to_nat (id - 1)). assert (id - 1 = Z.of_nat i) as Ei by (unfold i; lia).
  assert (Z.of_nat i < CONFIG_MAX_MAILBOX) as Hi by (unfold i; cbn [w_max mbx_wait] in Hid; lia).
  pose proof HM as [_ (Mq & k & fl & _ & HC)]. rewrite (HC i).
  destruct (Z.testbit (mbxbmap (k_mbx s)) (Z.of_nat i)) eqn:Ebit.
  { wp_steps. split_and!; [done|done|]. by apply mbx_impl_masked. }
  rewrite Ei. eapply wp_seq, (wp_fill_mbx s A C Hd i pk); [done|done|by simpl; rewrite Ebit|].
  intros s' Hint HM'. wp_steps. split_and!; [by rewrite Hint|done|exact HM'].
Qed.

(** [acre_mbx_sys] creates the mailbox of the lowest free identifier. *)
Lemma wp_acre_mbx s A C Hd pk :
  mbx_impl s A C Hd ->
  wp (acre_mbx_sys pk) (fun r s' =>
    imask (k_int s') = imask (k_int s) /\
    match pk with
    | None => r = Done E_PAR /\ s' = s
    | Some pk =>
        (r = Done E_NOID /\ mbx_impl s' A C Hd /\ forall i, (i < 4)%nat -> C i <> None) \/
        exists i, (i < 4)%nat /\ C i = None /\ (forall j, (j < i)%nat -> C j <> None) /\
          r = Done (Z.of_nat i + 1) /\ mbx_impl s' A (<[i := Some []]> C) Hd
    end) s.
Proof.
  intros HM. unfold acre_mbx_sys. destruct pk as [pk|]; [|by apply wp_ret]. apply wp_bind, wp_cli, wp_bind, wp_gets.
  cbn [k_mbx cli_state set_k_int]. pose proof HM as [HI (Mq & k & fl & _ & HC)].
  assert (forall j, C j <> None <-> Z.testbit (mbxbmap (k_mbx s)) (Z.of_nat j) = true) as HB.
  { intros j. rewrite HC. by case_match. }
  destruct (_ffc_cases (mbxbmap (k_mbx s)) (po_mbxb _ (ki_pools _ _ _ _ (proj1 (proj1 HI)))))
    as [[-> Hall]|(Hr & Hclr & Hlow)].
  { wp_steps. split_and!; [done|]. left. split_and!; [done|by apply mbx_impl_masked|].
    intros j Hj. apply HB, Hall. lia. }
  set (idx := _ffc (mbxbmap (k_mbx s))) in *. destruct (bad_mbxid (idx + 1)) eqn:Eb.
  { wp_steps. split_and!; [done|]. left. split_and!; [done|by apply mbx_impl_masked|].
    intros j Hj. apply HB, Hlow. unfold bad_mbxid, CONFIG_MAX_MAILBOX in Eb.
    apply orb_true_iff in Eb as [Eb|Eb]; [apply Z.ltb_lt in Eb; lia|].
    rewrite Z.gtb_ltb in Eb. apply Z.ltb_lt in Eb. lia. }
  pose proof (bad_mbxid_false _ Eb) as Hid. change w_max with 4 in Hid. set (i := Z.to_nat idx) in *.
  assert (idx = Z.of_nat i) as Ei by (unfold i; lia).
  replace (fill_mbx idx pk) with (fill_mbx (Z.of_nat i) pk) by (by rewrite Ei).
  eapply wp_seq, (wp_fill_mbx s A C Hd i pk); [done|change CONFIG_MAX_MAILBOX with 4; lia| |].
  { simpl. by rewrite <- Ei, Hclr. }
  intros s' Hint HM'. wp_steps. split; [by rewrite Hint|]. right. exists i.
  split_and!; [lia| | |by rewrite <- Ei|exact HM'].
  - rewrite HC, <- Ei, Hclr. done.
  - intros j Hj. apply HB, Hlow. lia.
Qed.
