(* ===== verification/Mempool.v ===== *)
(** * Memory pools: mempool.c

    Fixed-size pools are block pools of mpool.c with a queue of waiting tasks;
    variable-sized pools are TLSF arenas. *)

From Stdlib Require Import ZArith Lia.
From stdpp Require Import base tactics gmap option functions countable list.
From S2P Require Import Prelude Bits Queue Qfam Mem Mpool Kstate Tlsf Syslog Sched Timeout Dispatch.
From S2P Require Import Kinv Waitobj.

Open Scope Z_scope.
Open Scope kernel_scope.

(** [T_CMPF] and [T_CMPL] *)
Record T_CMPF := mk_cmpf { c_mpfatr : Z; c_blkcnt : Z; c_blksz : Z; c_mpf : Z }.
Record T_CMPL := mk_cmpl { c_mplatr : Z; c_mplsz : Z; c_mpl : Z }.

Definition ALIGN32 (x : Z) : Z := Z.land (u32 (x + 3)) (u32 (Z.lnot 3)).

(** [mpf_pool], [mpfbmap] and the queue [mpfque] of a fixed-size pool. *)
#[export] Instance mpf_wait : WaitPool mpfpool_t := {
  w_max := CONFIG_MAX_FMPOOL;
  w_bmap s := mpfbmap (k_mpl s);
  w_set_bmap b s := set_k_mpl (set_mpfbmap b (k_mpl s)) s;
  w_pool s := mpf_pool (k_mpl s);
  w_set_pool l s := set_k_mpl (set_mpf_pool l (k_mpl s)) s;
  w_que := mpfque;
  w_set_que := set_mpfque;
  w_key := WMpf
}.

Abbreviation get_mpf := (get_obj (X := mpfpool_t)).
Abbreviation upd_mpf := (upd_obj (X := mpfpool_t)).
Abbreviation mpf_extract := (q_extract (X := mpfpool_t)).
Abbreviation mpf_enqueue := (q_enqueue (X := mpfpool_t)).

(** ** Initialization *)

(** [init_memory_pool(mpl_pool[i].length, mpl_pool[i].base); mplbmap =
    setbit(mplbmap, i)] for each [i] of the list. *)
Fixpoint init_mpl_loop (idxs : list nat) : KM unit :=
  match idxs with
  | [] => ret tt
  | i :: idxs =>
      let* l := gets (fun s => mpl_pool (k_mpl s)) in
      let* p := deref (l !! i) in
      ktlsf (init_memory_pool (mpl_length p) (mpl_base p)) ;;;
      upd_mpl_mod (fun r => set_mplbmap (setbit (mplbmap r) (Z.of_nat i)) r) ;;;
      init_mpl_loop idxs
  end.

Definition init_mpl_pool : KM unit :=
  let* ups := gets (fun s => _userpools (img (k_setup s))) in
  let pools := imap (fun i '(base, size) => mk_mpl size base (Z.of_nat i + 1)) ups in
  upd_mpl_mod (fun r => set_mpl_pool pools (set_mplbmap clearbitmap r)) ;;;
  init_mpl_loop (seq 0 4).

Definition init_mpf_pool : KM unit :=
  upd_mpl_mod (fun r => set_mpf_pool (replicate (Z.to_nat CONFIG_MAX_FMPOOL) zero_mpf)
    (set_mpfbmap clearbitmap r)).

(** ** Fixed-size pools *)

Definition bad_mpfid (id : Z) : bool := (id <? 1) || (id >? CONFIG_MAX_FMPOOL).

Definition set_mpfbit (idx : Z) : KM unit :=
  upd_mpl_mod (fun r => set_mpfbmap (setbit (mpfbmap r) idx) r).
Definition clear_mpfbit (idx : Z) : KM unit :=
  upd_mpl_mod (fun r => set_mpfbmap (clearbit (mpfbmap r) idx) r).

Definition cre_mpf_sys (id : Z) (pk_cmpf : option T_CMPF) : KM sysres :=
  let idx := id - 1 in
  if bad_mpfid id then ret (Done E_PAR) else
  match pk_cmpf with
  | None => ret (Done E_PAR)
  | Some pk =>
      if negb (nz (c_blksz pk)) then ret (Done E_PAR) else
      hw_cli ;;;
      let* bm := gets (fun s => mpfbmap (k_mpl s)) in
      if nz (isbitset bm idx) then hw_sti ;;; ret (Done E_OBJ) else
      let i := Z.to_nat idx in
      upd_mpf i (fun _ => zero_mpf) ;;;
      upd_mpf i (fun x => set_mpfatr (c_mpfatr pk) (set_blkcnt (c_blkcnt pk) (set_mpf (c_mpf pk)
                            (set_blksz (ALIGN32 (c_blksz pk)) x)))) ;;;
      let* x := get_mpf i in
      kmem (init_pool (mpf x) (blksz x) (blkcnt x)) ;;;
      set_mpfbit idx ;;;
      write_log TFN_CRE_MPF id E_OK ;;;
      hw_sti ;;;
      ret (Done E_OK)
  end.

(** The body of the loop of [del_mpf_sys]. *)
Definition del_mpf_body (tsk : nat) : KM unit :=
  upd_task tsk (fun t => set_tskstat TTS_RDY (set_wobjid E_DLT t)) ;;;
  rq_insert tsk.

Definition del_mpf_sys (id : Z) : KM sysres :=
  let idx := id - 1 in
  if bad_mpfid id then ret (Done E_PAR) else
  hw_cli ;;;
  let* bm := gets (fun s => mpfbmap (k_mpl s)) in
  if negb (nz (isbitset bm idx)) then hw_sti ;;; ret (Done E_NOEXS) else
  let i := Z.to_nat idx in
  write_log TFN_DEL_MPF id E_OK ;;;
  let* e := q_is_empty (X := mpfpool_t) i in
  let* fuel := gets tq_fuel in
  when (negb e) (q_drain (X := mpfpool_t) fuel i del_mpf_body) ;;;
  clear_mpfbit idx ;;;
  hw_sti ;;;
  scheduler ;;;
  ret (Cont (KReturn E_OK)).

Definition get_mpf_sys (id p_blk : Z) : KM sysres :=
  let idx := id - 1 in
  if bad_mpfid id then ret (Done E_PAR) else
  if negb (nz p_blk) then ret (Done E_PAR) else
  hw_cli ;;;
  let* bm := gets (fun s => mpfbmap (k_mpl s)) in
  if negb (nz (isbitset bm idx)) then hw_sti ;;; ret (Done E_NOEXS) else
  let i := Z.to_nat idx in
  let* x := get_mpf i in
  let* blk := kmem (mpalloc (mpf x)) in
  if negb (nz blk) then
    (* No free blocks available *)
    let* cur := get_current in
    mpf_enqueue i cur ;;;
    write_log TFN_GET_MPF id TTS_WAI ;;;
    upd_task cur (fun t => set_tskwait TTW_MPF (set_tskstat TTS_WAI t)) ;;;
    rq_remove cur ;;;
    hw_sti ;;;
    scheduler ;;;
    ret (Cont (KGetMpf p_blk))
  else
    (* Free block available *)
    kmem (store p_blk blk) ;;;
    hw_sti ;;;
    ret (Done E_OK).

(** [get_mpf_sys] after [scheduler()]. *)
Definition get_mpf_resume (p_blk : Z) : KM Z :=
  hw_cli ;;;
  let* cur := get_current in
  let* t := get_task cur in
  if wobjid t =? E_DLT then hw_sti ;;; ret E_DLT else
  kmem (store p_blk (extdat t)) ;;;
  hw_sti ;;;
  ret E_OK.

Definition rel_mpf_sys (id blk : Z) : KM sysres :=
  let idx := id - 1 in
  if bad_mpfid id then ret (Done E_PAR) else
  if negb (nz blk) then ret (Done E_PAR) else
  hw_cli ;;;
  let* bm := gets (fun s => mpfbmap (k_mpl s)) in
  if negb (nz (isbitset bm idx)) then hw_sti ;;; ret (Done E_NOEXS) else
  let i := Z.to_nat idx in
  let* x := get_mpf i in
  if (blk <? mpf x) || (blk >? u32 (mpf x + blkcnt x * blksz x)) then
    hw_sti ;;; ret (Done E_PAR) else
  (* Check the memory pool queue for waiting tasks *)
  (if negb (queue_is_empty (mpfque x)) then
     write_log TFN_REL_MPF id E_OK ;;;
     (* Wake-up task at the head of the queue *)
     let* o := mpf_extract i in
     let* tsk := deref o in
     upd_task tsk (set_extdat blk) ;;;
     rq_insert tsk
   else
     (* Insert the block on the free list *)
     kmem (mpfree (mpf x) blk)) ;;;
  hw_sti ;;;
  scheduler ;;;
  ret (Cont (KReturn E_OK)).

(** ** Variable-sized pools *)

(** [mpl_pool[idx]] *)
Definition get_mpl (i : nat) : KM mplpool_t :=
  let* l := gets (fun s => mpl_pool (k_mpl s)) in deref (l !! i).

Definition cre_mpl_sys (id : Z) (pk_cmpl : option T_CMPL) : KM sysres :=
  let idx := id - 1 in
  if (id <? 1) || (id >? CONFIG_MAX_VMPOOL) then ret (Done E_ID) else
  match pk_cmpl with
  | None => ret (Done E_PAR)
  | Some pk =>
      if negb (nz (c_mpl pk)) then ret (Done E_PAR) else
      hw_cli ;;;
      let* bm := gets (fun s => mplbmap (k_mpl s)) in
      if nz (isbitset bm idx) then hw_sti ;;; ret (Done E_OBJ) else
      let i := Z.to_nat idx in
      let* p := get_mpl i in
      let p := set_mpl_base (c_mpl pk) (set_mpl_length (c_mplsz pk) p) in
      upd_mpl_mod (fun r => set_mpl_pool (<[i := p]> (mpl_pool r)) r) ;;;
      ktlsf (init_memory_pool (mpl_length p) (mpl_base p)) ;;;
      hw_sti ;;;
      ret (Done E_OK)
  end.

Definition get_mpl_sys (id blksz p_blk : Z) : KM sysres :=
  let idx := id - 1 in
  if (id <? 1) || (id >? CONFIG_MEM_POOLS) then ret (Done E_ID) else
  if negb (nz p_blk) then ret (Done E_PAR) else
  hw_cli ;;;
  let* p := get_mpl (Z.to_nat idx) in
  if blksz >? mpl_length p then hw_sti ;;; ret (Done E_PAR) else
  let* blk := ktlsf (malloc_ex blksz (mpl_base p)) in
  kmem (store p_blk blk) ;;;
  hw_sti ;;;
  ret (Done E_OK).

Definition rel_mpl_sys (id blk : Z) : KM sysres :=
  let idx := id - 1 in
  if (id <? 1) || (id >? CONFIG_MEM_POOLS) then ret (Done E_ID) else
  if nz (Z.land blk 0x3) then ret (Done E_PAR) else
  hw_cli ;;;
  let* p := get_mpl (Z.to_nat idx) in
  ktlsf (free_ex blk (mpl_base p)) ;;;
  hw_sti ;;;
  ret (Done E_OK).

(** ** The interface of the wait queues *)

#[export] Instance mpf_wait_ok : WaitPoolOk mpfpool_t.
Proof.
  split; cbn [mpf_wait w_max w_bmap w_set_bmap w_pool w_set_pool w_que w_set_que w_key]; try done.
  - by intros [? ? ? ? ? ? ? ? ? ? [] ?].
  - by intros s s' [_ _ _ ->].
  - intros l s s' []. split; simpl; congruence.
  - by intros [].
  - by intros i j [= ->].
  - intros l s k Hk. by destruct k as [| | |i]; [..|destruct (Hk i)].
  - intros [| | |i]; [by right..|by left; exists i].
  - intros l s Hl []. split; simpl; try done. by rewrite Hl.
  - by intros s [].
  - by intros s [].
  - by intros s s' [_ _ _ ->].
  - intros b s Hb []. by split.
  - intros b s k Hk. by destruct k as [| | |i]; [..|destruct (Hk i)].
Qed.

(** ** What the fixed-size pools promise *)

Lemma bad_mpfid_false id : bad_mpfid id = false -> 1 <= id <= w_max (X := mpfpool_t).
Proof.
  unfold bad_mpfid. rewrite orb_false_iff, Z.ltb_ge, Z.gtb_ltb, Z.ltb_ge. cbn [w_max mpf_wait]. lia.
Qed.

(** The pool [x] has handed out the first [k] of its blocks, [fl] being free. *)
Definition mpf_ok (s : kstate) (x : mpfpool_t) (k : Z) (fl : list Z) : Prop :=
  pool_ok (k_mem s) (mpf x) (blksz x) (blkcnt x) k fl.

(** The words of the pool [x]. *)
Definition in_mpf (x : mpfpool_t) (a : Z) : Prop :=
  mpf x <= a < mp_base (mpf x) + blkcnt x * stride (blksz x).

Lemma mpf_blk_in s x k fl b : mpf_ok s x k fl -> b ∈ fl -> in_mpf x b.
Proof.
  intros H Hb. destruct (pk_blk _ _ _ _ _ _ H b Hb) as (j & Hj & ->).
  destruct (pk_size _ _ _ _ _ _ H), (pk_room _ _ _ _ _ _ H). unfold in_mpf, mp_base, stride, sizeof_mpool_block, sizeof_ptr in *. nia.
Qed.

Lemma pool_ok_store x k fl a v m : pool_ok m (mpf x) (blksz x) (blkcnt x) k fl -> ~ in_mpf x a ->
  (forall b, b ∈ fl -> in_mpf x b) -> 0 <= blkcnt x * stride (blksz x) ->
  pool_ok (<[a := v]> m) (mpf x) (blksz x) (blkcnt x) k fl.
Proof.
  intros H Ha Hfl Hn. eapply pool_ok_mem; [exact H|]. intros b Hb. apply peek_insert_ne. intros ->.
  apply Ha. destruct Hb as [Hb|Hb]; [|by apply Hfl]. unfold in_mpf. lia.
Qed.

(** Acquisition: a block of the pool, or the task waits. *)
Lemma wp_get_mpf s A c id p x k fl :
  impl s A -> current_task (k_sched s) = Some c -> ~ is_idle s c ->
  bad_mpfid id = false -> mpf_pool (k_mpl s) !! Z.to_nat (id - 1) = Some x -> mpf_ok s x k fl ->
  valid_addr p = true -> ~ in_mpf x p ->
  wp (get_mpf_sys id p) (fun r s' =>
    let i := Z.to_nat (id - 1) in
    imask (k_int s') = imask (k_int s) /\
    if negb (Z.testbit (mpfbmap (k_mpl s)) (Z.of_nat i)) then r = Done E_NOEXS /\ impl s' A else
    match fl with
    | b :: fl' => r = Done E_OK /\ impl s' A /\ mpf_ok s' x k fl' /\ peek (k_mem s') p = b + 4
    | [] => if k =? blkcnt x then
              r = Cont (KGetMpf p) /\ impl s' (a_block c (WMpf i) A) /\ k_mem s' = k_mem s
            else r = Done E_OK /\ impl s' A /\ mpf_ok s' x (k + 1) [] /\
              peek (k_mem s') p = block (mpf x) (blksz x) k + 4
    end) s.
Proof.
  intros HI Hcur Hni Eb Ex HP Hv Hout. unfold get_mpf_sys. rewrite Eb.
  pose proof Hv as Hv'. unfold valid_addr in Hv'. apply andb_true_iff in Hv' as [Hnz _]. rewrite Hnz. cbn [negb].
  eapply (wp_existing (X := mpfpool_t)); [done|by apply bad_mpfid_false|done| |].
  { intros Hc HI'. split; [done|]. simpl in Hc. by destruct (Z.testbit _ _). }
  intros i y Ei Ei' Hi Ey Ho. rewrite <- Ei in *. simpl in Ey, Ho. rewrite Ex in Ey. injection Ey as <-. rewrite Ho.
  apply wp_bind. eapply wp_get_obj; [exact Ex|]. apply wp_bind, wp_kmem. eapply wp_mpalloc; [exact HP|].
  (* a block was found *)
  assert (forall b m' k' fl', pool_ok m' (mpf x) (blksz x) (blkcnt x) k' fl' -> 0 < b ->
    wp (if negb (nz b) then
          let* cur := get_current in
          mpf_enqueue i cur ;;; write_log TFN_GET_MPF id TTS_WAI ;;;
          upd_task cur (fun t => set_tskwait TTW_MPF (set_tskstat TTS_WAI t)) ;;;
          rq_remove cur ;;; hw_sti ;;; scheduler ;;; ret (Cont (KGetMpf p))
        else kmem (store p b) ;;; hw_sti ;;; ret (Done E_OK))
      (fun r s' => imask (k_int s') = imask (k_int s) /\ r = Done E_OK /\ impl s' A /\ mpf_ok s' x k' fl' /\
        peek (k_mem s') p = b) (set_k_mem m' (cli_state s))) as Hfound.
  { intros b m' k' fl' HP' Hb. assert (nz b = true) as -> by (apply negb_true_iff, Z.eqb_neq; lia). cbn [negb].
    apply wp_bind, wp_kmem, wp_store; [done|]. wp_steps. split_and!; [done|done| | |apply peek_insert_eq].
    - eapply (impl_frame s); [done| |done|done]. apply (kinv0_sti (set_k_mem _ _)).
      apply (kinv0_mem (cli_state s)), kinv0_cli, HI.
    - apply pool_ok_store; [done|done| |].
      + intros a Ha. by eapply (mpf_blk_in (set_k_mem m' s)).
      + destruct (pk_room _ _ _ _ _ _ HP'), (pk_size _ _ _ _ _ _ HP'). unfold stride, sizeof_mpool_block, sizeof_ptr. nia. }
  destruct fl as [|b fl].
  - destruct (Z.eqb_spec k (blkcnt x)) as [->|Hne].
    + cbn [NULL nz Z.eqb negb]. apply wp_bind. eapply wp_get_current; [exact Hcur|].
      pose proof (impl_cur s A c HI Hcur Hni) as Hc.
      replace (set_k_mem (k_mem (cli_state s)) (cli_state s)) with (cli_state s) by (by destruct s).
      eapply wp_seq4, (wp_q_block (cli_state s) _ _ _ c (a_pri A c) i x); [apply kinv0_cli, HI|exact Hc|exact Ex|exact Ho|done|].
      intros s1 q t H1 Hi1 Hc1 Hm1 _ _ _ _ Hke1 _.
      eapply (wp_finish s s1 A (a_block c (WMpf i) A)); [done|exact Hke1|done|exact H1|by unfold masked; rewrite Hi1|].
      intros s' HI' _ Him _ Hme _ _. split_and!; [done|done|done|by rewrite Hme, Hm1].
    + intros m' HP' _. eapply wp_mono; [eapply (Hfound _ _ _ _ HP')|done].
      destruct (pk_base _ _ _ _ _ _ HP'), (pk_size _ _ _ _ _ _ HP'), (pk_room _ _ _ _ _ _ HP).
      pose proof (block_above (mpf x) (blksz x) k). lia.
  - intros m' HP' _. eapply wp_mono; [eapply (Hfound _ _ _ _ HP')|done].
    destruct (pool_blk_above _ _ _ _ _ _ b HP) as (? & _); [left|]. destruct (pk_base _ _ _ _ _ _ HP). lia.
Qed.

(** The bounds test of [rel_mpf_sys]. *)
Definition blk_in_range (x : mpfpool_t) (blk : Z) : bool :=
  negb ((blk <? mpf x) || (blk >? u32 (mpf x + blkcnt x * blksz x))).

(** Release: the block goes to the first waiting task, or to the free list. *)
Lemma wp_rel_mpf s A id x k fl j :
  impl s A -> bad_mpfid id = false -> mpf_pool (k_mpl s) !! Z.to_nat (id - 1) = Some x -> mpf_ok s x k fl ->
  0 <= j < k -> block (mpf x) (blksz x) j ∉ fl ->
  wp (rel_mpf_sys id (block (mpf x) (blksz x) j + 4)) (fun r s' =>
    let i := Z.to_nat (id - 1) in
    imask (k_int s') = imask (k_int s) /\
    if negb (Z.testbit (mpfbmap (k_mpl s)) (Z.of_nat i)) then r = Done E_NOEXS /\ impl s' A else
    if negb (blk_in_range x (block (mpf x) (blksz x) j + 4)) then r = Done E_PAR /\ impl s' A /\ k_mem s' = k_mem s
    else r = Cont (KReturn E_OK) /\
    match a_wait A (WMpf i) with
    | [] => impl s' A /\ mpf_ok s' x k (block (mpf x) (blksz x) j :: fl)
    | c :: _ => (exists A', a_wake (WMpf i) A = Some A' /\ impl s' A') /\ k_mem s' = k_mem s /\
        forall t, task_pool (k_task s') !! c = Some t -> extdat t = block (mpf x) (blksz x) j + 4
    end) s.
Proof.
  intros HI Eb Ex HP Hj Hfl. set (blk := block (mpf x) (blksz x) j + 4).
  assert (nz blk = true) as Hnz.
  { apply negb_true_iff, Z.eqb_neq. destruct (pk_base _ _ _ _ _ _ HP), (pk_size _ _ _ _ _ _ HP).
    pose proof (block_above (mpf x) (blksz x) j). unfold blk. lia. }
  unfold rel_mpf_sys. rewrite Eb, Hnz. cbn [negb].
  eapply (wp_existing (X := mpfpool_t)); [done|by apply bad_mpfid_false|done| |].
  { intros Hc HI'. split; [done|]. simpl in Hc. by destruct (Z.testbit _ _). }
  intros i y Ei Ei' Hi Ey Ho. rewrite <- Ei in *. simpl in Ey, Ho. rewrite Ex in Ey. injection Ey as <-. rewrite Ho.
  apply wp_bind. eapply wp_get_obj; [exact Ex|]. unfold blk_in_range. rewrite negb_involutive.
  destruct (_ || _). { cbn [negb]. wp_steps. split_and!; [done|done|by apply impl_sti, impl_cli|done]. }
  pose proof (kinv0_cli _ _ _ _ (proj1 (proj1 HI))) as H0.
  pose proof (qf_rep _ _ _ _ (ki_sync _ _ _ _ H0) (WMpf i)) as Hr.
  assert (waitq (cli_state s) (WMpf i) = mpfque x) as Eq by (simpl; by rewrite Ex). rewrite Eq in Hr.
  apply qrep_empty in Hr. cbn [negb]. apply wp_bind. destruct (a_wait A (WMpf i)) as [|c ws] eqn:Ew.
  - destruct Hr as [_ ->]; [|done]. cbn [negb]. apply wp_kmem.
    eapply (wp_mpfree _ _ _ _ _ _ j); [exact HP|done|done|]. intros m' HP' _.
    eapply (wp_finish s _ A A); [done|done|done|apply kinv0_mem, H0|done|].
    intros s' HI' _ Him _ Hme _ _. split_and!; [done..|]. unfold mpf_ok. by rewrite Hme.
  - destruct (queue_is_empty (mpfque x)); [by destruct Hr as [Hr _]; specialize (Hr eq_refl)|]. cbn [negb].
    apply wp_bind, wp_write_log; [apply HI|]. intros l Hl. set (s1 := set_k_log l (cli_state s)).
    assert (kinv0 s1 (a_ready A) (a_wait A) (a_sleep A)) as H1 by (by apply kinv0_log).
    apply wp_bind. eapply (wp_q_extract s1); [apply H1|exact Ex|]. cbn [w_key mpf_wait]. rewrite Ew.
    intros m q Hup Hsy. apply wp_bind, wp_ret. cbn [deref].
    destruct (waiting_task _ _ _ _ (WMpf i) c H1) as [HL [t Et]]; [rewrite Ew; left|].
    pose proof (enqueued_q0 s1 m i x (w_set_que q x) (ki_pools _ _ _ _ H1) (ki_log _ _ _ _ H1) Hup Ex) as He.
    eapply (wp_wake s1 _ _ _ _ c t (WMpf i) ws (set_extdat blk) H1 He);
      [by eapply dequeues_head; [apply H1|]|exact Hsy|exact Et| |done..|].
    { apply (waiting_stat s1 _ _ _ (WMpf i) c t H1); [rewrite Ew; left|done]. }
    intros s2 H2 [_ Hi2 Hm2 _ _ Hp2 _] Hke2.
    eapply (wp_finish s s2 A (mk_ak (a_pri A) (<[a_pri A c := a_ready A (a_pri A c) ++ [c]]> (a_ready A))
       (<[WMpf i := ws]> (a_wait A)) (a_sleep A))); [done|exact Hke2|done| |by unfold masked; rewrite Hi2|].
    { simpl. rewrite (proj2 HI c HL). exact H2. }
    intros s' HI' _ Him _ Hme _ Hst. split_and!; [done|done| |by rewrite Hme, Hm2|].
    + eexists. split; [unfold a_wake; by rewrite Ew|done].
    + intros t' Et'. destruct (Hst c t' Et') as (t3 & Et3 & ->). rewrite Hp2 in Et3.
      rewrite list_lookup_insert_eq in Et3 by (eapply lookup_lt_Some; exact Et). by injection Et3 as <-.
Qed.

(** Deletion: the waiting tasks become ready. *)
Lemma del_mpf_wakes : wakes del_mpf_body (fun t => set_tskstat TTS_RDY (set_wobjid E_DLT t)).
Proof. by apply wakes_rdy. Qed.

Lemma wp_del_mpf s A id :
  impl s A ->
  wp (del_mpf_sys id) (fun r s' =>
    let i := Z.to_nat (id - 1) in
    imask (k_int s') = imask (k_int s) /\
    if bad_mpfid id then r = Done E_PAR /\ s' = s else
    if negb (Z.testbit (mpfbmap (k_mpl s)) (Z.of_nat i)) then r = Done E_NOEXS /\ impl s' A else
    let ws := a_wait A (WMpf i) in
    r = Cont (KReturn E_OK) /\
    impl s' (mk_ak (a_pri A) (foldl (rq_append (task_pool (k_task s))) (a_ready A) ws)
              (<[WMpf i := []]> (a_wait A)) (a_sleep A)) /\
    mpfbmap (k_mpl s') = clearbit (mpfbmap (k_mpl s)) (Z.of_nat i)) s.
Proof.
  intros HI. unfold del_mpf_sys. destruct (bad_mpfid id) eqn:Eb; [by apply wp_ret|].
  eapply (wp_existing (X := mpfpool_t)); [done|by apply bad_mpfid_false|done| |].
  { intros Hc HI'. split; [done|]. simpl in Hc. by destruct (Z.testbit _ _). }
  intros i x Ei Ei' Hi Ex Ho. rewrite <- Ei in *. simpl in Ho. rewrite Ho. cbn [negb].
  apply wp_bind, wp_write_log; [apply HI|]. intros l Hl. apply wp_bind. unfold q_is_empty. apply wp_bind.
  eapply wp_get_obj; [exact Ex|]. apply wp_ret, wp_bind, wp_gets.
  set (s1 := set_k_log l (cli_state s)).
  assert (kinv0 s1 (a_ready A) (a_wait A) (a_sleep A)) as H1 by (apply kinv0_log; [apply kinv0_cli, HI|done]).
  (* what the loop leaves, also when it is skipped *)
  assert (forall Q : unit -> kstate -> Prop,
    (forall s2, kinv0 s2 (foldl (rq_append (task_pool (k_task s1))) (a_ready A) (a_wait A (WMpf i)))
       (<[WMpf i := []]> (a_wait A)) (a_sleep A) ->
       drained (fun t => set_tskstat TTS_RDY (set_wobjid E_DLT t)) s1 s2 i x (a_wait A (WMpf i)) -> Q tt s2) ->
    wp (when (negb (queue_is_empty (w_que x))) (q_drain (X := mpfpool_t) (tq_fuel s1) i del_mpf_body)) Q s1) as Hloop.
  { intros Q HQ. pose proof (qf_rep _ _ _ _ (ki_sync _ _ _ _ H1) (WMpf i)) as Hr.
    assert (waitq s1 (WMpf i) = w_que x) as Eq by (simpl in *; by rewrite Ex). rewrite Eq in Hr.
    apply qrep_empty in Hr. destruct (queue_is_empty (w_que x)).
    - destruct Hr as [Hr _]. specialize (Hr eq_refl). apply fmap_nil_inv in Hr. rewrite Hr in HQ. apply wp_ret, HQ.
      + eapply kinv0_ext; [|exact H1]. intros k. destruct (decide (k = WMpf i)) as [->|].
        * by rewrite fn_lookup_insert.
        * by rewrite fn_lookup_insert_ne.
      + split; try done; [|apply told_nil]. exists (w_que x). by apply requeued_refl.
    - eapply (wp_q_drain _ _ _ s1 _ _ _ i x); [exact del_mpf_wakes|exact H1|exact Ex| |exact HQ].
      pose proof (wait_length _ _ _ _ (WMpf i) H1). unfold tq_fuel. cbn [w_key mpf_wait]. lia. }
  apply wp_bind, Hloop. intros s2 H2 [D1 _ D2 D7 D3 (q & [_ _ _ D4]) D6 _]. rewrite Ei'. apply wp_bind, wp_modify.
  pose proof (kinv0_close (X := mpfpool_t) s2 _ _ _ i H2 Hi (fn_lookup_insert _ _ _)) as H3.
  eapply (wp_finish s _ A (mk_ak _ _ _ _)); [done|exact D3|done|exact H3|by unfold masked; cbn; rewrite D1|].
  intros s' HI' _ Him [_ _ _ Hmp] _ _ _. split_and!; [done|done|done|]. rewrite Hmp. cbn. by rewrite D4.
Qed.

(** Creation: an empty pool. *)
Lemma wp_cre_mpf s A id pk :
  impl s A -> bad_mpfid id = false -> nz (c_blksz pk) = true -> 0 < c_mpf pk -> c_mpf pk mod 4 = 0 ->
  0 <= c_blkcnt pk -> 0 <= c_blksz pk < 2 ^ 31 ->
  mp_base (c_mpf pk) + c_blkcnt pk * stride (ALIGN32 (c_blksz pk)) < 2 ^ 32 ->
  wp (cre_mpf_sys id (Some pk)) (fun r s' =>
    let i := Z.to_nat (id - 1) in
    let x := mk_mpf (c_mpfatr pk) (c_blkcnt pk) (ALIGN32 (c_blksz pk)) (c_mpf pk) null_queue in
    imask (k_int s') = imask (k_int s) /\ impl s' A /\
    if Z.testbit (mpfbmap (k_mpl s)) (Z.of_nat i) then r = Done E_OBJ else
    r = Done E_OK /\ mpf_pool (k_mpl s') !! i = Some x /\ mpf_ok s' x 0 [] /\
    mpfbmap (k_mpl s') = setbit (mpfbmap (k_mpl s)) (Z.of_nat i)) s.
Proof.
  intros HI Eb Hnz Hb Hbm Hc Hs Hr. unfold cre_mpf_sys. rewrite Eb, Hnz. cbn [negb].
  apply wp_bind, wp_cli, wp_bind, wp_gets.
  pose proof (bad_mpfid_false id Eb) as Hid. pose proof (obj_bit (X := mpfpool_t) s id Hid) as Hbit.
  cbn [w_bmap mpf_wait] in Hbit. cbn [k_mpl cli_state set_k_int]. rewrite Hbit. clear Hbit.
  set (i := Z.to_nat (id - 1)). assert (id - 1 = Z.of_nat i) as Ei by (unfold i; lia).
  assert (Z.of_nat i < CONFIG_MAX_FMPOOL) as Hi by (unfold i; cbn [w_max mpf_wait] in Hid; lia).
  destruct (Z.testbit (mpfbmap (k_mpl s)) (Z.of_nat i)) eqn:Ebit.
  { wp_steps. split_and!; [done| |done]. by apply impl_sti, impl_cli. }
  pose proof (kinv0_cli _ _ _ _ (proj1 (proj1 HI))) as H0.
  destruct (obj_slot (X := mpfpool_t) s i (ki_pools _ _ _ _ (proj1 (proj1 HI)))) as [x Ex]; [exact Hi|]. simpl in Ex.
  set (y := mk_mpf _ _ _ _ _).
  destruct (@kinv0_open mpfpool_t mpf_wait _ (cli_state s) _ _ _ i x y H0 Ex Hi) as [H1 _];
    [by simpl; rewrite Ebit|done|].
  assert (<[i := y]> (mpf_pool (k_mpl s)) !! i = Some y) as Ey.
  { apply list_lookup_insert_eq. by eapply lookup_lt_Some. }
  destruct (@kinv0_open mpfpool_t mpf_wait _ _ _ _ _ i y y H1) as [_ H2]; [exact Ey|done|by simpl; rewrite Ebit|done|].
  apply wp_bind. eapply wp_upd_obj; [exact Ex|]. apply wp_bind.
  eapply wp_upd_obj; [apply list_lookup_insert_eq; by eapply lookup_lt_Some|].
  cbn [w_pool w_set_pool mpf_wait k_mpl set_k_mpl set_mpf_pool mpf_pool]. rewrite list_insert_insert_eq.
  apply wp_bind. eapply wp_get_obj; [exact Ey|]. apply wp_bind, wp_kmem.
  assert (0 <= ALIGN32 (c_blksz pk) /\ ALIGN32 (c_blksz pk) mod 4 = 0) as [Ha1 Ha2].
  { unfold ALIGN32. rewrite u32_small by lia. change (u32 (Z.lnot 3)) with (Z.shiftl (Z.ones 30) 2). split.
    - apply Z.land_nonneg. left. lia.
    - change 4 with (2 ^ 2). rewrite <- Z.land_ones, <- Z.land_assoc by lia. change (Z.land _ (Z.ones 2)) with 0.
      by rewrite Z.land_0_r. }
  eapply wp_init_pool; [done..|]. intros m' HP _. apply wp_bind, wp_modify, wp_bind, wp_write_log; [apply HI|].
  intros l Hl. wp_steps. split_and!; [done| |done|exact Ey|exact HP|by rewrite Ei].
  eapply (impl_frame s); [done| |done|done]. apply (kinv0_sti (set_k_log _ _)), kinv0_log; [|done].
  rewrite Ei. exact (kinv0_mem _ _ _ _ m' H2).
Qed.
