(* ===== verification/Kernel.v ===== *)
(** * The kernel: system calls, interrupts and tasks together

    The system call table (blackfin/syscall_tab.S), the resumption of a task
    inside a system call, and the machine: tasks that call the kernel one at a
    time, resume, and are interrupted by the timer. *)

From Stdlib Require Import ZArith Lia.
From stdpp Require Import base tactics gmap option functions countable list.
From S2P Require Import Prelude Bits Queue Qfam Mem Mpool Kstate Tlsf Syslog Sched Timeout Dispatch.
From S2P Require Import Kinv Ktime Waitobj Task Semaphore Event Mailbox Mempool.

Open Scope Z_scope.
Open Scope kernel_scope.

(** ** The system call table *)

(** The entries of [_syscall_table] that the port implements, with their
    arguments. *)
Inductive syscall :=
  | Ccre_tsk (tskid : Z) (pk : option T_CTSK)
  | Cacre_tsk (pk : option T_CTSK)
  | Cdel_tsk (tskid : Z)
  | Cact_tsk (tskid : Z)
  | Ccan_act (tskid : Z)
  | Cext_tsk
  | Cexd_tsk
  | Cter_tsk (tskid : Z)
  | Cchg_pri (tskid tskpri : Z)
  | Cget_pri (tskid p_tskpri : Z)
  | Cref_tsk (tskid pk_rtsk : Z)
  | Cref_tst (tskid pk_rtst : Z)
  | Cslp_tsk
  | Ctslp_tsk (tmout : Z)
  | Cwup_tsk (tskid : Z)
  | Ccan_wup (tskid : Z)
  | Crel_wai (tskid : Z)
  | Ccre_sem (semid : Z) (pk : option T_CSEM)
  | Cacre_sem (pk : option T_CSEM)
  | Cdel_sem (semid : Z)
  | Csig_sem (semid : Z)
  | Cwai_sem (semid : Z)
  | Ctwai_sem (semid tmout : Z)
  | Ccre_flg (flgid : Z) (pk : option T_CFLG)
  | Cdel_flg (flgid : Z)
  | Cset_flg (flgid setptn : Z)
  | Cclr_flg (flgid clrptn : Z)
  | Cwai_flg (flgid waiptn wfmode p_flgptn : Z)
  | Ccre_mbx (mbxid : Z) (pk : option T_CMBX)
  | Cacre_mbx (pk : option T_CMBX)
  | Cdel_mbx (mbxid : Z)
  | Csnd_mbx (mbxid pk_msg : Z)
  | Crcv_mbx (mbxid ppk_msg : Z)
  | Ctrcv_mbx (mbxid ppk_msg tmout : Z)
  | Cref_mbx (mbxid pk_rmbx : Z)
  | Ccre_mpf (mpfid : Z) (pk : option T_CMPF)
  | Cdel_mpf (mpfid : Z)
  | Crel_mpf (mpfid blk : Z)
  | Cget_mpf (mpfid p_blk : Z)
  | Cget_tim (pk_tim : Z)
  | Ccre_mpl (mplid : Z) (pk : option T_CMPL)
  | Crel_mpl (mplid blk : Z)
  | Cget_mpl (mplid blksz p_blk : Z).

(** The function of the table, called with the interrupts enabled. *)
Definition exec (sc : syscall) : KM sysres :=
  match sc with
  | Ccre_tsk id pk => cre_tsk_sys id pk
  | Cacre_tsk pk => acre_tsk_sys pk
  | Cdel_tsk id => del_tsk_sys id
  | Cact_tsk id => act_tsk_sys id
  | Ccan_act id => can_act_sys id
  | Cext_tsk => ext_tsk_sys
  | Cexd_tsk => exd_tsk_sys
  | Cter_tsk id => ter_tsk_sys id
  | Cchg_pri id pri => chg_pri_sys id pri
  | Cget_pri id p => get_pri_sys id p
  | Cref_tsk id p => ref_tsk_sys id p
  | Cref_tst id p => ref_tst_sys id p
  | Cslp_tsk => slp_tsk_sys
  | Ctslp_tsk tmo => tslp_tsk_sys tmo
  | Cwup_tsk id => wup_tsk_sys id
  | Ccan_wup id => can_wup_sys id
  | Crel_wai id => rel_wai_sys id
  | Ccre_sem id pk => cre_sem_sys id pk
  | Cacre_sem pk => acre_sem_sys pk
  | Cdel_sem id => del_sem_sys id
  | Csig_sem id => sig_sem_sys id
  | Cwai_sem id => wai_sem_sys id
  | Ctwai_sem id tmo => twai_sem_sys id tmo
  | Ccre_flg id pk => cre_flg_sys id pk
  | Cdel_flg id => del_flg_sys id
  | Cset_flg id p => set_flg_sys id p
  | Cclr_flg id p => clr_flg_sys id p
  | Cwai_flg id w m p => wai_flg_sys id w m p
  | Ccre_mbx id pk => cre_mbx_sys id pk
  | Cacre_mbx pk => acre_mbx_sys pk
  | Cdel_mbx id => del_mbx_sys id
  | Csnd_mbx id p => snd_mbx_sys id p
  | Crcv_mbx id p => rcv_mbx_sys id p
  | Ctrcv_mbx id p tmo => trcv_mbx_sys id p tmo
  | Cref_mbx id p => ref_mbx_sys id p
  | Ccre_mpf id pk => cre_mpf_sys id pk
  | Cdel_mpf id => del_mpf_sys id
  | Crel_mpf id b => rel_mpf_sys id b
  | Cget_mpf id p => get_mpf_sys id p
  | Cget_tim p => get_tim_sys p
  | Ccre_mpl id pk => cre_mpl_sys id pk
  | Crel_mpl id b => rel_mpl_sys id b
  | Cget_mpl id sz p => get_mpl_sys id sz p
  end.

(** The code of a system call after its call of [scheduler()]. *)
Definition resume (k : kont) : KM (option Z) :=
  match k with
  | KReturn er => ret (Some er)
  | KExit => ret None
  | KWaiSem id => let* er := wai_sem_resume id in ret (Some er)
  | KTwaiSem id => let* er := twai_sem_resume id in ret (Some er)
  | KWaiFlg id => let* er := wai_flg_resume id in ret (Some er)
  | KRcvMbx id p => let* er := rcv_mbx_resume id p in ret (Some er)
  | KTrcvMbx id p tmo => let* er := trcv_mbx_resume id p tmo in ret (Some er)
  | KGetMpf p => let* er := get_mpf_resume p in ret (Some er)
  end.

(** ** The machine *)

(** The state of the kernel, and what each task does when it runs next: go on
    inside a system call, or run its own code. *)
Record machine := mk_machine {
  mk : kstate;
  conts : nat -> option kont
}.

(** What the task that called does next. *)
Definition after (c : nat) (r : sysres) (ks : nat -> option kont) : nat -> option kont :=
  match r with Cont k => <[c := Some k]> ks | _ => ks end.

(** The steps: a system call of the running task, the end of a system call of
    the running task, a timer interrupt. [allowed] restricts the calls. *)
Inductive step (allowed : kstate -> syscall -> Prop) : machine -> machine -> Prop :=
  | step_call s ks c sc r s' :
      current_task (k_sched s) = Some c -> ~ is_idle s c -> ks c = None -> allowed s sc ->
      exec sc s = Some (r, s') -> step allowed (mk_machine s ks) (mk_machine s' (after c r ks))
  | step_resume s ks c k er s' :
      current_task (k_sched s) = Some c -> ks c = Some k ->
      resume k s = Some (er, s') -> step allowed (mk_machine s ks) (mk_machine s' (<[c := None]> ks))
  | step_timer s ks s' :
      nz (imask (k_int s)) = true -> evt_timer s = Some (tt, s') ->
      step allowed (mk_machine s ks) (mk_machine s' ks).

Definition reachable (allowed : kstate -> syscall -> Prop) : machine -> machine -> Prop := rtc (step allowed).

(** ** The invariant of the machine *)

(** The calls whose every use keeps the queues consistent, whatever the state
    of the memory. Left out are the timed waits on an object, which put a task
    in two queues, [rel_wai], which takes it out of none, and a change of the
    priority of the idle task; and the mailboxes, whose theorems assume the
    invariant of the message pool. *)
Definition covered (s : kstate) (sc : syscall) : Prop :=
  match sc with
  | Cchg_pri id pri => ~ is_idle s (Z.to_nat (id - 1)) /\ 0 <= pri
  | Ctslp_tsk tmo => tmo < u32 (-1)
  | Ctwai_sem _ tmo => tmo = TMO_FEVR
  | Cwai_flg _ _ _ p => Z.land p 3 = 0
  | Crel_wai _ => False
  | Ccre_mbx _ _ | Cacre_mbx _ | Cdel_mbx _ | Csnd_mbx _ _ | Crcv_mbx _ _ | Ctrcv_mbx _ _ _ | Cref_mbx _ _ => False
  | _ => True
  end.

Lemma kernel_ok_intro s R W T : kinv s R W T -> kernel_ok s.
Proof. intros H. by exists R, W, T. Qed.

(** Every state of the invariant implements an abstract kernel. *)
Definition abstract (s : kstate) R W T : akernel := mk_ak (pri_of (task_pool (k_task s))) R W T.

Lemma abstract_impl s R W T : kinv s R W T -> impl s (abstract s R W T).
Proof. by split. Qed.

Lemma impl_ok s A : impl s A -> kernel_ok s.
Proof. intros [H _]. by eapply kernel_ok_intro. Qed.

Lemma task_call_ok s id r s' (Q : nat -> task_t -> Prop) : kernel_ok s -> task_call s id r s' Q ->
  (forall i t, Q i t -> kernel_ok s') -> kernel_ok s'.
Proof.
  intros (R & W & T & H) [_ Hc] HQ. destruct (bad_tskid id); [by destruct Hc as [_ ->]; eapply kernel_ok_intro|].
  destruct Hc as [(_ & _ & ->)|(_ & t & _ & Hq)]; [|by eapply HQ].
  by eapply kernel_ok_intro, kinv_sti, kinv_cli.
Qed.

(** Running a routine of the memory or of the allocator changes no queue. *)
Lemma wlp_kmem {A} (m : M (gmap Z Z) A) (Q : A -> kstate -> Prop) s :
  (forall a m', Q a (set_k_mem m' s)) -> wlp (kmem m) Q s.
Proof. intros HQ. unfold wlp, kmem, zoom. by destruct (m (k_mem s)) as [[a m']|]. Qed.

Lemma wlp_ktlsf {A} (m : TM A) (Q : A -> kstate -> Prop) s :
  (forall a m' p, Q a (set_k_setup p (set_k_mem m' s))) -> wlp (ktlsf m) Q s.
Proof.
  intros HQ. unfold wlp, ktlsf, zoom. destruct (m _) as [[a t]|]; [|done]. apply (HQ a (t_mem t)).
Qed.

Lemma kinv0_setup s R W T p : kinv0 s R W T -> kinv0 (set_k_setup p s) R W T.
Proof.
  intros H. eapply kinv0_frame; [exact H|by split|by split|exact (pool_step_refl s R)|apply H|apply H].
Qed.

Lemma kinv_frame s s' R W T : kinv s R W T -> kinv0 s' R W T -> k_sched s' = k_sched s -> kinv s' R W T.
Proof. intros [_ (c & Ec & Hc)] H' Hs. split; [done|]. exists c. unfold is_idle. by rewrite Hs. Qed.

(** The fixed-size and variable-sized memory pools. *)
Lemma wlp_existing {X} `{!WaitPool X} `{!WaitPoolOk X} s id g (k : KM sysres) (Q : sysres -> kstate -> Prop) :
  kernel_ok s -> 1 <= id <= w_max -> (forall s, g s = w_bmap s) ->
  (forall s', kernel_ok s' -> forall r, Q r s') ->
  (forall i x, i = Z.to_nat (id - 1) -> id - 1 = Z.of_nat i -> Z.of_nat i < w_max -> w_pool s !! i = Some x ->
     open_obj s (w_key i) -> wlp k Q (cli_state s)) ->
  wlp (hw_cli ;;;
       let* bm := gets g in
       if negb (nz (isbitset bm (id - 1))) then hw_sti ;;; ret (Done E_NOEXS) else k) Q s.
Proof.
  intros (R & W & T & H) Hid Hg HN HK.
  apply wlp_bind, wp_wlp, wp_cli, wlp_bind, wp_wlp, wp_gets. rewrite Hg, (w_bmap_objs s) by done.
  rewrite obj_bit by done. set (i := Z.to_nat (id - 1)) in *.
  destruct (obj_slot s i (ki_pools _ _ _ _ (proj1 H))) as [x Ex]; [lia|].
  destruct (Z.testbit (w_bmap s) (Z.of_nat i)) eqn:Eb; cbn [negb].
  - apply (HK i x); [done|lia|lia|done|by apply w_bit].
  - apply wp_wlp. wp_steps. apply HN. by eapply kernel_ok_intro, (kinv_sti (cli_state s)), kinv_cli.
Qed.

Lemma wlp_get_mpf s c id p :
  kernel_ok s -> current_task (k_sched s) = Some c -> ~ is_idle s c ->
  wlp (get_mpf_sys id p) (fun _ s' => kernel_ok s') s.
Proof.
  intros Hk Hcur Hni. unfold get_mpf_sys. destruct (bad_mpfid id) eqn:Eb; [by apply wlp_ret|].
  destruct (nz p); [|by apply wlp_ret]. cbn [negb].
  eapply (wlp_existing (X := mpfpool_t)); [done|by apply bad_mpfid_false|done|done|].
  intros i x -> Ei Hi Ex Ho. destruct Hk as (R & W & T & Hk). pose proof (abstract_impl s R W T Hk) as HI.
  apply wlp_bind, wp_wlp. eapply wp_get_obj; [exact Ex|]. apply wlp_bind, wlp_kmem. intros blk m'.
  set (s1 := set_k_mem m' (cli_state s)).
  assert (kinv0 s1 R W T) as H1 by apply kinv0_mem, kinv0_cli, Hk.
  destruct (nz blk); cbn [negb].
  - apply wlp_bind, wlp_kmem. intros _ m2. apply wp_wlp. wp_steps. eapply kernel_ok_intro, (kinv_sti (set_k_mem m2 s1)).
    eapply kinv_frame; [exact Hk|by apply kinv0_mem|done].
  - apply wp_wlp, wp_bind. eapply wp_get_current; [exact Hcur|]. pose proof (impl_cur s _ c HI Hcur Hni) as Hc.
    eapply wp_seq4, (wp_q_block s1 _ _ _ c (pri_of (task_pool (k_task s)) c) _ x); [exact H1|exact Hc|exact Ex|exact Ho|done|].
    intros s2 q t H2 Hi2 Hc2 Hm2 _ _ _ _ Hke2 _.
    eapply wp_sti_scheduler; [exact H2|done|]. intros s' c' d Hk' _ _ _ _ _. by eapply kernel_ok_intro.
Qed.

Lemma wlp_rel_mpf s id blk : kernel_ok s -> wlp (rel_mpf_sys id blk) (fun _ s' => kernel_ok s') s.
Proof.
  intros Hk. unfold rel_mpf_sys. destruct (bad_mpfid id) eqn:Eb; [by apply wlp_ret|].
  destruct (nz blk); [|by apply wlp_ret]. cbn [negb].
  eapply (wlp_existing (X := mpfpool_t)); [done|by apply bad_mpfid_false|done|done|].
  intros i x -> Ei Hi Ex Ho. destruct Hk as (R & W & T & Hk). set (i := Z.to_nat (id - 1)) in *.
  apply wlp_bind, wp_wlp. eapply wp_get_obj; [exact Ex|]. destruct (_ || _).
  { apply wp_wlp. wp_steps. by eapply kernel_ok_intro, (kinv_sti (cli_state s)), kinv_cli. }
  pose proof (kinv0_cli _ _ _ _ (proj1 Hk)) as H0. apply wlp_bind.
  assert (forall s2 R2 W2, kinv0 s2 R2 W2 T ->
    wlp (hw_sti ;;; scheduler ;;; ret (Cont (KReturn E_OK))) (fun _ s' => kernel_ok s') s2) as Hfin.
  { intros s2 R2 W2 H2. apply wp_wlp. eapply wp_sti_scheduler; [exact H2|done|].
    intros s' c' d Hk' _ _ _ _ _. by eapply kernel_ok_intro. }
  pose proof (qf_rep _ _ _ _ (ki_sync _ _ _ _ H0) (WMpf i)) as Hr.
  assert (waitq (cli_state s) (WMpf i) = mpfque x) as Eq by (simpl in *; by rewrite Ex). rewrite Eq in Hr.
  apply qrep_empty in Hr. destruct (W (WMpf i)) as [|c ws] eqn:Ew.
  - destruct Hr as [_ ->]; [|done]. cbn [negb]. apply wlp_kmem. intros _ m'.
    eapply Hfin, kinv0_mem, H0.
  - destruct (queue_is_empty (mpfque x)); [by destruct Hr as [Hr _]; specialize (Hr eq_refl)|]. cbn [negb].
    apply wp_wlp, wp_bind, wp_write_log; [apply Hk|]. intros l Hl. set (s1 := set_k_log l (cli_state s)).
    assert (kinv0 s1 R W T) as H1 by (by apply kinv0_log).
    apply wp_bind. eapply (wp_q_extract s1); [apply H1|exact Ex|]. cbn [w_key mpf_wait]. rewrite Ew.
    intros m q Hup Hsy. apply wp_bind, wp_ret. cbn [deref].
    destruct (waiting_task _ _ _ _ (WMpf i) c H1) as [HL [t Et]]; [rewrite Ew; left|].
    pose proof (enqueued_q0 s1 m i x (w_set_que q x) (ki_pools _ _ _ _ H1) (ki_log _ _ _ _ H1) Hup Ex) as He.
    eapply (wp_wake s1 _ _ _ _ c t (WMpf i) ws (set_extdat blk) H1 He);
      [by eapply dequeues_head; [apply H1|]|exact Hsy|exact Et| |done..|].
    { apply (waiting_stat s1 _ _ _ (WMpf i) c t H1); [rewrite Ew; left|done]. }
    intros s2 H2 _ _. by eapply Hfin.
Qed.

Lemma wlp_cre_mpf s id pk : kernel_ok s -> wlp (cre_mpf_sys id pk) (fun _ s' => kernel_ok s') s.
Proof.
  intros Hk. unfold cre_mpf_sys. destruct (bad_mpfid id) eqn:Eb; [by apply wlp_ret|].
  destruct pk as [pk|]; [|by apply wlp_ret]. destruct (nz (c_blksz pk)); [|by apply wlp_ret]. cbn [negb].
  destruct Hk as (R & W & T & Hk). apply wlp_bind, wp_wlp, wp_cli, wlp_bind, wp_wlp, wp_gets.
  pose proof (bad_mpfid_false id Eb) as Hid. pose proof (obj_bit (X := mpfpool_t) s id Hid) as Hbit.
  cbn [w_bmap mpf_wait] in Hbit. cbn [k_mpl cli_state set_k_int]. rewrite Hbit. clear Hbit.
  set (i := Z.to_nat (id - 1)). assert (id - 1 = Z.of_nat i) as Ei by (unfold i; lia).
  assert (Z.of_nat i < CONFIG_MAX_FMPOOL) as Hi by (unfold i; cbn [w_max mpf_wait] in Hid; lia).
  destruct (Z.testbit (mpfbmap (k_mpl s)) (Z.of_nat i)) eqn:Ebit.
  { apply wp_wlp. wp_steps. by eapply kernel_ok_intro, (kinv_sti (cli_state s)), kinv_cli. }
  pose proof (kinv0_cli _ _ _ _ (proj1 Hk)) as H0.
  destruct (obj_slot (X := mpfpool_t) s i (ki_pools _ _ _ _ (proj1 Hk))) as [x Ex]; [exact Hi|]. simpl in Ex.
  set (y := mk_mpf (c_mpfatr pk) (c_blkcnt pk) (ALIGN32 (c_blksz pk)) (c_mpf pk) null_queue).
  destruct (@kinv0_open mpfpool_t mpf_wait _ (cli_state s) _ _ _ i x y H0 Ex Hi) as [H1 _];
    [by simpl; rewrite Ebit|done|].
  assert (<[i := y]> (mpf_pool (k_mpl s)) !! i = Some y) as Ey.
  { apply list_lookup_insert_eq. by eapply lookup_lt_Some. }
  destruct (@kinv0_open mpfpool_t mpf_wait _ _ _ _ _ i y y H1) as [_ H2]; [exact Ey|done|by simpl; rewrite Ebit|done|].
  apply wlp_bind, wp_wlp. eapply wp_upd_obj; [exact Ex|]. apply wlp_bind, wp_wlp.
  eapply wp_upd_obj; [apply list_lookup_insert_eq; by eapply lookup_lt_Some|].
  cbn [w_pool w_set_pool mpf_wait k_mpl set_k_mpl set_mpf_pool mpf_pool]. rewrite list_insert_insert_eq.
  apply wlp_bind, wp_wlp. eapply wp_get_obj; [exact Ey|]. apply wlp_bind, wlp_kmem. intros _ m'.
  apply wp_wlp, wp_bind, wp_modify, wp_bind, wp_write_log; [apply Hk|]. intros l Hl. wp_steps.
  eapply kernel_ok_intro, (kinv_sti (set_k_log _ _)), kinv_log; [|done]. rewrite Ei.
  eapply kinv_frame; [exact Hk|exact (kinv0_mem _ _ _ _ m' H2)|done].
Qed.

Lemma wlp_get_mpl_slot i s (Q : mplpool_t -> kstate -> Prop) : (forall p, Q p s) -> wlp (get_mpl i) Q s.
Proof. intros HQ. unfold wlp, get_mpl, bind, gets, deref, ret, fault. by destruct (mpl_pool (k_mpl s) !! i). Qed.

Lemma wlp_get_task i s (Q : task_t -> kstate -> Prop) : (forall t, Q t s) -> wlp (get_task i) Q s.
Proof. intros HQ. unfold wlp, get_task, bind, gets, deref, ret, fault. by destruct (task_pool (k_task s) !! i). Qed.

(** A masked section that runs the allocator. *)
Lemma masked_ok s R W T p m : kinv s R W T -> kernel_ok (sti_state (set_k_setup p (set_k_mem m (cli_state s)))).
Proof.
  intros H. eapply kernel_ok_intro, kinv_sti, kinv_frame; [exact H| |done].
  by apply kinv0_setup, kinv0_mem, kinv0_cli, H.
Qed.

Lemma wlp_get_mpl s id sz p : kernel_ok s -> wlp (get_mpl_sys id sz p) (fun _ s' => kernel_ok s') s.
Proof.
  intros Hk. unfold get_mpl_sys. destruct ((id <? 1) || _); [by apply wlp_ret|]. destruct (nz p); [|by apply wlp_ret].
  destruct Hk as (R & W & T & Hk). cbn [negb]. apply wlp_bind, wp_wlp, wp_cli, wlp_bind, wlp_get_mpl_slot. intros x.
  case_match.
  - apply wp_wlp. wp_steps. by eapply kernel_ok_intro, (kinv_sti (cli_state s)), kinv_cli.
  - apply wlp_bind, wlp_ktlsf. intros blk m q. apply wlp_bind, wlp_kmem. intros _ m'. apply wp_wlp. wp_steps.
    exact (masked_ok s R W T q m' Hk).
Qed.

Lemma wlp_rel_mpl s id blk : kernel_ok s -> wlp (rel_mpl_sys id blk) (fun _ s' => kernel_ok s') s.
Proof.
  intros Hk. unfold rel_mpl_sys. destruct ((id <? 1) || _); [by apply wlp_ret|]. case_match; [by apply wlp_ret|].
  destruct Hk as (R & W & T & Hk). apply wlp_bind, wp_wlp, wp_cli, wlp_bind, wlp_get_mpl_slot. intros x.
  apply wlp_bind, wlp_ktlsf. intros _ m q. apply wp_wlp. wp_steps. exact (masked_ok s R W T q m Hk).
Qed.

Lemma kinv0_mpl s R W T r : kinv0 s R W T -> mpfbmap r = mpfbmap (k_mpl s) -> mpf_pool r = mpf_pool (k_mpl s) ->
  kinv0 (set_k_mpl r s) R W T.
Proof.
  intros H E1 E2. eapply (kinv0_objs s); [exact H|done|done|done|done|apply H| | |].
  - destruct (ki_pools _ _ _ _ H). split; simpl; rewrite ?E1, ?E2; done.
  - intros []; try done. simpl. by rewrite E2.
  - intros k j Hj. pose proof (pl_open _ _ _ _ (ki_places _ _ _ _ H) k j Hj). destruct k; try done. simpl. by rewrite E1.
Qed.

Lemma wlp_cre_mpl s id pk : kernel_ok s -> wlp (cre_mpl_sys id pk) (fun _ s' => kernel_ok s') s.
Proof.
  intros Hk. unfold cre_mpl_sys. destruct ((id <? 1) || _); [by apply wlp_ret|]. destruct pk as [pk|]; [|by apply wlp_ret].
  destruct (nz (c_mpl pk)); [|by apply wlp_ret]. destruct Hk as (R & W & T & Hk). cbn [negb].
  apply wlp_bind, wp_wlp, wp_cli, wlp_bind, wp_wlp, wp_gets. case_match.
  { apply wp_wlp. wp_steps. by eapply kernel_ok_intro, (kinv_sti (cli_state s)), kinv_cli. }
  apply wlp_bind, wlp_get_mpl_slot. intros x. apply wlp_bind, wp_wlp, wp_modify, wlp_bind, wlp_ktlsf.
  intros _ m q. apply wp_wlp. wp_steps.
  eapply kernel_ok_intro, (kinv_sti (set_k_setup _ _)), kinv_frame; [exact Hk| |done].
  apply kinv0_setup, (kinv0_mem (set_k_mpl _ _)), kinv0_mpl; [apply kinv0_cli, Hk|done|done].
Qed.

Lemma wlp_get_tim s p : kernel_ok s -> wlp (get_tim_sys p) (fun _ s' => kernel_ok s') s.
Proof.
  intros Hk. unfold get_tim_sys. case_match; [by apply wlp_ret|]. case_match; [by apply wlp_ret|].
  destruct Hk as (R & W & T & Hk). apply wlp_bind, wp_wlp, wp_cli, wlp_bind, wp_wlp, wp_gets.
  apply wlp_bind, wlp_kmem. intros _ m1. apply wlp_bind, wlp_kmem. intros _ m2. apply wp_wlp. wp_steps.
  exact (masked_ok s R W T (k_setup s) m2 Hk).
Qed.

(** [ref_tsk] and [ref_tst] return [E_ID] or [E_PAR], or write through NULL. *)
Lemma wlp_ref_tsk s id p : kernel_ok s -> wlp (ref_tsk_sys id p) (fun _ s' => kernel_ok s') s.
Proof.
  intros Hk. unfold ref_tsk_sys. destruct (bad_tskid id) eqn:Eb; [by apply wlp_ret|].
  destruct (nz p) eqn:Ep; cbn [Z.eqb TSK_SELF]; [by apply wlp_ret|]. destruct Hk as (R & W & T & Hk).
  apply wlp_bind, wp_wlp, wp_cli, wlp_bind, wp_wlp. apply wp_pick_task; [by eapply ki_tasks, kinv0_cli, Hk|done| |].
  - intros _. apply wlp_ret. by eapply kernel_ok_intro, (kinv_sti (cli_state s)), kinv_cli.
  - intros t _ Et. apply wlp_bind, wp_wlp. eapply wp_get_task; [exact Et|]. apply wlp_bind.
    unfold wlp, kmem, zoom, store, valid_addr. by rewrite Ep.
Qed.

Lemma wlp_ref_tst s id p : kernel_ok s -> wlp (ref_tst_sys id p) (fun _ s' => kernel_ok s') s.
Proof.
  intros Hk. unfold ref_tst_sys. destruct (bad_tskid id) eqn:Eb; [by apply wlp_ret|].
  destruct (nz p) eqn:Ep; cbn [Z.eqb TSK_SELF]; [by apply wlp_ret|]. destruct Hk as (R & W & T & Hk).
  apply wlp_bind, wp_wlp, wp_cli, wlp_bind, wp_wlp. apply wp_pick_task; [by eapply ki_tasks, kinv0_cli, Hk|done| |].
  - intros _. apply wlp_ret. by eapply kernel_ok_intro, (kinv_sti (cli_state s)), kinv_cli.
  - intros t _ Et. apply wlp_bind, wp_wlp. eapply wp_get_task; [exact Et|]. apply wlp_bind.
    unfold wlp, kmem, zoom, store, valid_addr. by rewrite Ep.
Qed.

(** [ter_tsk] changes no queue; when it gets to the end of its body the
    interrupts stay masked. *)
Lemma wlp_ter_tsk s id : kernel_ok s -> wlp (ter_tsk_sys id) (fun _ s' => kernel_ok s') s.
Proof.
  intros Hk. unfold ter_tsk_sys. destruct (bad_tskid id) eqn:Eb; [by apply wlp_ret|].
  case_match; [by apply wlp_ret|]. destruct Hk as (R & W & T & Hk).
  assert (kernel_ok (sti_state (cli_state s))) as Hs by (by eapply kernel_ok_intro, kinv_sti, kinv_cli).
  apply wlp_bind, wp_wlp, wp_cli, wlp_bind, wp_wlp, wp_gets. case_match; [by apply wp_wlp; wp_steps|].
  apply wlp_bind, wlp_get_task. intros t. case_match; [by apply wp_wlp; wp_steps|].
  apply wlp_ret. by eapply kernel_ok_intro, kinv_cli.
Qed.

(** ** Resuming *)

(** The end of a system call that only writes the log, the memory and the
    task. *)
Lemma resume_ok s k er s' : kernel_ok s ->
  (forall id p tmo, k <> KRcvMbx id p /\ k <> KTrcvMbx id p tmo /\ k <> KTwaiSem id) ->
  resume k s = Some (er, s') -> kernel_ok s'.
Proof.
  intros (R & W & T & Hk) Hno E.
  assert (wlp (resume k) (fun _ s' => kernel_ok s') s) as Hw; [|by eapply wlp_elim in Hw].
  assert (forall m l, log_ok l -> kernel_ok (sti_state (set_k_mem m (set_k_log l (cli_state s))))) as Hok.
  { intros m l Hl. eapply kernel_ok_intro, kinv_sti, kinv_frame; [exact Hk| |done].
    by apply kinv0_mem, kinv0_log; [apply kinv0_cli, Hk|]. }
  assert (kernel_ok (sti_state (cli_state s))) as Hs by (by eapply kernel_ok_intro, kinv_sti, kinv_cli).
  destruct (ki_cur _ _ _ _ (proj1 Hk)) as (c & Ec & t & Et).
  destruct k as [er'| |id|id|id|id p|id p tmo|p]; cbn [resume].
  - by eapply wlp_ret, kernel_ok_intro.
  - by eapply wlp_ret, kernel_ok_intro.
  - apply wp_wlp, wp_bind, wp_bind, wp_cli, wp_bind. eapply wp_get_current; [exact Ec|]. apply wp_bind.
    eapply wp_get_task; [exact Et|]. destruct (wobjid t =? E_DLT); [by wp_steps|].
    apply wp_bind, wp_write_log; [apply Hk|]. intros l Hl. wp_steps. exact (Hok (k_mem s) l Hl).
  - by destruct (Hno id 0 0) as (_ & _ & ?).
  - apply wp_wlp, wp_bind, wp_bind, wp_cli, wp_bind. eapply wp_get_current; [exact Ec|]. apply wp_bind.
    eapply wp_get_task; [exact Et|]. destruct (wobjid t =? E_DLT); (apply wp_bind, wp_write_log; [apply Hk|]);
      intros l Hl; wp_steps; exact (Hok (k_mem s) l Hl).
  - by destruct (Hno id p 0) as (? & _).
  - by destruct (Hno id p tmo) as (_ & ? & _).
  - unfold get_mpf_resume. apply wlp_bind, wlp_bind, wp_wlp, wp_cli, wlp_bind, wp_wlp.
    eapply wp_get_current; [exact Ec|]. apply wlp_bind, wp_wlp. eapply wp_get_task; [exact Et|].
    destruct (wobjid t =? E_DLT); [by apply wp_wlp; wp_steps|]. apply wlp_bind, wlp_kmem. intros _ m. apply wp_wlp. wp_steps.
    exact (Hok m (k_log s) (ki_log _ _ _ _ (proj1 Hk))).
Qed.

(** ** Calling *)

(** A semaphore, event flag or memory pool operation leaves a state that
    implements some abstract kernel. *)
Lemma sem_impl_ok s A S : sem_impl s A S -> kernel_ok s.
Proof. intros [H _]. by eapply impl_ok. Qed.

Lemma flg_impl_ok s A F : flg_impl s A F -> kernel_ok s.
Proof. intros [H _]. by eapply impl_ok. Qed.

Lemma sem_impl_of s R W T : kinv s R W T -> sem_impl s (abstract s R W T) (sem_view (k_sem s)).
Proof. intros H. split; [by apply abstract_impl|done]. Qed.

Lemma flg_impl_of s R W T : kinv s R W T -> flg_impl s (abstract s R W T) (flg_view (k_flg s)).
Proof. intros H. split; [by apply abstract_impl|done]. Qed.

#[local] Hint Resolve sem_impl_ok flg_impl_ok impl_ok kernel_ok_intro : kernel.

(** The calls on tasks. *)
Lemma exec_task_ok s c id sc :
  kernel_ok s -> current_task (k_sched s) = Some c -> ~ is_idle s c ->
  sc ∈ [Cdel_tsk id; Cact_tsk id; Ccan_act id; Ccan_wup id; Cext_tsk; Cexd_tsk; Cslp_tsk] ->
  wp (exec sc) (fun _ s' => kernel_ok s') s.
Proof.
  intros Hk Hcur Hni Hin. pose proof Hk as (R & W & T & H).
  repeat (apply elem_of_cons in Hin; destruct Hin as [->|Hin]); [..|by apply elem_of_nil in Hin]; cbn [exec].
  - eapply wp_mono; [by eapply wp_del_tsk|]. intros r s' Hc. eapply task_call_ok; [done|exact Hc|].
    intros i t [HK _]. by eapply kernel_ok_intro.
  - eapply wp_mono; [by eapply wp_act_tsk|]. intros r s' Hc. eapply task_call_ok; [done|exact Hc|].
    intros i t (_ & _ & HK & _). by eapply kernel_ok_intro.
  - eapply wp_mono; [by eapply wp_can_act|]. intros r s' Hc. eapply task_call_ok; [done|exact Hc|].
    intros i t (_ & HK & _). by eapply kernel_ok_intro.
  - eapply wp_mono; [by eapply wp_can_wup|]. intros r s' Hc. eapply task_call_ok; [done|exact Hc|].
    intros i t (_ & HK & _). by eapply kernel_ok_intro.
  - eapply wp_mono; [by eapply wp_ext_tsk|]. intros r s' (p & _ & _ & _ & _ & HK & _). by eapply kernel_ok_intro.
  - eapply wp_mono; [by eapply wp_exd_tsk|]. intros r s' (p & _ & _ & _ & _ & HK & _). by eapply kernel_ok_intro.
  - eapply wp_mono; [by eapply wp_slp_tsk|]. intros r s' (p & _ & _ & _ & HK & _). by eapply kernel_ok_intro.
Qed.

Lemma exec_tslp_ok s c tmo :
  kernel_ok s -> current_task (k_sched s) = Some c -> ~ is_idle s c -> tmo < u32 (-1) ->
  wp (tslp_tsk_sys tmo) (fun _ s' => kernel_ok s') s.
Proof.
  intros Hk Hcur Hni Ht. pose proof Hk as (R & W & T & H). destruct (Z.ltb_spec tmo 1) as [Hl|Hl].
  - unfold tslp_tsk_sys. destruct (Z.eqb_spec tmo TMO_FEVR).
    { eapply wp_mono; [by eapply wp_slp_tsk|]. intros r s' (p & _ & _ & _ & HK & _). by eapply kernel_ok_intro. }
    destruct (Z.eqb_spec tmo TMO_POL) as [->|_]; [by unfold TMO_POL in Ht; lia|].
    destruct (Z.ltb_spec tmo 1); [by apply wp_ret|lia].
  - eapply wp_mono; [eapply wp_tslp_tsk; [exact H|exact Hcur|exact Hni|done]|].
    intros r s' (p & t & _ & _ & _ & _ & HK & _). by eapply kernel_ok_intro.
Qed.

Lemma exec_get_pri_ok s id ptr : kernel_ok s -> wp (get_pri_sys id ptr) (fun _ s' => kernel_ok s') s.
Proof.
  intros Hk. pose proof Hk as (R & W & T & H).
  eapply wp_mono; [by eapply wp_get_pri|]. intros r s' Hc. cbv beta in Hc.
  destruct (bad_tskid id) eqn:Eb; [by destruct Hc as [_ ->]|].
  destruct (valid_addr ptr); [|by destruct Hc as [_ ->]].
  eapply task_call_ok; [done|exact Hc|]. intros i t [HK _]. by eapply kernel_ok_intro.
Qed.

Lemma exec_chg_pri_ok s id pri : kernel_ok s -> ~ is_idle s (Z.to_nat (id - 1)) -> 0 <= pri ->
  wp (chg_pri_sys id pri) (fun _ s' => kernel_ok s') s.
Proof.
  intros Hk Hni Hp. pose proof Hk as (R & W & T & H).
  eapply wp_mono; [by eapply wp_chg_pri|]. intros r s' Hc. cbv beta zeta in Hc.
  destruct (bad_tskid id) eqn:Eb; [by destruct Hc as [_ ->]|].
  destruct (pri >? MIN_TASK_PRIORITY); [by destruct Hc as [_ ->]|].
  eapply task_call_ok; [done|exact Hc|]. intros i t [_ HK].
  destruct (tskstat t =? TTS_RDY); destruct HK as [HK _]; by eapply kernel_ok_intro.
Qed.

Lemma exec_cre_tsk_ok s id pk : kernel_ok s -> wlp (cre_tsk_sys id pk) (fun _ s' => kernel_ok s') s.
Proof.
  intros Hk. pose proof Hk as (R & W & T & H).
  eapply wlp_mono; [by eapply wlp_cre_tsk|]. intros r s' [_ Hc]. cbv beta zeta in Hc.
  destruct (bad_tskid id); [by destruct Hc as [_ ->]|]. destruct pk as [pk|]; [|by destruct Hc as [_ ->]].
  destruct (bad_ctsk pk); [by destruct Hc as [_ ->]|].
  destruct Hc as [(_ & _ & HK)|(_ & _ & HK & _)]; by eapply kernel_ok_intro.
Qed.

Lemma exec_acre_tsk_ok s pk : kernel_ok s -> wlp (acre_tsk_sys pk) (fun _ s' => kernel_ok s') s.
Proof.
  intros Hk. pose proof Hk as (R & W & T & H).
  eapply wlp_mono; [by eapply wlp_acre_tsk|]. intros r s' [_ Hc]. cbv beta zeta in Hc.
  destruct pk as [pk|]; [|by destruct Hc as [_ ->]]. destruct (_ || _); [by destruct Hc as [_ ->]|].
  destruct Hc as [(_ & HK & _)|(i & _ & _ & _ & _ & HK & _)]; by eapply kernel_ok_intro.
Qed.

(** The calls on semaphores. *)
Lemma exec_sem_ok s c id pk sc :
  kernel_ok s -> current_task (k_sched s) = Some c -> ~ is_idle s c ->
  sc ∈ [Ccre_sem id pk; Cacre_sem pk; Cdel_sem id; Csig_sem id; Cwai_sem id] ->
  wp (exec sc) (fun _ s' => kernel_ok s') s.
Proof.
  intros Hk Hcur Hni Hin. pose proof Hk as (R & W & T & H). pose proof (sem_impl_of _ _ _ _ H) as HS.
  repeat (apply elem_of_cons in Hin; destruct Hin as [->|Hin]); [..|by apply elem_of_nil in Hin]; cbn [exec].
  - eapply wp_mono; [by eapply wp_cre_sem|]. intros r s' [_ Hc]. cbv beta zeta in Hc.
    repeat case_match; destruct_and?; subst; eauto with kernel.
  - eapply wp_mono; [by eapply wp_acre_sem|]. intros r s' [_ Hc]. cbv beta zeta in Hc.
    repeat case_match; destruct_and?; subst; try done.
    destruct Hc as [(_ & HK & _)|(i & _ & _ & _ & _ & HK)]; eauto with kernel.
  - eapply wp_mono; [by eapply wp_del_sem|]. intros r s' Hc. cbv beta zeta in Hc.
    repeat case_match; destruct_and?; subst; eauto with kernel.
  - eapply wp_mono; [by eapply wp_sig_sem|]. intros r s' Hc. cbv beta zeta in Hc.
    repeat case_match; destruct_and?; eauto with kernel.
  - eapply wp_mono; [by eapply wp_wai_sem|]. intros r s' Hc. cbv beta zeta in Hc.
    repeat case_match; destruct_and?; eauto with kernel.
Qed.

(** The calls on event flags, and the deletion of a memory pool. *)
Lemma exec_flg_ok s c id ptn mode p pk sc :
  kernel_ok s -> current_task (k_sched s) = Some c -> ~ is_idle s c -> Z.land p 3 = 0 ->
  sc ∈ [Ccre_flg id pk; Cdel_flg id; Cset_flg id ptn; Cclr_flg id ptn; Cwai_flg id ptn mode p; Cdel_mpf id] ->
  wp (exec sc) (fun _ s' => kernel_ok s') s.
Proof.
  intros Hk Hcur Hni Hp Hin. pose proof Hk as (R & W & T & H). pose proof (flg_impl_of _ _ _ _ H) as HF.
  repeat (apply elem_of_cons in Hin; destruct Hin as [->|Hin]); [..|by apply elem_of_nil in Hin]; cbn [exec].
  - eapply wp_mono; [by eapply wp_cre_flg|]. intros r s' [_ Hc]. cbv beta zeta in Hc.
    repeat case_match; destruct_and?; subst; eauto with kernel.
  - eapply wp_mono; [by eapply wp_del_flg|]. intros r s' [_ Hc]. cbv beta zeta in Hc.
    repeat case_match; destruct_and?; subst; eauto with kernel.
  - eapply wp_mono; [by eapply wp_set_flg|]. intros r s' Hc. cbv beta zeta in Hc.
    repeat case_match; destruct_and?; eauto with kernel.
  - eapply wp_mono; [by eapply wp_clr_flg|]. intros r s' Hc. cbv beta zeta in Hc.
    repeat case_match; destruct_and?; eauto with kernel.
  - eapply wp_mono; [by eapply wp_wai_flg|]. intros r s' Hc. cbv beta zeta in Hc.
    repeat case_match; destruct_and?; eauto with kernel.
  - eapply wp_mono; [eapply wp_del_mpf, HF|]. intros r s' [_ Hc]. cbv beta zeta in Hc.
    repeat case_match; destruct_and?; subst; eauto with kernel.
Qed.

Ltac one_of := rewrite ?elem_of_cons; tauto.

(** ** Calls that return *)

(** The calls that touch no memory of the caller and no allocator: they never
    fault, whatever the state of the memory. *)
Definition returning (sc : syscall) : bool :=
  match sc with
  | Cdel_tsk _ | Cact_tsk _ | Ccan_act _ | Cext_tsk | Cexd_tsk | Cchg_pri _ _ | Cget_pri _ _ | Cslp_tsk
  | Ctslp_tsk _ | Cwup_tsk _ | Ccan_wup _ | Ccre_sem _ _ | Cacre_sem _ | Cdel_sem _ | Csig_sem _ | Cwai_sem _
  | Ctwai_sem _ _ | Ccre_flg _ _ | Cdel_flg _ | Cset_flg _ _ | Cclr_flg _ _ | Cwai_flg _ _ _ _ | Cdel_mpf _ => true
  | _ => false
  end.

Lemma exec_returns s c sc :
  kernel_ok s -> current_task (k_sched s) = Some c -> ~ is_idle s c -> covered s sc -> returning sc = true ->
  wp (exec sc) (fun _ s' => kernel_ok s') s.
Proof.
  intros Hk Hcur Hni Hcov Hret.
  pose proof (fun id sc => exec_task_ok s c id sc Hk Hcur Hni) as Htsk.
  pose proof (fun id pk sc => exec_sem_ok s c id pk sc Hk Hcur Hni) as Hsem.
  pose proof (fun id ptn mode p pk sc Hp => exec_flg_ok s c id ptn mode p pk sc Hk Hcur Hni Hp) as Hflg.
  destruct sc as [id pk|pk|id|id|id| | |id|id pri|id p|id p|id p| |tmo|id|id|id
                 |id pk|pk|id|id|id|id tmo|id pk|id|id ptn|id ptn|id ptn mode p
                 |id pk|pk|id|id p|id p|id p tmo|id p|id pk|id|id b|id p|p|id pk|id b|id sz p];
    cbn [covered returning] in Hcov, Hret; try done.
  - apply (Htsk id). one_of.
  - apply (Htsk id). one_of.
  - apply (Htsk id). one_of.
  - apply (Htsk 0). one_of.
  - apply (Htsk 0). one_of.
  - apply exec_chg_pri_ok; [done|apply Hcov..].
  - by apply exec_get_pri_ok.
  - apply (Htsk 0). one_of.
  - by eapply exec_tslp_ok.
  - apply (Htsk id). one_of.
  - apply (Hsem id pk). one_of.
  - apply (Hsem 0 pk). one_of.
  - apply (Hsem id None). one_of.
  - apply (Hsem id None). one_of.
  - apply (Hsem id None). one_of.
  - subst tmo. cbn [exec]. unfold twai_sem_sys. rewrite Z.eqb_refl. apply (Hsem id None (Cwai_sem id)). one_of.
  - apply (Hflg id 0 0 0 pk); [done|]. one_of.
  - apply (Hflg id 0 0 0 None); [done|]. one_of.
  - apply (Hflg id ptn 0 0 None); [done|]. one_of.
  - apply (Hflg id ptn 0 0 None); [done|]. one_of.
  - apply (Hflg id ptn mode p None); [done|]. one_of.
  - apply (Hflg id 0 0 0 None); [done|]. one_of.
Qed.

Lemma exec_ok s c sc :
  kernel_ok s -> current_task (k_sched s) = Some c -> ~ is_idle s c -> covered s sc ->
  wlp (exec sc) (fun _ s' => kernel_ok s') s.
Proof.
  intros Hk Hcur Hni Hcov. destruct (returning sc) eqn:Er; [by eapply wp_wlp, exec_returns|].
  destruct sc; cbn [covered returning] in Hcov, Er; try done.
  - by apply exec_cre_tsk_ok.
  - by apply exec_acre_tsk_ok.
  - by apply wlp_ter_tsk.
  - by apply wlp_ref_tsk.
  - by apply wlp_ref_tst.
  - by apply wlp_cre_mpf.
  - by apply wlp_rel_mpf.
  - by eapply wlp_get_mpf.
  - by apply wlp_get_tim.
  - by apply wlp_cre_mpl.
  - by apply wlp_rel_mpl.
  - by apply wlp_get_mpl.
Qed.

(** ** What a call leaves to do *)

(** The remainders of the covered calls. *)
Definition plain (k : kont) : Prop :=
  match k with KRcvMbx _ _ | KTrcvMbx _ _ _ | KTwaiSem _ => False | _ => True end.

Definition plain_res (r : sysres) : Prop := match r with Cont k => plain k | _ => True end.

(** [m] only returns results of [P]. *)
Definition rets {A} (m : KM A) (P : A -> Prop) : Prop := forall s, wlp m (fun a _ => P a) s.

Lemma rets_ret {A} (a : A) (P : A -> Prop) : P a -> rets (ret a) P.
Proof. intros H s. by apply wlp_ret. Qed.

Lemma rets_bind {A B} (m : KM A) (k : A -> KM B) (P : B -> Prop) :
  (forall a, rets (k a) P) -> rets (bind m k) P.
Proof. intros H s. apply wlp_bind. unfold wlp. destruct (m s) as [[a s']|]; [apply H|done]. Qed.

Ltac rets_steps :=
  repeat first [progress cbv beta zeta | case_match | apply rets_ret; done | apply rets_bind; intros ?].

Lemma exec_plain s sc : covered s sc -> rets (exec sc) plain_res.
Proof.
  destruct sc; cbn [covered]; intros Hcov; try done; cbn [exec]; try (apply rets_ret; exact I).
  21: { subst tmout. unfold twai_sem_sys. rewrite Z.eqb_refl. unfold wai_sem_sys. rets_steps. }
  all: match goal with |- rets ?m _ => let h := get_head m in unfold h end; rets_steps.
Qed.

(** ** The machine keeps the invariant *)

Record machine_ok (m : machine) : Prop := {
  mo_kernel : kernel_ok (mk m);
  mo_conts : forall c k, conts m c = Some k -> plain k
}.

Lemma conts_upd (ks : nat -> option kont) c o :
  (forall j k, ks j = Some k -> plain k) -> (forall k, o = Some k -> plain k) ->
  forall j k, <[c := o]> ks j = Some k -> plain k.
Proof.
  intros Hks Ho j k. destruct (decide (j = c)) as [->|Hj]; rewrite ?fn_lookup_insert, ?fn_lookup_insert_ne; eauto.
Qed.

Lemma step_ok m m' : machine_ok m -> step covered m m' -> machine_ok m'.
Proof.
  intros [Hk Hc] Hs. destruct Hs as [s ks c sc r s' Hcur Hni _ Hcov E|s ks c k er s' Hcur Hck E|s ks s' _ E];
    cbn [mk conts] in *.
  - split; cbn [mk conts]; [exact (wlp_elim _ _ _ _ _ (exec_ok s c sc Hk Hcur Hni Hcov) E)|].
    pose proof (wlp_elim _ _ _ _ _ (exec_plain s sc Hcov s) E) as Hp. destruct r; cbn [after]; try done.
    apply conts_upd; [done|]. by intros k' [= <-].
  - split; cbn [mk conts]; [|by apply conts_upd]. apply (resume_ok s k er); [done| |done].
    specialize (Hc c k Hck). intros. by repeat split; intros ->.
  - split; cbn [mk conts]; [|done]. destruct Hk as (R & W & T & [H _]).
    assert (wp evt_timer (fun _ s' => kernel_ok s') s) as Hw; [|exact (wlp_elim _ _ _ _ _ (wp_wlp _ _ _ Hw) E)].
    eapply wp_evt_timer; [exact H|]. intros s2 now pool HK _ _ _ _ _. by eapply kernel_ok_intro.
Qed.

Lemma reachable_ok m m' : machine_ok m -> reachable covered m m' -> machine_ok m'.
Proof. intros Hm Hr. induction Hr; eauto using step_ok. Qed.
