(* ===== verification/Setup.v ===== *)
(** * Start-up: setup.c

    [start_kernel] from the cleared data of the image to the first task. *)

From Stdlib Require Import ZArith Lia.
From stdpp Require Import base tactics gmap option functions countable list.
From S2P Require Import Prelude Bits Queue Qfam Mem Mpool Kstate Tlsf Syslog Sched Timeout Dispatch.
From S2P Require Import Kinv Blind Ktime Waitobj Task Semaphore Event Mailbox Mempool Kernel.

Open Scope Z_scope.
Open Scope kernel_scope.

(** What [start_kernel] calls outside of the kernel: the memory protection
    registers (sysmem.c), the initialization functions of the drivers that the
    linker collects between [__initcalls_start] and [__initcalls_end], the
    device tables (device.c) and the network stack (lwip_init.c). *)
Record hooks := mk_hooks {
  init_mmu : KM unit;
  initcalls : list (KM Z);
  init_devices : KM unit;
  init_lwip_stack : KM unit
}.

Definition init_syspools : KM unit :=
  let* im := gets (fun s => img (k_setup s)) in
  modify (fun s => set_k_setup (set_kfast_pool (_kfastpool_base im)
    (set_system_pool (_syspool_base im) (k_setup s))) s) ;;;
  let* sp := gets (fun s => system_pool (k_setup s)) in
  ktlsf (init_memory_pool (_syspool_size im) sp) ;;;
  let* kf := gets (fun s => kfast_pool (k_setup s)) in
  ktlsf (init_memory_pool (_kfastpool_size im) kf) ;;;
  ret tt.

(** The log of a failed call is under [CONFIG_SYSLOG], which no configuration
    defines. *)
Fixpoint inicalls (calls : list (KM Z)) : KM unit :=
  match calls with
  | [] => ret tt
  | call :: calls => let* _ := call in inicalls calls
  end.

(** [start_kernel] up to its idle loop. *)
Definition start_kernel (h : hooks) : KM unit :=
  init_mmu h ;;;
  init_syspools ;;;
  init_sched ;;;
  init_syslog ;;;
  inicalls (initcalls h) ;;;
  init_mpf_pool ;;;
  init_mpl_pool ;;;
  init_task_pool ;;;
  init_sem_pool ;;;
  init_flg_pool ;;;
  init_mbox_pool ;;;
  init_devices h ;;;
  create_idle_task ;;;
  init_lwip_stack h ;;;
  create_main_task ;;;
  init_time ;;;
  ena_dsp_sys ;;;
  scheduler.

(** ** The state at reset *)

(** The data of the kernel is cleared; the memory, the symbols of the image,
    the interrupt mask and the cycle counter are whatever they are. *)
Definition reset (mem : gmap Z Z) (im : image) (mask cyc : Z) : kstate :=
  mk_kstate mem ∅ (mk_task_mod 0 (replicate 5 zero_task))
    (mk_sched_mod (replicate 32 null_queue) 0 None None None 0 0 0)
    (mk_int_mod mask 0 0 0) (mk_time_mod 0 0 cyc)
    (mk_log_mod (replicate (Z.to_nat CONFIG_SYSLOG_SIZE) zero_log_entry) 0)
    (mk_sem_mod 0 (replicate 4 zero_sem) None) (mk_flg_mod 0 (replicate 2 zero_flg) None)
    (mk_mbx_mod 0 (replicate 4 zero_mbx) 0) (mk_mpl_mod 0 (replicate 3 zero_mpf) 0 [])
    (mk_setup_mod im 0 0 0).

(** A routine that changes nothing in the kernel. *)
Definition quiet {A} (m : KM A) : Prop := forall s, exists a, m s = Some (a, s).

(** What runs before the first task exists leaves the kernel alone. *)
Record quiet_drivers (h : hooks) : Prop := {
  qh_mmu : quiet (init_mmu h);
  qh_calls : Forall quiet (initcalls h);
  qh_dev : quiet (init_devices h)
}.

Lemma wlp_quiet {A} (m : KM A) (Q : A -> kstate -> Prop) s : quiet m -> (forall a, Q a s) -> wlp m Q s.
Proof. intros Hm HQ. unfold wlp. destruct (Hm s) as [a ->]. apply HQ. Qed.

Lemma wlp_inicalls calls (Q : unit -> kstate -> Prop) s : Forall quiet calls -> Q tt s -> wlp (inicalls calls) Q s.
Proof.
  induction 1 as [|m calls Hm _ IH]; intros HQ; [by apply wlp_ret|].
  apply wlp_bind, wlp_quiet; [done|]. intros _. by apply IH.
Qed.

Lemma wlp_init_syspools (Q : unit -> kstate -> Prop) s :
  (forall m p, Q tt (set_k_setup p (set_k_mem m s))) -> wlp init_syspools Q s.
Proof.
  intros HQ. apply wlp_bind, wp_wlp, wp_gets, wlp_bind, wp_wlp, wp_modify, wlp_bind, wp_wlp, wp_gets.
  apply wlp_bind, wlp_ktlsf. intros _ m1 p1. apply wlp_bind, wp_wlp, wp_gets, wlp_bind, wlp_ktlsf. intros _ m2 p2.
  apply wlp_ret. exact (HQ m2 p2).
Qed.

Lemma wlp_deref {A} (o : option A) (Q : A -> kstate -> Prop) s :
  (forall a, o = Some a -> Q a s) -> wlp (deref o) Q s.
Proof. intros HQ. destruct o as [a|]; [by apply HQ|done]. Qed.

Lemma wlp_init_mpl (Q : unit -> kstate -> Prop) s :
  (forall m p b l, Q tt (set_k_mpl (set_mpl_pool l (set_mplbmap b (k_mpl s))) (set_k_setup p (set_k_mem m s)))) ->
  wlp init_mpl_pool Q s.
Proof.
  intros HQ. apply wlp_bind, wp_wlp, wp_gets, wlp_bind, wp_wlp, wp_modify.
  set (l := imap _ _). set (P := fun s' => exists m p b, s' = set_k_mpl (set_mpl_pool l (set_mplbmap b (k_mpl s)))
    (set_k_setup p (set_k_mem m s))).
  assert (forall idxs s', P s' -> wlp (init_mpl_loop idxs) Q s') as Hl.
  { induction idxs as [|i idxs IH]; intros s' (m & p & b & ->); [by apply wlp_ret, HQ|].
    apply wlp_bind, wp_wlp, wp_gets, wlp_bind, wlp_deref. intros x _.
    apply wlp_bind, wlp_ktlsf. intros _ m1 p1. apply wlp_bind, wp_wlp, wp_modify, IH.
    by exists m1, p1, (setbit b (Z.of_nat i)). }
  apply Hl. exists (k_mem s), (k_setup s), clearbitmap. by destruct s as [? ? ? ? ? ? ? ? ? ? [] ?].
Qed.

Lemma wlp_init_mbox (Q : unit -> kstate -> Prop) s :
  (forall m p a, Q tt (set_k_setup p (set_k_mem m (set_k_mbx (mk_mbx_mod 0 (replicate 4 zero_mbx) a) s)))) ->
  wlp init_mbox_pool Q s.
Proof.
  intros HQ. apply wlp_bind, wp_wlp, wp_modify, wlp_bind, wp_wlp, wp_gets, wlp_bind, wlp_ktlsf. intros a m p.
  apply wlp_bind, wp_wlp, wp_modify, wlp_kmem. intros [] m'. exact (HQ m' p a).
Qed.

(** ** The first state *)

Lemma wlp_mono_init_stack tsk t (Q : Z -> kstate -> Prop) s :
  task_pool (k_task s) !! tsk = Some t ->
  (forall r m p t', same_but_stack t t' -> Q r (stack_state s m p tsk t')) -> wlp (init_stack tsk) Q s.
Proof.
  intros Et HQ. eapply wlp_mono; [by apply init_stack_frame|].
  intros r s' (m & p & t' & Ht & ->). by apply HQ.
Qed.

(** The list nodes are all null. *)
Definition blank_nodes (m : gmap laddr linked_list_t) : Prop := forall a, node m a = null_node.

Lemma blank_insert m b : blank_nodes m -> blank_nodes (<[b := null_node]> m).
Proof. intros H a. rewrite node_insert. by case_decide. Qed.

Lemma blank_foldr {A} (f : A -> gmap laddr linked_list_t -> gmap laddr linked_list_t) l m :
  (forall x m, blank_nodes m -> blank_nodes (f x m)) -> blank_nodes m -> blank_nodes (foldr f m l).
Proof. intros Hf Hm. induction l; simpl; auto. Qed.

(** The state in which the idle task is created: the objects are cleared and
    the pools have their sizes. *)
Record blank (s : kstate) : Prop := {
  bk_nodes : blank_nodes (k_nodes s);
  bk_task : k_task s = mk_task_mod 0 (replicate 7 zero_task);
  bk_queue : prioqueue (k_sched s) = replicate 32 null_queue;
  bk_prio : priobmap (k_sched s) = 0;
  bk_tq : timeout_queue (k_sched s) = None;
  bk_nest : int_nest_count (k_int s) = 0;
  bk_dsp : dispatching (k_sched s) = FALSE;
  bk_log : log_ok (k_log s);
  bk_pools : pools_ok s;
  bk_wait : forall k, waitq s k = null_queue
}.

Lemma replicate_default {A} (x : A) n i (f : A -> queue_t) : f x = null_queue ->
  default null_queue (f <$> replicate n x !! i) = null_queue.
Proof.
  intros Hf. destruct (replicate n x !! i) as [y|] eqn:E; [|done].
  apply lookup_replicate_1 in E as [-> _]. done.
Qed.

Lemma wlp_blank h mem im mask cyc (K : KM unit) (Q : unit -> kstate -> Prop) :
  quiet_drivers h -> (forall s, blank s -> imask (k_int s) = mask -> wlp K Q s) ->
  wlp (init_mmu h ;;; init_syspools ;;; init_sched ;;; init_syslog ;;; inicalls (initcalls h) ;;; init_mpf_pool ;;;
       init_mpl_pool ;;; init_task_pool ;;; init_sem_pool ;;; init_flg_pool ;;; init_mbox_pool ;;; init_devices h ;;;
       K) Q (reset mem im mask cyc).
Proof.
  intros [H1 H2 H3] HK. apply wlp_bind, wlp_quiet; [done|]. intros _.
  apply wlp_bind, wlp_init_syspools. intros m1 p1.
  apply wlp_bind, wlp_bind, wp_wlp, wp_modify, wlp_bind, wp_wlp, wp_modify, wp_wlp, wp_modify.
  apply wlp_bind, wp_wlp, wp_modify, wlp_bind, wlp_inicalls; [done|].
  apply wlp_bind, wp_wlp, wp_modify, wlp_bind, wlp_init_mpl. intros m2 p2 b2 l2.
  apply wlp_bind, wlp_bind, wp_wlp, wp_modify, wp_wlp, wp_modify.
  apply wlp_bind, wlp_bind, wp_wlp, wp_modify, wp_wlp, wp_modify.
  apply wlp_bind, wlp_bind, wp_wlp, wp_modify, wp_wlp, wp_modify.
  apply wlp_bind, wlp_init_mbox. intros m3 p3 a3. apply wlp_bind, wlp_quiet; [done|]. intros _.
  apply HK; [|reflexivity]. split; try reflexivity.
  - repeat (apply blank_foldr; [intros; by repeat apply blank_insert|]). done.
  - by split.
  - by split.
  - intros []; by apply replicate_default.
Qed.

(** ** The first tasks *)

Definition no_ready : nat -> list nat := fun _ => [].
Definition no_wait : wkey -> list nat := fun _ => [].

Definition boot_idle : task_t := set_exinf TSK_KERNEL (set_tskid 1 (set_tskpri MIN_TASK_PRIORITY zero_task)).

(** The state in which the network stack is initialized: the idle task, in slot 0,
    is the only task and has the processor; with the switch of the dispatcher on
    the invariant would hold, with no task in any queue. *)
Record first_state (s : kstate) : Prop := {
  fs_kinv : kinv (dsp TRUE s) no_ready no_wait [];
  fs_off : dispatching (k_sched s) = FALSE;
  fs_idle : idle_task (k_sched s) = Some 0%nat;
  fs_cur : current_task (k_sched s) = Some 0%nat;
  fs_bmap : taskbmap (k_task s) = 1;
  fs_msgs : forall b, clean (k_nodes s) (MsgQue b)
}.

Lemma empty_fam {K} nd m (q : K -> queue_t) : (forall a, clean m a) -> (forall k, q k = null_queue) ->
  qfam nd m q (fun _ : K => []).
Proof.
  intros Hc Hq. split; [|by intros ?? ?%elem_of_nil|by intros ??? ?%elem_of_nil|done].
  intros k. rewrite Hq. apply qrep_nil.
Qed.

Lemma idle_first s s' : blank s ->
  k_nodes s' = k_nodes s -> k_int s' = k_int s -> k_log s' = k_log s -> same_objs s s' ->
  k_task s' = mk_task_mod 1 (boot_idle :: replicate 6 zero_task) ->
  prioqueue (k_sched s') = prioqueue (k_sched s) -> priobmap (k_sched s') = priobmap (k_sched s) ->
  timeout_queue (k_sched s') = timeout_queue (k_sched s) -> dispatching (k_sched s') = dispatching (k_sched s) ->
  idle_task (k_sched s') = Some 0%nat -> current_task (k_sched s') = Some 0%nat -> first_state s'.
Proof.
  intros [B1 B2 B3 B4 B5 B6 Bd B7 B8 B9] En Ei El Ho Et Eq Ep Etq Ed Eid Ec.
  assert (forall a, clean (k_nodes s') a) as Hcl by (intros a; unfold clean; by rewrite En, B1).
  assert (forall i, live (dsp TRUE s') i -> i = 0%nat) as Hlive.
  { intros i [Hi Hb]. simpl in Hb. rewrite Et in Hb. assert (MAX_TASKS = 5) as HM by done. assert (i < 5)%nat as Hi' by lia.
    do 5 (destruct i as [|i]; [auto; discriminate Hb|]). lia. }
  assert (forall i, live (dsp TRUE s') i -> is_idle (dsp TRUE s') i) as Hidle.
  { intros i HL. rewrite (Hlive i HL). exact Eid. }
  split; [|congruence|done|done|by rewrite Et|by intros b]. split; [|exists 0%nat; split; [exact Ec|left; exact Eid]]. split.
  - split; simpl; rewrite ?Eq, ?Ep, ?B3, ?B4; try done.
    + apply empty_fam; [done|]. intros p. unfold prioq. simpl. rewrite Eq, B3.
      destruct (replicate 32 null_queue !! p) as [q|] eqn:E; [|done]. by apply lookup_replicate_1 in E as [-> _].
    + intros p _. by rewrite Z.testbit_0_l.
    + by intros p i ?%elem_of_nil.
  - apply empty_fam; [done|]. intros k. rewrite <- (B9 k). destruct Ho. destruct k; simpl; congruence.
  - split; simpl; try (by intros ? ?%elem_of_nil); [|constructor|intros i _; apply Hcl].
    rewrite Etq, B5. split; [done|]. split; [constructor|by intros []].
  - simpl. by rewrite El.
  - split; simpl; rewrite ?Et; try done.
    + intros i t HL E. rewrite (Hlive i HL) in E |- *. by injection E as <-.
    + intros i nd HL Hni. destruct Hni. by apply Hidle.
    + exists 0%nat, boot_idle. split_and!; [exact Eid| |done|done]. split; [done|]. simpl. by rewrite Et.
  - eapply (pools_ok_frame s); [|done]. destruct Ho. by split.
  - split; try (by intros ? ? ?%elem_of_nil); try (by intros ? ?%elem_of_nil);
      intros i t HL Hni; destruct Hni; by apply Hidle.
  - simpl. rewrite Ei, B6. done.
  - exists 0%nat. simpl. by rewrite Ec, Et.
Qed.

Lemma wlp_idle (Q : unit -> kstate -> Prop) s : blank s ->
  (forall s', first_state s' -> imask (k_int s') = imask (k_int s) -> Q tt s') -> wlp create_idle_task Q s.
Proof.
  intros Hb HQ. apply wlp_bind, wp_wlp, wp_gets. rewrite (bk_task _ Hb).
  change (_ffc (taskbmap (mk_task_mod 0 (replicate 7 zero_task)))) with 0. cbn [Z.ltb Z.compare].
  apply wlp_bind, wp_wlp, wp_modify, wlp_bind, wp_wlp, wp_modify, wlp_bind, wp_wlp.
  eapply wp_upd_task; [simpl; by rewrite (bk_task _ Hb)|]. apply wp_wlp, wp_modify.
  apply HQ; [|done]. eapply (idle_first s); try done. simpl. by rewrite (bk_task _ Hb).
Qed.

(** ** The main task *)

(** What [create_main_task] writes in its slot. *)
Definition main_task (id entry : Z) (t : task_t) : task_t :=
  set_exinf NULL (set_stksz USER_STACK_SIZE (set_stk USER_STACK
    (set_tskstat TTS_RDY (set_task entry (set_tskid id (set_tskpri MAX_TASK_PRIORITY t)))))).

(** The lists with the main task [i] behind the ready tasks of the highest
    priority. *)
Definition with_main (i : nat) (R : nat -> list nat) : nat -> list nat :=
  <[Z.to_nat MAX_TASK_PRIORITY := R (Z.to_nat MAX_TASK_PRIORITY) ++ [i]]> R.

Definition main_slot (s : kstate) : nat := Z.to_nat (_ffc (taskbmap (k_task s))).

Definition room (s : kstate) : Prop := exists i, Z.of_nat i < MAX_TASKS /\ ~ live s i.

Lemma main_slot_free s R W T : kinv0 s R W T -> room s ->
  _ffc (taskbmap (k_task s)) = Z.of_nat (main_slot s) /\ Z.of_nat (main_slot s) < MAX_TASKS /\ ~ live s (main_slot s).
Proof.
  intros H (j & Hj & HL). unfold main_slot. assert (MAX_TASKS = 5) as HM by done.
  destruct (_ffc_cases (taskbmap (k_task s)) (to_bmap _ (ki_tasks _ _ _ _ H))) as [[_ Hall]|(Hr & Hclr & Hlow)].
  { destruct HL. split; [done|]. apply Hall. lia. }
  rewrite Z2Nat.id by lia. split_and!; [done| |].
  - destruct (Z.lt_ge_cases (Z.of_nat j) (_ffc (taskbmap (k_task s)))); [|lia]. destruct HL. split; [done|]. by apply Hlow; lia.
  - intros [_ E]. rewrite Z2Nat.id in E by lia. by rewrite Hclr in E.
Qed.

(** The nodes of the main task. *)
Definition main_nodes (i : nat) (m : gmap laddr linked_list_t) : gmap laddr linked_list_t :=
  set_this (RdyQue i) (Some (OTask i)) (set_this (SynQue i) (Some (OTask i)) (set_this (SlpQue i) (Some (OTask i)) m)).

(** A free slot is in no list: its nodes are clean. *)
Lemma free_clean s R W T i nd : kinv0 s R W T -> ~ live s i -> nd ∈ [RdyQue; SynQue; SlpQue] -> clean (k_nodes s) (nd i).
Proof.
  intros H HL Hnd. destruct (free_nowhere _ _ _ _ _ H HL) as (HR & HW & HT). apply task_kinds in Hnd as [->|[->| ->]].
  - by apply (qf_clean _ _ _ _ (rq_fam _ _ _ _ (ki_rq _ _ _ _ H))).
  - by apply (qf_clean _ _ _ _ (ki_sync _ _ _ _ H)).
  - by apply (tq_clean _ _ _ _ (ki_tq _ _ _ _ H)).
Qed.

Lemma main_nodes_self i m nd : nd ∈ [RdyQue; SynQue; SlpQue] -> clean m (nd i) ->
  clean (main_nodes i m) (nd i) /\ this (node (main_nodes i m) (nd i)) = Some (OTask i).
Proof.
  intros Hnd [Hn Hp]. unfold clean, main_nodes. autorewrite with nodes. split_and!; [done|done|].
  apply task_kinds in Hnd as [->|[->| ->]]; by repeat case_decide.
Qed.

Lemma main_nodes_other i m a : a ∉ [RdyQue i; SynQue i; SlpQue i] -> node (main_nodes i m) a = node m a.
Proof.
  intros Ha. unfold main_nodes, set_this. rewrite !not_elem_of_cons in Ha. destruct Ha as (H1 & H2 & H3 & _).
  by rewrite !node_insert, !decide_False.
Qed.

(** What [create_main_task] leaves: the main task in its slot, the other slots, the
    processor and the messages as they were. *)
Record main_created (s s' : kstate) : Prop := {
  mc_pool : exists t t', task_pool (k_task s) !! main_slot s = Some t /\
    task_pool (k_task s') = <[main_slot s := t']> (task_pool (k_task s)) /\
    same_but_stack (main_task (Z.of_nat (main_slot s) + 1) (main_entry (img (k_setup s))) t) t';
  mc_live : forall j, live s' j <-> j = main_slot s \/ live s j;
  mc_cur : current_task (k_sched s') = current_task (k_sched s);
  mc_idle : idle_task (k_sched s') = idle_task (k_sched s);
  mc_int : k_int s' = k_int s;
  mc_objs : same_objs s s';
  mc_msgs : forall b, node (k_nodes s') (MsgQue b) = node (k_nodes s) (MsgQue b)
}.

(** The main task before it is put in the ready queue; [st] is its state. *)
Definition hatched (s : kstate) (i : nat) mem su (t : task_t) : kstate :=
  set_k_setup su (set_k_mem mem (set_k_nodes (main_nodes i (k_nodes s)) (set_k_task
    (mk_task_mod (setbit (taskbmap (k_task s)) (Z.of_nat i)) (<[i := t]> (task_pool (k_task s)))) s))).

Lemma hatched_born s R W T i mem su t : kinv0 s R W T -> Z.of_nat i < MAX_TASKS -> ~ live s i ->
  tskid t = Z.of_nat i + 1 -> tskpri t = MAX_TASK_PRIORITY -> tskstat t = TTS_DMT ->
  kinv0 (hatched s i mem su t) R W T.
Proof.
  intros H Hi HL Hid Hpri Hst. eapply (kinv0_born s _ R W T i t); try done.
  - apply H.
  - by rewrite Hpri.
  - intros j nd Hnd Hj. apply main_nodes_other. rewrite !not_elem_of_cons.
    apply task_kinds in Hnd as [->|[->| ->]]; split_and!; try apply not_elem_of_nil; congruence.
  - intros nd Hnd. apply main_nodes_self; [done|]. by eapply free_clean.
Qed.

Lemma hatched_live s R W T i mem su t j : kinv0 s R W T -> Z.of_nat i < MAX_TASKS ->
  live (hatched s i mem su t) j <-> j = i \/ live s j.
Proof.
  intros H Hi. pose proof (to_bmap _ (ki_tasks _ _ _ _ H)) as Hw. assert (MAX_TASKS = 5) as HM by done.
  unfold live. simpl. rewrite setbit_bit by (done || lia). destruct (Z.eqb_spec (Z.of_nat i) (Z.of_nat j)); simpl.
  - assert (j = i) as -> by lia. tauto.
  - split; [tauto|]. intros [->|?]; [lia|tauto].
Qed.

(** The main task is put in the ready queue. *)
Lemma wp_hatched_insert s R W T i mem su t (Q : unit -> kstate -> Prop) : kinv0 s R W T -> Z.of_nat i < MAX_TASKS ->
  ~ live s i -> tskid t = Z.of_nat i + 1 -> tskpri t = MAX_TASK_PRIORITY -> tskstat t = TTS_RDY ->
  (forall s', kframe (hatched s i mem su t) s' -> nodes_upd RdyQue (k_nodes (hatched s i mem su t)) (k_nodes s') ->
     task_pool (k_task s') = <[i := t]> (task_pool (k_task s)) -> kinv0 s' (with_main i R) W T -> Q tt s') ->
  wp (rq_insert i) Q (hatched s i mem su t).
Proof.
  intros H Hi HL Hid Hpri Hst HQ. set (s2 := hatched s i mem su t).
  set (d := set_tskstat TTS_DMT t). set (s1 := hatched s i mem su d).
  assert (kinv0 s1 R W T) as H1 by (by apply hatched_born).
  pose proof (to_len _ (ki_tasks _ _ _ _ H)) as Hlen. assert (MAX_TASKS = 5) as HM by done.
  assert (i < length (task_pool (k_task s)))%nat as Hlt by lia.
  assert (task_pool (k_task s1) !! i = Some d) as Ed by (by apply list_lookup_insert_eq).
  assert (task_pool (k_task s2) !! i = Some t) as Et by (by apply list_lookup_insert_eq).
  assert (task_pool (k_task s2) = <[i := t]> (task_pool (k_task s1))) as Ep
    by (symmetry; apply list_insert_insert_eq).
  destruct (free_nowhere _ _ _ _ _ H HL) as (HR & HW & HT).
  assert (live s1 i) as HL1 by (eapply hatched_live; eauto).
  assert (~ is_idle s1 i) as HI.
  { intros E. destruct (to_idle _ (ki_tasks _ _ _ _ H)) as (k & tk & Hk & HLk & _). unfold is_idle in *. simpl in E.
    rewrite E in Hk. by injection Hk as <-. }
  destruct (kinv_wakeable s1 R W T i H1 HL1 HI HR) as (_ & _ & Hth).
  assert (rq s2 R) as Hrq.
  { unfold rq. rewrite Ep. apply (rq_ok_upd _ _ _ _ i d (fun _ => t)); [done|by rewrite Hpri; simpl|apply H1]. }
  apply (wp_rq_insert_frame _ R); [done|apply H1| |].
  { split; [exists t; by rewrite Hpri|]. done. }
  intros s3 F Hup Hp Htq Hlog Hrq3. apply HQ; [done|done|done|].
  rewrite (rq_append_eq _ _ _ _ Et), Hpri in Hrq3. fold (with_main i R) in Hrq3.
  replace (with_main i R) with (rq_append (task_pool (k_task s2)) R i) in * by (by rewrite (rq_append_eq _ _ _ _ Et), Hpri).
  eapply (kinv0_activate s1 s3 R W T i d t); try done; destruct F as [Fm Fb Fl Fc Fi Fd Fint Ft Fs Ff Fx Fp Fsu].
  - split; try done; [apply Hup| |]; by rewrite ?Fint, ?Fl, ?Ep, ?length_insert.
  - by split.
  - apply (sync_frame s1); [|by split|apply H1]. intros j. by apply Hup.
  - unfold tq. rewrite Htq, Hp, Ep. eapply (tq_ok_pool _ _ _ _ (fun _ => t)); [|done|by right].
    eapply tq_ok_rdy; [exact Hup|apply H1].
  - by rewrite Hp.
Qed.

Lemma create_main_eq s i t : _ffc (taskbmap (k_task s)) = Z.of_nat i -> task_pool (k_task s) !! i = Some t ->
  create_main_task s = (let* _ := init_stack i in rq_insert i ;;; upd_nodes (set_this (TskAct i) (Some (OTask i))))
    (hatched s i (k_mem s) (k_setup s) (main_task (Z.of_nat i + 1) (main_entry (img (k_setup s))) t)).
Proof.
  intros Ei Et. assert (i < length (task_pool (k_task s)))%nat as Hlt by (by eapply lookup_lt_Some).
  unfold create_main_task. unfold bind at 1. unfold gets at 1. rewrite Ei. destruct (Z.ltb_spec (Z.of_nat i) 0); [lia|].
  rewrite Nat2Z.id. unfold set_task_this. unfold bind at 1 2 3 4 5 6 7. unfold set_taskbit, upd_task_mod, upd_task, upd_nodes, modify, gets.
  cbn -[insert lookup init_stack]. rewrite Et. cbn -[insert lookup init_stack].
  rewrite list_lookup_insert_eq by done. cbn -[insert lookup init_stack]. rewrite list_insert_insert_eq.
  match goal with |- ?m _ = _ => generalize m end. intros m. apply (f_equal m).
  destruct s as [? ? [] ? ? ? ? ? ? ? ? ?]. lazy -[insert setbit set_this main_entry Z.of_nat Z.add NULL USER_STACK_SIZE USER_STACK TTS_RDY].
  reflexivity.
Qed.

Lemma same_but_stack_fields t t' : same_but_stack t t' ->
  tskid t' = tskid t /\ tskpri t' = tskpri t /\ tskstat t' = tskstat t.
Proof. unfold same_but_stack. destruct t, t'. by intros [=]. Qed.

Lemma wlp_create_main s R W T (Q : unit -> kstate -> Prop) : kinv0 s R W T -> room s ->
  (forall s', kinv0 s' (with_main (main_slot s) R) W T -> main_created s s' -> Q tt s') -> wlp create_main_task Q s.
Proof.
  intros H Hr HQ. destruct (main_slot_free _ _ _ _ H Hr) as (Ei & Hi & HL). set (i := main_slot s) in *.
  pose proof (to_len _ (ki_tasks _ _ _ _ H)) as Hlen. assert (MAX_TASKS = 5) as HM by done.
  destruct (lookup_lt_is_Some_2 (task_pool (k_task s)) i) as [t Et]; [lia|].
  unfold wlp. rewrite (create_main_eq s i t Ei Et). set (t1 := main_task _ _ _).
  match goal with |- match ?m ?s1 with _ => _ end => change (wlp m Q s1) end.
  apply wlp_bind. eapply wlp_mono_init_stack; [apply list_lookup_insert_eq; lia|]. intros _ mem su t' Ht.
  destruct (same_but_stack_fields _ _ Ht) as (Hid & Hpri & Hst).
  replace (stack_state _ mem su i t') with (hatched s i mem su t')
    by (unfold stack_state, hatched; cbn -[insert]; by rewrite list_insert_insert_eq).
  apply wp_wlp, wp_bind, (wp_hatched_insert s R W T); try done. intros s3 F Hup Hp H3. apply wp_modify.
  apply HQ; [by apply kinv0_actnode|]. destruct F. split; try done.
  - by exists t, t'.
  - intros j. etransitivity; [by apply live_same|by apply (hatched_live s R W T)].
  - intros b. simpl. unfold set_this. rewrite node_insert, decide_False by done. rewrite (proj1 Hup (MsgQue b)) by done.
    apply main_nodes_other. rewrite !not_elem_of_cons. split_and!; try done. apply not_elem_of_nil.
Qed.

Lemma blind_init_stack i : blind (init_stack i).
Proof. unfold init_stack. blind_steps. Qed.

#[local] Hint Resolve blind_init_stack : blind.

Lemma blind_create_main : blind create_main_task.
Proof. unfold create_main_task, set_taskbit, set_task_this. blind_steps. Qed.

(** ** The network stack *)

(** What [init_lwip_stack] may do: it may create objects and tasks and make tasks
    ready; with the switch of the dispatcher on the invariant would hold, with any
    lists. The switch stays off, the mask is restored and a task can still be
    created. *)
Record network (s s' : kstate) (R : nat -> list nat) (W : wkey -> list nat) (T : list nat) : Prop := {
  nw_kinv : kinv (dsp TRUE s') R W T;
  nw_off : dispatching (k_sched s') = FALSE;
  nw_imask : imask (k_int s') = imask (k_int s);
  nw_room : room s'
}.

Definition orderly (m : KM unit) : Prop :=
  forall s s', first_state s -> m s = Some (tt, s') -> exists R W T, network s s' R W T.

Record orderly_hooks (h : hooks) : Prop := {
  oh_drivers : quiet_drivers h;
  oh_lwip : orderly (init_lwip_stack h)
}.

(** The first task: the first ready task of the highest priority, or the main task [i]. *)
Definition first_task (i : nat) (R : nat -> list nat) : nat :=
  match R (Z.to_nat MAX_TASK_PRIORITY) with
  | [] => i
  | j :: _ => j
  end.

(** The state [s] after start-up, from the state [s1] that [init_lwip_stack] has
    left with the lists [R], [W] and [T]: the main task is created behind the ready
    tasks of the highest priority, and the first task of that priority runs. *)
Record started (s1 s : kstate) (R : nat -> list nat) (W : wkey -> list nat) (T : list nat) : Prop := {
  sd_kinv : kinv s (with_main (main_slot s1) R) W T;
  sd_cur : current_task (k_sched s) = Some (first_task (main_slot s1) R);
  sd_idle : idle_task (k_sched s) = idle_task (k_sched s1);
  sd_pool : exists c t t', current_task (k_sched s1) = Some c /\ task_pool (k_task s1) !! main_slot s1 = Some t /\
    same_but_stack (main_task (Z.of_nat (main_slot s1) + 1) (main_entry (img (k_setup s1))) t) t' /\
    task_pool (k_task s) = pool_switch (<[main_slot s1 := t']> (task_pool (k_task s1))) c
      (first_task (main_slot s1) R);
  sd_live : forall j, live s j <-> j = main_slot s1 \/ live s1 j;
  sd_time : system_time (k_time s) = 0;
  sd_imask : imask (k_int s) = imask (k_int s1);
  sd_objs : same_objs s1 s;
  sd_msgs : forall b, node (k_nodes s) (MsgQue b) = node (k_nodes s1) (MsgQue b)
}.

Lemma with_main_next i R d : next_task (with_main i R) d = first_task i R.
Proof.
  unfold next_task, rq_top, with_main, first_task. change (Z.to_nat MAX_TASK_PRIORITY) with 0%nat. simpl.
  rewrite fn_lookup_insert. by destruct (R 0%nat).
Qed.

(** From the end of [init_lwip_stack] to the first task. *)
Lemma wlp_started s1 R W T : kinv (dsp TRUE s1) R W T -> dispatching (k_sched s1) = FALSE -> room s1 ->
  wlp (create_main_task ;;; init_time ;;; ena_dsp_sys ;;; scheduler) (fun _ s => started s1 s R W T) s1.
Proof.
  intros [H _] Hd Hr. apply wlp_bind. eapply wlp_mono.
  { apply (wlp_blind _ TRUE (fun _ s' => kinv0 s' (with_main (main_slot s1) R) W T /\ main_created (dsp TRUE s1) s')).
    - apply blind_create_main.
    - by eapply wlp_create_main. }
  intros [] s2 [[H2 HM] _]. apply wlp_bind, wp_wlp, wp_modify.
  apply wlp_bind, wlp_bind, wp_wlp, wp_cli, wlp_bind, wp_wlp, wp_modify, wlp_bind, wp_wlp, wp_sti, wlp_ret.
  match goal with |- wlp _ _ ?s => assert (kinv0 s (with_main (main_slot s1) R) W T) as H3 end.
  { exact (kinv0_sti _ _ _ _ (kinv0_cli _ _ _ _ (kinv0_time _ _ _ _ (set_system_time 0 (k_time s2)) H2))). }
  apply wp_wlp. eapply wp_scheduler_kinv; [exact H3|]. intros s c d HK Hs HD Hc Hi.
  destruct HM as [(t & t' & Et & Hp & Ht) HLv Hcu Hid Hin Ho Hms], HD as [F _ HDc HDp]. rewrite with_main_next in HDc, HDp.
  destruct F. simpl in *. split; try done; simpl; try congruence.
  - exists c, t, t'. split_and!; [congruence|done|done|]. by rewrite HDp, Hp.
  - intros j. rewrite <- HLv. by apply live_same.
  - destruct Ho. simpl in *. split; congruence.
Qed.

(** [start_kernel] from reset to the first task. *)
Lemma wlp_start_kernel_orderly h mem im mask cyc : orderly_hooks h ->
  wlp (start_kernel h) (fun _ s => exists s0 s1 R W T, first_state s0 /\ init_lwip_stack h s0 = Some (tt, s1) /\
    network s0 s1 R W T /\ started s1 s R W T /\ imask (k_int s) = mask) (reset mem im mask cyc).
Proof.
  intros [Hh Hl]. unfold start_kernel. apply wlp_blank; [done|]. intros s Hb Hm. apply wlp_bind, wlp_idle; [done|].
  intros s0 H0 Hm0. apply wlp_bind. unfold wlp at 1. destruct (init_lwip_stack h s0) as [[[] s1]|] eqn:E; [|done].
  destruct (Hl s0 s1 H0 E) as (R & W & T & HN). pose proof HN as [N1 N2 N3 N4].
  eapply wlp_mono; [by apply wlp_started|]. intros [] s' Hs. exists s0, s1, R, W, T. split_and!; try done.
  rewrite (sd_imask _ _ _ _ _ Hs). congruence.
Qed.

(** The invariant holds after start-up. *)
Lemma started_ok h mem im mask cyc s : orderly_hooks h ->
  start_kernel h (reset mem im mask cyc) = Some (tt, s) -> kernel_ok s.
Proof.
  intros Hh E. destruct (wlp_elim _ _ _ _ _ (wlp_start_kernel_orderly h mem im mask cyc Hh) E)
    as (s0 & s1 & R & W & T & _ & _ & _ & Hs & _). eapply kernel_ok_intro, (sd_kinv _ _ _ _ _ Hs).
Qed.

(** ** Start-up without a network stack *)

Record quiet_hooks (h : hooks) : Prop := {
  qh_drivers : quiet_drivers h;
  qh_lwip : quiet (init_lwip_stack h)
}.

Lemma first_room s : first_state s -> room s.
Proof.
  intros H. exists 1%nat. split; [done|]. intros [_ E]. by rewrite (fs_bmap _ H) in E.
Qed.

Lemma quiet_orderly h : quiet_hooks h -> orderly_hooks h.
Proof.
  intros [Hd Hq]. split; [done|]. intros s s' Hs E. destruct (Hq s) as [[] E']. rewrite E in E'. injection E' as ->.
  exists no_ready, no_wait, []. split; try apply Hs; [done|]. by apply first_room.
Qed.

(** The ready queue after start-up: the main task, of the highest priority. *)
Definition boot_ready : nat -> list nat := <[Z.to_nat MAX_TASK_PRIORITY := [1%nat]]> no_ready.

Lemma elem_of_boot_ready p i : i ∈ boot_ready p <-> p = Z.to_nat MAX_TASK_PRIORITY /\ i = 1%nat.
Proof.
  unfold boot_ready. destruct (decide (p = Z.to_nat MAX_TASK_PRIORITY)) as [->|Hp].
  - rewrite fn_lookup_insert, list_elem_of_singleton. naive_solver.
  - rewrite fn_lookup_insert_ne by done. unfold no_ready. rewrite elem_of_nil. naive_solver.
Qed.

(** [start_kernel] gives the processor to the main task in a state of the
    invariant, or faults (when the kernel pool has no room). *)
Lemma wlp_start_kernel h mem im mask cyc :
  quiet_hooks h ->
  wlp (start_kernel h) (fun _ s' => kinv s' boot_ready no_wait [] /\ current_task (k_sched s') = Some 1%nat /\
    imask (k_int s') = mask /\ forall b, clean (k_nodes s') (MsgQue b)) (reset mem im mask cyc).
Proof.
  intros [Hd Hq]. unfold start_kernel. apply wlp_blank; [done|]. intros s Hb Hm. apply wlp_bind, wlp_idle; [done|].
  intros s0 H0 Hm0. apply wlp_bind, wlp_quiet; [done|]. intros _.
  eapply wlp_mono; [apply (wlp_started s0 no_ready no_wait []); [apply H0|apply H0|by apply first_room]|].
  intros [] s' Hs. assert (main_slot s0 = 1%nat) as E1 by (unfold main_slot; by rewrite (fs_bmap _ H0)).
  pose proof (sd_kinv _ _ _ _ _ Hs) as HK. pose proof (sd_cur _ _ _ _ _ Hs) as Hc. rewrite E1 in HK, Hc.
  split_and!; [exact HK|exact Hc| |].
  - rewrite (sd_imask _ _ _ _ _ Hs). congruence.
  - intros b. unfold clean. rewrite (sd_msgs _ _ _ _ _ Hs). apply H0.
Qed.
