(* ===== verification/TlsfMap.v ===== *)
(** * The size classes of TLSF

    The bit searches of tlsf.c, the segregated size classes and the search for
    a suitable class: a request is served from a class all of whose blocks are
    big enough ("good fit"), and the rounding costs at most 1/32 of the request. *)

From Stdlib Require Import ZArith Lia.
From stdpp Require Import base tactics gmap option list.
From S2P Require Import Prelude Bits Mem Kstate Tlsf.

Open Scope Z_scope.
Open Scope kernel_scope.

(** ** Bit searches *)

Lemma table_log2 x : 1 <= x < 256 -> table_at x = Z.log2 x.
Proof.
  intros Hx. assert (forallb (fun n => table_at (Z.of_nat n) =? Z.log2 (Z.of_nat n)) (seq 1 255) = true) as H by done.
  rewrite forallb_forall in H. specialize (H (Z.to_nat x)). rewrite Z2Nat.id in H by lia.
  apply Z.eqb_eq, H, in_seq. lia.
Qed.

(** Both searches look up the top byte of [x] that is not zero. *)
Definition byte_shift (x : Z) : Z :=
  if x <=? 0xffff then (if x <=? 0xff then 0 else 8) else (if x <=? 0xffffff then 16 else 24).

Lemma byte_shift_log2 x : 1 <= x < 2 ^ 32 -> i32 (table_at (Z.shiftr x (byte_shift x)) + byte_shift x) = Z.log2 x.
Proof.
  intros Hx. assert (0 <= Z.log2 x < 32) as Hl.
  { split; [apply Z.log2_nonneg|]. apply Z.log2_lt_pow2; lia. }
  assert (exists a, byte_shift x = a /\ 0 <= a /\ 2 ^ a <= x < 2 ^ (a + 8)) as (a & -> & Ha & Hr).
  { unfold byte_shift. destruct (Z.leb_spec x 0xffff); [destruct (Z.leb_spec x 0xff)|destruct (Z.leb_spec x 0xffffff)];
      eexists; (split; [done|]); lia. }
  rewrite Z.pow_add_r in Hr by lia. change (2 ^ 8) with 256 in Hr.
  assert (1 <= Z.shiftr x a < 256) as Hs.
  { rewrite Z.shiftr_div_pow2 by done. assert (0 < 2 ^ a) by (by apply Z.pow_pos_nonneg).
    split; [apply Z.div_le_lower_bound; lia|apply Z.div_lt_upper_bound; lia]. }
  rewrite table_log2, Z.log2_shiftr by lia.
  assert (a <= Z.log2 x) by (apply Z.log2_le_pow2; lia). rewrite i32_small; lia.
Qed.

Lemma ms_bit_log2 r : 1 <= r < 2 ^ 32 -> ms_bit r = Z.log2 r.
Proof. intros Hr. unfold ms_bit. rewrite u32_small by lia. by apply byte_shift_log2. Qed.

Lemma ms_bit_zero : ms_bit 0 = -1.
Proof. done. Qed.

(** [x & -x] is the lowest bit of [x]. *)
Lemma land_opp_odd q : Z.odd q = true -> Z.land q (- q) = 1.
Proof.
  intros Ho. rewrite (Z.div2_odd q), Ho. cbn [Z.b2z]. set (m := Z.div2 q).
  replace (- (2 * m + 1)) with (2 * Z.lnot m + 1) by (unfold Z.lnot; lia).
  apply Z.bits_inj'. intros n Hn. rewrite Z.land_spec. destruct (Z.eq_dec n 0) as [->|Hn0].
  - by rewrite !Z.testbit_odd_0.
  - replace n with (Z.succ (n - 1)) by lia. rewrite !Z.testbit_odd_succ by lia.
    rewrite Z.lnot_spec by lia. rewrite andb_negb_r. change 1 with (2 * 0 + 1).
    by rewrite Z.testbit_odd_succ, Z.testbit_0_l by lia.
Qed.

Lemma land_opp z k : 0 <= k -> (forall j, 0 <= j < k -> Z.testbit z j = false) -> Z.testbit z k = true ->
  Z.land z (- z) = 2 ^ k.
Proof.
  intros Hk Hlow Hbit. assert (z = Z.shiftl (Z.shiftr z k) k) as Ez.
  { apply Z.bits_inj'. intros n Hn. destruct (Z.ltb_spec n k).
    - rewrite Z.shiftl_spec_low by done. by apply Hlow.
    - rewrite Z.shiftl_spec, Z.shiftr_spec by lia. f_equal. lia. }
  set (q := Z.shiftr z k) in *. assert (Z.odd q = true) as Ho.
  { rewrite <- Z.bit0_odd. unfold q. rewrite Z.shiftr_spec by lia. by rewrite Z.add_0_l. }
  rewrite Ez at 1 2. rewrite Z.shiftl_mul_pow2, <- Z.mul_opp_l, <- !Z.shiftl_mul_pow2, <- Z.shiftl_land by done.
  rewrite land_opp_odd by done. by rewrite Z.shiftl_1_l.
Qed.

Lemma ls_bit_first r : word32 r -> r <> 0 -> first_set r (ls_bit r).
Proof.
  intros Hw Hr. assert (i32 r <> 0) as Hi.
  { intros E. apply Hr, word32_bits0; [done|]. by apply i32_bits0. }
  destruct (_ffs_spec r Hi) as (Hk & Hb & Hlow). set (k := _ffs r) in *.
  assert (ls_bit r = k) as ->; [|done].
  unfold ls_bit. rewrite (land_opp (i32 r) k); [|lia| |].
  - rewrite u32_small; [|split; [by apply Z.pow_nonneg; lia|apply Z.pow_lt_mono_r; lia]].
    pose proof (byte_shift_log2 (2 ^ k)) as Hl. unfold byte_shift in Hl. rewrite Hl, Z.log2_pow2; [done|lia|].
    split; [apply (Z.pow_le_mono_r 2 0 k); lia|apply Z.pow_lt_mono_r; lia].
  - intros j Hj. unfold i32. rewrite wraps_testbit by lia. by apply Hlow.
  - unfold i32. by rewrite wraps_testbit by lia.
Qed.

Lemma ls_bit_zero : ls_bit 0 = -1.
Proof. done. Qed.

(** ** The size classes *)

(** The smallest size of the class [(fl, sl)] and the sizes it spans. *)
Definition class_width (fl : Z) : Z := if fl =? 0 then SMALL_BLOCK / MAX_SLI else 2 ^ (fl + 1).
Definition class_lo (fl sl : Z) : Z :=
  if fl =? 0 then class_width fl * sl else 2 ^ (fl + FLI_OFFSET) + class_width fl * sl.

(** Classes are searched in lexicographic order. *)
Definition class_le (fl sl fl' sl' : Z) : Prop := fl < fl' \/ (fl = fl' /\ sl <= sl').

(** The class of [2^k <= r < 2^(k+1)], for [7 <= k]. *)
Lemma shift_class r k : 7 <= k -> 2 ^ k <= r < 2 ^ (k + 1) ->
  let sl := Z.shiftr r (k - MAX_LOG2_SLI) - MAX_SLI in
  0 <= sl < MAX_SLI /\ class_lo (k - FLI_OFFSET) sl <= r < class_lo (k - FLI_OFFSET) sl + class_width (k - FLI_OFFSET) /\
  class_lo (k - FLI_OFFSET) sl = 2 ^ (k - 5) * (r / 2 ^ (k - 5)).
Proof.
  intros Hk Hr. unfold class_lo, class_width, MAX_LOG2_SLI, MAX_SLI, FLI_OFFSET. cbn zeta.
  destruct (Z.eqb_spec (k - 6) 0); [lia|]. rewrite Z.shiftr_div_pow2 by lia.
  replace (k - 6 + 1) with (k - 5) by lia. replace (k - 6 + 6) with k by lia.
  set (p := 2 ^ (k - 5)). assert (0 < p) by (apply Z.pow_pos_nonneg; lia).
  assert (2 ^ k = p * 32) as Ek by (unfold p; change 32 with (2 ^ 5); rewrite <- Z.pow_add_r by lia; f_equal; lia).
  assert (2 ^ (k + 1) = p * 64) as Ek1 by (rewrite Z.pow_add_r by lia; lia).
  pose proof (Z.div_mod r p ltac:(lia)). pose proof (Z.mod_pos_bound r p ltac:(lia)).
  assert (32 <= r / p < 64) by (split; [apply Z.div_le_lower_bound|apply Z.div_lt_upper_bound]; lia).
  lia.
Qed.

Lemma log2_bounds r : 128 <= r < 2 ^ 32 -> 7 <= Z.log2 r < 32 /\ 2 ^ Z.log2 r <= r < 2 ^ (Z.log2 r + 1).
Proof.
  intros Hr. split; [|apply Z.log2_spec; lia]. split; [apply Z.log2_le_pow2; lia|apply Z.log2_lt_pow2; lia].
Qed.

Lemma small_class r : 0 <= r < SMALL_BLOCK ->
  0 <= r / (SMALL_BLOCK / MAX_SLI) < MAX_SLI /\
  class_lo 0 (r / (SMALL_BLOCK / MAX_SLI)) <= r < class_lo 0 (r / (SMALL_BLOCK / MAX_SLI)) + class_width 0.
Proof.
  unfold class_lo, class_width, SMALL_BLOCK, MAX_SLI. cbn [Z.eqb]. change (128 / 32) with 4. intros Hr.
  pose proof (Z.div_mod r 4 ltac:(lia)). pose proof (Z.mod_pos_bound r 4 ltac:(lia)). lia.
Qed.

(** A block is inserted in the class of its size. *)
Lemma mapping_insert_class r fl sl : 0 <= r < 2 ^ 32 -> MAPPING_INSERT r = (fl, sl) ->
  0 <= fl /\ 0 <= sl < MAX_SLI /\ class_lo fl sl <= r < class_lo fl sl + class_width fl.
Proof.
  intros Hr. unfold MAPPING_INSERT. destruct (Z.ltb_spec r SMALL_BLOCK) as [Hs|Hs].
  - intros [= <- <-]. destruct (small_class r); [lia|]. lia.
  - unfold SMALL_BLOCK in Hs. destruct (log2_bounds r) as [Hk Hb]; [lia|].
    rewrite ms_bit_log2 by lia. destruct (shift_class r (Z.log2 r)) as (H1 & H2 & _); [lia|done|].
    rewrite i32_small by (unfold MAX_SLI in *; lia). intros [= <- <-].
    split; [unfold FLI_OFFSET; lia|]. split; [exact H1|exact H2].
Qed.

(** The matrix of the free lists has a row for every block of the pool. *)
Lemma mapping_insert_row r fl sl : 0 <= r < 2 ^ 30 -> MAPPING_INSERT r = (fl, sl) -> fl < REAL_FLI.
Proof.
  intros Hr. unfold MAPPING_INSERT. unfold SMALL_BLOCK.
  destruct (Z.ltb_spec r 128) as [Hs|Hs]; [by intros [= <- _]|]. rewrite ms_bit_log2 by lia. intros [= <- _].
  assert (Z.log2 r < 30) by (apply Z.log2_lt_pow2; lia). unfold REAL_FLI, FLI_OFFSET, MAX_FLI. lia.
Qed.

(** The classes are in the order of the sizes. *)
Lemma class_lo_mono fl sl fl' sl' : 0 <= fl -> 0 <= sl < MAX_SLI -> 0 <= sl' < MAX_SLI ->
  class_le fl sl fl' sl' -> class_lo fl sl <= class_lo fl' sl'.
Proof.
  unfold class_le, class_lo, class_width, MAX_SLI, SMALL_BLOCK, FLI_OFFSET. change (128 / 32) with 4.
  intros Hf Hs Hs' [Hlt|[<- Hle]].
  - destruct (Z.eqb_spec fl' 0); [lia|]. rewrite !(Z.pow_add_r 2 fl') by lia. change (2 ^ 6) with 64.
    assert (2 ^ (fl + 1) <= 2 ^ fl') as Hp by (apply Z.pow_le_mono_r; lia). rewrite Z.pow_add_r in Hp by lia.
    assert (1 <= 2 ^ fl) by (apply (Z.pow_le_mono_r 2 0); lia).
    destruct (Z.eqb_spec fl 0) as [->|]; [change (2 ^ 0) with 1 in *; nia|].
    rewrite !(Z.pow_add_r 2 fl) by lia. change (2 ^ 6) with 64. change (2 ^ 1) with 2 in *. nia.
  - destruct (fl =? 0); [lia|]. assert (0 < 2 ^ (fl + 1)) by (apply Z.pow_pos_nonneg; lia). nia.
Qed.

(** A request is rounded up to the smallest size of the class to search. *)
Lemma mapping_search_class r r' fl sl : 0 <= r -> r mod 4 = 0 -> r + r / 32 < 2 ^ 30 ->
  MAPPING_SEARCH r = (r', fl, sl) ->
  0 <= fl < REAL_FLI /\ 0 <= sl < MAX_SLI /\ r' = class_lo fl sl /\ r <= r' <= r + r / 32.
Proof.
  intros Hr H4 Hmax. unfold MAPPING_SEARCH, SMALL_BLOCK. destruct (Z.ltb_spec r 128) as [Hs|Hs].
  - intros [= <- <- <-]. unfold class_lo, class_width, REAL_FLI, MAX_FLI, FLI_OFFSET, MAX_SLI, SMALL_BLOCK.
    cbn [Z.eqb]. change (128 / 32) with 4. pose proof (Z.div_mod r 4 ltac:(lia)).
    pose proof (Z.div_pos r 32 Hr ltac:(lia)). assert (r / 4 < 32) by (apply Z.div_lt_upper_bound; lia). lia.
  - assert (0 <= r / 32) by (apply Z.div_pos; lia). destruct (log2_bounds r) as [Hk Hb]; [lia|].
    rewrite ms_bit_log2 by lia. set (k := Z.log2 r) in *.
    set (p := 2 ^ (k - 5)). assert (0 < p) by (apply Z.pow_pos_nonneg; lia).
    assert (2 ^ k = p * 32) as Ek by (unfold p; change 32 with (2 ^ 5); rewrite <- Z.pow_add_r by lia; f_equal; lia).
    assert (2 ^ (k + 1) = p * 64) as Ek1 by (rewrite Z.pow_add_r by lia; lia).
    assert (p <= r / 32) by (apply Z.div_le_lower_bound; lia).
    assert (i32 (Z.shiftl 1 (k - MAX_LOG2_SLI)) = p) as ->.
    { rewrite Z.shiftl_1_l. unfold MAX_LOG2_SLI. fold p. apply i32_small. lia. }
    set (r1 := r + (p - 1)). assert (u32 r1 = r1) as -> by (apply u32_small; lia).
    assert (Z.land r1 (u32 (Z.lnot (p - 1))) = p * (r1 / p)) as -> by (apply land_lnot_ones; lia).
    assert (exists k1, Z.log2 r1 = k1 /\ 7 <= k1 < 30 /\ 2 ^ k1 <= r1 < 2 ^ (k1 + 1) /\
      2 ^ (k1 - 5) * (r1 / 2 ^ (k1 - 5)) = p * (r1 / p)) as (k1 & El & Hk1 & Hb1 & Er).
    { destruct (Z.ltb_spec r1 (2 ^ (k + 1))) as [Hlt|Hge].
      - exists k. split; [apply Z.log2_unique; lia|]. split; [|split; [lia|done]].
        split; [lia|]. apply (Z.pow_lt_mono_r_iff 2); lia.
      - exists (k + 1). rewrite (Z.pow_add_r 2 (k + 1) 1), Ek1 by lia.
        split; [apply Z.log2_unique; rewrite ?(Z.pow_succ_r 2 (k + 1)), ?Ek1 by lia; lia|].
        split; [split; [lia|]; apply (Z.pow_lt_mono_r_iff 2); lia|]. split; [lia|].
        replace (k + 1 - 5) with (k - 5 + 1) by lia. rewrite Z.pow_add_r by lia. fold p. change (2 ^ 1) with 2.
        rewrite <- (Z.div_unique r1 (p * 2) 32 (r1 - p * 64)), <- (Z.div_unique r1 p 64 (r1 - p * 64)) by lia. lia. }
    rewrite ms_bit_log2, El by lia. destruct (shift_class r1 k1) as (HS1 & HS2 & HS3); [lia|done|].
    rewrite i32_small by (unfold MAX_SLI in *; lia). intros [= <- <- <-]. rewrite HS3, Er.
    pose proof (Z.div_mod r1 p ltac:(lia)). pose proof (Z.mod_pos_bound r1 p ltac:(lia)).
    unfold REAL_FLI, MAX_FLI, FLI_OFFSET. repeat split; try apply HS1; lia.
Qed.

(** Good fit: a block of the class found, or of a later one, is big enough. *)
Lemma good_fit r r' fl sl b fl' sl' : 0 <= r -> r mod 4 = 0 -> r + r / 32 < 2 ^ 30 -> 0 <= b < 2 ^ 32 ->
  MAPPING_SEARCH r = (r', fl, sl) -> MAPPING_INSERT b = (fl', sl') -> class_le fl sl fl' sl' -> r <= r' <= b.
Proof.
  intros Hr H4 Hmax Hb Hs Hi Hle. destruct (mapping_search_class r r' fl sl) as (Hf & Hsl & -> & Hr'); try done.
  destruct (mapping_insert_class b fl' sl') as (Hf' & Hsl' & Hb'); try done.
  assert (class_lo fl sl <= class_lo fl' sl') by (apply class_lo_mono; [lia|done..]). lia.
Qed.

(** ** The search of the bitmaps *)

(** The class has a free block, by its bit. *)
Definition full (m : gmap Z Z) (t fl sl : Z) : Prop :=
  0 <= fl < REAL_FLI /\ 0 <= sl < MAX_SLI /\ Z.testbit (peek m (sl_bitmap t fl)) sl = true.

(** The two levels of bitmaps agree. *)
Record bitmaps_ok (m : gmap Z Z) (t : Z) : Prop := {
  bm_addr : 0 < t /\ t mod 4 = 0;
  bm_fl : word32 (peek m (fl_bitmap t));
  bm_sl : forall fl, 0 <= fl < REAL_FLI -> word32 (peek m (sl_bitmap t fl));
  bm_row : forall fl, 0 <= fl < 32 -> Z.testbit (peek m (fl_bitmap t)) fl = true <->
    fl < REAL_FLI /\ peek m (sl_bitmap t fl) <> 0
}.

(** [w & (~0 << n)] *)
Lemma mask_high w n : word32 w -> 0 <= n -> forall j, 0 <= j < 32 ->
  Z.testbit (Z.land w (u32 (Z.shiftl (-1) n))) j = Z.testbit w j && (n <=? j).
Proof.
  intros Hw Hn j Hj. rewrite Z.land_spec. unfold u32. rewrite wrapu_testbit by done.
  destruct (Z.leb_spec n j); [rewrite Z.shiftl_spec by lia; by rewrite Z.bits_m1 by lia|].
  by rewrite Z.shiftl_spec_low by done.
Qed.

Lemma mask_word w n : word32 w -> word32 (Z.land w (u32 (Z.shiftl (-1) n))).
Proof.
  intros Hw. split; [apply Z.land_nonneg; left; apply Hw|].
  pose proof (wrapu_range 32 (Z.shiftl (-1) n) ltac:(lia)) as Hu. fold u32 in Hu. destruct Hw as [Hw0 Hw1].
  destruct (Z.eq_dec (Z.land w (u32 (Z.shiftl (-1) n))) 0) as [->|Hne]; [lia|].
  apply Z.log2_lt_pow2; [assert (0 <= Z.land w (u32 (Z.shiftl (-1) n))) by (apply Z.land_nonneg; by left); lia|].
  eapply Z.le_lt_trans; [apply Z.log2_land; lia|]. apply Z.min_lt_iff. left.
  destruct (Z.eq_dec w 0) as [->|]; [done|]. apply Z.log2_lt_pow2; lia.
Qed.

(** The lowest bit set from [n] on, or none. *)
Lemma ls_bit_from w n : word32 w -> 0 <= n ->
  let x := Z.land w (u32 (Z.shiftl (-1) n)) in
  if nz x then n <= ls_bit x < 32 /\ Z.testbit w (ls_bit x) = true /\
               forall j, n <= j < ls_bit x -> Z.testbit w j = false
  else ls_bit x = -1 /\ forall j, n <= j < 32 -> Z.testbit w j = false.
Proof.
  intros Hw Hn x. pose proof (mask_word w n Hw) as Hx. pose proof (mask_high w n Hw Hn) as Hm. fold x in Hx, Hm.
  unfold nz. destruct (Z.eqb_spec x 0) as [E|E]; cbn [negb].
  - rewrite E. split; [done|]. intros j Hj. specialize (Hm j ltac:(lia)). rewrite E, Z.bits_0 in Hm.
    destruct (Z.leb_spec n j); [by rewrite andb_true_r in Hm|lia].
  - destruct (ls_bit_first x Hx E) as (Hk & Hb & Hlow). rewrite Hm in Hb by done. apply andb_true_iff in Hb as [Hb Hle].
    apply Z.leb_le in Hle. split; [lia|]. split; [done|]. intros j Hj. specialize (Hlow j ltac:(lia)).
    rewrite Hm in Hlow by lia. destruct (Z.leb_spec n j); [by rewrite andb_true_r in Hlow|lia].
Qed.

Lemma wp_tload a (Q : Z -> tlsf_state -> Prop) st :
  valid_addr a = true -> Q (peek (t_mem st) a) st -> wp (mem (load a)) Q st.
Proof. intros Ha HQ. unfold wp, mem, zoom. rewrite load_valid by done. by destruct st. Qed.

Lemma tlsf_addr m t : bitmaps_ok m t -> forall n, 0 <= n -> valid_addr (t + 4 * n) = true.
Proof.
  intros [Ht _ _ _] n Hn. apply valid_addr_spec. split; [lia|]. rewrite (Z.mul_comm 4 n), Z.mod_add by done. apply Ht.
Qed.

(** The search returns the head of the first class with a free block, from the
    class [(fl, sl)] on; or NULL when there is none. *)
Lemma wp_find_suitable st t fl sl :
  bitmaps_ok (t_mem st) t -> 0 <= fl < REAL_FLI -> 0 <= sl < MAX_SLI ->
  wp (FIND_SUITABLE_BLOCK t fl sl) (fun '(b, fl', sl') st' => st' = st /\
    ((full (t_mem st) t fl' sl' /\ class_le fl sl fl' sl' /\ b = peek (t_mem st) (matrix t fl' sl') /\
      forall f s, full (t_mem st) t f s -> class_le fl sl f s -> class_le fl' sl' f s) \/
     (b = NULL /\ forall f s, full (t_mem st) t f s -> ~ class_le fl sl f s))) st.
Proof.
  intros Hok Hf Hs. pose proof (tlsf_addr _ _ Hok) as Ha. unfold FIND_SUITABLE_BLOCK.
  assert (forall f, 0 <= f -> valid_addr (sl_bitmap t f) = true) as Hsl.
  { intros f Hf0. unfold sl_bitmap. replace (t + 12 + 4 * f) with (t + 4 * (3 + f)) by lia. apply Ha. lia. }
  assert (forall f s, 0 <= f -> 0 <= s -> valid_addr (matrix t f s) = true) as Hmx.
  { intros f s Hf0 Hs0. unfold matrix, MAX_SLI. assert (0 <= REAL_FLI) by done.
    replace (t + 12 + 4 * REAL_FLI + 4 * (f * 32 + s)) with (t + 4 * (3 + REAL_FLI + f * 32 + s)) by lia. apply Ha. lia. }
  apply wp_bind, wp_tload; [apply Hsl; lia|].
  pose proof (ls_bit_from (peek (t_mem st) (sl_bitmap t fl)) sl (bm_sl _ _ Hok fl Hf) ltac:(lia)) as H1. cbv zeta in H1.
  destruct (nz (Z.land (peek (t_mem st) (sl_bitmap t fl)) _)).
  - destruct H1 as (Hk & Hb & Hlow). apply wp_bind, wp_tload; [apply Hmx; lia|]. apply wp_ret. split; [done|]. left.
    split; [by split; [|split; [unfold MAX_SLI in *; lia|]]|]. split; [right; lia|]. split; [done|].
    intros f s (Hf' & Hs' & Hb') [Hlt|[<- Hle]]; [by left|]. right. split; [done|].
    destruct (Z.leb_spec (ls_bit (Z.land (peek (t_mem st) (sl_bitmap t fl)) (u32 (Z.shiftl (-1) sl)))) s); [done|].
    rewrite Hlow in Hb' by lia. done.
  - destruct H1 as [_ Hnone].
    assert (forall f s, full (t_mem st) t f s -> class_le fl sl f s -> fl < f) as Hup.
    { intros f s (_ & Hs' & Hb') [?|[<- Hle]]; [done|]. unfold MAX_SLI in *. rewrite Hnone in Hb' by lia. done. }
    assert (forall f s, full (t_mem st) t f s -> Z.testbit (peek (t_mem st) (fl_bitmap t)) f = true) as Hrow.
    { intros f s (Hf' & Hs' & Hb'). assert (REAL_FLI = 24) by done. apply (bm_row _ _ Hok); [lia|]. split; [lia|].
      intros E. by rewrite E, Z.bits_0 in Hb'. }
    apply wp_bind, wp_tload; [unfold fl_bitmap; apply (Ha 2); lia|].
    pose proof (ls_bit_from (peek (t_mem st) (fl_bitmap t)) (fl + 1) (bm_fl _ _ Hok) ltac:(lia)) as H2. cbv zeta in H2.
    set (f2 := ls_bit (Z.land (peek (t_mem st) (fl_bitmap t)) _)) in *. destruct (nz _).
    + destruct H2 as (Hk & Hb & Hlow). destruct (Z.gtb_spec f2 0); [|lia].
      apply (bm_row _ _ Hok) in Hb as [Hf2 Hne]; [|lia]. apply wp_bind, wp_tload; [apply Hsl; lia|].
      destruct (ls_bit_first (peek (t_mem st) (sl_bitmap t f2))) as (Hk2 & Hb2 & Hlow2); [apply (bm_sl _ _ Hok); lia|done|].
      apply wp_bind, wp_tload; [apply Hmx; lia|]. apply wp_ret. split; [done|]. left.
      split; [by split; [lia|]|]. split; [left; lia|]. split; [done|].
      intros f s Hfull Hle. pose proof (Hup f s Hfull Hle). pose proof (Hrow f s Hfull) as Hr.
      destruct (Z.lt_trichotomy f2 f) as [?|[<-|Hlt]]; [by left| |by rewrite Hlow in Hr by lia].
      right. split; [done|]. destruct Hfull as (_ & Hs' & Hb').
      destruct (Z.leb_spec (ls_bit (peek (t_mem st) (sl_bitmap t f2))) s); [done|]. by rewrite Hlow2 in Hb' by lia.
    + destruct H2 as [E Hno]. rewrite E. cbn. apply wp_ret. split; [done|]. right. split; [done|].
      intros f s Hfull Hle. pose proof (Hup f s Hfull Hle). pose proof (Hrow f s Hfull) as Hr.
      destruct Hfull as (Hf' & _). assert (REAL_FLI = 24) by done. by rewrite Hno in Hr by lia.
Qed.
