(* ===== verification/TlsfFree.v ===== *)
(** * The free lists of TLSF

    The free blocks of a class are in a doubly linked list through their
    payload; [matrix] has the heads and two levels of bitmaps mark the classes
    that are not empty. [lists_ok m t F] says that the pool at [t] has the free
    lists [F] in memory [m], and the three routines that change a list are
    verified against it. *)

From Stdlib Require Import ZArith Lia.
From stdpp Require Import base tactics gmap option functions list.
From S2P Require Import Prelude Bits Mem Kstate Tlsf TlsfMap.

Open Scope Z_scope.
Open Scope kernel_scope.

Lemma wp_tstore a v (Q : unit -> tlsf_state -> Prop) m mp :
  valid_addr a = true -> Q tt (mk_tlsf (<[a := v]> m) mp) -> wp (mem (store a v)) Q (mk_tlsf m mp).
Proof. intros Ha HQ. unfold wp, mem, zoom. cbn [t_mem t_mp]. by rewrite store_valid. Qed.

Lemma wp_tmem {A} (f : M (gmap Z Z) A) (Q : A -> tlsf_state -> Prop) m mp :
  wp f (fun a m' => Q a (mk_tlsf m' mp)) m -> wp (mem f) Q (mk_tlsf m mp).
Proof. unfold wp, mem, zoom. cbn [t_mem t_mp]. by destruct (f m) as [[? ?]|]. Qed.

(** [m'] is [m] but for words of [X]. *)
Definition changes (X : Z -> Prop) (m m' : gmap Z Z) : Prop := forall x, ~ X x -> peek m' x = peek m x.

Lemma changes_refl X m : changes X m m.
Proof. done. Qed.

Lemma changes_trans (X : Z -> Prop) m1 m2 m3 : changes X m1 m2 -> changes X m2 m3 -> changes X m1 m3.
Proof. intros H1 H2 x Hx. by rewrite H2, H1. Qed.

Lemma changes_mono (X Y : Z -> Prop) m m' : (forall x, X x -> Y x) -> changes X m m' -> changes Y m m'.
Proof. intros HXY H x Hx. apply H. auto. Qed.

Lemma changes_insert (X : Z -> Prop) m a v : X a -> changes X m (<[a := v]> m).
Proof. intros Ha x Hx. rewrite peek_insert. case_decide; [by subst|done]. Qed.

Create HintDb tlsf.
#[export] Hint Resolve changes_refl changes_insert : tlsf.

(** ** The control structure *)

Abbreviation cls := (Z * Z)%type.

Definition valid_cls (c : cls) : Prop := 0 <= c.1 < REAL_FLI /\ 0 <= c.2 < MAX_SLI.

(** The first block behind the control structure. *)
Definition heap_base (t : Z) : Z := t + ROUNDUP_SIZE sizeof_tlsf.

Lemma heap_base_eq t : heap_base t = t + 3184.
Proof. done. Qed.

(** A block header lies behind the control structure, a multiple of eight
    bytes from its end. *)
Definition node (t a : Z) : Prop := exists k, a = heap_base t + 8 * k /\ 0 <= k.

(** The words of the two bitmaps. *)
Definition bitmap_word (t x : Z) : Prop := x = fl_bitmap t \/ exists fl, 0 <= fl < REAL_FLI /\ x = sl_bitmap t fl.

Definition matrix_word (t x : Z) : Prop := exists c, valid_cls c /\ x = matrix t c.1 c.2.

(** The links of the blocks of [A]. *)
Definition link_word (A : Z -> Prop) (x : Z) : Prop := exists a, A a /\ (x = free_prev a \/ x = free_next a).

(** The bitmaps mark the classes [E]. *)
Record bits_ok (m : gmap Z Z) (t : Z) (E : cls -> bool) : Prop := {
  bo_maps : bitmaps_ok m t;
  bo_bit : forall c, valid_cls c -> Z.testbit (peek m (sl_bitmap t c.1)) c.2 = E c
}.

Ltac tlsf_consts := change REAL_FLI with 24 in *; change MAX_SLI with 32 in *.

Ltac tlsf_words :=
  unfold bitmap_word, matrix_word, link_word, valid_cls, node, sl_bitmap, fl_bitmap, matrix, free_prev, free_next,
    prev_hdr, Tlsf.size in *; rewrite ?heap_base_eq in *; tlsf_consts.

Lemma node_addr t a k : 0 < t -> t mod 4 = 0 -> node t a -> 0 <= k -> valid_addr (a + 4 * k) = true.
Proof.
  intros Ht H4 (j & -> & Hj) Hk. rewrite heap_base_eq. apply valid_addr_spec. split; [lia|].
  replace (t + 3184 + 8 * j + 4 * k) with (t + (796 + 2 * j + k) * 4) by lia. by rewrite Z.mod_add.
Qed.

Lemma bits_frame m m' t E : bits_ok m t E -> (forall x, bitmap_word t x -> peek m' x = peek m x) -> bits_ok m' t E.
Proof.
  intros [[H1 H2 H3 H4] Hb] Hf.
  assert (peek m' (fl_bitmap t) = peek m (fl_bitmap t)) as Ef by (apply Hf; by left).
  assert (forall fl, 0 <= fl < REAL_FLI -> peek m' (sl_bitmap t fl) = peek m (sl_bitmap t fl)) as Es.
  { intros fl Hfl. apply Hf. right. by exists fl. }
  split; [split; [done|by rewrite Ef|intros fl Hfl; rewrite Es by done; auto|]|].
  - intros fl Hfl. rewrite Ef, H4 by done. split; intros [Hlt Hne]; (split; [done|]); [rewrite Es by lia|rewrite Es in Hne by lia]; done.
  - intros c Hc. rewrite Es by apply Hc. auto.
Qed.

(** A change of the bit [(fl, sl)], and of the row bit after it. *)
Lemma bits_update m m' t E fl sl b :
  bits_ok m t E -> valid_cls (fl, sl) ->
  word32 (peek m' (sl_bitmap t fl)) -> word32 (peek m' (fl_bitmap t)) ->
  (forall f, 0 <= f < REAL_FLI -> f <> fl -> peek m' (sl_bitmap t f) = peek m (sl_bitmap t f)) ->
  (forall j, 0 <= j < 32 -> Z.testbit (peek m' (sl_bitmap t fl)) j =
     if j =? sl then b else Z.testbit (peek m (sl_bitmap t fl)) j) ->
  (forall f, 0 <= f < 32 -> f <> fl -> Z.testbit (peek m' (fl_bitmap t)) f = Z.testbit (peek m (fl_bitmap t)) f) ->
  (Z.testbit (peek m' (fl_bitmap t)) fl = true <-> peek m' (sl_bitmap t fl) <> 0) ->
  bits_ok m' t (<[(fl, sl) := b]> E).
Proof.
  intros [[H1 H2 H3 H4] Hb] [Hfl Hsl] Hw Hw2 Hrest Hbit Hrows Hrow. cbn [fst snd] in *. split; [split|].
  - done.
  - done.
  - intros f Hf. destruct (decide (f = fl)) as [->|]; [done|]. rewrite Hrest by done. auto.
  - intros f Hf. destruct (decide (f = fl)) as [->|]; [rewrite Hrow; tauto|]. rewrite Hrows, H4 by done.
    split; intros [Hlt Hne]; (split; [done|]); [rewrite Hrest by (done || lia)|rewrite Hrest in Hne by (done || lia)]; done.
  - intros [f s] [Hf Hs]. cbn [fst snd] in *. destruct (decide (f = fl)) as [->|Hne].
    + rewrite Hbit by (unfold MAX_SLI in *; lia). destruct (Z.eqb_spec s sl) as [->|Hns].
      * by rewrite fn_lookup_insert.
      * rewrite fn_lookup_insert_ne by congruence. by apply (Hb (fl, s)).
    + rewrite Hrest, fn_lookup_insert_ne by (done || congruence). by apply (Hb (f, s)).
Qed.

Lemma shiftr5 nr : 0 <= nr < 32 -> Z.shiftr nr 5 = 0 /\ Z.land nr 0x1f = nr.
Proof.
  intros H. rewrite Z.shiftr_div_pow2 by lia. change 0x1f with (Z.ones 5). rewrite Z.land_ones by lia.
  change (2 ^ 5) with 32. split; [by apply Z.div_small|by apply Z.mod_small].
Qed.

Lemma wp_set_bit nr a (Q : unit -> tlsf_state -> Prop) m mp : 0 <= nr < 32 -> valid_addr a = true ->
  Q tt (mk_tlsf (<[a := setbit (peek m a) nr]> m) mp) -> wp (set_bit nr a) Q (mk_tlsf m mp).
Proof.
  intros Hn Ha HQ. destruct (shiftr5 nr Hn) as [E1 E2]. unfold set_bit. rewrite E1, E2, Z.add_0_r.
  apply wp_bind, wp_tload; [done|]. by apply wp_tstore.
Qed.

Lemma wp_clear_bit nr a (Q : unit -> tlsf_state -> Prop) m mp : 0 <= nr < 32 -> valid_addr a = true ->
  Q tt (mk_tlsf (<[a := clearbit (peek m a) nr]> m) mp) -> wp (clear_bit nr a) Q (mk_tlsf m mp).
Proof.
  intros Hn Ha HQ. destruct (shiftr5 nr Hn) as [E1 E2]. unfold clear_bit. rewrite E1, E2, Z.add_0_r.
  apply wp_bind, wp_tload; [done|]. by apply wp_tstore.
Qed.

Lemma control_addr t n : 0 < t -> t mod 4 = 0 -> 0 <= n -> valid_addr (t + 4 * n) = true.
Proof.
  intros Ht H4 Hn. apply valid_addr_spec. split; [lia|]. rewrite (Z.mul_comm 4 n), Z.mod_add by done. done.
Qed.

Lemma sl_addr t fl : 0 < t -> t mod 4 = 0 -> 0 <= fl -> valid_addr (sl_bitmap t fl) = true.
Proof.
  intros. unfold sl_bitmap. replace (t + 12 + 4 * fl) with (t + 4 * (3 + fl)) by lia. apply control_addr; lia.
Qed.

Lemma matrix_addr t fl sl : 0 < t -> t mod 4 = 0 -> valid_cls (fl, sl) -> valid_addr (matrix t fl sl) = true.
Proof.
  intros Ht H4 [Hf Hs]. cbn in Hf, Hs. unfold matrix. tlsf_consts.
  replace (t + 12 + 4 * 24 + 4 * (fl * 32 + sl)) with (t + 4 * (27 + fl * 32 + sl)) by lia. apply control_addr; lia.
Qed.

Lemma nz_word w j : 0 <= j -> Z.testbit w j = true -> w <> 0.
Proof. intros Hj Hb ->. by rewrite Z.bits_0 in Hb. Qed.

(** [set_bit(sl, &sl_bitmap[fl]); set_bit(fl, &fl_bitmap)] *)
Lemma wp_set_class m t E fl sl (Q : unit -> tlsf_state -> Prop) mp :
  bits_ok m t E -> valid_cls (fl, sl) ->
  (forall m', bits_ok m' t (<[(fl, sl) := true]> E) -> changes (bitmap_word t) m m' -> Q tt (mk_tlsf m' mp)) ->
  wp (set_bit sl (sl_bitmap t fl) ;;; set_bit fl (fl_bitmap t)) Q (mk_tlsf m mp).
Proof.
  intros Hok Hc HQ. pose proof (bo_maps _ _ _ Hok) as [[Ht H4] Hwf Hws _]. pose proof Hc as [Hf Hs]. cbn [fst snd] in Hf, Hs.
  apply wp_bind, wp_set_bit; [tlsf_consts; lia|apply sl_addr; lia|].
  apply wp_set_bit; [tlsf_consts; lia|apply (control_addr t 2); lia|].
  assert (sl_bitmap t fl <> fl_bitmap t) as Hne by (tlsf_words; lia). apply HQ.
  - eapply bits_update; [exact Hok|done|..].
    + rewrite peek_insert_ne, peek_insert_eq by done. auto with bits.
    + rewrite peek_insert_eq, peek_insert_ne by done. auto with bits.
    + intros f Hf' Hn. rewrite !peek_insert_ne; [done|tlsf_words; lia..].
    + intros j Hj. rewrite peek_insert_ne, peek_insert_eq by done. rewrite setbit_spec by (tlsf_consts; lia).
      rewrite Z.eqb_sym. by destruct (j =? sl).
    + intros f Hf' Hn. rewrite peek_insert_eq, (peek_insert_ne _ (sl_bitmap t fl) (fl_bitmap t)) by done.
      rewrite setbit_spec by (tlsf_consts; lia). destruct (Z.eqb_spec fl f); [lia|done].
    + rewrite peek_insert_eq, !peek_insert_ne, peek_insert_eq by done.
      rewrite setbit_spec by (tlsf_consts; lia). rewrite Z.eqb_refl. split; [intros _|done].
      apply (nz_word _ sl); [tlsf_consts; lia|]. rewrite setbit_spec by (tlsf_consts; lia). by rewrite Z.eqb_refl.
  - eapply changes_trans; apply changes_insert; [right; by exists fl|by left].
Qed.

Lemma wp_clear_class m t E fl sl (Q : unit -> tlsf_state -> Prop) mp :
  bits_ok m t E -> valid_cls (fl, sl) ->
  (forall m', bits_ok m' t (<[(fl, sl) := false]> E) -> changes (bitmap_word t) m m' -> Q tt (mk_tlsf m' mp)) ->
  wp (clear_class t fl sl) Q (mk_tlsf m mp).
Proof.
  intros Hok Hc HQ. pose proof (bo_maps _ _ _ Hok) as [[Ht H4] Hwf Hws Hrow]. pose proof Hc as [Hf Hs]. cbn [fst snd] in Hf, Hs.
  assert (sl_bitmap t fl <> fl_bitmap t) as Hne by (tlsf_words; lia). unfold clear_class.
  apply wp_bind, wp_clear_bit; [tlsf_consts; lia|apply sl_addr; lia|].
  apply wp_bind, wp_tload; [apply sl_addr; lia|]. cbn [t_mem]. rewrite peek_insert_eq.
  set (w := clearbit (peek m (sl_bitmap t fl)) sl). assert (word32 w) as Hw by (unfold w; auto with bits).
  assert (forall j, 0 <= j < 32 -> Z.testbit w j = if j =? sl then false else Z.testbit (peek m (sl_bitmap t fl)) j) as Hbits.
  { intros j Hj. unfold w. rewrite clearbit_spec by (tlsf_consts; lia). rewrite Z.eqb_sym. by destruct (j =? sl). }
  assert (changes (bitmap_word t) m (<[sl_bitmap t fl := w]> m)) as Hch.
  { apply changes_insert. right. by exists fl. }
  unfold nz. destruct (Z.eqb_spec w 0) as [Ew|Ew]; cbn [negb when].
  - apply wp_clear_bit; [tlsf_consts; lia|apply (control_addr t 2); lia|]. rewrite peek_insert_ne by done. apply HQ.
    + eapply bits_update; [exact Hok|done|..].
      * by rewrite peek_insert_ne, peek_insert_eq by done.
      * rewrite peek_insert_eq. auto with bits.
      * intros f Hf' Hn. rewrite !peek_insert_ne; [done|tlsf_words; lia..].
      * intros j Hj. rewrite peek_insert_ne, peek_insert_eq by done. auto.
      * intros f Hf' Hn. rewrite peek_insert_eq, clearbit_spec by (tlsf_consts; lia).
        destruct (Z.eqb_spec fl f); [lia|done].
      * rewrite peek_insert_eq, peek_insert_ne, peek_insert_eq, clearbit_spec by (done || tlsf_consts; lia).
        by rewrite Z.eqb_refl, Ew.
    + eapply changes_trans; [exact Hch|]. apply changes_insert. by left.
  - apply wp_ret, HQ; [|done]. eapply bits_update; [exact Hok|done|..].
    + by rewrite peek_insert_eq.
    + by rewrite peek_insert_ne.
    + intros f Hf' Hn. rewrite peek_insert_ne; [done|tlsf_words; lia].
    + intros j Hj. rewrite peek_insert_eq. auto.
    + intros f Hf' Hn. by rewrite peek_insert_ne.
    + rewrite peek_insert_eq, peek_insert_ne, Hrow by (done || tlsf_consts; lia). split; [done|]. intros _. split; [lia|].
      intros E0. apply Ew. apply word32_bits0; [done|]. intros j Hj. rewrite Hbits, E0, Z.bits_0 by done.
      by destruct (j =? sl).
Qed.

(** ** Doubly linked lists of blocks *)

(** The blocks [l] are linked, [p] before the first and [n] after the last. *)
Fixpoint dll (m : gmap Z Z) (p : Z) (l : list Z) (n : Z) : Prop :=
  match l with
  | [] => True
  | x :: l' => peek m (free_prev x) = p /\ peek m (free_next x) = hd n l' /\ dll m x l' n
  end.

Lemma dll_app m p l1 l2 n : dll m p (l1 ++ l2) n <-> dll m p l1 (hd n l2) /\ dll m (default p (last l1)) l2 n.
Proof.
  revert p. induction l1 as [|x l1 IH]; intros p; [simpl; tauto|]. cbn [app dll]. rewrite IH, last_cons.
  assert (hd n (l1 ++ l2) = hd (hd n l2) l1) as -> by (by destruct l1).
  destruct (last l1); cbn; tauto.
Qed.

Lemma dll_frame m m' p l n : dll m p l n ->
  (forall x, link_word (fun a => a ∈ l) x -> peek m' x = peek m x) -> dll m' p l n.
Proof.
  revert p. induction l as [|x l IH]; intros p; [done|]. cbn [dll]. intros (H1 & H2 & H3) Hf.
  rewrite !Hf by (exists x; split; [left|auto]). split_and!; [done..|]. apply IH; [done|].
  intros y (a & Ha & Hy). apply Hf. exists a. split; [by right|done].
Qed.

(** Links of distinct blocks are distinct words. *)
Lemma link_ne t a b : node t a -> node t b -> a <> b ->
  free_prev a <> free_prev b /\ free_prev a <> free_next b /\ free_next a <> free_prev b /\ free_next a <> free_next b.
Proof. intros (j & -> & Hj) (k & -> & Hk) Hne. tlsf_words. lia. Qed.

(** Relinking an end of a list. *)
Lemma dll_set_prev t m p p' x l n : Forall (node t) (x :: l) -> x ∉ l -> dll m p (x :: l) n ->
  dll (<[free_prev x := p']> m) p' (x :: l) n.
Proof.
  intros Hn Hx (H1 & H2 & H3). cbn [dll]. apply Forall_cons in Hn as [Hnx Hnl]. split_and!.
  - by rewrite peek_insert_eq.
  - rewrite peek_insert_ne; [done|]. unfold free_prev, free_next. lia.
  - eapply dll_frame; [exact H3|]. intros y (a & Ha & Hy).
    rewrite Forall_forall in Hnl. pose proof (link_ne t x a Hnx (Hnl a Ha) ltac:(congruence)).
    apply peek_insert_ne. intros <-. naive_solver.
Qed.

Lemma dll_set_next t m p l x n n' : Forall (node t) (l ++ [x]) -> x ∉ l -> dll m p (l ++ [x]) n ->
  dll (<[free_next x := n']> m) p (l ++ [x]) n'.
Proof.
  intros Hn Hx. rewrite !dll_app. cbn [dll hd]. intros (H1 & H2 & _ & _). apply Forall_app in Hn as [Hnl [Hnx _]%Forall_cons].
  split_and!; [|rewrite peek_insert_ne; [done|unfold free_prev, free_next; lia]|by rewrite peek_insert_eq|done].
  eapply dll_frame; [exact H1|]. intros y (a & Ha & Hy).
  rewrite Forall_forall in Hnl. pose proof (link_ne t x a Hnx (Hnl a Ha) ltac:(congruence)).
  apply peek_insert_ne. intros <-. naive_solver.
Qed.

(** ** The free lists of a pool *)

Record lists_ok (m : gmap Z Z) (t : Z) (F : cls -> list Z) : Prop := {
  lo_bits : bits_ok m t (fun c => bool_decide (F c <> []));
  lo_head : forall c, valid_cls c -> peek m (matrix t c.1 c.2) = hd NULL (F c);
  lo_dll : forall c, dll m NULL (F c) NULL;
  lo_node : forall c a, a ∈ F c -> valid_cls c /\ node t a;
  lo_nodup : forall c, NoDup (F c);
  lo_disj : forall c c' a, a ∈ F c -> a ∈ F c' -> c = c'
}.

(** The words that a change of the free lists [F] can write. *)
Definition list_word (t : Z) (A : Z -> Prop) (x : Z) : Prop := bitmap_word t x \/ matrix_word t x \/ link_word A x.

Definition filed (F : cls -> list Z) (a : Z) : Prop := exists c, a ∈ F c.

Lemma bits_ext m t E E' : (forall c, E c = E' c) -> bits_ok m t E -> bits_ok m t E'.
Proof. intros HE [H1 H2]. split; [done|]. intros c Hc. rewrite <- HE. auto. Qed.

Lemma matrix_inj t c c' : valid_cls c -> valid_cls c' -> matrix t c.1 c.2 = matrix t c'.1 c'.2 -> c = c'.
Proof. destruct c, c'. tlsf_words. cbn [fst snd]. intros. f_equal; lia. Qed.

(** The three kinds of words are disjoint. *)
Lemma bitmap_not_matrix t x : bitmap_word t x -> ~ matrix_word t x.
Proof. tlsf_words. intros Hx (c & [Hf Hs] & ->). destruct Hx as [Hx|(fl & Hfl & Hx)]; lia. Qed.

Lemma bitmap_not_link t A x : (forall a, A a -> node t a) -> bitmap_word t x -> ~ link_word A x.
Proof.
  intros HA Hx (a & Ha & Hl). destruct (HA a Ha) as (k & -> & Hk). tlsf_words.
  destruct Hx as [Hx|(fl & Hfl & Hx)]; lia.
Qed.

Lemma matrix_not_link t A x : (forall a, A a -> node t a) -> matrix_word t x -> ~ link_word A x.
Proof.
  intros HA (c & [Hf Hs] & Hx) (a & Ha & Hl). destruct (HA a Ha) as (k & -> & Hk). tlsf_words. lia.
Qed.

(** A change of the list of one class to [l]. *)
Lemma lists_update m m' t F c l :
  lists_ok m t F -> valid_cls c -> bits_ok m' t (<[c := bool_decide (l <> [])]> (fun c => bool_decide (F c <> []))) ->
  peek m' (matrix t c.1 c.2) = hd NULL l -> dll m' NULL l NULL -> NoDup l ->
  (forall a, a ∈ l -> node t a /\ forall c', c' <> c -> a ∉ F c') ->
  (forall c', valid_cls c' -> c' <> c -> peek m' (matrix t c'.1 c'.2) = peek m (matrix t c'.1 c'.2)) ->
  (forall c' x, c' <> c -> link_word (fun a => a ∈ F c') x -> peek m' x = peek m x) ->
  lists_ok m' t (<[c := l]> F).
Proof.
  intros [H1 H2 H3 H4 H5 H6] Hc Hbits Hhead Hdll Hnd Hl Hmat Hlink. split.
  - eapply bits_ext; [|exact Hbits]. intros c'. destruct (decide (c' = c)) as [->|]; [by rewrite !fn_lookup_insert|].
    by rewrite !fn_lookup_insert_ne by done.
  - intros c' Hc'. destruct (decide (c' = c)) as [->|]; [by rewrite fn_lookup_insert|].
    rewrite fn_lookup_insert_ne, Hmat by done. auto.
  - intros c'. destruct (decide (c' = c)) as [->|]; [by rewrite fn_lookup_insert|].
    rewrite fn_lookup_insert_ne by done. eapply dll_frame; [apply H3|]. intros x. by apply Hlink.
  - intros c' a. destruct (decide (c' = c)) as [->|]; [rewrite fn_lookup_insert|rewrite fn_lookup_insert_ne by done; apply H4].
    intros Ha. split; [done|]. by apply Hl.
  - intros c'. destruct (decide (c' = c)) as [->|]; [by rewrite fn_lookup_insert|]. by rewrite fn_lookup_insert_ne.
  - intros c1 c2 a. destruct (decide (c1 = c)) as [->|], (decide (c2 = c)) as [->|];
      rewrite ?fn_lookup_insert, ?fn_lookup_insert_ne by done; [done|..].
    + intros Ha Hb. destruct (Hl a Ha) as [_ H]. by destruct (H c2).
    + intros Ha Hb. destruct (Hl a Hb) as [_ H]. by destruct (H c1).
    + apply H6.
Qed.

(** ** The routines *)

Lemma node_nz t a : 0 < t -> node t a -> nz a = true.
Proof. intros Ht (k & -> & Hk). rewrite heap_base_eq. unfold nz. by destruct (Z.eqb_spec (t + 3184 + 8 * k) 0); [lia|]. Qed.

Lemma link_addr t a : 0 < t -> t mod 4 = 0 -> node t a -> valid_addr (free_prev a) = true /\ valid_addr (free_next a) = true.
Proof.
  intros Ht H4 Ha. unfold free_prev, free_next. split; [apply (node_addr t a 2)|apply (node_addr t a 3)]; (done || lia).
Qed.

Lemma lists_addr m t F : lists_ok m t F -> 0 < t /\ t mod 4 = 0.
Proof. intros [[[H _ _ _] _] _ _ _ _ _]. exact H. Qed.

Lemma filed_node m t F a : lists_ok m t F -> filed F a -> node t a.
Proof. intros H [c Hc]. by apply (lo_node _ _ _ H c). Qed.

(** Links of a list other than the one of class [c] are no links of [A]. *)
Lemma link_apart t (A B : Z -> Prop) x : (forall a, A a -> node t a) -> (forall a, B a -> node t a) ->
  (forall a, A a -> ~ B a) -> link_word A x -> ~ link_word B x.
Proof.
  intros HA HB HAB (a & Ha & Hx) (b & Hb & Hy). assert (a <> b) as Hne by (intros <-; by apply (HAB a)).
  pose proof (link_ne t a b (HA a Ha) (HB b Hb) Hne). intuition congruence.
Qed.

(** Replacing the list of [c] by [l]: the links of [A] are rewritten, then the
    head, then the bits. *)
Lemma lists_replace m m1 m' t F c l (A : Z -> Prop) :
  lists_ok m t F -> valid_cls c -> NoDup l ->
  (forall a, A a -> node t a /\ forall c', c' <> c -> a ∉ F c') -> (forall a, a ∈ l -> A a) ->
  changes (fun x => x = matrix t c.1 c.2 \/ link_word A x) m m1 -> changes (bitmap_word t) m1 m' ->
  bits_ok m' t (<[c := bool_decide (l <> [])]> (fun c => bool_decide (F c <> []))) ->
  peek m1 (matrix t c.1 c.2) = hd NULL l -> dll m1 NULL l NULL ->
  lists_ok m' t (<[c := l]> F).
Proof.
  intros Hok Hc Hnd HA Hl Hch Hchb Hbits Hhead Hdll.
  assert (forall a, A a -> node t a) as HAn by (intros a Ha; by apply HA).
  assert (forall c', valid_cls c' -> ~ bitmap_word t (matrix t c'.1 c'.2)) as Hmb.
  { intros c' Hc' Hb. eapply bitmap_not_matrix; [exact Hb|]. by exists c'. }
  assert (forall B x, (forall a, B a -> node t a) -> link_word B x -> ~ bitmap_word t x /\ ~ matrix_word t x) as Hlw.
  { intros B x HB Hx. split; intros Hb; [by eapply bitmap_not_link|by eapply matrix_not_link]. }
  eapply lists_update; [exact Hok|done|done|..].
  - by rewrite Hchb by auto.
  - eapply dll_frame; [exact Hdll|]. intros x Hx. apply Hchb. eapply (Hlw (fun a => a ∈ l)); [|exact Hx]. auto.
  - done.
  - auto.
  - intros c' Hc' Hne. rewrite Hchb by auto. apply Hch. intros [Hx|Hx]; [by apply Hne, (matrix_inj t)|].
    eapply matrix_not_link; [exact HAn| |exact Hx]. by exists c'.
  - intros c' x Hne Hx. assert (forall a, a ∈ F c' -> node t a) as HF by (intros a Ha; by eapply lo_node).
    destruct (Hlw _ _ HF Hx) as [Hnb Hnm]. rewrite Hchb by done. apply Hch. intros [Hm|Hm].
    + apply Hnm. by exists c.
    + revert Hm. eapply link_apart; [exact HF|exact HAn| |exact Hx]. intros a Ha Haa. by eapply HA.
Qed.

Lemma bits_through m m1 t E c (A : Z -> Prop) : bits_ok m t E -> valid_cls c -> (forall a, A a -> node t a) ->
  changes (fun x => x = matrix t c.1 c.2 \/ link_word A x) m m1 -> bits_ok m1 t E.
Proof.
  intros Hb Hc HA Hch. eapply bits_frame; [exact Hb|]. intros x Hx. apply Hch. intros [->|Hl].
  - eapply bitmap_not_matrix; [exact Hx|]. by exists c.
  - by eapply bitmap_not_link.
Qed.

Lemma changes_lists t c (A B : Z -> Prop) m m1 m' : valid_cls c -> (forall a, A a -> B a) ->
  changes (fun x => x = matrix t c.1 c.2 \/ link_word A x) m m1 -> changes (bitmap_word t) m1 m' ->
  changes (list_word t B) m m'.
Proof.
  intros Hc HAB H1 H2. eapply changes_trans; eapply changes_mono; [|exact H1| |exact H2].
  - intros x [->|(a & Ha & Hx)]; right; [left; by exists c|right; exists a; auto].
  - intros x Hx. by left.
Qed.

Lemma link_not_matrix t c a : valid_cls c -> node t a -> free_prev a <> matrix t c.1 c.2 /\ free_next a <> matrix t c.1 c.2.
Proof. intros [Hf Hs] (k & -> & Hk). tlsf_words. lia. Qed.

Lemma dll_matrix t c v m p l n : valid_cls c -> Forall (node t) l -> dll m p l n -> dll (<[matrix t c.1 c.2 := v]> m) p l n.
Proof.
  intros Hc Hl H. eapply dll_frame; [exact H|]. intros x (a & Ha & Hx). rewrite Forall_forall in Hl.
  destruct (link_not_matrix t c a Hc (Hl a Ha)). apply peek_insert_ne. intuition congruence.
Qed.

(** A write to a link of a block that is not in the list. *)
Lemma dll_other t m p l n a v x : Forall (node t) l -> node t a -> a ∉ l -> x = free_prev a \/ x = free_next a ->
  dll m p l n -> dll (<[x := v]> m) p l n.
Proof.
  intros Hl Ha Hn Hx H. eapply dll_frame; [exact H|]. intros y (b & Hb & Hy). rewrite Forall_forall in Hl.
  pose proof (link_ne t a b Ha (Hl b Hb) ltac:(congruence)). apply peek_insert_ne. intuition congruence.
Qed.

Lemma changes_step (X : Z -> Prop) m m1 a v : X a -> changes X m m1 -> changes X m (<[a := v]> m1).
Proof. intros Ha H. eapply changes_trans; [exact H|by apply changes_insert]. Qed.

(** [if (head) head->prev = p'] *)
Lemma wp_head_prev t m p p' l (Q : unit -> tlsf_state -> Prop) mp :
  0 < t -> t mod 4 = 0 -> Forall (node t) l -> NoDup l -> dll m p l NULL ->
  (forall m', dll m' p' l NULL -> changes (link_word (fun a => a ∈ l)) m m' -> Q tt (mk_tlsf m' mp)) ->
  wp (when (nz (hd NULL l)) (mem (store (free_prev (hd NULL l)) p'))) Q (mk_tlsf m mp).
Proof.
  intros Ht H4 Hl Hnd Hd HQ. destruct l as [|h l]; cbn [hd]; [by apply wp_ret, HQ|].
  pose proof (Forall_inv Hl) as Hh. rewrite (node_nz t h) by done. cbn [when].
  apply wp_tstore; [by apply (link_addr t)|]. apply NoDup_cons in Hnd as [Hx _]. apply HQ; [by eapply dll_set_prev|].
  apply changes_insert. exists h. split; [left|by left].
Qed.

Lemma wp_when_load c a (f : Z -> TM unit) (Q : unit -> tlsf_state -> Prop) m mp :
  valid_addr a = true -> wp (when c (f (peek m a))) Q (mk_tlsf m mp) ->
  wp (when c (let* v := mem (load a) in f v)) Q (mk_tlsf m mp).
Proof. intros Ha H. destruct c; [|done]. apply wp_bind, wp_tload; done. Qed.

(** The links of class [c] and of the block [b]. *)
Definition near (F : cls -> list Z) (c : cls) (b a : Z) : Prop := a = b \/ a ∈ F c.

Lemma near_node m t F c b a : lists_ok m t F -> node t b -> near F c b a -> node t a.
Proof. intros Hok Hb [->|Ha]; [done|]. by apply (lo_node _ _ _ Hok c). Qed.

Lemma near_other m t F c b : lists_ok m t F -> (forall c', c' <> c -> b ∉ F c') ->
  forall a, near F c b a -> forall c', c' <> c -> a ∉ F c'.
Proof. intros Hok Hb a [->|Ha] c' Hc'; [auto|]. intros Ha'. by apply Hc', (lo_disj _ _ _ Hok _ _ a). Qed.

Lemma near_link t F c b a x : near F c b a -> x = free_prev a \/ x = free_next a ->
  x = matrix t c.1 c.2 \/ link_word (near F c b) x.
Proof. intros Ha Hx. right. by exists a. Qed.

Lemma near_changes t F c b m m' (A : Z -> Prop) : (forall a, A a -> near F c b a) -> changes (link_word A) m m' ->
  changes (fun x => x = matrix t c.1 c.2 \/ link_word (near F c b) x) m m'.
Proof. intros HA. apply changes_mono. intros x (a & Ha & Hx). eapply near_link; [by apply HA|done]. Qed.

Lemma wp_insert_block m t F fl sl b (Q : unit -> tlsf_state -> Prop) mp :
  lists_ok m t F -> valid_cls (fl, sl) -> node t b -> ~ filed F b ->
  (forall m', lists_ok m' t (<[(fl, sl) := b :: F (fl, sl)]> F) ->
     changes (list_word t (fun a => a = b \/ filed F a)) m m' -> Q tt (mk_tlsf m' mp)) ->
  wp (INSERT_BLOCK b t fl sl) Q (mk_tlsf m mp).
Proof.
  intros Hok Hc Hb Hnf HQ. destruct (lists_addr _ _ _ Hok) as [Ht H4]. destruct (link_addr t b Ht H4 Hb) as [Hp Hn].
  pose proof (matrix_addr t fl sl Ht H4 Hc) as Hm. pose proof (link_not_matrix t _ b Hc Hb) as [Hbm1 Hbm2]. cbn [fst snd] in Hbm1, Hbm2.
  pose proof (lo_head _ _ _ Hok _ Hc) as Hhd. pose proof (lo_nodup _ _ _ Hok (fl, sl)) as Hnd. pose proof (lo_dll _ _ _ Hok (fl, sl)) as Hd.
  cbn [fst snd] in Hhd. assert (Forall (node t) (F (fl, sl))) as Hln by (apply Forall_forall; intros a Ha; by eapply lo_node).
  assert (b ∉ F (fl, sl)) as Hbl by (intros Hbl; apply Hnf; by exists (fl, sl)).
  pose proof (near_link t F (fl, sl) b b) as HX. specialize (fun x => HX x (or_introl eq_refl)). cbn [fst snd] in HX.
  unfold INSERT_BLOCK. apply wp_bind, wp_tstore; [done|]. apply wp_bind, wp_tload; [done|]. cbn [t_mem].
  rewrite peek_insert_ne, Hhd by done. apply wp_bind, wp_tstore; [done|]. apply wp_bind, wp_tload; [done|]. cbn [t_mem].
  rewrite !peek_insert_ne, Hhd by done.
  apply wp_bind, (wp_head_prev t _ NULL); [done..| |].
  { do 2 (eapply (dll_other t); [done|exact Hb|done|auto|]). done. }
  intros m3 Hd3 Hch. apply wp_bind, wp_tstore; [done|].
  assert (changes (fun x => x = matrix t fl sl \/ link_word (near F (fl, sl) b) x) m (<[matrix t fl sl := b]> m3)) as Hch4.
  { apply changes_step; [by left|]. eapply changes_trans; [|eapply (near_changes t F (fl, sl) b); [|exact Hch]; by right].
    apply changes_step; [auto|]. apply changes_insert. auto. }
  eapply wp_set_class; [eapply (bits_through m _ t _ (fl, sl)); [apply Hok|done|by intros a; eapply near_node|exact Hch4]|done|].
  intros m5 Hbits Hch5. apply HQ.
  - eapply (lists_replace m _ m5 t F (fl, sl) _ (near F (fl, sl) b)); [done|done| | | |exact Hch4|done|done|by apply peek_insert_eq|].
    + by apply NoDup_cons.
    + intros a Ha. split; [by eapply near_node|]. revert a Ha. eapply near_other; [done|]. intros c' _ Hc'. apply Hnf. by exists c'.
    + intros a [->|]%elem_of_cons; [by left|by right].
    + apply (dll_matrix t (fl, sl)); [done|by constructor|]. cbn [dll]. split_and!; [..|done].
      * rewrite Hch, peek_insert_ne, peek_insert_eq; [done|unfold free_prev, free_next; lia|].
        intros (a & Ha & Hx). rewrite Forall_forall in Hln. pose proof (link_ne t b a Hb (Hln a Ha) ltac:(congruence)). intuition.
      * rewrite Hch, peek_insert_eq; [done|].
        intros (a & Ha & Hx). rewrite Forall_forall in Hln. pose proof (link_ne t b a Hb (Hln a Ha) ltac:(congruence)). intuition.
  - eapply (changes_lists t (fl, sl)); [done| |exact Hch4|done]. intros a [->|Ha]; [by left|right; by exists (fl, sl)].
Qed.

(** [if (last) last->next = n'] *)
Lemma wp_last_next t m p l n n' (Q : unit -> tlsf_state -> Prop) mp :
  0 < t -> t mod 4 = 0 -> Forall (node t) l -> NoDup l -> dll m p l n ->
  (forall m', dll m' p l n' -> changes (link_word (fun a => a ∈ l)) m m' -> Q tt (mk_tlsf m' mp)) ->
  wp (when (nz (default NULL (last l))) (mem (store (free_next (default NULL (last l))) n'))) Q (mk_tlsf m mp).
Proof.
  intros Ht H4 Hl Hnd Hd HQ. destruct l as [|x l _] using rev_ind; [by apply wp_ret, HQ|].
  rewrite last_snoc. cbn [default]. pose proof (proj2 (proj1 (Forall_app _ _ _) Hl)) as [Hx _]%Forall_cons.
  cbn. rewrite (node_nz t x) by done. cbn [when]. apply wp_tstore; [by apply (link_addr t)|].
  apply NoDup_app in Hnd as (_ & Hxl & _). apply HQ.
  - eapply dll_set_next; [exact Hl| |exact Hd]. intros Hin. eapply Hxl; [exact Hin|left].
  - apply changes_insert. exists x. split; [apply elem_of_app; right; left|by right].
Qed.

(** Links of blocks that are in no list. *)
Lemma lists_links m m' t F (A : Z -> Prop) : lists_ok m t F -> (forall a, A a -> node t a /\ ~ filed F a) ->
  changes (link_word A) m m' -> lists_ok m' t F.
Proof.
  intros [H1 H2 H3 H4 H5 H6] HA Hch. assert (forall a, A a -> node t a) as HAn by (intros a Ha; by apply HA). split; try done.
  - eapply bits_frame; [exact H1|]. intros x Hx. apply Hch. by eapply bitmap_not_link.
  - intros c Hc. rewrite Hch by (eapply matrix_not_link; [exact HAn|by exists c]). auto.
  - intros c. eapply dll_frame; [apply H3|]. intros x Hx. apply Hch.
    eapply link_apart; [|exact HAn| |exact Hx]; [intros a Ha; by apply (H4 c)|].
    intros a Ha HAa. destruct (HA a HAa) as [_ []]. by exists c.
Qed.

(** [b->prev = b->next = NULL], when [b] is in no list. *)
Lemma wp_clear_links m t F b (Q : unit -> tlsf_state -> Prop) mp :
  lists_ok m t F -> node t b -> ~ filed F b ->
  (forall m', lists_ok m' t F -> changes (link_word (fun a => a = b)) m m' -> Q tt (mk_tlsf m' mp)) ->
  wp (mem (store (free_prev b) NULL) ;;; mem (store (free_next b) NULL)) Q (mk_tlsf m mp).
Proof.
  intros Hok Hb Hnf HQ. destruct (lists_addr _ _ _ Hok) as [Ht H4]. destruct (link_addr t b Ht H4 Hb) as [Hp Hn].
  apply wp_bind, wp_tstore; [done|]. apply wp_tstore; [done|].
  assert (changes (link_word (fun a => a = b)) m (<[free_next b := NULL]> (<[free_prev b := NULL]> m))) as Hch.
  { apply changes_step; [exists b; auto|]. apply changes_insert. exists b; auto. }
  apply HQ; [|done]. eapply lists_links; [done| |exact Hch]. by intros a ->.
Qed.

Lemma not_filed_after m t F c b l : lists_ok m t F -> b ∈ F c -> b ∉ l -> ~ filed (<[c := l]> F) b.
Proof.
  intros Hok Hb Hl [c' Hc']. destruct (decide (c' = c)) as [->|Hne].
  - by rewrite fn_lookup_insert in Hc'.
  - rewrite fn_lookup_insert_ne in Hc' by done. by apply Hne, (lo_disj _ _ _ Hok _ _ b).
Qed.

(** A class that keeps or loses blocks, with its head up to date. *)
Lemma wp_new_head m m1 t F fl sl l (Q : unit -> tlsf_state -> Prop) mp :
  lists_ok m t F -> valid_cls (fl, sl) -> F (fl, sl) <> [] -> NoDup l -> (forall a, a ∈ l -> a ∈ F (fl, sl)) ->
  changes (fun x => x = matrix t fl sl \/ link_word (fun a => a ∈ F (fl, sl)) x) m m1 ->
  peek m1 (matrix t fl sl) = hd NULL l -> dll m1 NULL l NULL ->
  (forall m', lists_ok m' t (<[(fl, sl) := l]> F) -> changes (list_word t (filed F)) m m' ->
     changes (bitmap_word t) m1 m' -> Q tt (mk_tlsf m' mp)) ->
  wp (when (negb (nz (hd NULL l))) (clear_class t fl sl)) Q (mk_tlsf m1 mp).
Proof.
  intros Hok Hc Hne Hnd Hl Hch Hhd Hd HQ. destruct (lists_addr _ _ _ Hok) as [Ht H4].
  assert (forall a, a ∈ F (fl, sl) -> node t a) as HAn by (intros a Ha; by eapply lo_node).
  assert (forall a, a ∈ F (fl, sl) -> node t a /\ forall c', c' <> (fl, sl) -> a ∉ F c') as HA.
  { intros a Ha. split; [auto|]. intros c' Hc' Ha'. by apply Hc', (lo_disj _ _ _ Hok _ _ a). }
  pose proof (bits_through m m1 t _ (fl, sl) _ (lo_bits _ _ _ Hok) Hc HAn Hch) as Hb1.
  assert (forall m', changes (bitmap_word t) m1 m' -> changes (list_word t (filed F)) m m') as Hchl.
  { intros m' Hch'. eapply (changes_lists t (fl, sl)); [done| |exact Hch|done]. intros a Ha. by exists (fl, sl). }
  destruct l as [|h l]; cbn [hd] in *.
  - eapply wp_clear_class; [exact Hb1|done|]. intros m' Hbits Hch'. apply HQ; [|auto..].
    eapply lists_replace; [exact Hok|done|done|exact HA|done|exact Hch|exact Hch'|done|done|done].
  - rewrite (node_nz t h) by (done || apply HAn, Hl; left). apply wp_ret, HQ; [|apply Hchl|]; [|apply changes_refl..].
    eapply lists_replace; [exact Hok|done|done|exact HA|done|exact Hch|apply changes_refl| |done|done].
    eapply bits_ext; [|exact Hb1]. intros c. destruct (decide (c = (fl, sl))) as [->|].
    + rewrite fn_lookup_insert. by rewrite !bool_decide_true.
    + by rewrite fn_lookup_insert_ne.
Qed.

Lemma list_word_mono t (A B : Z -> Prop) m m' : (forall a, A a -> B a) -> changes (list_word t A) m m' -> changes (list_word t B) m m'.
Proof.
  intros HAB. apply changes_mono. intros x [Hx|[Hx|(a & Ha & Hx)]]; [by left|right; by left|right; right; exists a; auto].
Qed.

Lemma link_list_word t (A : Z -> Prop) m m' : changes (link_word A) m m' -> changes (list_word t A) m m'.
Proof. apply changes_mono. intros x Hx. by right; right. Qed.

Lemma list_word_not_head t F x : ~ list_word t F x -> ~ bitmap_word t x.
Proof. intros Hx Hb. apply Hx. by left. Qed.

Lemma wp_extract_block_hdr m t F fl sl b l (Q : unit -> tlsf_state -> Prop) mp :
  lists_ok m t F -> valid_cls (fl, sl) -> F (fl, sl) = b :: l ->
  (forall m', lists_ok m' t (<[(fl, sl) := l]> F) -> changes (list_word t (filed F)) m m' -> Q tt (mk_tlsf m' mp)) ->
  wp (EXTRACT_BLOCK_HDR b t fl sl) Q (mk_tlsf m mp).
Proof.
  intros Hok Hc El HQ. destruct (lists_addr _ _ _ Hok) as [Ht H4].
  assert (b ∈ F (fl, sl)) as Hbf by (rewrite El; left). destruct (lo_node _ _ _ Hok _ _ Hbf) as [_ Hb].
  pose proof (matrix_addr t fl sl Ht H4 Hc) as Hm. pose proof (lo_dll _ _ _ Hok (fl, sl)) as Hd.
  pose proof (lo_nodup _ _ _ Hok (fl, sl)) as Hnd. rewrite El in Hd, Hnd. destruct Hd as (_ & En & Hd).
  apply NoDup_cons in Hnd as [Hbl Hnd].
  assert (Forall (node t) l) as Hln.
  { apply Forall_forall. intros a Ha. eapply (lo_node _ _ _ Hok (fl, sl)). rewrite El. by right. }
  unfold EXTRACT_BLOCK_HDR. apply wp_bind, wp_tload; [by apply (link_addr t)|]. cbn [t_mem]. rewrite En.
  apply wp_bind, wp_tstore; [done|]. apply wp_bind, wp_tload; [done|]. cbn [t_mem]. rewrite peek_insert_eq.
  set (m1 := <[matrix t fl sl := hd NULL l]> m). assert (dll m1 b l NULL) as Hd1 by (by apply (dll_matrix t (fl, sl))).
  apply wp_bind.
  assert (wp (when (nz (hd NULL l)) (mem (store (free_prev (hd NULL l)) NULL)) ;;; when (negb (nz (hd NULL l))) (clear_class t fl sl))
    (fun _ st => wp (mem (store (free_prev b) NULL) ;;; mem (store (free_next b) NULL)) Q st) (mk_tlsf m1 mp)) as Hw.
  { apply wp_bind, (wp_head_prev t _ b); [done..|]. intros m2 Hd2 Hch2.
    eapply (wp_new_head m); [done|done|by rewrite El|done|rewrite El; by right| | |done|].
    - eapply changes_trans; [apply changes_insert; by left|]. eapply changes_mono; [|exact Hch2].
      intros x (a & Ha & Hx). right. exists a. rewrite El. split; [by right|done].
    - rewrite Hch2; [apply peek_insert_eq|]. intros (a & Ha & Hx). rewrite Forall_forall in Hln.
      pose proof (link_not_matrix t (fl, sl) a Hc (Hln a Ha)). cbn in *. intuition congruence.
    - intros m3 Hok3 Hch3 _. eapply wp_clear_links; [exact Hok3|done|by eapply not_filed_after|].
      intros m4 Hok4 Hch4. apply HQ; [done|]. eapply changes_trans; [exact Hch3|]. eapply link_list_word, changes_mono; [|exact Hch4].
      intros x (a & -> & Hx). exists b. split; [by exists (fl, sl)|done]. }
  revert Hw. unfold wp, bind. destruct (nz (hd NULL l)); cbn [when negb ret]; [|done].
  by destruct (mem (store (free_prev (hd NULL l)) NULL) (mk_tlsf m1 mp)) as [[[] ?]|].
Qed.

(** The head of the class after [b] left it. *)
Lemma wp_extract_head m m1 t F fl sl b l1 l2 (Q : unit -> tlsf_state -> Prop) mp :
  lists_ok m t F -> valid_cls (fl, sl) -> F (fl, sl) = l1 ++ b :: l2 ->
  changes (link_word (fun a => a ∈ F (fl, sl))) m m1 -> dll m1 NULL (l1 ++ l2) NULL ->
  peek m1 (free_next b) = hd NULL l2 ->
  (forall m', lists_ok m' t (<[(fl, sl) := l1 ++ l2]> F) -> changes (list_word t (filed F)) m m' -> Q tt (mk_tlsf m' mp)) ->
  wp (let* h := mem (load (matrix t fl sl)) in
      when (h =? b)
        (let* n := mem (load (free_next b)) in
         mem (store (matrix t fl sl) n) ;;;
         let* h := mem (load (matrix t fl sl)) in
         when (negb (nz h)) (clear_class t fl sl))) Q (mk_tlsf m1 mp).
Proof.
  intros Hok Hc El Hch Hd En HQ. destruct (lists_addr _ _ _ Hok) as [Ht H4].
  assert (forall a, a ∈ F (fl, sl) -> node t a) as HAn by (intros a Ha; by eapply lo_node).
  pose proof (matrix_addr t fl sl Ht H4 Hc) as Hm. pose proof (lo_nodup _ _ _ Hok (fl, sl)) as Hnd. rewrite El in Hnd.
  assert (NoDup (l1 ++ l2)) as Hnd2.
  { assert (NoDup (b :: l1 ++ l2)) as [_ ?]%NoDup_cons; [by rewrite Permutation_middle|done]. }
  assert (peek m1 (matrix t fl sl) = hd NULL (F (fl, sl))) as Eh.
  { rewrite <- (lo_head _ _ _ Hok _ Hc). apply Hch. eapply matrix_not_link; [exact HAn|by exists (fl, sl)]. }
  apply wp_bind, wp_tload; [done|]. cbn [t_mem]. rewrite Eh, El.
  assert (forall a, a ∈ l1 ++ l2 -> a ∈ F (fl, sl)) as Hsub.
  { intros a. rewrite El, !elem_of_app, elem_of_cons. tauto. }
  assert (F (fl, sl) <> []) as Hne by (rewrite El; by destruct l1).
  destruct l1 as [|x l1]; cbn [app hd] in *.
  - rewrite Z.eqb_refl. cbn [when]. apply wp_bind, wp_tload; [apply (link_addr t); [done..|]; apply HAn; rewrite El; left|].
    cbn [t_mem]. rewrite En. apply wp_bind, wp_tstore; [done|]. apply wp_bind, wp_tload; [done|]. cbn [t_mem]. rewrite peek_insert_eq.
    eapply (wp_new_head m); [done|done|done|done|done| |apply peek_insert_eq| |auto].
    + apply changes_step; [by left|]. eapply changes_mono; [|exact Hch]. intros y Hy. by right.
    + apply (dll_matrix t (fl, sl)); [done| |done]. apply Forall_forall. auto.
  - destruct (Z.eqb_spec x b) as [->|Hxb]; cbn [when].
    { apply NoDup_cons in Hnd as [[] _]. apply elem_of_app. right. left. }
    assert (wp (when (negb (nz (hd NULL (x :: l1 ++ l2)))) (clear_class t fl sl)) Q (mk_tlsf m1 mp)) as Hw.
    { eapply (wp_new_head m); [done|done|done|done|done| |by rewrite Eh, El|done|auto].
      eapply changes_mono; [|exact Hch]. intros y Hy. by right. }
    cbn [hd] in Hw. by rewrite (node_nz t x) in Hw by (done || apply HAn; rewrite El; left).
Qed.

Lemma wp_extract_block m t F fl sl b l1 l2 (Q : unit -> tlsf_state -> Prop) mp :
  lists_ok m t F -> valid_cls (fl, sl) -> F (fl, sl) = l1 ++ b :: l2 ->
  (forall m', lists_ok m' t (<[(fl, sl) := l1 ++ l2]> F) -> changes (list_word t (filed F)) m m' -> Q tt (mk_tlsf m' mp)) ->
  wp (EXTRACT_BLOCK b t fl sl) Q (mk_tlsf m mp).
Proof.
  intros Hok Hc El HQ. destruct (lists_addr _ _ _ Hok) as [Ht H4].
  assert (b ∈ F (fl, sl)) as Hbf by (rewrite El; apply elem_of_app; right; left).
  destruct (lo_node _ _ _ Hok _ _ Hbf) as [_ Hb]. destruct (link_addr t b Ht H4 Hb) as [Hvp Hvn].
  assert (Forall (node t) (l1 ++ b :: l2)) as Hn.
  { rewrite <- El. apply Forall_forall. intros a Ha. by eapply (lo_node _ _ _ Hok (fl, sl)). }
  pose proof (lo_dll _ _ _ Hok (fl, sl)) as Hd. pose proof (lo_nodup _ _ _ Hok (fl, sl)) as Hnd. rewrite El in Hd, Hnd.
  apply dll_app in Hd as [Hd1 (Ep & En & Hd2)]. cbn [hd] in Hd1.
  apply Forall_app in Hn as [Hn1 [_ Hn2]%Forall_cons].
  apply NoDup_app in Hnd as (Hnd1 & Hnd12 & [Hb2 Hnd2]%NoDup_cons).
  assert (b ∉ l1) as Hb1 by (intros Hin; apply (Hnd12 b Hin); left).
  assert (forall A x, Forall (node t) A -> b ∉ A -> x = free_prev b \/ x = free_next b -> ~ link_word (fun a => a ∈ A) x) as Hbx.
  { intros A x HA HbA Hx (a & Ha & Hxa). rewrite Forall_forall in HA.
    pose proof (link_ne t b a Hb (HA a Ha) ltac:(congruence)). intuition congruence. }
  unfold EXTRACT_BLOCK. apply wp_bind, wp_tload; [done|]. cbn [t_mem]. rewrite En.
  apply wp_bind, wp_when_load; [done|]. rewrite Ep.
  eapply (wp_head_prev t); [done..|exact Hd2|]. intros m1 Hd2' Hch1.
  apply wp_bind, wp_tload; [done|]. cbn [t_mem]. rewrite (Hch1 (free_prev b)), Ep by auto.
  apply wp_bind, wp_when_load; [done|]. rewrite (Hch1 (free_next b)), En by auto.
  eapply (wp_last_next t); [done..| |].
  { eapply dll_frame; [exact Hd1|]. intros x Hx. apply Hch1. eapply link_apart; [| | |exact Hx].
    - rewrite Forall_forall in Hn1. exact Hn1.
    - rewrite Forall_forall in Hn2. exact Hn2.
    - intros a Ha Ha2. apply (Hnd12 a Ha). by right. }
  intros m2 Hd1' Hch2. apply wp_nest.
  assert (changes (link_word (fun a => a ∈ F (fl, sl))) m m2) as Hch.
  { eapply changes_trans; eapply changes_mono; [|exact Hch1| |exact Hch2]; intros x (a & Ha & Hx); exists a;
      (split; [|done]); rewrite El, elem_of_app, elem_of_cons; auto. }
  eapply (wp_extract_head m m2 t F fl sl b l1 l2); [done..| |by rewrite Hch2, Hch1 by auto|].
  - apply dll_app. split; [exact Hd1'|]. eapply dll_frame; [exact Hd2'|]. intros x Hx. apply Hch2. eapply link_apart; [| | |exact Hx].
    + rewrite Forall_forall in Hn2. exact Hn2.
    + rewrite Forall_forall in Hn1. exact Hn1.
    + intros a Ha Ha1. apply (Hnd12 a Ha1). by right.
  - intros m3 Hok3 Hch3. eapply wp_clear_links; [exact Hok3|done|eapply not_filed_after; [done|exact Hbf|]|].
    + rewrite elem_of_app. tauto.
    + intros m4 Hok4 Hch4. apply HQ; [done|]. eapply changes_trans; [exact Hch3|]. eapply link_list_word, changes_mono; [|exact Hch4].
      intros x (a & -> & Hx). exists b. split; [by exists (fl, sl)|done].
Qed.
