(* ===== verification/TlsfHeap.v ===== *)
(** * The blocks of a TLSF pool

    Behind its control structure a pool is a sequence of blocks, each a header
    of two words and a payload, and a last header of size zero. A block knows
    whether it and the block before it are free, and where the block before it
    is when that one is free; two free blocks are never next to each other. *)

From Stdlib Require Import ZArith Lia.
From stdpp Require Import base tactics gmap option functions list.
From S2P Require Import Prelude Bits Mem Kstate Tlsf TlsfMap TlsfFree.

Open Scope Z_scope.
Open Scope kernel_scope.

(** ** Header words *)

(** The size field: the size with the bits of the block and of the one before. *)
Definition hword (s : Z) (f pf : bool) : Z := s + Z.b2z f + 2 * Z.b2z pf.

Lemma testbit_low3 q k n : 0 <= k < 8 -> 0 <= n -> Z.testbit (8 * q + k) n = if n <? 3 then Z.testbit k n else Z.testbit q (n - 3).
Proof.
  intros Hk Hn. destruct (Z.ltb_spec n 3) as [H|H].
  - rewrite <- (Z.mod_pow2_bits_low (8 * q + k) 3 n), <- (Z.mod_pow2_bits_low k 3 n) by lia.
    f_equal. change (2 ^ 3) with 8. by rewrite (Z.mul_comm 8 q), Z.add_comm, Z.mod_add.
  - replace n with ((n - 3) + 3) at 1 by lia. rewrite <- Z.div_pow2_bits by lia. f_equal. change (2 ^ 3) with 8.
    rewrite (Z.mul_comm 8 q), Z.div_add_l by lia. rewrite (Z.div_small k 8); lia.
Qed.

Lemma land_low3 q k q' k' : 0 <= k < 8 -> 0 <= k' < 8 -> 0 <= Z.land k k' < 8 ->
  Z.land (8 * q + k) (8 * q' + k') = 8 * Z.land q q' + Z.land k k'.
Proof.
  intros Hk Hk' Hkk. apply Z.bits_inj'. intros n Hn. rewrite Z.land_spec, !testbit_low3 by done.
  by destruct (n <? 3); rewrite Z.land_spec.
Qed.

Lemma lor_low3 q k q' k' : 0 <= k < 8 -> 0 <= k' < 8 -> 0 <= Z.lor k k' < 8 ->
  Z.lor (8 * q + k) (8 * q' + k') = 8 * Z.lor q q' + Z.lor k k'.
Proof.
  intros Hk Hk' Hkk. apply Z.bits_inj'. intros n Hn. rewrite Z.lor_spec, !testbit_low3 by done.
  by destruct (n <? 3); rewrite Z.lor_spec.
Qed.

(** A size is a multiple of eight below 2^32. *)
Definition size8 (s : Z) : Prop := exists q, s = 8 * q /\ 0 <= q < 2 ^ 29.

Lemma land_word29 q : 0 <= q < 2 ^ 29 -> Z.land q (2 ^ 29 - 1) = q.
Proof. intros Hq. change (2 ^ 29 - 1) with (Z.ones 29). rewrite Z.land_ones by lia. by apply Z.mod_small. Qed.

Lemma hword_low q f pf : hword (8 * q) f pf = 8 * q + (Z.b2z f + 2 * Z.b2z pf).
Proof. unfold hword. lia. Qed.

(** Evaluates a bit operation on a header word. *)
Ltac hbits :=
  intros (q & -> & Hq);
  repeat match goal with f : bool |- _ => destruct f end;
  cbn [Z.b2z]; rewrite ?hword_low; cbn [Z.b2z];
  change BLOCK_SIZE with (8 * (2 ^ 29 - 1) + 4); change FREE_BLOCK with (8 * 0 + 1); change PREV_FREE with (8 * 0 + 2);
  change PREV_STATE with (8 * 0 + 2); change PREV_USED with (8 * 0 + 0);
  change (u32 (Z.lnot (8 * 0 + 2))) with (8 * (2 ^ 29 - 1) + 5);
  change (u32 (Z.lnot (8 * 0 + 1))) with (8 * (2 ^ 29 - 1) + 6);
  rewrite ?land_low3, ?lor_low3 by (vm_compute; split; congruence); rewrite ?Z.land_0_r, ?Z.lor_0_r, ?land_word29 by done;
  try (match goal with |- _ + ?b = _ => let v := eval vm_compute in b in change b with v end; lia).

Lemma hword_size s f pf : size8 s -> Z.land (hword s f pf) BLOCK_SIZE = s.
Proof. hbits. Qed.

Lemma hword_free s f pf : size8 s -> nz (Z.land (hword s f pf) FREE_BLOCK) = f.
Proof. hbits; done. Qed.

Lemma hword_prev s f pf : size8 s -> nz (Z.land (hword s f pf) PREV_FREE) = pf.
Proof. hbits; done. Qed.

Lemma hword_set_free s f pf : size8 s -> Z.lor (hword s f pf) FREE_BLOCK = hword s true pf.
Proof. hbits. Qed.

Lemma hword_set_prev s f pf : size8 s -> Z.lor (hword s f pf) PREV_FREE = hword s f true.
Proof. hbits. Qed.

Lemma hword_clear_free s f pf : size8 s -> Z.land (hword s f pf) (u32 (Z.lnot FREE_BLOCK)) = hword s false pf.
Proof. hbits. Qed.

Lemma hword_clear_prev s f pf : size8 s -> Z.land (hword s f pf) (u32 (Z.lnot PREV_FREE)) = hword s f false.
Proof. hbits. Qed.

Lemma hword_prev_state s f pf : size8 s -> Z.land (hword s f pf) PREV_STATE = 2 * Z.b2z pf.
Proof. hbits. Qed.

(** [new_size | (b->size & PREV_STATE)] *)
Lemma hword_resize s n f pf : size8 n -> size8 s -> Z.lor n (Z.land (hword s f pf) PREV_STATE) = hword n false pf.
Proof.
  intros (k & -> & Hk) Hs. rewrite hword_prev_state by done. replace (8 * k) with (8 * k + 0) by lia.
  replace (2 * Z.b2z pf) with (8 * 0 + 2 * Z.b2z pf) by lia.
  destruct pf; cbn [Z.b2z]; rewrite lor_low3 by (vm_compute; split; congruence); rewrite Z.lor_0_r; unfold hword; cbn [Z.b2z];
    change (Z.lor 0 (2 * 1)) with 2; change (Z.lor 0 (2 * 0)) with 0; lia.
Qed.

(** [size | FREE_BLOCK | PREV_USED] *)
Lemma hword_new s : size8 s -> Z.lor (Z.lor s FREE_BLOCK) PREV_USED = hword s true false.
Proof.
  intros (q & -> & Hq). change PREV_USED with 0. rewrite Z.lor_0_r. replace (8 * q) with (8 * q + 0) at 1 by lia.
  change FREE_BLOCK with (8 * 0 + 1). rewrite lor_low3 by (vm_compute; split; congruence). rewrite Z.lor_0_r, hword_low. done.
Qed.

(** [b->size += r + BHDR_OVERHEAD] *)
Lemma hword_add s f pf r : 0 <= s -> 0 <= r -> s + r + 16 < 2 ^ 32 ->
  u32 (hword s f pf + r + BHDR_OVERHEAD) = hword (s + r + 8) f pf.
Proof.
  intros Hs Hr Hb. unfold hword. change BHDR_OVERHEAD with 8. rewrite u32_small; destruct f, pf; cbn [Z.b2z]; lia.
Qed.

(** ** Sequences of blocks *)

(** The blocks of a pool, each with its size and whether it is free. *)
Abbreviation blocks := (list (Z * bool)).

(** The bytes they take. *)
Fixpoint blen (l : blocks) : Z := match l with [] => 0 | (s, _) :: l => 8 + s + blen l end.

(** The blocks with their addresses, from [a] on. *)
Fixpoint at_ (a : Z) (l : blocks) : list (Z * Z * bool) :=
  match l with [] => [] | (s, f) :: l => (a, s, f) :: at_ (a + 8 + s) l end.

(** Is the last block free, and where is it? *)
Fixpoint last_flag (pf : bool) (l : blocks) : bool := match l with [] => pf | (_, f) :: l => last_flag f l end.
Fixpoint last_addr (p a : Z) (l : blocks) : Z := match l with [] => p | (s, _) :: l => last_addr a (a + 8 + s) l end.

(** No two free blocks are neighbours. *)
Fixpoint sparse (pf : bool) (l : blocks) : Prop :=
  match l with [] => True | (_, f) :: l => pf && f = false /\ sparse f l end.

Definition hdr (m : gmap Z Z) (pf : bool) (p a s : Z) (f : bool) : Prop :=
  peek m (Tlsf.size a) = hword s f pf /\ (pf = true -> peek m (prev_hdr a) = p).

(** The headers of the blocks from [a] on, after a block at [p]. *)
Fixpoint seg (m : gmap Z Z) (pf : bool) (p a : Z) (l : blocks) : Prop :=
  match l with [] => True | (s, f) :: l => hdr m pf p a s f /\ seg m f a (a + 8 + s) l end.

Lemma blen_app l1 l2 : blen (l1 ++ l2) = blen l1 + blen l2.
Proof. induction l1 as [|[s f] l1 IH]; [done|]. cbn [app blen]. lia. Qed.

Lemma at_app a l1 l2 : at_ a (l1 ++ l2) = at_ a l1 ++ at_ (a + blen l1) l2.
Proof.
  revert a. induction l1 as [|[s f] l1 IH]; intros a; cbn [app blen at_]; [by rewrite Z.add_0_r|].
  rewrite IH. do 3 f_equal. lia.
Qed.

Lemma last_flag_app pf l1 l2 : last_flag pf (l1 ++ l2) = last_flag (last_flag pf l1) l2.
Proof. revert pf. induction l1 as [|[s f] l1 IH]; intros pf; [done|]. apply IH. Qed.

Lemma last_addr_app p a l1 l2 : last_addr p a (l1 ++ l2) = last_addr (last_addr p a l1) (a + blen l1) l2.
Proof.
  revert p a. induction l1 as [|[s f] l1 IH]; intros p a; cbn [app blen last_addr]; [by rewrite Z.add_0_r|].
  rewrite IH. f_equal. lia.
Qed.

Lemma sparse_app pf l1 l2 : sparse pf (l1 ++ l2) <-> sparse pf l1 /\ sparse (last_flag pf l1) l2.
Proof. revert pf. induction l1 as [|[s f] l1 IH]; intros pf; cbn [app sparse last_flag]; [tauto|]. rewrite IH. tauto. Qed.

Lemma seg_app m pf p a l1 l2 : seg m pf p a (l1 ++ l2) <->
  seg m pf p a l1 /\ seg m (last_flag pf l1) (last_addr p a l1) (a + blen l1) l2.
Proof.
  revert pf p a. induction l1 as [|[s f] l1 IH]; intros pf p a; cbn [app seg last_flag last_addr blen]; [rewrite Z.add_0_r; tauto|].
  rewrite IH, Z.add_assoc. replace (a + (8 + s)) with (a + 8 + s) by lia. tauto.
Qed.

(** The header words and the payload of the blocks. *)
Definition hdr_word (a : Z) (l : blocks) (x : Z) : Prop := exists b s f, (b, s, f) ∈ at_ a l /\ (x = b \/ x = b + 4).
Definition payload (a : Z) (l : blocks) (x : Z) : Prop := exists b s f, (b, s, f) ∈ at_ a l /\ b + 8 <= x < b + 8 + s.

Definition nonneg (l : blocks) : Prop := Forall (fun b => 0 <= b.1) l.

Lemma blen_nonneg l : nonneg l -> 0 <= blen l.
Proof. intros Hl. induction Hl as [|[s f] l H Hl IH]; cbn in *; lia. Qed.

Lemma at_bounds a l b s f : nonneg l -> (b, s, f) ∈ at_ a l -> a <= b /\ b + 8 + s <= a + blen l /\ 0 <= s /\ 0 <= blen l.
Proof.
  intros Hl. revert a. induction Hl as [|[s0 f0] l H0 Hl IH]; intros a; cbn [at_ blen]; [by intros ?%elem_of_nil|].
  cbn [fst] in H0. pose proof (blen_nonneg l Hl).
  intros [[= -> -> ->]|Hin]%elem_of_cons; [lia|]. apply IH in Hin. lia.
Qed.

(** Blocks do not overlap. *)
Lemma at_disjoint a l b s f b' s' f' : nonneg l -> (b, s, f) ∈ at_ a l -> (b', s', f') ∈ at_ a l ->
  (b, s, f) = (b', s', f') \/ b + 8 + s <= b' \/ b' + 8 + s' <= b.
Proof.
  intros Hl. revert a. induction Hl as [|[s0 f0] l H0 Hl IH]; intros a; cbn [at_]; [by intros ?%elem_of_nil|].
  intros [E|Hin]%elem_of_cons [E'|Hin']%elem_of_cons.
  - left. congruence.
  - injection E as -> -> ->. apply at_bounds in Hin'; [|done]. right. left. lia.
  - injection E' as -> -> ->. apply at_bounds in Hin; [|done]. right. right. lia.
  - by apply (IH (a + 8 + s0)).
Qed.

Lemma payload_not_hdr a l x : nonneg l -> payload a l x -> ~ hdr_word a l x.
Proof.
  intros Hl (b & s & f & Hin & Hx) (b' & s' & f' & Hin' & Hx').
  destruct (at_bounds _ _ _ _ _ Hl Hin') as (_ & _ & ? & _).
  destruct (at_disjoint _ _ _ _ _ _ _ _ Hl Hin Hin') as [E|?]; [injection E as -> -> ->|]; lia.
Qed.

Lemma seg_frame m m' pf p a l : seg m pf p a l -> (forall x, hdr_word a l x -> peek m' x = peek m x) -> seg m' pf p a l.
Proof.
  revert pf p a. induction l as [|[s f] l IH]; intros pf p a; [done|]. cbn [seg]. intros [[H1 H2] H3] Hf. split; [split|].
  - rewrite Hf; [done|]. exists a, s, f. split; [left|by right].
  - intros E. rewrite Hf; [auto|]. exists a, s, f. split; [left|by left].
  - apply IH; [done|]. intros x (b & s' & f' & Hin & Hx). apply Hf. exists b, s', f'. split; [by right|done].
Qed.

(** ** Pools *)

Definition big (b : Z * bool) : Prop := size8 b.1 /\ 8 <= b.1.

(** Blocks up to the last header of the pool. *)
Definition ending (l : blocks) : Prop := exists l', l = l' ++ [(0, false)] /\ Forall big l'.

(** The pool at [t] has [n] bytes behind its control structure. *)
Record arena (t n : Z) : Prop := {
  ar_pos : 0 < t;
  ar_word : t mod 4 = 0;
  ar_top : heap_base t + n <= 2 ^ 32;
  ar_len : n < 2 ^ 30
}.

(** The lists [F] have the blocks [P], each in the class of its size. *)
Definition filed_as (F : cls -> list Z) (P : Z -> Z -> Prop) : Prop :=
  forall c a, a ∈ F c <-> exists s, P a s /\ MAPPING_INSERT s = c.

(** A pool of blocks [L], the last one the end of the pool, with free lists [F]. *)
Record heap_ok (m : gmap Z Z) (t n : Z) (L : blocks) (F : cls -> list Z) : Prop := {
  h_arena : arena t n;
  h_len : blen L = n;
  h_end : ending L;
  h_sparse : sparse false L;
  h_seg : seg m false NULL (heap_base t) L;
  h_lists : lists_ok m t F;
  h_filed : filed_as F (fun a s => (a, s, true) ∈ at_ (heap_base t) L)
}.

(** The payload of the blocks in use. *)
Definition used (a : Z) (l : blocks) (x : Z) : Prop := exists b s, (b, s, false) ∈ at_ a l /\ b + 8 <= x < b + 8 + s.

(** The words of the pool that belong to the allocator. *)
Definition own (t n : Z) (L : blocks) (x : Z) : Prop := t <= x < heap_base t + n /\ ~ used (heap_base t) L x.

(** A pool in which the block behind [l1] is marked free but is in no list, and
    the block after it may not know. *)
Record opened (m : gmap Z Z) (t n : Z) (l1 : blocks) (s : Z) (l2 : blocks) (F : cls -> list Z) : Prop := {
  o_arena : arena t n;
  o_len : blen (l1 ++ (s, true) :: l2) = n;
  o_front : Forall big l1;
  o_big : big (s, true);
  o_end : ending l2;
  o_sparse1 : sparse false l1;
  o_sparse2 : sparse false l2;
  o_seg1 : seg m false NULL (heap_base t) l1;
  o_hdr : hdr m (last_flag false l1) (last_addr NULL (heap_base t) l1) (heap_base t + blen l1) s true;
  o_seg2 : exists pf p, seg m pf p (heap_base t + blen l1 + 8 + s) l2;
  o_lists : lists_ok m t F;
  o_filed : filed_as F (fun a x => (a, x, true) ∈ at_ (heap_base t) l1 \/
                                   (a, x, true) ∈ at_ (heap_base t + blen l1 + 8 + s) l2)
}.

Lemma big_nonneg l : Forall big l -> nonneg l.
Proof. intros H. eapply Forall_impl; [exact H|]. intros [s f] [_ H1]. cbn in *. lia. Qed.

Lemma ending_nonneg l : ending l -> nonneg l.
Proof. intros (l' & -> & H). apply Forall_app. split; [by apply big_nonneg|]. by repeat constructor. Qed.

Lemma ending_app l1 l2 : Forall big l1 -> ending l2 -> ending (l1 ++ l2).
Proof. intros H1 (l & -> & H2). exists (l1 ++ l). rewrite (assoc_L (++)). split; [done|]. by apply Forall_app. Qed.

Lemma ending_cons s f l : ending ((s, f) :: l) -> (l = [] /\ s = 0 /\ f = false) \/ (big (s, f) /\ ending l).
Proof.
  intros ([|b l'] & E & H); cbn [app] in E; simplify_eq; [by left|].
  apply Forall_cons in H as [Hb H]. right. split; [done|]. by exists l'.
Qed.

Lemma ending_split l1 s f l2 : ending (l1 ++ (s, f) :: l2) -> 8 <= s \/ f = true -> Forall big l1 /\ big (s, f) /\ ending l2.
Proof.
  intros He Hs. induction l1 as [|[s1 f1] l1 IH]; cbn [app] in *; (apply ending_cons in He as [(E & ? & ?)|[Hb He]]; [|]).
  - destruct Hs; [lia|congruence].
  - done.
  - by destruct l1.
  - destruct (IH He) as (? & ? & ?). split; [by constructor|done].
Qed.

Lemma at_size8 a l b s f : ending l -> (b, s, f) ∈ at_ a l -> size8 s /\ (s = 0 /\ f = false \/ 8 <= s).
Proof.
  intros (l' & -> & H). rewrite at_app. rewrite elem_of_app. intros [Hin|Hin].
  - revert a Hin. induction H as [|[s0 f0] l [H1 H2] H IH]; intros a; cbn [at_]; [by intros ?%elem_of_nil|].
    intros [[= -> -> ->]|Hin]%elem_of_cons; [split; [done|by right]|by eapply IH].
  - cbn [at_] in Hin. apply list_elem_of_singleton in Hin as [= -> -> ->]. split; [by exists 0|by left].
Qed.

(** A free block is a node of the lists, in a class of its own. *)
Lemma at_node t l b s f : ending l -> (b, s, f) ∈ at_ (heap_base t) l -> node t b.
Proof.
  intros Hl. assert (forall a k, a = heap_base t + 8 * k -> 0 <= k -> (b, s, f) ∈ at_ a l -> node t b) as H.
  2: { apply (H _ 0); lia. }
  destruct Hl as (l' & -> & Hl). induction Hl as [|[s0 f0] l' [(q & E & Hq) _] Hl IH]; intros a k -> Hk; cbn [app at_].
  - intros [= -> -> ->]%list_elem_of_singleton. by exists k.
  - intros [[= -> -> ->]|Hin]%elem_of_cons; [by exists k|]. cbn in E. apply (IH _ (k + 1 + q)) in Hin; [done|lia..].
Qed.

Lemma class_valid s : 0 <= s < 2 ^ 30 -> valid_cls (MAPPING_INSERT s).
Proof.
  intros Hs. destruct (MAPPING_INSERT s) as [fl sl] eqn:E.
  destruct (mapping_insert_class s fl sl) as (H1 & H2 & _); [lia|done|]. pose proof (mapping_insert_row s fl sl Hs E).
  split; cbn; lia.
Qed.

(** ** The words of a pool *)

Lemma used_app a l1 l2 x : used a (l1 ++ l2) x <-> used a l1 x \/ used (a + blen l1) l2 x.
Proof. unfold used. setoid_rewrite at_app. setoid_rewrite elem_of_app. firstorder. Qed.

Lemma used_cons a s f l x : used a ((s, f) :: l) x <-> (f = false /\ a + 8 <= x < a + 8 + s) \/ used (a + 8 + s) l x.
Proof.
  unfold used. cbn [at_]. setoid_rewrite elem_of_cons. split.
  - intros (b & s' & [[= -> -> <-]|Hin] & Hx); [left; auto|right; eauto].
  - intros [[-> Hx]|(b & s' & Hin & Hx)]; [exists a, s; auto|exists b, s'; auto].
Qed.

Lemma used_bounds a l x : nonneg l -> used a l x -> a + 8 <= x < a + blen l.
Proof. intros Hl (b & s & Hin & Hx). apply at_bounds in Hin; [lia|done]. Qed.

Lemma own_hdr t n L x : nonneg L -> 0 <= n -> blen L = n -> hdr_word (heap_base t) L x -> own t n L x.
Proof.
  intros Hl Hn <- Hx. split.
  - destruct Hx as (b & s & f & Hin & Hx). apply at_bounds in Hin; [|done]. rewrite heap_base_eq in *. lia.
  - intros (b & s & Hin & Hb). eapply payload_not_hdr; [exact Hl| |exact Hx]. by exists b, s, false.
Qed.

(** The blocks of [A] are free blocks of [L]. *)
Definition free_in (a : Z) (L : blocks) (A : Z -> Prop) : Prop := forall b, A b -> exists s, (b, s, true) ∈ at_ a L.

Lemma list_not_hdr t L A x : ending L -> free_in (heap_base t) L A -> list_word t A x -> ~ hdr_word (heap_base t) L x.
Proof.
  intros HL HA Hx Hh. pose proof (ending_nonneg L HL) as Hn. destruct Hx as [Hx|[Hx|(b & Hb & Hx)]].
  - destruct Hh as (b & s & f & Hin & Hxb). apply at_bounds in Hin; [|done]. tlsf_words. destruct Hx as [Hx|(fl & Hfl & Hx)]; lia.
  - destruct Hh as (b & s & f & Hin & Hxb). apply at_bounds in Hin; [|done]. tlsf_words. destruct Hx as (c & Hc & Hx). lia.
  - destruct (HA b Hb) as (s & Hin). destruct (at_size8 _ _ _ _ _ HL Hin) as [_ [[_ ?]|Hs]]; [done|].
    eapply payload_not_hdr; [exact Hn| |exact Hh]. exists b, s, true. split; [done|]. unfold free_prev, free_next in Hx. lia.
Qed.

Lemma own_list t n L A x : ending L -> 0 < t -> 0 <= n -> blen L = n -> free_in (heap_base t) L A -> list_word t A x -> own t n L x.
Proof.
  intros HL Ht Hn0 Hlen HA Hx. pose proof (ending_nonneg L HL) as Hn. destruct Hx as [Hx|[Hx|(b & Hb & Hx)]].
  - assert (t <= x < heap_base t) by (tlsf_words; destruct Hx as [Hx|(fl & Hfl & Hx)]; lia).
    split; [lia|]. intros Hu%used_bounds; [lia|done].
  - assert (t <= x < heap_base t) by (tlsf_words; destruct Hx as (c & Hc & Hx); lia).
    split; [lia|]. intros Hu%used_bounds; [lia|done].
  - destruct (HA b Hb) as (s & Hin). destruct (at_size8 _ _ _ _ _ HL Hin) as [_ [[_ ?]|Hs]]; [done|].
    pose proof (at_bounds _ _ _ _ _ Hn Hin). pose proof (heap_base_eq t). unfold free_prev, free_next in Hx.
    split; [lia|]. intros (b' & s' & Hin' & Hx').
    destruct (at_disjoint _ _ _ _ _ _ _ _ Hn Hin Hin') as [E|?]; [done|lia].
Qed.
