(* ===== verification/TlsfAlloc.v ===== *)
(** * Allocation and release: malloc_ex and free_ex of tlsf.c

    [malloc_ex] takes a free block out of its list and splits it; [free_ex]
    merges a block with its free neighbours and files the result. Both keep
    [heap_ok], write only words of the allocator, and implement operations on
    the sequence of blocks. *)

From Stdlib Require Import ZArith Lia.
From stdpp Require Import base tactics gmap option functions list.
From S2P Require Import Prelude Bits Mem Kstate Tlsf TlsfMap TlsfFree TlsfHeap.

Open Scope Z_scope.
Open Scope kernel_scope.

(** ** Filing *)

Lemma filed_remove F (P : Z -> Z -> Prop) a s l1 l2 : filed_as F P -> P a s -> (forall s', P a s' -> s' = s) ->
  F (MAPPING_INSERT s) = l1 ++ a :: l2 -> NoDup (F (MAPPING_INSERT s)) ->
  filed_as (<[MAPPING_INSERT s := l1 ++ l2]> F) (fun y x => P y x /\ y <> a).
Proof.
  intros HF Ha Hu El Hnd c y. destruct (decide (c = MAPPING_INSERT s)) as [->|Hc].
  - rewrite fn_lookup_insert. rewrite El in Hnd.
    assert (y ∈ l1 ++ l2 <-> y ∈ F (MAPPING_INSERT s) /\ y <> a) as ->.
    { rewrite El. assert (a ∉ l1 ++ l2) as Hn.
      { assert (NoDup (a :: l1 ++ l2)) as [? _]%NoDup_cons; [by rewrite Permutation_middle|done]. }
      rewrite !elem_of_app, elem_of_cons in *. split; [|tauto]. intros Hy. split; [tauto|]. by intros ->. }
    rewrite (HF _ y). naive_solver.
  - rewrite fn_lookup_insert_ne by done. rewrite (HF c y). split; [|naive_solver].
    intros (x & Hx & Ex). exists x. split; [split; [done|]|done]. intros ->. apply Hc. by rewrite <- Ex, (Hu x).
Qed.

Lemma filed_add F (P : Z -> Z -> Prop) b s : filed_as F P ->
  filed_as (<[MAPPING_INSERT s := b :: F (MAPPING_INSERT s)]> F) (fun y x => P y x \/ (y = b /\ x = s)).
Proof.
  intros HF c y. destruct (decide (c = MAPPING_INSERT s)) as [->|Hc].
  - rewrite fn_lookup_insert, elem_of_cons, (HF _ y). naive_solver.
  - rewrite fn_lookup_insert_ne by done. rewrite (HF c y). naive_solver.
Qed.

Lemma filed_ext F (P P' : Z -> Z -> Prop) : (forall a s, P a s <-> P' a s) -> filed_as F P -> filed_as F P'.
Proof. intros HP HF c a. rewrite (HF c a). by setoid_rewrite HP. Qed.

Lemma lists_frame m m' t F : lists_ok m t F -> (forall x, list_word t (filed F) x -> peek m' x = peek m x) -> lists_ok m' t F.
Proof.
  intros [H1 H2 H3 H4 H5 H6] Hf. split; try done.
  - eapply bits_frame; [exact H1|]. intros x Hx. apply Hf. by left.
  - intros c Hc. rewrite Hf; [auto|]. right. left. by exists c.
  - intros c. eapply dll_frame; [apply H3|]. intros x (a & Ha & Hx). apply Hf. right. right. exists a. split; [by exists c|done].
Qed.

(** ** Headers *)

Lemma wp_blk_size m mp pf p a s f (Q : Z -> tlsf_state -> Prop) :
  valid_addr (Tlsf.size a) = true -> hdr m pf p a s f -> size8 s -> Q s (mk_tlsf m mp) -> wp (blk_size a) Q (mk_tlsf m mp).
Proof.
  intros Ha [E _] Hs HQ. apply wp_bind, wp_tload; [done|]. cbn [t_mem]. rewrite E, hword_size by done. by apply wp_ret.
Qed.

Lemma wp_next_block m mp pf p a s f (Q : Z -> tlsf_state -> Prop) :
  valid_addr (Tlsf.size a) = true -> hdr m pf p a s f -> size8 s -> 0 <= a -> a + 8 + s < 2 ^ 32 ->
  Q (a + 8 + s) (mk_tlsf m mp) -> wp (next_block a) Q (mk_tlsf m mp).
Proof.
  intros Ha Hh Hs H0 Hlt HQ. apply wp_bind. eapply wp_blk_size; [done|exact Hh|done|]. apply wp_ret.
  unfold GET_NEXT_BLOCK, buffer. destruct Hs as (q & -> & Hq). by rewrite u32_small by lia.
Qed.

Lemma wp_upd_word m mp a g (Q : unit -> tlsf_state -> Prop) :
  valid_addr a = true -> Q tt (mk_tlsf (<[a := g (peek m a)]> m) mp) -> wp (upd_word a g) Q (mk_tlsf m mp).
Proof. intros Ha HQ. apply wp_bind, wp_tload; [done|]. by apply wp_tstore. Qed.

Lemma node_size t a : 0 < t -> t mod 4 = 0 -> node t a -> valid_addr (Tlsf.size a) = true /\ valid_addr (prev_hdr a) = true.
Proof.
  intros Ht H4 Ha. unfold Tlsf.size, prev_hdr. split; [apply (node_addr t a 1); (done || lia)|].
  rewrite <- (Z.add_0_r a). by apply (node_addr t a 0).
Qed.

Lemma seg_front m a l x v pf p : nonneg l -> a + blen l <= x -> seg m pf p a l -> seg (<[x := v]> m) pf p a l.
Proof.
  intros Hl Hx H. eapply seg_frame; [exact H|]. intros y (b & s & f & Hin & Hy). apply at_bounds in Hin; [|done].
  apply peek_insert_ne. lia.
Qed.

Lemma seg_back m a l x v pf p : nonneg l -> x < a -> seg m pf p a l -> seg (<[x := v]> m) pf p a l.
Proof.
  intros Hl Hx H. eapply seg_frame; [exact H|]. intros y (b & s & f & Hin & Hy). apply at_bounds in Hin; [|done].
  apply peek_insert_ne. lia.
Qed.

Lemma hdr_frame m m' pf p a s f : hdr m pf p a s f -> peek m' (Tlsf.size a) = peek m (Tlsf.size a) ->
  peek m' (prev_hdr a) = peek m (prev_hdr a) -> hdr m' pf p a s f.
Proof. intros [H1 H2] E1 E2. split; [by rewrite E1|]. rewrite E2. auto. Qed.

(** ** The pool around an opened block *)

Section opened.
Context {m : gmap Z Z} {t n : Z} {l1 : blocks} {s : Z} {l2 : blocks} {F : cls -> list Z}.
Hypothesis Ho : opened m t n l1 s l2 F.

Local Abbreviation b := (heap_base t + blen l1).
Local Abbreviation L := (l1 ++ (s, true) :: l2).

Lemma opened_ending : ending L.
Proof. apply ending_app; [apply Ho|]. destruct (o_end _ _ _ _ _ _ _ Ho) as (l & -> & Hl). exists ((s, true) :: l). split; [done|]. constructor; [apply Ho|done]. Qed.

Lemma opened_nonneg : nonneg L /\ nonneg l1 /\ nonneg l2.
Proof. split_and!; [apply ending_nonneg, opened_ending|apply big_nonneg, Ho|apply ending_nonneg, Ho]. Qed.

Lemma opened_at : at_ (heap_base t) L = at_ (heap_base t) l1 ++ (b, s, true) :: at_ (b + 8 + s) l2.
Proof. by rewrite at_app. Qed.

Lemma opened_in : (b, s, true) ∈ at_ (heap_base t) L.
Proof. rewrite opened_at. apply elem_of_app. right. left. Qed.

Lemma opened_node : node t b.
Proof. eapply at_node; [apply opened_ending|apply opened_in]. Qed.

Lemma opened_bounds : 0 <= blen l1 /\ 8 <= s /\ 0 <= blen l2 /\ b + 8 + s + blen l2 = heap_base t + n.
Proof.
  destruct opened_nonneg as (H & H1 & H2). pose proof (o_len _ _ _ _ _ _ _ Ho) as E. rewrite blen_app in E. cbn [blen] in E.
  destruct (o_big _ _ _ _ _ _ _ Ho) as [_ Hs]. cbn in Hs. pose proof (blen_nonneg _ H1). pose proof (blen_nonneg _ H2). lia.
Qed.

Lemma opened_free : free_in (heap_base t) L (fun a => a = b \/ filed F a).
Proof.
  intros a [->|[c Hc]]; [eexists; apply opened_in|]. apply (o_filed _ _ _ _ _ _ _ Ho) in Hc as (x & Hx & _). exists x.
  rewrite opened_at, elem_of_app, elem_of_cons. tauto.
Qed.

Lemma opened_not_filed : ~ filed F b.
Proof.
  intros [c Hc]. apply (o_filed _ _ _ _ _ _ _ Ho) in Hc as (x & Hx & _). destruct opened_nonneg as (_ & H1 & H2).
  pose proof opened_bounds. destruct Hx as [Hx|Hx]; apply at_bounds in Hx; try done; lia.
Qed.

Lemma opened_own_list x : list_word t (fun a => a = b \/ filed F a) x -> own t n L x.
Proof.
  pose proof opened_bounds. apply own_list; [apply opened_ending|apply Ho|lia|apply Ho|apply opened_free].
Qed.

Lemma opened_own_hdr x : hdr_word (heap_base t) L x -> own t n L x.
Proof. pose proof opened_bounds. apply own_hdr; [apply opened_nonneg|lia|apply Ho]. Qed.

Lemma opened_not_list x : hdr_word (heap_base t) L x -> ~ list_word t (fun a => a = b \/ filed F a) x.
Proof. intros Hx Hl. eapply list_not_hdr; [apply opened_ending|apply opened_free|exact Hl|exact Hx]. Qed.

Lemma opened_hdr_word x : x = b \/ x = b + 4 -> hdr_word (heap_base t) L x.
Proof. intros Hx. exists b, s, true. split; [apply opened_in|done]. Qed.

Lemma opened_addrs : 0 < t /\ t mod 4 = 0 /\ valid_addr (Tlsf.size b) = true /\ valid_addr (prev_hdr b) = true.
Proof.
  destruct (o_arena _ _ _ _ _ _ _ Ho) as [H1 H2 _ _]. by destruct (node_size t b H1 H2 opened_node).
Qed.

End opened.

(** ** Merging *)

(** A filed block leaves its list. *)
Lemma wp_extract_filed m t F (P : Z -> Z -> Prop) a x fl sl (Q : unit -> tlsf_state -> Prop) mp :
  lists_ok m t F -> filed_as F P -> P a x -> (forall s', P a s' -> s' = x) -> 0 <= x < 2 ^ 30 -> MAPPING_INSERT x = (fl, sl) ->
  (forall m' F', lists_ok m' t F' -> filed_as F' (fun y z => P y z /\ y <> a) -> changes (list_word t (filed F)) m m' -> Q tt (mk_tlsf m' mp)) ->
  wp (EXTRACT_BLOCK a t fl sl) Q (mk_tlsf m mp).
Proof.
  intros Hok HF Ha Hu Hx Em HQ. assert (a ∈ F (MAPPING_INSERT x)) as Hin by (apply HF; by exists x).
  destruct (list_elem_of_split _ _ Hin) as (k1 & k2 & Ek). pose proof (class_valid x Hx) as Hc. rewrite Em in Hc, Ek.
  eapply (wp_extract_block _ _ _ _ _ _ k1 k2); [done..|]. intros m' Hok' Hch. eapply HQ; [exact Hok'| |exact Hch].
  rewrite <- Em in Ek |- *. eapply filed_remove; [done|exact Ha|done|exact Ek|apply Hok].
Qed.

Lemma at_unique a l b s f s' f' : nonneg l -> (b, s, f) ∈ at_ a l -> (b, s', f') ∈ at_ a l -> s' = s /\ f' = f.
Proof.
  intros Hn H1 H2. destruct (at_disjoint _ _ _ _ _ _ _ _ Hn H1 H2) as [[= -> ->]|Hd]; [done|].
  pose proof (at_bounds _ _ _ _ _ Hn H1). pose proof (at_bounds _ _ _ _ _ Hn H2). lia.
Qed.

(** A free block of the pool leaves its list. *)
Lemma wp_unfile m t n l1 s l2 F a x fl sl (Q : unit -> tlsf_state -> Prop) mp :
  opened m t n l1 s l2 F -> MAPPING_INSERT x = (fl, sl) -> a <> heap_base t + blen l1 -> (a, x, true) ∈ at_ (heap_base t) (l1 ++ (s, true) :: l2) ->
  (forall m' F', lists_ok m' t F' -> 
     filed_as F' (fun y z => ((y, z, true) ∈ at_ (heap_base t) l1 \/ (y, z, true) ∈ at_ (heap_base t + blen l1 + 8 + s) l2) /\ y <> a) ->
     changes (own t n (l1 ++ (s, true) :: l2)) m m' ->
     (forall y, hdr_word (heap_base t) (l1 ++ (s, true) :: l2) y -> peek m' y = peek m y) -> Q tt (mk_tlsf m' mp)) ->
  wp (EXTRACT_BLOCK a t fl sl) Q (mk_tlsf m mp).
Proof.
  intros Ho Em Hne Hin HQ. pose proof (opened_nonneg Ho) as (HnL & _).
  pose proof (at_bounds _ _ _ _ _ HnL Hin) as Hax. rewrite (o_len _ _ _ _ _ _ _ Ho) in Hax. destruct (o_arena _ _ _ _ _ _ _ Ho) as [_ _ _ Hn30].
  eapply (wp_extract_filed m t F _ a x); [apply Ho|apply Ho|cbn beta| |lia|exact Em|].
  - rewrite opened_at, elem_of_app, elem_of_cons in Hin. destruct Hin as [?|[[= ? ?]|?]]; [by left|done|by right].
  - cbn beta. intros s' Hs'. apply (at_unique _ _ a x true s' true HnL Hin). rewrite opened_at, elem_of_app, elem_of_cons. tauto.
  - intros m' F' Hok' Hf' Hch.
    assert (changes (list_word t (fun y => y = heap_base t + blen l1 \/ filed F y)) m m') as Hch'.
    { eapply list_word_mono; [|exact Hch]. by right. }
    eapply HQ; [exact Hok'|exact Hf'| |].
    + eapply changes_mono; [|exact Hch']. apply (opened_own_list Ho).
    + intros y Hy. apply Hch'. by apply (opened_not_list Ho).
Qed.

Lemma nonneg_head (s : Z) f l : nonneg ((s, f) :: l) -> 0 <= s /\ nonneg l.
Proof. intros [H1 H2]%Forall_cons. done. Qed.

Lemma hdr_word_l a l1 l2 x : hdr_word a l1 x -> hdr_word a (l1 ++ l2) x.
Proof. intros (b & s & f & Hin & Hx). exists b, s, f. split; [|done]. rewrite at_app, elem_of_app. by left. Qed.

Lemma hdr_word_r a l1 l2 x : hdr_word (a + blen l1) l2 x -> hdr_word a (l1 ++ l2) x.
Proof. intros (b & s & f & Hin & Hx). exists b, s, f. split; [|done]. rewrite at_app, elem_of_app. by right. Qed.

Lemma hdr_word_tl a s f l x : hdr_word (a + 8 + s) l x -> hdr_word a ((s, f) :: l) x.
Proof. intros (b & s' & f' & Hin & Hx). exists b, s', f'. split; [by right|done]. Qed.

Lemma hdr_word_hd a s f l x : x = a \/ x = a + 4 -> hdr_word a ((s, f) :: l) x.
Proof. intros Hx. exists a, s, f. split; [left|done]. Qed.

Lemma used_merge a s s' l x : used a ((s, true) :: (s', true) :: l) x <-> used a ((s + s' + 8, true) :: l) x.
Proof. rewrite !used_cons. replace (a + 8 + s + 8 + s') with (a + 8 + (s + s' + 8)) by lia. naive_solver. Qed.

Lemma own_merge t n l1 s s' l2 x :
  own t n (l1 ++ (s, true) :: (s', true) :: l2) x <-> own t n (l1 ++ (s + s' + 8, true) :: l2) x.
Proof. unfold own. by rewrite !used_app, used_merge. Qed.

Lemma size8_merge s s' n : size8 s -> size8 s' -> s + s' + 8 <= n -> n < 2 ^ 30 -> size8 (s + s' + 8).
Proof. intros (q & -> & Hq) (q' & -> & Hq') Hn Hlt. exists (q + q' + 1). lia. Qed.

(** The next block is absorbed. *)
Definition absorb (s : Z) (l : blocks) : Z * blocks :=
  match l with (s', true) :: l' => (s + s' + 8, l') | _ => (s, l) end.

(** The state [opened] after the header of the block gets the size of two. *)
Lemma opened_join m m1 t n l1 s s' l2 F F' :
  opened m t n l1 s ((s', true) :: l2) F -> lists_ok m1 t F' ->
  filed_as F' (fun y z => ((y, z, true) ∈ at_ (heap_base t) l1 \/ (y, z, true) ∈ at_ (heap_base t + blen l1 + 8 + s) ((s', true) :: l2)) /\
                          y <> heap_base t + blen l1 + 8 + s) ->
  (forall y, hdr_word (heap_base t) (l1 ++ (s, true) :: (s', true) :: l2) y -> peek m1 y = peek m y) ->
  opened (<[Tlsf.size (heap_base t + blen l1) := hword (s + s' + 8) true (last_flag false l1)]> m1) t n l1 (s + s' + 8) l2 F'.
Proof.
  intros Ho Hok Hf Hh. pose proof (opened_nonneg Ho) as (_ & Hn1 & [Hs' Hn2]%nonneg_head). pose proof (opened_bounds Ho) as Hb.
  cbn [blen] in Hb. pose proof (blen_nonneg _ Hn2). pose proof Ho as [Ha Hlen Hfr [Hs8 Hs] He Hsp1 Hsp2 Hg1 Hhd (pf & p & Hg2) Hl HF]. cbn [fst] in *.
  destruct (ending_cons _ _ _ He) as [(_ & _ & ?)|[[Hs8' Hb8'] He']]; [done|]. cbn [fst] in *. destruct Hsp2 as [_ Hsp2].
  assert (size8 (s + s' + 8)) as Hs8m by (eapply (size8_merge _ _ n); [done..|lia|apply Ha]).
  set (b := heap_base t + blen l1) in *. destruct Hg2 as [_ Hg2].
  assert (b + 8 + (s + s' + 8) = b + 8 + s + 8 + s') as Eb by lia. split.
  - done.
  - rewrite <- Hlen, !blen_app. cbn [blen]. lia.
  - done.
  - split; cbn; [done|lia].
  - done.
  - done.
  - destruct l2 as [|[s2 f2] l2]; [done|]. cbn [sparse] in *. tauto.
  - apply seg_front; [done|unfold Tlsf.size, b; lia|]. eapply seg_frame; [exact Hg1|]. intros x Hx. apply Hh. by apply hdr_word_l.
  - split; [by rewrite peek_insert_eq|]. intros E. rewrite peek_insert_ne by (unfold Tlsf.size, prev_hdr; lia).
    rewrite Hh; [by apply Hhd|]. apply hdr_word_r, hdr_word_hd. by left.
  - exists true, (b + 8 + s). fold b. rewrite Eb. apply seg_back; [done|unfold Tlsf.size; lia|].
    eapply seg_frame; [exact Hg2|]. intros x Hx. apply Hh. by apply hdr_word_r, hdr_word_tl, hdr_word_tl.
  - eapply lists_frame; [exact Hok|]. intros x Hx. apply peek_insert_ne. intros <-.
    apply (opened_not_list Ho (Tlsf.size b)); [apply opened_hdr_word; by right|].
    destruct Hx as [Hx|[Hx|(a & [c Hc] & Hx)]]; [by left|right; by left|]. right. right. exists a. split; [|done]. right.
    apply Hf in Hc as (z & [Hz _] & Ez). exists c. apply HF. by exists z.
  - eapply filed_ext; [|exact Hf]. intros y z. fold b. rewrite Eb. cbn [at_]. rewrite elem_of_cons. split.
    + intros [[?|[[= ? ?]|?]] Hne]; [by left|done|by right].
    + intros [Hin|Hin]; (split; [tauto|]); apply at_bounds in Hin; try done; unfold b; lia.
Qed.

Lemma own_merge_prev t n l1 s0 s l2 x :
  own t n ((l1 ++ [(s0, true)]) ++ (s, true) :: l2) x <-> own t n (l1 ++ (s0 + s + 8, true) :: l2) x.
Proof. rewrite <- (assoc_L (++)). cbn [app]. apply own_merge. Qed.

(** The same when the block before it absorbs the block. *)
Lemma opened_join_prev m m1 t n l1 s0 s l2 F F' :
  opened m t n (l1 ++ [(s0, true)]) s l2 F -> lists_ok m1 t F' ->
  filed_as F' (fun y z => ((y, z, true) ∈ at_ (heap_base t) (l1 ++ [(s0, true)]) \/
      (y, z, true) ∈ at_ (heap_base t + blen (l1 ++ [(s0, true)]) + 8 + s) l2) /\ y <> heap_base t + blen l1) ->
  (forall y, hdr_word (heap_base t) ((l1 ++ [(s0, true)]) ++ (s, true) :: l2) y -> peek m1 y = peek m y) ->
  opened (<[Tlsf.size (heap_base t + blen l1) := hword (s0 + s + 8) true (last_flag false l1)]> m1) t n l1 (s0 + s + 8) l2 F'.
Proof.
  intros Ho Hok Hf Hh. pose proof (opened_nonneg Ho) as (_ & [Hn1 [Hs0 _]%nonneg_head]%Forall_app & Hn2). pose proof (opened_bounds Ho) as Hb.
  rewrite !blen_app in Hb. cbn [blen] in Hb. pose proof (blen_nonneg _ Hn1). pose proof (blen_nonneg _ Hn2).
  pose proof Ho as [Ha Hlen Hfr [Hs8 Hs] He Hsp1 Hsp2 Hg1 Hhd (pf & p & Hg2) Hl HF]. cbn [fst] in *.
  apply Forall_app in Hfr as [Hfr1 [[Hs08 Hs0b] _]%Forall_cons]. cbn [fst] in *.
  apply sparse_app in Hsp1 as [Hsp1 [Hlf _]]. apply seg_app in Hg1 as [Hg1 [Hh0 _]].
  assert (size8 (s0 + s + 8)) as Hs8m by (eapply (size8_merge _ _ n); [done..|lia|apply Ha]).
  rewrite blen_app in *. cbn [blen] in *. set (b := heap_base t + blen l1) in *.
  assert (b + 8 + (s0 + s + 8) = heap_base t + (blen l1 + (8 + s0 + 0)) + 8 + s) as Eb by (unfold b; lia).
  assert (forall x, x = b \/ x = b + 4 -> hdr_word (heap_base t) ((l1 ++ [(s0, true)]) ++ (s, true) :: l2) x) as Hbw.
  { intros x Hx. apply hdr_word_l, hdr_word_r, hdr_word_hd. done. }
  split.
  - done.
  - rewrite <- Hlen, !blen_app. cbn [blen]. lia.
  - done.
  - split; cbn; [done|lia].
  - done.
  - done.
  - done.
  - apply seg_front; [done|unfold Tlsf.size, b; lia|]. eapply seg_frame; [exact Hg1|]. intros x Hx. apply Hh. by apply hdr_word_l, hdr_word_l.
  - split; [by rewrite peek_insert_eq|]. intros E. rewrite peek_insert_ne by (unfold Tlsf.size, prev_hdr; lia).
    rewrite Hh by (apply Hbw; by left). by apply Hh0.
  - exists pf, p. fold b. rewrite Eb. apply seg_back; [done|unfold Tlsf.size; lia|].
    eapply seg_frame; [exact Hg2|]. intros x Hx. apply Hh. apply hdr_word_r. rewrite blen_app. cbn [blen]. by apply hdr_word_tl.
  - eapply lists_frame; [exact Hok|]. intros x Hx. apply peek_insert_ne. intros <-.
    apply (opened_not_list Ho (Tlsf.size b)); [apply Hbw; by right|].
    destruct Hx as [Hx|[Hx|(a & [c Hc] & Hx)]]; [by left|right; by left|]. right. right. exists a. split; [|done]. right.
    apply Hf in Hc as (z & [Hz _] & Ez). exists c. apply HF. by exists z.
  - eapply filed_ext; [|exact Hf]. intros y z. fold b. rewrite Eb, at_app, elem_of_app. cbn [at_].
    rewrite list_elem_of_singleton. split.
    + intros [[[?|[= ? ?]]|?] Hne]; [by left|done|by right].
    + intros [Hin|Hin]; (split; [tauto|]); apply at_bounds in Hin; try done; unfold b; lia.
Qed.

(** [if (tmp_b->size & FREE_BLOCK)]: the block after [b] joins it. *)
Lemma wp_merge_next m t n l1 s l2 F (Q : unit -> tlsf_state -> Prop) mp :
  opened m t n l1 s l2 F ->
  let b := heap_base t + blen l1 in
  (forall m' F', opened m' t n l1 (absorb s l2).1 (absorb s l2).2 F' ->
     changes (own t n (l1 ++ ((absorb s l2).1, true) :: (absorb s l2).2)) m m' -> Q tt (mk_tlsf m' mp)) ->
  wp (let* tmp_b := next_block b in
      let* w := mem (load (Tlsf.size tmp_b)) in
      when (nz (Z.land w FREE_BLOCK))
        (let* r := blk_size tmp_b in
         let '(fl, sl) := MAPPING_INSERT r in
         EXTRACT_BLOCK tmp_b t fl sl ;;;
         let* r := blk_size tmp_b in
         upd_word (Tlsf.size b) (fun w => u32 (w + r + BHDR_OVERHEAD)))) Q (mk_tlsf m mp).
Proof.
  intros Ho b HQ. pose proof (opened_addrs Ho) as (Ht & H4 & Hvs & _). pose proof (opened_bounds Ho) as Hb.
  pose proof (opened_nonneg Ho) as (HnL & Hn1 & Hn2). pose proof Ho as [Ha Hlen Hfr [Hs8 Hs] He _ _ _ Hhd (pf & p & Hg2) _ _]. cbn [fst] in *.
  pose proof (ar_top _ _ Ha) as Htop. pose proof (heap_base_eq t) as Ebase. fold b in Hb, Hvs, Hhd, Hg2.
  assert (exists s' f' l3, l2 = (s', f') :: l3) as (s' & f' & l3 & ->).
  { destruct He as ([|[x y] l'] & -> & _); cbn; eauto. }
  cbn [blen] in Hb. destruct (nonneg_head _ _ _ Hn2) as [Hs' Hn3]. pose proof (blen_nonneg _ Hn3).
  assert ((b + 8 + s, s', f') ∈ at_ (heap_base t) (l1 ++ (s, true) :: (s', f') :: l3)) as Hin.
  { rewrite opened_at, elem_of_app. right. right. left. }
  pose proof (at_node _ _ _ _ _ (opened_ending Ho) Hin) as Hnn. destruct (node_size t _ Ht H4 Hnn) as [Hvn _].
  destruct (at_size8 _ _ _ _ _ (opened_ending Ho) Hin) as [Hs8' _]. destruct Hg2 as [Hhn _].
  apply wp_bind. eapply wp_next_block; [done|exact Hhd|done|unfold b in *; lia|lia|].
  apply wp_bind, wp_tload; [done|]. cbn [t_mem]. rewrite (proj1 Hhn), hword_free by done.
  destruct f'; cbn [when absorb fst snd] in *; [|apply wp_ret, (HQ m F); [done|apply changes_refl]].
  apply wp_bind. eapply wp_blk_size; [done|exact Hhn|done|].
  destruct (MAPPING_INSERT s') as [fl sl] eqn:Em. apply wp_bind.
  eapply (wp_unfile m t n l1 s _ F (b + 8 + s) s'); [exact Ho|exact Em|unfold b in *; lia|exact Hin|].
  intros m1 F1 Hok1 Hf1 Hch1 Hh1.
  assert (hdr_word (heap_base t) (l1 ++ (s, true) :: (s', true) :: l3) (Tlsf.size (b + 8 + s))) as Hwn.
  { exists (b + 8 + s), s', true. split; [done|by right]. }
  assert (hdr_word (heap_base t) (l1 ++ (s, true) :: (s', true) :: l3) (Tlsf.size b)) as Hwb by (apply opened_hdr_word; by right).
  apply wp_bind. eapply (wp_blk_size m1 _ pf (peek m1 (prev_hdr (b + 8 + s))) (b + 8 + s) s' true); [done| |done|].
  { split; [|done]. by rewrite Hh1, (proj1 Hhn). }
  apply wp_upd_word; [done|]. rewrite Hh1, (proj1 Hhd), hword_add by (done || lia).
  eapply HQ; [by eapply opened_join|]. intros x Hx. rewrite peek_insert_ne.
  - apply Hch1. rewrite own_merge. done.
  - intros <-. apply Hx, own_merge, (opened_own_hdr Ho). done.
Qed.

(** The block before it absorbs the block. *)
Definition absorb_front (l : blocks) (s : Z) : blocks * Z :=
  match rev l with (s0, true) :: r => (rev r, s0 + s + 8) | _ => (l, s) end.

Lemma absorb_front_snoc l s0 f0 s : absorb_front (l ++ [(s0, f0)]) s = if f0 then (l, s0 + s + 8) else (l ++ [(s0, f0)], s).
Proof. unfold absorb_front. rewrite rev_app_distr. cbn. destruct f0; [by rewrite rev_involutive|done]. Qed.

Lemma last_flag_snoc pf l s f : last_flag pf (l ++ [(s, f)]) = f.
Proof. by rewrite last_flag_app. Qed.

(** [if (b->size & PREV_FREE)]: the block joins the one before it. *)
Lemma wp_merge_prev m t n l1 s l2 F (Q : Z -> tlsf_state -> Prop) mp :
  opened m t n l1 s l2 F ->
  let b := heap_base t + blen l1 in
  (forall m' F', opened m' t n (absorb_front l1 s).1 (absorb_front l1 s).2 l2 F' ->
     changes (own t n ((absorb_front l1 s).1 ++ ((absorb_front l1 s).2, true) :: l2)) m m' ->
     Q (heap_base t + blen (absorb_front l1 s).1) (mk_tlsf m' mp)) ->
  wp (let* w := mem (load (Tlsf.size b)) in
      if nz (Z.land w PREV_FREE) then
        let* tmp_b := mem (load (prev_hdr b)) in
        let* r := blk_size tmp_b in
        let '(fl, sl) := MAPPING_INSERT r in
        EXTRACT_BLOCK tmp_b t fl sl ;;;
        let* r := blk_size b in
        upd_word (Tlsf.size tmp_b) (fun w => u32 (w + r + BHDR_OVERHEAD)) ;;;
        ret tmp_b
      else ret b) Q (mk_tlsf m mp).
Proof.
  intros Ho b HQ. pose proof (opened_addrs Ho) as (Ht & H4 & Hvs & Hvp). pose proof Ho as [Ha Hlen Hfr [Hs8 Hs] He _ _ Hg1 Hhd _ _ _]. cbn [fst] in *.
  apply wp_bind, wp_tload; [done|]. cbn [t_mem]. fold b in Hhd. rewrite (proj1 Hhd), hword_prev by done.
  destruct l1 as [|[s0 f0] l1 _] using rev_ind; [apply wp_ret, (HQ m F); [done|apply changes_refl]|].
  rewrite last_flag_snoc in *. rewrite absorb_front_snoc in HQ. destruct f0; [|apply wp_ret, (HQ m F); [done|apply changes_refl]].
  cbn [fst snd] in HQ. set (b0 := heap_base t + blen l1) in *.
  pose proof (opened_nonneg Ho) as (HnL & [Hn1 [Hs0 _]%nonneg_head]%Forall_app & Hn2). pose proof (opened_bounds Ho) as Hb.
  fold b in Hb. rewrite blen_app in Hb. cbn [blen] in Hb. pose proof (blen_nonneg _ Hn1).
  assert (b = b0 + 8 + s0) as Eb by (unfold b, b0; rewrite blen_app; cbn [blen]; lia).
  assert ((b0, s0, true) ∈ at_ (heap_base t) ((l1 ++ [(s0, true)]) ++ (s, true) :: l2)) as Hin.
  { rewrite at_app, at_app, !elem_of_app. left. right. left. }
  apply seg_app in Hg1 as [_ [Hh0 _]]. fold b0 in Hh0.
  destruct (at_size8 _ _ _ _ _ (opened_ending Ho) Hin) as [Hs08 _].
  destruct (node_size t b0 Ht H4 (at_node _ _ _ _ _ (opened_ending Ho) Hin)) as [Hv0 _].
  apply wp_bind, wp_tload; [done|]. cbn [t_mem]. rewrite (proj2 Hhd), last_addr_app by done. cbn [last_addr]. fold b0.
  apply wp_bind. eapply wp_blk_size; [done|exact Hh0|done|].
  destruct (MAPPING_INSERT s0) as [fl sl] eqn:Em. apply wp_bind.
  eapply (wp_unfile m t n _ s _ F b0 s0); [exact Ho|exact Em|fold b; lia|exact Hin|].
  intros m1 F1 Hok1 Hf1 Hch1 Hh1.
  assert (hdr_word (heap_base t) ((l1 ++ [(s0, true)]) ++ (s, true) :: l2) (Tlsf.size b)) as Hwb by (apply opened_hdr_word; by right).
  assert (hdr_word (heap_base t) ((l1 ++ [(s0, true)]) ++ (s, true) :: l2) (Tlsf.size b0)) as Hw0.
  { exists b0, s0, true. split; [done|by right]. }
  apply wp_bind. eapply (wp_blk_size m1 _ true (peek m1 (prev_hdr b)) b s true); [done| |done|].
  { split; [|done]. by rewrite Hh1, (proj1 Hhd). }
  pose proof (ar_len _ _ Ha). pose proof (blen_nonneg _ Hn2).
  apply wp_bind, wp_upd_word; [done|]. rewrite Hh1, (proj1 Hh0), hword_add by (done || lia). apply wp_ret.
  eapply HQ; [by eapply opened_join_prev|]. intros x Hx. rewrite peek_insert_ne.
  - apply Hch1. rewrite own_merge_prev. done.
  - intros <-. apply Hx, own_merge_prev, (opened_own_hdr Ho). done.
Qed.

(** Filing the opened block and telling the block after it gives a pool. *)
Lemma opened_close m m1 t n l1 s s2 l3 F F1 :
  opened m t n l1 s ((s2, false) :: l3) F -> last_flag false l1 = false ->
  let b := heap_base t + blen l1 in let L := l1 ++ (s, true) :: (s2, false) :: l3 in
  lists_ok m1 t F1 ->
  filed_as F1 (fun a x => (a, x, true) ∈ at_ (heap_base t) L) ->
  (forall y, hdr_word (heap_base t) L y -> peek m1 y = peek m y) ->
  heap_ok (<[prev_hdr (b + 8 + s) := b]> (<[Tlsf.size (b + 8 + s) := hword s2 false true]> m1)) t n L F1.
Proof.
  intros Ho Hlf b L Hok Hf Hh. pose proof (opened_nonneg Ho) as (HnL & Hn1 & [Hs2 Hn3]%nonneg_head). pose proof (opened_bounds Ho) as Hb.
  pose proof Ho as [Ha Hlen Hfr [Hs8 Hs] He Hsp1 Hsp2 Hg1 Hhd (pf & p & Hhn & Hg3) Hl HF]. cbn [fst] in *. fold b in Hhd, Hhn, Hg3.
  assert (hdr_word (heap_base t) L (b + 8 + s) /\ hdr_word (heap_base t) L (b + 8 + s + 4)) as [Hw1 Hw2].
  { split; apply hdr_word_r, hdr_word_tl, hdr_word_hd; fold b; [by left|by right]. }
  assert (forall x, list_word t (filed F1) x -> x <> b + 8 + s /\ x <> b + 8 + s + 4) as Hnl.
  { intros x Hx. assert (list_word t (fun a => a = b \/ filed F a) x) as Hx'.
    { destruct Hx as [Hx|[Hx|(a & [c Hc] & Hx)]]; [by left|right; by left|]. right; right. exists a. split; [|done].
      apply Hf in Hc as (z & Hz & Ez). unfold L in Hz. rewrite opened_at, elem_of_app, elem_of_cons in Hz.
      destruct Hz as [Hz|[[= -> ->]|Hz]]; [right|by left|right]; exists c; apply HF; exists z; tauto. }
    split; intros ->; by apply (opened_not_list Ho) in Hx'. }
  split; [done|done|apply (opened_ending Ho)| | | |done].
  - apply sparse_app. split; [done|]. rewrite Hlf. cbn [sparse] in *. by destruct Hsp2 as [_ ?].
  - apply seg_app. split; [|cbn [seg]; fold b; split; [|split]].
    + do 2 (apply seg_front; [done|unfold prev_hdr, Tlsf.size, b; lia|]). eapply seg_frame; [exact Hg1|].
      intros x Hx. apply Hh. by apply hdr_word_l.
    + eapply hdr_frame; [exact Hhd|..]; rewrite !peek_insert_ne by (unfold prev_hdr, Tlsf.size; lia); apply Hh, opened_hdr_word;
        [by right|by left].
    + split; [rewrite peek_insert_ne, peek_insert_eq by (unfold prev_hdr, Tlsf.size; lia); done|]. intros _. apply peek_insert_eq.
    + do 2 (apply seg_back; [done|unfold prev_hdr, Tlsf.size; lia|]). eapply seg_frame; [exact Hg3|].
      intros x Hx. apply Hh. by apply hdr_word_r, hdr_word_tl, hdr_word_tl.
  - eapply lists_frame; [exact Hok|]. intros x Hx. destruct (Hnl x Hx) as [Hx1 Hx2].
    rewrite !peek_insert_ne; [done|unfold prev_hdr, Tlsf.size; lia..].
Qed.

Lemma wp_file_block m t n l1 s s2 l3 F (Q : unit -> tlsf_state -> Prop) mp :
  opened m t n l1 s ((s2, false) :: l3) F -> last_flag false l1 = false ->
  let b := heap_base t + blen l1 in let L := l1 ++ (s, true) :: (s2, false) :: l3 in
  (forall m' F', heap_ok m' t n L F' -> changes (own t n L) m m' -> Q tt (mk_tlsf m' mp)) ->
  wp (let* r := blk_size b in
      let '(fl, sl) := MAPPING_INSERT r in
      INSERT_BLOCK b t fl sl ;;;
      let* tmp_b := next_block b in
      upd_word (Tlsf.size tmp_b) (fun w => Z.lor w PREV_FREE) ;;;
      mem (store (prev_hdr tmp_b) b)) Q (mk_tlsf m mp).
Proof.
  intros Ho Hlf b L HQ. pose proof (opened_addrs Ho) as (Ht & H4 & Hvs & _). pose proof (opened_bounds Ho) as Hb. cbn [blen] in Hb.
  pose proof (opened_nonneg Ho) as (_ & _ & [Hs2 Hn3]%nonneg_head). pose proof (blen_nonneg _ Hn3).
  pose proof Ho as [Ha Hlen Hfr [Hs8 Hs] He _ _ _ Hhd (pf & p & Hhn & _) _ HF]. cbn [fst] in *. fold b in Hhd, Hhn, Hb, Hvs.
  pose proof (ar_top _ _ Ha) as Htop. pose proof (ar_len _ _ Ha). pose proof (heap_base_eq t) as Ebase.
  assert ((b + 8 + s, s2, false) ∈ at_ (heap_base t) L) as Hin.
  { unfold L. rewrite opened_at, elem_of_app. right. right. left. }
  destruct (node_size t _ Ht H4 (at_node _ _ _ _ _ (opened_ending Ho) Hin)) as [Hvn1 Hvn2].
  destruct (at_size8 _ _ _ _ _ (opened_ending Ho) Hin) as [Hs28 _].
  apply wp_bind. eapply wp_blk_size; [done|exact Hhd|done|].
  pose proof (class_valid s ltac:(unfold b in *; lia)) as Hc. destruct (MAPPING_INSERT s) as [fl sl] eqn:Em.
  apply wp_bind, (wp_insert_block m t F); [apply Ho|done|apply (opened_node Ho)|apply (opened_not_filed Ho)|].
  intros m1 Hok1 Hch1.
  assert (forall y, hdr_word (heap_base t) L y -> peek m1 y = peek m y) as Hh1.
  { intros y Hy. apply Hch1. by apply (opened_not_list Ho). }
  apply wp_bind. eapply (wp_next_block m1 _ (last_flag false l1) (peek m1 (prev_hdr b)) b s true); [done| |done|unfold b in *; lia|lia|].
  { split; [|done]. rewrite Hh1 by (apply opened_hdr_word; by right). apply Hhd. }
  apply wp_bind, wp_upd_word; [done|]. rewrite Hh1, (proj1 Hhn), hword_set_prev by (done || (exists (b + 8 + s), s2, false; split; [done|by right])).
  apply wp_tstore; [done|]. eapply HQ.
  - eapply (opened_close m m1); [exact Ho|done|exact Hok1| |exact Hh1].
    rewrite <- Em. eapply filed_ext; [|apply filed_add, HF]. intros a x. cbn beta. rewrite opened_at, elem_of_app, elem_of_cons.
    split; [intros [[?|?]|[-> ->]]|intros [?|[[= -> ->]|?]]]; tauto.
  - intros x Hx. rewrite !peek_insert_ne.
    + apply Hch1. intros Hl. by apply Hx, (opened_own_list Ho).
    + intros <-. apply Hx, (opened_own_hdr Ho). exists (b + 8 + s), s2, false. split; [done|by right].
    + intros <-. apply Hx, (opened_own_hdr Ho). exists (b + 8 + s), s2, false. split; [done|by left].
Qed.

(** ** free_ex *)

(** What [free_ex] does to the sequence of blocks. *)
Definition a_free (l1 : blocks) (s : Z) (l2 : blocks) : blocks :=
  let '(s, l2) := absorb s l2 in let '(l1, s) := absorb_front l1 s in l1 ++ (s, true) :: l2.

Lemma absorb_head m t n l1 s l2 F : opened m t n l1 s l2 F -> exists s2 l3, (absorb s l2).2 = (s2, false) :: l3.
Proof.
  intros Ho. pose proof (o_end _ _ _ _ _ _ _ Ho) as He. pose proof (o_sparse2 _ _ _ _ _ _ _ Ho) as Hsp.
  destruct l2 as [|[s' f'] l2]; [by destruct He as ([|? ?] & ? & _)|]. destruct f'; [|by exists s', l2]. cbn [absorb snd].
  destruct (ending_cons _ _ _ He) as [(_ & _ & ?)|[_ He']]; [done|]. destruct Hsp as [_ Hsp].
  destruct l2 as [|[s2 f2] l3]; [by destruct He' as ([|? ?] & ? & _)|]. destruct Hsp as [Hf _]. cbn in Hf. subst f2. by exists s2, l3.
Qed.

Lemma absorb_front_last l s : sparse false l -> last_flag false (absorb_front l s).1 = false.
Proof.
  intros Hsp. destruct l as [|[s0 f0] l _] using rev_ind; [done|]. rewrite absorb_front_snoc.
  destruct f0; cbn [fst]; [|apply last_flag_snoc]. apply sparse_app in Hsp as [_ [H _]]. by rewrite andb_true_r in H.
Qed.

Lemma own_absorb t n l1 s l2 x : own t n (l1 ++ ((absorb s l2).1, true) :: (absorb s l2).2) x <-> own t n (l1 ++ (s, true) :: l2) x.
Proof. destruct l2 as [|[s' []] l2]; cbn [absorb fst snd]; [done|by rewrite own_merge|done]. Qed.

Lemma own_absorb_front t n l1 s l2 x :
  own t n ((absorb_front l1 s).1 ++ ((absorb_front l1 s).2, true) :: l2) x <-> own t n (l1 ++ (s, true) :: l2) x.
Proof.
  destruct l1 as [|[s0 f0] l1 _] using rev_ind; [done|]. rewrite absorb_front_snoc. destruct f0; cbn [fst snd]; [|done].
  by rewrite own_merge_prev.
Qed.

(** Marking a block free opens it. *)
Lemma opened_intro m m1 t n l1 s l2 F :
  heap_ok m t n (l1 ++ (s, false) :: l2) F -> 8 <= s ->
  let b := heap_base t + blen l1 in
  peek m1 (Tlsf.size b) = hword s true (last_flag false l1) ->
  (forall x, x <> Tlsf.size b -> ~ (b + 8 <= x < b + 8 + s) -> peek m1 x = peek m x) ->
  opened m1 t n l1 s l2 F.
Proof.
  intros [Ha Hlen He Hsp Hg Hl HF] Hs b Esz Hch. pose proof (ending_nonneg _ He) as Hn.
  pose proof Hn as [Hn1 [_ Hn2]%nonneg_head]%Forall_app. apply sparse_app in Hsp as [Hsp1 [_ Hsp2]].
  apply seg_app in Hg as [Hg1 [[Hh1 Hh2] Hg2]]. fold b in Hh1, Hh2, Hg2.
  destruct (ending_split _ _ _ _ He (or_introl Hs)) as (Hfr & Hbig & He2).
  assert (forall x, hdr_word (heap_base t) (l1 ++ (s, false) :: l2) x -> x <> Tlsf.size b -> peek m1 x = peek m x) as Hh.
  { intros x Hx Hne. apply Hch; [done|]. intros Hp. eapply payload_not_hdr; [exact Hn| |exact Hx].
    exists b, s, false. split; [|done]. rewrite at_app, elem_of_app. right. left. }
  split; try done.
  - rewrite <- Hlen, !blen_app. done.
  - eapply seg_frame; [exact Hg1|]. intros x Hx. apply Hh; [by apply hdr_word_l|].
    destruct Hx as (a & s' & f' & Hin & Hx). apply at_bounds in Hin; [|done]. unfold Tlsf.size, b. lia.
  - split; [done|]. intros E. rewrite Hh; [by apply Hh2| |unfold prev_hdr, Tlsf.size; lia]. apply hdr_word_r, hdr_word_hd. by left.
  - exists false, b. eapply seg_frame; [exact Hg2|]. intros x Hx. apply Hh; [by apply hdr_word_r, hdr_word_tl|].
    destruct Hx as (a & s' & f' & Hin & Hx). apply at_bounds in Hin; [|done]. unfold Tlsf.size, b. lia.
  - assert (forall x, list_word t (filed F) x -> own t n (l1 ++ (s, false) :: l2) x) as Hown.
    { intros x. apply own_list; [done|apply Ha|pose proof (blen_nonneg _ Hn); lia|done|]. intros a [c Hc]. apply HF in Hc as (z & Hz & _). by exists z. }
    eapply lists_frame; [exact Hl|]. intros x Hx. apply Hch.
    + intros ->. eapply (list_not_hdr t _ (filed F)); [exact He| |exact Hx|].
      * intros a [c Hc]. apply HF in Hc as (z & Hz & _). by exists z.
      * apply hdr_word_r, hdr_word_hd. by right.
    + intros Hp. apply Hown in Hx as [_ []]. apply used_app. right. apply used_cons. left. by fold b.
  - eapply filed_ext; [|exact HF]. intros a x. fold b. rewrite at_app, elem_of_app. cbn [at_]. rewrite elem_of_cons. fold b. naive_solver.
Qed.

(** The links of the opened block can be written. *)
Lemma opened_links m m' t n l1 s l2 F : opened m t n l1 s l2 F ->
  changes (link_word (fun a => a = heap_base t + blen l1)) m m' -> opened m' t n l1 s l2 F.
Proof.
  intros Ho Hch. pose proof Ho as [Ha Hlen Hfr Hbig He Hsp1 Hsp2 Hg1 Hhd (pf & p & Hg2) Hl HF].
  assert (forall x, hdr_word (heap_base t) (l1 ++ (s, true) :: l2) x -> peek m' x = peek m x) as Hh.
  { intros x Hx. apply Hch. intros (a & -> & Hl'). apply (opened_not_list Ho x Hx). right. right.
    exists (heap_base t + blen l1). split; [by left|done]. }
  split; try done.
  - eapply seg_frame; [exact Hg1|]. intros x Hx. by apply Hh, hdr_word_l.
  - eapply hdr_frame; [exact Hhd|..]; apply Hh, opened_hdr_word; [by right|by left].
  - exists pf, p. eapply seg_frame; [exact Hg2|]. intros x Hx. by apply Hh, hdr_word_r, hdr_word_tl.
  - eapply lists_links; [exact Hl| |exact Hch]. intros a ->. split; [apply (opened_node Ho)|apply (opened_not_filed Ho)].
Qed.

(** [free_ex] of a block that is open once it is marked free. *)
Lemma wp_free_opened m t n l1 s l2 F (Q : unit -> tlsf_state -> Prop) mp :
  let b := heap_base t + blen l1 in
  peek m (Tlsf.size b) = hword s false (last_flag false l1) ->
  opened (<[Tlsf.size b := hword s true (last_flag false l1)]> m) t n l1 s l2 F ->
  (forall m' F', heap_ok m' t n (a_free l1 s l2) F' -> changes (own t n (a_free l1 s l2)) m m' -> Q tt (mk_tlsf m' mp)) ->
  wp (free_ex (b + 8) t) Q (mk_tlsf m mp).
Proof.
  intros b Hsz Ho0 HQ. pose proof (opened_addrs Ho0) as (Ht & H4 & Hvs & _). fold b in Hvs.
  destruct (link_addr t b Ht H4 (opened_node Ho0)) as [Hvp Hvn]. pose proof (opened_bounds Ho0) as Hb. fold b in Hb.
  pose proof (o_arena _ _ _ _ _ _ _ Ho0) as [_ _ Htop _]. pose proof (heap_base_eq t) as Ebase.
  destruct (o_big _ _ _ _ _ _ _ Ho0) as [Hs8 Hs]. cbn [fst] in Hs8, Hs.
  unfold free_ex. unfold nz at 1. destruct (Z.eqb_spec (b + 8) 0); [unfold b in *; lia|]. cbn [negb].
  assert (u32 (b + 8 - BHDR_OVERHEAD) = b) as -> by (change BHDR_OVERHEAD with 8; rewrite u32_small; unfold b in *; lia).
  apply wp_bind, wp_upd_word; [done|]. rewrite Hsz, hword_set_free by done.
  apply wp_bind, wp_tstore; [done|]. apply wp_bind, wp_tstore; [done|].
  set (m1 := <[free_next b := NULL]> _). assert (opened m1 t n l1 s l2 F) as Ho.
  { eapply opened_links; [exact Ho0|]. fold b. unfold m1. apply changes_step; [exists b; auto|]. apply changes_insert. exists b; auto. }
  assert (changes (own t n (l1 ++ (s, true) :: l2)) m m1) as Hch1.
  { unfold m1. repeat apply changes_step; [| | |apply changes_refl].
    - apply (opened_own_list Ho). right. right. exists b. split; [by left|by right].
    - apply (opened_own_list Ho). right. right. exists b. split; [by left|by left].
    - apply (opened_own_hdr Ho), opened_hdr_word. by right. }
  apply wp_assoc. eapply wp_merge_next; [exact Ho|]. intros m2 F2 Ho2 Hch2.
  apply wp_nest. eapply wp_merge_prev; [exact Ho2|]. intros m3 F3 Ho3 Hch3.
  destruct (absorb_head _ _ _ _ _ _ _ Ho) as (s2 & l3 & E2). pose proof (absorb_front_last l1 (absorb s l2).1 (o_sparse1 _ _ _ _ _ _ _ Ho)) as Hlast.
  assert (a_free l1 s l2 = (absorb_front l1 (absorb s l2).1).1 ++ ((absorb_front l1 (absorb s l2).1).2, true) :: (s2, false) :: l3) as Ef.
  { unfold a_free. destruct (absorb s l2) as [s1 l2']. cbn [fst snd] in *. subst l2'. by destruct (absorb_front l1 s1). }
  rewrite E2 in Ho3, Hch3. rewrite Ef in HQ. eapply wp_file_block; [exact Ho3|done|]. intros m4 F4 Hok4 Hch4. eapply HQ; [exact Hok4|].
  eapply changes_trans; [|exact Hch4]. eapply changes_trans; [|exact Hch3].
  eapply changes_mono; [intros x Hx; apply own_absorb_front; rewrite <- E2; exact Hx|].
  eapply changes_trans; [|exact Hch2]. eapply changes_mono; [|exact Hch1]. intros x. by rewrite own_absorb.
Qed.

(** [free_ex] of a block in use: it is merged with its free neighbours, and the
    payload of the blocks in use is not touched. *)
Lemma wp_free_ex m t n l1 s l2 F (Q : unit -> tlsf_state -> Prop) mp :
  heap_ok m t n (l1 ++ (s, false) :: l2) F -> 8 <= s ->
  (forall m' F', heap_ok m' t n (a_free l1 s l2) F' -> changes (own t n (a_free l1 s l2)) m m' -> Q tt (mk_tlsf m' mp)) ->
  wp (free_ex (heap_base t + blen l1 + 8) t) Q (mk_tlsf m mp).
Proof.
  intros Hok Hs HQ. pose proof (h_seg _ _ _ _ _ Hok) as [_ [[Hsz _] _]]%seg_app.
  eapply wp_free_opened; [exact Hsz| |exact HQ]. eapply opened_intro; [exact Hok|done|by rewrite peek_insert_eq|].
  intros x Hx _. by rewrite peek_insert_ne.
Qed.
