(* ===== verification/TlsfMalloc.v ===== *)
(** * malloc_ex of tlsf.c

    The search gives a block that is big enough; it is split when the rest is a
    block of its own. [malloc_ex] fails only when every free block is smaller than
    the rounded request. *)

From Stdlib Require Import ZArith Lia.
From stdpp Require Import base tactics gmap option functions list.
From S2P Require Import Prelude Bits Mem Kstate Tlsf TlsfMap TlsfFree TlsfHeap TlsfAlloc.

Open Scope Z_scope.
Open Scope kernel_scope.

(** ** The size of a request *)

(** [size = (size < MIN_BLOCK_SIZE) ? MIN_BLOCK_SIZE : ROUNDUP_SIZE(size)] *)
Definition adjust (sz : Z) : Z := if sz <? MIN_BLOCK_SIZE then MIN_BLOCK_SIZE else ROUNDUP_SIZE sz.

Lemma roundup_spec r : 0 <= r -> r + 7 < 2 ^ 32 -> ROUNDUP_SIZE r = 8 * ((r + 7) / 8).
Proof.
  intros H0 H. unfold ROUNDUP_SIZE. change MEM_ALIGN with (2 ^ 3 - 1). change (r + (2 ^ 3 - 1)) with (r + 7).
  rewrite u32_small by lia. rewrite land_lnot_ones by lia. done.
Qed.

Lemma adjust_spec sz : 0 <= sz -> sz + 7 < 2 ^ 32 -> size8 (adjust sz) /\ 8 <= adjust sz /\ sz <= adjust sz <= sz + 8.
Proof.
  intros H0 H. unfold adjust. change MIN_BLOCK_SIZE with 8. destruct (Z.ltb_spec sz 8).
  - split_and!; try lia. by exists 1.
  - rewrite roundup_spec by lia. pose proof (Z.div_mod (sz + 7) 8 ltac:(lia)). pose proof (Z.mod_pos_bound (sz + 7) 8 ltac:(lia)).
    split_and!; try lia. exists ((sz + 7) / 8). lia.
Qed.

(** The size searched for is a multiple of eight again. *)
Lemma search_size8 r r' fl sl : size8 r -> r + r / 32 < 2 ^ 30 -> MAPPING_SEARCH r = (r', fl, sl) -> size8 r'.
Proof.
  intros (q & -> & Hq) Hmax E. assert (0 <= 8 * q / 32) by (apply Z.div_pos; lia).
  destruct (mapping_search_class (8 * q) r' fl sl) as (_ & _ & _ & Hr').
  { lia. } { replace (8 * q) with ((2 * q) * 4) by lia. by rewrite Z.mod_mul. } { done. } { done. }
  enough (exists k, r' = 8 * k) as (k & ->) by (exists k; lia).
  unfold MAPPING_SEARCH, SMALL_BLOCK in E. destruct (Z.ltb_spec (8 * q) 128); [injection E as <- _ _; by exists q|].
  destruct (log2_bounds (8 * q)) as [Hk Hb]; [lia|]. rewrite ms_bit_log2 in E by lia. set (k := Z.log2 (8 * q)) in *.
  assert (k < 30) as Hk30 by (apply Z.log2_lt_pow2; lia).
  assert (0 < 2 ^ (k - 5) <= 2 ^ 25) as Hp by (split; [apply Z.pow_pos_nonneg; lia|apply Z.pow_le_mono_r; lia]).
  assert (i32 (Z.shiftl 1 (k - MAX_LOG2_SLI)) = 2 ^ (k - 5)) as Ep.
  { rewrite Z.shiftl_1_l. unfold MAX_LOG2_SLI. apply i32_small. lia. }
  rewrite Ep in E. rewrite (u32_small (8 * q + _)) in E by lia. injection E as <- _ _.
  rewrite land_lnot_ones by lia. destruct (decide (k = 7)) as [Ek|Hne].
  - rewrite Ek. change (2 ^ (7 - 5)) with 4. exists q.
    replace (8 * q + (4 - 1)) with (3 + (2 * q) * 4) by lia. rewrite Z.div_add by lia. change (3 / 4) with 0. lia.
  - replace (k - 5) with (3 + (k - 8)) by lia. rewrite Z.pow_add_r by lia. change (2 ^ 3) with 8.
    eexists. rewrite <- Z.mul_assoc. reflexivity.
Qed.

Lemma adjust_small sz : 0 <= sz <= 2 ^ 29 -> adjust sz + adjust sz / 32 < 2 ^ 30 /\ sz <= adjust sz.
Proof.
  intros Hsz. destruct (adjust_spec sz) as (_ & H8 & Ha); [lia..|]. split; [|lia].
  assert (adjust sz / 32 <= adjust sz) by (apply Z.div_le_upper_bound; lia).
  assert (adjust sz / 32 < 2 ^ 25) by (apply Z.div_lt_upper_bound; lia). lia.
Qed.

Lemma search_at_least sz : 0 <= sz <= 2 ^ 29 -> sz <= (MAPPING_SEARCH (adjust sz)).1.1 /\ 8 <= (MAPPING_SEARCH (adjust sz)).1.1.
Proof.
  intros Hsz. destruct (adjust_small sz Hsz) as [Hmax Hle]. destruct (adjust_spec sz) as ((q & E & Hq) & H8 & _); [lia..|].
  destruct (MAPPING_SEARCH (adjust sz)) as [[r fl] sl] eqn:Es. cbn [fst].
  destruct (mapping_search_class (adjust sz) r fl sl) as (_ & _ & _ & Hr); [lia| |done|done|lia].
  rewrite E. replace (8 * q) with (2 * q * 4) by lia. apply Z.mod_mul. lia.
Qed.

(** A block that is not smaller than the smallest block of a class is not in an
    earlier class. *)
Lemma class_above s fl sl fl' sl' : 0 <= s < 2 ^ 32 -> 0 <= fl -> 0 <= sl < MAX_SLI -> class_lo fl sl <= s ->
  MAPPING_INSERT s = (fl', sl') -> class_le fl sl fl' sl'.
Proof.
  intros Hs Hf Hsl Hlo E. destruct (mapping_insert_class s fl' sl' Hs E) as (Hf' & Hsl' & Hb).
  destruct (decide (class_le fl sl fl' sl')) as [|Hn].
  { done. }
  exfalso. unfold class_le in Hn. assert (fl' < fl \/ (fl' = fl /\ sl' < sl)) as Hlt by lia. clear Hn.
  assert (class_lo fl' sl' + class_width fl' <= class_lo fl sl) as Hle; [|lia].
  destruct (decide (sl' = 31)) as [->|Hn31].
  - assert (class_lo fl' 31 + class_width fl' = class_lo (fl' + 1) 0) as ->.
    { unfold class_lo, class_width, FLI_OFFSET. destruct (Z.eqb_spec (fl' + 1) 0); [lia|].
      destruct (Z.eqb_spec fl' 0) as [->|]; [done|]. rewrite !Z.pow_add_r by lia.
      change (2 ^ 6) with 64. change (2 ^ 1) with 2. lia. }
    unfold MAX_SLI in *. apply class_lo_mono; [lia|unfold MAX_SLI; lia..|]. unfold class_le. lia.
  - assert (class_lo fl' sl' + class_width fl' = class_lo fl' (sl' + 1)) as ->.
    { unfold class_lo. destruct (fl' =? 0); lia. }
    unfold MAX_SLI in *. apply class_lo_mono; [lia|unfold MAX_SLI; lia..|]. unfold class_le. lia.
Qed.

(** ** Taking a block *)

(** What [malloc_ex] makes of a free block of [s] bytes for [r] of them. *)
Definition a_take (r s : Z) (l : blocks) : blocks :=
  if 16 <=? s - r then (r, false) :: (s - r - 8, true) :: l else (s, false) :: l.

Lemma at_split a l b s f : (b, s, f) ∈ at_ a l -> exists l1 l2, l = l1 ++ (s, f) :: l2 /\ b = a + blen l1.
Proof.
  revert a. induction l as [|[s0 f0] l IH]; intros a; cbn [at_]; [by intros ?%elem_of_nil|].
  intros [[= -> -> ->]|Hin]%elem_of_cons; [exists [], l; cbn; split; [done|lia]|].
  destruct (IH _ Hin) as (l1 & l2 & -> & ->). exists ((s0, f0) :: l1), l2. cbn [blen]. split; [done|lia].
Qed.

(** A free block that left its list is open. *)
Lemma opened_unfile m m1 t n l1 s l2 F F1 :
  heap_ok m t n (l1 ++ (s, true) :: l2) F ->
  let b := heap_base t + blen l1 in
  lists_ok m1 t F1 -> filed_as F1 (fun a x => (a, x, true) ∈ at_ (heap_base t) (l1 ++ (s, true) :: l2) /\ a <> b) ->
  (forall x, hdr_word (heap_base t) (l1 ++ (s, true) :: l2) x -> peek m1 x = peek m x) ->
  opened m1 t n l1 s l2 F1 /\ last_flag false l1 = false /\ seg m1 true b (b + 8 + s) l2 /\ exists s2 l3, l2 = (s2, false) :: l3.
Proof.
  intros [Ha Hlen He Hsp Hg Hl HF] b Hok Hf Hh. pose proof (ending_nonneg _ He) as Hn.
  pose proof Hn as [Hn1 [Hs0 Hn2]%nonneg_head]%Forall_app. apply sparse_app in Hsp as [Hsp1 [Hlf Hsp2]]. rewrite andb_true_r in Hlf.
  apply seg_app in Hg as [Hg1 [Hh1 Hg2]]. fold b in Hh1, Hg2.
  destruct (ending_split _ _ _ _ He (or_intror eq_refl)) as (Hfr & Hbig & He2).
  assert (exists s2 l3, l2 = (s2, false) :: l3) as (s2 & l3 & El2).
  { destruct l2 as [|[s2 f2] l3]; [by destruct He2 as ([|? ?] & ? & _)|]. destruct Hsp2 as [Hf2 _]. cbn in Hf2. subst f2. eauto. }
  assert (seg m1 true b (b + 8 + s) l2) as Hg2'.
  { eapply seg_frame; [exact Hg2|]. intros x Hx. by apply Hh, hdr_word_r, hdr_word_tl. }
  split; [|split; [done|split; [done|eauto]]]. split; try done.
  - subst l2. cbn [sparse] in *. tauto.
  - eapply seg_frame; [exact Hg1|]. intros x Hx. by apply Hh, hdr_word_l.
  - eapply hdr_frame; [exact Hh1|..]; apply Hh, opened_hdr_word; [by right|by left].
  - by exists true, b.
  - eapply filed_ext; [|exact Hf]. intros a x. fold b. rewrite opened_at, elem_of_app, elem_of_cons. fold b. split.
    + intros [[?|[[= ? ?]|?]] Hne]; [by left|done|by right].
    + intros [Hin|Hin]; (split; [tauto|]); apply at_bounds in Hin; try done; unfold b; lia.
Qed.

(** The block is used whole. *)
Lemma take_whole m t n l1 s s2 l3 F :
  opened m t n l1 s ((s2, false) :: l3) F ->
  let b := heap_base t + blen l1 in
  heap_ok (<[Tlsf.size b := hword s false (last_flag false l1)]> (<[Tlsf.size (b + 8 + s) := hword s2 false false]> m))
    t n (l1 ++ (s, false) :: (s2, false) :: l3) F.
Proof.
  intros Ho b. pose proof (opened_nonneg Ho) as (HnL & Hn1 & [Hs2 Hn3]%nonneg_head). pose proof (opened_bounds Ho) as Hb.
  pose proof Ho as [Ha Hlen Hfr [Hs8 Hs] He Hsp1 Hsp2 Hg1 Hhd (pf & p & Hhn & Hg3) Hl HF]. cbn [fst] in *. fold b in Hhd, Hhn, Hg3, Hb.
  split; [done|by rewrite <- Hlen, !blen_app| | | | |].
  - apply ending_app; [done|]. destruct He as (l & -> & Hl0). exists ((s, false) :: l). split; [done|by constructor].
  - apply sparse_app. split; [done|]. cbn [sparse] in *. rewrite andb_false_r. tauto.
  - apply seg_app. split; [|cbn [seg]; fold b; split; [|split]].
    + do 2 (apply seg_front; [done|unfold Tlsf.size, b; lia|]). done.
    + split; [by rewrite peek_insert_eq|]. intros E. rewrite !peek_insert_ne by (unfold prev_hdr, Tlsf.size; lia). by apply Hhd.
    + split; [rewrite peek_insert_ne, peek_insert_eq by (unfold Tlsf.size; lia); done|done].
    + do 2 (apply seg_back; [done|unfold Tlsf.size; lia|]). done.
  - eapply lists_frame; [exact Hl|]. intros x Hx.
    assert (list_word t (fun a => a = b \/ filed F a) x) as Hx'.
    { destruct Hx as [?|[?|(a & ? & ?)]]; [by left|right; by left|right; right; exists a; auto]. }
    rewrite !peek_insert_ne; [done|intros <-; revert Hx'..]; apply (opened_not_list Ho).
    + apply hdr_word_r, hdr_word_tl, hdr_word_hd. by right.
    + apply opened_hdr_word. by right.
  - eapply filed_ext; [|exact HF]. intros a x. fold b. rewrite at_app, elem_of_app. cbn [at_]. rewrite !elem_of_cons. fold b. naive_solver.
Qed.

(** The block is split: its end becomes a free block. *)
Section split.
Context {m : gmap Z Z} {t n : Z} {l1 : blocks} {s r s2 : Z} {l3 : blocks} {F : cls -> list Z}.
Hypothesis Ho : opened m t n l1 s ((s2, false) :: l3) F.
Hypothesis Hr8 : size8 r.
Hypothesis Hr : 8 <= r.
Hypothesis Hsr : 16 <= s - r.

Local Abbreviation b := (heap_base t + blen l1).
Local Abbreviation b2 := (b + 8 + r).
Local Abbreviation L := (l1 ++ (s, true) :: (s2, false) :: l3).
Local Abbreviation L' := (l1 ++ (r, false) :: (s - r - 8, true) :: (s2, false) :: l3).

Lemma rest_big : big (s - r - 8, true).
Proof.
  destruct (o_big _ _ _ _ _ _ _ Ho) as [(q & E & Hq) _], Hr8 as (k & E' & Hk). cbn [fst] in *. split; cbn [fst]; [|lia].
  exists (q - k - 1). lia.
Qed.

Lemma split_ending : ending L'.
Proof.
  apply ending_app; [apply Ho|]. destruct (o_end _ _ _ _ _ _ _ Ho) as (l & -> & Hl).
  exists ((r, false) :: (s - r - 8, true) :: l). split; [done|]. constructor; [done|]. constructor; [apply rest_big|done].
Qed.

Lemma split_len : blen L' = n.
Proof. rewrite <- (o_len _ _ _ _ _ _ _ Ho), !blen_app. cbn [blen]. lia. Qed.

Lemma split_at : at_ (heap_base t) L' = at_ (heap_base t) l1 ++ (b, r, false) :: (b2, s - r - 8, true) :: at_ (b + 8 + s) ((s2, false) :: l3).
Proof. rewrite at_app. cbn [at_]. by replace (b2 + 8 + (s - r - 8)) with (b + 8 + s) by lia. Qed.

Lemma split_free : free_in (heap_base t) L' (fun a => a = b2 \/ filed F a).
Proof.
  intros a [->|[c Hc]]; [exists (s - r - 8); rewrite split_at, elem_of_app, !elem_of_cons; tauto|].
  apply (o_filed _ _ _ _ _ _ _ Ho) in Hc as (x & Hx & _). exists x. rewrite split_at, elem_of_app, !elem_of_cons in *. tauto.
Qed.

Lemma split_own x : own t n L' x -> own t n L x.
Proof.
  intros [Hx Hn]. split; [done|]. intros Hu. apply Hn. rewrite used_app, !used_cons in Hu |- *.
  replace (b2 + 8 + (s - r - 8)) with (b + 8 + s) by lia.
  destruct Hu as [Hu|[[? _]|Hu]]; [by left|done|]. right; right; right. by apply used_cons.
Qed.

Lemma split_own_list x : list_word t (fun a => a = b2 \/ filed F a) x -> own t n L' x.
Proof.
  intros Hx. pose proof (opened_bounds Ho). eapply own_list; [apply split_ending|apply Ho|lia|apply split_len|apply split_free|done].
Qed.

Lemma split_own_hdr x : hdr_word (heap_base t) L' x -> own t n L' x.
Proof. intros Hx. apply own_hdr; [apply ending_nonneg, split_ending|pose proof (opened_bounds Ho); lia|apply split_len|done]. Qed.

Lemma split_not_list x : hdr_word (heap_base t) L' x -> ~ list_word t (fun a => a = b2 \/ filed F a) x.
Proof. intros Hx Hl. eapply list_not_hdr; [apply split_ending|apply split_free|exact Hl|exact Hx]. Qed.

Lemma split_words : hdr_word (heap_base t) L' b /\ hdr_word (heap_base t) L' (b + 4) /\ hdr_word (heap_base t) L' (b2 + 4) /\
  hdr_word (heap_base t) L' (b + 8 + s) /\ hdr_word (heap_base t) L' (b + 8 + s + 4).
Proof.
  unfold hdr_word. rewrite split_at. setoid_rewrite elem_of_app. setoid_rewrite elem_of_cons. setoid_rewrite elem_of_cons.
  cbn [at_]. setoid_rewrite elem_of_cons. split_and!.
  - exists b, r, false. auto.
  - exists b, r, false. auto.
  - exists b2, (s - r - 8), true. auto.
  - exists (b + 8 + s), s2, false. split; [|by left]. auto.
  - exists (b + 8 + s), s2, false. split; [|by right]. auto.
Qed.

Lemma split_node : node t b2 /\ node t (b + 8 + s) /\ ~ filed F b2.
Proof.
  split_and!.
  - eapply (at_node t L' _ (s - r - 8) true); [apply split_ending|]. rewrite split_at, elem_of_app, !elem_of_cons. tauto.
  - eapply (at_node t L' _ s2 false); [apply split_ending|]. rewrite split_at, elem_of_app. cbn [at_]. rewrite !elem_of_cons. tauto.
  - intros [c Hc]. apply (o_filed _ _ _ _ _ _ _ Ho) in Hc as (x & Hx & _). pose proof (opened_nonneg Ho) as (_ & Hn1 & Hn2).
    pose proof (opened_bounds Ho). destruct Hx as [Hx|Hx]; apply at_bounds in Hx; try done; lia.
Qed.

Lemma split_heap m3 F3 :
  lists_ok m3 t F3 -> filed_as F3 (fun a x => (a, x, true) ∈ at_ (heap_base t) L') ->
  (forall x, hdr_word (heap_base t) L x -> x <> b + 4 -> x <> b + 8 + s -> x <> b + 8 + s + 4 -> peek m3 x = peek m x) ->
  peek m3 (Tlsf.size (b + 8 + s)) = hword s2 false true ->
  peek m3 (Tlsf.size b2) = hword (s - r - 8) true false -> peek m3 (prev_hdr (b + 8 + s)) = b2 ->
  heap_ok (<[Tlsf.size b := hword r false (last_flag false l1)]> m3) t n L' F3.
Proof.
  intros Hok Hf Hh En E2 Ep. pose proof (opened_nonneg Ho) as (HnL & Hn1 & [Hs2 Hn3]%nonneg_head). pose proof (opened_bounds Ho) as Hb.
  pose proof Ho as [Ha Hlen Hfr _ He Hsp1 Hsp2 Hg1 Hhd (pf & p & Hhn & Hg3) Hl HF].
  assert (b2 + 8 + (s - r - 8) = b + 8 + s) as Eb by lia.
  split; [done|apply split_len|apply split_ending| | | |done].
  - apply sparse_app. split; [done|]. cbn [sparse] in *. rewrite andb_false_r. tauto.
  - apply seg_app. split; [|cbn [seg]; rewrite Eb; split; [|split; [|split]]].
    + apply seg_front; [done|unfold Tlsf.size; lia|]. eapply seg_frame; [exact Hg1|]. intros x Hx. apply Hh; [by apply hdr_word_l|..];
        destruct Hx as (a & z & f & Hin & Hx); (apply at_bounds in Hin; [lia|done]).
    + split; [by rewrite peek_insert_eq|]. intros E. rewrite peek_insert_ne by (unfold prev_hdr, Tlsf.size; lia).
      rewrite Hh; [by apply Hhd|apply opened_hdr_word; by left|unfold prev_hdr; lia..].
    + split; [|done]. rewrite peek_insert_ne by (unfold Tlsf.size; lia). done.
    + split; [|intros _; rewrite peek_insert_ne by (unfold prev_hdr, Tlsf.size; lia); done].
      rewrite peek_insert_ne, En; [done|unfold Tlsf.size; lia].
    + apply seg_back; [done|unfold Tlsf.size; lia|]. eapply seg_frame; [exact Hg3|]. intros x Hx.
      apply Hh; [by apply hdr_word_r, hdr_word_tl, hdr_word_tl|..];
        destruct Hx as (a & z & f & Hin & Hx); (apply at_bounds in Hin; [lia|done]).
  - eapply lists_frame; [exact Hok|]. intros x Hx. apply peek_insert_ne. intros <-. revert Hx.
    intros Hx. eapply (list_not_hdr t L' (filed F3)); [apply split_ending| |exact Hx|apply split_words].
    intros a [c Hc]. apply Hf in Hc as (z & Hz & _). by exists z.
Qed.

Lemma split_sub x : hdr_word (heap_base t) L x -> hdr_word (heap_base t) L' x.
Proof.
  intros (a & z & f & Hin & Hx). rewrite opened_at, elem_of_app, elem_of_cons in Hin. destruct split_words as (W1 & W2 & _).
  destruct Hin as [Hin|[[= -> -> ->]|Hin]].
  - exists a, z, f. rewrite split_at, elem_of_app. auto.
  - destruct Hx as [->| ->]; [exact W1|exact W2].
  - exists a, z, f. rewrite split_at, elem_of_app, !elem_of_cons. auto.
Qed.

(** A memory in which only the headers of the three blocks were written. *)
Lemma split_frame m2 :
  (forall x, x <> b + 4 -> x <> b2 + 4 -> x <> b + 8 + s -> x <> b + 8 + s + 4 -> peek m2 x = peek m x) ->
  lists_ok m2 t F /\
  (forall x, hdr_word (heap_base t) L x -> x <> b + 4 -> x <> b + 8 + s -> x <> b + 8 + s + 4 -> peek m2 x = peek m x).
Proof.
  intros Hm. destruct split_words as (_ & W2 & W3 & W4 & W5). split.
  - eapply lists_frame; [apply Ho|]. intros x Hx.
    assert (list_word t (fun a => a = b2 \/ filed F a) x) as Hx'.
    { destruct Hx as [?|[?|(a & ? & ?)]]; [by left|right; by left|right; right; exists a; auto]. }
    apply Hm; intros ->; revert Hx'; by apply split_not_list.
  - intros x Hx ? ? ?. apply Hm; [done| |done|done]. intros ->. destruct (opened_nonneg Ho) as (HnL & _).
    eapply payload_not_hdr; [exact HnL| |exact Hx]. exists b, s, true. split; [apply opened_in|lia].
Qed.

(** [INSERT_BLOCK(b2, ...); b->size = r | (b->size & PREV_STATE)]: the end of a split, once the
    headers of the rest and of the block after it are written. *)
Lemma wp_split_end m2 (Q : unit -> tlsf_state -> Prop) mp s0 f :
  (forall x, x <> b + 4 -> x <> b2 + 4 -> x <> b + 8 + s -> x <> b + 8 + s + 4 -> peek m2 x = peek m x) ->
  peek m2 (Tlsf.size b) = hword s0 f (last_flag false l1) -> size8 s0 ->
  peek m2 (Tlsf.size (b + 8 + s)) = hword s2 false true ->
  peek m2 (Tlsf.size b2) = hword (s - r - 8) true false -> peek m2 (prev_hdr (b + 8 + s)) = b2 ->
  (forall m' F', heap_ok m' t n L' F' -> changes (own t n L') m2 m' -> Q tt (mk_tlsf m' mp)) ->
  wp (let '(fl, sl) := MAPPING_INSERT (s - r - 8) in
      INSERT_BLOCK b2 t fl sl ;;;
      upd_word (Tlsf.size b) (fun w => Z.lor r (Z.land w PREV_STATE))) Q (mk_tlsf m2 mp).
Proof.
  intros Hm Hsz Hs0 En E2 Ep HQ. pose proof (opened_addrs Ho) as (Ht & H4 & Hvb & _). destruct split_node as (Hn2 & _ & Hnf).
  destruct (split_frame m2 Hm) as [Hok2 Hm2]. pose proof split_words as (W1 & W2 & W3 & W4 & W5). pose proof (opened_bounds Ho) as Hb.
  destruct rest_big as [_ Hsb]. pose proof (o_arena _ _ _ _ _ _ _ Ho) as [_ _ _ H30]. cbn [fst] in *.
  pose proof (class_valid (s - r - 8) ltac:(lia)) as Hc. destruct (MAPPING_INSERT (s - r - 8)) as [fl sl] eqn:Em.
  apply wp_bind, (wp_insert_block m2 t F); [done..|]. intros m3 Hok3 Hch3.
  assert (forall x, hdr_word (heap_base t) L' x -> peek m3 x = peek m2 x) as Hh3.
  { intros x Hx. by apply Hch3, split_not_list. }
  apply wp_upd_word; [done|]. rewrite Hh3, Hsz, hword_resize by done. eapply HQ.
  - eapply split_heap; [exact Hok3|..].
    + rewrite <- Em. eapply filed_ext; [|apply filed_add, Ho]. intros a x. cbn beta.
      rewrite split_at, elem_of_app, !elem_of_cons. naive_solver.
    + intros x Hx ? ? ?. rewrite Hh3 by (by apply split_sub). by apply Hm2.
    + by rewrite Hh3.
    + by rewrite Hh3.
    + by rewrite Hh3.
  - apply changes_step; [by apply split_own_hdr|]. eapply changes_mono; [|exact Hch3]. apply split_own_list.
Qed.

End split.

(** [b2->size = ...; next_b->prev_hdr = b2; INSERT_BLOCK(b2, ...); b->size = ...] *)
Lemma wp_split m t n l1 s s2 l3 F r (Q : unit -> tlsf_state -> Prop) mp :
  opened m t n l1 s ((s2, false) :: l3) F -> size8 r -> 8 <= r -> 16 <= s - r ->
  let b := heap_base t + blen l1 in
  peek m (Tlsf.size (b + 8 + s)) = hword s2 false true ->
  (forall m' F', heap_ok m' t n (l1 ++ (r, false) :: (s - r - 8, true) :: (s2, false) :: l3) F' ->
     changes (own t n (l1 ++ (s, true) :: (s2, false) :: l3)) m m' -> Q tt (mk_tlsf m' mp)) ->
  wp (mem (store (Tlsf.size (b + 8 + r)) (Z.lor (Z.lor (s - r - 8) FREE_BLOCK) PREV_USED)) ;;;
      mem (store (prev_hdr (b + 8 + s)) (b + 8 + r)) ;;;
      let '(fl, sl) := MAPPING_INSERT (s - r - 8) in
      INSERT_BLOCK (b + 8 + r) t fl sl ;;;
      upd_word (Tlsf.size b) (fun w => Z.lor r (Z.land w PREV_STATE))) Q (mk_tlsf m mp).
Proof.
  intros Ho Hr8 Hr Hsr b En HQ. pose proof (opened_addrs Ho) as (Ht & H4 & _).
  destruct (split_node Ho Hr8 Hr Hsr) as (Hn2 & Hnn & _). fold b in Hn2, Hnn.
  destruct (node_size t _ Ht H4 Hn2) as [Hv2 _]. destruct (node_size t _ Ht H4 Hnn) as [_ Hvn].
  pose proof (split_words (t := t) (l1 := l1) (s := s) (r := r) (s2 := s2) (l3 := l3)) as (_ & _ & W3 & W4 & _). fold b in W3, W4.
  destruct (rest_big Ho Hr8 Hr Hsr) as [Hs8 _]. destruct (o_big _ _ _ _ _ _ _ Ho) as [Hss8 _]. cbn [fst] in *.
  pose proof (o_hdr _ _ _ _ _ _ _ Ho) as [Hsz _]. fold b in Hsz.
  apply wp_bind, wp_tstore; [done|]. rewrite hword_new by done. apply wp_bind, wp_tstore; [done|].
  eapply (wp_split_end Ho Hr8 Hr Hsr _ _ _ s true); fold b; [|unfold Tlsf.size, prev_hdr..|].
  - intros x ? ? ? ?. by rewrite !peek_insert_ne by (unfold Tlsf.size, prev_hdr; done).
  - rewrite !peek_insert_ne by lia. exact Hsz.
  - done.
  - rewrite !peek_insert_ne by lia. exact En.
  - by rewrite peek_insert_ne, peek_insert_eq by lia.
  - apply peek_insert_eq.
  - intros m' F' Hok Hch. eapply HQ; [exact Hok|]. eapply changes_mono; [apply (split_own (r := r)); lia|].
    eapply changes_trans; [|exact Hch]. apply changes_step; [by apply (split_own_hdr Ho Hr8 Hr Hsr)|].
    apply changes_insert. by apply (split_own_hdr Ho Hr8 Hr Hsr).
Qed.

(** ** malloc_ex *)

(** The end of [malloc_ex]: split the block found or use it whole. *)
Lemma wp_take m t n l1 s s2 l3 F r (Q : Z -> tlsf_state -> Prop) mp :
  opened m t n l1 s ((s2, false) :: l3) F -> size8 r -> 8 <= r <= s ->
  let b := heap_base t + blen l1 in
  peek m (Tlsf.size (b + 8 + s)) = hword s2 false true ->
  (forall m' F', heap_ok m' t n (l1 ++ a_take r s ((s2, false) :: l3)) F' ->
     changes (own t n (l1 ++ (s, true) :: (s2, false) :: l3)) m m' -> Q (b + 8) (mk_tlsf m' mp)) ->
  wp (let* next_b := next_block b in
      let* w := blk_size b in
      (if u32 (w - r) >=? sizeof_bhdr then
         mem (store (Tlsf.size (GET_NEXT_BLOCK (buffer b) r)) (Z.lor (Z.lor (u32 (w - r) - BHDR_OVERHEAD) FREE_BLOCK) PREV_USED)) ;;;
         mem (store (prev_hdr next_b) (GET_NEXT_BLOCK (buffer b) r)) ;;;
         let '(fl, sl) := MAPPING_INSERT (u32 (w - r) - BHDR_OVERHEAD) in
         INSERT_BLOCK (GET_NEXT_BLOCK (buffer b) r) t fl sl ;;;
         upd_word (Tlsf.size b) (fun w => Z.lor r (Z.land w PREV_STATE))
       else
         upd_word (Tlsf.size next_b) (fun w => Z.land w (u32 (Z.lnot PREV_FREE))) ;;;
         upd_word (Tlsf.size b) (fun w => Z.land w (u32 (Z.lnot FREE_BLOCK)))) ;;;
      ret (buffer b)) Q (mk_tlsf m mp).
Proof.
  intros Ho Hr8 Hr b En HQ. pose proof (opened_addrs Ho) as (Ht & H4 & Hvb & _). fold b in Hvb.
  pose proof (opened_bounds Ho) as Hb. pose proof (opened_nonneg Ho) as (_ & Hn1 & Hn2). pose proof (heap_base_eq t) as Ebase.
  pose proof (o_arena _ _ _ _ _ _ _ Ho) as [_ _ Htop H30]. pose proof (o_hdr _ _ _ _ _ _ _ Ho) as Hhd. fold b in Hhd, Hb.
  destruct (nonneg_head _ _ _ Hn2) as [Hs20 Hn3]. pose proof (blen_nonneg _ Hn3). cbn [blen] in Hb.
  destruct (o_big _ _ _ _ _ _ _ Ho) as [Hs8 Hs]. cbn [fst] in *.
  assert ((b + 8 + s, s2, false) ∈ at_ (heap_base t) (l1 ++ (s, true) :: (s2, false) :: l3)) as Hin.
  { rewrite opened_at, elem_of_app. right. right. left. }
  destruct (node_size t _ Ht H4 (at_node _ _ _ _ _ (opened_ending Ho) Hin)) as [Hvn _].
  destruct (at_size8 _ _ _ _ _ (opened_ending Ho) Hin) as [Hs28 _].
  apply wp_bind. eapply wp_next_block; [done|exact Hhd|done|unfold b in *; lia|lia|].
  apply wp_bind. eapply wp_blk_size; [done|exact Hhd|done|]. rewrite u32_small by (unfold b in *; lia).
  assert (GET_NEXT_BLOCK (buffer b) r = b + 8 + r) as ->.
  { unfold GET_NEXT_BLOCK, buffer. apply u32_small. unfold b in *. lia. }
  change sizeof_bhdr with 16. change BHDR_OVERHEAD with 8. apply wp_bind. unfold a_take in HQ. rewrite Z.geb_leb.
  destruct (Z.leb_spec 16 (s - r)).
  - eapply wp_split; [exact Ho|done|lia|lia|exact En|]. intros m' F' Hok Hch. apply wp_ret. by eapply HQ.
  - apply wp_bind, wp_upd_word; [done|]. rewrite En, hword_clear_prev by done. apply wp_upd_word; [done|].
    rewrite peek_insert_ne, (proj1 Hhd), hword_clear_free by (done || unfold Tlsf.size; lia). apply wp_ret. eapply HQ.
    + apply (take_whole m t n l1 s s2 l3 F Ho).
    + apply changes_step; [apply (opened_own_hdr Ho), opened_hdr_word; by right|]. apply changes_insert, (opened_own_hdr Ho).
      exists (b + 8 + s), s2, false. split; [done|by right].
Qed.

Lemma lists_full m t F c : lists_ok m t F -> full m t c.1 c.2 <-> valid_cls c /\ F c <> [].
Proof.
  intros Hok. unfold full, valid_cls. split.
  - intros (H1 & H2 & H3). rewrite (bo_bit _ _ _ (lo_bits _ _ _ Hok) c) in H3 by done. apply bool_decide_eq_true in H3. done.
  - intros [[H1 H2] H3]. split; [done|]. split; [done|]. rewrite (bo_bit _ _ _ (lo_bits _ _ _ Hok) c) by done. by apply bool_decide_eq_true.
Qed.

(** [malloc_ex] takes the first block of the first class that fits, or returns
    NULL when every free block is smaller than the rounded request. *)
Lemma wp_malloc_ex m t n L F sz (Q : Z -> tlsf_state -> Prop) mp :
  heap_ok m t n L F -> 0 <= sz -> adjust sz + adjust sz / 32 < 2 ^ 30 ->
  let r := (MAPPING_SEARCH (adjust sz)).1.1 in
  sz + 7 < 2 ^ 32 ->
  ((forall a s, (a, s, true) ∈ at_ (heap_base t) L -> s < r) -> Q NULL (mk_tlsf m mp)) ->
  (forall l1 s l2 m' F', L = l1 ++ (s, true) :: l2 -> r <= s -> heap_ok m' t n (l1 ++ a_take r s l2) F' ->
     changes (own t n L) m m' -> Q (heap_base t + blen l1 + 8) (mk_tlsf m' mp)) ->
  wp (malloc_ex sz t) Q (mk_tlsf m mp).
Proof.
  intros Hok Hsz Hmax r H32 Hnone Hsome. pose proof Hok as [Ha Hlen He Hsp Hg Hl HF]. pose proof (ending_nonneg _ He) as Hn.
  destruct (adjust_spec sz Hsz H32) as (Ha8 & Ha8' & _). destruct (MAPPING_SEARCH (adjust sz)) as [[r0 fl] sl] eqn:Es. cbn [fst] in r. subst r.
  assert (adjust sz mod 4 = 0) as Hmod.
  { destruct Ha8 as (q & -> & _). replace (8 * q) with (2 * q * 4) by lia. apply Z.mod_mul. lia. }
  destruct (mapping_search_class (adjust sz) r0 fl sl) as (Hfl & Hsl & Er0 & Hr0); [lia|done..|].
  pose proof (search_size8 _ _ _ _ Ha8 Hmax Es) as Hr8.
  assert (forall a s, (a, s, true) ∈ at_ (heap_base t) L -> 0 <= s < 2 ^ 30 /\ forall f l, MAPPING_INSERT s = (f, l) ->
    (class_le fl sl f l <-> r0 <= s)) as Hfree.
  { intros a s Hin. pose proof (at_bounds _ _ _ _ _ Hn Hin). pose proof (ar_len _ _ Ha). split; [lia|]. intros f l Em. split.
    - intros Hle. destruct (good_fit (adjust sz) r0 fl sl s f l); try done; lia.
    - intros Hle. eapply class_above; [|lia|done| |exact Em]; lia. }
  unfold malloc_ex. fold (adjust sz). rewrite Es.
  apply wp_bind. eapply wp_mono; [apply (wp_find_suitable (mk_tlsf m mp)); [apply (bo_maps _ _ _ (lo_bits _ _ _ Hl))|done..]|].
  intros [[b f'] l'] st [-> [(Hfull & Hle & -> & _)|[-> Hno]]]; cbn [t_mem] in *.
  - apply (lists_full m t F (f', l') Hl) in Hfull as [Hc Hne].
    pose proof (lo_head _ _ _ Hl (f', l') Hc) as Ehd. cbn [fst snd] in Ehd. rewrite Ehd.
    destruct (F (f', l')) as [|b l] eqn:EF; [done|]. cbn [hd].
    assert (b ∈ F (f', l')) as Hb by (rewrite EF; left). destruct (lo_node _ _ _ Hl _ _ Hb) as [_ Hnode].
    rewrite (node_nz t b) by (done || apply Ha). cbn [negb].
    apply HF in Hb as (s & Hin & Em). destruct (Hfree _ _ Hin) as [Hs Hfit]. apply (Hfit _ _ Em) in Hle.
    destruct (at_split _ _ _ _ _ Hin) as (l1 & l2 & -> & ->).
    assert (free_in (heap_base t) (l1 ++ (s, true) :: l2) (filed F)) as Hfi.
    { intros a [c Hca]. apply HF in Hca as (z & Hz & _). by exists z. }
    apply wp_bind. eapply wp_extract_block_hdr; [exact Hl|done|exact EF|]. intros m1 Hok1 Hch1.
    edestruct (opened_unfile m m1 t n l1 s l2 F) as (Ho & Hlf & Hg2 & s2 & l3 & ->); [exact Hok|exact Hok1| | |].
    + rewrite <- Em. eapply (filed_remove F _ _ s [] l); [exact HF|exact Hin| |by rewrite Em|rewrite Em; apply Hl].
      intros s' Hs'. destruct (at_disjoint _ _ _ _ _ _ _ _ Hn Hin Hs') as [[= E]|Hd]; [done|].
      apply at_bounds in Hs'; [lia|done].
    + intros x Hx. apply Hch1. intros Hlw. by eapply list_not_hdr.
    + eapply (wp_take m1); [exact Ho|done|lia|apply Hg2|]. intros m' F' Hok' Hch'. eapply (Hsome l1 s); [done|done|exact Hok'|].
      eapply changes_trans; [|exact Hch']. eapply changes_mono; [|exact Hch1]. intros x Hx.
      eapply own_list; [exact He|apply Ha|rewrite <- Hlen; by apply blen_nonneg|done|exact Hfi|exact Hx].
  - apply wp_ret, Hnone. intros a s Hin. destruct (Hfree _ _ Hin) as [Hs Hfit].
    destruct (Z.lt_ge_cases s r0) as [|Hge]; [done|]. exfalso. destruct (MAPPING_INSERT s) as [f l] eqn:Em.
    apply (Hno f l); [|by apply Hfit]. apply (lists_full m t F (f, l) Hl). pose proof (class_valid s Hs) as Hc. rewrite Em in Hc.
    split; [done|]. intros E. assert (a ∈ F (f, l)) as Hin' by (apply HF; by exists s). rewrite E in Hin'. by apply elem_of_nil in Hin'.
Qed.
