(* ===== verification/TlsfRealloc.v ===== *)
(** * realloc_ex of tlsf.c

    A block that is big enough, alone or with the free block behind it, keeps
    its place: it takes the free block in and gives back what is left behind
    the new size. Otherwise its contents move to a new block. *)

From Stdlib Require Import ZArith Lia.
From stdpp Require Import base tactics gmap option functions list.
From S2P Require Import Prelude Bits Mem Kstate Tlsf TlsfMap TlsfFree TlsfHeap TlsfAlloc TlsfMalloc.

Open Scope Z_scope.
Open Scope kernel_scope.

(** What [realloc_ex] makes of a block of [s] bytes and the blocks behind it,
    for [r] bytes; [None] when the block has to move. *)
Definition a_realloc (r s : Z) (l : blocks) : option blocks :=
  if r <=? s then Some (a_take r (absorb s l).1 (absorb s l).2)
  else match l with
       | (s', true) :: l' => if r <=? s + s' then Some (a_take r (s + s' + 8) l') else None
       | _ => None
       end.

(** A header word is no word of the free lists. *)
Lemma lists_hdr m t L F x v : ending L -> free_in (heap_base t) L (filed F) -> hdr_word (heap_base t) L x ->
  lists_ok m t F -> lists_ok (<[x := v]> m) t F.
Proof.
  intros He Hf Hx Hl. eapply lists_frame; [exact Hl|]. intros y Hy. apply peek_insert_ne. intros <-. by eapply list_not_hdr.
Qed.

Lemma filed_free m t n L F : heap_ok m t n L F -> free_in (heap_base t) L (filed F).
Proof. intros Hok a [c Hc]. apply (h_filed _ _ _ _ _ Hok) in Hc as (z & Hz & _). by exists z. Qed.

(** A block in use, with the block behind it. *)
Section used.
Context {m : gmap Z Z} {t n : Z} {l1 : blocks} {s s2 : Z} {f2 : bool} {l3 : blocks} {F : cls -> list Z}.
Hypothesis Hok : heap_ok m t n (l1 ++ (s, false) :: (s2, f2) :: l3) F.
Hypothesis Hs : 8 <= s.

Local Abbreviation b := (heap_base t + blen l1).
Local Abbreviation L := (l1 ++ (s, false) :: (s2, f2) :: l3).

Lemma used_at : at_ (heap_base t) L = at_ (heap_base t) l1 ++ (b, s, false) :: (b + 8 + s, s2, f2) :: at_ (b + 8 + s + 8 + s2) l3.
Proof. by rewrite at_app. Qed.

Lemma used_in : (b, s, false) ∈ at_ (heap_base t) L /\ (b + 8 + s, s2, f2) ∈ at_ (heap_base t) L.
Proof. rewrite used_at, !elem_of_app, !elem_of_cons. tauto. Qed.

Lemma used_sizes : size8 s /\ size8 s2 /\ 0 <= blen l1 /\ 0 <= s2 /\ 0 <= blen l3 /\ b + 8 + s + 8 + s2 + blen l3 = heap_base t + n.
Proof.
  pose proof (h_end _ _ _ _ _ Hok) as He. destruct used_in as [H1 H2].
  pose proof (ending_nonneg _ He) as [Hn1 [_ [H02 Hn3]%nonneg_head]%nonneg_head]%Forall_app.
  pose proof (blen_nonneg _ Hn1). pose proof (blen_nonneg _ Hn3). pose proof (h_len _ _ _ _ _ Hok) as Hlen. rewrite blen_app in Hlen. cbn [blen] in Hlen.
  split; [by eapply at_size8|]. split; [by eapply at_size8|]. lia.
Qed.

Lemma used_addrs : valid_addr (Tlsf.size b) = true /\ valid_addr (prev_hdr b) = true /\
  valid_addr (Tlsf.size (b + 8 + s)) = true /\ valid_addr (prev_hdr (b + 8 + s)) = true.
Proof.
  destruct (h_arena _ _ _ _ _ Hok) as [Ht H4 _ _]. pose proof (h_end _ _ _ _ _ Hok) as He. destruct used_in as [H1 H2].
  destruct (node_size t _ Ht H4 (at_node _ _ _ _ _ He H1)). by destruct (node_size t _ Ht H4 (at_node _ _ _ _ _ He H2)).
Qed.

Lemma used_hdrs : hdr m (last_flag false l1) (last_addr NULL (heap_base t) l1) b s false /\ hdr m false b (b + 8 + s) s2 f2.
Proof. pose proof (h_seg _ _ _ _ _ Hok) as [_ (H1 & H2 & _)]%seg_app. done. Qed.

Lemma used_hdr_words x : x = b \/ x = b + 4 \/ x = b + 8 + s \/ x = b + 8 + s + 4 -> hdr_word (heap_base t) L x.
Proof. destruct used_in. intros [?|[?|Hx]]; [exists b, s, false; auto..|]. exists (b + 8 + s), s2, f2. auto. Qed.

(** Marked free, the block is open. *)
Lemma used_opened : opened (<[Tlsf.size b := hword s true (last_flag false l1)]> m) t n l1 s ((s2, f2) :: l3) F.
Proof. eapply opened_intro; [exact Hok|done|by rewrite peek_insert_eq|]. intros x Hx _. by rewrite peek_insert_ne. Qed.

(** Behind a block in use, [prev_hdr] is not used. *)
Lemma used_prev_hdr v : heap_ok (<[prev_hdr (b + 8 + s) := v]> m) t n L F.
Proof.
  pose proof Hok as [Ha Hlen He Hsp Hg Hl HF]. pose proof used_sizes as (_ & _ & Hb).
  pose proof (ending_nonneg _ He) as [Hn1 [_ [_ Hn3]%nonneg_head]%nonneg_head]%Forall_app. split; [done..| | |done].
  - apply seg_app in Hg as (Hg1 & Hh1 & [Hz _] & Hg3). apply seg_app. split; [|split; [|split; [split|]]].
    + apply seg_front; [done|unfold prev_hdr; lia|done].
    + eapply hdr_frame; [exact Hh1|apply peek_insert_ne; unfold prev_hdr, Tlsf.size; lia..].
    + rewrite peek_insert_ne by (unfold prev_hdr, Tlsf.size; lia). exact Hz.
    + done.
    + apply seg_back; [done|unfold prev_hdr; lia|done].
  - eapply lists_hdr; [exact He|by eapply filed_free| |done]. apply used_hdr_words. unfold prev_hdr. auto.
Qed.

End used.

(** ** The free block behind it *)

(** Behind a free block is a block in use. *)
Lemma free_then_used {m t n l1 s r l3 F} : heap_ok m t n (l1 ++ (s, false) :: (r, true) :: l3) F -> exists s2 l4, l3 = (s2, false) :: l4.
Proof.
  intros Hok. pose proof (h_sparse _ _ _ _ _ Hok) as [_ (_ & _ & Hsp)]%sparse_app. pose proof (h_end _ _ _ _ _ Hok) as He.
  change (ending (l1 ++ ([(s, false)] ++ (r, true) :: l3))) in He. rewrite (assoc_L (++)) in He.
  destruct (ending_split _ _ _ _ He (or_intror eq_refl)) as (_ & _ & [|[s2 f2] l'] & -> & _); [by eexists _, _|].
  cbn [app sparse] in Hsp |- *. destruct f2; [by destruct Hsp|]. by eexists _, _.
Qed.

(** The free block behind a block in use leaves its list: with the size of both,
    the block is open. *)
Lemma wp_unfile_next m t n l1 s r l3 F fl sl (Q : unit -> tlsf_state -> Prop) mp :
  heap_ok m t n (l1 ++ (s, false) :: (r, true) :: l3) F -> 8 <= s -> MAPPING_INSERT r = (fl, sl) ->
  let b := heap_base t + blen l1 in let L := l1 ++ (s, false) :: (r, true) :: l3 in
  (forall m' F', opened (<[Tlsf.size b := hword (s + r + 8) true (last_flag false l1)]> m') t n l1 (s + r + 8) l3 F' ->
     changes (own t n L) m m' -> (forall y, hdr_word (heap_base t) L y -> peek m' y = peek m y) -> Q tt (mk_tlsf m' mp)) ->
  wp (EXTRACT_BLOCK (b + 8 + s) t fl sl) Q (mk_tlsf m mp).
Proof.
  intros Hok Hs Em b L HQ. pose proof (used_opened Hok Hs) as Ho. destruct (used_in (t := t) (l1 := l1) (s := s) (s2 := r) (f2 := true) (l3 := l3)) as [Hb Hin].
  fold b L in Hb, Hin. pose proof (used_sizes Hok) as (_ & _ & Hsz). pose proof Hok as [Ha Hlen He _ _ Hl HF]. fold L in Hlen, He, HF.
  pose proof (ending_nonneg _ He) as Hn. pose proof (ar_len _ _ Ha). pose proof (filed_free _ _ _ _ _ Hok) as Hfi. fold L in Hfi.
  eapply (wp_extract_filed m t F _ (b + 8 + s) r); [exact Hl|exact HF|exact Hin| |lia|exact Em|].
  { cbn beta. intros s' Hs'. by apply (at_unique _ _ _ _ _ s' true Hn Hin). }
  intros m' F' Hok' Hf' Hch. assert (forall y, hdr_word (heap_base t) L y -> peek m' y = peek m y) as Hh.
  { intros y Hy. apply Hch. intros Hlw. by eapply list_not_hdr. }
  eapply HQ; [|eapply changes_mono; [|exact Hch]; intros x Hx; eapply own_list; [exact He|apply Ha|lia|exact Hlen|exact Hfi|exact Hx]|exact Hh].
  rewrite <- (insert_insert_eq m' _ _ (hword s true (last_flag false l1))). eapply (opened_join _ _ _ _ _ _ _ _ _ F' Ho); fold b.
  - eapply (lists_hdr _ t L); [exact He| |apply used_hdr_words; auto|exact Hok'].
    intros a [c Hc]. apply Hf' in Hc as (z & [Hz _] & _). by exists z.
  - eapply filed_ext; [|exact Hf']. intros y z. unfold L. rewrite used_at, elem_of_app. cbn [at_]. rewrite !elem_of_cons. fold b.
    split; [intros [[?|[[=]|?]] ?]; tauto|tauto].
  - intros y Hy. destruct (decide (y = Tlsf.size b)) as [->|Hne]; [by rewrite !peek_insert_eq|].
    rewrite !peek_insert_ne by done. apply Hh. destruct Hy as (a & z & f & Hy & Hx). unfold L.
    rewrite opened_at, elem_of_app, elem_of_cons in Hy. destruct Hy as [Hy|[[= -> -> ->]|Hy]].
    + exists a, z, f. rewrite at_app, elem_of_app. auto.
    + exists b, s, false. auto.
    + exists a, z, f. rewrite at_app, elem_of_app. cbn [at_] in *. rewrite elem_of_cons. auto.
Qed.

(** ** Giving back the rest *)

(** The end of a block in use becomes a free block. The header of the block
    need not have its size: [realloc_ex] splits a block before it knows the
    size of the free block it took in. *)
Lemma wp_resplit m t n l1 s s2 l3 F r s0 (Q : unit -> tlsf_state -> Prop) mp :
  let b := heap_base t + blen l1 in
  opened (<[Tlsf.size b := hword s true (last_flag false l1)]> m) t n l1 s ((s2, false) :: l3) F ->
  peek m (Tlsf.size b) = hword s0 false (last_flag false l1) -> size8 s0 -> size8 r -> 8 <= r -> 16 <= s - r ->
  let L := l1 ++ (r, false) :: (s - r - 8, true) :: (s2, false) :: l3 in
  (forall m' F', heap_ok m' t n L F' -> changes (own t n L) m m' -> Q tt (mk_tlsf m' mp)) ->
  wp (realloc_split b (b + 8 + s) r (s - r) t) Q (mk_tlsf m mp).
Proof.
  intros b Ho Hsz Hs0 Hr8 Hr Hsr L HQ. pose proof (opened_addrs Ho) as (Ht & H4 & Hvb & _). pose proof (opened_bounds Ho) as Hb.
  destruct (split_node Ho Hr8 Hr Hsr) as (Hn2 & Hnn & _). fold b in Hn2, Hnn, Hb.
  destruct (node_size t _ Ht H4 Hn2) as [Hv2 _]. destruct (node_size t _ Ht H4 Hnn) as [Hvn1 Hvn].
  pose proof (split_words (t := t) (l1 := l1) (s := s) (r := r) (s2 := s2) (l3 := l3)) as (_ & _ & W3 & W4 & W5). fold b L in W3, W4, W5.
  destruct (rest_big Ho Hr8 Hr Hsr) as [Hs8 _]. cbn [fst] in *. pose proof (o_arena _ _ _ _ _ _ _ Ho) as [_ _ Htop _].
  pose proof (opened_nonneg Ho) as (_ & _ & Hn3). pose proof (blen_nonneg _ Hn3). pose proof (heap_base_eq t) as Ebase.
  assert (size8 s2) as Hs28.
  { eapply (at_size8 (b + 8 + s) _ (b + 8 + s)); [exact (o_end _ _ _ _ _ _ _ Ho)|left]. }
  destruct (o_seg2 _ _ _ _ _ _ _ Ho) as (pf & p & [Hnx _] & _). fold b in Hnx. rewrite peek_insert_ne in Hnx by (unfold Tlsf.size; lia).
  assert (GET_NEXT_BLOCK (buffer b) r = b + 8 + r) as E2.
  { unfold GET_NEXT_BLOCK, buffer. apply u32_small. unfold b in *. lia. }
  unfold realloc_split. rewrite Z.geb_leb. change sizeof_bhdr with 16. destruct (Z.leb_spec 16 (s - r)); [|lia]. cbn [when].
  rewrite E2. change BHDR_OVERHEAD with 8. apply wp_bind, wp_tstore; [done|]. rewrite hword_new by done.
  apply wp_bind, wp_tstore; [done|]. apply wp_bind, wp_upd_word; [done|].
  rewrite !peek_insert_ne, Hnx, hword_set_prev by (done || unfold Tlsf.size, prev_hdr; lia).
  eapply (wp_split_end Ho Hr8 Hr Hsr _ _ _ s0 false); fold b L; [|unfold Tlsf.size, prev_hdr..|].
  - intros x ? ? ? ?. by rewrite !peek_insert_ne by (unfold Tlsf.size, prev_hdr; done).
  - rewrite !peek_insert_ne by lia. exact Hsz.
  - done.
  - apply peek_insert_eq.
  - by rewrite !peek_insert_ne, peek_insert_eq by lia.
  - by rewrite peek_insert_ne, peek_insert_eq by lia.
  - intros m' F' Hok Hch. eapply HQ; [exact Hok|]. pose proof (fun x => split_own_hdr Ho Hr8 Hr Hsr x) as Hoh. fold L in Hoh.
    eapply changes_trans; [|exact Hch]. do 2 (apply changes_step; [by apply Hoh|]). apply changes_insert. by apply Hoh.
Qed.

(** A block in use gives back what is behind [r] bytes, if it is enough for a
    block. *)
Lemma wp_give_back m t n l1 s s2 l3 F r (Q : unit -> tlsf_state -> Prop) mp :
  heap_ok m t n (l1 ++ (s, false) :: (s2, false) :: l3) F -> size8 r -> 8 <= r <= s ->
  let b := heap_base t + blen l1 in let L := l1 ++ a_take r s ((s2, false) :: l3) in
  (forall m' F', heap_ok m' t n L F' -> changes (own t n L) m m' -> Q tt (mk_tlsf m' mp)) ->
  wp (realloc_split b (b + 8 + s) r (s - r) t) Q (mk_tlsf m mp).
Proof.
  intros Hok Hr8 Hr b L HQ. unfold a_take in L. pose proof (used_sizes Hok) as (Hs8 & _).
  destruct (Z.leb_spec 16 (s - r)) as [Hsr|Hsr].
  - eapply wp_resplit; [apply (used_opened Hok); lia|apply (used_hdrs Hok)|done|done|lia|lia|exact HQ].
  - unfold realloc_split. rewrite Z.geb_leb. change sizeof_bhdr with 16. destruct (Z.leb_spec 16 (s - r)); [lia|]. cbn [when].
    apply wp_ret. eapply HQ; [exact Hok|apply changes_refl].
Qed.

(** ** Growing *)

(** A block in use takes in the free block behind it. *)
Lemma wp_grow {A} m t n l1 s r l3 F fl sl (K : Z -> TM A) (Q : A -> tlsf_state -> Prop) mp :
  heap_ok m t n (l1 ++ (s, false) :: (r, true) :: l3) F -> 8 <= s -> MAPPING_INSERT r = (fl, sl) ->
  let b := heap_base t + blen l1 in
  let L := l1 ++ (s, false) :: (r, true) :: l3 in let L' := l1 ++ (s + r + 8, false) :: l3 in
  (forall m' F', heap_ok m' t n L' F' -> changes (own t n L) m m' -> wp (K (b + 8 + (s + r + 8))) Q (mk_tlsf m' mp)) ->
  wp (EXTRACT_BLOCK (b + 8 + s) t fl sl ;;;
      let* r := blk_size (b + 8 + s) in
      upd_word (Tlsf.size b) (fun w => u32 (w + (r + BHDR_OVERHEAD))) ;;;
      let* next_b := next_block b in
      mem (store (prev_hdr next_b) b) ;;;
      upd_word (Tlsf.size next_b) (fun w => Z.land w (u32 (Z.lnot PREV_FREE))) ;;;
      K next_b) Q (mk_tlsf m mp).
Proof.
  intros Hok Hs Em b L L' HQ. destruct (used_addrs Hok) as (Hvb & _ & Hvr & _). destruct (used_hdrs Hok) as [Hhb Hhr]. fold b in Hvb, Hvr, Hhb, Hhr.
  pose proof (used_sizes Hok) as (Hs8 & Hr8 & H1 & Hr & H3 & Hlen). fold b in Hlen. pose proof (h_arena _ _ _ _ _ Hok) as [Ht H4 Htop H30].
  pose proof (heap_base_eq t) as Ebase. apply wp_bind. eapply wp_unfile_next; [exact Hok|done|exact Em|]. intros m1 F1 Ho Hch1 Hh1. fold b L in Ho, Hch1, Hh1.
  assert (peek m1 (Tlsf.size b) = hword s false (last_flag false l1)) as Eb.
  { rewrite Hh1; [apply Hhb|]. apply used_hdr_words. auto. }
  apply wp_bind. eapply (wp_blk_size m1 _ false b (b + 8 + s) r true); [done| |done|].
  { split; [|done]. rewrite Hh1; [apply Hhr|]. apply used_hdr_words. auto. }
  apply wp_bind, wp_upd_word; [done|]. rewrite Eb, Z.add_assoc, hword_add by lia.
  pose proof Ho as [_ _ _ [Hm8 Hmb] _ _ _ _ _ _ _ _]. cbn [fst] in *.
  destruct (free_then_used Hok) as (s2 & l4 & ->).
  set (nx := b + 8 + (s + r + 8)). pose proof (opened_bounds Ho) as Hb. fold b in Hb.
  assert ((nx, s2, false) ∈ at_ (heap_base t) (l1 ++ (s + r + 8, true) :: (s2, false) :: l4)) as Hin.
  { rewrite opened_at, elem_of_app. right. right. left. }
  destruct (node_size t _ Ht H4 (at_node _ _ _ _ _ (opened_ending Ho) Hin)) as [Hvn1 Hvn2].
  destruct (at_size8 _ _ _ _ _ (opened_ending Ho) Hin) as [Hs28 _]. destruct (o_seg2 _ _ _ _ _ _ _ Ho) as (pf & p & [Hnx _] & _).
  fold b nx in Hnx. rewrite peek_insert_ne in Hnx by (unfold Tlsf.size, nx; lia).
  destruct (opened_nonneg Ho) as (_ & _ & [Hs20 Hn4]%nonneg_head). pose proof (blen_nonneg _ Hn4). cbn [blen] in *.
  apply wp_bind. eapply (wp_next_block _ _ (last_flag false l1) _ b (s + r + 8) false);
    [done|split; [by rewrite peek_insert_eq|reflexivity]|done|unfold b in *; lia|unfold nx in *; lia|]. fold nx.
  apply wp_bind, wp_tstore; [done|]. apply wp_bind, wp_upd_word; [done|].
  rewrite !peek_insert_ne, Hnx, hword_clear_prev by (done || unfold Tlsf.size, prev_hdr, nx; lia). eapply HQ.
  - pose proof (used_prev_hdr (take_whole _ _ _ _ _ _ _ _ Ho) Hmb b) as Hw. fold b nx in Hw.
    rewrite (insert_insert_ne _ (Tlsf.size b) (Tlsf.size nx)), insert_insert_eq in Hw by (unfold Tlsf.size, nx; lia).
    rewrite (insert_insert_ne _ (prev_hdr nx) (Tlsf.size nx)) in Hw by (unfold prev_hdr, Tlsf.size; lia). exact Hw.
  - assert (forall x, x = nx \/ x = nx + 4 \/ x = b + 4 -> own t n L x) as Ho'.
    { intros x Hx. apply own_hdr; [apply ending_nonneg, Hok|lia|apply Hok|].
      destruct Hx as [Hx|[Hx|Hx]]; [| |apply used_hdr_words; auto]; apply hdr_word_r, hdr_word_tl, hdr_word_tl, hdr_word_hd; fold b;
        [left|right]; unfold nx in Hx; lia. }
    do 3 (apply changes_step; [apply Ho'; unfold Tlsf.size, prev_hdr; auto|]). exact Hch1.
Qed.

(** ** realloc_ex *)

Lemma adjust_le sz : 0 <= sz <= 2 ^ 29 -> adjust sz <= 2 ^ 29.
Proof.
  intros H. unfold adjust. change MIN_BLOCK_SIZE with 8. destruct (Z.ltb_spec sz 8); [lia|]. rewrite roundup_spec by lia.
  assert ((sz + 7) / 8 < 2 ^ 26 + 1) by (apply Z.div_lt_upper_bound; lia). lia.
Qed.

(** The words that [realloc_ex] may write: those of the allocator before or after. *)
Definition own2 (t n : Z) (L L' : blocks) (x : Z) : Prop := own t n L x \/ own t n L' x.

(** Shrinking, next to a free block or not. *)
Lemma wp_shrink m t n l1 s l2 F r (Q : Z -> tlsf_state -> Prop) mp :
  heap_ok m t n (l1 ++ (s, false) :: l2) F -> 8 <= s -> size8 r -> 8 <= r <= s ->
  let b := heap_base t + blen l1 in let L := l1 ++ (s, false) :: l2 in
  let L' := l1 ++ a_take r (absorb s l2).1 (absorb s l2).2 in
  (forall m' F', heap_ok m' t n L' F' -> changes (own2 t n L L') m m' -> Q (b + 8) (mk_tlsf m' mp)) ->
  wp (let* w := mem (load (Tlsf.size (b + 8 + s))) in
      let* '(next_b, tmp_size) :=
        (if nz (Z.land w FREE_BLOCK) then
           let* r := blk_size (b + 8 + s) in
           let '(fl, sl) := MAPPING_INSERT r in
           EXTRACT_BLOCK (b + 8 + s) t fl sl ;;;
           let* r := blk_size (b + 8 + s) in
           let tmp_size := u32 (s + (r + BHDR_OVERHEAD)) in
           let* n := next_block (b + 8 + s) in
           ret (n, tmp_size)
         else ret (b + 8 + s, s)) in
      realloc_split b next_b r (u32 (tmp_size - r)) t ;;;
      ret (buffer b)) Q (mk_tlsf m mp).
Proof.
  intros Hok Hs Hr8 Hr b L L' HQ.
  assert (exists s2 f2 l3, l2 = (s2, f2) :: l3) as (s2 & f2 & l3 & ->).
  { destruct (ending_split _ _ _ _ (h_end _ _ _ _ _ Hok) (or_introl Hs)) as (_ & _ & He). destruct He as ([|[x y] l'] & -> & _); cbn; eauto. }
  destruct (used_addrs Hok) as (_ & _ & Hvn & _). destruct (used_hdrs Hok) as [Hhb Hhn]. fold b in Hvn, Hhb, Hhn.
  pose proof (used_sizes Hok) as (Hs8 & Hs28 & H1 & Hs20 & H3 & Hlen). fold b in Hlen. pose proof (h_arena _ _ _ _ _ Hok) as [Ht H4 Htop H30].
  pose proof (heap_base_eq t) as Ebase. apply wp_bind, wp_tload; [done|]. cbn [t_mem]. rewrite (proj1 Hhn), hword_free by done.
  destruct f2; cbn [absorb fst snd] in L'.
  - apply wp_bind, wp_bind. eapply wp_blk_size; [done|exact Hhn|done|]. destruct (MAPPING_INSERT s2) as [fl sl] eqn:Em.
    apply wp_bind. eapply wp_unfile_next; [exact Hok|done|exact Em|]. fold b L. intros m1 F1 Ho Hch1 Hh1.
    assert (hdr m1 false b (b + 8 + s) s2 true) as Hhn1.
    { eapply hdr_frame; [exact Hhn|apply Hh1..]; apply used_hdr_words; unfold Tlsf.size, prev_hdr; fold b; auto. }
    apply wp_bind. eapply wp_blk_size; [done|exact Hhn1|done|].
    destruct (free_then_used Hok) as (s3 & l4 & ->).
    pose proof (opened_nonneg Ho) as (_ & _ & [Hs30 Hn4]%nonneg_head). pose proof (blen_nonneg _ Hn4). cbn [blen] in *.
    apply wp_bind. eapply wp_next_block; [done|exact Hhn1|done|unfold b in *; lia|lia|]. apply wp_ret.
    change BHDR_OVERHEAD with 8. rewrite !u32_small by (try rewrite u32_small; unfold b in *; lia).
    replace (b + 8 + s + 8 + s2) with (b + 8 + (s + s2 + 8)) by lia. replace (s + (s2 + 8) - r) with (s + s2 + 8 - r) by lia.
    destruct (ending_split (l1 ++ [(s, false)]) s2 true ((s3, false) :: l4)) as (_ & [_ Hb2] & _);
      [rewrite <- (assoc_L (++)); apply Hok|by right|]. cbn [fst] in Hb2.
    assert (L' = l1 ++ (r, false) :: (s + s2 + 8 - r - 8, true) :: (s3, false) :: l4) as EL.
    { unfold L', a_take. destruct (Z.leb_spec 16 (s + s2 + 8 - r)); [done|lia]. }
    apply wp_bind. eapply wp_resplit; [exact Ho|fold b|exact Hs8|done|lia|lia|].
    { rewrite Hh1; [apply Hhb|]. apply used_hdr_words. auto. }
    rewrite <- EL. intros m2 F2 Hok2 Hch2. apply wp_ret. eapply HQ; [exact Hok2|].
    eapply changes_trans; eapply changes_mono; [|exact Hch1| |exact Hch2]; unfold own2; tauto.
  - apply wp_bind, wp_ret. rewrite u32_small by (unfold b in *; lia). apply wp_bind. eapply wp_give_back; [exact Hok|done|done|].
    intros m2 F2 Hok2 Hch2. apply wp_ret. eapply HQ; [exact Hok2|]. eapply changes_mono; [|exact Hch2]. unfold own2. tauto.
Qed.

(** [realloc_ex] of a block in use: in its place, or by [realloc_move]. *)
Lemma wp_realloc_ex m t n l1 s l2 F sz (Q : Z -> tlsf_state -> Prop) mp :
  heap_ok m t n (l1 ++ (s, false) :: l2) F -> 8 <= s -> 0 < sz <= 2 ^ 29 ->
  let b := heap_base t + blen l1 in let L := l1 ++ (s, false) :: l2 in
  (forall l m' F', a_realloc (adjust sz) s l2 = Some l -> heap_ok m' t n (l1 ++ l) F' ->
     changes (own2 t n L (l1 ++ l)) m m' -> Q (b + 8) (mk_tlsf m' mp)) ->
  (a_realloc (adjust sz) s l2 = None -> wp (realloc_move (b + 8) b (adjust sz) t) Q (mk_tlsf m mp)) ->
  wp (realloc_ex (b + 8) sz t) Q (mk_tlsf m mp).
Proof.
  intros Hok Hs Hsz b L HQ Hmove.
  assert (exists s2 f2 l3, l2 = (s2, f2) :: l3) as (s2 & f2 & l3 & ->).
  { destruct (ending_split _ _ _ _ (h_end _ _ _ _ _ Hok) (or_introl Hs)) as (_ & _ & He). destruct He as ([|[x y] l'] & -> & _); cbn; eauto. }
  destruct (used_addrs Hok) as (Hvb & _ & Hvn & _). destruct (used_hdrs Hok) as [Hhb Hhn]. fold b in Hvb, Hvn, Hhb, Hhn.
  pose proof (used_sizes Hok) as (Hs8 & Hs28 & H1 & Hs20 & H3 & Hlen). fold b in Hlen. pose proof (h_arena _ _ _ _ _ Hok) as [Ht H4 Htop H30].
  pose proof (heap_base_eq t) as Ebase. destruct (adjust_spec sz) as (Hr8 & Hr & _); [lia..|]. pose proof (adjust_le sz ltac:(lia)).
  unfold realloc_ex. assert (forall x, 0 < x -> negb (nz x) = false) as Hnz by (intros x ?; unfold nz; destruct (Z.eqb_spec x 0); [lia|done]).
  rewrite (Hnz (b + 8)), (Hnz sz) by (unfold b in *; lia).
  assert (u32 (b + 8 - BHDR_OVERHEAD) = b) as -> by (change BHDR_OVERHEAD with 8; rewrite u32_small; unfold b in *; lia).
  apply wp_bind. eapply wp_next_block; [done|exact Hhb|done|unfold b in *; lia|lia|]. fold (adjust sz). set (r := adjust sz) in *.
  apply wp_bind. eapply wp_blk_size; [done|exact Hhb|done|]. unfold a_realloc in *. destruct (Z.leb_spec r s) as [Hle|Hgt].
  { apply (wp_shrink m t n l1 s ((s2, f2) :: l3) F r); [exact Hok|done|done|lia|]. intros m' F' Hok' Hch. by eapply HQ. }
  apply wp_bind, wp_tload; [done|]. cbn [t_mem]. rewrite (proj1 Hhn), hword_free by done.
  apply wp_bind. eapply wp_blk_size; [done|exact Hhn|done|]. rewrite u32_small by (unfold b in *; lia).
  destruct f2; cbn [andb]; [|by apply Hmove]. destruct (Z.leb_spec r (s + s2)) as [Hfit|Hfit]; [|by apply Hmove].
  destruct (MAPPING_INSERT s2) as [fl sl] eqn:Em. eapply wp_grow; [exact Hok|done|exact Em|]. intros m1 F1 Hok1 Hch1. fold b in Hok1 |- *.
  destruct (free_then_used Hok) as (s3 & l4 & ->). destruct (used_hdrs Hok1) as [Hhb1 _]. pose proof (used_sizes Hok1) as (Hm8 & _). fold b in Hhb1.
  apply wp_bind. eapply wp_blk_size; [done|exact Hhb1|done|]. rewrite u32_small by (cbn [blen] in *; unfold b in *; lia).
  apply wp_bind. eapply wp_give_back; [exact Hok1|done|lia|]. intros m2 F2 Hok2 Hch2. apply wp_ret. eapply HQ; [done|exact Hok2|].
  eapply changes_trans; eapply changes_mono; [|exact Hch1| |exact Hch2]; unfold own2; tauto.
Qed.
