(* ===== verification/TlsfPool.v ===== *)
(** * init_memory_pool of tlsf.c

    A new pool has one free block. *)

From Stdlib Require Import ZArith Lia.
From stdpp Require Import base tactics gmap option functions list.
From S2P Require Import Prelude Bits Mem Kstate Tlsf TlsfMap TlsfFree TlsfHeap TlsfAlloc TlsfMalloc.

Open Scope Z_scope.
Open Scope kernel_scope.

(** ** Initialization *)

Lemma wp_zero_words a k m (Q : unit -> gmap Z Z -> Prop) : 0 < a -> a mod 4 = 0 ->
  (forall m', (forall i, 0 <= i < Z.of_nat k -> peek m' (a + 4 * i) = 0) ->
     (forall x, x < a \/ a + 4 * Z.of_nat k <= x -> peek m' x = peek m x) -> Q tt m') ->
  wp (zero_words a k) Q m.
Proof.
  revert a m. induction k as [|k IH]; intros a m Ha H4 HQ; cbn [zero_words].
  - apply wp_ret, HQ; [lia|done].
  - apply wp_bind, wp_store; [apply valid_addr_spec; lia|]. apply IH; [lia|by rewrite Zplus_mod, H4|].
    intros m' Hz Hr. apply HQ.
    + intros i Hi. destruct (decide (i = 0)) as [->|].
      * rewrite Hr by lia. rewrite Z.mul_0_r, Z.add_0_r. apply peek_insert_eq.
      * replace (a + 4 * i) with (a + 4 + 4 * (i - 1)) by lia. apply Hz. lia.
    + intros x Hx. rewrite Hr by lia. apply peek_insert_ne. lia.
Qed.

(** A cleared control structure has empty lists. *)
Lemma lists_empty m t : 0 < t -> t mod 4 = 0 -> (forall x, bitmap_word t x \/ matrix_word t x -> peek m x = 0) ->
  lists_ok m t (fun _ => []).
Proof.
  intros Ht H4 Hz. assert (peek m (fl_bitmap t) = 0) as Ef by (apply Hz; left; by left).
  assert (forall fl, 0 <= fl < REAL_FLI -> peek m (sl_bitmap t fl) = 0) as Es.
  { intros fl Hfl. apply Hz. left. right. by exists fl. }
  split; try done.
  - split; [split; [done|by rewrite Ef|intros fl Hfl; by rewrite Es|]|].
    + intros fl Hfl. rewrite Ef, Z.bits_0. split; [done|]. intros [Hlt Hne]. rewrite Es in Hne by lia. done.
    + intros c Hc. rewrite Es by apply Hc. by rewrite Z.bits_0.
  - intros c Hc. cbn [hd]. apply Hz. right. by exists c.
  - intros c a Ha. by apply elem_of_nil in Ha.
  - intros c. constructor.
  - intros c c' a Ha. by apply elem_of_nil in Ha.
Qed.

(** The bytes of a pool behind its control structure. *)
Definition pool_len (mem_pool_size : Z) : Z := 8 * ((mem_pool_size - sizeof_tlsf) / 8).

Lemma rounddown_spec r : 0 <= r < 2 ^ 32 -> ROUNDDOWN_SIZE r = 8 * (r / 8).
Proof. intros Hr. unfold ROUNDDOWN_SIZE. change MEM_ALIGN with (2 ^ 3 - 1). by rewrite land_lnot_ones by lia. Qed.

Lemma lor_used s : Z.lor (Z.lor s USED_BLOCK) PREV_USED = s.
Proof. unfold USED_BLOCK, PREV_USED. by rewrite !Z.lor_0_r. Qed.

(** The blocks of a new pool: the header of the area, its payload, the end. *)
Definition area_mem (t n : Z) (m : gmap Z Z) : gmap Z Z :=
  let ib := heap_base t in let b := ib + 16 in let lb := ib + n - 8 in
  <[ib + 8 := lb]> (<[ib + 12 := 0]> (<[Tlsf.size lb := hword 0 false true]> (<[prev_hdr lb := b]>
    (<[free_prev b := 0]> (<[free_next b := 0]> (<[Tlsf.size b := hword (n - 32) false false]>
    (<[Tlsf.size ib := hword 8 false false]> m))))))).

Lemma wp_process_area t n m (Q : Z -> tlsf_state -> Prop) mp :
  0 < t -> t mod 4 = 0 -> size8 n -> 64 <= n -> heap_base t + n <= 2 ^ 32 ->
  Q (heap_base t) (mk_tlsf (area_mem t n m) mp) -> wp (process_area (heap_base t) n) Q (mk_tlsf m mp).
Proof.
  intros Ht H4 Hn8 Hn Htop HQ. pose proof (heap_base_eq t) as Eb. set (ib := heap_base t) in *.
  assert (forall k, 0 <= k -> valid_addr (ib + 4 * k) = true) as Hv.
  { intros k Hk. apply valid_addr_spec. split; [lia|]. rewrite Eb. replace (t + 3184 + 4 * k) with (t + (796 + k) * 4) by lia. by rewrite Z.mod_add. }
  destruct Hn8 as (q & -> & Hq).
  unfold process_area. apply wp_bind, wp_tstore; [apply (Hv 1); lia|]. change (if _ <? _ then _ else _) with (hword 8 false false).
  apply wp_bind. eapply (wp_blk_size _ _ false 0 ib 8 false); [apply (Hv 1); lia| |by exists 1|].
  { split; [apply peek_insert_eq|done]. }
  assert (GET_NEXT_BLOCK (buffer ib) 8 = ib + 16) as ->.
  { unfold GET_NEXT_BLOCK, buffer. rewrite u32_small; lia. }
  assert (ROUNDDOWN_SIZE (u32 (8 * q - 3 * BHDR_OVERHEAD - 8)) = 8 * q - 32) as ->.
  { change BHDR_OVERHEAD with 8. rewrite u32_small, rounddown_spec by lia. replace (8 * q - 3 * 8 - 8) with ((q - 4) * 8) by lia.
    rewrite Z.div_mul; lia. }
  rewrite lor_used. apply wp_bind, wp_tstore; [unfold Tlsf.size; replace (ib + 16 + 4) with (ib + 4 * 5) by lia; apply Hv; lia|].
  apply wp_bind, wp_tstore; [unfold free_next; replace (ib + 16 + 12) with (ib + 4 * 7) by lia; apply Hv; lia|].
  apply wp_bind, wp_tstore; [unfold free_prev; replace (ib + 16 + 8) with (ib + 4 * 6) by lia; apply Hv; lia|].
  apply wp_bind. eapply (wp_next_block _ _ false 0 (ib + 16) (8 * q - 32) false).
  { unfold Tlsf.size. replace (ib + 16 + 4) with (ib + 4 * 5) by lia. apply Hv. lia. }
  { split; [|done]. unfold free_prev, free_next, Tlsf.size. rewrite !peek_insert_ne, peek_insert_eq by lia. unfold hword. cbn [Z.b2z]. lia. }
  { exists (q - 4). lia. } { lia. } { lia. }
  replace (ib + 16 + 8 + (8 * q - 32)) with (ib + 8 * q - 8) by lia.
  apply wp_bind, wp_tstore; [unfold prev_hdr; replace (ib + 8 * q - 8) with (ib + 4 * (2 * q - 2)) by lia; apply Hv; lia|].
  apply wp_bind, wp_tstore; [unfold Tlsf.size; replace (ib + 8 * q - 8 + 4) with (ib + 4 * (2 * q - 1)) by lia; apply Hv; lia|].
  change (Z.lor (Z.lor 0 USED_BLOCK) PREV_FREE) with (hword 0 false true).
  apply wp_bind, wp_tstore; [unfold buffer; replace (ib + 8 + 4) with (ib + 4 * 3) by lia; apply Hv; lia|].
  apply wp_bind, wp_tstore; [apply (Hv 2); lia|]. apply wp_ret.
  unfold area_mem in HQ. fold ib in HQ. unfold buffer.
  replace (ib + 8 + 4) with (ib + 12) by lia.
  replace (hword (8 * q - 32) false false) with (8 * q - 32) in HQ by (unfold hword; cbn [Z.b2z]; lia). exact HQ.
Qed.

(** The block of a new area is open once it is marked free. *)
Lemma area_opened t n m : arena t n -> size8 n -> 64 <= n ->
  (forall x, bitmap_word t x \/ matrix_word t x -> peek m x = 0) ->
  opened (<[Tlsf.size (heap_base t + 16) := hword (n - 32) true false]> (area_mem t n m)) t n
    [(8, false)] (n - 32) [(0, false)] (fun _ => []).
Proof.
  intros Ha Hn8 Hn Hz. pose proof Ha as [Ht H4 Htop H30]. pose proof (heap_base_eq t) as Eb.
  assert (size8 (n - 32)) as Hs8 by (destruct Hn8 as (q & -> & Hq); exists (q - 4); lia).
  assert (forall x, x < heap_base t -> peek (<[Tlsf.size (heap_base t + 16) := hword (n - 32) true false]> (area_mem t n m)) x = peek m x) as Hlow.
  { intros x Hx. unfold area_mem, free_prev, free_next, prev_hdr, Tlsf.size. rewrite !peek_insert_ne by lia. done. }
  split.
  - done.
  - cbn. lia.
  - apply Forall_singleton. split; cbn; [by exists 1|lia].
  - split; cbn [fst]; [done|lia].
  - by exists [].
  - done.
  - done.
  - cbn [seg]. split; [|done]. split; [|done].
    unfold area_mem, free_prev, free_next, prev_hdr, Tlsf.size. rewrite !peek_insert_ne by lia. by rewrite peek_insert_eq.
  - cbn [last_flag blen]. replace (heap_base t + (8 + 8 + 0)) with (heap_base t + 16) by lia.
    split; [by rewrite peek_insert_eq|done].
  - exists true, (heap_base t + 16). cbn [blen seg]. replace (heap_base t + (8 + 8 + 0) + 8 + (n - 32)) with (heap_base t + n - 8) by lia.
    split; [|done]. split; unfold area_mem, free_prev, free_next, prev_hdr, Tlsf.size; [|intros _];
      rewrite !peek_insert_ne by lia; by rewrite peek_insert_eq.
  - apply lists_empty; [done..|]. intros x Hx. rewrite Hlow; [by apply Hz|]. tlsf_words.
    destruct Hx as [[Hx|(fl & Hfl & Hx)]|(c & [Hc1 Hc2] & Hx)]; lia.
  - intros c a. rewrite elem_of_nil. split; [done|]. intros (z & [Hx|Hx] & _); cbn [at_] in Hx;
      apply list_elem_of_singleton in Hx; discriminate.
Qed.

(** A write to no word of the allocator. *)
Lemma heap_frame m m' t n L F : heap_ok m t n L F ->
  (forall x, hdr_word (heap_base t) L x \/ list_word t (filed F) x -> peek m' x = peek m x) -> heap_ok m' t n L F.
Proof.
  intros [Ha Hlen He Hsp Hg Hl HF] Hf. split; try done.
  - eapply seg_frame; [exact Hg|]. auto.
  - eapply lists_frame; [exact Hl|]. auto.
Qed.

Lemma pool_len_bounds sz : sizeof_tlsf + BHDR_OVERHEAD * 8 <= sz < 2 ^ 30 ->
  size8 (pool_len sz) /\ 64 <= pool_len sz /\ sz - 3188 < pool_len sz <= sz - 3180.
Proof.
  change (sizeof_tlsf + BHDR_OVERHEAD * 8) with 3244. intros Hsz. unfold pool_len. change sizeof_tlsf with 3180.
  pose proof (Z.div_mod (sz - 3180) 8 ltac:(lia)). pose proof (Z.mod_pos_bound (sz - 3180) 8 ltac:(lia)).
  split; [exists ((sz - 3180) / 8); lia|]. lia.
Qed.

(** The word of [area_head] is read by nothing else. *)
Lemma heap_area_head m t n L F v : heap_ok m t n L F -> heap_ok (<[area_head t := v]> m) t n L F.
Proof.
  intros Hok. pose proof (heap_base_eq t) as Eb. eapply heap_frame; [exact Hok|]. intros x Hx. apply peek_insert_ne.
  unfold area_head. intros <-. destruct Hx as [Hx|[Hx|[(c & [Hc1 Hc2] & Hx)|(a & Ha & Hx)]]].
  - destruct Hx as (b & s & f & Hin & Hx). apply at_bounds in Hin; [lia|]. by apply (ending_nonneg _ (h_end _ _ _ _ _ Hok)).
  - tlsf_words. destruct Hx as [Hx|(fl & Hfl & Hx)]; lia.
  - tlsf_words. lia.
  - destruct (filed_node _ _ _ _ (h_lists _ _ _ _ _ Hok) Ha) as (k & -> & Hk). tlsf_words. lia.
Qed.

(** The new area becomes a free block. *)
Lemma wp_first_area m t n (Q : Z -> tlsf_state -> Prop) mp :
  arena t n -> size8 n -> 64 <= n -> (forall x, bitmap_word t x \/ matrix_word t x -> peek m x = 0) ->
  (forall m' F, heap_ok m' t n [(8, false); (n - 32, true); (0, false)] F ->
     changes (fun x => t <= x < heap_base t + n) m m' -> Q (n - 32) (mk_tlsf m' mp)) ->
  wp (let* ib := process_area (heap_base t) n in
      let* b := next_block ib in
      free_ex (buffer b) t ;;;
      mem (store (area_head t) (buffer ib)) ;;;
      blk_size b) Q (mk_tlsf m mp).
Proof.
  intros Har Hn8 Hn64 Hz HQ. pose proof Har as [Ht H4 Htop H30]. pose proof (heap_base_eq t) as Eb.
  pose proof (area_opened t n m Har Hn8 Hn64 Hz) as Ho. apply wp_bind, wp_process_area; [done|done|done|done|lia|].
  assert (changes (fun x => t <= x < heap_base t + n) m (area_mem t n m)) as Hch.
  { intros x Hx. unfold area_mem, free_prev, free_next, prev_hdr, Tlsf.size. rewrite !peek_insert_ne by lia. done. }
  assert (peek (area_mem t n m) (Tlsf.size (heap_base t)) = hword 8 false false /\
    peek (area_mem t n m) (Tlsf.size (heap_base t + 16)) = hword (n - 32) false false) as [E1 E2].
  { unfold area_mem, free_prev, free_next, prev_hdr, Tlsf.size. split; rewrite !peek_insert_ne by lia; by rewrite peek_insert_eq. }
  set (m3 := area_mem t n m) in *.
  apply wp_bind. eapply (wp_next_block m3 _ false 0 (heap_base t) 8 false); [|by split|by exists 1|lia|lia|].
  { apply (proj1 (node_size t (heap_base t) Ht H4 ltac:(exists 0; lia))). }
  replace (heap_base t + 8 + 8) with (heap_base t + blen [(8, false)]) by (cbn; lia). unfold buffer at 1.
  apply wp_bind. eapply (wp_free_opened m3 t n [(8, false)] (n - 32) [(0, false)]); [|exact Ho|].
  { cbn [blen last_flag]. by replace (heap_base t + (8 + 8 + 0)) with (heap_base t + 16) by lia. }
  change (a_free [(8, false)] (n - 32) [(0, false)]) with [(8, false); (n - 32, true); (0, false)].
  intros m4 F4 Hok4 Hch4. apply wp_bind, wp_tstore; [apply (control_addr t 1); lia|].
  pose proof (heap_area_head _ _ _ _ _ (buffer (heap_base t)) Hok4) as Hok5. pose proof (h_seg _ _ _ _ _ Hok5) as (_ & Hhb & _).
  eapply (wp_blk_size _ _ _ _ _ (n - 32)); [| |destruct Hn8 as (q & Eq & Hq); exists (q - 4); lia|].
  { refine (proj1 (node_size t _ Ht H4 _)). exists 2. cbn [blen]. lia. }
  { cbn [blen]. replace (heap_base t + (8 + 8 + 0)) with (heap_base t + 8 + 8) by lia. exact Hhb. }
  eapply HQ; [exact Hok5|]. apply changes_step; [unfold area_head; lia|]. eapply changes_trans; [exact Hch|].
  eapply changes_mono; [|exact Hch4]. by intros x [Hx _].
Qed.

(** [init_memory_pool] of memory that is not a pool yet makes one free block. *)
Lemma wp_init_memory_pool m t sz (Q : Z -> tlsf_state -> Prop) mp :
  0 < t -> t mod 4 = 0 -> sizeof_tlsf + BHDR_OVERHEAD * 8 <= sz < 2 ^ 30 -> t + sz + 4 <= 2 ^ 32 ->
  peek m t <> TLSF_SIGNATURE ->
  let n := pool_len sz in
  (forall m' F, heap_ok m' t n [(8, false); (n - 32, true); (0, false)] F ->
     changes (fun x => t <= x < heap_base t + n) m m' -> Q (n - 32) (mk_tlsf m' t)) ->
  wp (init_memory_pool sz t) Q (mk_tlsf m mp).
Proof.
  intros Ht H4 Hsz Htop Hsig n HQ. destruct (pool_len_bounds sz Hsz) as (Hn8 & Hn64 & Hn). fold n in Hn8, Hn64, Hn.
  pose proof (heap_base_eq t) as Eb. change (sizeof_tlsf + BHDR_OVERHEAD * 8) with 3244 in Hsz.
  assert (valid_addr t = true) as Hvt by (apply valid_addr_spec; lia).
  unfold init_memory_pool. change (sizeof_tlsf + BHDR_OVERHEAD * 8) with 3244.
  unfold nz. destruct (Z.eqb_spec t 0); [lia|]. destruct (Z.eqb_spec sz 0); [lia|]. destruct (Z.ltb_spec sz 3244); [lia|].
  assert ((Z.land t PTR_MASK =? 0) = true) as ->.
  { change PTR_MASK with (Z.ones 2). rewrite Z.land_ones by lia. by apply Z.eqb_eq. }
  cbn [negb orb]. apply wp_bind, wp_tload; [done|]. cbn [t_mem]. unfold tlsf_signature.
  destruct (Z.eqb_spec (peek m t) TLSF_SIGNATURE); [done|]. unfold set_mp_to. apply wp_bind, wp_modify. cbn [t_mem].
  apply wp_bind. apply wp_tmem. unfold memset0. change (sizeof_tlsf / 4) with 795. change (sizeof_tlsf mod 4 =? 0) with true. cbv iota.
  apply wp_bind, wp_zero_words; [done..|]. intros m1 Hz1 Hr1. apply wp_ret. change (Z.of_nat (Z.to_nat 795)) with 795 in *.
  apply wp_bind, wp_tstore; [done|].
  assert (GET_NEXT_BLOCK t (ROUNDUP_SIZE sizeof_tlsf) = heap_base t) as ->.
  { unfold GET_NEXT_BLOCK. fold (heap_base t). rewrite u32_small; lia. }
  assert (ROUNDDOWN_SIZE (sz - sizeof_tlsf) = n) as ->.
  { unfold n, pool_len. rewrite rounddown_spec; [done|]. change sizeof_tlsf with 3180. lia. }
  apply wp_first_area; [split; [done|done|lia|lia]|done|done| |].
  - intros x Hx. assert (exists i, 0 < i < 795 /\ x = t + 4 * i) as (i & Hi & ->).
    { tlsf_words. destruct Hx as [[Hx|(fl & Hfl & Hx)]|(c & [Hc1 Hc2] & Hx)];
        [exists 2|exists (3 + fl)|exists (27 + (c.1 * 32 + c.2))]; lia. }
    rewrite peek_insert_ne by lia. apply Hz1. lia.
  - intros m' F Hok Hch. eapply HQ; [exact Hok|]. eapply changes_trans; [|exact Hch].
    apply changes_step; [lia|]. intros x Hx. apply Hr1. lia.
Qed.

(** The memory of a pool of [sz] bytes at [t], just initialized. *)
Definition new_pool (t sz : Z) : gmap Z Z :=
  match init_memory_pool sz t (mk_tlsf ∅ NULL) with Some (_, st) => t_mem st | None => ∅ end.

Lemma new_pool_ok t sz : 0 < t -> t mod 4 = 0 -> sizeof_tlsf + BHDR_OVERHEAD * 8 <= sz < 2 ^ 30 -> t + sz + 4 <= 2 ^ 32 ->
  exists F, heap_ok (new_pool t sz) t (pool_len sz) [(8, false); (pool_len sz - 32, true); (0, false)] F.
Proof.
  intros Ht H4 Hsz Htop.
  assert (wp (init_memory_pool sz t) (fun _ st => exists F, heap_ok (t_mem st) t (pool_len sz) [(8, false); (pool_len sz - 32, true); (0, false)] F)
    (mk_tlsf ∅ NULL)) as Hw by (apply wp_init_memory_pool; [done|done|done|done|done|eauto]).
  unfold new_pool. unfold wp in Hw. by destruct (init_memory_pool sz t _) as [[r st]|].
Qed.
