(* ===== verification/TlsfUse.v ===== *)
(** * The use of a TLSF pool

    The owner of a pool allocates, clears, resizes and releases blocks, and
    writes to the blocks it has. Every operation returns and keeps the pool in
    order: the blocks in use do not overlap and keep their contents, and when
    all are released the pool is one free block again. *)

From Stdlib Require Import ZArith Lia.
From stdpp Require Import base tactics gmap option functions list.
From S2P Require Import Prelude Bits Mem Kstate Tlsf TlsfMap TlsfFree TlsfHeap TlsfAlloc TlsfMalloc TlsfRealloc TlsfPool.

Open Scope Z_scope.
Open Scope kernel_scope.

(** ** The use of a pool *)

(** What the user of a pool does: allocate, release a block or change its size,
    write a word. *)
Inductive pool_op :=
  | PMalloc (sz : Z) | PCalloc (nelem elem_size : Z) | PRealloc (p sz : Z) | PFree (p : Z) | PWrite (x v : Z).

Definition exec_op (t : Z) (o : pool_op) : TM Z :=
  match o with
  | PMalloc sz => malloc_ex sz t
  | PCalloc nelem elem_size => calloc_ex nelem elem_size t
  | PRealloc p sz => realloc_ex p sz t
  | PFree p => free_ex p t ;;; ret 0
  | PWrite x v => mem (store x v) ;;; ret 0
  end.

(** [live] has the blocks the user owns, with the sizes it asked for. It
    releases, resizes and writes only these. *)
Definition legal (live : gmap Z Z) (o : pool_op) : Prop :=
  match o with
  | PMalloc sz => 0 <= sz <= 2 ^ 29
  | PCalloc nelem elem_size => 0 <= nelem /\ 0 <= elem_size /\ nelem * elem_size <= 2 ^ 29
  | PRealloc p sz => (p = NULL \/ is_Some (live !! p)) /\ 0 <= sz <= 2 ^ 29
  | PFree p => p = NULL \/ is_Some (live !! p)
  | PWrite x v => x mod 4 = 0 /\ exists p z, live !! p = Some z /\ p <= x /\ x + 4 <= p + z
  end.

(** The blocks the user owns when the operation returned [r]. *)
Definition effect (live : gmap Z Z) (o : pool_op) (r : Z) : gmap Z Z :=
  match o with
  | PMalloc sz => if r =? NULL then live else <[r := sz]> live
  | PCalloc nelem elem_size => if r =? NULL then live else <[r := nelem * elem_size]> live
  | PRealloc p sz => if r =? NULL then (if sz =? 0 then delete p live else live) else <[r := sz]> (delete p live)
  | PFree p => delete p live
  | PWrite _ _ => live
  end.

(** The memory and the blocks in use after any number of operations. *)
Inductive used_by (t : Z) (m0 : gmap Z Z) : gmap Z Z -> gmap Z Z -> Prop :=
  | used_none : used_by t m0 m0 ∅
  | used_op m live o r m' mp :
      used_by t m0 m live -> legal live o -> exec_op t o (mk_tlsf m t) = Some (r, mk_tlsf m' mp) ->
      used_by t m0 m' (effect live o r).

(** The blocks in use behind address [a] are those of [live]. *)
Record matches (a : Z) (L : blocks) (live : gmap Z Z) : Prop := {
  ma_block : forall p z, live !! p = Some z -> exists s, (p - 8, s, false) ∈ at_ a L /\ z <= s /\ 8 <= s;
  ma_live : forall b s, (b, s, false) ∈ at_ a L -> 8 <= s -> is_Some (live !! (b + 8))
}.

Definition pool_inv (m : gmap Z Z) (t n : Z) (live : gmap Z Z) : Prop :=
  exists L F, heap_ok m t n ((8, false) :: L) F /\ matches (heap_base t + 16) L live.

Lemma matches_more a L L' live p sz s :
  nonneg L -> (forall b x, (b, x, false) ∈ at_ a L' <-> (b, x, false) ∈ at_ a L \/ (b = p - 8 /\ x = s)) ->
  (exists s0, (p - 8, s0, true) ∈ at_ a L) -> sz <= s -> 8 <= s ->
  matches a L live -> matches a L' (<[p := sz]> live).
Proof.
  intros Hn HL (s0 & Hfree) Hsz Hs [H1 H2]. split.
  - intros q z. rewrite lookup_insert_Some. intros [[<- <-]|[Hne Hq]].
    + exists s. split; [apply HL; by right|done].
    + destruct (H1 q z Hq) as (x & Hx & ?). exists x. split; [apply HL; by left|done].
  - intros b x Hin Hx. apply HL in Hin as [Hin|[-> ->]].
    + rewrite lookup_insert_ne; [by eapply H2|]. intros ->.
      replace (b + 8 - 8) with b in Hfree by lia. destruct (at_disjoint _ _ _ _ _ _ _ _ Hn Hin Hfree) as [[=]|Hd].
      apply at_bounds in Hfree; [lia|done].
    + replace (p - 8 + 8) with p by lia. rewrite lookup_insert_eq. done.
Qed.

Lemma matches_less a L L' live p s :
  nonneg L -> (forall b x, (b, x, false) ∈ at_ a L' <-> (b, x, false) ∈ at_ a L /\ b <> p - 8) ->
  (p - 8, s, false) ∈ at_ a L -> matches a L live -> matches a L' (delete p live).
Proof.
  intros Hn HL Hp [H1 H2]. split.
  - intros q z. rewrite lookup_delete_Some. intros [Hne Hq]. destruct (H1 q z Hq) as (x & Hx & ?). exists x.
    split; [apply HL; split; [done|lia]|done].
  - intros b x Hin Hx. apply HL in Hin as [Hin Hne]. rewrite lookup_delete_ne by lia. by eapply H2.
Qed.

Lemma take_used a l1 r s l2 b x :
  (b, x, false) ∈ at_ a (l1 ++ a_take r s l2) <->
  (b, x, false) ∈ at_ a (l1 ++ (s, true) :: l2) \/ (b = a + blen l1 /\ x = if 16 <=? s - r then r else s).
Proof.
  unfold a_take. rewrite !at_app, !elem_of_app. destruct (16 <=? s - r); cbn [at_]; rewrite !elem_of_cons.
  - replace (a + blen l1 + 8 + r + 8 + (s - r - 8)) with (a + blen l1 + 8 + s) by lia. naive_solver.
  - naive_solver.
Qed.

Lemma absorb_used a s l b x : (b, x, false) ∈ at_ (a + 8 + (absorb s l).1) (absorb s l).2 <-> (b, x, false) ∈ at_ (a + 8 + s) l.
Proof.
  destruct l as [|[s' []] l]; cbn [absorb fst snd at_]; [done| |done]. rewrite elem_of_cons.
  replace (a + 8 + (s + s' + 8)) with (a + 8 + s + 8 + s') by lia. intuition congruence.
Qed.

(** The blocks in use after a release. *)
Lemma free_used a l1 s l2 b x :
  (b, x, false) ∈ at_ a (a_free l1 s l2) <-> (b, x, false) ∈ at_ a l1 \/ (b, x, false) ∈ at_ (a + blen l1 + 8 + s) l2.
Proof.
  rewrite <- (absorb_used _ s l2). unfold a_free. destruct (absorb s l2) as [s1 l3]. cbn [fst snd].
  destruct l1 as [|[s0 f0] l1 _] using rev_ind.
  - change (absorb_front [] s1) with (([] : blocks), s1). cbn [app at_ blen]. rewrite elem_of_cons, elem_of_nil, Z.add_0_r. intuition congruence.
  - rewrite absorb_front_snoc. destruct f0; rewrite !at_app, !elem_of_app, ?blen_app; cbn [at_ blen]; rewrite ?elem_of_cons, ?elem_of_nil.
    + replace (a + (blen l1 + (8 + s0 + 0)) + 8 + s1) with (a + blen l1 + 8 + (s0 + s1 + 8)) by lia. intuition congruence.
    + intuition congruence.
Qed.

Lemma free_cons s0 l1 s l2 : a_free ((s0, false) :: l1) s l2 = (s0, false) :: a_free l1 s l2.
Proof.
  unfold a_free. destruct (absorb s l2) as [s1 l3]. destruct l1 as [|[s' f'] l1 _] using rev_ind; [done|].
  rewrite (app_comm_cons l1), !absorb_front_snoc. by destruct f'.
Qed.

(** The words of the blocks that stay in use keep their contents. *)
Definition keeps_live (live live' : gmap Z Z) (o : pool_op) (m m' : gmap Z Z) : Prop :=
  forall p z x, live !! p = Some z -> live' !! p = Some z -> p <= x < p + z -> (forall v, o <> PWrite x v) -> peek m' x = peek m x.

(** A block that is given out was not in use, unless it keeps its place. *)
Definition fresh (live : gmap Z Z) (o : pool_op) (r : Z) : Prop :=
  match o with
  | PMalloc _ | PCalloc _ _ => r = NULL \/ live !! r = None
  | PRealloc p _ => r = NULL \/ r = p \/ live !! r = None
  | PFree _ | PWrite _ _ => True
  end.

(** The contents of the block that is returned: the bytes of a cleared one are
    zero, and those of a resized one are the old ones as far as both go. *)
Definition gives (live : gmap Z Z) (o : pool_op) (m : gmap Z Z) (r : Z) (m' : gmap Z Z) : Prop :=
  match o with
  | PCalloc nelem elem_size => r <> NULL -> forall i, 0 <= i < nelem * elem_size -> i mod 4 = 0 ->
      Z.land (peek m' (r + i)) (Z.ones (8 * Z.min 4 (nelem * elem_size - i))) = 0
  | PRealloc p sz => r <> NULL -> forall z i, live !! p = Some z -> 0 <= i < Z.min z sz -> i mod 4 = 0 ->
      peek m' (r + i) = peek m (p + i)
  | _ => True
  end.

(** What an operation leaves. *)
Definition op_done (t n : Z) (live : gmap Z Z) (o : pool_op) (m : gmap Z Z) (r : Z) (m' : gmap Z Z) : Prop :=
  pool_inv m' t n (effect live o r) /\ keeps_live live (effect live o r) o m m' /\ fresh live o r /\ gives live o m r m'.

(** The blocks of [live] keep their contents. *)
Definition holds (live m m' : gmap Z Z) : Prop := forall p z x, live !! p = Some z -> p <= x < p + z -> peek m' x = peek m x.

Lemma matches_used t L live p z x : matches (heap_base t + 16) L live -> live !! p = Some z -> p <= x < p + z ->
  used (heap_base t) ((8, false) :: L) x.
Proof.
  intros [H1 _] Hp Hx. destruct (H1 p z Hp) as (s & Hin & Hz & _). exists (p - 8), s. split; [|lia].
  cbn [at_]. right. by replace (heap_base t + 8 + 8) with (heap_base t + 16) by lia.
Qed.

Lemma matches_fresh a L live p s0 : nonneg L -> matches a L live -> (p - 8, s0, true) ∈ at_ a L -> live !! p = None.
Proof.
  intros Hn Hm Hin. destruct (live !! p) as [z|] eqn:E; [|done]. destruct (ma_block _ _ _ Hm p z E) as (s & Hin' & _).
  by destruct (at_unique _ _ _ _ _ _ _ Hn Hin Hin').
Qed.

(** [malloc_ex]: NULL, or a block that was not in use. *)
Lemma pool_malloc m t n live sz (Q : Z -> tlsf_state -> Prop) : pool_inv m t n live -> 0 <= sz <= 2 ^ 29 ->
  Q NULL (mk_tlsf m t) ->
  (forall p m', p <> NULL -> live !! p = None -> pool_inv m' t n (<[p := sz]> live) -> holds live m m' -> Q p (mk_tlsf m' t)) ->
  wp (malloc_ex sz t) Q (mk_tlsf m t).
Proof.
  intros (L & F & Hok & Hm) Hsz Hnull HQ. destruct (adjust_small sz Hsz) as [Hmax _]. destruct (search_at_least sz Hsz) as [Hr Hr8].
  pose proof (ending_nonneg _ (h_end _ _ _ _ _ Hok)) as [_ Hn]%nonneg_head. pose proof (h_arena _ _ _ _ _ Hok) as [Ht _ _ _].
  eapply wp_malloc_ex; [exact Hok|lia|exact Hmax|lia|done|].
  intros l1 s l2 m' F' El Hs Hok' Hch. destruct l1 as [|b0 l1]; [discriminate|]. injection El as <- ->. cbn [blen].
  pose proof (blen_nonneg _ Hn) as Hbn. assert (0 <= blen l1) by (apply blen_nonneg; by apply Forall_app in Hn as [? _]).
  pose proof (heap_base_eq t) as Eb. set (p := heap_base t + (8 + 8 + blen l1) + 8).
  assert ((p - 8, s, true) ∈ at_ (heap_base t + 16) (l1 ++ (s, true) :: l2)) as Hfree.
  { unfold p. replace (heap_base t + (8 + 8 + blen l1) + 8 - 8) with (heap_base t + 16 + blen l1) by lia. rewrite at_app, elem_of_app. right. left. }
  apply HQ; [unfold NULL, p; lia|by eapply matches_fresh| |].
  - exists (l1 ++ a_take (MAPPING_SEARCH (adjust sz)).1.1 s l2), F'. split; [exact Hok'|].
    eapply (matches_more _ (l1 ++ (s, true) :: l2) _ live _ sz (if 16 <=? s - (MAPPING_SEARCH (adjust sz)).1.1 then (MAPPING_SEARCH (adjust sz)).1.1 else s));
      [done| |by exists s|destruct (16 <=? _); lia|destruct (16 <=? _); lia|exact Hm].
    intros b x. rewrite take_used. unfold p. by replace (heap_base t + (8 + 8 + blen l1) + 8 - 8) with (heap_base t + 16 + blen l1) by lia.
  - intros q z x Hq Hx. apply Hch. intros [_ Hu]. apply Hu. by eapply matches_used.
Qed.

Lemma pool_not_null m t n live : pool_inv m t n live -> live !! NULL = None.
Proof.
  intros (L & F & Hok & Hm). pose proof (ending_nonneg _ (h_end _ _ _ _ _ Hok)) as [_ Hn]%nonneg_head.
  pose proof (h_arena _ _ _ _ _ Hok) as [Ht _ _ _]. pose proof (heap_base_eq t). destruct (live !! NULL) as [z|] eqn:E; [|done].
  destruct (ma_block _ _ _ Hm _ _ E) as (s & Hin & _). apply at_bounds in Hin; [unfold NULL in *; lia|done].
Qed.

(** A block in use, among the blocks of the pool. *)
Lemma pool_block m t n L F live p z : heap_ok m t n ((8, false) :: L) F -> matches (heap_base t + 16) L live -> live !! p = Some z ->
  exists l1 s l2, L = l1 ++ (s, false) :: l2 /\ p = heap_base t + blen ((8, false) :: l1) + 8 /\ z <= s /\ 8 <= s.
Proof.
  intros Hok Hm Hz. destruct (ma_block _ _ _ Hm p z Hz) as (s & Hin & Hzs & Hs). destruct (at_split _ _ _ _ _ Hin) as (l1 & l2 & -> & Ep).
  exists l1, s, l2. cbn [blen]. split_and!; [done|lia..].
Qed.

Lemma pool_free m t n live p (Q : unit -> tlsf_state -> Prop) : pool_inv m t n live -> p = NULL \/ is_Some (live !! p) ->
  (forall m', pool_inv m' t n (delete p live) -> holds (delete p live) m m' -> Q tt (mk_tlsf m' t)) ->
  wp (free_ex p t) Q (mk_tlsf m t).
Proof.
  intros Hinv Hp HQ. destruct Hp as [->|[z Hz]].
  { apply wp_ret. apply HQ; [|done]. rewrite delete_id; [done|by eapply pool_not_null]. }
  destruct Hinv as (L & F & Hok & Hm). destruct (pool_block _ _ _ _ _ _ _ _ Hok Hm Hz) as (l1 & s & l2 & -> & Ep & _ & Hs).
  pose proof (ending_nonneg _ (h_end _ _ _ _ _ Hok)) as [_ Hn]%nonneg_head. rewrite Ep at 1.
  eapply (wp_free_ex m t n ((8, false) :: l1) s l2 F); [exact Hok|done|]. rewrite free_cons. intros m' F' Hok' Hch. cbn [blen] in Ep.
  assert (p - 8 = heap_base t + 16 + blen l1) as Ep' by lia. assert (matches (heap_base t + 16) (a_free l1 s l2) (delete p live)) as Hm'.
  { eapply (matches_less _ (l1 ++ (s, false) :: l2)); [done| | |exact Hm].
    - intros b x. rewrite free_used, at_app, elem_of_app, Ep'. cbn [at_]. rewrite elem_of_cons.
      apply Forall_app in Hn as [Hn1 [_ Hn2]%nonneg_head]. split.
      + intros [Hb|Hb]; (split; [tauto|]); apply at_bounds in Hb; try done; lia.
      + intros [[Hb|[[= -> ->]|Hb]] Hne]; [by left|done|by right].
    - rewrite Ep', at_app, elem_of_app. right. left. }
  apply HQ; [by exists (a_free l1 s l2), F'|]. intros q y x Hq Hx. apply Hch. intros [_ Hu]. apply Hu. by eapply matches_used.
Qed.

(** The contents of a block in use can be anything. *)
Lemma pool_write m m' t n live p z : pool_inv m t n live -> live !! p = Some z -> changes (fun x => p <= x < p + z) m m' -> pool_inv m' t n live.
Proof.
  intros (L & F & Hok & Hm) Hp Hch. exists L, F. split; [|done]. pose proof Hok as [Ha Hlen He _ _ Hl HF]. pose proof (ending_nonneg _ He) as Hn.
  pose proof (blen_nonneg _ Hn). eapply heap_frame; [exact Hok|]. intros y Hy. apply Hch. intros Hx.
  assert (own t n ((8, false) :: L) y) as [_ Hnu]; [|by eapply Hnu, matches_used]. destruct Hy as [Hy|Hy].
  - apply own_hdr; [done|lia|done|done].
  - eapply own_list; [done|apply Ha|lia|done| |exact Hy]. by eapply filed_free.
Qed.

(** A block in use may be used for less. *)
Lemma pool_shrink m t n live p z z' : pool_inv m t n live -> live !! p = Some z -> z' <= z -> pool_inv m t n (<[p := z']> live).
Proof.
  intros (L & F & Hok & [H1 H2]) Hp Hz. exists L, F. split; [done|]. split.
  - intros q y. rewrite lookup_insert_Some. intros [[<- <-]|[_ Hq]]; [|by apply H1].
    destruct (H1 _ _ Hp) as (s & Hin & ? & ?). exists s. split; [done|lia].
  - intros b s Hin Hs. rewrite lookup_insert. case_decide; [done|]. by eapply H2.
Qed.

(** ** What the order of a pool means to its user *)

(** A new pool has no block in use. *)
Lemma new_pool_inv m t n F : heap_ok m t n [(8, false); (n - 32, true); (0, false)] F -> pool_inv m t n ∅.
Proof.
  intros Hok. exists [(n - 32, true); (0, false)], F. split; [done|]. split.
  - intros p z. by rewrite lookup_empty.
  - intros b s. cbn [at_]. rewrite !elem_of_cons, elem_of_nil. intros [[=]|[[= -> ->]|[]]]. lia.
Qed.

Lemma live_inside m t n live p z : pool_inv m t n live -> live !! p = Some z ->
  node t (p - 8) /\ heap_base t <= p - 24 /\ p + z + 8 <= heap_base t + n.
Proof.
  intros (L & F & Hok & Hm) Hp. destruct (ma_block _ _ _ Hm p z Hp) as (s & Hin & Hz & Hs). pose proof Hok as [_ Hlen He _ _ _ _].
  pose proof (ending_nonneg _ He) as Hn. destruct (nonneg_head _ _ _ Hn) as [_ HnL].
  destruct He as ([|b0 l'] & E & Hl'); [discriminate|]. injection E as <- ->. cbn [blen] in Hlen. rewrite blen_app in Hlen. cbn [blen] in Hlen.
  assert ((p - 8, s, false) ∈ at_ (heap_base t) ((8, false) :: l' ++ [(0, false)])) as Hin'.
  { cbn [at_]. right. by replace (heap_base t + 8 + 8) with (heap_base t + 16) by lia. }
  split; [by eapply at_node; [apply (h_end _ _ _ _ _ Hok)|]|].
  rewrite at_app, elem_of_app in Hin. destruct Hin as [Hin|Hin].
  - apply at_bounds in Hin; [lia|]. by apply Forall_app in HnL as [? _].
  - cbn [at_] in Hin. apply list_elem_of_singleton in Hin as [= ? ?]. lia.
Qed.

Lemma live_disjoint m t n live p z q y : pool_inv m t n live -> live !! p = Some z -> live !! q = Some y -> p <> q ->
  p + z <= q \/ q + y <= p.
Proof.
  intros (L & F & Hok & Hm) Hp Hq Hne. destruct (ma_block _ _ _ Hm p z Hp) as (s & Hin & Hz & _).
  destruct (ma_block _ _ _ Hm q y Hq) as (s' & Hin' & Hy & _).
  pose proof (ending_nonneg _ (h_end _ _ _ _ _ Hok)) as [_ Hn]%nonneg_head.
  destruct (at_disjoint _ _ _ _ _ _ _ _ Hn Hin Hin') as [E|Hd]; [|lia]. injection E as E _. lia.
Qed.

(** Free blocks without a block in use between them are one block. *)
Lemma all_free l pf : sparse pf l -> Forall (fun b => b.2 = true) l -> l = [] \/ exists s, pf = false /\ l = [(s, true)].
Proof.
  intros Hsp Hf. destruct Hf as [|[s f] l Hf Hl]; [by left|]. right. cbn in Hf. subst f. exists s.
  destruct Hsp as [Hpf Hsp]. rewrite andb_true_r in Hpf. split; [done|].
  destruct Hl as [|[s' f'] l Hf' Hl]; [done|]. cbn in Hf'. subst f'. by destruct Hsp as [[=] _].
Qed.

Lemma pool_empty m t n : 64 <= n -> pool_inv m t n ∅ -> exists F, heap_ok m t n [(8, false); (n - 32, true); (0, false)] F.
Proof.
  intros Hn64 (L & F & Hok & [_ Hm]). exists F. pose proof Hok as [_ Hlen He Hsp _ _ _].
  destruct He as ([|b0 l] & E & Hl); [discriminate|]. injection E as <- ->. apply Forall_cons in Hl as [_ Hl].
  destruct Hsp as [_ Hsp]. apply sparse_app in Hsp as [Hsp _].
  assert (Forall (fun b => b.2 = true) l) as Hf.
  { apply Forall_forall. intros [s f] Hin. destruct f; [done|]. exfalso.
    apply list_elem_of_split in Hin as (k1 & k2 & ->). destruct (Hm (heap_base t + 16 + blen k1) s) as [z Hz].
    - rewrite !at_app, !elem_of_app. left. right. left.
    - apply Forall_app in Hl as [_ [[_ ?] _]%Forall_cons]. done.
    - by rewrite lookup_empty in Hz. }
  destruct (all_free _ _ Hsp Hf) as [->|(s & _ & ->)]; cbn in Hlen; [lia|].
  replace s with (n - 32) in Hok by lia. exact Hok.
Qed.

(** ** realloc_ex and calloc_ex in a pool *)

Lemma realloc_takes r s l2 l : nonneg l2 -> a_realloc r s l2 = Some l ->
  l = a_take r (absorb s l2).1 (absorb s l2).2 /\ r <= (absorb s l2).1.
Proof.
  unfold a_realloc. intros Hn. destruct (Z.leb_spec r s) as [Hle|Hgt].
  - intros [= <-]. split; [done|]. destruct l2 as [|[s' []] l2]; cbn [absorb fst]; [done| |done]. apply nonneg_head in Hn as [? _]. lia.
  - destruct l2 as [|[s' []] l2]; [done| |done]. destruct (Z.leb_spec r (s + s')); [|done]. intros [= <-]. cbn [absorb fst snd]. split; [done|lia].
Qed.

(** The blocks in use after a block was resized in its place. *)
Lemma realloc_used a l1 r s l2 l : nonneg (l1 ++ (s, false) :: l2) -> a_realloc r s l2 = Some l -> exists s', r <= s' /\ forall b x,
  (b, x, false) ∈ at_ a (l1 ++ l) <-> ((b, x, false) ∈ at_ a (l1 ++ (s, false) :: l2) /\ b <> a + blen l1) \/ (b = a + blen l1 /\ x = s').
Proof.
  intros [Hn1 [Hs Hn2]%nonneg_head]%Forall_app Ha. destruct (realloc_takes _ _ _ _ Hn2 Ha) as [-> Hr].
  set (S := (absorb s l2).1) in *. exists (if 16 <=? S - r then r else S). split; [by destruct (16 <=? _)|]. intros b x.
  pose proof (take_used a l1 r S (absorb s l2).2 b x) as Ht. rewrite Ht. rewrite !at_app, !elem_of_app. cbn [at_]. rewrite !elem_of_cons.
  unfold S at 2. rewrite absorb_used. split.
  - intros [[Hb|[[=]|Hb]]|?]; [left|left|by right]; (split; [tauto|]); apply at_bounds in Hb; try done; lia.
  - intros [[[Hb|[[= -> ->]|Hb]] Hne]|?]; [by left; left|done|left; by right; right|by right].
Qed.

Lemma matches_resize a L L' live p sz s' : matches a L live ->
  (forall b x, (b, x, false) ∈ at_ a L' <-> ((b, x, false) ∈ at_ a L /\ b <> p - 8) \/ (b = p - 8 /\ x = s')) ->
  sz <= s' -> 8 <= s' -> matches a L' (<[p := sz]> live).
Proof.
  intros [H1 H2] HL Hsz Hs. split.
  - intros q z. rewrite lookup_insert_Some. intros [[<- <-]|[Hne Hq]]; [exists s'; split; [apply HL; by right|done]|].
    destruct (H1 q z Hq) as (x & Hx & ?). exists x. split; [apply HL; left; split; [done|lia]|done].
  - intros b x Hin Hx. rewrite lookup_insert. case_decide; [done|]. apply HL in Hin as [[Hin _]|[-> ->]]; [by eapply H2|lia].
Qed.

(** The common part of every block keeps its contents. *)
Definition holds2 (live live' m m' : gmap Z Z) : Prop :=
  forall p z y x, live !! p = Some z -> live' !! p = Some y -> p <= x < p + Z.min z y -> peek m' x = peek m x.

(** [realloc_ex] of a block in use: in its place, or by [realloc_move]. *)
Lemma pool_realloc m t n live p z sz (Q : Z -> tlsf_state -> Prop) : pool_inv m t n live -> live !! p = Some z -> 0 < sz <= 2 ^ 29 ->
  (forall m', pool_inv m' t n (<[p := sz]> live) -> holds2 live (<[p := sz]> live) m m' -> Q p (mk_tlsf m' t)) ->
  wp (realloc_move p (p - 8) (adjust sz) t) Q (mk_tlsf m t) ->
  wp (realloc_ex p sz t) Q (mk_tlsf m t).
Proof.
  intros (L & F & Hok & Hm) Hp Hsz HQ Hmove. destruct (pool_block _ _ _ _ _ _ _ _ Hok Hm Hp) as (l1 & s & l2 & -> & Ep & _ & Hs).
  pose proof (ending_nonneg _ (h_end _ _ _ _ _ Hok)) as [_ Hn]%nonneg_head. destruct (adjust_spec sz) as (_ & H8 & Ha); [lia..|].
  rewrite Ep at 1. apply (wp_realloc_ex m t n ((8, false) :: l1) s l2 F sz); [exact Hok|done|done| |].
  - rewrite <- Ep. intros l m' F' El Hok' Hch. destruct (realloc_used (heap_base t + 16) l1 _ _ _ _ Hn El) as (s' & Hs' & Hu).
    assert (heap_base t + 16 + blen l1 = p - 8) as Eb by (rewrite Ep; cbn [blen]; lia). rewrite Eb in Hu.
    assert (matches (heap_base t + 16) (l1 ++ l) (<[p := sz]> live)) as Hm' by (eapply matches_resize; [exact Hm|exact Hu|lia|lia]).
    apply HQ; [by exists (l1 ++ l), F'|]. intros q y y' x Hq Hq' Hx. apply Hch.
    intros [[_ Hno]|[_ Hno]]; apply Hno; [by eapply (matches_used t _ live q y); [..|lia]|].
    by eapply (matches_used t _ _ q y' x Hm'); [|lia].
  - intros _. rewrite <- Ep. by replace (heap_base t + blen ((8, false) :: l1)) with (p - 8) by lia.
Qed.

Lemma wp_copy_words d s k m (Q : unit -> gmap Z Z -> Prop) : 0 < d -> d mod 4 = 0 -> 0 < s -> s mod 4 = 0 ->
  (forall m', changes (fun x => d <= x < d + 4 * Z.of_nat k) m m' ->
     (forall i, 0 <= i < Z.of_nat k -> ~ (d <= s + 4 * i < d + 4 * Z.of_nat k) -> peek m' (d + 4 * i) = peek m (s + 4 * i)) -> Q tt m') ->
  wp (copy_words d s k) Q m.
Proof.
  revert d s m. induction k as [|k IH]; intros d s m Hd Hd4 Hs Hs4 HQ; cbn [copy_words].
  - apply wp_ret, HQ; [apply changes_refl|lia].
  - apply wp_bind, wp_load; [apply valid_addr_spec; lia|]. apply wp_bind, wp_store; [apply valid_addr_spec; lia|].
    apply IH; [lia|by rewrite Zplus_mod, Hd4|lia|by rewrite Zplus_mod, Hs4|]. intros m' Hch Hc. apply HQ.
    + intros x Hx. rewrite Hch by lia. apply peek_insert_ne. lia.
    + intros i Hi Hno. destruct (decide (i = 0)) as [->|].
      * rewrite Hch by lia. rewrite Z.mul_0_r, !Z.add_0_r. apply peek_insert_eq.
      * replace (d + 4 * i) with (d + 4 + 4 * (i - 1)) by lia. rewrite Hc by lia.
        replace (s + 4 + 4 * (i - 1)) with (s + 4 * i) by lia. apply peek_insert_ne. lia.
Qed.

(** The size in the header of a block in use. *)
Lemma pool_blk_size m t n live p z (Q : Z -> tlsf_state -> Prop) mp : pool_inv m t n live -> live !! p = Some z ->
  (forall s, size8 s -> z <= s -> Q s (mk_tlsf m mp)) -> wp (blk_size (p - 8)) Q (mk_tlsf m mp).
Proof.
  intros (L & F & Hok & Hm) Hp HQ. destruct (pool_block _ _ _ _ _ _ _ _ Hok Hm Hp) as (l1 & s & l2 & -> & Ep & Hz & Hs).
  pose proof Hok as [[Ht H4 _ _] _ He _ Hg _ _]. rewrite app_comm_cons in He, Hg. apply seg_app in Hg as [_ [Hh _]].
  assert (p - 8 = heap_base t + blen ((8, false) :: l1)) as -> by lia.
  assert ((heap_base t + blen ((8, false) :: l1), s, false) ∈ at_ (heap_base t) (((8, false) :: l1) ++ (s, false) :: l2)) as Hin.
  { rewrite at_app, elem_of_app. right. left. }
  destruct (node_size t _ Ht H4 (at_node _ _ _ _ _ He Hin)) as [Hv _]. destruct (at_size8 _ _ _ _ _ He Hin) as [Hs8 _].
  eapply wp_blk_size; [done|exact Hh|done|auto].
Qed.

Lemma live_aligned m t n live p z : pool_inv m t n live -> live !! p = Some z -> 0 < p /\ p mod 4 = 0.
Proof.
  intros Hinv Hp. pose proof Hinv as (L & F & [[Ht H4 _ _] _ _ _ _ _ _] & _). pose proof (heap_base_eq t) as Eb.
  destruct (live_inside _ _ _ _ _ _ Hinv Hp) as ((k & Ek & Hk) & _). split; [lia|].
  replace p with (t + (798 + 2 * k) * 4) by lia. by rewrite Z.mod_add.
Qed.

(** [ptr_aux = malloc_ex(new_size); memcpy; free_ex(ptr)] *)
Lemma pool_move m t n live p z sz (Q : Z -> tlsf_state -> Prop) : pool_inv m t n live -> live !! p = Some z -> 0 < sz <= 2 ^ 29 ->
  Q NULL (mk_tlsf m t) ->
  (forall q m', q <> NULL -> live !! q = None -> pool_inv m' t n (<[q := sz]> (delete p live)) -> holds (delete p live) m m' ->
     (forall i, 0 <= i < Z.min z sz -> i mod 4 = 0 -> peek m' (q + i) = peek m (p + i)) -> Q q (mk_tlsf m' t)) ->
  wp (realloc_move p (p - 8) (adjust sz) t) Q (mk_tlsf m t).
Proof.
  intros Hinv Hp Hsz Hnull HQ. destruct (adjust_spec sz) as (Hr8 & Hr & Ha); [lia..|]. pose proof (adjust_le sz ltac:(lia)) as Hmax.
  set (r := adjust sz) in *. apply wp_bind, (pool_malloc m t n live); [done|lia|by apply wp_ret|].
  intros q m1 Hq Hqn Hinv1 Hh1. unfold nz. destruct (Z.eqb_spec q 0); [done|]. cbn [negb].
  assert (q <> p) as Hqp by congruence. assert (<[q := r]> live !! p = Some z) as Hp1 by (by rewrite lookup_insert_ne).
  assert (<[q := r]> live !! q = Some r) as Hq1 by apply lookup_insert_eq.
  apply wp_bind. eapply pool_blk_size; [exact Hinv1|exact Hp1|]. intros s Hs8 Hzs.
  set (cp := if s >? r then r else s). assert (cp <= r /\ Z.min z sz <= cp /\ cp mod 4 = 0) as (Hcr & Hcz & Hc4).
  { assert (forall x, size8 x -> x mod 4 = 0) as H4.
    { intros x (k & -> & _). replace (8 * k) with (2 * k * 4) by lia. by apply Z.mod_mul. }
    unfold cp. rewrite Z.gtb_ltb. destruct (Z.ltb_spec r s); split_and!; (lia || auto). }
  assert (0 <= cp) as Hc0 by (unfold cp; destruct (s >? r); [lia|]; destruct Hs8 as (k & -> & ?); lia).
  destruct (live_aligned _ _ _ _ _ _ Hinv1 Hp1) as [Hp0 Hp4]. destruct (live_aligned _ _ _ _ _ _ Hinv1 Hq1) as [Hq0 Hq4].
  pose proof (Z.div_exact cp 4 ltac:(lia)) as [_ Ecp]. specialize (Ecp Hc4).
  apply wp_bind, wp_tmem, wp_copy_words; [done..|]. rewrite Z2Nat.id by (apply Z.div_pos; lia). rewrite <- Ecp. intros m2 Hch2 Hc2.
  assert (pool_inv m2 t n (<[q := r]> live)) as Hinv2.
  { eapply pool_write; [exact Hinv1|exact Hq1|]. eapply changes_mono; [|exact Hch2]. cbn beta. lia. }
  apply wp_bind. eapply pool_free; [exact Hinv2|right; by rewrite Hp1|]. intros m3 Hinv3 Hh3. apply wp_ret.
  rewrite delete_insert_ne in Hinv3, Hh3 by done. apply HQ; [done|done| | |].
  - rewrite <- (insert_insert_eq (delete p live) q sz r). eapply pool_shrink; [exact Hinv3|apply lookup_insert_eq|lia].
  - intros a y x Hy Hx. pose proof Hy as [Hap Hy']%lookup_delete_Some.
    assert (a <> q) as Haq by congruence. rewrite (Hh3 a y) by (by rewrite ?lookup_insert_ne).
    rewrite Hch2; [by eapply Hh1|]. destruct (live_disjoint _ _ _ _ a y q r Hinv1) as [?|?]; [by rewrite lookup_insert_ne|done..|lia|lia].
  - intros i Hi Hi4. rewrite (Hh3 q r) by (apply lookup_insert_eq || lia). pose proof (Z.div_exact i 4 ltac:(lia)) as [_ Ei]. rewrite (Ei Hi4).
    assert (~ (q <= p + 4 * (i / 4) < q + cp)) as Hno.
    { rewrite <- (Ei Hi4). destruct (live_disjoint _ _ _ _ p z q r Hinv1 Hp1 Hq1 ltac:(done)); lia. }
    rewrite Hc2; [|split; [apply Z.div_pos; lia|apply Z.div_lt_upper_bound; lia]|done]. eapply Hh1; [exact Hp|]. rewrite <- (Ei Hi4). lia.
Qed.

(** [memset(a, 0, k)] clears the bytes and changes no other. *)
Lemma wp_clear_bytes a k m (Q : unit -> gmap Z Z -> Prop) : 0 < a -> a mod 4 = 0 -> 0 <= k ->
  (forall m', changes (fun x => a <= x < a + k) m m' ->
     (forall i, 0 <= i < k -> i mod 4 = 0 -> Z.land (peek m' (a + i)) (Z.ones (8 * Z.min 4 (k - i))) = 0) -> Q tt m') ->
  wp (memset0 a k) Q m.
Proof.
  intros Ha H4 Hk HQ. pose proof (Z.div_mod k 4 ltac:(lia)) as Ek. pose proof (Z.mod_pos_bound k 4 ltac:(lia)) as Hm.
  assert (0 <= k / 4) as Hq by (apply Z.div_pos; lia). set (e := a + 4 * (k / 4)).
  assert (valid_addr e = true) as Hve by (apply valid_addr_spec; split; [unfold e; lia|unfold e; by rewrite (Z.mul_comm 4), Z.mod_add]).
  apply wp_bind, wp_zero_words; [done..|]. rewrite Z2Nat.id by done. intros m1 Hz Hr.
  assert (forall i, 0 <= i -> i mod 4 = 0 -> i < 4 * (k / 4) -> peek m1 (a + i) = 0) as Hz'.
  { intros i Hi Hi4 Hlt. pose proof (Z.div_exact i 4 ltac:(lia)) as [_ Ei]. rewrite (Ei Hi4). apply Hz. lia. }
  destruct (Z.eqb_spec (k mod 4) 0) as [E0|E0].
  - apply wp_ret, HQ.
    + intros x Hx. apply Hr. lia.
    + intros i Hi Hi4. rewrite Hz' by lia. apply Z.land_0_l.
  - fold e. apply wp_bind, wp_load; [done|]. apply wp_store; [done|]. apply HQ.
    + intros x Hx. rewrite peek_insert_ne by (unfold e; lia). apply Hr. lia.
    + intros i Hi Hi4. destruct (decide (i = 4 * (k / 4))) as [->|Hne].
      * fold e. rewrite peek_insert_eq, Z.min_r by lia. replace (k - 4 * (k / 4)) with (k mod 4) by lia.
        rewrite <- Z.land_assoc. assert (k mod 4 = 1 \/ k mod 4 = 2 \/ k mod 4 = 3) as [->|[->| ->]] by lia; apply Z.land_0_r.
      * assert (i < 4 * (k / 4)) as Hlt.
        { pose proof (Z.div_exact i 4 ltac:(lia)) as [_ Ei]. specialize (Ei Hi4). lia. }
        rewrite peek_insert_ne by (unfold e; lia). rewrite Hz' by (done || lia). apply Z.land_0_l.
Qed.

(** ** Any operation *)

Lemma op_realloc m t n live p sz : pool_inv m t n live -> legal live (PRealloc p sz) ->
  wp (realloc_ex p sz t) (fun r st' => exists m', st' = mk_tlsf m' t /\ op_done t n live (PRealloc p sz) m r m') (mk_tlsf m t).
Proof.
  intros Hinv [Hp Hsz]. destruct (decide (p = NULL)) as [->|Hpn].
  { pose proof (pool_not_null _ _ _ _ Hinv) as Hnn. unfold op_done. cbn [effect fresh gives]. rewrite (delete_id live NULL Hnn).
    unfold realloc_ex. change (negb (nz NULL)) with true. cbn match. unfold nz. destruct (Z.eqb_spec sz 0) as [->|Hne]; cbn [negb].
    - apply wp_ret. exists m. split; [done|]. split; [done|]. split; [by intros p z x|]. split; [by left|]. intros _ z i E. congruence.
    - apply (pool_malloc m t n live); [done|lia| |].
      + exists m. split; [done|]. split; [done|]. split; [by intros p z x|]. split; [by left|]. intros _ z i E. congruence.
      + intros q m' Hq Hqn Hinv' Hh. exists m'. rewrite (proj2 (Z.eqb_neq q NULL) Hq). split; [done|]. split; [done|].
        split; [intros a z x Ha _ Hx _; by eapply Hh|]. split; [by right; right|]. intros _ z i E. congruence. }
  destruct Hp as [?|[z Hz]]; [done|]. destruct (decide (sz = 0)) as [->|Hne].
  { unfold realloc_ex. unfold nz. destruct (Z.eqb_spec p 0); [done|]. cbn [negb]. change (negb (0 =? 0)) with false. cbn match.
    apply wp_bind, (pool_free m t n live); [done|by right; rewrite Hz|]. intros m' Hinv' Hh. apply wp_ret. exists m'. split; [done|].
    split; [done|]. split; [|by split; [left|intros []]]. intros a y x _ Ha Hx _. by eapply Hh. }
  eapply (pool_realloc m t n live p z); [done|done|lia| |].
  - intros m' Hinv' Hh. exists m'. split; [done|]. unfold op_done. cbn [effect fresh gives]. rewrite (proj2 (Z.eqb_neq p NULL) Hpn).
    rewrite insert_delete_eq. split; [done|]. split; [|split; [by right; left|]].
    + intros a y x Ha Ha' Hx _. by apply (Hh a y y); [..|rewrite Z.min_id].
    + intros _ y i Hy Hi _. assert (y = z) as -> by congruence. apply (Hh p z sz); [done|apply lookup_insert_eq|lia].
  - apply (pool_move m t n live p z sz); [done|done|lia| |].
    + exists m. split; [done|]. unfold op_done. cbn [effect fresh gives]. change (NULL =? NULL) with true. cbn match.
      rewrite (proj2 (Z.eqb_neq sz 0) Hne). split; [done|]. split; [by intros a y x|]. by split; [left|intros []].
    + intros q m' Hq Hqn Hinv' Hh Hcopy. exists m'. split; [done|]. unfold op_done. cbn [effect fresh gives].
      rewrite (proj2 (Z.eqb_neq q NULL) Hq). split; [done|]. split; [|split; [by right; right|]].
      * intros a y x Ha Ha' Hx _. apply (Hh a y); [|done]. rewrite lookup_insert_ne in Ha' by congruence. done.
      * intros _ y i Hy Hi Hi4. assert (y = z) as -> by congruence. by apply Hcopy.
Qed.

Lemma op_calloc m t n live nelem elem_size : pool_inv m t n live -> legal live (PCalloc nelem elem_size) ->
  wp (calloc_ex nelem elem_size t) (fun r st' => exists m', st' = mk_tlsf m' t /\ op_done t n live (PCalloc nelem elem_size) m r m') (mk_tlsf m t).
Proof.
  intros Hinv (Hn & He & Hmax). assert (0 <= nelem * elem_size) as H0 by (by apply Z.mul_nonneg_nonneg). set (sz := nelem * elem_size) in *.
  assert (exists m', mk_tlsf m t = mk_tlsf m' t /\ op_done t n live (PCalloc nelem elem_size) m NULL m') as Hnull.
  { exists m. split; [done|]. split; [done|]. split; [by intros a y x|]. by split; [left|intros []]. }
  unfold calloc_ex. fold sz. rewrite (u32_small sz) by lia. destruct (_ || _); [by apply wp_ret|].
  apply wp_bind, (pool_malloc m t n live); [done|lia|by apply wp_ret|].
  intros q m1 Hq Hqn Hinv1 Hh1. assert (<[q := sz]> live !! q = Some sz) as Hq1 by apply lookup_insert_eq.
  destruct (live_aligned _ _ _ _ _ _ Hinv1 Hq1) as [Hq0 Hq4]. unfold nz. destruct (Z.eqb_spec q 0); [done|]. cbn [negb].
  apply wp_bind, wp_tmem, wp_clear_bytes; [done..|]. intros m2 Hch2 Hz. apply wp_ret. exists m2. split; [done|]. unfold op_done. cbn [effect fresh gives].
  fold sz. rewrite (proj2 (Z.eqb_neq q NULL) Hq). split; [by eapply pool_write|]. split; [|split; [by right|done]].
  intros a y x Ha _ Hx _. assert (a <> q) as Haq by congruence. rewrite Hch2; [by eapply Hh1|].
  destruct (live_disjoint _ _ _ _ a y q sz Hinv1) as [?|?]; [by rewrite lookup_insert_ne|done..|lia|lia].
Qed.

(** An operation returns and keeps the pool in order. *)
Lemma op_returns m t n live o : pool_inv m t n live -> legal live o ->
  wp (exec_op t o) (fun r st' => exists m', st' = mk_tlsf m' t /\ op_done t n live o m r m') (mk_tlsf m t).
Proof.
  intros Hinv Hleg. destruct o as [sz|nelem elem_size|p sz|p|x v]; cbn [exec_op]; [|by apply op_calloc|by apply op_realloc| |].
  - apply (pool_malloc m t n live); [done|done| |].
    + exists m. split; [done|]. split; [done|]. split; [by intros p z x|]. by split; [left|].
    + intros q m' Hq Hqn Hinv' Hh. exists m'. split; [done|]. unfold op_done. cbn [effect fresh gives]. rewrite (proj2 (Z.eqb_neq q NULL) Hq).
      split; [done|]. split; [|by split; [right|]]. intros a z x Ha _ Hx _. by eapply Hh.
  - apply wp_bind, (pool_free m t n live); [done|done|]. intros m' Hinv' Hh. apply wp_ret. exists m'. split; [done|].
    split; [done|]. split; [|done]. intros a z x _ Ha Hx _. by eapply Hh.
  - destruct Hleg as (H4 & p & z & Hp & Hlo & Hhi). destruct (live_aligned _ _ _ _ _ _ Hinv Hp) as [Hp0 _].
    apply wp_bind, wp_tstore; [apply valid_addr_spec; lia|]. apply wp_ret. exists (<[x := v]> m). split; [done|]. split; [|split; [|done]].
    + eapply pool_write; [exact Hinv|exact Hp|]. apply changes_insert. lia.
    + intros q y w _ _ _ Hne. apply peek_insert_ne. intros ->. by eapply Hne.
Qed.

Lemma used_by_inv t n m0 m live : pool_inv m0 t n ∅ -> used_by t m0 m live -> pool_inv m t n live.
Proof.
  intros H0. induction 1 as [|m live o r m' mp _ IH Hleg Hex]; [done|].
  destruct (wp_elim _ _ _ _ _ (op_returns m t n live o IH Hleg) Hex) as (m1 & [= <- _] & Hinv & _). done.
Qed.
