(* ===== verification/KernelHeap.v ===== *)
(** * The system calls that allocate

    The variable-sized memory pools of mempool.c and the creation of tasks, on
    pools in order: with the allocator verified the calls return, and the
    pointer they hand out is a block of the pool. *)

From Stdlib Require Import ZArith Lia.
From stdpp Require Import base tactics gmap option functions countable list.
From S2P Require Import Prelude Bits Queue Qfam Mem Mpool Kstate Tlsf Syslog Sched Timeout Dispatch.
From S2P Require Import Kinv Ktime Waitobj Task Mempool Kernel TlsfMap TlsfFree TlsfHeap TlsfAlloc TlsfMalloc TlsfPool.

Open Scope Z_scope.
Open Scope kernel_scope.

Lemma wp_of_wlp {S A} (m : M S A) (Q : A -> S -> Prop) s : is_Some (m s) -> wlp m Q s -> wp m Q s.
Proof. unfold wp, wlp. by intros [[a s'] ->]. Qed.

Lemma wp_ktlsf {A} (m : TM A) (Q : A -> kstate -> Prop) s :
  wp m (fun a t => Q a (set_k_setup (set_mp (t_mp t) (k_setup s)) (set_k_mem (t_mem t) s))) (mk_tlsf (k_mem s) (mp (k_setup s))) ->
  wp (ktlsf m) Q s.
Proof. unfold wp, ktlsf, zoom. by destruct (m _) as [[a t]|]. Qed.

Lemma wp_get_mpl i s x (Q : mplpool_t -> kstate -> Prop) : mpl_pool (k_mpl s) !! i = Some x -> Q x s -> wp (get_mpl i) Q s.
Proof. intros E HQ. unfold wp, get_mpl, bind, gets, deref. by rewrite E. Qed.

Lemma kinv_set_mem s R W T m : kinv s R W T -> kinv (set_k_mem m s) R W T.
Proof. intros H. eapply kinv_frame; [exact H|apply kinv0_mem, H|done]. Qed.

(** ** get_mpl and rel_mpl *)

Definition bad_mplid (id : Z) : bool := (id <? 1) || (id >? CONFIG_MEM_POOLS).

(** What [malloc_ex] of [sz] bytes in a pool of blocks [L] leaves: the pointer
    and the new blocks. *)
Definition allocated (m m' : gmap Z Z) (t n : Z) (L : blocks) (sz p : Z) : Prop :=
  let r := (MAPPING_SEARCH (adjust sz)).1.1 in
  (p = NULL /\ (forall a s, (a, s, true) ∈ at_ (heap_base t) L -> s < r) /\ exists F, heap_ok m' t n L F) \/
  (exists l1 s l2 F, L = l1 ++ (s, true) :: l2 /\ sz <= r <= s /\ p = heap_base t + blen l1 + 8 /\
     heap_ok m' t n (l1 ++ a_take r s l2) F).

(** A variable of the caller outside the pool. *)
Definition outside (t n p : Z) : Prop := valid_addr p = true /\ (p < t \/ heap_base t + n <= p).

Lemma heap_outside m t n L F p v : heap_ok m t n L F -> outside t n p -> heap_ok (<[p := v]> m) t n L F.
Proof.
  intros Hok [_ Hp]. pose proof Hok as [[Ht _ _ _] Hlen He _ _ _ HF]. pose proof (ending_nonneg _ He) as Hn.
  eapply heap_frame; [exact Hok|]. intros x Hx. apply peek_insert_ne. intros <-.
  assert (own t n L p) as [Ho _]; [|lia]. pose proof (blen_nonneg _ Hn). destruct Hx as [Hx|Hx].
  - apply own_hdr; [done|lia|done|done].
  - eapply own_list; [done|done|lia|done| |exact Hx]. intros a [c Hc]. apply HF in Hc as (s & Hs & _). by exists s.
Qed.

(** [get_mpl] on a pool in order: the parameter checks, and otherwise E_OK with
    a block of at least [sz] bytes, or NULL, in the variable of the caller. *)
Lemma wp_get_mpl_sys s R W T id sz p x n L F :
  kinv s R W T -> mpl_pool (k_mpl s) !! Z.to_nat (id - 1) = Some x -> heap_ok (k_mem s) (mpl_base x) n L F ->
  outside (mpl_base x) n p -> 0 <= sz -> mpl_length x <= 2 ^ 29 ->
  wp (get_mpl_sys id sz p) (fun r s' => kinv s' R W T /\ imask (k_int s') = imask (k_int s) /\
    if bad_mplid id then r = Done E_ID /\ s' = s
    else if sz >? mpl_length x then r = Done E_PAR /\ k_mem s' = k_mem s
    else r = Done E_OK /\ allocated (k_mem s) (k_mem s') (mpl_base x) n L sz (peek (k_mem s') p) /\
      changes (fun y => y = p \/ own (mpl_base x) n L y) (k_mem s) (k_mem s')) s.
Proof.
  intros Hk Hx Hok Hp Hsz Hlen. unfold get_mpl_sys. fold (bad_mplid id). destruct (bad_mplid id); [by apply wp_ret|].
  assert (nz p = true) as ->. { destruct Hp as [Hv _]. unfold valid_addr in Hv. by apply andb_true_iff in Hv as [? _]. }
  cbn [negb]. apply wp_bind, wp_cli, wp_bind. eapply wp_get_mpl; [exact Hx|].
  destruct (Z.gtb_spec sz (mpl_length x)).
  { apply wp_bind, wp_sti, wp_ret. split; [by apply kinv_sti, kinv_cli|done]. }
  assert (forall q m m1, kinv (sti_state (set_k_mem m (set_k_setup q (set_k_mem m1 (cli_state s))))) R W T) as Hkm.
  { intros q m m1. apply kinv_sti. eapply kinv_frame; [exact Hk| |done]. by apply kinv0_mem, kinv0_setup, kinv0_mem, kinv0_cli, Hk. }
  destruct (adjust_small sz) as [Hmax _]; [lia|]. destruct (search_at_least sz) as [Hr _]; [lia|].
  apply wp_bind, wp_ktlsf. eapply wp_malloc_ex; [exact Hok|done|exact Hmax|lia|..].
  - intros Hnone. apply wp_bind, wp_kmem, wp_store; [apply Hp|]. apply wp_bind, wp_sti, wp_ret.
    split; [apply Hkm|]. split; [done|]. split; [done|]. cbn. rewrite peek_insert_eq. split.
    + left. split; [done|]. split; [done|]. exists F. by apply heap_outside.
    + apply changes_insert. by left.
  - intros l1 z l2 m' F' -> Hz Hok' Hch. apply wp_bind, wp_kmem, wp_store; [apply Hp|]. apply wp_bind, wp_sti, wp_ret.
    split; [apply Hkm|]. split; [done|]. split; [done|]. cbn. rewrite peek_insert_eq. split.
    + right. exists l1, z, l2, F'. split_and!; [done|lia|lia|done|]. by apply heap_outside.
    + apply changes_step; [by left|]. eapply changes_mono; [|exact Hch]. intros y Hy. by right.
Qed.

(** [rel_mpl] of a block in use gives it back, merged with its neighbours. *)
Lemma wp_rel_mpl_sys s R W T id x n l1 z l2 F :
  kinv s R W T -> mpl_pool (k_mpl s) !! Z.to_nat (id - 1) = Some x ->
  heap_ok (k_mem s) (mpl_base x) n (l1 ++ (z, false) :: l2) F -> 8 <= z ->
  wp (rel_mpl_sys id (heap_base (mpl_base x) + blen l1 + 8)) (fun r s' => kinv s' R W T /\ imask (k_int s') = imask (k_int s) /\
    if bad_mplid id then r = Done E_ID /\ s' = s
    else r = Done E_OK /\ (exists F', heap_ok (k_mem s') (mpl_base x) n (a_free l1 z l2) F') /\
      changes (own (mpl_base x) n (a_free l1 z l2)) (k_mem s) (k_mem s')) s.
Proof.
  intros Hk Hx Hok Hz. unfold rel_mpl_sys. fold (bad_mplid id). destruct (bad_mplid id); [by apply wp_ret|].
  assert (nz (Z.land (heap_base (mpl_base x) + blen l1 + 8) 3) = false) as ->.
  { assert (valid_addr (heap_base (mpl_base x) + blen l1 + 4 * 2) = true) as Hv.
    { pose proof (h_arena _ _ _ _ _ Hok) as [Ht H4 _ _]. apply (node_addr (mpl_base x)); [done|done| |lia].
      eapply (at_node _ (l1 ++ (z, false) :: l2) _ z false); [apply Hok|]. rewrite at_app, elem_of_app. right. left. }
    unfold valid_addr in Hv. apply andb_true_iff in Hv as [_ Hv]. unfold nz. change (4 * 2) with 8 in Hv. by rewrite Hv. }
  apply wp_bind, wp_cli, wp_bind. eapply wp_get_mpl; [exact Hx|]. apply wp_bind, wp_ktlsf.
  eapply wp_free_ex; [exact Hok|done|]. intros m' F' Hok' Hch. apply wp_bind, wp_sti, wp_ret.
  split; [|split; [done|split; [done|split; [by exists F'|done]]]].
  apply kinv_sti. eapply kinv_frame; [exact Hk| |done]. by apply kinv0_setup, kinv0_mem, kinv0_cli, Hk.
Qed.

(** ** The creation of tasks *)

(** A kernel task comes with a stack of its own; the kernel stack of a user task
    is a block of the fast pool. *)
Definition stack_ok (s : kstate) (pk : T_CTSK) : Prop :=
  if nz (Z.land (c_exinf pk) TSK_KERNEL) then valid_addr (u32 (u32 (c_stk pk + c_stksz pk - 4) - 4)) = true
  else exists n L F, heap_ok (k_mem s) (kfast_pool (k_setup s)) n L F.

(** The place on top of a stack of [sz] bytes from [a] on, one word down. *)
Definition stack_top (a sz : Z) : Z := u32 (u32 (a + sz - 4) - 4).

(** The stacks of a new task with the attributes [ex] and the stack of [sz] bytes
    at [st]: the pointers [ust] and [kst] of its two stacks and the memory. A
    kernel task has the stack of the packet for both; for a user task the kernel
    stack is what [malloc_ex] takes from the fast pool. The start address of every
    task is on top of its kernel stack. *)
Definition stacked (s : kstate) (ex st sz ust kst : Z) (m' : gmap Z Z) : Prop :=
  let entry := startup_entry (img (k_setup s)) in
  let pool := kfast_pool (k_setup s) in
  if nz (Z.land ex TSK_KERNEL) then
    ust = st /\ kst = stack_top st sz /\ m' = <[kst := entry]> (k_mem s)
  else
    ust = u32 (st + sz - 4) /\
    exists p m1, kst = stack_top p CONFIG_KSTACK_SIZE /\ m' = <[kst := entry]> m1 /\
      forall n L F, heap_ok (k_mem s) pool n L F ->
        allocated (k_mem s) m1 pool n L CONFIG_KSTACK_SIZE p /\ changes (own pool n L) (k_mem s) m1 /\
        (p <> NULL -> exists L' F', heap_ok m' pool n L' F').

(** A store in a block in use. *)
Lemma heap_used m t n L F p v : heap_ok m t n L F -> used (heap_base t) L p -> heap_ok (<[p := v]> m) t n L F.
Proof.
  intros Hok Hp. pose proof Hok as [[Ht _ _ _] Hlen He _ _ _ HF]. pose proof (ending_nonneg _ He) as Hn.
  eapply heap_frame; [exact Hok|]. intros x Hx. apply peek_insert_ne. intros <-.
  assert (own t n L p) as [_ Ho]; [|done]. pose proof (blen_nonneg _ Hn). destruct Hx as [Hx|Hx].
  - apply own_hdr; [done|lia|done|done].
  - eapply own_list; [done|done|lia|done| |exact Hx]. intros a [c Hc]. apply HF in Hc as (z & Hz & _). by exists z.
Qed.

Lemma given_used t l1 r z l2 x : r <= z -> heap_base t + blen l1 + 8 <= x < heap_base t + blen l1 + 8 + r ->
  used (heap_base t) (l1 ++ a_take r z l2) x.
Proof.
  intros Hr Hx. apply used_app. right. unfold a_take. destruct (16 <=? z - r); apply used_cons; left; (split; [done|lia]).
Qed.

(** The kernel stack from [malloc_ex]: its top can be written, even when the pool
    had none to give, and the pool stays in order. *)
Lemma malloc_stack m t n L F mp v : heap_ok m t n L F ->
  exists p m1, malloc_ex CONFIG_KSTACK_SIZE t (mk_tlsf m mp) = Some (p, mk_tlsf m1 mp) /\
    valid_addr (stack_top p CONFIG_KSTACK_SIZE) = true /\
    allocated m m1 t n L CONFIG_KSTACK_SIZE p /\ changes (own t n L) m m1 /\
    (p <> NULL -> exists L' F', heap_ok (<[stack_top p CONFIG_KSTACK_SIZE := v]> m1) t n L' F').
Proof.
  intros Hok.
  enough (wp (malloc_ex CONFIG_KSTACK_SIZE t) (fun p st => t_mp st = mp /\ valid_addr (stack_top p CONFIG_KSTACK_SIZE) = true /\
    allocated m (t_mem st) t n L CONFIG_KSTACK_SIZE p /\ changes (own t n L) m (t_mem st) /\
    (p <> NULL -> exists L' F', heap_ok (<[stack_top p CONFIG_KSTACK_SIZE := v]> (t_mem st)) t n L' F')) (mk_tlsf m mp)) as H.
  { apply wp_returns in H as (p & [m1 mp'] & E & Emp & H). cbn in Emp. subst mp'. by exists p, m1. }
  destruct (adjust_small CONFIG_KSTACK_SIZE) as [Hmax _]; [by split|].
  destruct (search_at_least CONFIG_KSTACK_SIZE) as [Hr _]; [by split|].
  eapply wp_malloc_ex; [exact Hok|done|exact Hmax|done|..].
  - intros Hno. split_and!; try done. left. split_and!; [done|done|by exists F].
  - intros l1 z l2 m' F' -> Hs Hok' Hch. cbn [t_mem t_mp].
    pose proof Hok as [[Ht H4 Htop _] Hlen He _ _ _ _]. pose proof (ending_nonneg _ He) as Hn. pose proof (heap_base_eq t) as Eb.
    assert ((heap_base t + blen l1, z, true) ∈ at_ (heap_base t) (l1 ++ (z, true) :: l2)) as Hin by apply opened_in.
    pose proof (at_bounds _ _ _ _ _ Hn Hin) as Hb. rewrite Hlen in Hb.
    assert (stack_top (heap_base t + blen l1 + 8) CONFIG_KSTACK_SIZE = heap_base t + blen l1 + 4 * 256) as Etop.
    { unfold stack_top. change CONFIG_KSTACK_SIZE with 1024 in *. rewrite (u32_small (heap_base t + blen l1 + 8 + 1024 - 4)), u32_small by lia. lia. }
    rewrite Etop. set (r := (MAPPING_SEARCH (adjust CONFIG_KSTACK_SIZE)).1.1) in *. change CONFIG_KSTACK_SIZE with 1024 in Hr.
    split_and!; [done| |right|done|].
    + apply (node_addr t); [done|done| |lia]. by eapply at_node.
    + exists l1, z, l2, F'. by split_and!; [..|lia| |].
    + intros _. exists (l1 ++ a_take r z l2), F'. apply heap_used; [done|]. apply given_used; lia.
Qed.

(** [init_stack] writes the stack pointers of the task, the stack and the
    allocator, as described. *)
Lemma init_stack_runs s i t : task_pool (k_task s) !! i = Some t ->
  (if nz (Z.land (exinf t) TSK_KERNEL) then valid_addr (stack_top (stk t) (stksz t)) = true
   else exists n L F, heap_ok (k_mem s) (kfast_pool (k_setup s)) n L F) ->
  exists ust kst m', stacked s (exinf t) (stk t) (stksz t) ust kst m' /\
    init_stack i s = Some (0, stack_state s m' (k_setup s) i (set_kstk kst (set_stk ust t))).
Proof.
  intros Et Hst. assert (i < length (task_pool (k_task s)))%nat as Hlt by (by eapply lookup_lt_Some).
  unfold init_stack, bind at 1, get_task at 1. rewrite Et. unfold stacked. destruct (nz (Z.land (exinf t) TSK_KERNEL)).
  - eexists _, _, _. split; [by split_and!|].
    unfold bind, upd_task, get_task, gets. rewrite Et. cbn -[insert lookup].
    repeat (rewrite list_lookup_insert_eq by (by rewrite ?length_insert); cbn -[insert lookup]).
    unfold kmem, zoom. rewrite store_valid by done. rewrite !list_insert_insert_eq. unfold stack_state. by destruct s, t.
  - destruct Hst as (n0 & L0 & F0 & Hok0).
    destruct (malloc_stack _ _ _ _ _ (mp (k_setup s)) (startup_entry (img (k_setup s))) Hok0) as (p & m1 & Em & Hv & _).
    eexists _, _, _. split; [split; [done|]; exists p, m1; split_and!; [done..|]|].
    + intros n L F Hok. destruct (malloc_stack _ _ _ _ _ (mp (k_setup s)) (startup_entry (img (k_setup s))) Hok)
        as (p' & m1' & Em' & _ & H). rewrite Em in Em'. injection Em' as <- <-. exact H.
    + unfold bind, upd_task, get_task, gets, ktlsf, zoom. rewrite Et. cbn -[insert lookup malloc_ex CONFIG_KSTACK_SIZE].
      rewrite Em. cbn -[insert lookup CONFIG_KSTACK_SIZE].
      repeat (rewrite list_lookup_insert_eq by (by rewrite ?length_insert); cbn -[insert lookup CONFIG_KSTACK_SIZE]).
      unfold kmem, zoom. rewrite store_valid by done. rewrite !list_insert_insert_eq. unfold stack_state.
      destruct s as [? ? ? ? ? ? ? ? ? ? ? []], t. reflexivity.
Qed.

(** The state after a creation: the slot has the task with its stacks and is
    taken, the nodes of the task are new, there is one more entry in the log;
    the saved mask of the interrupts apart nothing else has changed. *)
Definition created_state (s : kstate) (i : nat) (pk : T_CTSK) (ust kst : Z) (m' : gmap Z Z) (l : log_mod) : kstate :=
  sti_state (set_k_nodes (set_this (TskAct i) (Some (OTask i)) (born_nodes i (k_nodes s)))
    (set_k_log l (set_k_mem m' (set_k_task
      (mk_task_mod (setbit (taskbmap (k_task s)) (Z.of_nat i))
        (<[i := set_kstk kst (set_stk ust (new_task (Z.of_nat i + 1) pk))]> (task_pool (k_task s))))
      (cli_state s))))).

Lemma create_runs s R W T i pk fn x (r : sysres) :
  kinv s R W T -> Z.of_nat i < MAX_TASKS -> ~ live s i -> 0 <= c_itskpri pk < 32 -> stack_ok s pk ->
  exists ust kst m' l, stacked s (c_exinf pk) (c_stk pk) (c_stksz pk) ust kst m' /\
    write_log fn (Z.of_nat i + 1) x s = Some (tt, set_k_log l s) /\
    (fill_task (Z.of_nat i) (Z.of_nat i + 1) pk ;;; write_log fn (Z.of_nat i + 1) x ;;;
     upd_nodes (set_this (TskAct i) (Some (OTask i))) ;;; hw_sti ;;; ret r) (cli_state s) =
    Some (r, created_state s i pk ust kst m' l).
Proof.
  intros Hk Hi HL Hpri Hst. pose proof (kinv0_cli _ _ _ _ (proj1 Hk)) as H1.
  destruct (lookup_lt_is_Some_2 (task_pool (k_task (cli_state s))) i) as [t Et].
  { pose proof (to_len _ (ki_tasks _ _ _ _ H1)). assert (MAX_TASKS = 5) by done. lia. }
  assert (i < length (task_pool (k_task s)))%nat as Hlt by (by eapply lookup_lt_Some).
  destruct (init_stack_runs (born_state (cli_state s) i pk) i (new_task (Z.of_nat i + 1) pk)) as (ust & kst & m' & Hs & E).
  { apply list_lookup_insert_eq. done. }
  { exact Hst. }
  destruct (write_log_eq fn (Z.of_nat i + 1) x s) as (l & El & _); [apply Hk|].
  exists ust, kst, m', l. split_and!; [exact Hs|exact El|].
  unfold bind at 1. rewrite (fill_task_eq _ i pk t Et). unfold bind at 1. rewrite E. unfold bind, set_taskbit, modify.
  unfold write_log in El |- *. cbn -[insert lookup fill_task] in El |- *.
  destruct (system_log (k_log s) !! _); [|done]. injection El as <-.
  unfold upd_nodes, hw_sti, upd_int, modify, created_state. cbn -[insert lookup]. rewrite list_insert_insert_eq. reflexivity.
Qed.

(** What [cre_tsk] leaves when it creates a task. *)
Definition creates (s s' : kstate) R W T (i : nat) (pk : T_CTSK) (fn : Z) : Prop :=
  created s s' R W T i pk /\
  exists ust kst m' l, stacked s (c_exinf pk) (c_stk pk) (c_stksz pk) ust kst m' /\
    write_log fn (Z.of_nat i + 1) E_OK s = Some (tt, set_k_log l s) /\ s' = created_state s i pk ust kst m' l.

(** [cre_tsk] returns: its parameters are refused, or the task is created. *)
Lemma wp_cre_tsk s R W T id pk :
  kinv s R W T -> (forall pk', pk = Some pk' -> stack_ok s pk') ->
  wp (cre_tsk_sys id pk) (fun r s' =>
    let i := Z.to_nat (id - 1) in
    imask (k_int s') = imask (k_int s) /\
    if bad_tskid id then r = Done E_ID /\ s' = s else
    match pk with
    | None => r = Done E_PAR /\ s' = s
    | Some pk =>
        if bad_ctsk pk then r = Done E_PAR /\ s' = s else
        (live s i /\ r = Done E_OBJ /\ kinv s' R W T /\ s' = sti_state (cli_state s)) \/
        ((~ live s i) /\ r = Done E_OK /\ creates s s' R W T i pk TFN_CRE_TSK)
    end) s.
Proof.
  intros Hk Hst. unfold cre_tsk_sys. fold (bad_tskid id). destruct (bad_tskid id) eqn:Eb; [by apply wp_ret|].
  destruct pk as [pk|]; [|by apply wp_ret]. fold (bad_ctsk pk).
  destruct (bad_ctsk pk) eqn:Ep; [by apply wp_ret|]. pose proof (bad_tskid_false id Eb) as Hid.
  apply wp_bind, wp_cli, wp_bind, wp_gets.
  pose proof (live_bit (cli_state s) id (ki_tasks _ _ _ _ (kinv0_cli _ _ _ _ (proj1 Hk))) Hid) as Hl.
  set (i := Z.to_nat (id - 1)) in *. destruct (nz (isbitset _ _)).
  { wp_steps. split; [done|]. left. split_and!; [by apply Hl|done| |done]. by apply (kinv_sti (cli_state s)), kinv_cli. }
  assert (~ live s i) as HL by (intros HL; assert (false = true) by (by apply Hl); done).
  assert (id = Z.of_nat i + 1) as Eid by (unfold i; lia). clearbody i. subst id.
  replace (Z.of_nat i + 1 - 1) with (Z.of_nat i) by lia. pose proof (bad_ctsk_false pk Ep) as Hpri.
  destruct (create_runs s R W T i pk TFN_CRE_TSK E_OK (Done E_OK) Hk ltac:(lia) HL Hpri ltac:(by apply Hst))
    as (ust & kst & m' & l & Hs & El & E).
  pose proof (wlp_create s R W T i pk TFN_CRE_TSK E_OK (Done E_OK) Hk ltac:(lia) HL Hpri) as Hc.
  unfold wlp in Hc. unfold wp. rewrite E in Hc |- *. destruct Hc as (_ & Him & Hc). split; [done|]. right.
  split_and!; [done|done|]. split; [done|]. by exists ust, kst, m', l.
Qed.

(** So does [acre_tsk]. *)
Lemma wp_acre_tsk s R W T pk :
  kinv s R W T -> (forall pk', pk = Some pk' -> stack_ok s pk') ->
  wp (acre_tsk_sys pk) (fun r s' =>
    imask (k_int s') = imask (k_int s) /\
    match pk with
    | None => r = Done E_PAR /\ s' = s
    | Some pk =>
        if bad_ctsk pk || (c_stk pk =? NULL) then r = Done E_PAR /\ s' = s else
        (r = Done E_NOID /\ kinv s' R W T /\ forall i, Z.of_nat i < MAX_TASKS -> live s i) \/
        exists i, Z.of_nat i < MAX_TASKS /\ (~ live s i) /\ (forall j, (j < i)%nat -> live s j) /\
          r = Done (Z.of_nat i + 1) /\ created s s' R W T i pk
    end) s.
Proof.
  intros Hk Hst. apply wp_of_wlp; [|by apply wlp_acre_tsk]. unfold acre_tsk_sys. destruct pk as [pk|]; [|done].
  destruct (negb (nz (c_task pk)) || _ || _ || _ || _) eqn:Ep; [done|].
  unfold bind at 1, hw_cli, upd_int, modify, bind at 1, gets. fold (cli_state s). cbv zeta.
  fold (bad_tskid (_ffc (taskbmap (k_task (cli_state s))) + 1)). destruct (bad_tskid _) eqn:Eb; [done|].
  pose proof (bad_tskid_false _ Eb) as Hid. set (idx := _ffc _) in *.
  pose proof (kinv0_cli _ _ _ _ (proj1 Hk)) as H1.
  pose proof (_ffc_cases (taskbmap (k_task s)) (to_bmap _ (ki_tasks _ _ _ _ H1))) as Hcases.
  change (_ffc (taskbmap (k_task s))) with idx in Hcases.
  destruct Hcases as [[E _]|(Hr & Hclr & _)]; [lia|].
  assert (idx = Z.of_nat (Z.to_nat idx)) as Ei by lia. set (i := Z.to_nat idx) in *. clearbody idx. clearbody i. subst idx.
  destruct (create_runs s R W T i pk TFN_ACRE_TSK 0 (Done (Z.of_nat i + 1)) Hk) as (ust & kst & m' & l & _ & _ & E);
    [lia| | |by apply Hst|by rewrite E].
  - intros [_ E]. by rewrite Hclr in E.
  - apply bad_ctsk_false. unfold bad_ctsk. rewrite !orb_false_iff in Ep. destruct Ep as ((((-> & ->) & ->) & _) & ->). done.
Qed.
