(* ===== verification/Boot.v ===== *)
(** * A concrete system

    A memory map, and the states that the kernel goes through after it starts:
    the inputs at which the theorems are evaluated. *)

From Stdlib Require Import ZArith Lia.
From stdpp Require Import base tactics gmap option functions countable list.
From S2P Require Import Prelude Bits Queue Qfam Mem Mpool Kstate Tlsf Syslog Sched Timeout Dispatch.
From S2P Require Import Kinv Blind Ktime Waitobj Task Semaphore Event Mailbox Mempool Kernel Setup.

Open Scope Z_scope.
Open Scope kernel_scope.

(** A configuration without drivers and network. *)
Definition no_hooks : hooks := mk_hooks (ret tt) [] (ret tt) (ret tt).

Lemma no_hooks_quiet : quiet_hooks no_hooks.
Proof. split; [split; [|constructor|]|]; intros s; by exists tt. Qed.

(** System pool of 256 KB, fast pool of 64 KB, four user pools of 64 KB. *)
Definition board : image :=
  mk_image 0x100000 0x40000 0x200000 0x10000
    [(0x300000, 0x10000); (0x310000, 0x10000); (0x320000, 0x10000); (0x330000, 0x10000)] 0x1000 0x2000.

Definition power_on : kstate := reset ∅ board 1 0.

(** The state after a routine that returns. *)
Definition after_of {A} (m : KM A) (s : kstate) : kstate := match m s with Some (_, s') => s' | None => s end.

(** The kernel has started: the main task runs. *)
Definition boot0 : kstate := after_of (start_kernel no_hooks) power_on.

(** What a routine returns, if it does. *)
Definition result_of {A} (m : KM A) (s : kstate) : option A := fst <$> m s.

Lemma after_of_eq {A} (m : KM A) (s : kstate) a : result_of m s = Some a -> m s = Some (a, after_of m s).
Proof. unfold result_of, after_of. destruct (m s) as [[? ?]|]; [|done]. by intros [= ->]. Qed.

Lemma boot0_eq : start_kernel no_hooks power_on = Some (tt, boot0).
Proof.
  unfold boot0. refine (after_of_eq (start_kernel no_hooks) power_on tt _). vm_compute. reflexivity.
Qed.

Definition boot0_facts := wlp_elim _ _ _ _ _ (wlp_start_kernel no_hooks ∅ board 1 0 no_hooks_quiet) boot0_eq.

Lemma boot0_kinv : kinv boot0 boot_ready no_wait [].
Proof. exact (proj1 boot0_facts). Qed.

Lemma boot0_clean b : clean (k_nodes boot0) (MsgQue b).
Proof. exact (proj2 (proj2 (proj2 boot0_facts)) b). Qed.

Lemma boot0_cur : current_task (k_sched boot0) = Some 1%nat.
Proof. vm_compute. reflexivity. Qed.

Lemma boot0_main : ~ is_idle boot0 1.
Proof. unfold is_idle. assert (idle_task (k_sched boot0) = Some 0%nat) as -> by (vm_compute; reflexivity). done. Qed.

(** ** A start-up with a thread of the network *)

Section network.

(** Calls with the switch of the dispatcher off. *)
Definition switched_off (s : kstate) R W T : Prop := kinv (dsp TRUE s) R W T /\ dispatching (k_sched s) = FALSE.

Lemma blind_acre_tsk pk : blind (acre_tsk_sys pk).
Proof. unfold acre_tsk_sys, fill_task, zero_task_at, set_task_this, set_taskbit. blind_steps. Qed.

Lemma blind_activate i t : blind (activate i t).
Proof. unfold activate. blind_steps. Qed.

Lemma off_tasks s R W T : switched_off s R W T -> tasks_ok s.
Proof. intros [[[_ _ _ _ [A B C D E] _ _ _ _] _] _]. by split. Qed.

(** [act_tsk] with the switch off: the task is ready, and the caller goes on. *)
Lemma off_act_tsk s R W T id : switched_off s R W T ->
  wlp (act_tsk_sys id) (fun _ s' => exists R', switched_off s' R' W T /\ imask (k_int s') = imask (k_int s) /\
    taskbmap (k_task s') = taskbmap (k_task s)) s.
Proof.
  intros Hs. pose proof Hs as [[HK Hc] Hd]. pose proof (off_tasks _ _ _ _ Hs) as Ht. unfold act_tsk_sys.
  destruct (bad_tskid id) eqn:Eb; [by apply wlp_ret; exists R|].
  apply wlp_bind, wp_wlp, wp_cli, wlp_bind, wp_wlp, wp_pick_task; [by destruct Ht; split|done| |].
  { intros _. apply wlp_ret. exists R. split_and!; [|done|done]. split; [|done].
    exact (kinv_sti (cli_state (dsp TRUE s)) _ _ _ (kinv_cli (dsp TRUE s) _ _ _ (conj HK Hc))). }
  intros t HL Et. set (i := Z.to_nat (id - 1)) in *. apply wlp_bind, wp_wlp. eapply wp_get_task; [exact Et|].
  apply wlp_bind, wp_wlp, wp_write_log; [apply HK|]. intros l Hl.
  set (s1 := set_k_log l (cli_state s)). assert (kinv0 (dsp TRUE s1) R W T) as H1
    by exact (kinv0_log (cli_state (dsp TRUE s)) _ _ _ l (kinv0_cli _ _ _ _ HK) Hl).
  change (wlp (activate i t ;;; hw_sti ;;; scheduler ;;; ret (Cont (KReturn E_OK))) (fun _ s' => exists R',
    switched_off s' R' W T /\ imask (k_int s') = imask (k_int s) /\ taskbmap (k_task s') = taskbmap (k_task s)) s1).
  apply wlp_bind. eapply wlp_mono.
  { apply (wlp_blind _ TRUE (fun _ s' => kinv0 s' (activated (dsp TRUE s1) R i t) W T /\ kframe (dsp TRUE s1) s'));
      [apply blind_activate|].
    apply wp_wlp. by eapply (wp_activate (dsp TRUE s1) R W T i t). }
  intros [] s2 [[H2 [_ Hbm _ Hcu Hid _ Hi _ _ _ _ _ _]] Hd2]. apply wlp_bind, wp_wlp, wp_sti, wlp_bind.
  unfold wlp at 1. rewrite scheduler_off; [|exact (eq_trans Hd2 Hd)|exact (proj1 (ki_dsp _ _ _ _ H2))]. apply wlp_ret.
  exists (activated (dsp TRUE s1) R i t). simpl in *. split_and!; [|by rewrite Hi|done]. split; [|exact (eq_trans Hd2 Hd)].
  split; [exact (kinv0_sti (cli_state (sti_state (dsp TRUE s2))) _ _ _ (kinv0_cli _ _ _ _ (kinv0_sti _ _ _ _ H2)))|]. destruct Hc as (c & Ec & Hc). exists c. split; [simpl in *; congruence|].
  destruct Hc as [Hc|[p Hp]]; [left; unfold is_idle in *; simpl in *; congruence|]. right. exists p.
  unfold activated. case_match; [|done]. apply elem_of_rq_append. by left.
Qed.

(** A thread is created and activated, as [sys_thread_new] does. *)
Definition net_thread (pk : T_CTSK) : KM unit :=
  let* r := acre_tsk_sys (Some pk) in
  match r with
  | Done id => let* _ := act_tsk_sys id in ret tt
  | _ => ret tt
  end.

Lemma net_thread_orderly pk : orderly (net_thread pk).
Proof.
  intros s s' Hs. pose proof Hs as [F1 F2 F3 F4 F5 F6]. revert s'.
  assert (wlp (net_thread pk) (fun _ s' => exists R W T, network s s' R W T) s) as Hw.
  2: { intros s' E. exact (wlp_elim _ _ _ _ _ Hw E). }
  assert (forall r R s1, switched_off s1 R no_wait [] -> imask (k_int s1) = imask (k_int s) -> room s1 ->
    wlp (match r with Done id => let* _ := act_tsk_sys id in ret tt | _ => ret tt end)
      (fun _ s' => exists R W T, network s s' R W T) s1) as Hact.
  { intros r R s1 H1 Hm1 Hr1. destruct r as [id| | |]; try (apply wlp_ret; exists R, no_wait, []; by destruct H1).
    apply wlp_bind. eapply wlp_mono; [by eapply off_act_tsk|]. intros a s2 (R' & [H2 Hd2] & Hm2 & Hbm). apply wlp_ret.
    exists R', no_wait, []. split; try done; [congruence|]. destruct Hr1 as (j & Hj & HL). exists j. split; [done|].
    by rewrite (live_same s1). }
  apply wlp_bind. eapply wlp_mono.
  { apply (wlp_blind _ TRUE); [apply blind_acre_tsk|]. by apply wlp_acre_tsk. }
  intros r s1 [[Hm HC] Hd]. simpl in Hm. destruct (bad_ctsk pk || (c_stk pk =? NULL)).
  - destruct HC as [_ HC]. apply (Hact _ no_ready); [|done|].
    + split; [by rewrite HC|congruence].
    + destruct (first_room s Hs) as (j & Hj & HL). exists j. split; [done|]. rewrite <- (live_same _ (dsp TRUE s1)) by done.
      rewrite HC. done.
  - destruct HC as [(_ & _ & Hall)|(i & Hi & HLi & Hlow & _ & HK & _ & _ & Hbm & _)].
    + destruct (first_room s Hs) as (j & Hj & HL). destruct HL. exact (Hall j Hj).
    + apply (Hact _ no_ready); [|done|]; [split; [done|congruence]|].
      assert (i = 1%nat) as ->.
      { destruct i as [|[|i]]; [|done|].
        - destruct HLi. split; [done|]. simpl. by rewrite F5.
        - destruct (Hlow 1%nat) as [_ E]; [lia|]. simpl in E. by rewrite F5 in E. }
      exists 2%nat. split; [done|]. intros [_ E]. simpl in Hbm. rewrite Hbm, F5 in E. done.
Qed.

(** The board with a kernel thread of priority 5. *)
Definition net_ctsk : T_CTSK := mk_ctsk TSK_KERNEL 0 0x3000 5 0x1000 0x400000 0.
Definition net_hooks : hooks := mk_hooks (ret tt) [] (ret tt) (net_thread net_ctsk).

Lemma net_hooks_orderly : orderly_hooks net_hooks.
Proof. split; [split; [|constructor|]; intros s; by exists tt|apply net_thread_orderly]. Qed.

Definition boot_net : kstate := after_of (start_kernel net_hooks) power_on.

Lemma boot_net_eq : start_kernel net_hooks power_on = Some (tt, boot_net).
Proof.
  unfold boot_net. refine (after_of_eq (start_kernel net_hooks) power_on tt _). vm_compute. reflexivity.
Qed.

End network.

Definition boot_kernel : akernel := abstract boot0 boot_ready no_wait [].

Lemma boot0_impl : impl boot0 boot_kernel.
Proof. apply abstract_impl, boot0_kinv. Qed.

(** ** States after the first system calls *)

(** A routine that ran to its end satisfies its postcondition. *)
Lemma wp_at {A} (m : KM A) Q s a : wp m Q s -> result_of m s = Some a -> Q a (after_of m s).
Proof. intros Hw Hr. apply after_of_eq in Hr. unfold wp in Hw. by rewrite Hr in Hw. Qed.

Lemma wlp_at {A} (m : KM A) Q s a : wlp m Q s -> result_of m s = Some a -> Q a (after_of m s).
Proof. intros Hw Hr. apply after_of_eq in Hr. unfold wlp in Hw. by rewrite Hr in Hw. Qed.

(** Evaluate a closed state. *)
Ltac run := vm_compute; reflexivity.

(** A closed state defined as the state after a routine. *)
Ltac ran :=
  match goal with |- ?m ?s = Some (_, ?s') => unfold s'; refine (after_of_eq m s _ _); run end.

Section semaphore.

(** Semaphore 1 with one unit of two; the unit is taken; the main task waits. *)
Definition csem : T_CSEM := mk_csem 0 1 2.
Definition sem0 : kstate := after_of (cre_sem_sys 1 (Some csem)) boot0.
Definition sem1 : kstate := after_of (wai_sem_sys 1) sem0.
Definition sem2 : kstate := after_of (wai_sem_sys 1) sem1.
Definition sems0 : nat -> option (Z * Z) := sem_view (k_sem boot0).
Definition sems1 (n : Z) : nat -> option (Z * Z) := <[0%nat := Some (n, 2)]> sems0.

Lemma sem0_impl : sem_impl sem0 boot_kernel (sems1 1).
Proof.
  pose proof (wp_at _ _ _ (Done E_OK) (wp_cre_sem boot0 boot_kernel sems0 1 (Some csem) (sem_impl_of _ _ _ _ boot0_kinv))
    ltac:(run)) as [_ H].
  change (bad_semid 1) with false in H. change (bad_csem csem) with false in H.
  assert (sems0 (Z.to_nat (1 - 1)) = None) as E by run. rewrite E in H. by destruct H as [_ H].
Qed.

Lemma sem0_main : current_task (k_sched sem0) = Some 1%nat /\ ~ is_idle sem0 1.
Proof. split; [run|]. unfold is_idle. assert (idle_task (k_sched sem0) = Some 0%nat) as -> by run. done. Qed.

Lemma wai1 : a_wai_sem 1 1 boot_kernel (sems1 1) = (Done E_OK, boot_kernel, <[0%nat := Some (0, 2)]> (sems1 1)).
Proof. reflexivity. Qed.

Lemma sem1_impl : sem_impl sem1 boot_kernel (<[0%nat := Some (0, 2)]> (sems1 1)).
Proof.
  pose proof (wp_at _ _ _ (Done E_OK) (wp_wai_sem sem0 _ _ 1 1 sem0_impl (proj1 sem0_main) (proj2 sem0_main))
    ltac:(run)) as H. cbv beta in H. rewrite wai1 in H. apply H.
Qed.

Lemma sem1_main : current_task (k_sched sem1) = Some 1%nat /\ ~ is_idle sem1 1.
Proof. split; [run|]. unfold is_idle. assert (idle_task (k_sched sem1) = Some 0%nat) as -> by run. done. Qed.

End semaphore.

Section asleep.

(** The main task sleeps for three ticks. *)
Definition slp0 : kstate := after_of (tslp_tsk_sys 3) boot0.

Lemma slp0_kinv : kinv slp0 (rq_drop boot_ready 0 1) no_wait [1%nat].
Proof.
  destruct (wp_at _ _ _ (Cont (KReturn E_OK)) (wp_tslp_tsk boot0 _ _ _ 1 3 boot0_kinv boot0_cur boot0_main ltac:(split; [lia|run]))
    ltac:(run)) as (p & t & Hp & _ & _ & _ & H & _).
  apply elem_of_boot_ready in Hp as [-> _]. exact H.
Qed.

End asleep.

Section machine.

(** The machine after start-up, and after the main task has created a semaphore
    and taken its unit, has waited for another one, and the timer has ticked. *)
Definition at_boot : machine := mk_machine boot0 (fun _ => None).
Definition tick0 : kstate := after_of evt_timer sem2.
Definition at_tick : machine := mk_machine tick0 (after 1 (Cont (KWaiSem 1)) (fun _ => None)).

Lemma at_tick_reachable : reachable covered at_boot at_tick.
Proof.
  unfold at_tick, at_boot.
  eapply rtc_l; [eapply (step_call covered boot0 _ 1 (Ccre_sem 1 (Some csem)) (Done E_OK) sem0);
    [exact boot0_cur|exact boot0_main|done|done|cbn [exec]; ran]|].
  eapply rtc_l; [eapply (step_call covered sem0 _ 1 (Cwai_sem 1) (Done E_OK) sem1);
    [exact (proj1 sem0_main)|exact (proj2 sem0_main)|done|done|cbn [exec]; ran]|].
  eapply rtc_l; [eapply (step_call covered sem1 _ 1 (Cwai_sem 1) (Cont (KWaiSem 1)) sem2);
    [exact (proj1 sem1_main)|exact (proj2 sem1_main)|done|done|cbn [exec]; ran]|].
  apply rtc_once. apply step_timer; [run|ran].
Qed.

End machine.

Section mailbox.

(** Mailbox 1 is empty; then it holds the message [0x500000]. *)
Definition cmbx : T_CMBX := mk_cmbx 0 0 0.
Definition mbx0 : kstate := after_of (cre_mbx_sys 1 (Some cmbx)) boot0.
Definition mbx1 : kstate := after_of (snd_mbx_sys 1 0x500000) mbx0.

Lemma no_mailboxes s A : impl s A -> (forall b, clean (k_nodes s) (MsgQue b)) ->
  mbx_pool (k_mbx s) = replicate 4 zero_mbx -> mbxbmap (k_mbx s) = 0 ->
  pool_ok (k_mem s) (msg_pool (k_mbx s)) sizeof_mbox_msg_head CONFIG_MAX_MAILBOX_MSG 0 [] ->
  mbx_impl s A (fun _ => None) [].
Proof.
  intros HI Hc Ep Eb Hpool. split; [exact HI|]. exists (fun _ => []), 0, []. split; [split|].
  - split; [|by intros ?? ?%elem_of_nil|by intros ??? ?%elem_of_nil|done].
    intros i. assert (msgq s i = null_queue) as -> by (unfold msgq; rewrite Ep; by apply replicate_default).
    apply qrep_nil.
  - exact Hpool.
  - intros b [?%elem_of_nil|[i ?%elem_of_nil]]; done.
  - by intros ?? ?%elem_of_nil.
  - constructor.
  - by intros i [].
  - intros i. by rewrite Eb, Z.testbit_0_l.
Qed.

Lemma boot0_mbx : mbx_impl boot0 boot_kernel (fun _ => None) [].
Proof.
  apply no_mailboxes; [exact boot0_impl|exact boot0_clean|run|run|].
  assert (msg_pool (k_mbx boot0) = 2100360) as -> by run.
  split; [by split|by split|by split|run|run|run|run|constructor|by intros ? ?%elem_of_nil].
Qed.

Lemma mbx0_impl : mbx_impl mbx0 boot_kernel (<[0%nat := Some []]> (fun _ => None)) [].
Proof.
  pose proof (wp_at _ _ _ (Done E_OK) (wp_cre_mbx boot0 boot_kernel _ _ 1 (Some cmbx) boot0_mbx) ltac:(run)) as [_ H].
  change (bad_mbxid 1) with false in H. cbn zeta in H. by destruct H as [_ H].
Qed.

Lemma mbx0_room : msg_room mbx0 = true.
Proof. run. Qed.

Lemma mbx1_impl : mbx_impl mbx1 boot_kernel (<[0%nat := Some [0x500000]]> (<[0%nat := Some []]> (fun _ => None))) [].
Proof.
  pose proof (wp_at _ _ _ (Cont (KReturn E_OK)) (wp_snd_mbx mbx0 boot_kernel _ _ 1 0x500000 mbx0_impl mbx0_room) ltac:(run)) as [_ H].
  change (bad_mbxid 1) with false in H. cbn [negb nz Z.eqb] in H. by destruct H as (_ & H & _).
Qed.

Lemma mbx1_main : current_task (k_sched mbx1) = Some 1%nat /\ ~ is_idle mbx1 1.
Proof. split; [run|]. unfold is_idle. assert (idle_task (k_sched mbx1) = Some 0%nat) as -> by run. done. Qed.

End mailbox.

Section others.

(** The main task is the current one. *)
Ltac main_runs s := split; [run|]; unfold is_idle; assert (idle_task (k_sched s) = Some 0%nat) as -> by run; done.

(** Eventflag 1, then the main task waits for its bit 0. *)
Definition cflg : T_CFLG := mk_cflg TA_WMUL 0.
Definition flg0 : kstate := after_of (cre_flg_sys 1 (Some cflg)) boot0.
Definition flg1 : kstate := after_of (wai_flg_sys 1 1 0 0x600000) flg0.
Definition flgs0 : nat -> option (Z * Z) := flg_view (k_flg boot0).
Definition flgs1 : nat -> option (Z * Z) := <[0%nat := Some (TA_WMUL, 0)]> flgs0.

Lemma flg0_impl : flg_impl flg0 boot_kernel flgs1.
Proof.
  pose proof (wp_at _ _ _ (Done E_OK) (wp_cre_flg boot0 boot_kernel flgs0 1 (Some cflg) (flg_impl_of _ _ _ _ boot0_kinv))
    ltac:(run)) as [_ H].
  change (bad_flgid 1) with false in H. assert (flgs0 (Z.to_nat (1 - 1)) = None) as E by run. cbv zeta in H.
  rewrite E in H. by destruct H as [_ H].
Qed.

Lemma flg0_main : current_task (k_sched flg0) = Some 1%nat /\ ~ is_idle flg0 1.
Proof. main_runs flg0. Qed.

Lemma flg1_impl : flg_impl flg1 (a_block 1 (WFlg 0) boot_kernel) flgs1.
Proof.
  pose proof (wp_at _ _ _ (Cont (KWaiFlg 1)) (wp_wai_flg flg0 _ _ 1 1 1 0 0x600000 flg0_impl (proj1 flg0_main)
    (proj2 flg0_main) eq_refl) ltac:(run)) as H. cbv beta in H.
  assert (a_wai_flg 1 1 1 0 0x600000 boot_kernel flgs1 = (Cont (KWaiFlg 1), a_block 1 (WFlg 0) boot_kernel, flgs1, None))
    as E by reflexivity. rewrite E in H. apply H.
Qed.

(** A pool of two blocks of 16 bytes; then one block is taken. *)
Definition cmpf : T_CMPF := mk_cmpf 0 2 16 0x700000.
Definition mpf0 : kstate := after_of (cre_mpf_sys 1 (Some cmpf)) boot0.
Definition mpf1 : kstate := after_of (get_mpf_sys 1 0x600000) mpf0.
Definition mpfx : mpfpool_t := mk_mpf 0 2 16 0x700000 null_queue.

Lemma mpf0_impl : impl mpf0 boot_kernel /\ mpf_pool (k_mpl mpf0) !! 0%nat = Some mpfx /\ mpf_ok mpf0 mpfx 0 [].
Proof.
  pose proof (wp_at _ _ _ (Done E_OK) (wp_cre_mpf boot0 boot_kernel 1 cmpf boot0_impl eq_refl eq_refl eq_refl eq_refl
    ltac:(done) ltac:(done) ltac:(done)) ltac:(run)) as (_ & HI & H).
  assert (Z.testbit (mpfbmap (k_mpl boot0)) (Z.of_nat (Z.to_nat (1 - 1))) = false) as E by run. cbv zeta in H.
  rewrite E in H. destruct H as (_ & Ex & Hp & _). exact (conj HI (conj Ex Hp)).
Qed.

Lemma mpf0_main : current_task (k_sched mpf0) = Some 1%nat /\ ~ is_idle mpf0 1.
Proof. main_runs mpf0. Qed.

Lemma mpf1_impl : impl mpf1 boot_kernel /\ mpf_pool (k_mpl mpf1) !! 0%nat = Some mpfx /\ mpf_ok mpf1 mpfx 1 [].
Proof.
  destruct mpf0_impl as (HI & Ex & Hp).
  pose proof (wp_at _ _ _ (Done E_OK) (wp_get_mpf mpf0 _ 1 1 0x600000 mpfx 0 [] HI (proj1 mpf0_main) (proj2 mpf0_main)
    eq_refl Ex Hp eq_refl ltac:(unfold in_mpf, mpfx; cbn; lia)) ltac:(run)) as (_ & H).
  assert (Z.testbit (mpfbmap (k_mpl mpf0)) (Z.of_nat (Z.to_nat (1 - 1))) = true) as E by run. cbv zeta in H.
  rewrite E in H. destruct H as (_ & HI' & Hp' & _). split; [exact HI'|]. split; [run|exact Hp'].
Qed.

(** Task 3, a kernel task of priority 5. *)
Definition ctsk : T_CTSK := mk_ctsk TSK_KERNEL 0 0x3000 5 0x400 0x800000 0.
Definition user_ctsk : T_CTSK := mk_ctsk 0 0 0x3000 5 0x400 0x800000 0.
Definition tsk0 : kstate := after_of (cre_tsk_sys 3 (Some ctsk)) boot0.

Lemma tsk0_kinv : kinv tsk0 boot_ready no_wait [].
Proof.
  pose proof (wlp_at _ _ _ (Done E_OK) (wlp_cre_tsk boot0 _ _ _ 3 (Some ctsk) boot0_kinv) ltac:(run)) as (_ & H).
  change (bad_tskid 3) with false in H. change (bad_ctsk ctsk) with false in H.
  destruct H as [(_ & E & _)|(_ & _ & H & _)]; [discriminate E|exact H].
Qed.

End others.

Section handover.

(** The main task waits for a message, and then one is sent. *)
Definition mbx2 : kstate := after_of (rcv_mbx_sys 1 0x600000) mbx0.
Definition mbx3 : kstate := after_of (snd_mbx_sys 1 0x500000) mbx2.
Definition boxes : nat -> option (list Z) := <[0%nat := Some []]> (fun _ => None).

Lemma mbx2_impl : mbx_impl mbx2 (a_block 1 (WMbx 0) boot_kernel) boxes [].
Proof.
  pose proof (wp_at _ _ _ (Cont (KRcvMbx 1 0x600000)) (wp_rcv_mbx mbx0 boot_kernel boxes [] 1 1 0x600000 mbx0_impl
    ltac:(run) ltac:(unfold is_idle; assert (idle_task (k_sched mbx0) = Some 0%nat) as -> by run; done) eq_refl
    ltac:(unfold outside; assert (msg_pool (k_mbx mbx0) = 2100360) as -> by run; right; vm_compute; discriminate))
    ltac:(run)) as [_ H].
  change (bad_mbxid 1) with false in H. cbn [negb nz Z.eqb] in H. by destruct H as (_ & _ & H).
Qed.

(** The message is block 0 of the pool. *)
Definition msg0 : Z := extdat (default zero_task (task_pool (k_task mbx3) !! 1%nat)).

Lemma mbx3_impl : exists A', mbx_impl mbx3 A' boxes [msg0].
Proof.
  pose proof (wp_at _ _ _ (Cont (KReturn E_OK)) (wp_snd_mbx mbx2 _ _ _ 1 0x500000 mbx2_impl ltac:(run)) ltac:(run)) as [_ H].
  change (bad_mbxid 1) with false in H. cbn [negb nz Z.eqb] in H. destruct H as (_ & b & A' & _ & HI & _ & _ & Hb).
  exists A'. assert (exists t, task_pool (k_task mbx3) !! 1%nat = Some t) as [t Et].
  { destruct (task_pool (k_task mbx3) !! 1%nat) as [t|] eqn:E; [by exists t|]. exfalso. revert E. vm_compute. discriminate. }
  assert (msg0 = b) as ->; [|exact HI]. unfold msg0. rewrite Et. exact (Hb t Et).
Qed.

End handover.
