(* ===== verification/Ints.v ===== *)
(** * Interrupt handlers

    core/kernel/blackfin/ints.c, the mask macros of ints.h, and the common body
    of the interrupts of entry.S. The vectors 7 to 13 of the event controller go
    through [interrupt_table], which [def_inh] changes; [EVT] are the registers
    of the controller with the entry points, assembly code whose addresses are
    parameters. The code of an installed handler is a parameter too, an operation
    on the state of the kernel for each address. *)

From Stdlib Require Import ZArith Lia.
From stdpp Require Import base tactics gmap option functions countable list.
From S2P Require Import Prelude Bits Mem Kstate Syslog Sched Timeout Dispatch Kinv Ktime Waitobj Kernel.

Open Scope Z_scope.
Open Scope kernel_scope.

Record ints := mk_ints {
  i_k : kstate;
  interrupt_table : list Z;
  EVT : list Z;
  ILAT : Z
}.

Definition IM : Type -> Type := M ints.

Definition set_i_k (k : kstate) (r : ints) : ints := mk_ints k (interrupt_table r) (EVT r) (ILAT r).
Definition set_interrupt_table (t : list Z) (r : ints) : ints := mk_ints (i_k r) t (EVT r) (ILAT r).
Definition set_EVT (t : list Z) (r : ints) : ints := mk_ints (i_k r) (interrupt_table r) t (ILAT r).
Definition set_ILAT (v : Z) (r : ints) : ints := mk_ints (i_k r) (interrupt_table r) (EVT r) v.

(** An operation of the kernel. *)
Definition ik {A} (m : KM A) : IM A := zoom i_k set_i_k m.

(** A store in an array. *)
Definition put (get : ints -> list Z) (set : list Z -> ints -> ints) (i v : Z) : IM unit :=
  let* l := gets get in
  if (i <? 0) || (i >=? Z.of_nat (length l)) then fault else
  modify (set (<[Z.to_nat i := v]> l)).

Definition MK_BMSK_ (x : Z) : Z := Z.shiftl 1 x.

Definition mask_interrupt (inhno : Z) : KM unit :=
  upd_int (fun r => set_imask (Z.lor (imask r) (MK_BMSK_ inhno)) r).

Definition unmask_interrupt (inhno : Z) : KM unit :=
  upd_int (fun r => set_imask (Z.lor (imask r) (u32 (Z.lnot (MK_BMSK_ inhno)))) r).

Definition evt_ivg_install (inhno phdr : Z) : IM unit := put EVT set_EVT inhno phdr.

Definition install_handler (inhno phdr : Z) : IM unit :=
  put interrupt_table set_interrupt_table (inhno - 7) phdr.

Section handlers.
Context (interrupt_vector : Z -> Z) (unhandled_interrupt exception_entry schedule_from_int : Z).

Definition release_handler (inhno : Z) : IM unit :=
  put interrupt_table set_interrupt_table (inhno - 7) unhandled_interrupt.

(** [for (i = 0; i < 7; i++) interrupt_table[i] = unhandled_interrupt;] *)
Fixpoint default_table (n : nat) (i : Z) : IM unit :=
  match n with
  | O => ret tt
  | S n => put interrupt_table set_interrupt_table i unhandled_interrupt ;;; default_table n (i + 1)
  end.

Definition install_default_handlers : IM unit :=
  ik (upd_int (fun r => mk_int_mod (imask r) (interrupt_flags r) 0 0)) ;;;
  evt_ivg_install 7 (interrupt_vector 7) ;;;
  evt_ivg_install 8 (interrupt_vector 8) ;;;
  evt_ivg_install 9 (interrupt_vector 9) ;;;
  evt_ivg_install 10 (interrupt_vector 10) ;;;
  evt_ivg_install 11 (interrupt_vector 11) ;;;
  evt_ivg_install 12 (interrupt_vector 12) ;;;
  evt_ivg_install 13 (interrupt_vector 13) ;;;
  default_table 7 0 ;;;
  put EVT set_EVT 3 exception_entry ;;;
  evt_ivg_install 14 schedule_from_int ;;;
  ik (mask_interrupt 14) ;;;
  modify (set_ILAT (u32 (-1))).

(** The handler is the second word of the packet. *)
Definition def_inh_sys (inhno pk_dinh : Z) : IM sysres :=
  if (inhno <? 7) || (inhno >? 13) then ret (Done E_PAR) else
  if nz (Z.land pk_dinh 0x3) then ret (Done E_PAR) else
  ik hw_cli ;;;
  ik (write_log TFN_DEF_INH inhno E_OK) ;;;
  (if negb (nz pk_dinh) then
     release_handler inhno ;;;
     ik hw_sti ;;;
     ik (unmask_interrupt inhno)
   else
     let* inthdr := ik (kmem (load (pk_dinh + 4))) in
     install_handler inhno inthdr ;;;
     ik hw_sti ;;;
     ik (mask_interrupt inhno)) ;;;
  ret (Done E_OK).

(** [_common_interrupt_body], entered with the number of the table entry. *)
Definition common_interrupt_body (call : Z -> KM unit) (irq : Z) : IM unit :=
  ik (upd_int (fun r => mk_int_mod (imask r) (interrupt_flags r) (u32 (int_nest_count r + 1)) (need_resched r))) ;;;
  ik (write_log 0xEE irq 0) ;;;
  let* t := gets interrupt_table in
  let* h := deref (t !! Z.to_nat irq) in
  ik (call h) ;;;
  ik (upd_int (fun r => mk_int_mod (imask r) (interrupt_flags r) (u32 (int_nest_count r - 1)) (need_resched r))) ;;;
  let* n := gets (fun s => int_nest_count (k_int (i_k s))) in
  if negb (n =? 0) then ret tt else
  ik (write_log 0xEE irq 0) ;;;
  let* r := gets (fun s => need_resched (k_int (i_k s))) in
  if negb (r =? 1) then ret tt else
  ik scheduler.

End handlers.

(** ** Lemmas *)

Lemma wp_ik {A} (m : KM A) (Q : A -> ints -> Prop) s :
  wp m (fun a k => Q a (set_i_k k s)) (i_k s) -> wp (ik m) Q s.
Proof. unfold wp, ik, zoom. by destruct (m (i_k s)) as [[a k]|]. Qed.

Lemma wp_put get set i v (Q : unit -> ints -> Prop) s : 0 <= i < Z.of_nat (length (get s)) ->
  Q tt (set (<[Z.to_nat i := v]> (get s)) s) -> wp (put get set i v) Q s.
Proof.
  intros Hi HQ. unfold put. apply wp_bind, wp_gets.
  destruct (Z.ltb_spec i 0), (Z.geb_spec i (Z.of_nat (length (get s)))); cbn [orb]; try lia. by apply wp_modify.
Qed.

(** The table has its seven entries and the controller its sixteen. *)
Definition vectors_ok (s : ints) : Prop := length (interrupt_table s) = 7%nat /\ length (EVT s) = 16%nat.

Definition bad_inhno (inhno : Z) : bool := (inhno <? 7) || (inhno >? 13).

(** The mask after [def_inh]: the bit of the vector is set when a handler is
    installed, and all the other bits when one is released. *)
Definition def_inh_mask (inhno pk im : Z) : Z :=
  Z.lor im (if nz pk then MK_BMSK_ inhno else u32 (Z.lnot (MK_BMSK_ inhno))).

Lemma kinv_int s R W T i : kinv s R W T -> int_nest_count i = int_nest_count (k_int s) -> kinv (set_k_int i s) R W T.
Proof. intros [H Hc] Hi. split; [by apply kinv0_int|done]. Qed.

Lemma wp_def_inh_sys uh inhno pk s R W T (Q : sysres -> ints -> Prop) :
  kinv (i_k s) R W T -> vectors_ok s -> (nz pk = true -> valid_addr (pk + 4) = true) ->
  (bad_inhno inhno || nz (Z.land pk 3) = true -> Q (Done E_PAR) s) ->
  (forall k, bad_inhno inhno || nz (Z.land pk 3) = false -> kinv k R W T ->
     imask (k_int k) = def_inh_mask inhno pk (imask (k_int (i_k s))) -> k_mem k = k_mem (i_k s) ->
     int_nest_count (k_int k) = int_nest_count (k_int (i_k s)) ->
     Q (Done E_OK) (set_i_k k (set_interrupt_table
       (<[Z.to_nat (inhno - 7) := if nz pk then peek (k_mem (i_k s)) (pk + 4) else uh]> (interrupt_table s)) s))) ->
  wp (def_inh_sys uh inhno pk) Q s.
Proof.
  intros Hk [Ht _] Hpk Hbad Hok. unfold def_inh_sys. fold (bad_inhno inhno).
  destruct (bad_inhno inhno) eqn:Eb; [by apply wp_ret, Hbad|]. destruct (nz (Z.land pk 3)); [by apply wp_ret, Hbad|].
  assert (7 <= inhno <= 13) as Hn.
  { unfold bad_inhno in Eb. destruct (Z.ltb_spec inhno 7), (Z.gtb_spec inhno 13); (done || lia). }
  apply wp_bind, wp_ik, wp_cli, wp_bind, wp_ik. pose proof (kinv_cli _ _ _ _ Hk) as Hk1.
  apply wp_write_log; [apply Hk1|]. intros l Hl. pose proof (kinv_log _ _ _ _ l Hk1 Hl) as Hk2.
  set (k2 := set_k_log l (cli_state (i_k s))) in *. apply wp_bind. destruct (nz pk) eqn:Ep; cbn [negb].
  - apply wp_bind, wp_ik, wp_kmem, wp_load; [by apply Hpk|]. apply wp_bind. unfold install_handler.
    apply wp_put; [cbn; lia|]. apply wp_bind, wp_ik, wp_sti, wp_ik. unfold mask_interrupt, upd_int. apply wp_modify, wp_ret.
    apply Hok; [done| |cbn; unfold def_inh_mask; by rewrite Ep|done|done]. apply kinv_int; [|done]. by apply kinv_sti.
  - unfold release_handler. apply wp_bind, wp_put; [cbn; lia|].
    apply wp_bind, wp_ik, wp_sti, wp_ik. unfold unmask_interrupt, upd_int. apply wp_modify, wp_ret.
    apply Hok; [done| |cbn; unfold def_inh_mask; by rewrite Ep|done|done]. apply kinv_int; [|done]. by apply kinv_sti.
Qed.

(** ** Interrupts *)

Definition set_nest (n : Z) (k : kstate) : kstate :=
  set_k_int (mk_int_mod (imask (k_int k)) (interrupt_flags (k_int k)) n (need_resched (k_int k))) k.

(** What the kernel asks of the code of the handlers: they keep its invariant,
    the nesting count apart, which they leave alone. *)
Class IsrOk (call : Z -> KM unit) : Prop :=
  isr_keeps : forall h k, kernel_ok (set_nest 0 k) ->
    wp (call h) (fun _ k' => kernel_ok (set_nest 0 k') /\ int_nest_count (k_int k') = int_nest_count (k_int k)) k.

Lemma set_nest_int k i : kernel_ok (set_nest 0 k) -> imask i = imask (k_int k) -> interrupt_flags i = interrupt_flags (k_int k) ->
  need_resched i = need_resched (k_int k) -> kernel_ok (set_nest 0 (set_k_int i k)).
Proof. intros H E1 E2 E3. unfold set_nest, set_k_int in *. cbn in *. by rewrite E1, E2, E3. Qed.

Lemma wp_write_log_nest ev a1 a2 k (Q : unit -> kstate -> Prop) : kernel_ok (set_nest 0 k) ->
  (forall l, kernel_ok (set_nest 0 (set_k_log l k)) -> Q tt (set_k_log l k)) -> wp (write_log ev a1 a2) Q k.
Proof.
  intros (R & W & T & H) HQ. apply wp_write_log; [apply H|]. intros l Hl. apply HQ.
  exists R, W, T. exact (kinv_log _ _ _ _ l H Hl).
Qed.

Lemma wp_common_interrupt_body call `{!IsrOk call} irq s h : kernel_ok (set_nest 0 (i_k s)) -> vectors_ok s ->
  0 <= int_nest_count (k_int (i_k s)) < 2 ^ 32 - 1 -> 0 <= irq -> interrupt_table s !! Z.to_nat irq = Some h ->
  wp (common_interrupt_body call irq) (fun _ s' =>
    kernel_ok (set_nest 0 (i_k s')) /\ int_nest_count (k_int (i_k s')) = int_nest_count (k_int (i_k s)) /\
    s' = set_i_k (i_k s') s /\
    exists k1 k2, call h k1 = Some (tt, k2) /\ int_nest_count (k_int k1) = int_nest_count (k_int (i_k s)) + 1 /\
      (int_nest_count (k_int (i_k s)) = 0 -> need_resched (k_int k2) = 1 -> exists R, scheduled (i_k s') R)) s.
Proof.
  intros Hk Hv Hn Hirq Hh. unfold common_interrupt_body. apply wp_bind, wp_ik, wp_modify.
  set (n := int_nest_count (k_int (i_k s))) in *. rewrite (u32_small (n + 1)) by lia.
  apply wp_bind, wp_ik, wp_write_log_nest; [by apply set_nest_int|]. intros l Hl. cbn [i_k set_i_k].
  apply wp_bind, wp_gets, wp_bind. cbn [interrupt_table set_i_k]. eapply wp_deref; [exact Hh|].
  set (k1 := set_k_log l _) in *. apply wp_bind, wp_ik. cbn [i_k set_i_k].
  destruct (wp_returns _ _ _ (isr_keeps h k1 Hl)) as ([] & k2 & Ec & Hk2 & Hn2). eapply wp_intro; [exact Ec|].
  assert (int_nest_count (k_int k1) = n + 1) as E1 by done. rewrite E1 in Hn2.
  apply wp_bind, wp_ik, wp_modify. cbn [i_k set_i_k]. rewrite Hn2. replace (n + 1 - 1) with n by lia. rewrite u32_small by lia.
  apply wp_bind, wp_gets. cbn [i_k set_i_k k_int set_k_int int_nest_count].
  assert (kernel_ok (set_nest 0 (set_nest n k2))) as Hk3 by (by apply set_nest_int).
  destruct (Z.eqb_spec n 0) as [E0|E0]; cbn [negb].
  2: { apply wp_ret. cbn. split_and!; [exact Hk3|done|done|]. by exists k1, k2. }
  apply wp_bind, wp_ik, wp_write_log_nest; [exact Hk3|]. intros l' Hl'. cbn [i_k set_i_k].
  apply wp_bind, wp_gets. cbn [i_k set_i_k k_int set_k_int set_k_log need_resched].
  destruct (Z.eqb_spec (need_resched (k_int k2)) 1) as [Er|Er]; cbn [negb].
  2: { apply wp_ret. cbn. split_and!; [exact Hl'|done|done|]. by exists k1, k2. }
  apply wp_ik. cbn [i_k set_i_k].
  assert (kernel_ok (set_k_log l' (set_nest n k2))) as (R & W & T & H) by (by rewrite E0).
  eapply wp_scheduler_kinv; [apply H|]. intros k' c d Hk' Hs Hd _ _. cbn [i_k set_i_k].
  assert (int_nest_count (k_int k') = n) as En by (by rewrite (sf_nest _ _ (dp_frame _ _ _ _ Hd))).
  assert (set_nest 0 k' = k') as Ek' by (destruct k' as [? ? ? ? [] ?]; unfold set_nest, set_k_int; cbn in *; by subst n; rewrite En, E0).
  split_and!; [rewrite Ek'; by exists R, W, T|done|done|]. exists k1, k2. split_and!; [done|done|]. intros _ _. by exists R.
Qed.

(** At start-up every vector leads to [unhandled_interrupt]. *)
Lemma wp_install_default_handlers iv uh ex sch s : vectors_ok s ->
  wp (install_default_handlers iv uh ex sch) (fun _ s' => vectors_ok s' /\ interrupt_table s' = replicate 7 uh /\
    (forall n, 7 <= n <= 13 -> EVT s' !! Z.to_nat n = Some (iv n)) /\ EVT s' !! 3%nat = Some ex /\ EVT s' !! 14%nat = Some sch /\
    int_nest_count (k_int (i_k s')) = 0) s.
Proof.
  destruct s as [k t ev il]. intros [Ht He]. cbn in Ht, He.
  do 8 (destruct t as [|? t]; try (cbn in Ht; lia)). do 17 (destruct ev as [|? ev]; try (cbn in He; lia)). clear Ht He.
  match goal with |- wp ?m _ ?s => let r := eval vm_compute in (m s) in
    match r with Some (?a, ?s') => apply (wp_intro m _ s a s'); [by vm_compute|] end end.
  split_and!; try done. intros n Hn. assert (n = 7 \/ n = 8 \/ n = 9 \/ n = 10 \/ n = 11 \/ n = 12 \/ n = 13) as H by lia.
  destruct H as [->|[->|[->|[->|[->|[->| ->]]]]]]; done.
Qed.
