(* ===== verification/Guarantees.v ===== *)
(** * What the kernel guarantees: system, scheduling, time and tasks

    The theorems about the whole kernel, each followed by its instance at a
    concrete state of [Boot]. *)

From Stdlib Require Import ZArith Lia.
From stdpp Require Import base tactics gmap option functions countable list.
From S2P Require Import Prelude Bits Queue Qfam Mem Mpool Kstate Tlsf Syslog Sched Timeout Dispatch.
From S2P Require Import Kinv Ktime Waitobj Task Semaphore Event Mailbox Mempool Kernel Setup Boot.
From S2P Require Import TlsfMap TlsfFree TlsfHeap TlsfAlloc TlsfMalloc TlsfPool KernelHeap.

Open Scope Z_scope.
Open Scope kernel_scope.

Module System.

(** C1. Every state that the machine reaches from start-up by covered system
    calls, ends of system calls and timer interrupts satisfies the invariant:
    each task is in at most one of the ready, wait and timeout queues, the
    links of every queue denote its list, the ready bitmap marks the non-empty
    priorities, the running task is ready or is the idle task. Start-up is with any
    network stack that keeps the invariant and with drivers that leave the kernel
    data alone. *)
Theorem reachable_invariant h mem im mask cyc s m :
  orderly_hooks h -> start_kernel h (reset mem im mask cyc) = Some (tt, s) ->
  reachable covered (mk_machine s (fun _ => None)) m -> machine_ok m.
Proof.
  intros Hh E. apply reachable_ok. split; [|done].
  eapply started_ok; [exact Hh|exact E].
Qed.

Lemma reachable_invariant_witness : reachable covered at_boot at_tick /\ machine_ok at_tick.
Proof.
  split; [exact at_tick_reachable|].
  exact (reachable_invariant no_hooks ∅ board 1 0 boot0 at_tick (quiet_orderly _ no_hooks_quiet) boot0_eq at_tick_reachable).
Defined.

(** C2. In every reachable state a covered system call of the running task that
    uses no memory of its caller and no allocator returns: it dereferences no
    bad pointer, leaves no array and ends, and the invariant holds after it. Start-up
    is with any network stack that keeps the invariant and with drivers that leave
    the kernel data alone. *)
Theorem reachable_call_returns h mem im mask cyc s m c sc :
  orderly_hooks h -> start_kernel h (reset mem im mask cyc) = Some (tt, s) ->
  reachable covered (mk_machine s (fun _ => None)) m ->
  current_task (k_sched (mk m)) = Some c -> ~ is_idle (mk m) c ->
  covered (mk m) sc -> returning sc = true ->
  exists r s', exec sc (mk m) = Some (r, s') /\ kernel_ok s'.
Proof.
  intros Hh E Hr Hc Hi Hcov Hret.
  assert (machine_ok m) as [Hk _].
  { eapply reachable_ok; [|exact Hr]. split; [by eapply started_ok|done]. }
  pose proof (exec_returns (mk m) c sc Hk Hc Hi Hcov Hret) as Hw. unfold wp in Hw.
  destruct (exec sc (mk m)) as [[r s']|]; [by exists r, s'|done].
Qed.

Lemma reachable_call_returns_witness :
  exists r s', exec (Csig_sem 1) boot0 = Some (r, s') /\ kernel_ok s'.
Proof.
  exact (reachable_call_returns no_hooks ∅ board 1 0 boot0 at_boot 1 (Csig_sem 1) (quiet_orderly _ no_hooks_quiet) boot0_eq
    (rtc_refl _ _) boot0_cur boot0_main I eq_refl).
Defined.

(** C3. Start-up with any network stack whose [init_lwip_stack] keeps the invariant
    (apart from the switch, which is off until the end), leaves the interrupt mask
    and leaves a task slot free, and with drivers that leave the kernel data alone:
    when [start_kernel] gets to its end, from any memory and with any memory map,
    the main task has been created in the first free slot, with the entry of the
    image, the highest priority and the next identifier, behind the tasks of its
    priority that [init_lwip_stack] has made ready; the invariant holds with the
    lists of [init_lwip_stack] and the main task; the first ready task of the highest
    priority has the processor, which is the main task when the network made no task
    of that priority ready; the other tasks and the objects are those that
    [init_lwip_stack] left, the time is zero and the interrupt mask is the initial
    one. With no network stack the main task is the only ready task. *)
Theorem start_kernel_runs_main h mem im mask cyc s :
  orderly_hooks h -> start_kernel h (reset mem im mask cyc) = Some (tt, s) ->
  (exists s0 s1 R W T, first_state s0 /\ init_lwip_stack h s0 = Some (tt, s1) /\ network s0 s1 R W T /\
     started s1 s R W T /\ imask (k_int s) = mask) /\
  (quiet (init_lwip_stack h) -> kinv s boot_ready no_wait [] /\ current_task (k_sched s) = Some 1%nat).
Proof.
  intros Hh E. split; [exact (wlp_elim _ _ _ _ _ (wlp_start_kernel_orderly h mem im mask cyc Hh) E)|].
  intros Hq. destruct Hh as [Hd _].
  destruct (wlp_elim _ _ _ _ _ (wlp_start_kernel h mem im mask cyc (Build_quiet_hooks _ Hd Hq)) E) as (H1 & H2 & _). done.
Qed.

(** A board whose network creates and activates a thread of priority 5, and one
    without a network. *)
Lemma start_kernel_runs_main_witness :
  (exists s0 s1 R W T, first_state s0 /\ net_thread net_ctsk s0 = Some (tt, s1) /\ network s0 s1 R W T /\
     started s1 boot_net R W T /\ imask (k_int boot_net) = 1) /\
  tskpri <$> task_pool (k_task boot_net) !! 1%nat = Some 5 /\ current_task (k_sched boot_net) = Some 2%nat /\
  (kinv boot0 boot_ready no_wait [] /\ current_task (k_sched boot0) = Some 1%nat).
Proof.
  split; [exact (proj1 (start_kernel_runs_main net_hooks ∅ board 1 0 boot_net net_hooks_orderly boot_net_eq))|].
  split; [vm_compute; reflexivity|]. split; [vm_compute; reflexivity|].
  exact (proj2 (start_kernel_runs_main no_hooks ∅ board 1 0 boot0 (quiet_orderly _ no_hooks_quiet) boot0_eq)
    (qh_lwip _ no_hooks_quiet)).
Defined.

End System.

Module Scheduling.

(** C4. The scheduler gives the processor to the first task of the highest
    priority that has a ready task, and to the idle task when no task is ready;
    the queues are unchanged. *)
Theorem scheduler_highest_priority s R W T :
  kinv0 s R W T ->
  wp scheduler (fun _ s' => kinv s' R W T /\ exists c, current_task (k_sched s') = Some c /\
    ((is_idle s c /\ forall p, R p = []) \/
     exists p l, R p = c :: l /\ forall q, (q < p)%nat -> R q = [])) s.
Proof.
  intros H. eapply wp_scheduler_kinv; [exact H|]. intros s' c d HK _ Hd _ Hi. split; [done|].
  exists (next_task R d). split; [apply Hd|]. unfold next_task. destruct (rq_top R) as [i|] eqn:E; simpl.
  - right. destruct (rq_top_spec R i E) as (p & l & _ & Ep & Hq). by exists p, l.
  - left. split; [done|]. apply rq_top_None; [|done]. apply (ki_rq _ _ _ _ H).
Qed.

Lemma scheduler_highest_priority_witness :
  wp scheduler (fun _ s' => kinv s' boot_ready no_wait [] /\ exists c, current_task (k_sched s') = Some c /\
    ((is_idle boot0 c /\ forall p, boot_ready p = []) \/
     exists p l, boot_ready p = c :: l /\ forall q, (q < p)%nat -> boot_ready q = [])) boot0.
Proof. exact (scheduler_highest_priority boot0 _ _ _ (proj1 boot0_kinv)). Defined.

(** C5. A timer interrupt: the time advances by one, exactly the sleeping tasks
    whose wake-up time has come become ready, each at the end of the queue of
    its priority and in the order of their wake-up times, and the scheduler
    chooses among the ready tasks. *)
Theorem timer_interrupt s R W T :
  kinv s R W T ->
  let pool := task_pool (k_task s) in let now := u64 (i64 (system_time (k_time s) + 1)) in
  wp evt_timer (fun _ s' =>
    let R' := foldl (rq_append pool) R (tq_expired pool now T) in
    kinv s' R' W (tq_asleep pool now T) /\ scheduled s' R' /\
    system_time (k_time s') = i64 (system_time (k_time s) + 1) /\
    (forall i, i ∈ tq_expired pool now T <-> i ∈ T /\ wup_of pool i <= now)) s.
Proof.
  intros H pool now. eapply wp_evt_timer; [apply H|]. intros s' pool' now' HK Hs Ht _ _ _.
  split_and!; [exact HK|exact Hs|exact Ht|]. intros i. apply elem_of_tq_expired.
  apply (tq_sorted _ _ _ _ (ki_tq _ _ _ _ (proj1 H))).
Qed.

Lemma timer_interrupt_witness :
  wp evt_timer (fun _ s' =>
    let pool := task_pool (k_task slp0) in let now := u64 (i64 (system_time (k_time slp0) + 1)) in
    let R' := foldl (rq_append pool) (rq_drop boot_ready 0 1) (tq_expired pool now [1%nat]) in
    kinv s' R' no_wait (tq_asleep pool now [1%nat]) /\ scheduled s' R' /\
    system_time (k_time s') = i64 (system_time (k_time slp0) + 1) /\
    (forall i, i ∈ tq_expired pool now [1%nat] <-> i ∈ [1%nat] /\ wup_of pool i <= now)) slp0.
Proof. exact (timer_interrupt slp0 _ _ _ slp0_kinv). Defined.

(** C6. A sleeping task wakes up: a task that sleeps until the time [w] is still
    asleep after any number of ticks that leaves the time before [w], and is in
    the ready queue of its priority after any number of ticks that reaches [w]. *)
Theorem sleeping_task_wakes n s R W T i w :
  kinv s R W T -> i ∈ T -> wup_of (task_pool (k_task s)) i = w ->
  0 <= system_time (k_time s) < w -> w < 2 ^ 63 ->
  wp (ticks n) (fun _ s' => exists R' T', kinv s' R' W T' /\
    if system_time (k_time s) + Z.of_nat n <? w then i ∈ T'
    else i ∈ R' (pri_of (task_pool (k_task s)) i)) s.
Proof. apply wp_ticks_sleep. Qed.

Lemma sleeping_task_wakes_witness :
  wp (ticks 3) (fun _ s' => exists R' T', kinv s' R' no_wait T' /\
    if system_time (k_time slp0) + Z.of_nat 3 <? 3 then 1%nat ∈ T'
    else 1%nat ∈ R' (pri_of (task_pool (k_task slp0)) 1)) slp0.
Proof.
  apply (sleeping_task_wakes 3 slp0 (rq_drop boot_ready 0 1) no_wait [1%nat] 1 3).
  - exact slp0_kinv.
  - left.
  - run.
  - assert (system_time (k_time slp0) = 0) as -> by run. lia.
  - lia.
Defined.

End Scheduling.

Module Tasks.

(** C37. [act_tsk]: an identifier out of range is [E_ID], a task that does not
    exist is [E_NOEXS], both without effect but on the saved mask; a dormant task
    becomes ready at the end of the queue of its priority, any other task only has
    its activation counted, and in both cases the scheduler has then chosen the
    running task; the other tasks apart from the switch, the memory, the objects and
    the time are unchanged. *)
Theorem act_tsk_activates s R W T id :
  kinv s R W T ->
  wp (act_tsk_sys id) (fun r s' => task_call s id r s' (fun i t =>
    r = Cont (KReturn E_OK) /\ rescheduled_with s s' i (activated_task t) /\
    let R' := if tskstat t =? TTS_DMT then rq_append (task_pool (k_task s)) R i else R in
    kinv s' R' W T /\ scheduled s' R')) s.
Proof. apply wp_act_tsk. Qed.

Lemma act_tsk_activates_witness :
  wp (act_tsk_sys 3) (fun r s' => task_call tsk0 3 r s' (fun i t =>
    r = Cont (KReturn E_OK) /\ rescheduled_with tsk0 s' i (activated_task t) /\
    let R' := if tskstat t =? TTS_DMT then rq_append (task_pool (k_task tsk0)) boot_ready i else boot_ready in
    kinv s' R' no_wait [] /\ scheduled s' R')) tsk0.
Proof. exact (act_tsk_activates tsk0 _ _ _ 3 tsk0_kinv). Defined.

(** C7. [tslp_tsk(n)] with a timeout of at least one tick: the caller leaves the
    ready queue for the timeout queue, which stays sorted by wake-up time, to
    wake up [n] ticks from now, and the scheduler has chosen another task. *)
Theorem tslp_tsk_sleeps s R W T c tmout :
  kinv s R W T -> current_task (k_sched s) = Some c -> ~ is_idle s c ->
  1 <= tmout < u32 (-1) ->
  wp (tslp_tsk_sys tmout) (fun r s' => exists p t, c ∈ R p /\ task_pool (k_task s) !! c = Some t /\
    r = Cont (KReturn E_OK) /\ imask (k_int s') = imask (k_int s) /\
    let w := u64 (tmout + system_time (k_time s)) in
    let T' := tq_place (<[c := set_wuptim w t]> (task_pool (k_task s))) w c T in
    kinv s' (rq_drop R p c) W T' /\ scheduled s' (rq_drop R p c)) s.
Proof. apply wp_tslp_tsk. Qed.

Lemma tslp_tsk_sleeps_witness :
  wp (tslp_tsk_sys 3) (fun r s' => exists p t, 1%nat ∈ boot_ready p /\ task_pool (k_task boot0) !! 1%nat = Some t /\
    r = Cont (KReturn E_OK) /\ imask (k_int s') = imask (k_int boot0) /\
    let w := u64 (3 + system_time (k_time boot0)) in
    let T' := tq_place (<[1%nat := set_wuptim w t]> (task_pool (k_task boot0))) w 1 [] in
    kinv s' (rq_drop boot_ready p 1) no_wait T' /\ scheduled s' (rq_drop boot_ready p 1)) boot0.
Proof.
  apply (tslp_tsk_sleeps boot0 boot_ready no_wait [] 1 3); [exact boot0_kinv|exact boot0_cur|exact boot0_main|].
  split; [lia|run].
Defined.

(** [exd_tsk]: the caller leaves the ready queue, its slot is free again, no
    other queue changes, and the scheduler has chosen another task. *)
Theorem exd_tsk_frees s R W T c :
  kinv s R W T -> current_task (k_sched s) = Some c -> ~ is_idle s c ->
  wp exd_tsk_sys (fun r s' => exists p, c ∈ R p /\ r = Cont KExit /\
    imask (k_int s') = imask (k_int s) /\ (~ live s' c) /\
    kinv s' (rq_drop R p c) W T /\ scheduled s' (rq_drop R p c)) s.
Proof. apply wp_exd_tsk. Qed.

Lemma exd_tsk_frees_witness :
  wp exd_tsk_sys (fun r s' => exists p, 1%nat ∈ boot_ready p /\ r = Cont KExit /\
    imask (k_int s') = imask (k_int boot0) /\ (~ live s' 1%nat) /\
    kinv s' (rq_drop boot_ready p 1) no_wait [] /\ scheduled s' (rq_drop boot_ready p 1)) boot0.
Proof. exact (exd_tsk_frees boot0 _ _ _ 1 boot0_kinv boot0_cur boot0_main). Defined.

(** [chg_pri] of a task other than the idle task: parameter errors leave
    the state as it is; a ready task moves to the end of the queue of its new
    priority, and the scheduler has chosen. *)
Theorem chg_pri_moves s R W T id pri :
  kinv s R W T -> ~ is_idle s (Z.to_nat (id - 1)) -> 0 <= pri ->
  wp (chg_pri_sys id pri) (fun r s' =>
    if bad_tskid id then r = Done E_ID /\ s' = s else
    if pri >? MIN_TASK_PRIORITY then r = Done E_PAR /\ s' = s else
    task_call s id r s' (fun i t =>
      r = Cont (KReturn E_OK) /\
      if tskstat t =? TTS_RDY
      then let R' := rq_move R i (Z.to_nat (tskpri t)) (Z.to_nat pri) in
           kinv s' R' W T /\ scheduled s' R'
      else kinv s' R W T /\ scheduled s' R)) s.
Proof. apply wp_chg_pri. Qed.

Lemma chg_pri_moves_witness :
  wp (chg_pri_sys 2 9) (fun r s' => 
    task_call boot0 2 r s' (fun i t =>
      r = Cont (KReturn E_OK) /\
      if tskstat t =? TTS_RDY
      then let R' := rq_move boot_ready i (Z.to_nat (tskpri t)) (Z.to_nat 9) in
           kinv s' R' no_wait [] /\ scheduled s' R'
      else kinv s' boot_ready no_wait [] /\ scheduled s' boot_ready)) boot0.
Proof. exact (chg_pri_moves boot0 _ _ _ 2 9 boot0_kinv boot0_main ltac:(done)). Defined.

(** C8. [cre_tsk], for a kernel task with a stack that can be written or a user
    task while the fast pool is in order, returns: bad parameters are reported
    without effect, an identifier in use with no effect but on the variable that
    saves the interrupt mask. Otherwise the state is known: the slot holds a new
    dormant task with the attributes of the packet and is taken; a kernel task has
    its stack pointer two words below the end of the stack of the packet; the
    kernel stack of a user task is a block that the allocator takes from the fast
    pool, and its user stack pointer is one word below the end of the stack of the
    packet; the start address is on top of the kernel stack; the list nodes of the
    task are new and there is one more entry in the log. Apart from the variable
    that saves the interrupt mask nothing else changes, and the invariant holds for
    the same queues. *)
Theorem cre_tsk_creates s R W T id pk :
  kinv s R W T -> (forall pk', pk = Some pk' -> stack_ok s pk') ->
  wp (cre_tsk_sys id pk) (fun r s' =>
    let i := Z.to_nat (id - 1) in
    imask (k_int s') = imask (k_int s) /\
    if bad_tskid id then r = Done E_ID /\ s' = s else
    match pk with
    | None => r = Done E_PAR /\ s' = s
    | Some pk =>
        if bad_ctsk pk then r = Done E_PAR /\ s' = s else
        (live s i /\ r = Done E_OBJ /\ kinv s' R W T /\ s' = sti_state (cli_state s)) \/
        ((~ live s i) /\ r = Done E_OK /\ creates s s' R W T i pk TFN_CRE_TSK)
    end) s.
Proof. apply wp_cre_tsk. Qed.

(** The fast pool of the board, just initialized. *)
Definition fast_mem : gmap Z Z := new_pool 0x200000 0x10000.
Definition boot_fast : kstate := set_k_mem fast_mem boot0.

Lemma boot_fast_stack : stack_ok boot_fast user_ctsk.
Proof.
  unfold stack_ok. change (nz (Z.land (c_exinf user_ctsk) TSK_KERNEL)) with false. cbv iota.
  assert (kfast_pool (k_setup boot_fast) = 0x200000) as -> by run.
  destruct (new_pool_ok 0x200000 0x10000) as [F HF]; [lia|done|by split|lia|]. eauto.
Qed.

Lemma cre_tsk_creates_witness :
  wp (cre_tsk_sys 3 (Some user_ctsk)) (fun r s' => imask (k_int s') = imask (k_int boot_fast) /\
        ((live boot_fast 2 /\ r = Done E_OBJ /\ kinv s' boot_ready no_wait [] /\ s' = sti_state (cli_state boot_fast)) \/
        ((~ live boot_fast 2) /\ r = Done E_OK /\ creates boot_fast s' boot_ready no_wait [] 2 user_ctsk TFN_CRE_TSK))) boot_fast.
Proof.
  refine (cre_tsk_creates boot_fast boot_ready no_wait [] 3 (Some user_ctsk) (kinv_set_mem boot0 _ _ _ fast_mem boot0_kinv) _).
  intros pk' [= <-]. exact boot_fast_stack.
Defined.

(** [acre_tsk], on the same conditions, creates the task with the lowest free
    identifier, and [E_NOID] is returned only when every identifier is in use. *)
Theorem acre_tsk_lowest_id s R W T pk :
  kinv s R W T -> (forall pk', pk = Some pk' -> stack_ok s pk') ->
  wp (acre_tsk_sys pk) (fun r s' =>
    imask (k_int s') = imask (k_int s) /\
    match pk with
    | None => r = Done E_PAR /\ s' = s
    | Some pk =>
        if bad_ctsk pk || (c_stk pk =? NULL) then r = Done E_PAR /\ s' = s else
        (r = Done E_NOID /\ kinv s' R W T /\ forall i, Z.of_nat i < MAX_TASKS -> live s i) \/
        exists i, Z.of_nat i < MAX_TASKS /\ (~ live s i) /\ (forall j, (j < i)%nat -> live s j) /\
          r = Done (Z.of_nat i + 1) /\ created s s' R W T i pk
    end) s.
Proof. apply wp_acre_tsk. Qed.

Lemma acre_tsk_lowest_id_witness :
  wp (acre_tsk_sys (Some ctsk)) (fun r s' => imask (k_int s') = imask (k_int boot0) /\
    ((r = Done E_NOID /\ kinv s' boot_ready no_wait [] /\ forall i, Z.of_nat i < MAX_TASKS -> live boot0 i) \/
     exists i, Z.of_nat i < MAX_TASKS /\ (~ live boot0 i) /\ (forall j, (j < i)%nat -> live boot0 j) /\
       r = Done (Z.of_nat i + 1) /\ created boot0 s' boot_ready no_wait [] i ctsk)) boot0.
Proof.
  refine (acre_tsk_lowest_id boot0 boot_ready no_wait [] (Some ctsk) boot0_kinv _). intros pk' [= <-]. reflexivity.
Defined.

End Tasks.
