(* ===== verification/GuaranteesObj.v ===== *)
(** * What the kernel guarantees: semaphores, eventflags, mailboxes and pools

    The refinement theorems of the synchronization and memory objects, each
    followed by its instance at a concrete state of [Boot]. *)

From Stdlib Require Import ZArith Lia.
From stdpp Require Import base tactics gmap option functions countable list.
From S2P Require Import Prelude Bits Queue Qfam Mem Mpool Kstate Tlsf Syslog Sched Timeout Dispatch.
From S2P Require Import Kinv Ktime Waitobj Task Semaphore Event Mailbox Mempool Kernel Setup Boot.

Open Scope Z_scope.
Open Scope kernel_scope.

Module Semaphores.

(** C9. [wai_sem] refines the abstract semaphore: bad identifiers are reported;
    a unit is taken when there is one; otherwise the caller joins the end of the
    queue of the semaphore and the scheduler has chosen the next task. *)
Theorem wai_sem_refines s A S c id :
  sem_impl s A S -> current_task (k_sched s) = Some c -> ~ is_idle s c ->
  wp (wai_sem_sys id) (fun r s' =>
    let '(r', A', S') := a_wai_sem c id A S in
    r = r' /\ sem_impl s' A' S' /\ imask (k_int s') = imask (k_int s) /\ rescheduled r s' A') s.
Proof. apply wp_wai_sem. Qed.

Lemma wai_sem_refines_witness :
  wp (wai_sem_sys 1) (fun r s' =>
    let '(r', A', S') := a_wai_sem 1 1 boot_kernel (sems1 1) in
    r = r' /\ sem_impl s' A' S' /\ imask (k_int s') = imask (k_int sem0) /\ rescheduled r s' A') sem0.
Proof. exact (wai_sem_refines sem0 _ _ 1 1 sem0_impl (proj1 sem0_main) (proj2 sem0_main)). Defined.

(** C10. [sig_sem] refines the abstract semaphore: a full semaphore overflows
    without effect; the first waiting task gets the unit and becomes ready; with
    nobody waiting the unit is counted. *)
Theorem sig_sem_refines s A S c id :
  sem_impl s A S -> current_task (k_sched s) = Some c ->
  wp (sig_sem_sys id) (fun r s' =>
    let '(r', A', S') := a_sig_sem id A S in
    r = r' /\ sem_impl s' A' S' /\ imask (k_int s') = imask (k_int s) /\ rescheduled r s' A') s.
Proof. apply wp_sig_sem. Qed.

Lemma sig_sem_refines_witness :
  wp (sig_sem_sys 1) (fun r s' =>
    let '(r', A', S') := a_sig_sem 1 boot_kernel (sems1 1) in
    r = r' /\ sem_impl s' A' S' /\ imask (k_int s') = imask (k_int sem0) /\ rescheduled r s' A') sem0.
Proof. exact (sig_sem_refines sem0 _ _ 1 1 sem0_impl (proj1 sem0_main)). Defined.

(** [del_sem]: the semaphore is gone, every waiting task has become ready in
    arrival order, and each of them will read [E_DLT]. *)
Theorem del_sem_wakes_all s A S id :
  sem_impl s A S ->
  wp (del_sem_sys id) (fun r s' =>
    if bad_semid id then r = Done E_ID /\ s' = s else
    let i := Z.to_nat (id - 1) in
    imask (k_int s') = imask (k_int s) /\
    match S i with
    | None => r = Done E_NOEXS /\ sem_impl s' A S
    | Some _ =>
        let ws := a_wait A (WSem i) in
        r = Done E_OK /\ told (set_wobjid E_DLT) (task_pool (k_task s)) (task_pool (k_task s')) ws /\
        sem_impl s' (mk_ak (a_pri A) (foldl (rq_append (task_pool (k_task s))) (a_ready A) ws)
                      (<[WSem i := []]> (a_wait A)) (a_sleep A))
                    (<[i := None]> S)
    end) s.
Proof. apply wp_del_sem. Qed.

Lemma del_sem_wakes_all_witness :
  wp (del_sem_sys 1) (fun r s' =>
    imask (k_int s') = imask (k_int sem0) /\
        r = Done E_OK /\ told (set_wobjid E_DLT) (task_pool (k_task sem0)) (task_pool (k_task s')) [] /\
        sem_impl s' (mk_ak (a_pri boot_kernel) (a_ready boot_kernel)
                      (<[WSem 0 := []]> (a_wait boot_kernel)) (a_sleep boot_kernel))
                    (<[0%nat := None]> (sems1 1))) sem0.
Proof. exact (del_sem_wakes_all sem0 _ _ 1 sem0_impl). Defined.

(** C11. Counts stay in their bounds: from counts between zero and their maximum,
    with nobody waiting where units are left, [wai_sem] and [sig_sem] lead to such
    a state again. *)
Theorem semaphore_counts_bounded s A S c id :
  sem_impl s A S -> sem_sane A S -> current_task (k_sched s) = Some c -> ~ is_idle s c ->
  wp (wai_sem_sys id) (fun _ s' => exists A' S', sem_impl s' A' S' /\ sem_sane A' S') s /\
  wp (sig_sem_sys id) (fun _ s' => exists A' S', sem_impl s' A' S' /\ sem_sane A' S') s.
Proof.
  intros HI Hs Hc Hi. split.
  - eapply wp_mono; [by apply (wp_wai_sem s A S c id)|]. intros r s'.
    destruct (a_wai_sem c id A S) as [[r' A'] S'] eqn:E. intros (_ & HI' & _). exists A', S'.
    split; [done|]. by eapply a_wai_sem_sane.
  - eapply wp_mono; [by apply (wp_sig_sem s A S c id)|]. intros r s'.
    destruct (a_sig_sem id A S) as [[r' A'] S'] eqn:E. intros (_ & HI' & _). exists A', S'.
    split; [done|]. by eapply a_sig_sem_sane.
Qed.

Lemma semaphore_counts_bounded_witness :
  wp (wai_sem_sys 1) (fun _ s' => exists A' S', sem_impl s' A' S' /\ sem_sane A' S') sem0 /\
  wp (sig_sem_sys 1) (fun _ s' => exists A' S', sem_impl s' A' S' /\ sem_sane A' S') sem0.
Proof.
  apply (semaphore_counts_bounded sem0 boot_kernel (sems1 1) 1 1); [exact sem0_impl| |apply sem0_main|apply sem0_main].
  intros i n mx E. unfold sems1 in E. destruct (decide (i = 0%nat)) as [->|Hi].
  - rewrite fn_lookup_insert in E. injection E as <- <-. split; [lia|]. split; [lia|]. intros Hw. by destruct Hw.
  - rewrite fn_lookup_insert_ne in E by done. unfold sems0, sem_view in E.
    assert (sembmap (k_sem boot0) = 0) as Eb by run. rewrite Eb, Z.testbit_0_l in E. discriminate E.
Defined.

End Semaphores.

Module Eventflags.

(** C12. [set_flg] adds the bits and releases the first, in arrival order, of the
    waiting tasks whose condition the new pattern satisfies; the pattern is cleared
    for it when the eventflag has [TA_CLR]. This is all that the attributes ask for
    as long as no second task is to be released, which is always so with [TA_CLR]
    and without [TA_WMUL]: then [set_flg] refines the abstract eventflag that
    releases every task to release. With [TA_WMUL] and two such tasks the code
    leaves the second one waiting. *)
Theorem set_flg_refines s A F id ptn :
  flg_impl s A F ->
  let refines wake := wp (set_flg_sys id ptn) (fun r s' =>
    let '(r', A', F') := a_set_flg wake (task_pool (k_task s)) id ptn A F in
    r = r' /\ flg_impl s' A' F' /\ imask (k_int s') = imask (k_int s) /\ rescheduled r s' A') s in
  refines (take 1) /\ (one_due (task_pool (k_task s)) id ptn A F -> refines (fun l => l)).
Proof.
  intros HI refines. assert (refines (take 1)) as H by (by apply wp_set_flg).
  split; [exact H|]. intros H1. unfold refines. by rewrite <- (one_due_set _ _ _ _ _ H1).
Qed.

Lemma set_flg_refines_witness :
  wp (set_flg_sys 1 1) (fun r s' =>
    let '(r', A', F') := a_set_flg (fun l => l) (task_pool (k_task flg1)) 1 1 (a_block 1 (WFlg 0) boot_kernel) flgs1 in
    r = r' /\ flg_impl s' A' F' /\ imask (k_int s') = imask (k_int flg1) /\ rescheduled r s' A') flg1.
Proof.
  apply (proj2 (set_flg_refines flg1 _ _ 1 1 flg1_impl)). intros atr p E.
  injection E as <- <-. vm_compute. lia.
Defined.

(** C13. [wai_flg] refines the abstract eventflag: parameter errors; a second
    waiter without [TA_WMUL] is refused; when the condition holds the pattern is
    stored for the caller; otherwise the caller waits in arrival order, and the
    pattern it waits for is where [set_flg] looks for it. *)
Theorem wai_flg_refines s A F c id waiptn wfmode p_flgptn :
  flg_impl s A F -> current_task (k_sched s) = Some c -> ~ is_idle s c -> Z.land p_flgptn 3 = 0 ->
  wp (wai_flg_sys id waiptn wfmode p_flgptn) (fun r s' =>
    let '(r', A', F', o) := a_wai_flg c id waiptn wfmode p_flgptn A F in
    r = r' /\ flg_impl s' A' F' /\ k_mem s' = out_word (k_mem s) p_flgptn o /\
    imask (k_int s') = imask (k_int s) /\ rescheduled r s' A' /\ (r = Cont (KWaiFlg id) -> awaits s' c waiptn)) s.
Proof. apply wp_wai_flg. Qed.

Lemma wai_flg_refines_witness :
  wp (wai_flg_sys 1 1 0 0x600000) (fun r s' =>
    let '(r', A', F', o) := a_wai_flg 1 1 1 0 0x600000 boot_kernel flgs1 in
    r = r' /\ flg_impl s' A' F' /\ k_mem s' = out_word (k_mem flg0) 0x600000 o /\
    imask (k_int s') = imask (k_int flg0) /\ rescheduled r s' A' /\ (r = Cont (KWaiFlg 1) -> awaits s' 1 1)) flg0.
Proof.
  exact (wai_flg_refines flg0 _ _ 1 1 1 0 0x600000 flg0_impl (proj1 flg0_main) (proj2 flg0_main) eq_refl).
Defined.

(** [del_flg]: every waiting task becomes ready in arrival order and reads
    [E_DLT], and the eventflag is gone. *)
Theorem del_flg_wakes_all s A F id :
  flg_impl s A F ->
  wp (del_flg_sys id) (fun r s' =>
    imask (k_int s') = imask (k_int s) /\
    if bad_flgid id then r = Done E_ID /\ s' = s else
    let i := Z.to_nat (id - 1) in
    match F i with
    | None => r = Done E_NOEXS /\ flg_impl s' A F
    | Some _ =>
        let ws := a_wait A (WFlg i) in
        r = Cont (KReturn E_OK) /\
        flg_impl s' (mk_ak (a_pri A) (foldl (rq_append (task_pool (k_task s))) (a_ready A) ws)
                      (<[WFlg i := []]> (a_wait A)) (a_sleep A))
                    (<[i := None]> F) /\
        forall c t, c ∈ ws -> task_pool (k_task s') !! c = Some t -> wobjid t = E_DLT
    end) s.
Proof. apply wp_del_flg. Qed.

Lemma del_flg_wakes_all_witness :
  wp (del_flg_sys 1) (fun r s' =>
    imask (k_int s') = imask (k_int flg1) /\
        r = Cont (KReturn E_OK) /\
        flg_impl s' (mk_ak (a_pri boot_kernel)
                      (foldl (rq_append (task_pool (k_task flg1))) (a_ready (a_block 1 (WFlg 0) boot_kernel)) [1%nat])
                      (<[WFlg 0 := []]> (a_wait (a_block 1 (WFlg 0) boot_kernel))) [])
                    (<[0%nat := None]> flgs1) /\
        forall c t, c ∈ [1%nat] -> task_pool (k_task s') !! c = Some t -> wobjid t = E_DLT) flg1.
Proof. exact (del_flg_wakes_all flg1 _ _ 1 flg1_impl). Defined.

End Eventflags.

Module Mailboxes.

(** C14. [snd_mbx], while the pool has a free message: the message goes to the
    end of the mailbox, or to the first waiting task, which becomes ready. *)
Theorem snd_mbx_refines s A C Hd id pk :
  mbx_impl s A C Hd -> msg_room s = true ->
  wp (snd_mbx_sys id pk) (fun r s' =>
    imask (k_int s') = imask (k_int s) /\
    if bad_mbxid id then r = Done E_ID /\ s' = s else
    if negb (nz pk) then r = Done E_PAR /\ s' = s else
    let i := Z.to_nat (id - 1) in
    match C i with
    | None => r = Done E_NOEXS /\ mbx_impl s' A C Hd
    | Some l => r = Cont (KReturn E_OK) /\
        match a_wait A (WMbx i) with
        | [] => mbx_impl s' A (<[i := Some (l ++ [pk])]> C) Hd /\ scheduled s' (a_ready A)
        | c :: _ => exists b A', a_wake (WMbx i) A = Some A' /\ mbx_impl s' A' C (b :: Hd) /\
            scheduled s' (a_ready A') /\
            peek (k_mem s') b = pk /\ forall t, task_pool (k_task s') !! c = Some t -> extdat t = b
        end
    end) s.
Proof. apply wp_snd_mbx. Qed.

Lemma snd_mbx_refines_witness :
  wp (snd_mbx_sys 1 0x500000) (fun r s' => imask (k_int s') = imask (k_int mbx0) /\ r = Cont (KReturn E_OK) /\
    mbx_impl s' boot_kernel (<[0%nat := Some [0x500000]]> (<[0%nat := Some []]> (fun _ => None))) [] /\
    scheduled s' (a_ready boot_kernel)) mbx0.
Proof. exact (snd_mbx_refines mbx0 _ _ _ 1 0x500000 mbx0_impl mbx0_room). Defined.

(** C15. [rcv_mbx]: the oldest message of the mailbox is delivered to the
    caller and leaves the mailbox; on an empty mailbox the caller waits in
    arrival order. *)
Theorem rcv_mbx_refines s A C Hd c id ppk :
  mbx_impl s A C Hd -> current_task (k_sched s) = Some c -> ~ is_idle s c ->
  Z.land ppk 3 = 0 -> outside s ppk ->
  wp (rcv_mbx_sys id ppk) (fun r s' =>
    imask (k_int s') = imask (k_int s) /\
    if bad_mbxid id then r = Done E_ID /\ s' = s else
    if negb (nz ppk) then r = Done E_PAR /\ s' = s else
    let i := Z.to_nat (id - 1) in
    match C i with
    | None => r = Done E_NOEXS /\ mbx_impl s' A C Hd
    | Some [] => r = Cont (KRcvMbx id ppk) /\ scheduled s' (a_ready (a_block c (WMbx i) A)) /\
        mbx_impl s' (a_block c (WMbx i) A) C Hd
    | Some (d :: l) => r = Done E_OK /\ mbx_impl s' A (<[i := Some l]> C) Hd /\ delivered s s' ppk d
    end) s.
Proof. apply wp_rcv_mbx. Qed.

Lemma rcv_mbx_refines_witness :
  wp (rcv_mbx_sys 1 0x600000) (fun r s' => imask (k_int s') = imask (k_int mbx1) /\ r = Done E_OK /\
    mbx_impl s' boot_kernel (<[0%nat := Some []]> (<[0%nat := Some [0x500000]]> (<[0%nat := Some []]> (fun _ => None)))) [] /\
    delivered mbx1 s' 0x600000 0x500000) mbx1.
Proof.
  refine (rcv_mbx_refines mbx1 boot_kernel _ _ 1 1 0x600000 mbx1_impl (proj1 mbx1_main) (proj2 mbx1_main) eq_refl _).
  unfold outside. assert (msg_pool (k_mbx mbx1) = 2100360) as -> by run. right. vm_compute. discriminate.
Defined.

(** When a task that waited in [rcv_mbx] runs again it receives the message
    that was sent to it and frees it, or [E_DLT] when the mailbox was deleted. *)
Theorem rcv_mbx_resumes s A C Hd c t id ppk :
  mbx_impl s A C Hd -> current_task (k_sched s) = Some c -> task_pool (k_task s) !! c = Some t ->
  (wobjid t = E_DLT \/ extdat t ∈ Hd) -> valid_addr ppk = true -> outside s ppk ->
  wp (rcv_mbx_resume id ppk) (fun r s' =>
    imask (k_int s') = imask (k_int s) /\
    if wobjid t =? E_DLT then r = E_DLT /\ mbx_impl s' A C Hd
    else r = E_OK /\ mbx_impl s' A C (without (extdat t) Hd) /\ delivered s s' ppk (peek (k_mem s) (extdat t))) s.
Proof. apply wp_rcv_mbx_resume. Qed.

Lemma rcv_mbx_resumes_witness : exists A t, mbx_impl mbx3 A boxes [msg0] /\
  wp (rcv_mbx_resume 1 0x600000) (fun r s' =>
    imask (k_int s') = imask (k_int mbx3) /\
    if wobjid t =? E_DLT then r = E_DLT /\ mbx_impl s' A boxes [msg0]
    else r = E_OK /\ mbx_impl s' A boxes (without (extdat t) [msg0]) /\
         delivered mbx3 s' 0x600000 (peek (k_mem mbx3) (extdat t))) mbx3.
Proof.
  destruct mbx3_impl as [A HA]. assert (exists t, task_pool (k_task mbx3) !! 1%nat = Some t) as [t Et].
  { destruct (task_pool (k_task mbx3) !! 1%nat) as [t|] eqn:E; [by exists t|]. exfalso. revert E. vm_compute. discriminate. }
  exists A, t. split; [exact HA|].
  refine (rcv_mbx_resumes mbx3 A boxes [msg0] 1 t 1 0x600000 HA _ Et _ eq_refl _).
  - run.
  - right. unfold msg0. rewrite Et. left.
  - unfold outside. assert (msg_pool (k_mbx mbx3) = 2100360) as -> by run. right. vm_compute. discriminate.
Defined.

(** [del_mbx]: every waiting task becomes ready in arrival order, the
    queued messages go back to their pool and the mailbox is gone. *)
Theorem del_mbx_wakes_all s A C Hd id :
  mbx_impl s A C Hd ->
  wp (del_mbx_sys id) (fun r s' =>
    imask (k_int s') = imask (k_int s) /\
    if bad_mbxid id then r = Done E_ID /\ s' = s else
    let i := Z.to_nat (id - 1) in
    match C i with
    | None => r = Done E_NOEXS /\ mbx_impl s' A C Hd
    | Some _ =>
        let ws := a_wait A (WMbx i) in
        r = Cont (KReturn E_OK) /\
        mbx_impl s' (mk_ak (a_pri A) (foldl (rq_append (task_pool (k_task s))) (a_ready A) ws)
                      (<[WMbx i := []]> (a_wait A)) (a_sleep A))
                    (<[i := None]> C) Hd
    end) s.
Proof. apply wp_del_mbx. Qed.

Lemma del_mbx_wakes_all_witness :
  wp (del_mbx_sys 1) (fun r s' => imask (k_int s') = imask (k_int mbx1) /\ r = Cont (KReturn E_OK) /\
    mbx_impl s' (mk_ak (a_pri boot_kernel) (a_ready boot_kernel) (<[WMbx 0 := []]> (a_wait boot_kernel)) [])
      (<[0%nat := None]> (<[0%nat := Some [0x500000]]> (<[0%nat := Some []]> (fun _ => None)))) []) mbx1.
Proof. exact (del_mbx_wakes_all mbx1 _ _ _ 1 mbx1_impl). Defined.

End Mailboxes.

Module MemoryPools.

(** C16. [get_mpf] on a well-formed pool: the caller gets a free block, the last
    one freed first, and a block never handed out when none was freed; with no
    block left it waits in arrival order and the memory is unchanged. *)
Theorem get_mpf_refines s A c id p x k fl :
  impl s A -> current_task (k_sched s) = Some c -> ~ is_idle s c ->
  bad_mpfid id = false -> mpf_pool (k_mpl s) !! Z.to_nat (id - 1) = Some x -> mpf_ok s x k fl ->
  valid_addr p = true -> ~ in_mpf x p ->
  wp (get_mpf_sys id p) (fun r s' =>
    let i := Z.to_nat (id - 1) in
    imask (k_int s') = imask (k_int s) /\
    if negb (Z.testbit (mpfbmap (k_mpl s)) (Z.of_nat i)) then r = Done E_NOEXS /\ impl s' A else
    match fl with
    | b :: fl' => r = Done E_OK /\ impl s' A /\ mpf_ok s' x k fl' /\ peek (k_mem s') p = b + 4
    | [] => if k =? blkcnt x then
              r = Cont (KGetMpf p) /\ impl s' (a_block c (WMpf i) A) /\ k_mem s' = k_mem s
            else r = Done E_OK /\ impl s' A /\ mpf_ok s' x (k + 1) [] /\
              peek (k_mem s') p = block (mpf x) (blksz x) k + 4
    end) s.
Proof. apply wp_get_mpf. Qed.

Lemma get_mpf_refines_witness :
  wp (get_mpf_sys 1 0x600000) (fun r s' =>
    imask (k_int s') = imask (k_int mpf0) /\
    if negb (Z.testbit (mpfbmap (k_mpl mpf0)) 0) then r = Done E_NOEXS /\ impl s' boot_kernel else
    r = Done E_OK /\ impl s' boot_kernel /\ mpf_ok s' mpfx 1 [] /\
      peek (k_mem s') 0x600000 = block (mpf mpfx) (blksz mpfx) 0 + 4) mpf0.
Proof.
  destruct mpf0_impl as (HI & Ex & Hp).
  refine (get_mpf_refines mpf0 boot_kernel 1 1 0x600000 mpfx 0 [] HI (proj1 mpf0_main) (proj2 mpf0_main) eq_refl Ex Hp eq_refl _).
  unfold in_mpf, mpfx. cbn. lia.
Defined.

(** C17. [rel_mpf] of a block in use: a block outside of the range the code
    accepts is [E_PAR] without effect; otherwise the block goes to the first
    waiting task, which becomes ready, or to the head of the free list. *)
Theorem rel_mpf_refines s A id x k fl j :
  impl s A -> bad_mpfid id = false -> mpf_pool (k_mpl s) !! Z.to_nat (id - 1) = Some x -> mpf_ok s x k fl ->
  0 <= j < k -> block (mpf x) (blksz x) j ∉ fl ->
  wp (rel_mpf_sys id (block (mpf x) (blksz x) j + 4)) (fun r s' =>
    let i := Z.to_nat (id - 1) in
    imask (k_int s') = imask (k_int s) /\
    if negb (Z.testbit (mpfbmap (k_mpl s)) (Z.of_nat i)) then r = Done E_NOEXS /\ impl s' A else
    if negb (blk_in_range x (block (mpf x) (blksz x) j + 4)) then r = Done E_PAR /\ impl s' A /\ k_mem s' = k_mem s
    else r = Cont (KReturn E_OK) /\
    match a_wait A (WMpf i) with
    | [] => impl s' A /\ mpf_ok s' x k (block (mpf x) (blksz x) j :: fl)
    | c :: _ => (exists A', a_wake (WMpf i) A = Some A' /\ impl s' A') /\ k_mem s' = k_mem s /\
        forall t, task_pool (k_task s') !! c = Some t -> extdat t = block (mpf x) (blksz x) j + 4
    end) s.
Proof. apply wp_rel_mpf. Qed.

Lemma rel_mpf_refines_witness :
  wp (rel_mpf_sys 1 (block 0x700000 16 0 + 4)) (fun r s' =>
    imask (k_int s') = imask (k_int mpf1) /\
    if negb (Z.testbit (mpfbmap (k_mpl mpf1)) 0) then r = Done E_NOEXS /\ impl s' boot_kernel else
    if negb (blk_in_range mpfx (block 0x700000 16 0 + 4)) then r = Done E_PAR /\ impl s' boot_kernel /\ k_mem s' = k_mem mpf1
    else r = Cont (KReturn E_OK) /\ impl s' boot_kernel /\ mpf_ok s' mpfx 1 [block 0x700000 16 0]) mpf1.
Proof.
  destruct mpf1_impl as (HI & Ex & Hp).
  exact (rel_mpf_refines mpf1 boot_kernel 1 mpfx 1 [] 0 HI eq_refl Ex Hp ltac:(lia) (not_elem_of_nil _)).
Defined.

(** [cre_mpf] with an aligned area that has room for the blocks: the pool
    exists, none of its blocks is in use and none is in its free list. *)
Theorem cre_mpf_initializes s A id pk :
  impl s A -> bad_mpfid id = false -> nz (c_blksz pk) = true -> 0 < c_mpf pk -> c_mpf pk mod 4 = 0 ->
  0 <= c_blkcnt pk -> 0 <= c_blksz pk < 2 ^ 31 ->
  mp_base (c_mpf pk) + c_blkcnt pk * stride (ALIGN32 (c_blksz pk)) < 2 ^ 32 ->
  wp (cre_mpf_sys id (Some pk)) (fun r s' =>
    let i := Z.to_nat (id - 1) in
    let x := mk_mpf (c_mpfatr pk) (c_blkcnt pk) (ALIGN32 (c_blksz pk)) (c_mpf pk) null_queue in
    imask (k_int s') = imask (k_int s) /\ impl s' A /\
    if Z.testbit (mpfbmap (k_mpl s)) (Z.of_nat i) then r = Done E_OBJ else
    r = Done E_OK /\ mpf_pool (k_mpl s') !! i = Some x /\ mpf_ok s' x 0 [] /\
    mpfbmap (k_mpl s') = setbit (mpfbmap (k_mpl s)) (Z.of_nat i)) s.
Proof. apply wp_cre_mpf. Qed.

Lemma cre_mpf_initializes_witness :
  wp (cre_mpf_sys 1 (Some cmpf)) (fun r s' =>
    imask (k_int s') = imask (k_int boot0) /\ impl s' boot_kernel /\
    if Z.testbit (mpfbmap (k_mpl boot0)) 0 then r = Done E_OBJ else
    r = Done E_OK /\ mpf_pool (k_mpl s') !! 0%nat = Some mpfx /\ mpf_ok s' mpfx 0 [] /\
    mpfbmap (k_mpl s') = setbit (mpfbmap (k_mpl boot0)) 0) boot0.
Proof.
  exact (cre_mpf_initializes boot0 boot_kernel 1 cmpf boot0_impl eq_refl eq_refl eq_refl eq_refl
    ltac:(done) ltac:(done) ltac:(done)).
Defined.

End MemoryPools.
