(* ===== verification/GuaranteesLib.v ===== *)
(** * What the libraries of the kernel guarantee

    Queues, bitmaps, block pools and the size classes of the allocator. *)

From Stdlib Require Import ZArith Lia.
From stdpp Require Import base tactics gmap option functions countable list.
From S2P Require Import Prelude Bits Queue Qfam Mem Mpool Kstate Tlsf Syslog Sched Timeout TlsfMap.
From S2P Require Import Boot.

Open Scope Z_scope.
Open Scope kernel_scope.

Module Queues.

(** Insert the nodes of a list one after the other, and extract [n] objects. *)
Definition enqueue_all (st : gmap laddr linked_list_t * queue_t) (ps : list laddr) :=
  foldl (fun '(m, sq) p => queue_insert m sq p) st ps.

Fixpoint dequeue (n : nat) (m : gmap laddr linked_list_t) (sq : queue_t) : list (option obj) * queue_t :=
  match n with
  | O => ([], sq)
  | S n => let '(o, m, sq) := queue_extract m sq in let '(l, sq) := dequeue n m sq in (o :: l, sq)
  end.

Lemma queue_insert_clean m sq l p a : qrep m sq l -> a ∉ l -> a <> p -> clean m a -> clean (queue_insert m sq p).1 a.
Proof.
  intros (_ & Ht & _) Ha Hne Hc. unfold clean. rewrite queue_insert_other; [done|done|].
  intros E. apply Ha, last_Some_elem_of. congruence.
Qed.

Lemma enqueue_all_rep ps m sq l : qrep m sq l -> NoDup (l ++ ps) -> (forall p, p ∈ ps -> clean m p) ->
  let '(m', sq') := enqueue_all (m, sq) ps in
  qrep m' sq' (l ++ ps) /\ forall a, this (node m' a) = this (node m a).
Proof.
  revert m sq l. induction ps as [|p ps IH]; intros m sq l Hq Hnd Hc; simpl.
  { by rewrite app_nil_r. }
  assert (p ∉ l) as Hp. { intros Hp. apply NoDup_app in Hnd as (_ & Hd & _). apply (Hd p Hp). left. }
  pose proof (queue_insert_spec m sq l p Hq Hp (proj2 (Hc p ltac:(left)))) as Hq'.
  destruct (queue_insert m sq p) as [m1 sq1] eqn:Ei. simpl in Hq'.
  rewrite cons_middle, app_assoc in Hnd |- *. specialize (IH m1 sq1 (l ++ [p]) Hq' Hnd).
  assert (forall a, this (node m1 a) = this (node m a)) as Hth.
  { intros a. pose proof (queue_insert_this m sq p a) as H. by rewrite Ei in H. }
  unfold enqueue_all in *. destruct (foldl _ (m1, sq1) ps) as [m2 sq2]. destruct IH as [IH1 IH2].
  - intros a Ha. pose proof (queue_insert_clean m sq l p a Hq) as H. rewrite Ei in H. simpl in H. apply H.
    + intros Hl. apply NoDup_app in Hnd as (_ & Hd & _). apply (Hd a); [set_solver|done].
    + intros ->. apply NoDup_app in Hnd as (_ & Hd & _). apply (Hd p); [set_solver|done].
    + apply Hc. by right.
  - split; [done|]. intros a. by rewrite IH2.
Qed.

Lemma dequeue_rep l m sq : qrep m sq l ->
  (dequeue (length l) m sq).1 = (fun p => this (node m p)) <$> l /\ queue_is_empty (dequeue (length l) m sq).2 = true.
Proof.
  revert m sq. induction l as [|p l IH]; intros m sq Hq; simpl.
  { split; [done|]. by eapply qrep_empty. }
  destruct (queue_extract_spec m sq p l Hq) as [-> Hq']. set (sq' := (queue_extract m sq).2) in *.
  cbv beta iota. cbn [snd] in Hq'. destruct (IH _ _ Hq') as [E1 E2]. destruct (dequeue (length l) (unlink m p) sq') as [os sq2].
  cbn [fst snd] in *. rewrite E1. split; [|done]. f_equal. apply list_fmap_ext. intros i a _. apply unlink_this.
Qed.

(** First in, first out: distinct free nodes inserted in an empty queue are
    extracted in the same order, each giving its object, and leave the queue
    empty. *)
Theorem queue_fifo m ps :
  NoDup ps -> (forall p, p ∈ ps -> clean m p) ->
  let '(m', sq') := enqueue_all (m, queue_init) ps in
  (dequeue (length ps) m' sq').1 = (fun p => this (node m p)) <$> ps /\
  queue_is_empty (dequeue (length ps) m' sq').2 = true.
Proof.
  intros Hnd Hc. pose proof (enqueue_all_rep ps m queue_init [] (qrep_nil m) Hnd Hc) as H.
  destruct (enqueue_all (m, queue_init) ps) as [m' sq']. destruct H as [Hq Hth]. simpl in Hq.
  destruct (dequeue_rep ps m' sq' Hq) as [E1 E2]. split; [|done]. rewrite E1.
  apply list_fmap_ext. intros i a _. apply Hth.
Qed.

(** Three free nodes that point to their tasks. *)
Definition three : gmap laddr linked_list_t :=
  set_this (RdyQue 2) (Some (OTask 2)) (set_this (RdyQue 0) (Some (OTask 0)) (set_this (RdyQue 1) (Some (OTask 1)) ∅)).
Definition order : list laddr := [RdyQue 2; RdyQue 0; RdyQue 1].

Lemma order_nodup : NoDup order.
Proof. by repeat (apply NoDup_cons; split; [set_solver|]); apply NoDup_nil_2. Qed.

Lemma queue_fifo_witness :
  (fun p => this (node three p)) <$> order = [Some (OTask 2); Some (OTask 0); Some (OTask 1)] /\
  let '(m', sq') := enqueue_all (three, queue_init) order in
  (dequeue (length order) m' sq').1 = (fun p => this (node three p)) <$> order /\
  queue_is_empty (dequeue (length order) m' sq').2 = true.
Proof.
  split; [reflexivity|]. refine (queue_fifo three order order_nodup _).
  intros p Hp. unfold order in Hp. rewrite !elem_of_cons, elem_of_nil in Hp. by destruct Hp as [->|[->|[->|[]]]].
Defined.

(** Removal from the middle: a queued node is unlinked, the others keep
    their order, and the removed node can be queued again. *)
Theorem queue_remove_middle m sq l1 p l2 :
  qrep m sq (l1 ++ p :: l2) ->
  qrep (queue_remove m sq p).1 (queue_remove m sq p).2 (l1 ++ l2) /\ clean (queue_remove m sq p).1 p.
Proof.
  intros Hq. destruct (queue_remove_spec m sq l1 p l2 Hq) as [E Hr]. rewrite E at 1 3. simpl. split; [done|].
  destruct Hq as (_ & _ & Hnd & Hl). destruct (linked_mid_irrefl _ _ _ _ Hnd Hl) as [Hp Hn].
  by apply unlink_clean_self.
Qed.

Lemma queue_remove_middle_witness :
  let '(m, sq) := enqueue_all (three, queue_init) order in
  qrep (queue_remove m sq (RdyQue 0)).1 (queue_remove m sq (RdyQue 0)).2 ([RdyQue 2] ++ [RdyQue 1]) /\
  clean (queue_remove m sq (RdyQue 0)).1 (RdyQue 0).
Proof.
  refine (queue_remove_middle _ _ [RdyQue 2] (RdyQue 0) [RdyQue 1] _).
  refine (proj1 (enqueue_all_rep order three queue_init [] (qrep_nil _) order_nodup _)).
  intros p Hp. unfold order in Hp. rewrite !elem_of_cons, elem_of_nil in Hp. by destruct Hp as [->|[->|[->|[]]]].
Defined.

End Queues.

Module Bitmaps.

(** Allocation of an identifier in a bitmap: [_ffc] is -1 exactly on a full
    map, otherwise it is the lowest free index; setting the bit marks it and
    nothing else, and clearing it gives the map back. *)
Theorem bitmap_allocates b : word32 b ->
  (_ffc b = -1 /\ forall i, 0 <= i < 32 -> Z.testbit b i = true) \/
  (first_clear b (_ffc b) /\ word32 (setbit b (_ffc b)) /\
   (forall j, 0 <= j < 32 -> nz (isbitset (setbit b (_ffc b)) j) = (_ffc b =? j) || Z.testbit b j) /\
   clearbit (setbit b (_ffc b)) (_ffc b) = b).
Proof.
  intros Hb. destruct (_ffc_cases b Hb) as [?|Hf]; [by left|]. right. pose proof Hf as (Hr & Hc & _).
  assert (word32 (setbit b (_ffc b))) as Hw by (by apply setbit_word). split; [done|]. split; [done|]. split.
  - intros j Hj. rewrite isbitset_spec, setbit_bit by (done || lia). by rewrite orb_comm.
  - apply Z.bits_inj'. intros j Hj. rewrite clearbit_bit, setbit_bit by (done || lia).
    destruct (Z.eqb_spec (_ffc b) j) as [<-|]; [by rewrite Hc|]. by destruct (Z.testbit b j).
Qed.

Lemma bitmap_allocates_witness :
  word32 7 /\ ((_ffc 7 = -1 /\ forall i, 0 <= i < 32 -> Z.testbit 7 i = true) \/
  (first_clear 7 (_ffc 7) /\ word32 (setbit 7 (_ffc 7)) /\
   (forall j, 0 <= j < 32 -> nz (isbitset (setbit 7 (_ffc 7)) j) = (_ffc 7 =? j) || Z.testbit 7 j) /\
   clearbit (setbit 7 (_ffc 7)) (_ffc 7) = 7)).
Proof. assert (word32 7) as H by (by split). split; [exact H|]. exact (bitmap_allocates 7 H). Defined.

(** [_ffs] of a 32-bit word: -1 on zero, otherwise the lowest set bit. *)
Theorem ffs_lowest_bit b : word32 b -> if b =? 0 then _ffs b = -1 else first_set b (_ffs b).
Proof.
  intros Hb. destruct (Z.eqb_spec b 0) as [->|Hne]; [by apply _ffs_zero|].
  apply _ffs_spec. intros E. apply Hne, word32_bits0; [done|]. by apply i32_bits0.
Qed.

Lemma ffs_lowest_bit_witness : if 0x80000000 =? 0 then _ffs 0x80000000 = -1 else first_set 0x80000000 (_ffs 0x80000000).
Proof. apply (ffs_lowest_bit 0x80000000). by split. Defined.

End Bitmaps.

Module Pools.

(** [n] allocations in a row. *)
Fixpoint mpalloc_n (p : Z) (n : nat) : M (gmap Z Z) (list Z) :=
  match n with
  | O => ret []
  | S n => let* b := mpalloc p in let* l := mpalloc_n p n in ret (b :: l)
  end.

Lemma wp_mpalloc_n c m p sz n k (Q : list Z -> gmap Z Z -> Prop) :
  pool_ok m p sz n k [] -> k + Z.of_nat c <= n ->
  (forall m', pool_ok m' p sz n (k + Z.of_nat c) [] ->
     Q ((fun j => block p sz (k + Z.of_nat j) + 4) <$> seq 0 c) m') ->
  wp (mpalloc_n p c) Q m.
Proof.
  revert m k Q. induction c as [|c IH]; intros m k Q Hp Hk HQ; cbn [mpalloc_n].
  { apply wp_ret, HQ. by rewrite Z.add_0_r. }
  apply wp_bind. eapply wp_mpalloc; [exact Hp|]. destruct (Z.eqb_spec k n); [lia|]. intros m1 Hp1 _.
  apply wp_bind. eapply IH; [exact Hp1|lia|]. intros m2 Hp2. apply wp_ret.
  replace (k + 1 + Z.of_nat c) with (k + Z.of_nat (S c)) in Hp2 by lia. specialize (HQ m2 Hp2).
  replace (block p sz k + 4 :: _) with ((fun j => block p sz (k + Z.of_nat j) + 4) <$> seq 0 (S c)); [done|].
  cbn [seq fmap list_fmap]. rewrite Z.add_0_r. f_equal. rewrite <- fmap_S_seq, <- list_fmap_compose.
  apply list_fmap_ext. intros i j _. unfold compose. f_equal. f_equal. lia.
Qed.

(** A pool of [n] blocks gives out exactly [n] blocks, pairwise distinct and
    one stride apart, and then NULL. *)
Theorem pool_gives_n_blocks m p sz n :
  0 < p -> p mod 4 = 0 -> 0 <= sz -> sz mod 4 = 0 -> 0 <= n -> mp_base p + n * stride sz < 2 ^ 32 ->
  wp (init_pool p sz n ;;; let* l := mpalloc_n p (Z.to_nat n) in let* b := mpalloc p in ret (l, b))
    (fun '(l, b) _ => l = (fun j => block p sz (Z.of_nat j) + 4) <$> seq 0 (Z.to_nat n) /\ NoDup l /\ b = NULL) m.
Proof.
  intros H1 H2 H3 H4 H5 H6. apply wp_bind, wp_init_pool; [done..|]. intros m1 Hp _. apply wp_bind.
  eapply wp_mpalloc_n; [exact Hp|lia|]. intros m2 Hp2. rewrite Z2Nat.id, Z.add_0_l in Hp2 by lia.
  apply wp_bind. eapply wp_mpalloc; [exact Hp2|]. rewrite Z.eqb_refl. apply wp_ret. cbv beta iota.
  split; [done|]. split; [|done]. apply NoDup_fmap_2; [|apply NoDup_seq].
  intros i j E. unfold block, stride, sizeof_mpool_block, sizeof_ptr in E. nia.
Qed.

Lemma pool_gives_n_blocks_witness :
  wp (init_pool 0x700000 16 3 ;;; let* l := mpalloc_n 0x700000 3 in let* b := mpalloc 0x700000 in ret (l, b))
    (fun '(l, b) _ => l = [0x700018; 0x700068; 0x7000b8] /\ NoDup l /\ b = NULL) ∅.
Proof. exact (pool_gives_n_blocks ∅ 0x700000 16 3 eq_refl eq_refl ltac:(done) eq_refl ltac:(done) eq_refl). Defined.

(** A block given back is the next one given out, and the pool is as it was
    before. *)
Theorem free_then_alloc m p sz n k fl j :
  pool_ok m p sz n k fl -> 0 <= j < k -> block p sz j ∉ fl ->
  wp (mpfree p (block p sz j + 4) ;;; mpalloc p)
    (fun b m' => b = block p sz j + 4 /\ pool_ok m' p sz n k fl /\
       forall a, a <> mp_free p -> a <> mp_freeidx p -> a <> block p sz j -> peek m' a = peek m a) m.
Proof.
  intros Hp Hj Hn. apply wp_bind. eapply wp_mpfree; [exact Hp|done|done|]. intros m1 Hp1 Hf1.
  eapply wp_mpalloc; [exact Hp1|]. intros m2 Hp2 Hf2. split; [done|]. split; [done|].
  intros a A1 A2 A3. by rewrite (Hf2 a), (Hf1 a).
Qed.

Lemma pool_one_block : exists m, pool_ok m 0x700000 16 3 1 [].
Proof.
  pose proof (wp_init_pool ∅ 0x700000 16 3 (fun _ m => wp (mpalloc 0x700000) (fun _ m => pool_ok m 0x700000 16 3 1 []) m)
    eq_refl eq_refl ltac:(done) eq_refl ltac:(done) eq_refl) as H.
  lapply H; [clear H; intros H|].
  - unfold wp in H. destruct (init_pool 0x700000 16 3 ∅) as [[u m]|]; [|done].
    destruct (mpalloc 0x700000 m) as [[b m']|]; [by exists m'|done].
  - intros m Hp _. eapply wp_mpalloc; [exact Hp|]. simpl. done.
Qed.

Lemma free_then_alloc_witness : exists m,
  wp (mpfree 0x700000 (block 0x700000 16 0 + 4) ;;; mpalloc 0x700000)
    (fun b m' => b = block 0x700000 16 0 + 4 /\ pool_ok m' 0x700000 16 3 1 [] /\
       forall a, a <> mp_free 0x700000 -> a <> mp_freeidx 0x700000 -> a <> block 0x700000 16 0 -> peek m' a = peek m a) m.
Proof.
  destruct pool_one_block as [m Hm]. exists m.
  exact (free_then_alloc m 0x700000 16 3 1 [] 0 Hm ltac:(lia) (not_elem_of_nil _)).
Defined.

End Pools.

Module Allocator.

(** The table searches agree with their reference: [ms_bit] is the binary
    logarithm and [ls_bit] the lowest set bit, on every word but zero, where
    both are -1. *)
Theorem bit_searches r : word32 r ->
  if r =? 0 then ms_bit r = -1 /\ ls_bit r = -1 else ms_bit r = Z.log2 r /\ first_set r (ls_bit r).
Proof.
  intros Hr. destruct (Z.eqb_spec r 0) as [->|Hne]; [done|]. split; [|by apply ls_bit_first].
  apply ms_bit_log2. unfold word32 in Hr. lia.
Qed.

Lemma bit_searches_witness : ms_bit 0x12340 = Z.log2 0x12340 /\ first_set 0x12340 (ls_bit 0x12340).
Proof. apply (bit_searches 0x12340). by split. Defined.

(** Size classes: a block is filed in the class whose range contains its
    size, and blocks below 1 GB in a row of the matrix. *)
Theorem insert_class_contains r fl sl : 0 <= r < 2 ^ 30 -> MAPPING_INSERT r = (fl, sl) ->
  0 <= fl < REAL_FLI /\ 0 <= sl < MAX_SLI /\ class_lo fl sl <= r < class_lo fl sl + class_width fl.
Proof.
  intros Hr E. destruct (mapping_insert_class r fl sl) as (H1 & H2 & H3); [lia|done|].
  pose proof (mapping_insert_row r fl sl Hr E). done.
Qed.

Lemma insert_class_contains_witness :
  0 <= 3 < REAL_FLI /\ 0 <= 30 < MAX_SLI /\ class_lo 3 30 <= 1000 < class_lo 3 30 + class_width 3.
Proof. apply (insert_class_contains 1000 3 30); [lia|reflexivity]. Defined.

(** Good fit: the size a request is rounded up to wastes at most 1/32 of
    it, and every block of the class searched, or of a later one, is at least
    that big; so the first block of a class found can be used without looking
    at its size. *)
Theorem search_is_good_fit r r' fl sl b fl' sl' :
  0 <= r -> r mod 4 = 0 -> r + r / 32 < 2 ^ 30 -> 0 <= b < 2 ^ 32 ->
  MAPPING_SEARCH r = (r', fl, sl) -> MAPPING_INSERT b = (fl', sl') -> class_le fl sl fl' sl' ->
  r <= r' <= b /\ r' <= r + r / 32.
Proof.
  intros H1 H2 H3 H4 H5 H6 H7. split; [by eapply good_fit|].
  destruct (mapping_search_class r r' fl sl) as (_ & _ & _ & H8); try done. lia.
Qed.

Lemma search_is_good_fit_witness : 1000 <= 1008 <= 1020 /\ 1008 <= 1000 + 1000 / 32.
Proof.
  apply (search_is_good_fit 1000 1008 3 31 1020 3 31); try reflexivity; try lia. right. lia.
Defined.

(** The search of the two bitmaps finds the first class, from the one asked
    for on, that has a free block, and returns the head of its list; it returns
    NULL only when no such class has one. *)
Theorem find_first_suitable st t fl sl :
  bitmaps_ok (t_mem st) t -> 0 <= fl < REAL_FLI -> 0 <= sl < MAX_SLI ->
  wp (FIND_SUITABLE_BLOCK t fl sl) (fun '(b, fl', sl') st' => st' = st /\
    ((full (t_mem st) t fl' sl' /\ class_le fl sl fl' sl' /\ b = peek (t_mem st) (matrix t fl' sl') /\
      forall f s, full (t_mem st) t f s -> class_le fl sl f s -> class_le fl' sl' f s) \/
     (b = NULL /\ forall f s, full (t_mem st) t f s -> ~ class_le fl sl f s))) st.
Proof. apply wp_find_suitable. Qed.

(** A pool with one free block, in the class (3, 31). *)
Definition one_free : tlsf_state :=
  mk_tlsf (<[matrix 0x1000 3 31 := 0x5000]> (<[sl_bitmap 0x1000 3 := 0x80000000]> (<[fl_bitmap 0x1000 := 8]> ∅))) 0x1000.

Lemma one_free_ok : bitmaps_ok (t_mem one_free) 0x1000.
Proof.
  assert (forall fl, 0 <= fl < REAL_FLI -> peek (t_mem one_free) (sl_bitmap 0x1000 fl) = if fl =? 3 then 0x80000000 else 0) as Hs.
  { intros fl Hf. unfold one_free, sl_bitmap, fl_bitmap, matrix, REAL_FLI, MAX_FLI, FLI_OFFSET, MAX_SLI in *. cbn [t_mem].
    rewrite !peek_insert. repeat case_decide; destruct (Z.eqb_spec fl 3); try lia. reflexivity. }
  split; [done|by split| |].
  - intros fl Hf. rewrite (Hs fl Hf). destruct (fl =? 3); by split.
  - intros fl Hf. change (peek (t_mem one_free) (fl_bitmap 0x1000)) with (2 ^ 3). rewrite Z.pow2_bits_eqb by lia.
    assert (REAL_FLI = 24) by done. rewrite Z.eqb_eq. split.
    + intros <-. by rewrite Hs.
    + intros [Hf2 Hn]. rewrite Hs in Hn by lia. by destruct (Z.eqb_spec fl 3).
Qed.

Lemma find_first_suitable_witness :
  wp (FIND_SUITABLE_BLOCK 0x1000 2 0) (fun '(b, fl', sl') st' => st' = one_free /\
    ((full (t_mem one_free) 0x1000 fl' sl' /\ class_le 2 0 fl' sl' /\ b = peek (t_mem one_free) (matrix 0x1000 fl' sl') /\
      forall f s, full (t_mem one_free) 0x1000 f s -> class_le 2 0 f s -> class_le fl' sl' f s) \/
     (b = NULL /\ forall f s, full (t_mem one_free) 0x1000 f s -> ~ class_le 2 0 f s))) one_free.
Proof. exact (find_first_suitable one_free 0x1000 2 0 one_free_ok ltac:(done) ltac:(done)). Defined.

End Allocator.
