(* ===== verification/GuaranteesTlsf.v ===== *)
(** * What the TLSF allocator guarantees

    Initialization, allocation and release on pools in order, any use of a pool
    by its owner, and the system calls on variable-sized pools; each theorem is
    followed by its instance at a pool of 8 KB. *)

From Stdlib Require Import ZArith Lia.
From stdpp Require Import base tactics gmap option functions countable list.
From S2P Require Import Prelude Bits Queue Qfam Mem Mpool Kstate Tlsf Syslog Sched Timeout Dispatch.
From S2P Require Import Kinv Ktime Waitobj Task Semaphore Event Mailbox Mempool Kernel Setup Boot.
From S2P Require Import TlsfMap TlsfFree TlsfHeap TlsfAlloc TlsfMalloc TlsfRealloc TlsfPool TlsfUse KernelHeap.

Open Scope Z_scope.
Open Scope kernel_scope.

Module Arena.

(** [init_memory_pool] of an aligned area that is not a pool yet returns and
    leaves a pool in order: the header of the area, one free block with all the
    rest of the memory, and the end mark. The free lists and their bitmaps have
    that block and nothing outside the pool is written. *)
Theorem init_makes_one_block m t sz mp :
  0 < t -> t mod 4 = 0 -> sizeof_tlsf + BHDR_OVERHEAD * 8 <= sz < 2 ^ 30 -> t + sz + 4 <= 2 ^ 32 ->
  peek m t <> TLSF_SIGNATURE ->
  let n := pool_len sz in
  wp (init_memory_pool sz t) (fun r st => r = n - 32 /\ t_mp st = t /\
    (exists F, heap_ok (t_mem st) t n [(8, false); (n - 32, true); (0, false)] F) /\
    changes (fun x => t <= x < heap_base t + n) m (t_mem st)) (mk_tlsf m mp).
Proof.
  intros Ht H4 Hsz Htop Hsig n. apply wp_init_memory_pool; [done..|]. intros m' F Hok Hch. cbn. eauto.
Qed.

Lemma init_makes_one_block_witness :
  wp (init_memory_pool 0x2000 0x1000) (fun r st => r = 4976 /\ t_mp st = 0x1000 /\
    (exists F, heap_ok (t_mem st) 0x1000 5008 [(8, false); (4976, true); (0, false)] F) /\
    changes (fun x => 0x1000 <= x < heap_base 0x1000 + 5008) ∅ (t_mem st)) (mk_tlsf ∅ NULL).
Proof.
  pose proof (init_makes_one_block ∅ 0x1000 0x2000 NULL ltac:(lia) eq_refl ltac:(by split) ltac:(lia) ltac:(done)) as H.
  cbv zeta in H. change (pool_len 0x2000) with 5008 in H. change (5008 - 32) with 4976 in H. exact H.
Defined.

(** The pool of the examples. *)
Definition pool0 : gmap Z Z := new_pool 0x1000 0x2000.

Lemma pool0_ok : exists F, heap_ok pool0 0x1000 5008 [(8, false); (4976, true); (0, false)] F.
Proof.
  pose proof (new_pool_ok 0x1000 0x2000 ltac:(lia) eq_refl ltac:(by split) ltac:(lia)) as H.
  change (pool_len 0x2000) with 5008 in H. change (5008 - 32) with 4976 in H. exact H.
Qed.

(** C19. [malloc_ex] on a pool in order returns. The request is rounded up to [r]
    bytes, at most 1/32 more than its multiple of eight. NULL means that every
    free block is smaller than [r], and nothing changed; otherwise the pointer is
    the payload of a free block of at least [r] bytes, now in use and split when
    the rest is a block of its own; the pool is in order, and the contents of
    the blocks in use are unchanged. *)
Theorem malloc_takes_block m t n L F sz mp :
  heap_ok m t n L F -> 0 <= sz <= 2 ^ 29 ->
  let r := (MAPPING_SEARCH (adjust sz)).1.1 in
  sz <= r <= adjust sz + adjust sz / 32 /\
  wp (malloc_ex sz t) (fun p st =>
    (p = NULL /\ st = mk_tlsf m mp /\ forall a s, (a, s, true) ∈ at_ (heap_base t) L -> s < r) \/
    (exists l1 s l2 F', L = l1 ++ (s, true) :: l2 /\ r <= s /\ p = heap_base t + blen l1 + 8 /\
       heap_ok (t_mem st) t n (l1 ++ a_take r s l2) F' /\ changes (own t n L) m (t_mem st))) (mk_tlsf m mp).
Proof.
  intros Hok Hsz r. destruct (adjust_small sz Hsz) as [Hmax _]. destruct (search_at_least sz Hsz) as [Hr _]. split.
  - split; [done|]. destruct (adjust_spec sz) as ((q & E & Hq) & H8 & _); [lia..|]. unfold r.
    destruct (MAPPING_SEARCH (adjust sz)) as [[r0 fl] sl] eqn:Es. cbn [fst].
    destruct (mapping_search_class (adjust sz) r0 fl sl) as (_ & _ & _ & Hb); [lia| |done|done|lia].
    rewrite E. replace (8 * q) with (2 * q * 4) by lia. apply Z.mod_mul. lia.
  - eapply wp_malloc_ex; [exact Hok|lia|exact Hmax|lia|by left|].
    intros l1 s l2 m' F' El Hs Hok' Hch. right. exists l1, s, l2, F'. done.
Qed.

Lemma malloc_takes_block_witness : exists F, heap_ok pool0 0x1000 5008 [(8, false); (4976, true); (0, false)] F /\
  100 <= 104 <= 104 + 104 / 32 /\
  wp (malloc_ex 100 0x1000) (fun p st =>
    (p = NULL /\ st = mk_tlsf pool0 0x1000 /\
      forall a s, (a, s, true) ∈ at_ (heap_base 0x1000) [(8, false); (4976, true); (0, false)] -> s < 104) \/
    (exists l1 s l2 F', [(8, false); (4976, true); (0, false)] = l1 ++ (s, true) :: l2 /\ 104 <= s /\
       p = heap_base 0x1000 + blen l1 + 8 /\ heap_ok (t_mem st) 0x1000 5008 (l1 ++ a_take 104 s l2) F' /\
       changes (own 0x1000 5008 [(8, false); (4976, true); (0, false)]) pool0 (t_mem st))) (mk_tlsf pool0 0x1000).
Proof.
  destruct pool0_ok as [F HF]. exists F. split; [exact HF|].
  pose proof (malloc_takes_block pool0 0x1000 5008 _ F 100 0x1000 HF ltac:(lia)) as H. cbv zeta in H.
  change ((MAPPING_SEARCH (adjust 100)).1.1) with 104 in H. change (adjust 100) with 104 in H. exact H.
Defined.

(** C20. [free_ex] of a block in use of a pool in order returns: the block and the
    free blocks next to it become one free block, filed in the class of its
    size; the pool is in order and the contents of the other blocks in use are
    unchanged. *)
Theorem free_merges_neighbours m t n l1 s l2 F mp :
  heap_ok m t n (l1 ++ (s, false) :: l2) F -> 8 <= s ->
  wp (free_ex (heap_base t + blen l1 + 8) t) (fun _ st =>
    (exists F', heap_ok (t_mem st) t n (a_free l1 s l2) F') /\ t_mp st = mp /\
    changes (own t n (a_free l1 s l2)) m (t_mem st)) (mk_tlsf m mp).
Proof. intros Hok Hs. eapply wp_free_ex; [exact Hok|done|]. intros m' F' Hok' Hch. cbn. eauto. Qed.

(** The pool after an allocation of 100 bytes. *)
Definition pool1 : gmap Z Z :=
  match malloc_ex 100 0x1000 (mk_tlsf pool0 0x1000) with Some (_, st) => t_mem st | None => ∅ end.

Lemma pool1_eq : malloc_ex 100 0x1000 (mk_tlsf pool0 0x1000) = Some (0x1000 + 3184 + 24, mk_tlsf pool1 0x1000).
Proof. vm_compute. reflexivity. Qed.

Lemma pool1_ok : exists F, heap_ok pool1 0x1000 5008 [(8, false); (104, false); (4864, true); (0, false)] F.
Proof.
  destruct pool0_ok as [F HF].
  assert (wp (malloc_ex 100 0x1000) (fun p st => p <> NULL -> exists F', heap_ok (t_mem st) 0x1000 5008 [(8, false); (104, false); (4864, true); (0, false)] F')
    (mk_tlsf pool0 0x1000)) as Hw.
  { eapply wp_malloc_ex; [exact HF|lia|by vm_compute|lia|done|]. intros l1 s l2 m' F' El _ Hok _ _.
    assert (l1 = [(8, false)] /\ s = 4976 /\ l2 = [(0, false)]) as (-> & -> & ->); [|by exists F'].
    destruct l1 as [|b0 [|b1 [|b2 [|]]]]; cbn [app] in El; simplify_eq; done. }
  unfold wp in Hw. rewrite pool1_eq in Hw. by apply Hw.
Qed.

Lemma free_merges_neighbours_witness :
  wp (free_ex (heap_base 0x1000 + 16 + 8) 0x1000) (fun _ st =>
    (exists F', heap_ok (t_mem st) 0x1000 5008 [(8, false); (4976, true); (0, false)] F') /\ t_mp st = 0x1000 /\
    changes (own 0x1000 5008 [(8, false); (4976, true); (0, false)]) pool1 (t_mem st)) (mk_tlsf pool1 0x1000).
Proof.
  destruct pool1_ok as [F HF].
  pose proof (free_merges_neighbours pool1 0x1000 5008 [(8, false)] 104 [(4864, true); (0, false)] F 0x1000 HF ltac:(lia)) as H.
  change (blen [(8, false)]) with 16 in H.
  change (a_free [(8, false)] 104 [(4864, true); (0, false)]) with [(8, false); (4976, true); (0, false)] in H. exact H.
Defined.

(** C18. The use of a pool: after [init_memory_pool], any sequence of [malloc_ex],
    [calloc_ex], [realloc_ex] and [free_ex] of blocks in use and of writes inside
    them. The blocks in use lie in the pool, at multiples of eight from its end of
    the control structure, and do not overlap; the next operation returns, keeps
    the contents of the blocks that stay in use, gives out no block that is in
    use, clears what [calloc_ex] gives and keeps in a resized block the bytes that
    fit; and when nothing is in use, the pool is one free block again. *)
Theorem pool_use_safe m t sz mp r m0 mp0 m1 live :
  0 < t -> t mod 4 = 0 -> sizeof_tlsf + BHDR_OVERHEAD * 8 <= sz < 2 ^ 30 -> t + sz + 4 <= 2 ^ 32 ->
  peek m t <> TLSF_SIGNATURE -> init_memory_pool sz t (mk_tlsf m mp) = Some (r, mk_tlsf m0 mp0) ->
  used_by t m0 m1 live ->
  (forall p z, live !! p = Some z -> (exists k, p = heap_base t + 8 * k) /\ heap_base t <= p /\ p + z <= heap_base t + pool_len sz) /\
  (forall p z q y, live !! p = Some z -> live !! q = Some y -> p <> q -> p + z <= q \/ q + y <= p) /\
  (forall o, legal live o -> exists r m2, exec_op t o (mk_tlsf m1 t) = Some (r, mk_tlsf m2 t) /\
     keeps_live live (effect live o r) o m1 m2 /\ fresh live o r /\ gives live o m1 r m2) /\
  (live = ∅ -> exists F, heap_ok m1 t (pool_len sz) [(8, false); (pool_len sz - 32, true); (0, false)] F).
Proof.
  intros Ht H4 Hsz Htop Hsig Ei Hu. destruct (pool_len_bounds sz Hsz) as (_ & Hn64 & _).
  assert (pool_inv m0 t (pool_len sz) ∅) as H0.
  { refine (wp_elim _ (fun _ st => pool_inv (t_mem st) t (pool_len sz) ∅) _ _ _ _ Ei).
    apply wp_init_memory_pool; [done..|]. intros m' F Hok _. by eapply new_pool_inv. }
  pose proof (used_by_inv _ _ _ _ _ H0 Hu) as Hinv. split_and!.
  - intros p z Hp. destruct (live_inside _ _ _ _ _ _ Hinv Hp) as ((k & Ek & _) & Hlo & Hhi). split; [exists (k + 1); lia|lia].
  - intros p z q y. by eapply live_disjoint.
  - intros o Hleg. destruct (wp_returns _ _ _ (op_returns m1 t _ live o Hinv Hleg)) as (r' & st & E & m2 & -> & _ & Hk). by exists r', m2.
  - intros ->. by apply pool_empty.
Qed.

Lemma pool0_eq : init_memory_pool 0x2000 0x1000 (mk_tlsf ∅ NULL) = Some (4976, mk_tlsf pool0 0x1000).
Proof. vm_compute. reflexivity. Qed.

Lemma pool1_use : used_by 0x1000 pool0 pool1 {[0x1000 + 3184 + 24 := 100]}.
Proof. exact (used_op 0x1000 pool0 pool0 ∅ (PMalloc 100) (0x1000 + 3184 + 24) pool1 0x1000 (used_none _ _) ltac:(cbn; lia) pool1_eq). Qed.

Lemma pool_use_safe_witness :
  let p := 0x1000 + 3184 + 24 in let o := PRealloc p 200 in
  exists r m2, exec_op 0x1000 o (mk_tlsf pool1 0x1000) = Some (r, mk_tlsf m2 0x1000) /\
    (r <> NULL -> forall i, 0 <= i < 100 -> i mod 4 = 0 -> peek m2 (r + i) = peek pool1 (p + i)).
Proof.
  intros p o. assert (sizeof_tlsf + BHDR_OVERHEAD * 8 <= 0x2000 < 2 ^ 30) as Hsz by (by split).
  assert (peek ∅ 0x1000 <> TLSF_SIGNATURE) as Hsig by done.
  destruct (pool_use_safe ∅ 0x1000 0x2000 NULL 4976 pool0 0x1000 pool1 _ ltac:(lia) eq_refl Hsz ltac:(lia) Hsig pool0_eq pool1_use)
    as (_ & _ & Hop & _).
  destruct (Hop o) as (r & m2 & E & _ & _ & Hg); [split; [right; by eexists|lia]|]. exists r, m2. split; [exact E|].
  intros Hr i Hi Hi4. exact (Hg Hr 100 i eq_refl Hi Hi4).
Defined.

Definition result_in (m : gmap Z Z) {A} (f : TM A) : option A := fst <$> f (mk_tlsf m 0x1000).

(** A block grows in its place when the block behind it is free, moves with its
    contents when it is not, and a cleared block has no old contents. *)
Example realloc_ex_runs :
  let p := 0x1000 + 3184 + 24 in
  result_in pool1 (realloc_ex p 200 0x1000) = Some p /\
  result_in pool1 (mem (store p 77) ;;; let* q := malloc_ex 8 0x1000 in let* r := realloc_ex p 200 0x1000 in
    let* v := mem (load r) in ret (q - p, r - p, v)) = Some (112, 128, 77) /\
  result_in pool1 (mem (store p 77) ;;; free_ex p 0x1000 ;;; let* r := calloc_ex 5 5 0x1000 in
    let* v := mem (load r) in ret (r - p, v)) = Some (0, 0).
Proof. vm_compute. done. Qed.

(** An area added to the pool serves requests: alone, and joined to the pool when
    it starts where the pool ends. *)

Example add_new_area_grows :
  result_in pool0 (add_new_area 0x8000 0x1000 0x1000) = Some 4064 /\
  result_in pool0 (malloc_ex 6000 0x1000) = Some NULL /\
  result_in pool0 (add_new_area (0x1000 + 3184 + 5008) 0x1000 0x1000 ;;; malloc_ex 6000 0x1000) = Some (0x1000 + 3184 + 24).
Proof. vm_compute. done. Qed.

End Arena.

Module VariablePools.

(** C21. [get_mpl] with the variable of the caller outside the pool, on a pool in
    order, returns: a bad identifier and a size beyond the pool are reported
    without effect; otherwise it is [E_OK] and the variable has NULL, when no
    free block is big enough, or a block of at least the size asked for, and the
    pool is in order. Tasks, queues and the interrupt mask are unchanged. *)
Theorem get_mpl_allocates s R W T id sz p x n L F :
  kinv s R W T -> mpl_pool (k_mpl s) !! Z.to_nat (id - 1) = Some x -> heap_ok (k_mem s) (mpl_base x) n L F ->
  outside (mpl_base x) n p -> 0 <= sz -> mpl_length x <= 2 ^ 29 ->
  wp (get_mpl_sys id sz p) (fun r s' => kinv s' R W T /\ imask (k_int s') = imask (k_int s) /\
    if bad_mplid id then r = Done E_ID /\ s' = s
    else if sz >? mpl_length x then r = Done E_PAR /\ k_mem s' = k_mem s
    else r = Done E_OK /\ allocated (k_mem s) (k_mem s') (mpl_base x) n L sz (peek (k_mem s') p) /\
      changes (fun y => y = p \/ own (mpl_base x) n L y) (k_mem s) (k_mem s')) s.
Proof. apply wp_get_mpl_sys. Qed.

(** The first user pool of the board, just initialized. *)
Definition user_mem : gmap Z Z := new_pool 0x300000 0x10000.
Definition boot_user : kstate := set_k_mem user_mem boot0.
Definition user_pool : mplpool_t := mk_mpl 0x10000 0x300000 1.

Lemma boot_user_pool : mpl_pool (k_mpl boot_user) !! Z.to_nat (1 - 1) = Some user_pool.
Proof. run. Qed.

Lemma user_mem_ok : exists F, heap_ok user_mem 0x300000 62352 [(8, false); (62320, true); (0, false)] F.
Proof.
  pose proof (new_pool_ok 0x300000 0x10000 ltac:(lia) eq_refl ltac:(by split) ltac:(lia)) as H.
  change (pool_len 0x10000) with 62352 in H. change (62352 - 32) with 62320 in H. exact H.
Qed.

Lemma get_mpl_allocates_witness :
  wp (get_mpl_sys 1 100 0x500000) (fun r s' => kinv s' boot_ready no_wait [] /\ imask (k_int s') = imask (k_int boot_user) /\
    r = Done E_OK /\
    allocated (k_mem boot_user) (k_mem s') 0x300000 62352 [(8, false); (62320, true); (0, false)] 100 (peek (k_mem s') 0x500000) /\
    changes (fun y => y = 0x500000 \/ own 0x300000 62352 [(8, false); (62320, true); (0, false)] y) (k_mem boot_user) (k_mem s')) boot_user.
Proof.
  destruct user_mem_ok as [F HF].
  assert (outside 0x300000 62352 0x500000) as Ho by (split; [done|right; rewrite heap_base_eq; lia]).
  exact (get_mpl_allocates boot_user boot_ready no_wait [] 1 100 0x500000 user_pool 62352 _ F
    (kinv_set_mem boot0 _ _ _ user_mem boot0_kinv) boot_user_pool HF Ho ltac:(lia) ltac:(done)).
Defined.

(** [rel_mpl] of a block in use returns [E_OK] with the block given back and
    merged with its free neighbours; nothing else changes. *)
Theorem rel_mpl_releases s R W T id x n l1 z l2 F :
  kinv s R W T -> mpl_pool (k_mpl s) !! Z.to_nat (id - 1) = Some x ->
  heap_ok (k_mem s) (mpl_base x) n (l1 ++ (z, false) :: l2) F -> 8 <= z ->
  wp (rel_mpl_sys id (heap_base (mpl_base x) + blen l1 + 8)) (fun r s' => kinv s' R W T /\ imask (k_int s') = imask (k_int s) /\
    if bad_mplid id then r = Done E_ID /\ s' = s
    else r = Done E_OK /\ (exists F', heap_ok (k_mem s') (mpl_base x) n (a_free l1 z l2) F') /\
      changes (own (mpl_base x) n (a_free l1 z l2)) (k_mem s) (k_mem s')) s.
Proof. apply wp_rel_mpl_sys. Qed.

(** The area header is a block in use like any other. *)
Lemma rel_mpl_releases_witness :
  wp (rel_mpl_sys 1 (heap_base 0x300000 + 0 + 8)) (fun r s' => kinv s' boot_ready no_wait [] /\ imask (k_int s') = imask (k_int boot_user) /\
    r = Done E_OK /\ (exists F', heap_ok (k_mem s') 0x300000 62352 [(62336, true); (0, false)] F') /\
    changes (own 0x300000 62352 [(62336, true); (0, false)]) (k_mem boot_user) (k_mem s')) boot_user.
Proof.
  destruct user_mem_ok as [F HF].
  exact (rel_mpl_releases boot_user boot_ready no_wait [] 1 user_pool 62352 [] 8 [(62320, true); (0, false)] F
    (kinv_set_mem boot0 _ _ _ user_mem boot0_kinv) boot_user_pool HF ltac:(lia)).
Defined.

End VariablePools.
