(* ===== verification/Divergences.v ===== *)
(** * Where the code departs from its interface

    Behaviours of the code that its comments or the ITRON interface do not
    announce, as theorems; most are evaluated at states of [Boot]. *)

From Stdlib Require Import ZArith Lia.
From stdpp Require Import base tactics gmap option functions countable list.
From S2P Require Import Prelude Bits Queue Qfam Mem Mpool Kstate Tlsf Syslog Sched Timeout Dispatch.
From S2P Require Import Kinv Ktime Waitobj Task Semaphore Event Mailbox Mempool Kernel Setup Boot.
From S2P Require Import TlsfMap TlsfFree TlsfHeap TlsfAlloc TlsfMalloc TlsfPool KernelHeap.

Open Scope Z_scope.
Open Scope kernel_scope.

(** The block that [malloc_ex] makes of a free one: at most 15 bytes more than the
    rounded request. *)
Lemma block_given r s l2 : exists b l2', a_take r s l2 = (b, false) :: l2' /\ b < r + 16.
Proof.
  unfold a_take. destruct (Z.leb_spec 16 (s - r)); [exists r, ((s - r - 8, true) :: l2)|exists s, l2]; (split; [done|lia]).
Qed.

Lemma taken_in t (l1 : blocks) s l2 : (heap_base t + blen l1, s, true) ∈ at_ (heap_base t) (l1 ++ (s, true) :: l2).
Proof. rewrite at_app, elem_of_app. right. left. Qed.

Module Divergences.

(** [ref_tsk] never reports the state of a task: every pointer that is not
    NULL is refused with [E_PAR], and with NULL the call reports an error or
    writes through the pointer. *)
Theorem ref_tsk_never_ok s id p :
  wlp (ref_tsk_sys id p) (fun r _ => r = Done E_ID \/ (nz p = true /\ r = Done E_PAR) \/ (nz p = false /\ r = Done E_NOEXS)) s.
Proof.
  unfold ref_tsk_sys. destruct (bad_tskid id) eqn:Eb; [apply wlp_ret; by left|].
  destruct (nz p) eqn:Ep; cbn [Z.eqb TSK_SELF]; [apply wlp_ret; auto|].
  unfold pick_task. apply bad_tskid_false in Eb. destruct (Z.eqb_spec id TSK_SELF) as [E|_]; [unfold TSK_SELF in E; lia|].
  apply wlp_bind, wp_wlp, wp_cli, wlp_bind, wlp_bind, wp_wlp, wp_gets.
  destruct (negb _).
  - apply wlp_bind, wp_wlp, wp_sti, wlp_ret, wlp_ret. auto.
  - apply wlp_ret, wlp_bind, wlp_get_task. intros t. apply wlp_bind. unfold wlp, kmem, zoom, store, valid_addr. by rewrite Ep.
Qed.

(** C40. The message pool of the mailboxes is larger than the memory reserved for
    it. [init_mbox_pool] on any fast pool in order with a free block of 2624 bytes,
    below the last 10 KB of the address space, returns: the message pool is the
    payload of a block of [b] bytes that the allocator made of a free one, its 128
    messages are for use, and the messages 33 to 127 are behind the end of that
    block, in memory that belongs to other blocks or lies behind the fast pool. *)
Theorem message_pool_overruns s n L F a z :
  let t := kfast_pool (k_setup s) in
  heap_ok (k_mem s) t n L F -> (a, z, true) ∈ at_ (heap_base t) L -> 2624 <= z -> heap_base t + n + 10496 <= 2 ^ 32 ->
  wp init_mbox_pool (fun _ s' =>
    let p := msg_pool (k_mbx s') in
    exists l1 y l2 b l3 m1 F1, L = l1 ++ (y, true) :: l2 /\ a_take 2624 y l2 = (b, false) :: l3 /\
      heap_ok m1 t n (l1 ++ (b, false) :: l3) F1 /\ p = heap_base t + blen l1 + 8 /\
      (forall x, x < p \/ mp_base p <= x -> peek (k_mem s') x = peek m1 x) /\
      pool_ok (k_mem s') p sizeof_mbox_msg_head CONFIG_MAX_MAILBOX_MSG 0 [] /\
      forall j, 33 <= j < CONFIG_MAX_MAILBOX_MSG -> p + b < msg_at p j) s.
Proof.
  intros t Hok Hz Hsz Htop. apply wp_bind, wp_modify, wp_bind, wp_gets, wp_bind, wp_ktlsf.
  change (POOL_SIZE sizeof_mbox_msg_head CONFIG_MAX_MAILBOX_MSG) with 2580.
  match goal with |- context [kfast_pool (k_setup ?s1)] => change (kfast_pool (k_setup s1)) with t end.
  eapply wp_malloc_ex; [exact Hok|lia|by vm_compute|lia|..]; change ((MAPPING_SEARCH (adjust 2580)).1.1) with 2624.
  { intros Hno. pose proof (Hno _ _ Hz). lia. }
  intros l1 y l2 m' F' -> Hy Hok' _. pose proof (block_given 2624 y l2) as (b & l2' & Eb & Hb). rewrite Eb in Hok'.
  pose proof Hok as [[Ht H4 Hend _] Hlen He _ _ _ _]. pose proof (ending_nonneg _ He) as Hn.
  pose proof (at_bounds _ _ _ _ _ Hn (taken_in t l1 y l2)) as Hin. rewrite Hlen in Hin. pose proof (heap_base_eq t) as Eh.
  set (p := heap_base t + blen l1 + 8) in *. assert (p = heap_base t + blen l1 + 8) as Ep by done.
  assert (valid_addr (heap_base t + blen l1 + 4 * 2) = true) as Hv.
  { apply (node_addr t); [done|done| |lia]. eapply at_node; [exact He|apply taken_in]. }
  apply wp_bind, wp_modify, wp_kmem, wp_init_pool; try done.
  - lia.
  - by apply valid_addr_spec in Hv as [_ Hv].
  - unfold mp_base, stride, sizeof_mpool_block, sizeof_ptr, sizeof_mbox_msg_head, CONFIG_MAX_MAILBOX_MSG in *. lia.
  - intros m2 Hp Hout. cbn. exists l1, y, l2, b, l2', m', F'. split_and!; try done. intros j Hj.
    unfold msg_at, block, mp_base, stride, sizeof_mpool_block, sizeof_ptr, sizeof_mbox_msg_head in *. lia.
Qed.

(** On the board messages of the pool lie inside the kernel stack of the main
    task. *)
Lemma messages_in_stack :
  exists t, task_pool (k_task boot0) !! 1%nat = Some t /\
  forall j, 33 <= j <= 45 -> kstk t - CONFIG_KSTACK_SIZE < msg_at (msg_pool (k_mbx boot0)) j <= kstk t /\
    j < CONFIG_MAX_MAILBOX_MSG.
Proof.
  assert (kstk <$> task_pool (k_task boot0) !! 1%nat = Some 2104008) as (t & -> & Hk)%fmap_Some by run.
  exists t. split; [done|]. intros j Hj. rewrite <- Hk. assert (msg_pool (k_mbx boot0) = 2100360) as -> by run.
  unfold msg_at, block, mp_base, stride, sizeof_mbox_msg_head, sizeof_mpool_block, sizeof_ptr, CONFIG_KSTACK_SIZE,
    CONFIG_MAX_MAILBOX_MSG. lia.
Qed.

(** The fast pool of the board as [init_syspools] leaves it. *)
Definition fresh_fast : kstate :=
  set_k_setup (set_kfast_pool 0x200000 (k_setup power_on)) (set_k_mem (new_pool 0x200000 0x10000) power_on).

Lemma message_pool_overruns_witness : wp init_mbox_pool (fun _ s' =>
  let p := msg_pool (k_mbx s') in
  exists l1 y l2 b l3 m1 F1, [(8, false); (pool_len 0x10000 - 32, true); (0, false)] = l1 ++ (y, true) :: l2 /\
    a_take 2624 y l2 = (b, false) :: l3 /\ heap_ok m1 0x200000 (pool_len 0x10000) (l1 ++ (b, false) :: l3) F1 /\
    p = heap_base 0x200000 + blen l1 + 8 /\
    (forall x, x < p \/ mp_base p <= x -> peek (k_mem s') x = peek m1 x) /\
    pool_ok (k_mem s') p sizeof_mbox_msg_head CONFIG_MAX_MAILBOX_MSG 0 [] /\
    forall j, 33 <= j < CONFIG_MAX_MAILBOX_MSG -> p + b < msg_at p j) fresh_fast.
Proof.
  destruct (new_pool_ok 0x200000 0x10000 ltac:(lia) eq_refl ltac:(by split) ltac:(lia)) as [F HF].
  apply (message_pool_overruns fresh_fast (pool_len 0x10000) _ F (heap_base 0x200000 + 16) (pool_len 0x10000 - 32) HF).
  - right. left.
  - by vm_compute.
  - by vm_compute.
Defined.

(** Eventflag 1 when the main task waits for any of the bits 0 and 1. *)
Definition flg_or : kstate := after_of (wai_flg_sys 1 3 TWF_ORW 0x600000) flg0.

(** A wait for any of several bits is treated as a wait for all of them: when
    one of the bits is set the task keeps waiting and the idle task runs. *)
Theorem or_wait_is_and_wait :
  result_of (wai_flg_sys 1 3 TWF_ORW 0x600000) flg0 = Some (Cont (KWaiFlg 1)) /\
  result_of (set_flg_sys 1 1) flg_or = Some (Cont (KReturn E_OK)) /\
  current_task (k_sched (after_of (set_flg_sys 1 1) flg_or)) = Some 0%nat /\
  current_task (k_sched (after_of (set_flg_sys 1 3) flg_or)) = Some 1%nat.
Proof. repeat split; run. Qed.

(** A block of a fixed-size pool that [rel_mpf] refuses: the second block of a
    pool of two blocks is past the end that the code computes. *)
Definition mpf2 : kstate := after_of (get_mpf_sys 1 0x600000) mpf1.

Theorem valid_block_refused :
  peek (k_mem mpf2) 0x600000 = block 0x700000 16 1 + 4 /\
  result_of (rel_mpf_sys 1 (block 0x700000 16 1 + 4)) mpf2 = Some (Done E_PAR).
Proof. split; run. Qed.

(** [ter_tsk] of a task that is not dormant ends with the interrupts masked. *)
Theorem ter_tsk_leaves_masked :
  result_of (ter_tsk_sys 2) boot0 = Some NoValue /\ imask (k_int (after_of (ter_tsk_sys 2) boot0)) = 0.
Proof. split; run. Qed.

(** A semaphore that is deleted and created again makes the list of the active
    semaphores a cycle of one node. *)
Definition sem_again : kstate := after_of (cre_sem_sys 1 (Some csem)) (after_of (del_sem_sys 1) sem0).

Theorem active_list_cycle :
  active_sem (k_sem sem_again) = Some (SemAct 0) /\ next (Queue.node (k_nodes sem_again) (SemAct 0)) = Some (SemAct 0).
Proof. split; run. Qed.

(** The size of a request wraps around: [malloc_ex] of almost 4 GB gives a
    pointer to a block of no bytes. *)
Theorem malloc_size_wraps :
  match malloc_ex 0xFFFFFFFF 0x1000 (mk_tlsf (new_pool 0x1000 0x2000) 0x1000) with
  | Some (p, st) => nz p = true /\ peek (t_mem st) (p - 4) = 0
  | None => False
  end.
Proof. vm_compute. done. Qed.

(** [init_memory_pool] rounds the size of the area down but its address up: with
    a size of 4 modulo 8 the end mark is written behind the pool. *)
Theorem init_past_the_end : peek (new_pool 0x1000 0x2004) (0x1000 + 0x2004) = 2.
Proof. vm_compute. reflexivity. Qed.

End Divergences.
