(* ===== verification/Bytes.v ===== *)
(** * Byte memory

    The memory that the C library of the kernel works on, byte by byte: a
    finite map from addresses to bytes. An access to an address that is not
    mapped faults. [arr m a l] says that the bytes [l] are at [a], and [cstr]
    that they form a string that ends in a zero byte. *)

From Stdlib Require Import ZArith Lia.
From stdpp Require Import base tactics gmap option list.
From S2P Require Import Prelude Mem.

Open Scope Z_scope.
Open Scope kernel_scope.

Abbreviation bmem := (gmap Z Z).

Definition u8 : Z -> Z := wrapu 8.

(** [char] is signed on the Blackfin. *)
Definition i8 : Z -> Z := wraps 8.

(** [*p] as an [unsigned char], and [*p = v]. *)
Definition ldb (a : Z) : M bmem Z :=
  fun m => match m !! a with Some b => Some (b, m) | None => None end.

Definition stb (a v : Z) : M bmem unit :=
  fun m => match m !! a with Some _ => Some (tt, <[a := u8 v]> m) | None => None end.

(** A bound on the length of a string in memory: its bytes are mapped. *)
Definition byte_fuel (m : bmem) : nat := S (size m).

Definition byte (b : Z) : Prop := 0 <= b < 256.

Definition arr (m : bmem) (a : Z) (l : list Z) : Prop :=
  forall i b, l !! i = Some b -> m !! (a + Z.of_nat i) = Some b.

Definition cstr (m : bmem) (a : Z) (l : list Z) : Prop :=
  arr m a (l ++ [0]) /\ Forall (fun b => 0 < b < 256) l.

(** The addresses [a], ..., [a + n - 1] are mapped. *)
Definition mapped (m : bmem) (a n : Z) : Prop := forall x, a <= x < a + n -> is_Some (m !! x).

(** [m'] is [m] but for the addresses from [a] to [a + n - 1]. *)
Definition only (m m' : bmem) (a n : Z) : Prop :=
  (forall x, is_Some (m' !! x) <-> is_Some (m !! x)) /\
  forall x, (x < a \/ a + n <= x) -> m' !! x = m !! x.

(** The areas [a, a+n) and [b, b+k) have no common address. *)
Definition apart (a n b k : Z) : Prop := a + n <= b \/ b + k <= a.

(** ** Bytes *)

Lemma u8_byte z : byte (u8 z).
Proof. unfold byte, u8, wrapu. apply Z.mod_pos_bound. lia. Qed.

Lemma u8_id z : byte z -> u8 z = z.
Proof. apply Z.mod_small. Qed.

Lemma u8_i8 z : byte z -> u8 (i8 z) = z.
Proof.
  intros H. unfold u8, i8, wrapu, wraps, byte in *. change (2 ^ (8 - 1)) with 128. change (2 ^ 8) with 256.
  destruct (Z.lt_ge_cases z 128) as [H1|H1].
  - rewrite (Z.mod_small (z + 128)) by lia. replace (z + 128 - 128) with z by lia. apply Z.mod_small. lia.
  - replace (z + 128) with ((z - 128) + 1 * 256) by lia. rewrite Z.mod_add, (Z.mod_small (z - 128)) by lia.
    symmetry. apply (Z.mod_unique _ _ (-1)); lia.
Qed.

Lemma i8_inj x y : byte x -> byte y -> i8 x = i8 y -> x = y.
Proof. intros Hx Hy E. rewrite <- (u8_i8 x Hx), <- (u8_i8 y Hy). by rewrite E. Qed.

Lemma i8_zero b : byte b -> (i8 b =? 0) = (b =? 0).
Proof.
  intros Hb. destruct (Z.eqb_spec b 0) as [->|H]; [done|]. apply Z.eqb_neq. intros E. apply H.
  by apply i8_inj.
Qed.

(** ** Areas *)

Lemma arr_nil m a : arr m a [].
Proof. intros i b E. by rewrite lookup_nil in E. Qed.

Lemma arr_cons m a b l : arr m a (b :: l) <-> m !! a = Some b /\ arr m (a + 1) l.
Proof.
  split.
  - intros H. split; [specialize (H 0%nat b eq_refl); by rewrite Z.add_0_r in H|].
    intros i c E. specialize (H (S i) c E). by replace (a + 1 + Z.of_nat i) with (a + Z.of_nat (S i)) by lia.
  - intros [H1 H2] [|i] c E; simpl in E.
    + injection E as <-. by rewrite Z.add_0_r.
    + specialize (H2 i c E). by replace (a + Z.of_nat (S i)) with (a + 1 + Z.of_nat i) by lia.
Qed.

Lemma arr_app m a l1 l2 : arr m a (l1 ++ l2) <-> arr m a l1 /\ arr m (a + Z.of_nat (length l1)) l2.
Proof.
  revert a. induction l1 as [|b l1 IH]; intros a; simpl.
  { rewrite Z.add_0_r. split; [intros H; split; [apply arr_nil|done]|by intros [_ H]]. }
  rewrite !arr_cons, IH. replace (a + 1 + Z.of_nat (length l1)) with (a + Z.of_nat (S (length l1))) by lia. tauto.
Qed.

Lemma arr_mapped m a l : arr m a l -> mapped m a (Z.of_nat (length l)).
Proof.
  intros H x Hx. destruct (lookup_lt_is_Some_2 l (Z.to_nat (x - a))) as [b Hb]; [lia|].
  exists b. rewrite <- (H _ _ Hb). f_equal. lia.
Qed.

Lemma arr_insert_out m a l x v : arr m a l -> x < a \/ a + Z.of_nat (length l) <= x -> arr (<[x := v]> m) a l.
Proof.
  intros H Hx i b E. rewrite lookup_insert_ne; [by apply H|]. apply lookup_lt_Some in E. lia.
Qed.

Lemma arr_only m m' a n b l : only m m' a n -> apart a n b (Z.of_nat (length l)) -> arr m b l -> arr m' b l.
Proof.
  intros [_ Ho] Hap H i c E. pose proof (lookup_lt_Some _ _ _ E) as Hlt.
  rewrite Ho; [by apply H|]. unfold apart in Hap. lia.
Qed.

Lemma only_refl m a n : only m m a n.
Proof. done. Qed.

Lemma only_trans m1 m2 m3 a n : only m1 m2 a n -> only m2 m3 a n -> only m1 m3 a n.
Proof.
  intros [H1 H2] [H3 H4]. split; [intros x; by rewrite H3, H1|]. intros x Hx. by rewrite H4, H2.
Qed.

Lemma only_weaken m m' a n b k : only m m' a n -> b <= a -> a + n <= b + k -> only m m' b k.
Proof. intros [H1 H2] Hb Hk. split; [done|]. intros x Hx. apply H2. lia. Qed.

Lemma only_insert m a n x v : is_Some (m !! x) -> a <= x < a + n -> only m (<[x := v]> m) a n.
Proof.
  intros Hm Hx. split.
  - intros y. destruct (decide (x = y)) as [<-|Hne].
    + rewrite lookup_insert_eq. split; [done|]. intros _. by exists v.
    + by rewrite lookup_insert_ne.
  - intros y Hy. apply lookup_insert_ne. lia.
Qed.

Lemma only_mapped m m' a n b k : only m m' a n -> mapped m b k -> mapped m' b k.
Proof. intros [H _] Hm x Hx. apply H, Hm, Hx. Qed.

(** The bytes of an area are mapped at distinct addresses. *)
Lemma arr_fuel m a l : arr m a l -> (length l < byte_fuel m)%nat.
Proof.
  intros H. unfold byte_fuel. apply Nat.lt_succ_r. rewrite <- size_dom.
  set (keys := (fun i => a + Z.of_nat i) <$> seq 0 (length l)).
  assert (NoDup keys) as Hnd. { apply NoDup_fmap; [intros i j E; lia|apply NoDup_seq]. }
  replace (length l) with (length keys) by (unfold keys; by rewrite length_fmap, length_seq).
  rewrite <- (size_list_to_set (C := gset Z) keys Hnd). apply subseteq_size. intros x Hx.
  apply elem_of_list_to_set, list_elem_of_fmap in Hx as (i & -> & Hi%elem_of_seq).
  apply elem_of_dom. apply (arr_mapped _ _ _ H). lia.
Qed.

Lemma cstr_nil m a : cstr m a [] <-> m !! a = Some 0.
Proof.
  unfold cstr. simpl. rewrite arr_cons. split; [by intros [[H _] _]|]. intros H. split; [|constructor].
  split; [done|apply arr_nil].
Qed.

Lemma cstr_cons m a b l : cstr m a (b :: l) <-> m !! a = Some b /\ 0 < b < 256 /\ cstr m (a + 1) l.
Proof. unfold cstr. simpl. rewrite arr_cons, Forall_cons. tauto. Qed.

Lemma cstr_fuel m a l : cstr m a l -> (length l < byte_fuel m - 1)%nat.
Proof. intros [H _]. apply arr_fuel in H. rewrite length_app in H. simpl in H. lia. Qed.

Lemma cstr_only m m' a n b l : only m m' a n -> apart a n b (Z.of_nat (length l) + 1) -> cstr m b l -> cstr m' b l.
Proof.
  intros Ho Hap [H1 H2]. split; [|done]. eapply arr_only; [exact Ho| |exact H1].
  rewrite length_app. simpl. by replace (Z.of_nat (length l + 1)) with (Z.of_nat (length l) + 1) by lia.
Qed.

(** ** Accesses *)

Lemma wp_ldb m a b (Q : Z -> bmem -> Prop) : m !! a = Some b -> Q b m -> wp (ldb a) Q m.
Proof. intros E HQ. unfold wp, ldb. by rewrite E. Qed.

Lemma wp_stb m a v (Q : unit -> bmem -> Prop) : is_Some (m !! a) -> Q tt (<[a := u8 v]> m) -> wp (stb a v) Q m.
Proof. intros [b E] HQ. unfold wp, stb. by rewrite E. Qed.

(** A read inside an area. *)
Lemma wp_ldb_at m a l i b (Q : Z -> bmem -> Prop) :
  arr m a l -> l !! i = Some b -> Q b m -> wp (ldb (a + Z.of_nat i)) Q m.
Proof. intros H E. apply wp_ldb, (H _ _ E). Qed.

(** A word in memory, little-endian. *)
Definition ldw (a : Z) : M bmem Z :=
  let* b0 := ldb a in let* b1 := ldb (a + 1) in let* b2 := ldb (a + 2) in let* b3 := ldb (a + 3) in
  ret (b0 + 2 ^ 8 * b1 + 2 ^ 16 * b2 + 2 ^ 24 * b3).

Definition word_bytes (v : Z) : list Z := [u8 v; u8 (v / 2 ^ 8); u8 (v / 2 ^ 16); u8 (v / 2 ^ 24)].

Definition stw (a v : Z) : M bmem unit :=
  stb a v ;;; stb (a + 1) (v / 2 ^ 8) ;;; stb (a + 2) (v / 2 ^ 16) ;;; stb (a + 3) (v / 2 ^ 24).

Lemma wp_ldw m a v (Q : Z -> bmem -> Prop) : arr m a (word_bytes v) -> Q (u32 v) m -> wp (ldw a) Q m.
Proof.
  intros H HQ. unfold word_bytes in H. rewrite !arr_cons in H. destruct H as (H0 & H1 & H2 & H3 & _).
  unfold ldw. replace (a + 2) with (a + 1 + 1) by lia. replace (a + 3) with (a + 1 + 1 + 1) by lia.
  do 4 (apply wp_bind; eapply wp_ldb; [eassumption|]). apply wp_ret.
  replace (_ + _ + _ + _) with (u32 v); [done|]. unfold u8, u32, wrapu.
  rewrite (Zdiv.Zmod_eq (v / 2 ^ 8)), (Zdiv.Zmod_eq (v / 2 ^ 16)), (Zdiv.Zmod_eq (v / 2 ^ 24)), (Zdiv.Zmod_eq v (2 ^ 8)) by lia.
  rewrite (Zdiv.Zmod_eq v (2 ^ 32)), !Z.div_div by lia. change (2 ^ 8 * 2 ^ 8) with (2 ^ 16).
  change (2 ^ 16 * 2 ^ 8) with (2 ^ 24). change (2 ^ 24 * 2 ^ 8) with (2 ^ 32). lia.
Qed.

Create HintDb bytes.
#[export] Hint Resolve arr_nil only_refl u8_byte : bytes.

(** ** Concrete memories *)

(** A memory with the bytes [l] at [a]. *)
Fixpoint bytes_at (a : Z) (l : list Z) : bmem :=
  match l with [] => ∅ | b :: l => <[a := b]> (bytes_at (a + 1) l) end.

Lemma bytes_at_lookup a l x : bytes_at a l !! x = if decide (a <= x) then l !! Z.to_nat (x - a) else None.
Proof.
  revert a. induction l as [|b l IH]; intros a; cbn [bytes_at].
  { rewrite lookup_empty. by case_decide. }
  rewrite lookup_insert. destruct (decide (a = x)) as [->|Hne].
  - rewrite decide_True by lia. by rewrite Z.sub_diag.
  - rewrite IH. destruct (decide (a + 1 <= x)).
    + rewrite decide_True by lia. replace (Z.to_nat (x - a)) with (S (Z.to_nat (x - (a + 1)))) by lia. done.
    + by rewrite decide_False by lia.
Qed.

Lemma bytes_at_arr a l : arr (bytes_at a l) a l.
Proof.
  intros i b E. rewrite bytes_at_lookup, decide_True by lia. by replace (Z.to_nat (a + Z.of_nat i - a)) with i by lia.
Qed.

Lemma bytes_at_cstr a l : Forall (fun b => 0 < b < 256) l -> cstr (bytes_at a (l ++ [0])) a l.
Proof. intros H. split; [apply bytes_at_arr|done]. Qed.

Lemma bytes_at_domain a l x : is_Some (bytes_at a l !! x) <-> a <= x < a + Z.of_nat (length l).
Proof.
  rewrite bytes_at_lookup. case_decide as H; [|split; [by intros [? ?]|lia]]. rewrite lookup_lt_is_Some. lia.
Qed.

Lemma bytes_at_disjoint a l b k : a + Z.of_nat (length l) <= b \/ b + Z.of_nat (length k) <= a ->
  bytes_at a l ##ₘ bytes_at b k.
Proof.
  intros H. apply map_disjoint_spec. intros x y z Hy Hz.
  assert (is_Some (bytes_at a l !! x)) as H1%bytes_at_domain by (by exists y).
  assert (is_Some (bytes_at b k !! x)) as H2%bytes_at_domain by (by exists z). lia.
Qed.
