(* ===== verification/Cstring.v ===== *)
(** * Strings: libc/string.c

    The functions as loops on byte memory. A loop over a string has as fuel
    the number of mapped bytes, and a loop with a count recurses on it. [char]
    is signed: [i8] is written where the sign of a byte matters. *)

From Stdlib Require Import ZArith Lia.
From stdpp Require Import base tactics gmap option list.
From S2P Require Import Prelude Mem Bytes.

Open Scope Z_scope.
Open Scope kernel_scope.

(** ** Blocks of bytes *)

Fixpoint memset_loop (n : nat) (ptr s : Z) : M bmem unit :=
  match n with
  | O => ret tt
  | S n => stb ptr s ;;; memset_loop n (ptr + 1) s
  end.

Definition memset (dst s count : Z) : M bmem Z :=
  memset_loop (Z.to_nat count) dst s ;;; ret dst.

(** [n] bytes from [s] to [d], upwards. *)
Fixpoint copy_up (n : nat) (d s : Z) : M bmem unit :=
  match n with
  | O => ret tt
  | S n => let* b := ldb s in stb d b ;;; copy_up n (d + 1) (s + 1)
  end.

(** [n] bytes from [b] to [a], downwards. *)
Fixpoint copy_down (n : nat) (a b : Z) : M bmem unit :=
  match n with
  | O => ret tt
  | S n => let* c := ldb b in stb a c ;;; copy_down n (a - 1) (b - 1)
  end.

Definition memcpy (dst src count : Z) : M bmem Z :=
  copy_up (Z.to_nat count) dst src ;;; ret dst.

Fixpoint memcmp_loop (n : nat) (d s : Z) : M bmem Z :=
  match n with
  | O => ret 0
  | S n =>
      let* x := ldb d in
      let* y := ldb s in
      let r := i8 x - i8 y in
      if nz r then ret r else memcmp_loop n (d + 1) (s + 1)
  end.

Definition memcmp (dst src count : Z) : M bmem Z := memcmp_loop (Z.to_nat count) dst src.

Definition memmove (dst src count : Z) : M bmem Z :=
  (if src =? dst then ret tt
   else if src >? dst then copy_up (Z.to_nat count) dst src
   else copy_down (Z.to_nat count) (dst + (count - 1)) (src + (count - 1))) ;;;
  ret dst.

(** ** Strings *)

Fixpoint strlen_loop (fuel : nat) (s i : Z) : M bmem Z :=
  match fuel with
  | O => fault
  | S fuel =>
      let* c := ldb s in
      if nz c then strlen_loop fuel (s + 1) (u32 (i + 1)) else ret i
  end.

Definition strlen (s : Z) : M bmem Z :=
  if negb (nz s) then ret 0 else
  let* fuel := gets byte_fuel in strlen_loop fuel s 0.

(** Copy a byte and go on until it was zero. *)
Fixpoint strcpy_loop (fuel : nat) (aux src : Z) : M bmem unit :=
  match fuel with
  | O => fault
  | S fuel =>
      let* c := ldb src in
      stb aux c ;;;
      if nz c then strcpy_loop fuel (aux + 1) (src + 1) else ret tt
  end.

Definition strcpy (dst src : Z) : M bmem Z :=
  let* fuel := gets byte_fuel in strcpy_loop fuel dst src ;;; ret dst.

(** The same, at most [n] bytes. *)
Fixpoint strncpy_loop (n : nat) (aux src : Z) : M bmem unit :=
  match n with
  | O => ret tt
  | S n =>
      let* c := ldb src in
      stb aux c ;;;
      if nz c then strncpy_loop n (aux + 1) (src + 1) else ret tt
  end.

Definition strncpy (dst src n : Z) : M bmem Z :=
  strncpy_loop (Z.to_nat n) dst src ;;; ret dst.

(** The loop of [strcat] writes the byte before it tests it, as [strcpy]. *)
Fixpoint strcat_loop (fuel : nat) (s t : Z) : M bmem unit :=
  match fuel with
  | O => fault
  | S fuel =>
      let* c := ldb t in
      stb s c ;;;
      if negb (nz c) then ret tt else strcat_loop fuel (s + 1) (t + 1)
  end.

Definition strcat (s t : Z) : M bmem Z :=
  let* n := strlen s in
  let* fuel := gets byte_fuel in
  strcat_loop fuel (s + n) t ;;; ret s.

Fixpoint strcmp_loop (fuel : nat) (s t : Z) : M bmem Z :=
  match fuel with
  | O => fault
  | S fuel =>
      let* x := ldb s in
      let* y := ldb t in
      if negb (i8 x =? i8 y) then ret (x - y)
      else if negb (nz x) then ret (x - y)
      else strcmp_loop fuel (s + 1) (t + 1)
  end.

Definition strcmp (s t : Z) : M bmem Z :=
  let* fuel := gets byte_fuel in strcmp_loop fuel s t.

Fixpoint strncmp_loop (n : nat) (a b : Z) : M bmem Z :=
  match n with
  | O => ret 0
  | S n =>
      let* x := ldb a in
      let* y := ldb b in
      let res := x - y in
      if nz res then ret res
      else if negb (nz x) then ret 0
      else strncmp_loop n (a + 1) (b + 1)
  end.

Definition strncmp (s1 s2 n : Z) : M bmem Z := strncmp_loop (Z.to_nat n) s1 s2.

Fixpoint strrchr_loop (fuel : nat) (t ch l : Z) : M bmem Z :=
  match fuel with
  | O => fault
  | S fuel =>
      let* c := ldb t in
      let l := if i8 c =? ch then t else l in
      if negb (nz c) then ret l else strrchr_loop fuel (t + 1) ch l
  end.

Definition strrchr (t c : Z) : M bmem Z :=
  let* fuel := gets byte_fuel in strrchr_loop fuel t (i8 c) NULL.

Fixpoint strchr_loop (fuel : nat) (t ch : Z) : M bmem Z :=
  match fuel with
  | O => fault
  | S fuel =>
      let* c := ldb t in
      if i8 c =? ch then ret t
      else if negb (nz c) then ret NULL
      else strchr_loop fuel (t + 1) ch
  end.

Definition strchr (t c : Z) : M bmem Z :=
  let* fuel := gets byte_fuel in strchr_loop fuel t (i8 c).

(** The loop of [strstr], [i] iterations. *)
Fixpoint strstr_loop (i : nat) (haystack needle nl : Z) : M bmem Z :=
  match i with
  | O => ret NULL
  | S i =>
      let* x := ldb haystack in
      let* y := ldb needle in
      let* found := (if i8 x =? i8 y then let* r := memcmp haystack needle nl in ret (negb (nz r)) else ret false) in
      if found then ret haystack else strstr_loop i (haystack + 1) needle nl
  end.

Definition strstr (haystack needle : Z) : M bmem Z :=
  let* nl := strlen needle in
  let* hl := strlen haystack in
  if negb (nz nl) then ret haystack else
  if nl >? hl then ret NULL else
  strstr_loop (Z.to_nat (hl - nl + 1)) haystack needle nl.

(** ** Copies *)

Lemma wp_memset_loop m ptr n s (Q : unit -> bmem -> Prop) :
  mapped m ptr (Z.of_nat n) ->
  (forall m', arr m' ptr (replicate n (u8 s)) -> only m m' ptr (Z.of_nat n) -> Q tt m') ->
  wp (memset_loop n ptr s) Q m.
Proof.
  revert m ptr Q. induction n as [|n IH]; intros m ptr Q Hm HQ; simpl.
  { apply wp_ret, HQ; auto with bytes. }
  apply wp_bind, wp_stb; [apply Hm; lia|]. apply IH.
  - intros x Hx. destruct (decide (ptr = x)) as [<-|]; [rewrite lookup_insert_eq; eauto|].
    rewrite lookup_insert_ne by done. apply Hm. lia.
  - intros m' Ha Ho. apply HQ.
    + rewrite replicate_S, arr_cons. split; [|done]. rewrite (proj2 Ho) by lia. apply lookup_insert_eq.
    + eapply only_trans; [|eapply only_weaken; [exact Ho|lia..]]. apply only_insert; [apply Hm|]; lia.
Qed.

Lemma wp_copy_up l m d s (Q : unit -> bmem -> Prop) :
  Forall byte l -> arr m s l -> mapped m d (Z.of_nat (length l)) ->
  d <= s \/ s + Z.of_nat (length l) <= d ->
  (forall m', arr m' d l -> only m m' d (Z.of_nat (length l)) -> Q tt m') ->
  wp (copy_up (length l) d s) Q m.
Proof.
  revert m d s Q. induction l as [|b l IH]; intros m d s Q Hl Ha Hm Hd HQ; cbn [length copy_up] in *.
  { apply wp_ret, HQ; auto with bytes. }
  apply Forall_cons in Hl as [Hb Hl]. apply arr_cons in Ha as [E Ha].
  apply wp_bind, (wp_ldb _ _ _ _ E), wp_bind, wp_stb; [apply Hm; lia|]. rewrite u8_id by done.
  assert (only m (<[d := b]> m) d (Z.of_nat (S (length l)))) as H1 by (apply only_insert; [apply Hm|]; lia).
  apply IH; [done| | |lia|].
  - apply arr_insert_out; [done|lia].
  - eapply only_mapped; [exact H1|]. intros x Hx. apply Hm. lia.
  - intros m' Ha' Ho. apply HQ.
    + apply arr_cons. split; [|done]. rewrite (proj2 Ho) by lia. apply lookup_insert_eq.
    + eapply only_trans; [exact H1|]. eapply only_weaken; [exact Ho|lia..].
Qed.

Lemma wp_copy_down l m d s (Q : unit -> bmem -> Prop) :
  Forall byte l -> arr m s l -> mapped m d (Z.of_nat (length l)) ->
  s <= d \/ d + Z.of_nat (length l) <= s ->
  (forall m', arr m' d l -> only m m' d (Z.of_nat (length l)) -> Q tt m') ->
  wp (copy_down (length l) (d + (Z.of_nat (length l) - 1)) (s + (Z.of_nat (length l) - 1))) Q m.
Proof.
  revert m d s Q. induction l as [|b l IH] using rev_ind; intros m d s Q Hl Ha Hm Hd HQ.
  { apply wp_ret, HQ; auto with bytes. }
  rewrite length_app in *. cbn [length] in *. rewrite Nat.add_comm in *. cbn [Nat.add copy_down] in *.
  apply Forall_app in Hl as [Hl Hb]. apply Forall_cons in Hb as [Hb _]. apply arr_app in Ha as [Ha Hlast%arr_cons].
  set (n := Z.of_nat (length l)) in *. replace (Z.of_nat (S (length l)) - 1) with n by lia.
  apply wp_bind, (wp_ldb _ _ _ _ (proj1 Hlast)), wp_bind, wp_stb; [apply Hm; lia|]. rewrite u8_id by done.
  assert (only m (<[d + n := b]> m) d (Z.of_nat (S (length l)))) as H1 by (apply only_insert; [apply Hm|]; lia).
  replace (d + n - 1) with (d + (n - 1)) by lia. replace (s + n - 1) with (s + (n - 1)) by lia.
  apply IH; [done| | |lia|].
  - apply arr_insert_out; [done|lia].
  - eapply only_mapped; [exact H1|]. intros x Hx. apply Hm. lia.
  - intros m' Ha' Ho. apply HQ.
    + apply arr_app. split; [done|]. apply arr_cons. split; [|apply arr_nil].
      rewrite (proj2 Ho) by lia. apply lookup_insert_eq.
    + eapply only_trans; [exact H1|]. eapply only_weaken; [exact Ho|lia..].
Qed.

Lemma wp_memmove l m d s (Q : Z -> bmem -> Prop) :
  Forall byte l -> arr m s l -> mapped m d (Z.of_nat (length l)) ->
  (forall m', arr m' d l -> only m m' d (Z.of_nat (length l)) -> Q d m') ->
  wp (memmove d s (Z.of_nat (length l))) Q m.
Proof.
  intros Hl Ha Hm HQ. unfold memmove. apply wp_bind. rewrite Nat2Z.id. destruct (Z.eqb_spec s d) as [->|Hne].
  { apply wp_ret, wp_ret, HQ; [done|]. apply only_refl. }
  rewrite Z.gtb_ltb. destruct (Z.ltb_spec d s).
  - apply wp_copy_up; [done..|lia|]. intros m' H1 H2. by apply wp_ret, HQ.
  - apply wp_copy_down; [done..|lia|]. intros m' H1 H2. by apply wp_ret, HQ.
Qed.

Lemma wp_memcpy l m d s n (Q : Z -> bmem -> Prop) :
  Forall byte l -> arr m s l -> n = Z.of_nat (length l) -> mapped m d n -> apart d n s n ->
  (forall m', arr m' d l -> only m m' d n -> Q d m') ->
  wp (memcpy d s n) Q m.
Proof.
  intros Hl Ha -> Hm Hd HQ. unfold memcpy. rewrite Nat2Z.id. unfold apart in Hd.
  apply wp_bind, wp_copy_up; [done..|lia|]. intros m' H1 H2. by apply wp_ret, HQ.
Qed.

(** ** Length and copy of a string *)

Lemma wp_strlen_loop l fuel m s i (Q : Z -> bmem -> Prop) :
  cstr m s l -> (length l < fuel)%nat -> 0 <= i -> i + Z.of_nat (length l) < 2 ^ 32 ->
  Q (i + Z.of_nat (length l)) m -> wp (strlen_loop fuel s i) Q m.
Proof.
  revert fuel s i. induction l as [|b l IH]; intros fuel s i Hs Hf Hi Hn HQ; (destruct fuel as [|fuel]; [simpl in Hf; lia|]);
    cbn [strlen_loop length] in *.
  - apply cstr_nil in Hs. apply wp_bind, (wp_ldb _ _ _ _ Hs), wp_ret. by replace (i + Z.of_nat 0) with i in HQ by lia.
  - apply cstr_cons in Hs as (E & Hb & Hs). apply wp_bind, (wp_ldb _ _ _ _ E).
    replace (nz b) with true by (unfold nz; destruct (Z.eqb_spec b 0); [lia|done]).
    unfold u32, wrapu. rewrite Z.mod_small by lia. apply IH; [done|lia..|].
    by replace (i + 1 + Z.of_nat (length l)) with (i + Z.of_nat (S (length l))) by lia.
Qed.

Lemma wp_strlen l m s (Q : Z -> bmem -> Prop) :
  s <> NULL -> cstr m s l -> Z.of_nat (length l) < 2 ^ 32 -> Q (Z.of_nat (length l)) m -> wp (strlen s) Q m.
Proof.
  intros Hn Hs Hl HQ. unfold strlen, nz. destruct (Z.eqb_spec s 0) as [|_]; [done|]. simpl.
  apply wp_bind, wp_gets. apply (wp_strlen_loop l); [done| |lia..|done]. apply cstr_fuel in Hs. lia.
Qed.

(** A string and its end, copied by the loops of [strcpy] and [strcat]. *)
Lemma wp_strcpy_loop l fuel m d s (Q : unit -> bmem -> Prop) :
  cstr m s l -> (length l < fuel)%nat -> mapped m d (Z.of_nat (length l) + 1) ->
  apart d (Z.of_nat (length l) + 1) s (Z.of_nat (length l) + 1) ->
  (forall m', cstr m' d l -> only m m' d (Z.of_nat (length l) + 1) -> Q tt m') ->
  wp (strcpy_loop fuel d s) Q m.
Proof.
  unfold apart. revert fuel m d s Q. induction l as [|b l IH]; intros fuel m d s Q Hs Hf Hm Hd HQ;
    (destruct fuel as [|fuel]; [simpl in Hf; lia|]); cbn [strcpy_loop length] in *.
  - apply cstr_nil in Hs. apply wp_bind, (wp_ldb _ _ _ _ Hs), wp_bind, wp_stb; [apply Hm; lia|].
    apply wp_ret, HQ; [apply cstr_nil, lookup_insert_eq|]. apply only_insert; [apply Hm|]; lia.
  - apply cstr_cons in Hs as (E & Hb & Hs). apply wp_bind, (wp_ldb _ _ _ _ E), wp_bind, wp_stb; [apply Hm; lia|].
    rewrite u8_id by (unfold byte; lia).
    replace (nz b) with true by (unfold nz; destruct (Z.eqb_spec b 0); [lia|done]).
    assert (only m (<[d := b]> m) d (Z.of_nat (S (length l)) + 1)) as H1 by (apply only_insert; [apply Hm|]; lia).
    apply IH; [|lia| |lia|].
    + eapply (cstr_only m _ d 1); [apply only_insert; [apply Hm|]; lia| |done]. unfold apart. lia.
    + eapply only_mapped; [exact H1|]. intros x Hx. apply Hm. lia.
    + intros m' Hc Ho. apply HQ.
      * apply cstr_cons. split_and!; [|lia..|done]. rewrite (proj2 Ho) by lia. apply lookup_insert_eq.
      * eapply only_trans; [exact H1|]. eapply only_weaken; [exact Ho|lia..].
Qed.

Lemma strcat_loop_eq fuel s t m : strcat_loop fuel s t m = strcpy_loop fuel s t m.
Proof.
  revert s t m. induction fuel as [|fuel IH]; intros s t m; [done|]. cbn [strcat_loop strcpy_loop]. unfold bind.
  destruct (ldb t m) as [[c m1]|]; [|done]. destruct (stb s c m1) as [[u m2]|]; [|done]. destruct (nz c); simpl; [apply IH|done].
Qed.

Lemma wp_strcpy l m d s (Q : Z -> bmem -> Prop) :
  cstr m s l -> mapped m d (Z.of_nat (length l) + 1) ->
  apart d (Z.of_nat (length l) + 1) s (Z.of_nat (length l) + 1) ->
  (forall m', cstr m' d l -> only m m' d (Z.of_nat (length l) + 1) -> Q d m') ->
  wp (strcpy d s) Q m.
Proof.
  intros Hs Hm Hd HQ. unfold strcpy. apply wp_bind, wp_gets, wp_bind.
  apply (wp_strcpy_loop l); [done| |done..|]; [apply cstr_fuel in Hs; lia|]. intros m' H1 H2. by apply wp_ret, HQ.
Qed.

Lemma cstr_end m a l : cstr m a l -> m !! (a + Z.of_nat (length l)) = Some 0.
Proof. intros [H _]. by apply arr_app in H as [_ [H _]%arr_cons]. Qed.

Lemma cstr_app m a l1 l2 : arr m a l1 -> Forall (fun b => 0 < b < 256) l1 ->
  cstr m (a + Z.of_nat (length l1)) l2 -> cstr m a (l1 ++ l2).
Proof.
  intros H1 H2 [H3 H4]. split; [|by apply Forall_app]. rewrite <- app_assoc. by apply arr_app.
Qed.

Lemma wp_strcat l1 l2 m s t (Q : Z -> bmem -> Prop) :
  s <> NULL -> cstr m s l1 -> cstr m t l2 -> Z.of_nat (length l1) < 2 ^ 32 ->
  let n := Z.of_nat (length l1 + length l2) + 1 in
  mapped m s n -> apart s n t (Z.of_nat (length l2) + 1) ->
  (forall m', cstr m' s (l1 ++ l2) -> only m m' s n -> Q s m') ->
  wp (strcat s t) Q m.
Proof.
  intros Hn Hs Ht Hl n Hm Hd HQ. unfold strcat, apart in *. apply wp_bind, (wp_strlen l1); [done..|].
  apply wp_bind, wp_gets, wp_bind. unfold wp. rewrite strcat_loop_eq. fold (wp (strcpy_loop (byte_fuel m) (s + Z.of_nat (length l1)) t)
    (fun _ m' => wp (ret s) Q m') m).
  apply (wp_strcpy_loop l2); [done|apply cstr_fuel in Ht; lia| |unfold apart; lia|].
  { intros x Hx. apply Hm. lia. }
  intros m' Hc Ho. apply wp_ret, HQ; [|eapply only_weaken; [exact Ho|lia..]].
  apply cstr_app; [|apply Hs|done]. destruct Hs as [Hs _]. apply arr_app in Hs as [Hs _].
  eapply arr_only; [exact Ho| |done]. unfold apart. lia.
Qed.

(** ** Comparisons *)

(** The difference of two strings at the first byte where they differ, the
    end of a string being a zero byte. *)
Fixpoint strdiff (l1 l2 : list Z) : Z :=
  match l1, l2 with
  | a :: l1, b :: l2 => if a =? b then strdiff l1 l2 else a - b
  | _, _ => hd 0 l1 - hd 0 l2
  end.

(** Lexicographic order. *)
Fixpoint lex_ltb (l1 l2 : list Z) : bool :=
  match l1, l2 with
  | a :: l1, b :: l2 => (a <? b) || ((a =? b) && lex_ltb l1 l2)
  | [], _ :: _ => true
  | _, [] => false
  end.

Lemma strdiff_zero l1 l2 :
  Forall (fun b => 0 < b < 256) l1 -> Forall (fun b => 0 < b < 256) l2 -> strdiff l1 l2 = 0 <-> l1 = l2.
Proof.
  revert l2. induction l1 as [|a l1 IH]; intros [|b l2] H1 H2; simpl.
  - done.
  - apply Forall_cons in H2 as [Hb _]. split; [lia|done].
  - apply Forall_cons in H1 as [Ha _]. split; [lia|done].
  - apply Forall_cons in H1 as [Ha H1]. apply Forall_cons in H2 as [Hb H2].
    destruct (Z.eqb_spec a b) as [->|Hne]; [rewrite IH by done; naive_solver|]. split; [lia|]. intros E. injection E. lia.
Qed.

Lemma strdiff_neg l1 l2 :
  Forall (fun b => 0 < b < 256) l1 -> Forall (fun b => 0 < b < 256) l2 -> (strdiff l1 l2 <? 0) = lex_ltb l1 l2.
Proof.
  revert l2. induction l1 as [|a l1 IH]; intros [|b l2] H1 H2; simpl.
  - done.
  - apply Forall_cons in H2 as [Hb _]. lia.
  - apply Forall_cons in H1 as [Ha _]. lia.
  - apply Forall_cons in H1 as [Ha H1]. apply Forall_cons in H2 as [Hb H2].
    destruct (Z.eqb_spec a b) as [->|Hne]; [rewrite IH by done; by rewrite Z.ltb_irrefl|]. rewrite orb_false_r. lia.
Qed.

Lemma nz_pos b : 0 < b < 256 -> nz b = true.
Proof. intros H. unfold nz. destruct (Z.eqb_spec b 0); [lia|done]. Qed.

Lemma i8_eqb x y : byte x -> byte y -> (i8 x =? i8 y) = (x =? y).
Proof.
  intros Hx Hy. destruct (Z.eqb_spec x y) as [->|Hne]; [apply Z.eqb_refl|]. apply Z.eqb_neq. intros E. by apply Hne, i8_inj.
Qed.

Lemma wp_strcmp_loop l1 l2 fuel m s t (Q : Z -> bmem -> Prop) :
  cstr m s l1 -> cstr m t l2 -> (length l1 < fuel)%nat -> Q (strdiff l1 l2) m -> wp (strcmp_loop fuel s t) Q m.
Proof.
  revert l2 fuel s t. induction l1 as [|a l1 IH]; intros l2 fuel s t Hs Ht Hf HQ;
    (destruct fuel as [|fuel]; [simpl in Hf; lia|]); cbn [strcmp_loop length] in *.
  - apply cstr_nil in Hs. apply wp_bind, (wp_ldb _ _ _ _ Hs). destruct l2 as [|b l2].
    + apply cstr_nil in Ht. by apply wp_bind, (wp_ldb _ _ _ _ Ht).
    + apply cstr_cons in Ht as (E & Hb & _). apply wp_bind, (wp_ldb _ _ _ _ E).
      rewrite i8_eqb by (unfold byte; lia). by destruct (negb (0 =? b)).
  - apply cstr_cons in Hs as (Es & Ha & Hs). apply wp_bind, (wp_ldb _ _ _ _ Es). destruct l2 as [|b l2].
    + apply cstr_nil in Ht. apply wp_bind, (wp_ldb _ _ _ _ Ht). rewrite i8_eqb by (unfold byte; lia).
      destruct (Z.eqb_spec a 0); [lia|done].
    + apply cstr_cons in Ht as (E & Hb & Ht). apply wp_bind, (wp_ldb _ _ _ _ E). simpl in HQ.
      rewrite i8_eqb by (unfold byte; lia). destruct (Z.eqb_spec a b) as [->|Hne]; simpl; [|done].
      rewrite nz_pos by done. apply (IH l2); [done..|lia|done].
Qed.

Lemma wp_strcmp l1 l2 m s t (Q : Z -> bmem -> Prop) :
  cstr m s l1 -> cstr m t l2 -> Q (strdiff l1 l2) m -> wp (strcmp s t) Q m.
Proof.
  intros Hs Ht HQ. unfold strcmp. apply wp_bind, wp_gets. apply (wp_strcmp_loop l1 l2); [done..| |done].
  apply cstr_fuel in Hs. lia.
Qed.

(** [strncmp] of two strings compares their first [n] bytes. *)
Lemma wp_strncmp_loop n l1 l2 m s t (Q : Z -> bmem -> Prop) :
  cstr m s l1 -> cstr m t l2 -> Q (strdiff (take n l1) (take n l2)) m -> wp (strncmp_loop n s t) Q m.
Proof.
  revert l1 l2 s t. induction n as [|n IH]; intros l1 l2 s t Hs Ht HQ; [done|]. cbn [strncmp_loop].
  destruct l1 as [|a l1]; [apply cstr_nil in Hs; apply wp_bind, (wp_ldb _ _ _ _ Hs)
                          |apply cstr_cons in Hs as (Es & Ha & Hs); apply wp_bind, (wp_ldb _ _ _ _ Es)];
  (destruct l2 as [|b l2]; [apply cstr_nil in Ht; apply wp_bind, (wp_ldb _ _ _ _ Ht)
                           |apply cstr_cons in Ht as (Et & Hb & Ht); apply wp_bind, (wp_ldb _ _ _ _ Et)]);
  cbn [take strdiff hd] in HQ; unfold nz at 1.
  - done.
  - by destruct (Z.eqb_spec (0 - b) 0); [lia|].
  - by destruct (Z.eqb_spec (a - 0) 0); [lia|].
  - destruct (Z.eqb_spec a b) as [->|Hne].
    + rewrite Z.sub_diag. simpl. rewrite nz_pos by done. by apply (IH l1 l2).
    + by destruct (Z.eqb_spec (a - b) 0); [lia|].
Qed.

(** The difference of two blocks, byte by byte as signed characters. *)
Fixpoint memdiff (l1 l2 : list Z) : Z :=
  match l1, l2 with
  | a :: l1, b :: l2 => if nz (i8 a - i8 b) then i8 a - i8 b else memdiff l1 l2
  | _, _ => 0
  end.

Lemma memdiff_zero l1 l2 : Forall byte l1 -> Forall byte l2 -> length l1 = length l2 ->
  memdiff l1 l2 = 0 <-> l1 = l2.
Proof.
  revert l2. induction l1 as [|a l1 IH]; intros [|b l2] H1 H2 Hl; simplify_eq/=; [done|].
  apply Forall_cons in H1 as [Ha H1]. apply Forall_cons in H2 as [Hb H2].
  unfold nz. destruct (Z.eqb_spec (i8 a - i8 b) 0) as [E|Hne]; simpl.
  - assert (a = b) as -> by (apply i8_inj; [done..|lia]). rewrite IH by done. naive_solver.
  - split; [done|]. intros [= -> ->]. lia.
Qed.

Lemma wp_memcmp l1 l2 m d s n (Q : Z -> bmem -> Prop) :
  arr m d l1 -> arr m s l2 -> length l1 = n -> length l2 = n -> Q (memdiff l1 l2) m ->
  wp (memcmp d s (Z.of_nat n)) Q m.
Proof.
  unfold memcmp. rewrite Nat2Z.id. revert l2 n d s. induction l1 as [|a l1 IH]; intros [|b l2] n d s H1 H2 E1 E2 HQ; simplify_eq/=; [done|].
  apply arr_cons in H1 as [Ea H1]. apply arr_cons in H2 as [Eb H2].
  apply wp_bind, (wp_ldb _ _ _ _ Ea), wp_bind, (wp_ldb _ _ _ _ Eb).
  destruct (nz (i8 a - i8 b)); [done|]. by apply (IH l2).
Qed.

(** ** Searches *)

Lemma i8_u8 c : i8 (u8 c) = i8 c.
Proof.
  unfold i8, u8, wraps, wrapu. f_equal. change (2 ^ (8 - 1)) with 128. change (2 ^ 8) with 256.
  by rewrite Zplus_mod_idemp_l.
Qed.

Lemma i8_char b c : byte b -> (i8 b =? i8 c) = (b =? u8 c).
Proof. intros Hb. rewrite <- (i8_u8 c). apply i8_eqb; [done|apply u8_byte]. Qed.

(** The position of the first byte [c] in a list. *)
Fixpoint first_pos (c : Z) (l : list Z) : option nat :=
  match l with
  | [] => None
  | b :: l => if b =? c then Some O else S <$> first_pos c l
  end.

(** The position of the last one. *)
Fixpoint last_pos (c : Z) (l : list Z) : option nat :=
  match l with
  | [] => None
  | b :: l => match last_pos c l with
              | Some i => Some (S i)
              | None => if b =? c then Some O else None
              end
  end.

(** The address of a position in a string, NULL when there is none. *)
Definition at_pos (s : Z) (o : option nat) : Z :=
  match o with Some i => s + Z.of_nat i | None => NULL end.

Lemma at_pos_S s o : at_pos s (S <$> o) = match o with Some i => s + 1 + Z.of_nat i | None => NULL end.
Proof. destruct o; simpl; [lia|done]. Qed.

Lemma wp_strchr_loop l fuel m s c (Q : Z -> bmem -> Prop) :
  cstr m s l -> (length l < fuel)%nat -> Q (at_pos s (first_pos (u8 c) (l ++ [0]))) m ->
  wp (strchr_loop fuel s (i8 c)) Q m.
Proof.
  revert fuel s Q. induction l as [|b l IH]; intros fuel s Q Hs Hf HQ; (destruct fuel as [|fuel]; [simpl in Hf; lia|]);
    cbn [strchr_loop length app first_pos] in *.
  - apply cstr_nil in Hs. apply wp_bind, (wp_ldb _ _ _ _ Hs). rewrite i8_char by done.
    destruct (0 =? u8 c); simpl in *; [|done]. by rewrite Z.add_0_r in HQ.
  - apply cstr_cons in Hs as (E & Hb & Hs). apply wp_bind, (wp_ldb _ _ _ _ E). rewrite i8_char by (unfold byte; lia).
    destruct (b =? u8 c); simpl in *; [by rewrite Z.add_0_r in HQ|]. rewrite nz_pos by done.
    apply IH; [done|lia|]. by rewrite at_pos_S in HQ.
Qed.

Lemma wp_strchr l m s c (Q : Z -> bmem -> Prop) :
  cstr m s l -> Q (at_pos s (first_pos (u8 c) (l ++ [0]))) m -> wp (strchr s c) Q m.
Proof.
  intros Hs HQ. unfold strchr. apply wp_bind, wp_gets. apply (wp_strchr_loop l); [done| |done]. apply cstr_fuel in Hs. lia.
Qed.

Lemma wp_strrchr_loop l fuel m s c r (Q : Z -> bmem -> Prop) :
  cstr m s l -> (length l < fuel)%nat ->
  Q (match last_pos (u8 c) (l ++ [0]) with Some i => s + Z.of_nat i | None => r end) m ->
  wp (strrchr_loop fuel s (i8 c) r) Q m.
Proof.
  revert fuel s r Q. induction l as [|b l IH]; intros fuel s r Q Hs Hf HQ; (destruct fuel as [|fuel]; [simpl in Hf; lia|]);
    cbn [strrchr_loop length app last_pos] in *.
  - apply cstr_nil in Hs. apply wp_bind, (wp_ldb _ _ _ _ Hs). rewrite i8_char by done.
    destruct (0 =? u8 c); apply wp_ret; simpl in *; [|done]. by rewrite Z.add_0_r in HQ.
  - apply cstr_cons in Hs as (E & Hb & Hs). apply wp_bind, (wp_ldb _ _ _ _ E). rewrite i8_char by (unfold byte; lia).
    rewrite nz_pos by done. simpl. apply IH; [done|lia|]. destruct (last_pos (u8 c) (l ++ [0])) as [i|].
    + by replace (s + 1 + Z.of_nat i) with (s + Z.of_nat (S i)) by lia.
    + destruct (b =? u8 c); [by rewrite Z.add_0_r in HQ|done].
Qed.

Lemma wp_strrchr l m s c (Q : Z -> bmem -> Prop) :
  cstr m s l -> Q (at_pos s (last_pos (u8 c) (l ++ [0]))) m -> wp (strrchr s c) Q m.
Proof.
  intros Hs HQ. unfold strrchr. apply wp_bind, wp_gets. apply (wp_strrchr_loop l); [done| |done]. apply cstr_fuel in Hs. lia.
Qed.

(** The first position where [nd] occurs in a list. *)
Fixpoint find_sub (nd h : list Z) : option nat :=
  if decide (nd `prefix_of` h) then Some O else
  match h with
  | [] => None
  | _ :: h => S <$> find_sub nd h
  end.

Lemma find_sub_short nd h : (length h < length nd)%nat -> find_sub nd h = None.
Proof.
  induction h as [|b h IH]; intros Hl; cbn [find_sub]; (rewrite decide_False; [|by intros Hp%prefix_length; lia]); [done|].
  cbn [length] in Hl. by rewrite IH by lia.
Qed.

Lemma prefix_take (nd h : list Z) : nd `prefix_of` h <-> take (length nd) h = nd.
Proof.
  split; [intros [k ->]; apply take_app_length|]. intros E. exists (drop (length nd) h). by rewrite <- E at 1; rewrite take_drop.
Qed.

Lemma Forall_byte l : Forall (fun b => 0 < b < 256) l -> Forall byte l.
Proof. intros H. eapply Forall_impl; [exact H|]. unfold byte. simpl. lia. Qed.

(** One comparison of [strstr]: the first byte, then the block. *)
Lemma wp_strstr_match nd h m s t (Q : bool -> bmem -> Prop) :
  cstr m s h -> cstr m t nd -> nd <> [] -> (length nd <= length h)%nat ->
  Q (bool_decide (nd `prefix_of` h)) m ->
  wp (let* x := ldb s in let* y := ldb t in
      (if i8 x =? i8 y then let* r := memcmp s t (Z.of_nat (length nd)) in ret (negb (nz r)) else ret false)) Q m.
Proof.
  intros Hs Ht Hn Hl HQ. destruct nd as [|b nd]; [done|]. destruct h as [|a h]; [simpl in Hl; lia|].
  pose proof Hs as (Es & Ha & _)%cstr_cons. pose proof Ht as (Et & Hb & _)%cstr_cons.
  apply wp_bind, (wp_ldb _ _ _ _ Es), wp_bind, (wp_ldb _ _ _ _ Et). rewrite i8_eqb by (unfold byte; lia).
  destruct (Z.eqb_spec a b) as [->|Hne].
  - assert (Forall byte (b :: nd)) as Hbn by apply Forall_byte, Ht.
    assert (Forall byte (take (length (b :: nd)) (b :: h))) as Hbh by apply Forall_take, Forall_byte, Hs.
    apply wp_bind. apply (wp_memcmp (take (length (b :: nd)) (b :: h)) (b :: nd)); [| |rewrite length_take; lia|done|].
    + destruct Hs as [Hs _]. apply arr_app in Hs as [Hs _]. rewrite <- (take_drop (length (b :: nd)) (b :: h)) in Hs.
      by apply arr_app in Hs as [Hs _].
    + destruct Ht as [Ht _]. by apply arr_app in Ht as [Ht _].
    + apply wp_ret. match goal with |- Q ?x m => replace x with (bool_decide ((b :: nd) `prefix_of` (b :: h))); [done|] end.
      pose proof (memdiff_zero _ _ Hbh Hbn ltac:(rewrite length_take; simpl in *; lia)) as Hz.
      unfold nz. rewrite negb_involutive. apply eq_bool_prop_intro. rewrite bool_decide_spec, prefix_take, <- Hz, Is_true_true, Z.eqb_eq. done.
  - apply wp_ret. rewrite bool_decide_false in HQ; [done|]. intros [k E]. by injection E.
Qed.

Lemma wp_strstr_loop nd h i m s t (Q : Z -> bmem -> Prop) :
  cstr m s h -> cstr m t nd -> nd <> [] -> (length h + 1 = i + length nd)%nat ->
  Q (at_pos s (find_sub nd h)) m -> wp (strstr_loop i s t (Z.of_nat (length nd))) Q m.
Proof.
  intros Hs Ht Hn. revert i s Hs Q. induction h as [|a h IH]; intros i s Hs Q Hi HQ.
  - destruct nd as [|b nd]; [done|]. destruct i as [|i]; [|simpl in Hi; lia]. done.
  - destruct i as [|i]; cbn [strstr_loop].
    { apply wp_ret. rewrite find_sub_short in HQ; [done|]. simpl in *. lia. }
    pose proof (wp_strstr_match nd (a :: h) m s t
      (fun found m => wp (if found then ret s else strstr_loop i (s + 1) t (Z.of_nat (length nd))) Q m)
      Hs Ht Hn ltac:(lia)) as Hm.
    apply wp_assoc, Hm. clear Hm. simpl in HQ. case_decide as Hd.
    + rewrite bool_decide_true by done. apply wp_ret. simpl in HQ. by rewrite Z.add_0_r in HQ.
    + rewrite bool_decide_false by done. apply cstr_cons in Hs as (_ & _ & Hs). apply IH; [done|simpl in Hi; lia|].
      by rewrite at_pos_S in HQ.
Qed.

Lemma wp_strstr nd h m s t (Q : Z -> bmem -> Prop) :
  s <> NULL -> t <> NULL -> cstr m s h -> cstr m t nd ->
  Z.of_nat (length h) < 2 ^ 32 -> Z.of_nat (length nd) < 2 ^ 32 ->
  Q (at_pos s (find_sub nd h)) m -> wp (strstr s t) Q m.
Proof.
  intros Hn1 Hn2 Hs Ht L1 L2 HQ. unfold strstr. apply wp_bind, (wp_strlen nd); [done..|].
  apply wp_bind, (wp_strlen h); [done..|]. unfold nz. destruct (Z.eqb_spec (Z.of_nat (length nd)) 0) as [E|E].
  - destruct nd as [|b nd]; [|simpl in E; lia]. apply wp_ret. destruct h; simpl in HQ; by rewrite Z.add_0_r in HQ.
  - simpl. rewrite Z.gtb_ltb. destruct (Z.ltb_spec (Z.of_nat (length h)) (Z.of_nat (length nd))).
    + apply wp_ret. by rewrite find_sub_short in HQ by lia.
    + apply (wp_strstr_loop nd h); [done..| |lia|done]. intros ->. done.
Qed.
