(* ===== verification/Cstdlib.v ===== *)
(** * Numbers and characters: ctype.h, libc/stdlib.c and the conversions of
    libc/stdarg.c

    Reading and writing of integers as strings. [int] and [long] have 32
    bits; the signed arithmetic of [atoi] is taken modulo 2^32. *)

From Stdlib Require Import ZArith Lia.
From stdpp Require Import base tactics gmap option list.
From S2P Require Import Prelude Mem Bytes Cstring.

Open Scope Z_scope.
Open Scope kernel_scope.

(** ** ctype.h *)

Definition isdigit (ch : Z) : bool := u32 (ch - 48) <? 10.

Definition isspace (ch : Z) : bool := (u32 (ch - 9) <? 5) || (ch =? 32).

Definition isxdigit (ch : Z) : bool := (u32 (ch - 48) <? 10) || (u32 (Z.lor ch 32 - 97) <? 6).

Definition isalnum (ch : Z) : bool := (u32 (Z.lor ch 32 - 97) <? 26) || (u32 (ch - 48) <? 10).

(** ** stdlib.c *)

Definition ULONG_MAX : Z := 2 ^ 32 - 1.
Definition LONG_MAX : Z := 2 ^ 31 - 1.
Definition LONG_MIN : Z := - 2 ^ 31.
Definition ABS_LONG_MIN : Z := 2147483648.

(** [*p] as a [char]. *)
Definition ldc (a : Z) : M bmem Z := let* b := ldb a in ret (i8 b).

(** [while (isspace( *p )) ++p]; [atoi] writes the same test out. *)
Fixpoint skip_space (fuel : nat) (p : Z) : M bmem Z :=
  match fuel with
  | O => fault
  | S fuel => let* c := ldc p in if isspace c then skip_space fuel (p + 1) else ret p
  end.

(** The loop of [atoi] over the digits. *)
Fixpoint atoi_loop (fuel : nat) (s v : Z) : M bmem Z :=
  match fuel with
  | O => fault
  | S fuel =>
      let* c := ldc s in
      if u32 (c - 48) <? 10 then atoi_loop fuel (s + 1) (i32 (v * 10 + c - 48)) else ret v
  end.

Definition atoi (s : Z) : M bmem Z :=
  let* fuel := gets byte_fuel in
  let* s := skip_space fuel s in
  let* c := ldc s in
  let sign := if c =? 45 then -1 else 1 in
  let s := if (c =? 45) || (c =? 43) then s + 1 else s in
  let* v := atoi_loop fuel s 0 in
  ret (if sign =? -1 then i32 (- v) else v).

(** The value of a character as a digit; 0xff, or any value that is not below
    the base, ends the number. *)
Definition digit_of (c : Z) : Z :=
  u8 (if c >=? 97 then c - 97 + 10 else if c >=? 65 then c - 65 + 10 else if c <=? 57 then c - 48 else 0xff).

(** The loop of [strtoul] over the digits: the end of the number, its value
    modulo 2^32 and whether it overflowed. *)
Fixpoint strtoul_loop (fuel : nat) (nptr v base : Z) (overflow : bool) : M bmem (Z * Z * bool) :=
  match fuel with
  | O => fault
  | S fuel =>
      let* c := ldb nptr in
      if negb (nz c) then ret (nptr, v, overflow) else
      let c := digit_of c in
      if c >=? base then ret (nptr, v, overflow) else
      let x := u32 (Z.land v 0xff * base + c) in
      let w := u32 (Z.shiftr v 8 * base + Z.shiftr x 8) in
      let overflow := overflow || (w >? Z.shiftr ULONG_MAX 8) in
      strtoul_loop fuel (nptr + 1) (u32 (Z.shiftl w 8 + Z.land x 0xff)) base overflow
  end.

(** [skip0x]: a prefix 0x before a hexadecimal digit. *)
Definition skip0x (nptr base : Z) : M bmem (Z * Z) :=
  let* c1 := ldc (nptr + 1) in
  if (c1 =? 120) || (c1 =? 88) then
    let* c2 := ldc (nptr + 2) in
    if isxdigit c2 then ret (nptr + 2, 16) else ret (nptr, base)
  else ret (nptr, base).

(** The base of the number and where its digits start; [None] is a base that
    is not valid. *)
Definition strtoul_base (nptr base : Z) : M bmem (option (Z * Z)) :=
  let* c0 := (if (base =? 16) || (base =? 0) then ldc nptr else ret 0) in
  if (base =? 16) && (c0 =? 48) then let* r := skip0x nptr base in ret (Some r)
  else if nz base then
    (if u32 (base - 2) >? 34 then ret None else ret (Some (nptr, base)))
  else if c0 =? 48 then let* r := skip0x nptr 8 in ret (Some r)
  else ret (Some (nptr, 10)).

(** [strtoul] without the store through [endptr]: the value, and what is stored
    there. *)
Definition strtoul_core (ptr base : Z) : M bmem (Z * option Z) :=
  let* fuel := gets byte_fuel in
  let* nptr := skip_space fuel ptr in
  let* c := ldc nptr in
  let neg := c =? 45 in
  let nptr := if (c =? 45) || (c =? 43) then nptr + 1 else nptr in
  let orig := nptr in
  let* o := strtoul_base nptr base in
  match o with
  | None => ret (0, None)
  | Some (nptr, base) =>
      let* '(nptr, v, overflow) := strtoul_loop fuel nptr 0 base false in
      let '(nptr, v) := if nptr =? orig then (ptr, 0) else (nptr, v) in
      ret (if overflow then ULONG_MAX else if neg then u32 (- v) else v, Some nptr)
  end.

Definition strtoul (ptr endptr base : Z) : M bmem Z :=
  let* '(v, e) := strtoul_core ptr base in
  match e with
  | Some nptr => when (nz endptr) (stw endptr nptr) ;;; ret v
  | None => ret v
  end.

(** The sign that [strtol] reads itself. *)
Definition strtol_sign (nptr : Z) : M bmem (bool * Z) :=
  let* fuel := gets byte_fuel in
  let* nptr := skip_space fuel nptr in
  let* c := ldc nptr in
  if c =? 45 then
    let* c1 := ldc (nptr + 1) in
    if isalnum c1 then ret (true, nptr + 1) else ret (false, nptr)
  else ret (false, nptr).

Definition strtol_value (v : Z) (neg : bool) : Z :=
  if v >=? ABS_LONG_MIN then
    if (v =? ABS_LONG_MIN) && neg then i32 v else if neg then LONG_MIN else LONG_MAX
  else if neg then i32 (- v) else i32 v.

Definition strtol (nptr endptr base : Z) : M bmem Z :=
  let orig := nptr in
  let* '(neg, nptr) := strtol_sign nptr in
  let* v := strtoul nptr endptr base in
  (if nz endptr then let* e := ldw endptr in when (e =? nptr) (stw endptr orig) else ret tt) ;;;
  ret (strtol_value v neg).

(** ** stdarg.c: integers to strings *)

(** The loop of [__ltostr] and [__lltostr]; [n] is [tmp - s], the room left. *)
Fixpoint ltostr_loop (n : nat) (tmp i base j : Z) (up : bool) : M bmem (Z * Z) :=
  match n with
  | O => ret (tmp, j)
  | S n =>
      if negb (nz i) then ret (tmp, j) else
      let tmp := tmp - 1 in
      let c := i mod base + 48 in
      stb tmp c ;;;
      when (i8 c >? 57) (let* d := ldb tmp in stb tmp (d + ((if up then 65 else 97) - 57 - 1))) ;;;
      ltostr_loop n tmp (i / base) base (j + 1) up
  end.

(** [__ltostr] and [__lltostr] are the same code on integers of 32 and of 64
    bits, which neither of them makes larger. *)
Definition tostr (s size i base : Z) (up : bool) : M bmem Z :=
  let size := size - 1 in
  stb (s + size) 0 ;;;
  let tmp := s + size in
  let base := if (base =? 0) || (base >? 36) then 10 else base in
  let* '(tmp, j) := (if negb (nz i) then stb (tmp - 1) 48 ;;; ret (tmp - 1, 1) else ret (tmp, 0)) in
  let* '(tmp, j) := ltostr_loop (Z.to_nat (tmp - s)) tmp i base j up in
  let* _ := memmove s tmp (j + 1) in
  ret j.

Definition __ltostr (s size i base : Z) (up : bool) : M bmem Z := tostr s size i base up.

Definition __lltostr (s size i base : Z) (up : bool) : M bmem Z := tostr s size i base up.

(** ** Characters *)

(** A property of all bytes, by evaluation. *)
Lemma byte_check (P : Z -> bool) : forallb P (seqZ 0 256) = true -> forall c, byte c -> P c = true.
Proof. intros H c Hc. rewrite forallb_forall in H. apply H, list_elem_of_In, elem_of_seqZ. unfold byte in Hc. lia. Qed.

(** The character of a digit. *)
Definition chr (up : bool) (d : Z) : Z := if d <=? 9 then 48 + d else (if up then 65 else 97) + (d - 10).

Lemma chr_range up d : 0 <= d < 36 -> 48 <= chr up d < 123.
Proof. unfold chr. intros H. destruct (Z.leb_spec d 9), up; lia. Qed.

Lemma digit_chr up d : 0 <= d < 36 -> digit_of (chr up d) = d.
Proof.
  intros H. unfold chr, digit_of. destruct (Z.leb_spec d 9).
  - rewrite !Z.geb_leb. destruct (Z.leb_spec 97 (48 + d)); [lia|]. destruct (Z.leb_spec 65 (48 + d)); [lia|].
    destruct (Z.leb_spec (48 + d) 57); [|lia]. rewrite u8_id; unfold byte; lia.
  - destruct up; rewrite !Z.geb_leb.
    + destruct (Z.leb_spec 97 (65 + (d - 10))); [lia|]. destruct (Z.leb_spec 65 (65 + (d - 10))); [|lia]. rewrite u8_id; unfold byte; lia.
    + destruct (Z.leb_spec 97 (97 + (d - 10))); [|lia]. rewrite u8_id; unfold byte; lia.
Qed.

(** A character that is a digit of some base is alphanumeric: it is no space,
    no sign and not the end of a string. *)
Lemma digit_plain c : byte c -> digit_of c < 36 ->
  isspace (i8 c) = false /\ (i8 c =? 45) = false /\ (i8 c =? 43) = false /\ nz c = true.
Proof.
  intros Hc Hd.
  pose proof (byte_check (fun c => (digit_of c >=? 36) ||
    (negb (isspace (i8 c)) && negb (i8 c =? 45) && negb (i8 c =? 43) && nz c)) ltac:(vm_compute; reflexivity) c Hc) as H.
  apply orb_true_iff in H as [H|H]; [apply Z.geb_le in H; lia|]. rewrite !andb_true_iff, !negb_true_iff in H. tauto.
Qed.

(** ** Numerals *)

Definition value (base : Z) (ds : list Z) : Z := foldl (fun v d => v * base + d) 0 ds.

(** At most [n] digits, the least significant last. *)
Fixpoint digits (n : nat) (base i : Z) : list Z :=
  match n with
  | O => []
  | S n => if i =? 0 then [] else digits n base (i / base) ++ [i mod base]
  end.

Definition numeral (base i : Z) : list Z :=
  if i =? 0 then [0] else digits (S (Z.to_nat (Z.log2 i))) base i.

Lemma value_snoc base ds d : value base (ds ++ [d]) = value base ds * base + d.
Proof. unfold value. by rewrite foldl_snoc. Qed.

Lemma div_lt_pow base i n : 2 <= base -> 0 <= i < base ^ Z.of_nat (S n) -> 0 <= i / base < base ^ Z.of_nat n.
Proof.
  intros Hb Hi. rewrite Nat2Z.inj_succ, Z.pow_succ_r in Hi by lia.
  split; [apply Z.div_pos; lia|]. apply Z.div_lt_upper_bound; lia.
Qed.

Lemma value_digits n base i : 2 <= base -> 0 <= i < base ^ Z.of_nat n -> value base (digits n base i) = i.
Proof.
  intros Hb. revert i. induction n as [|n IH]; intros i Hi.
  { change (base ^ Z.of_nat 0) with 1 in Hi. change (0 = i). lia. }
  cbn [digits]. destruct (Z.eqb_spec i 0) as [->|Hne]; [done|]. rewrite value_snoc, IH by (by apply div_lt_pow).
  rewrite (Z.div_mod i base) at 3 by lia. lia.
Qed.

Lemma digits_range n base i : 2 <= base -> Forall (fun d => 0 <= d < base) (digits n base i).
Proof.
  intros Hb. revert i. induction n as [|n IH]; intros i; cbn [digits]; [constructor|].
  destruct (i =? 0); [constructor|]. apply Forall_app. split; [apply IH|]. constructor; [|constructor].
  apply Z.mod_pos_bound. lia.
Qed.

Lemma digits_length n base i : (length (digits n base i) <= n)%nat.
Proof.
  revert i. induction n as [|n IH]; intros i; cbn [digits]; [done|]. destruct (i =? 0); simpl; [lia|].
  rewrite length_app. simpl. specialize (IH (i / base)). lia.
Qed.

Lemma digits_stable n k base i : 2 <= base -> 0 <= i < base ^ Z.of_nat n -> i < base ^ Z.of_nat k ->
  digits n base i = digits k base i.
Proof.
  intros Hb. revert k i. induction n as [|n IH]; intros k i Hn Hk.
  - change (base ^ Z.of_nat 0) with 1 in Hn. assert (i = 0) as -> by lia. by destruct k.
  - destruct k as [|k]; [change (base ^ Z.of_nat 0) with 1 in Hk; assert (i = 0) as -> by lia; done|].
    cbn [digits]. destruct (i =? 0); [done|]. f_equal. apply IH; [by apply div_lt_pow|].
    apply (div_lt_pow base i k); [done|lia].
Qed.

Lemma log2_pow i base : 2 <= base -> 0 < i -> i < base ^ Z.of_nat (S (Z.to_nat (Z.log2 i))).
Proof.
  intros Hb Hi. pose proof (Z.log2_nonneg i). rewrite Nat2Z.inj_succ, Z2Nat.id by done.
  pose proof (Z.log2_spec i Hi) as [_ H1]. pose proof (Z.pow_le_mono_l 2 base (Z.succ (Z.log2 i))). lia.
Qed.

Lemma digits_numeral n base i : 2 <= base -> 0 < i < base ^ Z.of_nat n -> digits n base i = numeral base i.
Proof.
  intros Hb Hi. unfold numeral. destruct (Z.eqb_spec i 0); [lia|]. apply digits_stable; [done|lia|]. apply log2_pow; lia.
Qed.

Lemma value_numeral base i : 2 <= base -> 0 <= i -> value base (numeral base i) = i.
Proof.
  intros Hb Hi. unfold numeral. destruct (Z.eqb_spec i 0) as [->|]; [done|]. apply value_digits; [done|].
  split; [lia|]. apply log2_pow; lia.
Qed.

Lemma numeral_range base i : 2 <= base -> Forall (fun d => 0 <= d < base) (numeral base i).
Proof.
  intros Hb. unfold numeral. destruct (i =? 0); [|by apply digits_range]. constructor; [lia|constructor].
Qed.

Lemma digits_nonempty n base i : 0 < i -> digits (S n) base i <> [].
Proof. intros Hi. cbn [digits]. destruct (Z.eqb_spec i 0); [lia|]. by destruct (digits n base (i / base)). Qed.

Lemma numeral_nonempty base i : 0 <= i -> numeral base i <> [].
Proof. intros Hi. unfold numeral. destruct (Z.eqb_spec i 0); [done|]. apply digits_nonempty. lia. Qed.

(** ** Integers to strings *)

Lemma wp_digit_char m a c up (Q : unit -> bmem -> Prop) :
  is_Some (m !! a) -> 0 <= c < 36 -> Q tt (<[a := chr up c]> m) ->
  wp (stb a (c + 48) ;;; when (i8 (c + 48) >? 57) (let* d := ldb a in stb a (d + ((if up then 65 else 97) - 57 - 1)))) Q m.
Proof.
  intros Hm Hc HQ. apply wp_bind, wp_stb; [done|]. rewrite u8_id by (unfold byte; lia).
  replace (i8 (c + 48)) with (c + 48) by (unfold i8, wraps; rewrite Z.mod_small; lia). rewrite Z.gtb_ltb.
  unfold chr in HQ. destruct (Z.ltb_spec 57 (c + 48)), (Z.leb_spec c 9); try lia; simpl.
  - apply wp_bind. eapply wp_ldb; [apply lookup_insert_eq|]. apply wp_stb; [rewrite lookup_insert_eq; eauto|].
    rewrite insert_insert_eq. rewrite u8_id by (unfold byte; destruct up; lia).
    match goal with |- Q tt (<[a := ?x]> m) => replace x with ((if up then 65 else 97) + (c - 10)) by (destruct up; lia) end. done.
  - by rewrite Z.add_comm.
Qed.

Lemma wp_ltostr_loop n m tmp i base j up (Q : Z * Z -> bmem -> Prop) :
  2 <= base <= 36 -> mapped m (tmp - Z.of_nat n) (Z.of_nat n) ->
  (forall m', let ds := digits n base i in let k := Z.of_nat (length ds) in
     arr m' (tmp - k) (chr up <$> ds) -> only m m' (tmp - Z.of_nat n) (Z.of_nat n) -> Q (tmp - k, j + k) m') ->
  wp (ltostr_loop n tmp i base j up) Q m.
Proof.
  intros Hb. revert m tmp i j Q. induction n as [|n IH]; intros m tmp i j Q Hm HQ; cbn [ltostr_loop].
  { apply wp_ret. replace tmp with (tmp - 0) at 1 by lia. replace j with (j + 0) by lia. apply HQ; auto with bytes. }
  unfold nz. cbn [digits] in HQ. destruct (Z.eqb_spec i 0) as [->|Hne]; simpl.
  { apply wp_ret. replace tmp with (tmp - 0) at 1 by lia. replace j with (j + 0) by lia. apply HQ; auto with bytes. }
  assert (0 <= i mod base < base) as Hd by (apply Z.mod_pos_bound; lia).
  apply wp_seq. apply wp_digit_char; [apply Hm; lia|lia|]. set (m1 := <[tmp - 1 := chr up (i mod base)]> m).
  assert (only m m1 (tmp - Z.of_nat (S n)) (Z.of_nat (S n))) as H1 by (apply only_insert; [apply Hm|]; lia).
  apply IH; [eapply only_mapped; [exact H1|]; intros x Hx; apply Hm; lia|].
  intros m' ds k Ha Ho. specialize (HQ m').
  rewrite length_app, Nat2Z.inj_add in HQ. cbn [length] in HQ. fold ds in HQ. change (Z.of_nat (length ds)) with k in HQ.
  replace (tmp - 1 - k) with (tmp - (k + Z.of_nat 1)) in * by lia. replace (j + 1 + k) with (j + (k + Z.of_nat 1)) by lia.
  apply HQ; [|eapply only_trans; [exact H1|]; eapply only_weaken; [exact Ho|lia..]].
  rewrite fmap_app. apply arr_app. split; [done|]. rewrite length_fmap. apply arr_cons. split; [|apply arr_nil].
  replace (tmp - (k + Z.of_nat 1) + Z.of_nat (length ds)) with (tmp - 1) by lia.
  rewrite (proj2 Ho) by lia. apply lookup_insert_eq.
Qed.

Lemma chr_bytes up base ds : base <= 36 -> Forall (fun d => 0 <= d < base) ds ->
  Forall (fun b => 0 < b < 256) (chr up <$> ds).
Proof.
  intros Hb H. apply Forall_fmap. eapply Forall_impl; [exact H|]. intros d Hd. simpl in *. pose proof (chr_range up d ltac:(lia)). lia.
Qed.

Lemma digit_chars base ds up : base <= 36 -> Forall (fun d => 0 <= d < base) ds ->
  digit_of <$> (chr up <$> ds) = ds.
Proof.
  intros Hb H. rewrite <- list_fmap_compose. induction H as [|d ds Hd H IH]; [done|]. rewrite fmap_cons, IH.
  unfold compose. rewrite digit_chr by lia. done.
Qed.

(** The last steps of the conversion: the digits and the end of the string move
    to the start of the buffer. *)
Lemma wp_tostr_move m s size tmp l (Q : Z -> bmem -> Prop) :
  Forall (fun b => 0 < b < 256) l -> mapped m s size -> arr m tmp (l ++ [0]) -> Z.of_nat (length l) + 1 <= size ->
  (forall m', cstr m' s l -> only m m' s size -> Q (Z.of_nat (length l)) m') ->
  wp (let* _ := memmove s tmp (Z.of_nat (length l) + 1) in ret (Z.of_nat (length l))) Q m.
Proof.
  intros Hl Hm Ha Hs HQ. apply wp_bind.
  replace (Z.of_nat (length l) + 1) with (Z.of_nat (length (l ++ [0]))) in * by (rewrite length_app; simpl; lia).
  apply wp_memmove; [|done| |].
  - apply Forall_app. split; [by apply Forall_byte|]. by constructor.
  - intros x Hx. apply Hm. lia.
  - intros m' H1 H2. apply wp_ret, HQ; [by split|]. eapply only_weaken; [exact H2|lia..].
Qed.

Lemma wp_tostr m s size i base up (Q : Z -> bmem -> Prop) :
  2 <= base <= 36 -> 2 <= size -> 0 <= i < 2 ^ (size - 1) -> mapped m s size ->
  (forall m', cstr m' s (chr up <$> numeral base i) -> only m m' s size ->
     Q (Z.of_nat (length (numeral base i))) m') ->
  wp (tostr s size i base up) Q m.
Proof.
  intros Hb Hs Hi Hm HQ. unfold tostr. apply wp_bind, wp_stb; [apply Hm; lia|].
  set (m1 := <[s + (size - 1) := u8 0]> m). assert (only m m1 s size) as H1 by (apply only_insert; [apply Hm|]; lia).
  assert (mapped m1 s size) as Hm1 by (by eapply only_mapped).
  assert (m1 !! (s + (size - 1)) = Some 0) as Hend by apply lookup_insert_eq.
  destruct (Z.eqb_spec base 0); [lia|]. rewrite Z.gtb_ltb. destruct (Z.ltb_spec 36 base); [lia|]. simpl.
  unfold nz. destruct (Z.eqb_spec i 0) as [->|Hne]; cbn [negb].
  - apply wp_bind, wp_bind, wp_stb; [apply Hm1; lia|]. apply wp_ret. set (m2 := <[_ := u8 48]> m1).
    assert (only m1 m2 s size) as H2 by (apply only_insert; [apply Hm1|]; lia).
    assert (forall k, ltostr_loop k (s + (size - 1) - 1) 0 base 1 up = ret (s + (size - 1) - 1, 1)) as -> by (by intros [|k]).
    apply wp_bind, wp_ret. cbv beta iota. apply (wp_tostr_move m2 s size _ [48]); [by constructor| | |simpl; lia|].
    + by eapply only_mapped.
    + simpl. apply arr_cons. split; [apply lookup_insert_eq|]. apply arr_cons. split; [|apply arr_nil].
      unfold m2. rewrite lookup_insert_ne by lia. by replace (s + (size - 1) - 1 + 1) with (s + (size - 1)) by lia.
    + intros m' H3 H4. apply HQ; [done|]. eapply only_trans; [exact H1|]. by eapply only_trans.
  - apply wp_bind, wp_ret. cbv beta iota. apply wp_bind. replace (s + (size - 1) - s) with (size - 1) by lia.
    apply wp_ltostr_loop; [done| |]; rewrite Z2Nat.id by lia.
    { intros x Hx. apply Hm1. lia. }
    intros m2 ds k Ha Ho. assert (ds = numeral base i) as E.
    { apply digits_numeral; [lia|]. rewrite Z2Nat.id by lia. pose proof (Z.pow_le_mono_l 2 base (size - 1)). lia. }
    rewrite <- E in HQ. rewrite Z.add_0_l. unfold k in *. rewrite <- (length_fmap (chr up) ds) in *.
    pose proof (digits_length (Z.to_nat (size - 1)) base i) as Hlen. fold ds in Hlen.
    assert (Forall (fun d => 0 <= d < base) ds) as Hds by (apply digits_range; lia).
    cbv beta iota. apply (wp_tostr_move m2 s size); [by eapply chr_bytes| | |rewrite length_fmap; lia|].
    + eapply only_mapped; [exact Ho|done].
    + apply arr_app. split; [done|]. apply arr_cons. split; [|apply arr_nil].
      rewrite (proj2 Ho) by lia. replace (s + (size - 1) - _ + _) with (s + (size - 1)) by lia. done.
    + intros m' H3 H4. apply HQ; [done|]. eapply only_trans; [exact H1|].
      eapply only_trans; [eapply only_weaken; [exact Ho|lia..]|done].
Qed.

(** ** Strings to integers *)

Lemma wp_ldc m a b (Q : Z -> bmem -> Prop) : m !! a = Some b -> Q (i8 b) m -> wp (ldc a) Q m.
Proof. intros E HQ. unfold ldc. by apply wp_bind, (wp_ldb _ _ _ _ E). Qed.

Lemma wp_skip_space sp fuel m p b (Q : Z -> bmem -> Prop) :
  arr m p (sp ++ [b]) -> Forall (fun c => isspace (i8 c) = true) sp -> isspace (i8 b) = false ->
  (length sp < fuel)%nat -> Q (p + Z.of_nat (length sp)) m -> wp (skip_space fuel p) Q m.
Proof.
  revert fuel p Q. induction sp as [|c sp IH]; intros fuel p Q Ha Hs Hb Hf HQ; (destruct fuel as [|fuel]; [simpl in Hf; lia|]);
    cbn [skip_space app length] in *; apply arr_cons in Ha as [E Ha]; apply wp_bind, (wp_ldc _ _ _ _ E).
  - rewrite Hb. apply wp_ret. by rewrite Z.add_0_r in HQ.
  - apply Forall_cons in Hs as [-> Hs]. apply IH; [done..|lia|].
    by replace (p + 1 + Z.of_nat (length sp)) with (p + Z.of_nat (S (length sp))) by lia.
Qed.

(** One step of the accumulation of [strtoul], in two halves of 24 and 8 bits. *)
Lemma strtoul_step v base d : 0 <= v < 2 ^ 32 -> 2 <= base <= 36 -> 0 <= d < base ->
  let x := u32 (Z.land v 0xff * base + d) in
  let w := u32 (Z.shiftr v 8 * base + Z.shiftr x 8) in
  u32 (Z.shiftl w 8 + Z.land x 0xff) = (v * base + d) mod 2 ^ 32 /\
  (w >? Z.shiftr ULONG_MAX 8) = (2 ^ 32 <=? v * base + d).
Proof.
  intros Hv Hb Hd. cbv zeta. change 0xff with (Z.ones 8). rewrite !Z.land_ones, !Z.shiftr_div_pow2, Z.shiftl_mul_pow2 by lia.
  change (2 ^ 8) with 256. change (ULONG_MAX / 256) with (2 ^ 24 - 1).
  pose proof (Z.div_mod v 256 ltac:(lia)) as E1. pose proof (Z.mod_pos_bound v 256 ltac:(lia)) as B1.
  assert (0 <= v / 256 < 2 ^ 24) as B2 by (split; [apply Z.div_pos; lia|apply Z.div_lt_upper_bound; lia]).
  unfold u32, wrapu. rewrite (Z.mod_small (v mod 256 * base + d)) by nia. set (x := v mod 256 * base + d).
  assert (0 <= x < 2 ^ 14) as Bx by (unfold x; nia).
  pose proof (Z.div_mod x 256 ltac:(lia)) as E2. pose proof (Z.mod_pos_bound x 256 ltac:(lia)) as B3.
  assert (0 <= x / 256 < 64) as B4 by (split; [apply Z.div_pos; lia|apply Z.div_lt_upper_bound; lia]).
  rewrite (Z.mod_small (v / 256 * base + x / 256)) by nia. set (w := v / 256 * base + x / 256).
  assert (v * base + d = w * 256 + x mod 256) as E. { unfold w. rewrite E1 at 1. unfold x in E2 |- *. lia. }
  rewrite E. split; [done|]. rewrite Z.gtb_ltb. destruct (Z.ltb_spec (2 ^ 24 - 1) w), (Z.leb_spec (2 ^ 32) (w * 256 + x mod 256)); lia.
Qed.

(** The bytes [cs] are digits of [base], and [z] is not. *)
Definition number_at (m : bmem) (p base : Z) (cs : list Z) (z : Z) : Prop :=
  arr m p (cs ++ [z]) /\ Forall byte cs /\ Forall (fun c => digit_of c < base) cs /\
  byte z /\ (z = 0 \/ base <= digit_of z).

Lemma digit_of_byte c : byte (digit_of c).
Proof. apply u8_byte. Qed.

Lemma number_at_cons m p base c cs z : number_at m p base (c :: cs) z ->
  m !! p = Some c /\ byte c /\ digit_of c < base /\ number_at m (p + 1) base cs z.
Proof.
  intros (H1 & H2 & H3 & H4). cbn [app] in H1. apply arr_cons in H1 as [E H1].
  apply Forall_cons in H2 as [Hc H2]. apply Forall_cons in H3 as [Hd H3]. by split_and!.
Qed.

Lemma wp_strtoul_loop cs fuel m p base V z (Q : Z * Z * bool -> bmem -> Prop) :
  number_at m p base cs z -> 2 <= base <= 36 -> 0 <= V -> (length cs < fuel)%nat ->
  let V' := foldl (fun v d => v * base + d) V (digit_of <$> cs) in
  Q (p + Z.of_nat (length cs), V' mod 2 ^ 32, 2 ^ 32 <=? V') m ->
  wp (strtoul_loop fuel p (V mod 2 ^ 32) base (2 ^ 32 <=? V)) Q m.
Proof.
  intros Hn Hb. revert fuel p V Hn Q. induction cs as [|c cs IH]; intros fuel p V Hn Q HV Hf V' HQ;
    (destruct fuel as [|fuel]; [simpl in Hf; lia|]); cbn [strtoul_loop length fmap list_fmap foldl] in *.
  - destruct Hn as (Ha & _ & _ & Hz & Hstop). cbn [app] in Ha. apply arr_cons in Ha as [E _].
    apply wp_bind, (wp_ldb _ _ _ _ E). rewrite Z.add_0_r in HQ. unfold nz.
    destruct (Z.eqb_spec z 0) as [->|Hz0]; [done|]. simpl. destruct Hstop as [|Hd]; [done|].
    rewrite Z.geb_leb. by destruct (Z.leb_spec base (digit_of z)); [|lia].
  - apply number_at_cons in Hn as (E & Hc & Hd & Hn). apply wp_bind, (wp_ldb _ _ _ _ E).
    destruct (digit_plain c Hc ltac:(lia)) as (_ & _ & _ & ->). simpl. rewrite Z.geb_leb.
    destruct (Z.leb_spec base (digit_of c)); [lia|]. pose proof (digit_of_byte c) as Hdb. unfold byte in Hdb.
    pose proof (Z.mod_pos_bound V (2 ^ 32) ltac:(lia)) as HB.
    destruct (strtoul_step (V mod 2 ^ 32) base (digit_of c)) as [-> ->]; [lia..|].
    replace ((V mod 2 ^ 32 * base + digit_of c) mod 2 ^ 32) with ((V * base + digit_of c) mod 2 ^ 32).
    2: { rewrite <- (Zplus_mod_idemp_l (V mod 2 ^ 32 * base)), Zmult_mod_idemp_l, Zplus_mod_idemp_l. done. }
    replace ((2 ^ 32 <=? V) || (2 ^ 32 <=? V mod 2 ^ 32 * base + digit_of c)) with (2 ^ 32 <=? V * base + digit_of c).
    2: { destruct (Z.leb_spec (2 ^ 32) V); simpl; [apply Z.leb_le; nia|]. by rewrite Z.mod_small by lia. }
    apply IH; [done|nia|lia|]. by replace (p + 1 + Z.of_nat (length cs)) with (p + Z.of_nat (S (length cs))) by lia.
Qed.

(** A zero alone before an x could be a prefix. *)
Definition no_prefix (base : Z) (cs : list Z) (z : Z) : Prop := base = 16 -> cs = [48] -> z <> 120 /\ z <> 88.

Lemma i8_ascii b c : byte b -> 0 <= c < 128 -> (i8 b =? c) = (b =? c).
Proof.
  intros Hb Hc. rewrite <- (i8_eqb b c) by (done || (unfold byte; lia)). f_equal.
  symmetry. unfold i8, wraps. rewrite Z.mod_small; lia.
Qed.

Lemma wp_strtoul_base m p base cs z (Q : option (Z * Z) -> bmem -> Prop) :
  number_at m p base cs z -> cs <> [] -> 2 <= base <= 36 -> no_prefix base cs z ->
  Q (Some (p, base)) m -> wp (strtoul_base p base) Q m.
Proof.
  intros Hn Hne Hb Hp HQ. unfold strtoul_base. destruct cs as [|c cs]; [done|].
  pose proof (number_at_cons _ _ _ _ _ _ Hn) as (E & Hc & Hd & Hn').
  destruct (Z.eqb_spec base 16) as [->|]; simpl.
  - apply wp_bind, (wp_ldc _ _ _ _ E). rewrite i8_ascii by (done || lia). destruct (Z.eqb_spec c 48) as [->|]; [|done].
    apply wp_bind. unfold skip0x. assert (exists c1, m !! (p + 1) = Some c1 /\ byte c1 /\ c1 <> 120 /\ c1 <> 88) as (c1 & E1 & Hc1 & H1 & H2).
    { destruct cs as [|c1 cs].
      - destruct Hn' as (Ha & _ & _ & Hz & _). apply arr_cons in Ha as [Ez _]. exists z. destruct (Hp eq_refl eq_refl). done.
      - pose proof (number_at_cons _ _ _ _ _ _ Hn') as (E1 & Hc1 & Hd1 & _). exists c1. split_and!; [done..| |]; intros ->; done. }
    apply wp_bind, (wp_ldc _ _ _ _ E1). rewrite !i8_ascii by (done || lia).
    destruct (Z.eqb_spec c1 120), (Z.eqb_spec c1 88); [done..|]. by apply wp_ret, wp_ret.
  - unfold nz. destruct (Z.eqb_spec base 0); [lia|]. simpl. apply wp_bind, wp_ret.
    rewrite Z.gtb_ltb. unfold u32, wrapu. rewrite Z.mod_small by lia. destruct (Z.ltb_spec 34 (base - 2)); [lia|]. done.
Qed.

Definition sign_bytes (o : option bool) : list Z :=
  match o with None => [] | Some true => [45] | Some false => [43] end.

(** Spaces, a sign and digits at [p]. *)
Definition numeral_at (m : bmem) (p base : Z) (sp : list Z) (o : option bool) (cs : list Z) (z : Z) : Prop :=
  arr m p (sp ++ sign_bytes o) /\ Forall (fun c => isspace (i8 c) = true) sp /\
  number_at m (p + Z.of_nat (length sp) + Z.of_nat (length (sign_bytes o))) base cs z.

(** Past the spaces and the sign; [strtoul] and [atoi] start with the same
    statements. *)
Lemma wp_past_sign {A} (k : bool -> Z -> M bmem A) m p base sp o cs z (Q : A -> bmem -> Prop) :
  numeral_at m p base sp o cs z -> cs <> [] -> base <= 36 ->
  wp (k (bool_decide (o = Some true)) (p + Z.of_nat (length sp) + Z.of_nat (length (sign_bytes o)))) Q m ->
  wp (let* nptr := skip_space (byte_fuel m) p in
      let* c := ldc nptr in
      k (c =? 45) (if (c =? 45) || (c =? 43) then nptr + 1 else nptr)) Q m.
Proof.
  intros (Ha & Hs & Hn) Hne Hb HQ. destruct cs as [|c cs]; [done|].
  pose proof (number_at_cons _ _ _ _ _ _ Hn) as (E & Hc & Hd & _).
  destruct (digit_plain c Hc ltac:(lia)) as (P1 & P2 & P3 & _).
  assert (length sp < byte_fuel m)%nat as Hf. { apply arr_app in Ha as [Ha _]. by apply arr_fuel in Ha. }
  apply wp_bind. destruct o as [[]|]; cbn [sign_bytes length] in *.
  - apply (wp_skip_space sp _ _ _ 45); [done..|]. apply arr_app in Ha as [_ [E0 _]%arr_cons].
    apply wp_bind, (wp_ldc _ _ _ _ E0). exact HQ.
  - apply (wp_skip_space sp _ _ _ 43); [done..|]. apply arr_app in Ha as [_ [E0 _]%arr_cons].
    apply wp_bind, (wp_ldc _ _ _ _ E0). exact HQ.
  - rewrite Z.add_0_r in *. rewrite app_nil_r in Ha. apply (wp_skip_space sp _ _ _ c); [|done..|].
    { apply arr_app. split; [done|]. apply arr_cons. split; [done|apply arr_nil]. }
    apply wp_bind, (wp_ldc _ _ _ _ E). rewrite P2, P3. exact HQ.
Qed.

Lemma wp_strtoul_core m p base sp o cs z (Q : Z * option Z -> bmem -> Prop) :
  numeral_at m p base sp o cs z -> cs <> [] -> 2 <= base <= 36 -> no_prefix base cs z ->
  let V := value base (digit_of <$> cs) in
  Q (if 2 ^ 32 <=? V then ULONG_MAX else if bool_decide (o = Some true) then u32 (- V) else V,
     Some (p + Z.of_nat (length sp) + Z.of_nat (length (sign_bytes o)) + Z.of_nat (length cs))) m ->
  wp (strtoul_core p base) Q m.
Proof.
  intros Hn Hne Hb Hp V HQ. unfold strtoul_core. apply wp_bind, wp_gets.
  apply (wp_past_sign (fun neg nptr => let* o := strtoul_base nptr base in
    match o with
    | None => ret (0, None)
    | Some (nptr', base) =>
      let* '(nptr', v, overflow) := strtoul_loop (byte_fuel m) nptr' 0 base false in
      let '(nptr', v) := if nptr' =? nptr then (p, 0) else (nptr', v) in
      ret (if overflow then ULONG_MAX else if neg then u32 (- v) else v, Some nptr')
    end) m p base sp o cs z); [done..|lia|].
  destruct Hn as (_ & _ & Hn). set (q := p + _ + _) in *.
  apply wp_bind, (wp_strtoul_base _ _ _ cs z); [done..|]. apply wp_bind.
  change 0 with (0 mod 2 ^ 32) at 1. change false with (2 ^ 32 <=? 0).
  apply (wp_strtoul_loop cs _ _ _ _ _ z); [done|done|lia| |].
  { destruct Hn as [Hn _]. apply arr_fuel in Hn. rewrite length_app in Hn. simpl in Hn. lia. }
  fold (value base (digit_of <$> cs)). fold V.
  destruct (Z.eqb_spec (q + Z.of_nat (length cs)) q) as [E|_]. { destruct cs; [done|]. simpl in E. lia. }
  apply wp_ret. destruct (Z.leb_spec (2 ^ 32) V); [done|].
  assert (0 <= V) as HV.
  { unfold V, value. assert (forall l v, 0 <= v -> 0 <= foldl (fun v d => v * base + d) v (digit_of <$> l)) as H0.
    { induction l as [|x l IH]; intros v Hv; simpl; [done|]. apply IH. pose proof (digit_of_byte x). unfold byte in *. nia. }
    by apply H0. }
  rewrite (Z.mod_small V) by lia. exact HQ.
Qed.

(** ** atoi *)

Lemma wp_atoi_loop cs fuel m p v z (Q : Z -> bmem -> Prop) :
  number_at m p 10 cs z -> (length cs < fuel)%nat ->
  Q (foldl (fun v d => i32 (v * 10 + d)) v (digit_of <$> cs)) m ->
  wp (atoi_loop fuel p v) Q m.
Proof.
  revert fuel p v Q. induction cs as [|c cs IH]; intros fuel p v Q Hn Hf HQ; (destruct fuel as [|fuel]; [simpl in Hf; lia|]);
    cbn [atoi_loop length fmap list_fmap foldl] in *.
  - destruct Hn as (Ha & _ & _ & Hz & Hstop). apply arr_cons in Ha as [E _]. apply wp_bind, (wp_ldc _ _ _ _ E).
    pose proof (byte_check (fun c => negb (c =? 0) && (digit_of c <? 10) || negb (u32 (i8 c - 48) <? 10))
      ltac:(vm_compute; reflexivity) z Hz) as H.
    apply orb_true_iff in H as [H|H].
    + rewrite andb_true_iff, negb_true_iff, Z.eqb_neq, Z.ltb_lt in H. lia.
    + apply negb_true_iff in H. by rewrite H.
  - apply number_at_cons in Hn as (E & Hc & Hd & Hn). apply wp_bind, (wp_ldc _ _ _ _ E).
    pose proof (byte_check (fun c => (10 <=? digit_of c) || ((u32 (i8 c - 48) <? 10) && (i8 c - 48 =? digit_of c)))
      ltac:(vm_compute; reflexivity) c Hc) as H.
    apply orb_true_iff in H as [H|H]; [apply Z.leb_le in H; lia|]. apply andb_true_iff in H as [-> H%Z.eqb_eq].
    apply IH; [done|lia|]. by replace (v * 10 + i8 c - 48) with (v * 10 + digit_of c) by lia.
Qed.

Lemma i32_mod z : i32 z mod 2 ^ 32 = z mod 2 ^ 32.
Proof.
  unfold i32, wraps. rewrite Zminus_mod, Zmod_mod, <- Zminus_mod. f_equal. lia.
Qed.

Lemma i32_cong x y : x mod 2 ^ 32 = y mod 2 ^ 32 -> i32 x = i32 y.
Proof. intros H. unfold i32, wraps. by rewrite Zplus_mod, H, <- Zplus_mod. Qed.

Lemma foldl_i32 l v : i32 v = v ->
  foldl (fun v d => i32 (v * 10 + d)) v l = i32 (foldl (fun v d => v * 10 + d) v l).
Proof.
  assert (forall w, i32 v = i32 w ->
    i32 (foldl (fun v d => i32 (v * 10 + d)) v l) = i32 (foldl (fun v d => v * 10 + d) w l)) as H.
  { revert v. induction l as [|d l IH]; intros v w E; simpl; [done|]. apply IH.
    apply i32_cong. rewrite i32_mod. rewrite <- (Zplus_mod_idemp_l (v * 10)), <- (Zplus_mod_idemp_l (w * 10)),
      <- (Zmult_mod_idemp_l v), <- (Zmult_mod_idemp_l w), <- (i32_mod v), <- (i32_mod w). by rewrite E. }
  intros E. rewrite <- (H v eq_refl). destruct l as [|d l] using rev_ind; [done|]. rewrite foldl_snoc.
  symmetry. apply i32_cong, i32_mod.
Qed.

Lemma wp_atoi m p sp o cs z (Q : Z -> bmem -> Prop) :
  numeral_at m p 10 sp o cs z -> cs <> [] ->
  let V := value 10 (digit_of <$> cs) in
  Q (i32 (if bool_decide (o = Some true) then - V else V)) m -> wp (atoi p) Q m.
Proof.
  intros Hn Hne V HQ. unfold atoi. apply wp_bind, wp_gets.
  apply (wp_past_sign (fun neg s => let* v := atoi_loop (byte_fuel m) s 0 in
    ret (if (if neg then -1 else 1) =? -1 then i32 (- v) else v)) m p 10 sp o cs z); [done..|].
  destruct Hn as (_ & _ & Hn). apply wp_bind, (wp_atoi_loop cs _ _ _ _ z); [done| |].
  { destruct Hn as [Hn _]. apply arr_fuel in Hn. rewrite length_app in Hn. simpl in Hn. lia. }
  rewrite foldl_i32 by done. fold (value 10 (digit_of <$> cs)). fold V. apply wp_ret.
  destruct (bool_decide (o = Some true)); simpl; [|done].
  replace (i32 (- i32 V)) with (i32 (- V)); [done|]. apply i32_cong.
  rewrite <- (Z.sub_0_l V), <- (Z.sub_0_l (i32 V)), Zminus_mod, (Zminus_mod 0 (i32 V)), i32_mod. done.
Qed.
