(* ===== verification/Printf.v ===== *)
(** * Formatted output: [__v_printf] of libc/stdarg.c and libc/vsprintf.c

    [__v_printf] walks a format string, takes its arguments from the stack
    through a [va_list] and hands pieces of output to a function [put] with a
    state [D] of its own. [vsnprintf] is [__v_printf] with [swrite], which
    copies the output to a buffer of a fixed size. *)

From Stdlib Require Import ZArith Lia.
From stdpp Require Import base tactics gmap option list.
From S2P Require Import Prelude Mem Bytes Cstring Cstdlib.

Open Scope Z_scope.
Open Scope kernel_scope.

(** The addresses of the locals [buf] and [ch], of the two rows of [pad_line]
    and of the literal (null). *)
Record frame := mk_frame { f_buf : Z; f_ch : Z; f_spaces : Z; f_zeros : Z; f_null : Z }.

(** The locals that a conversion specification sets. *)
Record spec := mk_spec {
  padwith : Z; flag_in_sign : Z; flag_upcase : bool; flag_hash : Z; flag_left : bool; flag_space : bool;
  flag_sign : bool; flag_dot : bool; flag_long : Z; width : Z; preci : Z }.

Definition spec0 : spec := mk_spec 32 0 false 0 false false false false 0 0 0.

Definition set_padwith v f := mk_spec v (flag_in_sign f) (flag_upcase f) (flag_hash f) (flag_left f) (flag_space f) (flag_sign f) (flag_dot f) (flag_long f) (width f) (preci f).
Definition set_in_sign v f := mk_spec (padwith f) v (flag_upcase f) (flag_hash f) (flag_left f) (flag_space f) (flag_sign f) (flag_dot f) (flag_long f) (width f) (preci f).
Definition set_upcase v f := mk_spec (padwith f) (flag_in_sign f) v (flag_hash f) (flag_left f) (flag_space f) (flag_sign f) (flag_dot f) (flag_long f) (width f) (preci f).
Definition set_hash v f := mk_spec (padwith f) (flag_in_sign f) (flag_upcase f) v (flag_left f) (flag_space f) (flag_sign f) (flag_dot f) (flag_long f) (width f) (preci f).
Definition set_left v f := mk_spec (padwith f) (flag_in_sign f) (flag_upcase f) (flag_hash f) v (flag_space f) (flag_sign f) (flag_dot f) (flag_long f) (width f) (preci f).
Definition set_space v f := mk_spec (padwith f) (flag_in_sign f) (flag_upcase f) (flag_hash f) (flag_left f) v (flag_sign f) (flag_dot f) (flag_long f) (width f) (preci f).
Definition set_sign v f := mk_spec (padwith f) (flag_in_sign f) (flag_upcase f) (flag_hash f) (flag_left f) (flag_space f) v (flag_dot f) (flag_long f) (width f) (preci f).
Definition set_dot v f := mk_spec (padwith f) (flag_in_sign f) (flag_upcase f) (flag_hash f) (flag_left f) (flag_space f) (flag_sign f) v (flag_long f) (width f) (preci f).
Definition set_long v f := mk_spec (padwith f) (flag_in_sign f) (flag_upcase f) (flag_hash f) (flag_left f) (flag_space f) (flag_sign f) (flag_dot f) v (width f) (preci f).
Definition set_width v f := mk_spec (padwith f) (flag_in_sign f) (flag_upcase f) (flag_hash f) (flag_left f) (flag_space f) (flag_sign f) (flag_dot f) (flag_long f) v (preci f).
Definition set_preci v f := mk_spec (padwith f) (flag_in_sign f) (flag_upcase f) (flag_hash f) (flag_left f) (flag_space f) (flag_sign f) (flag_dot f) (flag_long f) (width f) v.

(** [va_arg(arg_ptr, int)], and of [long long]: the value and the pointer to
    the next argument. *)
Definition va_int (ap : Z) : M bmem (Z * Z) := let* w := ldw ap in ret (i32 w, ap + 4).

Definition va_llong (ap : Z) : M bmem (Z * Z) :=
  let* lo := ldw ap in let* hi := ldw (ap + 4) in ret (i64 (lo + 2 ^ 32 * hi), ap + 8).

Fixpoint skip_to_loop (fuel : nat) (format nr : Z) : M bmem Z :=
  match fuel with
  | O => fault
  | S fuel =>
      let* c := ldb (format + nr) in
      if nz c && negb (c =? 37) then skip_to_loop fuel format (nr + 1) else ret nr
  end.

Definition skip_to (format : Z) : M bmem Z :=
  let* fuel := gets byte_fuel in skip_to_loop fuel format 0.

(** [strtol] with a local [endptr]. *)
Definition strtol_core (nptr base : Z) : M bmem (Z * Z) :=
  let orig := nptr in
  let* '(neg, nptr) := strtol_sign nptr in
  let* '(v, e) := strtoul_core nptr base in
  let* e := deref e in
  ret (strtol_value v neg, if e =? nptr then orig else e).

(** What the switch at [inn_printf] comes to: the end of the format inside of a
    conversion, a digit after a dot, or a conversion character. *)
Inductive conv := CBad | CConv (ch format ap : Z) (f : spec).

(** The flags, the width and the precision, up to the conversion character. *)
Fixpoint inn_printf (fuel : nat) (format ap : Z) (f : spec) : M bmem conv :=
  match fuel with
  | O => fault
  | S fuel =>
      let* ch := ldb format in
      let format := format + 1 in
      if ch =? 0 then ret CBad
      else if ch =? 35 (* # *) then inn_printf fuel format ap (set_hash (-1) f)
      else if ch =? 122 (* z *) then inn_printf fuel format ap f
      else if ch =? 104 (* h *) then inn_printf fuel format ap (set_long (i8 (flag_long f - 1)) f)
      else if (ch =? 113) || (ch =? 76) (* q L *) then inn_printf fuel format ap (set_long (i8 (flag_long f + 2)) f)
      else if ch =? 108 (* l *) then inn_printf fuel format ap (set_long (i8 (flag_long f + 1)) f)
      else if ch =? 45 (* - *) then inn_printf fuel format ap (set_left true f)
      else if ch =? 32 then inn_printf fuel format ap (set_space true f)
      else if ch =? 43 (* + *) then inn_printf fuel format ap (set_sign true f)
      else if (48 <=? ch) && (ch <=? 57) then
        if flag_dot f then ret CBad else
        let* '(w, s) := strtoul_core (format - 1) 10 in
        let* s := deref s in
        let f := set_width w f in
        inn_printf fuel s ap (if (ch =? 48) && negb (flag_left f) then set_padwith 48 f else f)
      else if ch =? 42 (* * *) then
        let* '(w, ap) := va_int ap in inn_printf fuel format ap (set_width (u32 w) f)
      else if ch =? 46 (* . *) then
        let f := set_dot true f in
        let* c := ldb format in
        if c =? 42 then
          let* '(tmp, ap) := va_int ap in
          inn_printf fuel (format + 1) ap (set_preci (if tmp <? 0 then 0 else tmp) f)
        else
          let* '(tmp, s) := strtol_core format 10 in
          inn_printf fuel s ap (set_preci (if tmp <? 0 then 0 else tmp) f)
      else ret (CConv ch format ap f)
  end.

Section sink.
Context {D : Type} (put : Z -> Z -> M (bmem * D) Z) (fr : frame).

(** A routine that only uses memory. *)
Definition inmem {A} (m : M bmem A) : M (bmem * D) A := zoom fst (fun m s => (m, snd s)) m.

(** [A_WRITE(fn,buf,sz)] in a statement. *)
Definition A_WRITE (p sz : Z) : M (bmem * D) unit := let* _ := put p sz in ret tt.

Definition pad_line (pad : Z) : Z := if pad =? 48 then f_zeros fr else f_spaces fr.

(** The loop of [write_pad]; each iteration writes a row of 16 characters. *)
Fixpoint write_pad_loop (fuel : nat) (len nr pad : Z) : M (bmem * D) Z :=
  match fuel with
  | O => fault
  | S fuel =>
      if len >? 15 then A_WRITE (pad_line pad) 16 ;;; write_pad_loop fuel (len - 16) (nr + 16) pad
      else if len >? 0 then A_WRITE (pad_line pad) len ;;; ret (nr + len)
      else ret nr
  end.

Definition write_pad (len pad : Z) : M (bmem * D) Z := write_pad_loop (S (Z.to_nat len)) len 0 pad.

(** [if (todo) { A_WRITE(fn,sign,todo); len += todo; }] *)
Definition write_sign (sign todo len : Z) : M (bmem * D) Z :=
  if nz todo then A_WRITE sign todo ;;; ret (i32 (len + todo)) else ret len.

(** The statements at [print_out], with [len] the count so far. *)
Definition print_out (s sz len : Z) (f : spec) : M (bmem * D) Z :=
  let sign := s in
  if negb (nz (width f) || nz (preci f)) then A_WRITE s sz ;;; ret (i32 (len + sz)) else
  let todo := if nz (flag_in_sign f) then 1 else 0 in
  let todo := if flag_hash f >? 0 then flag_hash f else todo in
  let s := s + todo in
  let sz := u32 (sz - todo) in
  let width := u32 (width f - todo) in
  let vs := i32 (if preci f >? sz then preci f else sz) in
  if negb (flag_left f) then
    let* len :=
      (if flag_dot f then
         let* n := write_pad (i32 (i32 width - vs)) 32 in
         let* len := write_sign sign todo (i32 (len + n)) in
         let* n := write_pad (i32 (i32 (preci f) - i32 sz)) 48 in
         ret (i32 (len + n))
       else
         let first := nz todo && (padwith f =? 48) in
         let* len := write_sign sign (if first then todo else 0) len in
         let* n := write_pad (i32 (i32 width - i32 sz)) (padwith f) in
         write_sign sign (if first then 0 else todo) (i32 (len + n))) in
    A_WRITE s sz ;;; ret (i32 (len + sz))
  else
    let* len := write_sign sign todo len in
    let* n := write_pad (i32 (i32 (preci f) - i32 sz)) 48 in
    A_WRITE s sz ;;;
    let* n' := write_pad (i32 (i32 width - vs)) 32 in
    ret (i32 (i32 (i32 (len + n) + sz) + n')).

(** The statements at [num_printf]: the argument as digits in [buf], with its
    sign before it. Returns the start and the length of the text. *)
Definition num_printf (base sz ap : Z) (f : spec) : M bmem (Z * Z * Z * spec) :=
  let s := f_buf fr + 1 in
  let ll := flag_long f >? 1 in
  let* '(number, ap) := (if ll then va_llong ap else va_int ap) in
  let neg := nz (flag_in_sign f) && (number <? 0) in
  let number := if neg then (if ll then i64 (- number) else i32 (- number)) else number in
  let f := if neg then set_in_sign 2 f else f in
  let number := if flag_long f <? 0 then Z.land number 0xffff else number in
  let number := if flag_long f <? -1 then Z.land number 0xff else number in
  let* retval :=
    (if ll then __lltostr (s + sz) (128 - 5) (u64 number) base (flag_upcase f)
     else __ltostr (s + sz) (128 - 5) (u32 number) base (flag_upcase f)) in
  (* When 0 is printed with an explicit precision 0, the output is empty. *)
  let* c := (if flag_dot f && (retval =? 1) then ldb (s + sz) else ret 0) in
  let '(sz, f) :=
    if flag_dot f && (retval =? 1) && (c =? 48)
    then (if (preci f =? 0) || (flag_hash f >? 0) then 0 else sz, set_hash 0 f)
    else (u32 (sz + retval), f) in
  if flag_in_sign f =? 2 then stb (s - 1) 45 ;;; ret (s - 1, u32 (sz + 1), ap, f)
  else if nz (flag_in_sign f) && (flag_sign f || flag_space f) then
    stb (s - 1) (if flag_sign f then 43 else 32) ;;; ret (s - 1, u32 (sz + 1), ap, f)
  else ret (s, sz, ap, set_in_sign 0 f).

(** A hexadecimal conversion writes its prefix before it jumps to the digits. *)
Definition hex_prefix (ch : Z) (f : spec) : M bmem (Z * spec) :=
  let* '(sz, f) :=
    (if nz (flag_hash f) then
       stb (f_buf fr + 1) 48 ;;; stb (f_buf fr + 2) ch ;;; ret (2, set_hash 2 f)
     else ret (0, f)) in
  ret (sz, if preci f >? width f then set_width (preci f) f else f).

Definition oct_prefix (f : spec) : M bmem (Z * spec) :=
  if nz (flag_hash f) then stb (f_buf fr + 1) 48 ;;; ret (1, set_hash 1 f) else ret (0, f).

(** A conversion; returns the count and the next argument. *)
Definition convert (ch ap len : Z) (f : spec) : M (bmem * D) (Z * Z) :=
  let number base sz f :=
    let* '(s, sz, ap, f) := inmem (num_printf base sz ap f) in
    let* len := print_out s sz len f in ret (len, ap) in
  if ch =? 99 (* c *) then
    let* '(c, ap) := inmem (va_int ap) in
    inmem (stb (f_ch fr) c) ;;; A_WRITE (f_ch fr) 1 ;;; ret (i32 (len + 1), ap)
  else if ch =? 37 then
    inmem (stb (f_ch fr) ch) ;;; A_WRITE (f_ch fr) 1 ;;; ret (i32 (len + 1), ap)
  else if ch =? 115 (* s *) then
    let* '(s, ap) := inmem (va_int ap) in
    let s := if nz (u32 s) then u32 s else f_null fr in
    let* sz := inmem (strlen s) in
    let sz := if flag_dot f && (sz >? preci f) then preci f else sz in
    let* len := print_out s sz len (set_padwith 32 (set_dot false (set_preci 0 f))) in
    ret (len, ap)
  else if ch =? 98 (* b *) then number 2 0 f
  else if ch =? 112 (* p *) then
    let* '(sz, f) := inmem (hex_prefix 120 (set_upcase false (set_long 1 (set_hash 2 f)))) in number 16 sz f
  else if ch =? 88 (* X *) then
    let* '(sz, f) := inmem (hex_prefix 88 (set_upcase true f)) in number 16 sz f
  else if ch =? 120 (* x *) then
    let* '(sz, f) := inmem (hex_prefix 120 f) in number 16 sz f
  else if (ch =? 100) || (ch =? 105) (* d i *) then number 10 0 (set_in_sign 1 f)
  else if ch =? 117 (* u *) then number 10 0 f
  else if ch =? 111 (* o *) then
    let* '(sz, f) := inmem (oct_prefix f) in number 8 sz f
  else ret (len, ap).

(** The loop of [__v_printf]. *)
Fixpoint v_printf_loop (fuel : nat) (format ap len : Z) : M (bmem * D) Z :=
  match fuel with
  | O => fault
  | S fuel =>
      let* c := inmem (ldb format) in
      if negb (nz c) then ret len else
      let* sz := inmem (skip_to format) in
      (if nz sz then A_WRITE format sz else ret tt) ;;;
      let format := format + sz in
      let len := i32 (len + sz) in
      let* c := inmem (ldb format) in
      if c =? 37 then
        let* n := inmem (gets byte_fuel) in
        let* r := inmem (inn_printf n (format + 1) ap spec0) in
        match r with
        | CBad => ret (-1)
        | CConv ch format ap f =>
            let* '(len, ap) := convert ch ap len f in
            v_printf_loop fuel format ap len
        end
      else v_printf_loop fuel format ap len
  end.

Definition __v_printf (format ap : Z) : M (bmem * D) Z :=
  let* fuel := inmem (gets byte_fuel) in v_printf_loop fuel format ap 0.

End sink.

(** ** vsprintf.c *)

Record str_cdata := mk_sd { sd_str : Z; sd_len : Z; sd_size : Z }.

Definition swrite (ptr nmemb : Z) : M (bmem * str_cdata) Z :=
  let* sd := gets snd in
  let tmp := u32 (sd_size sd - sd_len sd) in
  when (tmp >? 0)
    (let len := if nmemb >? tmp then tmp else nmemb in
     when (nz (sd_str sd))
       (inmem (let* _ := memcpy (sd_str sd + sd_len sd) ptr len in stb (sd_str sd + sd_len sd + len) 0)) ;;;
     modify (fun '(m, sd) => (m, mk_sd (sd_str sd) (u32 (sd_len sd + len)) (sd_size sd)))) ;;;
  ret nmemb.

Definition vsnprintf (fr : frame) (str size format ap : Z) : M bmem Z :=
  fun m =>
    match __v_printf swrite fr format ap (m, mk_sd str 0 (if nz size then size - 1 else 0)) with
    | Some (n, (m, _)) =>
        (when (nz str && nz size && (0 <=? n))
           (if negb (size =? 2 ^ 32 - 1) && (n >=? size) then stb (str + size - 1) 0 else stb (str + n) 0) ;;;
         ret n) m
    | None => None
    end.

Definition vsprintf (fr : frame) (dest format ap : Z) : M bmem Z := vsnprintf fr dest (2 ^ 32 - 1) format ap.
