(* ===== verification/PrintfSim.v ===== *)
(** * Formatted output to a buffer refines formatted output

    [record] is the function [put] that remembers everything it is given. A
    run of [__v_printf] with [record] determines a run of [vsnprintf]: the same
    value, and the output cut to the size of the buffer. The simulation is a
    logical relation on routines: [lsim] for those that use memory only, which
    work the same in a larger memory and with more fuel, and [psim] for those
    that write output. *)

From Stdlib Require Import ZArith Lia.
From stdpp Require Import base tactics gmap option list.
From S2P Require Import Prelude Bits Mem Bytes Cstring Cstdlib Printf.

Open Scope Z_scope.
Open Scope kernel_scope.

Definition bytes_ok (m : bmem) : Prop := map_Forall (fun _ b => byte b) m.

(** [q] does in a larger memory what [p] does, and leaves the rest alone. *)
Definition lsim {A} (p q : M bmem A) : Prop :=
  forall m F a m', m ##ₘ F -> bytes_ok m -> p m = Some (a, m') ->
  bytes_ok m' /\ dom m' = dom m /\ q (m ∪ F) = Some (a, m' ∪ F).

Lemma lsim_ret {A} (a : A) : lsim (ret a) (ret a).
Proof. intros m F b m' _ Hb [= <- <-]. done. Qed.

Lemma lsim_fault {A} (q : M bmem A) : lsim fault q.
Proof. by intros m F a m' _ _ E. Qed.

Lemma dom_disjoint (m m' F : bmem) : dom m' = dom m -> m ##ₘ F -> m' ##ₘ F.
Proof. intros E H. apply map_disjoint_dom. rewrite E. by apply map_disjoint_dom. Qed.

Lemma lsim_bind {A B} (p q : M bmem A) (f g : A -> M bmem B) :
  lsim p q -> (forall a, lsim (f a) (g a)) -> lsim (bind p f) (bind q g).
Proof.
  intros Hp Hf m F b m2 Hd Hb E. unfold bind in *. destruct (p m) as [[a m1]|] eqn:E1; [|done].
  destruct (Hp m F a m1 Hd Hb E1) as (Hb1 & Hd1 & ->).
  destruct (Hf a m1 F b m2 (dom_disjoint _ _ _ Hd1 Hd) Hb1 E) as (Hb2 & Hd2 & ->). split_and!; [done|congruence|done].
Qed.

Lemma lsim_ldb a : lsim (ldb a) (ldb a).
Proof.
  intros m F b m' Hd Hb E. unfold ldb in *. destruct (m !! a) as [c|] eqn:Em; [|done]. injection E as <- <-.
  by rewrite (lookup_union_Some_l _ _ _ _ Em).
Qed.

Lemma lsim_stb a v : lsim (stb a v) (stb a v).
Proof.
  intros m F b m' Hd Hb E. unfold stb in *. destruct (m !! a) as [c|] eqn:Em; [|done]. injection E as <- <-.
  rewrite (lookup_union_Some_l _ _ _ _ Em), insert_union_l. split_and!; [|by rewrite dom_insert_lookup_L|done].
  intros k x Hx. apply lookup_insert_Some in Hx as [[<- <-]|[_ Hx]]; [apply u8_byte|]. by eapply Hb.
Qed.

Lemma lsim_fuel {A} (f g : nat -> M bmem A) :
  (forall k k', (k <= k')%nat -> lsim (f k) (g k')) -> lsim (bind (gets byte_fuel) f) (bind (gets byte_fuel) g).
Proof.
  intros H m F a m' Hd Hb E. unfold bind, gets in *. eapply H; [|done..].
  unfold byte_fuel. rewrite <- !size_dom. apply le_n_S, subseteq_size. rewrite dom_union_L. set_solver.
Qed.

Lemma lsim_deref {A} (o : option A) : lsim (deref o) (deref o).
Proof. destruct o; [apply lsim_ret|apply lsim_fault]. Qed.

(** Relate two routines of the same shape statement by statement. *)
Ltac lsim_step :=
  match goal with
  | |- lsim (bind (gets byte_fuel) _) _ => apply lsim_fuel; intros ? ? ?
  | |- lsim (bind _ _) _ => apply lsim_bind; [|intros ?]
  | |- lsim (ret _) _ => apply lsim_ret
  | |- lsim fault _ => apply lsim_fault
  | |- lsim (ldb _) _ => apply lsim_ldb
  | |- lsim (stb _ _) _ => apply lsim_stb
  | |- lsim (deref _) _ => apply lsim_deref
  | |- lsim (when ?c _) _ => unfold when
  | |- lsim (match ?x with _ => _ end) _ => destruct x
  | |- lsim (let x := _ in _) _ => cbv zeta
  end.

Create HintDb lsim.
Ltac lsims := repeat first [lsim_step | solve [eauto with lsim lia]].

Lemma lsim_copy_up n d s : lsim (copy_up n d s) (copy_up n d s).
Proof. revert d s. induction n as [|n IH]; intros d s; cbn [copy_up]; lsims. Qed.

Lemma lsim_copy_down n d s : lsim (copy_down n d s) (copy_down n d s).
Proof. revert d s. induction n as [|n IH]; intros d s; cbn [copy_down]; lsims. Qed.

#[export] Hint Resolve lsim_copy_up lsim_copy_down : lsim.

Lemma lsim_memmove d s n : lsim (memmove d s n) (memmove d s n).
Proof. unfold memmove. lsims. Qed.

Lemma lsim_strlen_loop k k' s i : (k <= k')%nat -> lsim (strlen_loop k s i) (strlen_loop k' s i).
Proof.
  revert k' s i. induction k as [|k IH]; intros k' s i Hk; [apply lsim_fault|]. destruct k' as [|k']; [lia|]. cbn [strlen_loop]. lsims.
Qed.

#[export] Hint Resolve lsim_strlen_loop : lsim.

Lemma lsim_strlen s : lsim (strlen s) (strlen s).
Proof. unfold strlen. lsims. Qed.

Lemma lsim_ldc a : lsim (ldc a) (ldc a).
Proof. unfold ldc. lsims. Qed.

Lemma lsim_ldw a : lsim (ldw a) (ldw a).
Proof. unfold ldw. lsims. Qed.

#[export] Hint Resolve lsim_memmove lsim_strlen lsim_ldc lsim_ldw : lsim.

Lemma lsim_skip_space k k' p : (k <= k')%nat -> lsim (skip_space k p) (skip_space k' p).
Proof.
  revert k' p. induction k as [|k IH]; intros k' p Hk; [apply lsim_fault|]. destruct k' as [|k']; [lia|]. cbn [skip_space]. lsims.
Qed.

Lemma lsim_strtoul_loop k k' p v b o : (k <= k')%nat -> lsim (strtoul_loop k p v b o) (strtoul_loop k' p v b o).
Proof.
  revert k' p v o. induction k as [|k IH]; intros k' p v o Hk; [apply lsim_fault|]. destruct k' as [|k']; [lia|].
  cbn [strtoul_loop]. lsims.
Qed.

Lemma lsim_strtoul_base p b : lsim (strtoul_base p b) (strtoul_base p b).
Proof. unfold strtoul_base, skip0x. lsims. Qed.

#[export] Hint Resolve lsim_skip_space lsim_strtoul_loop lsim_strtoul_base : lsim.

Lemma lsim_strtoul_core p b : lsim (strtoul_core p b) (strtoul_core p b).
Proof. unfold strtoul_core. lsims. Qed.

Lemma lsim_strtol_sign p : lsim (strtol_sign p) (strtol_sign p).
Proof. unfold strtol_sign. lsims. Qed.

#[export] Hint Resolve lsim_strtoul_core lsim_strtol_sign : lsim.

Lemma lsim_strtol_core p b : lsim (strtol_core p b) (strtol_core p b).
Proof. unfold strtol_core. lsims. Qed.

Lemma lsim_ltostr_loop n tmp i b j up : lsim (ltostr_loop n tmp i b j up) (ltostr_loop n tmp i b j up).
Proof. revert tmp i j. induction n as [|n IH]; intros tmp i j; cbn [ltostr_loop]; lsims. Qed.

#[export] Hint Resolve lsim_strtol_core lsim_ltostr_loop : lsim.

Lemma lsim_tostr s n i b up : lsim (tostr s n i b up) (tostr s n i b up).
Proof. unfold tostr. lsims. Qed.

Lemma lsim_va_int ap : lsim (va_int ap) (va_int ap).
Proof. unfold va_int. lsims. Qed.

Lemma lsim_va_llong ap : lsim (va_llong ap) (va_llong ap).
Proof. unfold va_llong. lsims. Qed.

#[export] Hint Resolve lsim_tostr lsim_va_int lsim_va_llong : lsim.

Lemma lsim_skip_to_loop k k' p nr : (k <= k')%nat -> lsim (skip_to_loop k p nr) (skip_to_loop k' p nr).
Proof.
  revert k' nr. induction k as [|k IH]; intros k' nr Hk; [apply lsim_fault|]. destruct k' as [|k']; [lia|].
  cbn [skip_to_loop]. lsims.
Qed.

#[export] Hint Resolve lsim_skip_to_loop : lsim.

Lemma lsim_skip_to p : lsim (skip_to p) (skip_to p).
Proof. unfold skip_to. lsims. Qed.

Lemma lsim_inn_printf k k' p ap f : (k <= k')%nat -> lsim (inn_printf k p ap f) (inn_printf k' p ap f).
Proof.
  revert k' p ap f. induction k as [|k IH]; intros k' p ap f Hk; [apply lsim_fault|]. destruct k' as [|k']; [lia|].
  cbn [inn_printf]. lsims.
Qed.

Lemma lsim_num_printf fr b sz ap f : lsim (num_printf fr b sz ap f) (num_printf fr b sz ap f).
Proof. unfold num_printf, __ltostr, __lltostr. lsims. Qed.

Lemma lsim_hex_prefix fr ch f : lsim (hex_prefix fr ch f) (hex_prefix fr ch f).
Proof. unfold hex_prefix. lsims. Qed.

Lemma lsim_oct_prefix fr f : lsim (oct_prefix fr f) (oct_prefix fr f).
Proof. unfold oct_prefix. lsims. Qed.

#[export] Hint Resolve lsim_skip_to lsim_inn_printf lsim_num_printf lsim_hex_prefix lsim_oct_prefix : lsim.

(** ** Output *)

Fixpoint read_bytes (n : nat) (p : Z) : M bmem (list Z) :=
  match n with
  | O => ret []
  | S n => let* b := ldb p in let* l := read_bytes n (p + 1) in ret (b :: l)
  end.

(** The function [put] that remembers the output; a size is not negative. *)
Definition record (p sz : Z) : M (bmem * list Z) Z :=
  if sz <? 0 then fault else
  let* w := inmem (read_bytes (Z.to_nat sz) p) in
  modify (fun '(m, out) => (m, out ++ w)) ;;; ret sz.

Lemma read_bytes_spec n p m w m' : read_bytes n p m = Some (w, m') -> m' = m /\ length w = n /\ arr m p w.
Proof.
  revert p w. induction n as [|n IH]; intros p w E; cbn [read_bytes] in E.
  { injection E as <- <-. split_and!; [done..|apply arr_nil]. }
  unfold bind, ldb in E. destruct (m !! p) as [b|] eqn:Eb; [|done].
  destruct (read_bytes n (p + 1) m) as [[l m1]|] eqn:El; [|done]. injection E as <- <-.
  destruct (IH _ _ El) as (-> & Hl & Ha). split_and!; [done|simpl; lia|by apply arr_cons].
Qed.

Section sim.
Context (str size : Z).
Hypothesis Hstr : str <> NULL.
Hypothesis Hsize : 0 < size < 2 ^ 32.

(** [F] is the memory of the buffer, with the start of the output in it. *)
Definition sink_ok (out : list Z) (F : bmem) (sd : str_cdata) : Prop :=
  sd = mk_sd str (Z.min (Z.of_nat (length out)) (size - 1)) (size - 1) /\
  (forall x, is_Some (F !! x) <-> str <= x < str + size) /\
  arr F str (take (Z.to_nat (size - 1)) out).

Definition sink_rel (s : bmem * list Z) (t : bmem * str_cdata) : Prop :=
  exists F, fst s ##ₘ F /\ bytes_ok (fst s) /\ fst t = fst s ∪ F /\ sink_ok (snd s) F (snd t).

Definition psim {A} (p : M (bmem * list Z) A) (q : M (bmem * str_cdata) A) : Prop :=
  forall s t a s', sink_rel s t -> p s = Some (a, s') -> exists t', q t = Some (a, t') /\ sink_rel s' t'.

Lemma psim_ret {A} (a : A) : psim (ret a) (ret a).
Proof. intros s t b s' HR [= <- <-]. by exists t. Qed.

Lemma psim_fault {A} (q : M (bmem * str_cdata) A) : psim fault q.
Proof. by intros s t a s' _ E. Qed.

Lemma psim_bind {A B} (p : M _ A) (q : M _ A) (f : A -> M _ B) (g : A -> M _ B) :
  psim p q -> (forall a, psim (f a) (g a)) -> psim (bind p f) (bind q g).
Proof.
  intros Hp Hf s t b s2 HR E. unfold bind in *. destruct (p s) as [[a s1]|] eqn:E1; [|done].
  destruct (Hp _ _ _ _ HR E1) as (t1 & -> & HR1). exact (Hf a _ _ _ _ HR1 E).
Qed.

Lemma psim_inmem {A} (p q : M bmem A) : lsim p q -> psim (inmem p) (inmem q).
Proof.
  intros Hp [m out] [M0 sd] a [m' out'] (F & Hd & Hb & EM & Hs) E. cbn [fst snd] in *. subst M0.
  unfold inmem, zoom in *. cbn [fst snd] in *. destruct (p m) as [[a1 m1]|] eqn:E1; [|done]. injection E as <- <- <-.
  destruct (Hp _ _ _ _ Hd Hb E1) as (Hb1 & Hd1 & E2). rewrite E2. eexists. split; [done|].
  exists F. cbn [fst snd]. split_and!; [by eapply dom_disjoint|done..].
Qed.

Lemma psim_fuel {A} (f : nat -> M (bmem * list Z) A) g :
  (forall k k', (k <= k')%nat -> psim (f k) (g k')) -> psim (bind (inmem (gets byte_fuel)) f) (bind (inmem (gets byte_fuel)) g).
Proof.
  intros H s t a s' HR E. pose proof HR as (F & _ & _ & EM & _).
  unfold bind, inmem, zoom, gets in *. destruct s as [m out], t as [M0 sd]. cbn [fst snd] in *.
  refine (H (byte_fuel m) (byte_fuel M0) _ _ _ _ _ HR E).
  subst M0. unfold byte_fuel. rewrite <- !size_dom. apply le_n_S, subseteq_size. rewrite dom_union_L. set_solver.
Qed.

(** The part of a memory that belongs to the buffer. *)
Definition buffer_of (m : bmem) : bmem := filter (fun '(k, _) => str <= k < str + size) m.

Lemma buffer_split m F m' a n : m ##ₘ F -> (forall x, is_Some (F !! x) <-> str <= x < str + size) ->
  only (m ∪ F) m' a n -> str <= a -> a + n <= str + size -> 0 <= n ->
  m ##ₘ buffer_of m' /\ m' = m ∪ buffer_of m' /\
  (forall x, is_Some (buffer_of m' !! x) <-> str <= x < str + size) /\
  (forall x, str <= x < str + size -> buffer_of m' !! x = m' !! x).
Proof.
  intros Hd HF [Ho1 Ho2] Ha Hn H0.
  assert (forall x, str <= x < str + size -> buffer_of m' !! x = m' !! x) as Hin.
  { intros x Hx. unfold buffer_of. apply option_eq. intros y. rewrite map_lookup_filter_Some. naive_solver. }
  assert (forall x, ~ (str <= x < str + size) -> buffer_of m' !! x = None) as Hout.
  { intros x Hx. unfold buffer_of. apply map_lookup_filter_None. right. intros y _. done. }
  assert (forall x, str <= x < str + size -> m !! x = None) as Hm.
  { intros x Hx. destruct (HF x) as [_ [y Hy]]; [done|]. by eapply map_disjoint_Some_r. }
  split_and!.
  - apply map_disjoint_spec. intros x y z Hy Hz. destruct (decide (str <= x < str + size)) as [Hx|Hx].
    + by rewrite Hm in Hy. + by rewrite Hout in Hz.
  - apply map_eq. intros x. destruct (decide (str <= x < str + size)) as [Hx|Hx].
    + rewrite lookup_union_r by auto. symmetry. auto.
    + rewrite lookup_union_l by auto. rewrite Ho2 by lia. apply lookup_union_l.
      destruct (F !! x) as [y|] eqn:E; [|done]. exfalso. apply Hx, HF. by exists y.
  - intros x. destruct (decide (str <= x < str + size)) as [Hx|Hx].
    + rewrite Hin, Ho1 by done. split; [done|]. intros _. destruct (HF x) as [_ [y Hy]]; [done|].
      exists y. by apply lookup_union_Some_r.
    + rewrite Hout by done. split; [by intros [? ?]|done].
  - done.
Qed.

Lemma ranges_apart (m F : bmem) a n b : m ##ₘ F -> mapped m a n -> mapped F b n -> 0 <= n -> apart b n a n.
Proof.
  intros Hd Hm HF Hn. unfold apart. destruct (decide (b + n <= a \/ a + n <= b)) as [|Hx]; [done|]. exfalso.
  destruct (Hm (Z.max a b)) as [x Ex]; [lia|]. destruct (HF (Z.max a b)) as [y Ey]; [lia|].
  by eapply map_disjoint_spec in Hd.
Qed.

Lemma arr_union_l (m F : bmem) a l : arr m a l -> arr (m ∪ F) a l.
Proof. intros H i b E. apply lookup_union_Some_l. by apply H. Qed.

Lemma arr_union_r (m F : bmem) a l : m ##ₘ F -> arr F a l -> arr (m ∪ F) a l.
Proof. intros Hd H i b E. apply lookup_union_Some_r; [done|]. by apply H. Qed.

Lemma arr_bytes m a l : bytes_ok m -> arr m a l -> Forall byte l.
Proof. intros Hb H. apply Forall_lookup. intros i b E. eapply Hb, H, E. Qed.

Lemma arr_take m a l n : arr m a l -> arr m a (take n l).
Proof. intros H i b E. apply lookup_take_Some in E as [E _]. by apply H. Qed.

(** [memcpy] and the end of the string, in the buffer. *)
Lemma wp_append m F p out w (Q : unit -> bmem -> Prop) :
  m ##ₘ F -> bytes_ok m -> (forall x, is_Some (F !! x) <-> str <= x < str + size) -> arr m p w -> arr F str out ->
  let L := Z.of_nat (length out) in let n := Z.of_nat (length w) in L + n <= size - 1 ->
  (forall m', only (m ∪ F) m' (str + L) (n + 1) -> arr m' str (out ++ w) -> Q tt m') ->
  wp (let* _ := memcpy (str + L) p n in stb (str + L + n) 0) Q (m ∪ F).
Proof.
  intros Hd Hb HF Hw Ho L n Hn HQ.
  assert (mapped F (str + L) n) as HmF. { intros x Hx. apply HF. lia. }
  assert (forall x, str <= x < str + size -> is_Some ((m ∪ F) !! x)) as Hmap.
  { intros x Hx. destruct (HF x) as [_ [y Hy]]; [done|]. exists y. by apply lookup_union_Some_r. }
  apply wp_bind. apply (wp_memcpy w); [by eapply arr_bytes|by apply arr_union_l|done| | |].
  - intros x Hx. apply Hmap. lia.
  - eapply ranges_apart; [exact Hd| |exact HmF|lia]. by apply arr_mapped.
  - intros m1 Ha Hon. apply wp_stb; [apply Hon, Hmap; lia|]. apply HQ.
    + eapply only_trans; [eapply only_weaken; [exact Hon|lia..]|]. apply only_insert; [apply Hon, Hmap; lia|lia].
    + apply arr_app. split.
      * apply arr_insert_out; [|right; unfold L, n; lia]. eapply arr_only; [exact Hon| |by apply arr_union_r]. unfold apart. lia.
      * apply arr_insert_out; [done|]. fold L. fold n. lia.
Qed.

Lemma psim_put p sz : psim (record p sz) (swrite p sz).
Proof.
  intros [m out] [M0 sd] a s' (F & Hd & Hb & EM & Esd & HF & Ho) E. cbn [fst snd] in *. subst M0 sd.
  unfold record in E. destruct (Z.ltb_spec sz 0) as [|Hsz]; [done|].
  unfold bind, inmem, zoom, modify, ret in E. cbn [fst snd] in E.
  destruct (read_bytes (Z.to_nat sz) p m) as [[w m1]|] eqn:Ew; [|done]. injection E as <- <-.
  apply read_bytes_spec in Ew as (-> & Hl & Hw). unfold swrite, bind, gets. cbn [snd sd_size sd_len sd_str].
  set (L := Z.of_nat (length out)) in *. 
  assert (u32 (size - 1 - Z.min L (size - 1)) = size - 1 - Z.min L (size - 1)) as -> by (unfold u32, wrapu; rewrite Z.mod_small; lia).
  rewrite Z.gtb_ltb. destruct (Z.ltb_spec 0 (size - 1 - Z.min L (size - 1))) as [Ht|Ht]; cbn [when].
  - replace (Z.min L (size - 1)) with L in * by lia.
    replace (nz str) with true by (unfold nz; by destruct (Z.eqb_spec str 0)). cbn [when].
    set (w1 := take (Z.to_nat (size - 1 - L)) w).
    replace (if sz >? size - 1 - L then size - 1 - L else sz) with (Z.of_nat (length w1)).
    2: { unfold w1. rewrite length_take, Z.gtb_ltb. destruct (Z.ltb_spec (size - 1 - L) sz); lia. }
    rewrite take_ge in Ho by lia.
    pose proof (wp_append m F p out w1) as Hap. unfold wp, bind, inmem, zoom, modify, ret, when in *. cbn [fst snd] in *.
    assert (Z.of_nat (length w1) <= size - 1 - L /\ Z.of_nat (length w1) <= sz) as [Hw1 Hw2] by (unfold w1; rewrite length_take; lia).
    specialize (Hap (fun _ m' => only (m ∪ F) m' (str + L) (Z.of_nat (length w1) + 1) /\ arr m' str (out ++ w1))
      Hd Hb HF ltac:(by apply arr_take) Ho ltac:(fold L; lia) ltac:(done)). fold L in Hap.
    destruct (memcpy _ _ _ (m ∪ F)) as [[? m2]|]; [|done]. destruct (stb _ _ m2) as [[? m3]|]; [|done].
    destruct Hap as [Hon Ha3]. eexists. split; [done|].
    destruct (buffer_split m F m3 (str + L) (Z.of_nat (length w1) + 1)) as (B1 & B2 & B3 & B4); [done..|lia|lia|lia|].
    exists (buffer_of m3). cbn [fst snd]. split; [done|]. split; [done|]. split; [done|]. split; [|split; [exact B3|]].
    + rewrite length_app. unfold u32, wrapu. cbn [sd_str sd_len sd_size]. rewrite Z.mod_small by lia. f_equal. unfold w1. rewrite length_take. lia.
    + rewrite take_app_ge by lia. replace (Z.to_nat (size - 1) - length out)%nat with (Z.to_nat (size - 1 - L)) by lia. fold w1.
      intros i b E. rewrite B4; [by apply Ha3|]. apply lookup_lt_Some in E. rewrite length_app in E. lia.
  - eexists. split; [done|]. exists F. cbn [fst snd]. do 3 (split; [done|]). split; [|split; [done|]].
    + rewrite length_app. f_equal. lia.
    + rewrite take_app_le by lia. done.
Qed.

(** Relate two routines that write output, statement by statement. *)
Ltac psim_step :=
  match goal with
  | |- psim (bind (inmem (gets byte_fuel)) _) _ => apply psim_fuel; intros ? ? ?
  | |- psim (bind _ _) _ => apply psim_bind; [|intros ?]
  | |- psim (ret _) _ => apply psim_ret
  | |- psim fault _ => apply psim_fault
  | |- psim (inmem _) _ => apply psim_inmem; lsims
  | |- psim (record _ _) _ => apply psim_put
  | |- psim (A_WRITE _ _ _) _ => unfold A_WRITE
  | |- psim (match ?x with _ => _ end) _ => destruct x
  | |- psim (let x := _ in _) _ => cbv zeta
  end.

Ltac psims := repeat first [psim_step | solve [eauto with lia]].

Variable fr : frame.

Lemma psim_write_pad len pad : psim (write_pad record fr len pad) (write_pad swrite fr len pad).
Proof.
  unfold write_pad. generalize 0. generalize (S (Z.to_nat len)). intros k. revert len.
  induction k as [|k IH]; intros len nr; cbn [write_pad_loop]; psims.
Qed.

Lemma psim_write_sign s todo len : psim (write_sign record s todo len) (write_sign swrite s todo len).
Proof. unfold write_sign. psims. Qed.

#[local] Hint Resolve psim_write_pad psim_write_sign : core.

Lemma psim_print_out s sz len f : psim (print_out record fr s sz len f) (print_out swrite fr s sz len f).
Proof. unfold print_out. psims. Qed.

#[local] Hint Resolve psim_print_out : core.

Lemma psim_convert ch ap len f : psim (convert record fr ch ap len f) (convert swrite fr ch ap len f).
Proof. unfold convert. psims. Qed.

#[local] Hint Resolve psim_convert : core.

Lemma psim_v_printf_loop k k' p ap len : (k <= k')%nat ->
  psim (v_printf_loop record fr k p ap len) (v_printf_loop swrite fr k' p ap len).
Proof.
  revert k' p ap len. induction k as [|k IH]; intros k' p ap len Hk; [apply psim_fault|]. destruct k' as [|k']; [lia|].
  cbn [v_printf_loop]. psims.
Qed.

Lemma psim_v_printf p ap : psim (__v_printf record fr p ap) (__v_printf swrite fr p ap).
Proof. unfold __v_printf. psims. by apply psim_v_printf_loop. Qed.

End sim.

(** ** The count is the length of the output *)

(** Every run of [p] appends some [w] to the output, with [R] between its value
    and the length of [w]. *)
Definition grows {A} (p : M (bmem * list Z) A) (R : A -> Z -> Prop) : Prop :=
  forall m out a s', p (m, out) = Some (a, s') ->
  exists w, snd s' = out ++ w /\ R a (Z.of_nat (length w)).

Lemma grows_ret {A} (a : A) (R : A -> Z -> Prop) : R a 0 -> grows (ret a) R.
Proof. intros HR m out b s' [= <- <-]. exists []. by rewrite app_nil_r. Qed.

Lemma grows_bind {A B} (p : M _ A) (f : A -> M _ B) R R' :
  grows p R -> (forall a g, 0 <= g -> R a g -> grows (f a) (fun b h => R' b (g + h))) -> grows (bind p f) R'.
Proof.
  intros Hp Hf m out b s' E. unfold bind in E. destruct (p (m, out)) as [[a [m1 out1]]|] eqn:E1; [|done].
  destruct (Hp _ _ _ _ E1) as (w1 & Ew1 & HR). cbn [snd] in Ew1. subst out1.
  destruct (Hf a _ (Nat2Z.is_nonneg _) HR _ _ _ _ E) as (w2 & Ew2 & HR2). exists (w1 ++ w2).
  by rewrite app_assoc, length_app, Nat2Z.inj_add.
Qed.

Lemma grows_inmem {A} (p : M bmem A) : grows (inmem p) (fun _ g => g = 0).
Proof.
  intros m out a s' E. unfold inmem, zoom in E. cbn [fst snd] in E. destruct (p m) as [[b m1]|]; [|done].
  injection E as <- <-. exists []. by rewrite app_nil_r.
Qed.

Lemma grows_fault {A} (R : A -> Z -> Prop) : grows fault R.
Proof. by intros m out a s' E. Qed.

Lemma grows_write p sz : grows (A_WRITE record p sz) (fun _ g => g = sz).
Proof.
  intros m out a s' E. unfold A_WRITE, record, bind, inmem, zoom, modify, ret in E. cbn [fst snd] in E.
  destruct (Z.ltb_spec sz 0); [done|]. cbn [fst snd] in E. destruct (read_bytes (Z.to_nat sz) p m) as [[w m1]|] eqn:Ew; [|done].
  injection E as <- <-. apply read_bytes_spec in Ew as (-> & Hl & _). exists w. split; [done|]. lia.
Qed.

Lemma grows_mono {A} (p : M _ A) (R R' : A -> Z -> Prop) :
  grows p R -> (forall a g, 0 <= g -> R a g -> R' a g) -> grows p R'.
Proof. intros Hp HR m out a s' E. destruct (Hp _ _ _ _ E) as (w & Ew & H). exists w. split; [done|]. apply HR; [lia|done]. Qed.

Lemma i32_add_l x y : i32 (i32 x + y) = i32 (x + y).
Proof. apply i32_cong. by rewrite Zplus_mod, i32_mod, <- Zplus_mod. Qed.

Lemma i32_add_l2 x y z : i32 (i32 x + y + z) = i32 (x + y + z).
Proof. rewrite <- !Z.add_assoc. apply i32_add_l. Qed.

Lemma i32_add_l3 x y z u : i32 (i32 x + y + z + u) = i32 (x + y + z + u).
Proof. rewrite <- !Z.add_assoc. apply i32_add_l. Qed.

Section count.
Variable fr : frame.

Lemma grows_write_pad_loop k len nr pad :
  grows (write_pad_loop record fr k len nr pad) (fun r g => r = nr + g).
Proof.
  revert len nr. induction k as [|k IH]; intros len nr; [apply grows_fault|]. cbn [write_pad_loop].
  destruct (len >? 15).
  { eapply grows_bind; [apply grows_write|]. intros _ g _ ->. eapply grows_mono; [apply IH|]. simpl. lia. }
  destruct (len >? 0); [|apply grows_ret; lia].
  eapply grows_bind; [apply grows_write|]. intros _ g _ ->. apply grows_ret. lia.
Qed.

Lemma grows_write_pad len pad : grows (write_pad record fr len pad) (fun r g => r = g).
Proof. apply grows_write_pad_loop. Qed.

Lemma grows_write_sign s todo len : i32 len = len ->
  grows (write_sign record s todo len) (fun r g => r = i32 (len + g)).
Proof.
  intros Hl. unfold write_sign. destruct (nz todo); [|apply grows_ret; by rewrite Z.add_0_r].
  eapply grows_bind; [apply grows_write|]. intros _ g _ ->. apply grows_ret. f_equal. lia.
Qed.

Lemma i32_idem x : i32 (i32 x) = i32 x.
Proof. apply i32_cong, i32_mod. Qed.

(** One more statement of a routine that counts. *)
Ltac count_step :=
  match goal with
  | |- grows (bind (write_pad _ _ _ _) _) _ => eapply grows_bind; [apply grows_write_pad|intros ? ? _ ->]
  | |- grows (bind (write_sign _ _ _ _) _) _ => eapply grows_bind; [apply grows_write_sign; rewrite ?i32_idem; done|intros ? ? _ ->]
  | |- grows (bind (A_WRITE _ _ _) _) _ => eapply grows_bind; [apply grows_write|intros ? ? _ ->]
  | |- grows (bind (inmem _) _) _ => eapply grows_bind; [apply grows_inmem|intros ? ? _ ->]
  | |- grows (ret _) _ => apply grows_ret; rewrite ?i32_add_l, ?i32_add_l2, ?i32_add_l3; f_equal; lia
  end.

Lemma grows_print_out s sz len f : i32 len = len ->
  grows (print_out record fr s sz len f) (fun r g => r = i32 (len + g)).
Proof.
  intros Hl. unfold print_out. destruct (negb _); [repeat count_step|]. cbv zeta. destruct (negb (flag_left f)).
  - eapply grows_bind with (R := fun r g => r = i32 (len + g)).
    + destruct (flag_dot f); [repeat count_step|]. do 2 count_step.
      eapply grows_mono; [apply grows_write_sign, i32_idem|]. intros r g' _ ->. rewrite ?i32_add_l, ?i32_add_l2, ?i32_add_l3. f_equal. lia.
    + intros r g _ ->. repeat count_step.
  - repeat count_step.
Qed.

Lemma grows_number base sz ap len f : i32 len = len ->
  grows (let* '(s, sz, ap, f) := inmem (num_printf fr base sz ap f) in
         let* len := print_out record fr s sz len f in ret (len, ap)) (fun r g => fst r = i32 (len + g)).
Proof.
  intros Hl. count_step. match goal with |- context [match ?x with _ => _ end] => destruct x as [[[s' sz'] ap'] f'] end.
  eapply grows_bind; [by apply grows_print_out|]. intros r g _ ->. apply grows_ret. simpl. f_equal; lia.
Qed.

Lemma grows_convert ch ap len f : i32 len = len ->
  grows (convert record fr ch ap len f) (fun r g => fst r = i32 (len + g)).
Proof.
  intros Hl. unfold convert. cbv zeta. pose proof (fun b sz ap f => grows_number b sz ap len f Hl) as Hn.
  assert (forall A (p : M bmem A) (k : A -> M (bmem * list Z) (Z * Z)),
    (forall a, grows (k a) (fun r g => fst r = i32 (len + g))) -> grows (bind (inmem p) k) (fun r g => fst r = i32 (len + g))) as Hi.
  { intros A p k Hk. eapply grows_bind; [apply grows_inmem|]. intros a g _ ->. eapply grows_mono; [apply Hk|]. simpl. intros r h _ ->. by rewrite Z.add_0_l. }
  repeat match goal with |- grows (if ?b then _ else _) _ => destruct b end;
    first [apply Hn | apply Hi; intros [? ?]; try apply Hn | idtac].
  - apply Hi. intros _. count_step. apply grows_ret. simpl. f_equal; lia.
  - apply Hi. intros _. count_step. apply grows_ret. simpl. f_equal; lia.
  - apply Hi. intros sz. eapply grows_bind; [by apply grows_print_out|]. intros r g _ ->. apply grows_ret. simpl. f_equal; lia.
  - apply grows_ret. simpl. by rewrite Z.add_0_r.
Qed.

Lemma grows_v_printf_loop k p ap len : i32 len = len ->
  grows (v_printf_loop record fr k p ap len) (fun r g => r = -1 \/ r = i32 (len + g)).
Proof.
  revert p ap len. induction k as [|k IH]; intros p ap len Hl; [apply grows_fault|]. cbn [v_printf_loop].
  count_step. destruct (negb _); [apply grows_ret; rewrite Z.add_0_r; by right|]. count_step.
  eapply grows_bind with (R := fun _ g => g = a0).
  { unfold nz. destruct (Z.eqb_spec a0 0) as [->|]; simpl; [by apply grows_ret|]. apply grows_write. }
  intros _ g _ ->. count_step. set (len1 := i32 (len + a0)). assert (i32 len1 = len1) as Hl1 by apply i32_idem.
  assert (forall p ap, grows (v_printf_loop record fr k p ap len1) (fun r h => r = -1 \/ r = i32 (len + (0 + (0 + (a0 + (0 + h))))))) as Hloop.
  { intros p' ap'. eapply grows_mono; [by apply IH|]. intros r h _ [->| ->]; [by left|right]. unfold len1. rewrite i32_add_l. f_equal. lia. }
  destruct (a1 =? 37); [|apply Hloop]. do 2 count_step. destruct a3 as [|ch p' ap' f]; [apply grows_ret; by left|].
  eapply grows_bind; [by apply grows_convert|]. intros [len2 ap2] g _ E. simpl in E. subst len2.
  eapply grows_mono; [apply IH, i32_idem|]. intros r h _ [->| ->]; [by left|right]. unfold len1. rewrite ?i32_add_l, ?i32_add_l2, ?i32_add_l3. f_equal. lia.
Qed.

Lemma grows_v_printf p ap : grows (__v_printf record fr p ap) (fun r g => r = -1 \/ r = i32 g).
Proof.
  unfold __v_printf. count_step. eapply grows_mono; [by apply grows_v_printf_loop|]. done.
Qed.
End count.

(** ** vsnprintf *)

(** A store inside the buffer. *)
Lemma stb_buffer str size (m F : bmem) x v : 0 < size ->
  m ##ₘ F -> (forall x, is_Some (F !! x) <-> str <= x < str + size) -> str <= x < str + size ->
  exists F', stb x v (m ∪ F) = Some (tt, m ∪ F') /\ m ##ₘ F' /\
    (forall y, is_Some (F' !! y) <-> str <= y < str + size) /\ F' !! x = Some (u8 v) /\
    forall y, y <> x -> F' !! y = F !! y.
Proof.
  intros Hs Hd HF Hx. destruct (HF x) as [_ [b Eb]]; [done|].
  assert (m !! x = None) as Hm by (by eapply map_disjoint_Some_r).
  exists (<[x := u8 v]> F). unfold stb. rewrite (lookup_union_r m F x Hm), Eb, insert_union_r by done. split_and!; [done| | | |].
  - by apply map_disjoint_insert_r.
  - intros y. destruct (decide (x = y)) as [<-|Hne]; [rewrite lookup_insert_eq|rewrite lookup_insert_ne by done; apply HF].
    split; [done|]. intros _. by exists (u8 v).
  - apply lookup_insert_eq.
  - intros y Hy. by apply lookup_insert_ne.
Qed.

Lemma vsnprintf_record fr str size format ap m F n m' out :
  str <> NULL -> 0 < size < 2 ^ 32 - 1 -> (forall x, is_Some (F !! x) <-> str <= x < str + size) ->
  m ##ₘ F -> bytes_ok m -> Z.of_nat (length out) < 2 ^ 31 ->
  __v_printf record fr format ap (m, []) = Some (n, (m', out)) ->
  exists F', vsnprintf fr str size format ap (m ∪ F) = Some (n, m' ∪ F') /\ m' ##ₘ F' /\
    (forall x, is_Some (F' !! x) <-> str <= x < str + size) /\
    ((n = -1 /\ arr F' str (take (Z.to_nat (size - 1)) out)) \/
     (n = Z.of_nat (length out) /\ arr F' str (take (Z.to_nat (size - 1)) out ++ [0]))).
Proof.
  intros Hstr Hsize HF Hd Hb Hout E.
  assert (n = -1 \/ n = Z.of_nat (length out)) as Hn.
  { destruct (grows_v_printf fr format ap _ _ _ _ E) as (w & Ew & Hr). simpl in Ew. subst w.
    rewrite i32_small in Hr by lia. done. }
  assert (sink_rel str size (m, []) (m ∪ F, mk_sd str 0 (size - 1))) as HR.
  { exists F. cbn [fst snd length]. do 3 (split; [done|]). split; [|split; [done|]].
    - f_equal. simpl. lia.
    - rewrite take_nil. apply arr_nil. }
  destruct (psim_v_printf str size Hstr ltac:(lia) fr format ap _ _ _ _ HR E) as ([m1 sd1] & E1 & F1 & H1 & _ & H2 & _ & H4 & H5).
  cbn [fst snd] in *. subst m1. unfold vsnprintf.
  assert (nz size = true) as Es by (unfold nz; destruct (Z.eqb_spec size 0); [lia|done]).
  assert (nz str = true) as Et by (unfold nz; destruct (Z.eqb_spec str 0); [done|done]).
  rewrite Es, E1, Et. cbn [andb]. destruct Hn as [->| ->].
  { cbn. exists F1. split; [done|]. split; [done|]. split; [done|]. by left. }
  destruct (Z.leb_spec 0 (Z.of_nat (length out))); [|lia]. unfold when, bind.
  destruct (Z.eqb_spec size (2 ^ 32 - 1)); [lia|]. cbn [negb andb]. rewrite Z.geb_leb.
  set (k := Z.min (Z.of_nat (length out)) (size - 1)).
  assert ((if size <=? Z.of_nat (length out) then stb (str + size - 1) 0 else stb (str + Z.of_nat (length out)) 0) = stb (str + k) 0) as ->.
  { unfold k. destruct (Z.leb_spec size (Z.of_nat (length out))); f_equal; lia. }
  destruct (stb_buffer str size m' F1 (str + k) 0) as (F2 & -> & G1 & G2 & G3 & G4); [lia|done|done|unfold k; lia|].
  exists F2. split; [done|]. split; [done|]. split; [done|]. right. split; [done|].
  assert (Z.of_nat (length (take (Z.to_nat (size - 1)) out)) = k) as Hk by (rewrite length_take; unfold k; lia).
  apply arr_app. split.
  - intros i b Ei. rewrite G4; [by apply H5|]. apply lookup_lt_Some in Ei. lia.
  - rewrite Hk. apply arr_cons. split; [done|apply arr_nil].
Qed.

(** ** The output of some formats *)

(** Text without a conversion is copied. *)
Lemma wp_skip_to_loop l z m q nr k (Q : Z -> bmem -> Prop) :
  arr m (q + nr) (l ++ [z]) -> Forall (fun b => 0 < b < 256 /\ b <> 37) l -> z = 0 \/ z = 37 -> (length l < k)%nat ->
  Q (nr + Z.of_nat (length l)) m -> wp (skip_to_loop k q nr) Q m.
Proof.
  revert nr k. induction l as [|b l IH]; intros nr k Ha Hl Hz Hk HQ; (destruct k as [|k]; [simpl in Hk; lia|]);
    cbn [skip_to_loop app length] in *; apply arr_cons in Ha as [E Ha]; apply wp_bind, (wp_ldb _ _ _ _ E).
  - rewrite Z.add_0_r in HQ. by destruct Hz as [->| ->].
  - apply Forall_cons in Hl as [[Hb1 Hb2] Hl]. rewrite nz_pos by done. destruct (Z.eqb_spec b 37); [done|]. simpl.
    apply IH; [by replace (q + (nr + 1)) with (q + nr + 1) by lia|done|done|lia|].
    by replace (nr + 1 + Z.of_nat (length l)) with (nr + Z.of_nat (S (length l))) by lia.
Qed.

Lemma wp_skip_to l z m q (Q : Z -> bmem -> Prop) :
  arr m q (l ++ [z]) -> Forall (fun b => 0 < b < 256 /\ b <> 37) l -> z = 0 \/ z = 37 ->
  Q (Z.of_nat (length l)) m -> wp (skip_to q) Q m.
Proof.
  intros Ha Hl Hz HQ. unfold skip_to. apply wp_bind, wp_gets. apply (wp_skip_to_loop l z); rewrite ?Z.add_0_r; [done..| |done].
  apply arr_fuel in Ha. rewrite length_app in Ha. simpl in Ha. lia.
Qed.

Lemma wp_inmem {D A} (p : M bmem A) m (d : D) (Q : A -> bmem * D -> Prop) :
  wp p (fun a m' => Q a (m', d)) m -> wp (inmem p) Q (m, d).
Proof. unfold wp, inmem, zoom. cbn [fst snd]. by destruct (p m) as [[a m']|]. Qed.

Lemma wp_read_bytes w m p (Q : list Z -> bmem -> Prop) : arr m p w -> Q w m -> wp (read_bytes (length w) p) Q m.
Proof.
  revert p Q. induction w as [|b w IH]; intros p Q Ha HQ; cbn [length read_bytes]; [done|].
  apply arr_cons in Ha as [E Ha]. apply wp_bind, (wp_ldb _ _ _ _ E), wp_bind, IH; [done|]. by apply wp_ret.
Qed.

Lemma wp_write w m out p n (Q : unit -> bmem * list Z -> Prop) :
  arr m p w -> n = Z.of_nat (length w) -> Q tt (m, out ++ w) -> wp (A_WRITE record p n) Q (m, out).
Proof.
  intros Ha -> HQ. unfold A_WRITE. apply wp_bind. unfold record. destruct (Z.ltb_spec (Z.of_nat (length w)) 0); [lia|].
  rewrite Nat2Z.id. apply wp_bind, wp_inmem, wp_read_bytes; [done|]. apply wp_bind, wp_modify, wp_ret. by apply wp_ret.
Qed.

(** The text before the first conversion, or the whole format. *)
Lemma wp_v_printf_text fr l z k m out format ap len (Q : Z -> bmem * list Z -> Prop) :
  arr m format (l ++ [z]) -> Forall (fun b => 0 < b < 256 /\ b <> 37) l -> z = 0 \/ z = 37 -> l <> [] \/ z = 37 ->
  wp (let* c := inmem (ldb (format + Z.of_nat (length l))) in
      if c =? 37 then
        let* n := inmem (gets byte_fuel) in
        let* r := inmem (inn_printf n (format + Z.of_nat (length l) + 1) ap spec0) in
        match r with
        | CBad => ret (-1)
        | CConv ch format ap f =>
            let* '(len, ap) := convert record fr ch ap (i32 (len + Z.of_nat (length l))) f in
            v_printf_loop record fr k format ap len
        end
      else v_printf_loop record fr k (format + Z.of_nat (length l)) ap (i32 (len + Z.of_nat (length l)))) Q (m, out ++ l) ->
  wp (v_printf_loop record fr (S k) format ap len) Q (m, out).
Proof.
  intros Ha Hl Hz Hne HQ. cbn [v_printf_loop]. apply wp_bind, wp_inmem.
  assert (exists c, m !! format = Some c /\ nz c = true) as (c & E & Hc).
  { destruct l as [|b l]; apply arr_cons in Ha as [E _].
    - exists z. split; [done|]. by destruct Hne as [?| ->].
    - exists b. split; [done|]. apply Forall_cons in Hl as [[Hb _] _]. by apply nz_pos. }
  apply (wp_ldb _ _ _ _ E). rewrite Hc. cbn [negb]. apply wp_bind, wp_inmem, (wp_skip_to l z); [done..|].
  apply wp_bind. unfold nz. destruct (Z.eqb_spec (Z.of_nat (length l)) 0) as [E0|E0]; cbn [negb].
  - destruct l; [|simpl in E0; lia]. rewrite app_nil_r in HQ. by apply wp_ret.
  - apply (wp_write l); [by apply arr_app in Ha as [Ha _]|done|]. exact HQ.
Qed.

(** The decimal numeral of an integer. *)
Definition decimal (v : Z) : list Z :=
  (if v <? 0 then [45] else []) ++ (chr false <$> numeral 10 (Z.abs v)).

Lemma numeral_length v : 0 <= v < 10 ^ 10 -> (length (numeral 10 v) <= 10)%nat.
Proof.
  intros Hv. destruct (Z.eq_dec v 0) as [->|Hne]; [simpl; lia|].
  rewrite <- (digits_numeral 10) by lia. apply digits_length.
Qed.

Lemma decimal_length v : - 2 ^ 31 <= v < 2 ^ 31 -> (length (decimal v) <= 11)%nat.
Proof.
  intros Hv. unfold decimal. rewrite length_app, length_fmap. pose proof (numeral_length (Z.abs v) ltac:(lia)).
  destruct (v <? 0); simpl; lia.
Qed.

Lemma u32_abs v : - 2 ^ 31 <= v < 2 ^ 31 -> u32 (if v <? 0 then i32 (- v) else v) = Z.abs v.
Proof.
  intros Hv. destruct (Z.ltb_spec v 0).
  - unfold u32, wrapu. rewrite i32_mod, Z.mod_small by lia. lia.
  - unfold u32, wrapu. rewrite Z.mod_small by lia. lia.
Qed.

(** The digits of an [int] argument of a decimal conversion, in [buf]. *)
Lemma wp_num_printf_d fr m ap v (Q : Z * Z * Z * spec -> bmem -> Prop) :
  - 2 ^ 31 <= v < 2 ^ 31 -> arr m ap (word_bytes v) -> mapped m (f_buf fr) 128 ->
  (forall m' s f, arr m' s (decimal v) -> only m m' (f_buf fr) 128 -> width f = 0 -> preci f = 0 ->
     Q (s, Z.of_nat (length (decimal v)), ap + 4, f) m') ->
  wp (num_printf fr 10 0 ap (set_in_sign 1 spec0)) Q m.
Proof.
  intros Hv Ha Hm HQ. unfold num_printf. cbn [flag_long set_in_sign spec0]. change (0 >? 1) with false. cbv beta iota zeta.
  apply wp_bind. unfold va_int. apply wp_bind, (wp_ldw _ _ v); [done|]. apply wp_ret. cbv beta iota.
  replace (i32 (u32 v)) with v. 2: { unfold u32, wrapu. rewrite <- (i32_small v Hv) at 1. apply i32_cong. by rewrite Zmod_mod. }
  change (nz (flag_in_sign (set_in_sign 1 spec0))) with true. cbn [andb].
  replace (flag_long (if v <? 0 then set_in_sign 2 (set_in_sign 1 spec0) else set_in_sign 1 spec0)) with 0 by (by destruct (v <? 0)).
  replace (flag_upcase (if v <? 0 then set_in_sign 2 (set_in_sign 1 spec0) else set_in_sign 1 spec0)) with false by (by destruct (v <? 0)).
  replace (flag_dot (if v <? 0 then set_in_sign 2 (set_in_sign 1 spec0) else set_in_sign 1 spec0)) with false by (by destruct (v <? 0)).
  change (0 <? 0) with false. change (0 <? -1) with false. cbv beta iota zeta.
  assert (0 <= Z.abs v < 10 ^ 10) as Habs by lia. pose proof (numeral_length (Z.abs v) Habs) as Hlen.
  rewrite u32_abs by done. apply wp_bind. unfold __ltostr. rewrite Z.add_0_r.
  apply wp_tostr; [lia|lia| |intros x Hx; apply Hm; lia|].
  { split; [lia|]. etransitivity; [apply Habs|]. done. }
  intros m1 Hc Ho. apply wp_bind, wp_ret. cbn [andb]. cbv beta iota. rewrite Z.add_0_l.
  set (L := Z.of_nat (length (numeral 10 (Z.abs v)))) in *.
  assert (u32 L = L) as EL by (unfold u32, wrapu; rewrite Z.mod_small; lia).
  assert (u32 (L + 1) = L + 1) as EL1 by (unfold u32, wrapu; rewrite Z.mod_small; lia). rewrite EL, EL1.
  assert (only m m1 (f_buf fr) 128) as Ho1 by (eapply only_weaken; [exact Ho|lia..]).
  destruct Hc as [Hc _]. apply arr_app in Hc as [Hc _]. unfold decimal in HQ.
  destruct (Z.ltb_spec v 0) as [Hneg|Hpos].
  - change (flag_in_sign (set_in_sign 2 (set_in_sign 1 spec0)) =? 2) with true. cbv beta iota.
    replace (f_buf fr + 1 - 1) with (f_buf fr) by lia. apply wp_bind, wp_stb; [apply Ho1, Hm; lia|]. apply wp_ret.
    replace (L + 1) with (Z.of_nat (length ([45] ++ (chr false <$> numeral 10 (Z.abs v))))) by (rewrite length_app, length_fmap; simpl; lia).
    apply HQ; [|eapply only_trans; [exact Ho1|]; apply only_insert; [apply Ho1, Hm|]; lia|done..].
    apply arr_cons. split; [apply lookup_insert_eq|]. apply arr_insert_out; [done|lia].
  - change (flag_in_sign (set_in_sign 1 spec0) =? 2) with false.
    change (nz (flag_in_sign (set_in_sign 1 spec0)) && (flag_sign (set_in_sign 1 spec0) || flag_space (set_in_sign 1 spec0))) with false.
    cbv beta iota. apply wp_ret. replace L with (Z.of_nat (length ([] ++ (chr false <$> numeral 10 (Z.abs v))))) by (rewrite length_app, length_fmap; simpl; lia).
    by apply HQ.
Qed.

Lemma wp_convert_d fr m out ap v len (Q : Z * Z -> bmem * list Z -> Prop) :
  - 2 ^ 31 <= v < 2 ^ 31 -> arr m ap (word_bytes v) -> mapped m (f_buf fr) 128 ->
  (forall m', only m m' (f_buf fr) 128 -> Q (i32 (len + Z.of_nat (length (decimal v))), ap + 4) (m', out ++ decimal v)) ->
  wp (convert record fr 100 ap len spec0) Q (m, out).
Proof.
  intros Hv Ha Hm HQ. unfold convert. cbv zeta. cbn [Z.eqb Pos.eqb orb].
  apply wp_bind, wp_inmem, (wp_num_printf_d fr m ap v); [done..|]. intros m' s f Hs Ho Hw Hp. cbv beta iota.
  apply wp_bind. unfold print_out. rewrite Hw, Hp. cbn [nz Z.eqb negb orb].
  apply wp_bind, (wp_write (decimal v)); [done..|]. apply wp_ret, wp_ret, HQ. done.
Qed.

(** [%d] alone. *)
Lemma wp_v_printf_d fr m format ap v (Q : Z -> bmem * list Z -> Prop) :
  - 2 ^ 31 <= v < 2 ^ 31 -> arr m format [37; 100; 0] -> arr m ap (word_bytes v) -> mapped m (f_buf fr) 128 ->
  apart (f_buf fr) 128 format 3 ->
  (forall m', only m m' (f_buf fr) 128 -> Q (Z.of_nat (length (decimal v))) (m', decimal v)) ->
  wp (__v_printf record fr format ap) Q (m, []).
Proof.
  intros Hv Hf Ha Hm Hap HQ. unfold __v_printf. apply wp_bind, wp_inmem, wp_gets.
  assert (3 < byte_fuel m)%nat as Hk by (apply (arr_fuel m format _ Hf)).
  destruct (byte_fuel m) as [|k] eqn:Ek; [lia|]. rewrite !arr_cons in Hf. destruct Hf as (F0 & F1 & F2 & _).
  apply (wp_v_printf_text fr [] 37); [apply arr_cons; split; [done|apply arr_nil]|constructor|by right..|].
  cbn [length Z.of_nat]. rewrite !Z.add_0_r, app_nil_r. apply wp_bind, wp_inmem, (wp_ldb _ _ _ _ F0).
  change (37 =? 37) with true. cbv beta iota. apply wp_bind, wp_inmem, wp_gets. rewrite Ek.
  apply wp_bind, wp_inmem. cbn [inn_printf]. apply wp_bind, (wp_ldb _ _ _ _ F1). apply wp_ret.
  apply wp_bind, (wp_convert_d fr m [] ap v); [done..|]. intros m' Ho. cbv beta iota.
  destruct k as [|k]; [lia|]. cbn [v_printf_loop]. unfold apart in Hap. apply wp_bind, wp_inmem.
  eapply wp_ldb; [rewrite (proj2 Ho) by lia; exact F2|]. apply wp_ret. cbn [app].
  pose proof (decimal_length v Hv) as Hl.
  rewrite (i32_small 0), Z.add_0_l, i32_small by lia. by apply HQ.
Qed.

(** The numeral that [%d] prints is one that [atoi] reads. *)
Lemma decimal_numeral m p v : - 2 ^ 31 <= v < 2 ^ 31 -> arr m p (decimal v ++ [0]) ->
  numeral_at m p 10 [] (if v <? 0 then Some true else None) (chr false <$> numeral 10 (Z.abs v)) 0.
Proof.
  intros Hv Ha. pose proof (numeral_range 10 (Z.abs v) ltac:(lia)) as Hr. unfold decimal in Ha. rewrite <- app_assoc in Ha.
  apply arr_app in Ha as [H1 H2]. unfold numeral_at. cbn [app length]. rewrite Z.add_0_r.
  replace (sign_bytes (if v <? 0 then Some true else None)) with (if v <? 0 then [45] else []) by (by destruct (v <? 0)).
  split; [done|]. split; [constructor|]. split; [done|]. split_and!; [|..|by left].
  - apply Forall_byte, (chr_bytes false 10); [lia|done].
  - apply Forall_fmap. eapply Forall_impl; [exact Hr|]. intros d Hd. simpl in *. rewrite digit_chr; lia.
  - done.
Qed.

Lemma atoi_decimal v : - 2 ^ 31 <= v < 2 ^ 31 ->
  i32 (if bool_decide ((if v <? 0 then Some true else None) = Some true)
       then - value 10 (digit_of <$> (chr false <$> numeral 10 (Z.abs v)))
       else value 10 (digit_of <$> (chr false <$> numeral 10 (Z.abs v)))) = v.
Proof.
  intros Hv. rewrite (digit_chars 10); [|lia|apply numeral_range; lia]. rewrite value_numeral by lia.
  destruct (Z.ltb_spec v 0); [rewrite bool_decide_true by done|rewrite bool_decide_false by done]; rewrite i32_small; lia.
Qed.
