(* ===== verification/Heap.v ===== *)
(** * Binary heaps: libc/heap.c

    A priority queue of items with [SYSTIM] keys in an array; [elements[0]] is
    a sentinel with the key -1, below every time. [heap_create] and
    [heap_destroy] only allocate and free the array. *)

From Stdlib Require Import ZArith Lia Sorted.
From stdpp Require Import base tactics option list.
From S2P Require Import Prelude.

Open Scope Z_scope.
Open Scope kernel_scope.

Record heapnode_t := mk_node { key : Z; item : Z }.

Record heap_t := mk_heap { elements : list heapnode_t; size : nat }.

Definition LCHILD (i : nat) : nat := (2 * i)%nat.
Definition PARENT (i : nat) : nat := (i / 2)%nat.

(** [heap->elements[i]]: an index out of the array faults. *)
Definition get_element (i : nat) : M heap_t heapnode_t :=
  fun h => match elements h !! i with Some x => Some (x, h) | None => None end.

Definition put_element (i : nat) (x : heapnode_t) : M heap_t unit :=
  fun h => if decide (i < length (elements h))%nat then Some (tt, mk_heap (<[i := x]> (elements h)) (size h)) else None.

Definition set_size (n : nat) : M heap_t unit := modify (fun h => mk_heap (elements h) n).

(** The loop of [heap_insert]: parents with a larger key move down; returns the
    place that is left. *)
Fixpoint sift_up (fuel i : nat) (k : Z) : M heap_t nat :=
  match fuel with
  | O => fault
  | S fuel =>
      let* p := get_element (PARENT i) in
      if key p >? k then put_element i p ;;; sift_up fuel (PARENT i) k else ret i
  end.

Definition heap_insert (it k : Z) : M heap_t unit :=
  let* n := gets size in
  set_size (S n) ;;;
  let* i := sift_up (S (S n)) (S n) k in
  put_element i (mk_node k it).

Definition heap_getmin : M heap_t Z :=
  let* n := gets size in
  if (0 <? n)%nat then let* x := get_element 1 in ret (key x) else ret (-1).

(** The loop of [heap_extract]: the smaller child moves up while its key is
    below the one of [last]. *)
Fixpoint sift_down (fuel i : nat) (last : heapnode_t) : M heap_t nat :=
  match fuel with
  | O => fault
  | S fuel =>
      let* n := gets size in
      if (LCHILD i <=? n)%nat then
        let child := LCHILD i in
        let* c := get_element child in
        (* Get smaller child *)
        let* child :=
          (if (child =? n)%nat then ret child
           else let* c' := get_element (S child) in ret (if key c' <? key c then S child else child)) in
        let* c := get_element child in
        if key last >? key c then put_element i c ;;; sift_down fuel child last else ret i
      else ret i
  end.

Definition heap_extract : M heap_t (option Z) :=
  let* n := gets size in
  if (n =? 0)%nat then ret None else
  let* m := get_element 1 in
  let* last := get_element n in
  set_size (n - 1) ;;;
  let* i := sift_down n 1 last in
  put_element i last ;;;
  ret (Some (item m)).

(** ** Heap order *)

#[global] Instance heapnode_inhabited : Inhabited heapnode_t := populate (mk_node 0 0).

(** The sentinel and the [n] nodes of a heap. *)
Definition live (n : nat) (l : list heapnode_t) : list heapnode_t := take (S n) l.

(** The key at an index. *)
Definition key_at (l : list heapnode_t) (i : nat) : Z := key (l !!! i).

(** Every node is at most its children. *)
Definition ordered (l : list heapnode_t) : Prop :=
  forall j, (0 < j < length l)%nat -> key_at l (PARENT j) <= key_at l j.

Definition heap_ok (h : heap_t) : Prop :=
  (size h < length (elements h))%nat /\ key_at (elements h) 0 = -1 /\
  ordered (live (size h) (elements h)) /\ Forall (fun x => 0 <= key x) (drop 1 (live (size h) (elements h))).

(** The nodes of a heap, without the sentinel. *)
Definition nodes (h : heap_t) : list heapnode_t := drop 1 (live (size h) (elements h)).

(** Order except between [i] and its parent, with room to move the parent
    down. *)
Definition hole_up (l : list heapnode_t) (i : nat) (k : Z) : Prop :=
  (forall j, (0 < j < length l)%nat -> j <> i -> PARENT j <> i -> key_at l (PARENT j) <= key_at l j) /\
  (forall j, (0 < j < length l)%nat -> PARENT j = i -> j <> i -> k <= key_at l j /\ key_at l (PARENT i) <= key_at l j).

(** Order except between [i] and its children. *)
Definition hole_down (l : list heapnode_t) (i : nat) : Prop :=
  (forall j, (0 < j < length l)%nat -> j <> i -> PARENT j <> i -> key_at l (PARENT j) <= key_at l j) /\
  (forall j, (0 < j < length l)%nat -> PARENT j = i -> key_at l (PARENT i) <= key_at l j).

Lemma key_at_insert l i j x : (j < length l)%nat ->
  key_at (<[i := x]> l) j = if decide (i = j) then key x else key_at l j.
Proof.
  intros Hj. unfold key_at. case_decide as E; [subst; by rewrite list_lookup_total_insert_eq|].
  by rewrite list_lookup_total_insert_ne.
Qed.

Lemma parent_lt j : (0 < j)%nat -> (PARENT j < j)%nat.
Proof. intros H. apply Nat.div_lt; lia. Qed.

Lemma delete_insert_self (l : list heapnode_t) i x : delete i (<[i := x]> l) = delete i l.
Proof. rewrite !delete_take_drop, take_insert_ge, drop_insert_lt by lia. done. Qed.

(** Filling the hole. *)
Lemma insert_fill (l : list heapnode_t) i x : (i < length l)%nat -> <[i := x]> l ≡ₚ x :: delete i l.
Proof.
  intros Hi. rewrite (delete_Permutation (<[i := x]> l) i x) by (by apply list_lookup_insert_eq).
  by rewrite delete_insert_self.
Qed.

(** Moving a node into the hole and taking it out of its place keeps the nodes
    around the hole. *)
Lemma delete_move (l : list heapnode_t) i j x : i <> j -> l !! j = Some x -> (i < length l)%nat ->
  delete j (<[i := x]> l) ≡ₚ delete i l.
Proof.
  intros Hne Ej Hi. apply (Permutation.Permutation_cons_inv (a := x)).
  rewrite <- delete_Permutation by (by rewrite list_lookup_insert_ne). by apply insert_fill.
Qed.

Lemma live_insert n (l : list heapnode_t) i x : (i <= n)%nat -> live n (<[i := x]> l) = <[i := x]> (live n l).
Proof. intros H. unfold live. apply take_insert_lt. lia. Qed.

Lemma live_lookup n (l : list heapnode_t) i : (i <= n)%nat -> live n l !! i = l !! i.
Proof. intros H. unfold live. apply lookup_take_lt. lia. Qed.

Lemma live_length n (l : list heapnode_t) : (n < length l)%nat -> length (live n l) = S n.
Proof. intros H. unfold live. rewrite length_take. lia. Qed.

Lemma key_at_lookup l i x : l !! i = Some x -> key_at l i = key x.
Proof. intros E. unfold key_at. by rewrite (list_lookup_total_correct _ _ _ E). Qed.

Lemma wp_get_element h i (Q : heapnode_t -> heap_t -> Prop) x :
  elements h !! i = Some x -> Q x h -> wp (get_element i) Q h.
Proof. intros E HQ. unfold wp, get_element. by rewrite E. Qed.

Lemma wp_get_live e n i (Q : heapnode_t -> heap_t -> Prop) : (i <= n < length e)%nat ->
  (forall x, live n e !! i = Some x -> Q x (mk_heap e n)) -> wp (get_element i) Q (mk_heap e n).
Proof.
  intros Hi HQ. destruct (lookup_lt_is_Some_2 e i) as [x E]; [lia|]. eapply wp_get_element; [exact E|].
  apply HQ. by rewrite live_lookup by lia.
Qed.

Lemma wp_put_element h i x (Q : unit -> heap_t -> Prop) : (i < length (elements h))%nat ->
  Q tt (mk_heap (<[i := x]> (elements h)) (size h)) -> wp (put_element i x) Q h.
Proof. intros Hi HQ. unfold wp, put_element. by rewrite decide_True. Qed.

(** ** Insertion *)

Lemma hole_up_move l i k p x : hole_up l i k -> p = PARENT i -> (0 < p)%nat -> (i < length l)%nat ->
  l !! p = Some x -> k < key x -> hole_up (<[i := x]> l) p k.
Proof.
  intros [H1 H2] Hp Hp0 Hi Ex Hk. pose proof (key_at_lookup _ _ _ Ex) as Kp.
  assert (p < i)%nat as Hpi by (subst p; apply parent_lt; destruct i; [done|lia]).
  assert (key_at l (PARENT p) <= key_at l p) as Hpp.
  { pose proof (parent_lt p Hp0). apply H1; lia. }
  split; rewrite length_insert; intros j Hj.
  - intros Hjp Hjp'. assert (j <> i) by congruence. pose proof (parent_lt j ltac:(lia)).
    rewrite !key_at_insert by lia. rewrite (decide_False (P := i = j)) by lia. case_decide as E.
    + destruct (H2 j Hj (eq_sym E) ltac:(lia)) as [_ H3]. rewrite <- Hp, Kp in H3. lia.
    + apply H1; [done|lia|congruence].
  - intros Ej Hjp. pose proof (parent_lt p Hp0). pose proof (parent_lt j ltac:(lia)).
    rewrite !key_at_insert by lia. rewrite (decide_False (P := i = PARENT p)) by lia. case_decide as E; [lia|].
    specialize (H1 j Hj ltac:(lia) ltac:(lia)). rewrite Ej in H1. lia.
Qed.

Lemma hole_up_fill l i k x : hole_up l i k -> (0 < i < length l)%nat -> key_at l (PARENT i) <= k -> key x = k ->
  ordered (<[i := x]> l).
Proof.
  intros [H1 H2] Hi Hk Kx j. rewrite length_insert. intros Hj. pose proof (parent_lt j ltac:(lia)).
  rewrite !key_at_insert by lia. destruct (decide (i = j)) as [<-|Hne].
  - rewrite decide_False by lia. lia.
  - destruct (decide (i = PARENT j)) as [E|]; [|by apply H1]. destruct (H2 j Hj (eq_sym E) ltac:(done)). lia.
Qed.

Lemma wp_sift_up fuel i k e n (Q : nat -> heap_t -> Prop) :
  (0 < i <= n)%nat -> (n < length e)%nat -> (i < fuel)%nat -> key_at (live n e) 0 = -1 -> -1 <= k -> hole_up (live n e) i k ->
  (forall e' i', length e' = length e -> (0 < i' <= n)%nat -> live n e' !! 0%nat = live n e !! 0%nat ->
     delete i' (live n e') ≡ₚ delete i (live n e) -> ordered (<[i' := mk_node k 0]> (live n e')) ->
     hole_up (live n e') i' k -> key_at (live n e') (PARENT i') <= k -> Q i' (mk_heap e' n)) ->
  wp (sift_up fuel i k) Q (mk_heap e n).
Proof.
  revert i e. induction fuel as [|fuel IH]; intros i e Hi Hn Hf H0 Hk Hh HQ; [lia|]. cbn [sift_up].
  pose proof (parent_lt i ltac:(lia)) as Hp. pose proof (live_length n e Hn) as Hlen.
  apply wp_bind, wp_get_live; [lia|]. intros x Ex. pose proof (key_at_lookup _ _ _ Ex) as Kx.
  rewrite Z.gtb_ltb. destruct (Z.ltb_spec k (key x)).
  - assert (PARENT i <> 0%nat) by (intros E; rewrite E in Kx; lia).
    apply wp_bind, wp_put_element; [simpl; lia|]. cbn [elements size]. pose proof (live_insert n e i x ltac:(lia)) as El.
    apply IH; rewrite ?El, ?length_insert; [lia..| |done| |].
    + rewrite key_at_insert by lia. by rewrite decide_False by lia.
    + eapply hole_up_move; [done..|lia|lia|done|done].
    + intros e' i' L1 L2 L3 L4. apply HQ; [lia|done| |].
      * rewrite L3. apply list_lookup_insert_ne. lia.
      * rewrite L4. apply delete_move; [lia|done|lia].
  - apply wp_ret, HQ; [done..| | |lia]; [|done]. eapply hole_up_fill; [done|lia|lia|done].
Qed.

(** The nodes without the sentinel. *)
Lemma live_cons n e : (n < length e)%nat -> exists x, e !! 0%nat = Some x /\ live n e = x :: drop 1 (live n e).
Proof. intros H. destruct e as [|x e]; [simpl in H; lia|]. exists x. done. Qed.

Lemma nodes_perm n e (c : list heapnode_t) x : (n < length e)%nat -> e !! 0%nat = Some x ->
  live n e ≡ₚ x :: c -> drop 1 (live n e) ≡ₚ c.
Proof.
  intros Hn Ex Hp. destruct (live_cons n e Hn) as (y & Ey & El). rewrite El in Hp.
  assert (x = y) as -> by congruence. by apply Permutation.Permutation_cons_inv in Hp.
Qed.

(** A heap from an ordered array with the sentinel in front. *)
Lemma heap_ok_intro n e x c : (n < length e)%nat -> e !! 0%nat = Some x -> key x = -1 -> ordered (live n e) ->
  live n e ≡ₚ x :: c -> Forall (fun y => 0 <= key y) c ->
  heap_ok (mk_heap e n) /\ nodes (mk_heap e n) ≡ₚ c.
Proof.
  intros Hn Ex Kx Ho Hp Hc. pose proof (nodes_perm n e c x Hn Ex Hp) as Hnp. split; [|done].
  split; [done|]. split; [simpl; by rewrite (key_at_lookup _ _ _ Ex)|]. split; [done|]. simpl. by rewrite Hnp.
Qed.

Lemma wp_heap_insert h it k (Q : unit -> heap_t -> Prop) :
  heap_ok h -> (S (size h) < length (elements h))%nat -> 0 <= k ->
  (forall h', heap_ok h' -> nodes h' ≡ₚ mk_node k it :: nodes h -> length (elements h') = length (elements h) -> Q tt h') ->
  wp (heap_insert it k) Q h.
Proof.
  destruct h as [e n]. intros (H1 & H2 & H3 & H4) Hroom Hk HQ. cbn [elements size] in *. unfold heap_insert.
  apply wp_bind, wp_gets, wp_bind, wp_modify, wp_bind. cbn [elements size].
  destruct (live_cons n e H1) as (x & Ex & El). pose proof (key_at_lookup _ _ _ Ex) as Kx. rewrite H2 in Kx.
  assert (live (S n) e = live n e ++ [e !!! S n]) as Es.
  { unfold live. apply take_S_r, list_lookup_lookup_total_lt. lia. }
  assert (forall j, (j <= n)%nat -> key_at (live (S n) e) j = key_at (live n e) j) as Hkeys.
  { intros j Hj. unfold key_at. rewrite Es, lookup_total_app_l; [done|]. rewrite live_length; lia. }
  apply wp_sift_up; [lia..| |lia| |].
  - rewrite (key_at_lookup _ _ x); [done|]. by rewrite live_lookup by lia.
  - split; rewrite live_length by lia; intros j Hj.
    + intros Hne _. pose proof (parent_lt j ltac:(lia)). rewrite !Hkeys by lia. apply H3. rewrite live_length; lia.
    + intros E Hne. pose proof (parent_lt j ltac:(lia)). lia.
  - intros e' i L1 L2 L3 L4 _ L6 L7. apply wp_put_element; [simpl; lia|]. cbn [elements size].
    rewrite !live_lookup in L3 by lia. assert (e' !! 0%nat = Some x) as Ex' by congruence.
    destruct (heap_ok_intro (S n) (<[i := mk_node k it]> e') x (mk_node k it :: nodes (mk_heap e n))) as [Hok Hperm].
    + rewrite length_insert. lia.
    + by rewrite list_lookup_insert_ne by lia.
    + done.
    + rewrite live_insert by lia. eapply hole_up_fill; [done| |done|done]. rewrite live_length; lia.
    + rewrite live_insert by lia. rewrite insert_fill by (rewrite live_length; lia). rewrite L4, Es.
      assert (delete (S n) (live n e ++ [e !!! S n]) = live n e) as ->.
      { rewrite delete_take_drop, take_app_le by (rewrite live_length; lia). rewrite take_ge by (rewrite live_length; lia).
        rewrite drop_ge by (rewrite length_app, live_length; simpl; lia). apply app_nil_r. }
      rewrite El at 1. unfold nodes. cbn [elements size]. apply Permutation.perm_swap.
    + constructor; [done|]. exact H4.
    + apply HQ; [done|done|]. simpl. rewrite length_insert. lia.
Qed.

(** ** Extraction *)

Lemma hole_down_move l i c x : hole_down l i -> (0 < i)%nat -> PARENT c = i -> c <> i -> (c < length l)%nat ->
  l !! c = Some x -> (forall j, (0 < j < length l)%nat -> PARENT j = i -> key x <= key_at l j) ->
  hole_down (<[i := x]> l) c.
Proof.
  intros [H1 H2] Hi Hc Hci Hcl Ex Hmin. pose proof (key_at_lookup _ _ _ Ex) as Kc.
  assert (i < c)%nat as Hic. { assert (0 < c)%nat by (destruct c; [unfold PARENT in Hc; simpl in Hc; lia|lia]). pose proof (parent_lt c). lia. }
  split; rewrite length_insert; intros j Hj.
  - intros Hjc Hjc'. pose proof (parent_lt j ltac:(lia)). rewrite !key_at_insert by lia.
    destruct (decide (i = j)) as [<-|Hne].
    + rewrite decide_False by lia. rewrite <- Kc. apply H2; [lia|done].
    + case_decide as E; [apply Hmin; [done|congruence]|]. apply H1; [done|lia|congruence].
  - intros Ej. pose proof (parent_lt j ltac:(lia)). rewrite !key_at_insert by lia. rewrite Hc, decide_True by done.
    rewrite decide_False by lia. rewrite <- Kc. rewrite <- Ej at 1. apply H1; [done|lia|lia].
Qed.

Lemma hole_down_fill l i x : hole_down l i -> (0 < i < length l)%nat -> key_at l (PARENT i) <= key x ->
  (forall j, (0 < j < length l)%nat -> PARENT j = i -> key x <= key_at l j) -> ordered (<[i := x]> l).
Proof.
  intros [H1 H2] Hi Hp Hc j. rewrite length_insert. intros Hj. pose proof (parent_lt j ltac:(lia)).
  rewrite !key_at_insert by lia. destruct (decide (i = j)) as [<-|Hne].
  - rewrite decide_False by lia. lia.
  - destruct (decide (i = PARENT j)) as [E|]; [by apply Hc|by apply H1].
Qed.

Lemma child_cases i j : PARENT j = i -> j = LCHILD i \/ j = S (LCHILD i).
Proof. unfold PARENT, LCHILD. intros <-. pose proof (Nat.div_mod j 2). pose proof (Nat.mod_upper_bound j 2). lia. Qed.

Lemma parent_lchild i : PARENT (LCHILD i) = i /\ PARENT (S (LCHILD i)) = i.
Proof.
  unfold PARENT, LCHILD. split.
  - rewrite Nat.mul_comm. apply Nat.div_mul. lia.
  - replace (S (2 * i)) with (1 + i * 2)%nat by lia. rewrite Nat.div_add by lia. done.
Qed.

(** The choice of the smaller child. *)
Lemma wp_smaller_child e n i (Q : nat -> heap_t -> Prop) : (n < length e)%nat -> (0 < i)%nat -> (LCHILD i <= n)%nat ->
  (forall c, PARENT c = i -> (c <= n)%nat -> c <> i ->
     (forall j, (0 < j < length (live n e))%nat -> PARENT j = i -> key_at (live n e) c <= key_at (live n e) j) -> Q c (mk_heap e n)) ->
  wp (let* c := get_element (LCHILD i) in
      if (LCHILD i =? n)%nat then ret (LCHILD i)
      else let* c' := get_element (S (LCHILD i)) in ret (if key c' <? key c then S (LCHILD i) else LCHILD i)) Q (mk_heap e n).
Proof.
  intros Hn Hi0 Hi HQ. destruct (parent_lchild i) as [P1 P2]. assert (i < LCHILD i)%nat by (unfold LCHILD; lia).
  apply wp_bind, wp_get_live; [lia|]. intros x Ex. apply key_at_lookup in Ex.
  rewrite live_length in HQ by done. destruct (Nat.eqb_spec (LCHILD i) n) as [E|Hne].
  - apply wp_ret, HQ; [done|lia|lia|]. intros j Hj [->| ->]%child_cases; lia.
  - apply wp_bind, wp_get_live; [lia|]. intros y Ey. apply key_at_lookup in Ey. apply wp_ret.
    destruct (Z.ltb_spec (key y) (key x)); (apply HQ; [done|lia|lia|]); intros j Hj [->| ->]%child_cases; lia.
Qed.

Lemma wp_sift_down fuel i last e n (Q : nat -> heap_t -> Prop) :
  (0 < i <= n)%nat -> (n < length e)%nat -> (n < fuel + i)%nat -> hole_down (live n e) i ->
  key_at (live n e) (PARENT i) <= key last ->
  (forall e' i', length e' = length e -> (0 < i' <= n)%nat -> live n e' !! 0%nat = live n e !! 0%nat ->
     delete i' (live n e') ≡ₚ delete i (live n e) -> ordered (<[i' := last]> (live n e')) -> Q i' (mk_heap e' n)) ->
  wp (sift_down fuel i last) Q (mk_heap e n).
Proof.
  revert i e. induction fuel as [|fuel IH]; intros i e Hi Hn Hf Hh Hp HQ; [lia|]. cbn [sift_down].
  pose proof (live_length n e Hn) as Hlen. apply wp_bind, wp_gets. cbn [size].
  destruct (Nat.leb_spec (LCHILD i) n) as [Hl|Hl].
  2: { apply wp_ret, HQ; [done..|]. eapply hole_down_fill; [done|lia|done|].
       intros j Hj [->| ->]%child_cases; lia. }
  apply wp_nest, wp_smaller_child; [done|lia|done|]. intros c Pc Hc Hci Hmin.
  apply wp_bind, wp_get_live; [lia|]. intros x Ex. pose proof (key_at_lookup _ _ _ Ex) as Kx. rewrite Kx in Hmin.
  rewrite Z.gtb_ltb. destruct (Z.ltb_spec (key x) (key last)) as [Hlt|Hge].
  - assert (i < c)%nat as Hic. { destruct (child_cases i c Pc); unfold LCHILD in *; lia. }
    apply wp_bind, wp_put_element; [simpl; lia|]. cbn [elements size]. pose proof (live_insert n e i x ltac:(lia)) as El.
    apply IH; rewrite ?El, ?length_insert; [lia..| | |].
    + eapply hole_down_move; [done|lia|done|done|lia|done|done].
    + rewrite Pc, key_at_insert by lia. rewrite decide_True by done. lia.
    + intros e' i' L1 L2 L3 L4. apply HQ; [lia|done| |].
      * rewrite L3. apply list_lookup_insert_ne. lia.
      * rewrite L4. apply delete_move; [lia|done|lia].
  - apply wp_ret, HQ; [done..|]. eapply hole_down_fill; [done|lia|done|]. intros j Hj Ej. specialize (Hmin j Hj Ej). lia.
Qed.

(** The root is a smallest node. *)
Lemma root_smallest l j : ordered l -> (0 < j < length l)%nat -> key_at l 1 <= key_at l j.
Proof.
  intros Ho. induction j as [j IH] using lt_wf_ind. intros Hj. destruct (decide (j = 1%nat)) as [->|Hne]; [done|].
  pose proof (parent_lt j ltac:(lia)). specialize (Ho j Hj).
  assert (0 < PARENT j)%nat. { unfold PARENT. apply Nat.div_str_pos. lia. }
  specialize (IH (PARENT j) ltac:(lia) ltac:(lia)). lia.
Qed.

Lemma wp_heap_extract h (Q : option Z -> heap_t -> Prop) :
  heap_ok h ->
  (size h = O -> Q None h) ->
  (forall m h', heap_ok h' -> nodes h ≡ₚ m :: nodes h' -> Forall (fun x => key m <= key x) (nodes h) ->
     length (elements h') = length (elements h) -> Q (Some (item m)) h') ->
  wp heap_extract Q h.
Proof.
  destruct h as [e N]. intros (H1 & H2 & H3 & H4) HQ0 HQ. cbn [elements size] in *. unfold heap_extract.
  apply wp_bind, wp_gets. cbn [size]. destruct (Nat.eqb_spec N 0) as [->|HN]; [by apply wp_ret, HQ0|].
  destruct N as [|n]; [done|]. clear HN HQ0. apply wp_bind, wp_get_live; [lia|]. intros m Em.
  apply wp_bind, wp_get_live; [lia|]. intros last Elast. replace (S n - 1)%nat with n by lia.
  apply wp_bind, wp_modify, wp_bind. cbn [elements]. pose proof (live_length (S n) e H1) as Hlen.
  destruct (live_cons (S n) e H1) as (x & Ex & El). pose proof (key_at_lookup _ _ _ Ex) as Kx. rewrite H2 in Kx.
  assert (live (S n) e = live n e ++ [last]) as Es.
  { unfold live. apply take_S_r. rewrite live_lookup in Elast by lia. done. }
  assert (forall j, (j <= n)%nat -> key_at (live (S n) e) j = key_at (live n e) j) as Hkeys.
  { intros j Hj. unfold key_at. rewrite Es, lookup_total_app_l; [done|]. rewrite live_length; lia. }
  assert (Forall (fun y => key m <= key y) (drop 1 (live (S n) e))) as Hmin.
  { apply Forall_lookup. intros i y Ey. rewrite lookup_drop in Ey. rewrite <- (key_at_lookup _ _ _ Em), <- (key_at_lookup _ _ _ Ey).
    apply root_smallest; [done|]. apply lookup_lt_Some in Ey. lia. }
  assert (0 <= key last) as Hlast.
  { rewrite Forall_lookup in H4. apply (H4 n). rewrite lookup_drop. exact Elast. }
  destruct n as [|n].
  { (* one node *)
    cbn [sift_down]. apply wp_bind, wp_gets. cbn [size]. apply wp_ret, wp_bind, wp_put_element; [simpl; lia|]. cbn [elements size].
    apply wp_ret. apply HQ.
    - destruct (heap_ok_intro 0 (<[1%nat := last]> e) x []) as [Hok _]; [rewrite length_insert; lia|by rewrite list_lookup_insert_ne|done| | |done|done].
      + intros j Hj. rewrite live_length in Hj by (rewrite length_insert; lia). lia.
      + destruct e as [|x' e]; [done|]. simpl in Ex. injection Ex as ->. done.
    - unfold nodes, live. cbn [elements size]. destruct e as [|x' [|y e]]; [done..|]. simpl in *. injection Em as ->. done.
    - exact Hmin.
    - simpl. by rewrite length_insert. }
  apply wp_sift_down; [lia..| | |].
  - split; rewrite live_length by lia; intros j Hj.
    + intros _ _. pose proof (parent_lt j ltac:(lia)). rewrite <- !Hkeys by lia. apply H3. lia.
    + intros E. change (PARENT 1) with 0%nat. rewrite (key_at_lookup _ 0 x) by (by rewrite live_lookup by lia).
      rewrite Forall_lookup in H4. rewrite <- Hkeys by lia. destruct (lookup_lt_is_Some_2 (live (S (S n)) e) j) as [y Ey]; [lia|].
      rewrite (key_at_lookup _ _ _ Ey), <- Kx. specialize (H4 (j - 1)%nat y). rewrite lookup_drop in H4.
      replace (1 + (j - 1))%nat with j in H4 by lia. specialize (H4 Ey). simpl in H4. lia.
  - change (PARENT 1) with 0%nat. rewrite (key_at_lookup _ 0 x) by (by rewrite live_lookup by lia). lia.
  - intros e' i L1 L2 L3 L4 L5. apply wp_bind, wp_put_element; [simpl; lia|]. cbn [elements size]. apply wp_ret.
    rewrite !live_lookup in L3 by lia. assert (e' !! 0%nat = Some x) as Ex' by congruence.
    set (c := drop 1 (live (S n) (<[i := last]> e'))).
    assert (live (S n) (<[i := last]> e') = x :: c) as Ec.
    { destruct (live_cons (S n) (<[i := last]> e')) as (x' & Ex'' & ->); [rewrite length_insert; lia|].
      rewrite list_lookup_insert_ne in Ex'' by lia. f_equal. congruence. }
    assert (live (S (S n)) e ≡ₚ m :: x :: c) as Hall.
    { rewrite <- Ec, live_insert by lia. rewrite insert_fill by (rewrite live_length; lia). rewrite L4, Es.
      rewrite Permutation_app_comm. simpl. rewrite Permutation.perm_swap. f_equiv. apply delete_Permutation.
      rewrite live_lookup in Em |- * by lia. done. }
    assert (drop 1 (live (S (S n)) e) ≡ₚ m :: c) as Hnodes.
    { apply (nodes_perm _ _ _ x); [done|done|]. rewrite Hall. apply Permutation.perm_swap. }
    destruct (heap_ok_intro (S n) (<[i := last]> e') x c) as [Hok Hperm].
    + rewrite length_insert. lia.
    + by rewrite list_lookup_insert_ne by lia.
    + done.
    + by rewrite live_insert by lia.
    + by rewrite Ec.
    + rewrite Hnodes in H4. by apply Forall_cons in H4 as [_ H4].
    + apply HQ; [done| |exact Hmin|simpl; rewrite length_insert; lia]. unfold nodes. cbn [elements size]. exact Hnodes.
Qed.

(** ** A sequence of insertions and extractions *)

Fixpoint insert_all (l : list heapnode_t) : M heap_t unit :=
  match l with
  | [] => ret tt
  | x :: l => heap_insert (item x) (key x) ;;; insert_all l
  end.

(** Extract [n] times, with the minimum that [heap_getmin] announces each time. *)
Fixpoint extract_all (n : nat) : M heap_t (list (Z * option Z)) :=
  match n with
  | O => ret []
  | S n => let* k := heap_getmin in let* x := heap_extract in let* l := extract_all n in ret ((k, x) :: l)
  end.

Lemma wp_insert_all l h (Q : unit -> heap_t -> Prop) :
  heap_ok h -> (size h + length l < length (elements h))%nat -> Forall (fun x => 0 <= key x) l ->
  (forall h', heap_ok h' -> nodes h' ≡ₚ l ++ nodes h -> Q tt h') -> wp (insert_all l) Q h.
Proof.
  revert h. induction l as [|x l IH]; intros h Hok Hr Hk HQ; cbn [insert_all].
  { apply wp_ret, HQ; [done|]. done. }
  apply Forall_cons in Hk as [Hx Hk]. cbn [length] in Hr. apply wp_bind, wp_heap_insert; [done|lia|done|].
  intros h1 Hok1 Hn1 Hl1. apply IH; [done| |done|].
  - assert (length (nodes h1) = S (length (nodes h))) as E by (by rewrite Hn1).
    unfold nodes in E. rewrite !length_drop, !live_length in E by (apply Hok || apply Hok1). rewrite Hl1. lia.
  - intros h2 Hok2 Hn2. apply HQ; [done|]. rewrite Hn2, Hn1. destruct x as [k i]. simpl.
    by rewrite (Permutation_middle l (nodes h)).
Qed.

Lemma nodes_length h : heap_ok h -> length (nodes h) = size h.
Proof. intros (H & _). unfold nodes. rewrite length_drop, live_length by done. lia. Qed.

Lemma wp_heap_getmin h (Q : Z -> heap_t -> Prop) : heap_ok h -> (0 < size h)%nat ->
  (forall x, x ∈ nodes h -> Forall (fun y => key x <= key y) (nodes h) -> Q (key x) h) -> wp heap_getmin Q h.
Proof.
  destruct h as [e n]. intros (H1 & _ & H3 & _) Hs HQ. cbn [elements size] in *. unfold heap_getmin. apply wp_bind, wp_gets.
  cbn [size]. destruct (Nat.ltb_spec 0 n); [|lia]. apply wp_bind, wp_get_live; [lia|]. intros x Ex. apply wp_ret, HQ.
  - apply list_elem_of_lookup. exists 0%nat. unfold nodes. rewrite lookup_drop. exact Ex.
  - apply Forall_lookup. intros i y Ey. unfold nodes in Ey. rewrite lookup_drop in Ey. cbn [elements size] in Ey.
    rewrite <- (key_at_lookup _ _ _ Ex), <- (key_at_lookup _ _ _ Ey). apply root_smallest; [done|].
    apply lookup_lt_Some in Ey. lia.
Qed.

Definition key_le (x y : heapnode_t) : Prop := key x <= key y.

Lemma wp_extract_all n h (Q : list (Z * option Z) -> heap_t -> Prop) :
  heap_ok h -> size h = n ->
  (forall l h', StronglySorted key_le l -> l ≡ₚ nodes h -> size h' = O ->
     Q ((fun x => (key x, Some (item x))) <$> l) h') ->
  wp (extract_all n) Q h.
Proof.
  revert h Q. induction n as [|n IH]; intros h Q Hok Hs HQ; cbn [extract_all].
  { apply wp_ret. apply (HQ []); [constructor| |done]. symmetry. apply Permutation_nil_r, nil_length_inv. by rewrite nodes_length. }
  apply wp_bind, wp_heap_getmin; [done|lia|]. intros r Hr Hrmin. apply wp_bind, wp_heap_extract; [done|lia|].
  intros m h1 Hok1 Hp Hmin _. assert (key r = key m) as ->.
  { rewrite Forall_forall in Hmin, Hrmin. specialize (Hmin r Hr). specialize (Hrmin m). rewrite Hp in Hrmin.
    specialize (Hrmin ltac:(left)). lia. }
  apply wp_bind, IH; [done| |].
  { pose proof (nodes_length h Hok) as L. rewrite Hp in L. simpl in L. rewrite (nodes_length h1 Hok1) in L. lia. }
  intros l h2 Hsort Hl H0. apply wp_ret. apply (HQ (m :: l)); [|by rewrite Hp, Hl|done].
  constructor; [done|]. rewrite Hp in Hmin. apply Forall_cons in Hmin as [_ Hmin]. by rewrite Hl.
Qed.
