(* ===== verification/Region.v ===== *)
(** * Regions: libc/region.c

    Memory handed out upwards from the start of an area and given back all at
    once; an array of a size that is not known yet can be built at its end.
    The structure [region_t] is at the base of the area. *)

From Stdlib Require Import ZArith Lia.
From stdpp Require Import base tactics gmap option list.
From S2P Require Import Prelude Mem Bytes Cstring.

Open Scope Z_scope.
Open Scope kernel_scope.

Record region_t := mk_region { pstart : Z; pfree : Z; rsize : Z; used : Z; array_lock : Z }.

(** Five words. *)
Definition sizeof_region_t : Z := 20.

Definition new_region (start memsize : Z) : region_t :=
  mk_region (start + sizeof_region_t) (start + sizeof_region_t) (i32 (memsize - sizeof_region_t)) 0 0.

Definition round4 (n : Z) : Z := Z.land (i32 (n + 3)) (Z.lnot 3).

Definition ralloc (size : Z) : M region_t Z :=
  let* r := gets id in
  if nz (array_lock r) then ret NULL else
  let size_rounded := round4 size in
  if rsize r <? i32 (used r + size_rounded) then ret NULL else
  modify (fun r => mk_region (pstart r) (u32 (pfree r + size_rounded)) (rsize r) (i32 (used r + size_rounded)) (array_lock r)) ;;;
  ret (pfree r).

(** [rcalloc] also clears the memory it returns. *)
Definition rcalloc (size : Z) : M (bmem * region_t) Z :=
  let* p := zoom snd (fun r s => (fst s, r)) (ralloc size) in
  if nz p then zoom fst (fun m s => (m, snd s)) (memset p 0 (u32 size)) ;;; ret p else ret NULL.

Definition rfree : M region_t unit :=
  modify (fun r => mk_region (pstart r) (pstart r) (rsize r) 0 (array_lock r)).

(** The start of the array and the size it can grow to. *)
Definition rnew_array (itemsize : Z) : M region_t (option (Z * Z)) :=
  let* r := gets id in
  if nz (array_lock r) then ret None else
  modify (fun r => mk_region (pstart r) (pfree r) (rsize r) (used r) itemsize) ;;;
  ret (Some (pfree r, i32 (rsize r - used r))).

Definition rclose_array (nitems : Z) : M region_t unit :=
  modify (fun r =>
    let n := array_lock r * nitems in
    mk_region (pstart r) (Z.land (u32 (pfree r + n + 3)) (u32 (Z.lnot 3))) (rsize r) (i32 (used r + n)) 0).

(** ** Allocation *)

(** The free memory starts after the used bytes; no array is being built. *)
Definition region_ok (r : region_t) : Prop :=
  0 < pstart r /\ pstart r mod 4 = 0 /\ pstart r + rsize r < 2 ^ 32 /\ pfree r = pstart r + used r /\
  0 <= used r <= rsize r /\ used r mod 4 = 0 /\ rsize r < 2 ^ 30 /\ array_lock r = 0.

Lemma round4_spec n : 0 <= n < 2 ^ 30 -> n <= round4 n <= n + 3 /\ round4 n mod 4 = 0.
Proof.
  intros Hn. unfold round4. replace (i32 (n + 3)) with (n + 3) by (unfold i32, wraps; rewrite Z.mod_small; lia).
  assert (Z.land (n + 3) (Z.lnot 3) = 4 * ((n + 3) / 4)) as ->.
  { change 3 with (Z.ones 2) at 2. rewrite <- Z.ldiff_land, Z.ldiff_ones_r by lia.
    rewrite Z.shiftl_mul_pow2, Z.shiftr_div_pow2 by lia. change (2 ^ 2) with 4. lia. }
  pose proof (Z.div_mod (n + 3) 4 ltac:(lia)). pose proof (Z.mod_pos_bound (n + 3) 4 ltac:(lia)).
  split; [lia|]. rewrite Z.mul_comm. apply Z.mod_mul. lia.
Qed.

(** What an allocation does: a block of the rounded size at the end of the used
    bytes, or NULL when the rest is too small. *)
Lemma wp_ralloc r n (Q : Z -> region_t -> Prop) : region_ok r -> 0 <= n < 2 ^ 29 ->
  (rsize r < used r + round4 n -> Q NULL r) ->
  (forall r', used r + round4 n <= rsize r -> region_ok r' -> pstart r' = pstart r -> rsize r' = rsize r ->
     used r' = used r + round4 n -> Q (pstart r + used r) r') ->
  wp (ralloc n) Q r.
Proof.
  intros (H1 & H2 & H3 & H4 & H5 & H6 & H7 & H8) Hn HQ0 HQ. destruct (round4_spec n ltac:(lia)) as [Hr Hm].
  unfold ralloc. apply wp_bind, wp_gets. unfold id. rewrite H8. change (nz 0) with false. cbv beta iota.
  assert (i32 (used r + round4 n) = used r + round4 n) as Hi by (unfold i32, wraps; rewrite Z.mod_small; lia). rewrite Hi.
  destruct (Z.ltb_spec (rsize r) (used r + round4 n)); [by apply wp_ret, HQ0|].
  apply wp_bind, wp_modify, wp_ret. rewrite Hi, H4. apply HQ; [done| |done|done|done].
  unfold region_ok. simpl. unfold u32, wrapu. rewrite (Z.mod_small _ (2 ^ 32)) by lia. split_and!; try lia.
  rewrite <- Zplus_mod_idemp_l, H6, Z.add_0_l. done.
Qed.

(** [ralloc] for each size in turn. *)
Fixpoint ralloc_all (ns : list Z) : M region_t (list Z) :=
  match ns with
  | [] => ret []
  | n :: ns => let* p := ralloc n in let* ps := ralloc_all ns in ret (p :: ps)
  end.

(** The blocks that were returned: inside of the area from [lo] on, and each one
    after the ones before it. *)
Fixpoint blocks_from (lo hi : Z) (ps ns : list Z) : Prop :=
  match ps, ns with
  | p :: ps, n :: ns => if p =? NULL then blocks_from lo hi ps ns
                        else lo <= p /\ p mod 4 = 0 /\ p + n <= hi /\ blocks_from (p + n) hi ps ns
  | [], [] => True
  | _, _ => False
  end.

Lemma blocks_from_lower lo lo' hi ps ns : lo' <= lo -> blocks_from lo hi ps ns -> blocks_from lo' hi ps ns.
Proof.
  revert ns. induction ps as [|p ps IH]; intros [|n ns] Hl H; simpl in *; try done.
  destruct (p =? NULL); [by apply IH|]. destruct H as (A & B). split; [lia|done].
Qed.

Lemma wp_ralloc_all ns r (Q : list Z -> region_t -> Prop) : region_ok r -> Forall (fun n => 0 <= n < 2 ^ 29) ns ->
  (forall ps r', region_ok r' -> blocks_from (pstart r + used r) (pstart r + rsize r) ps ns -> Q ps r') ->
  wp (ralloc_all ns) Q r.
Proof.
  revert r Q. induction ns as [|n ns IH]; intros r Q Hr Hn HQ; cbn [ralloc_all].
  { by apply wp_ret, HQ. }
  apply Forall_cons in Hn as [Hn Hns]. apply wp_bind, wp_ralloc; [done|done| |].
  - intros _. apply wp_bind, IH; [done|done|]. intros ps r' Hr' Hb. by apply wp_ret, HQ.
  - intros r1 Hfit Hr1 E1 E2 E3. apply wp_bind, IH; [done|done|]. intros ps r' Hr' Hb. apply wp_ret, HQ; [done|].
    destruct (round4_spec n ltac:(lia)) as [Hrd _]. rewrite E1, E2, E3 in Hb. pose proof Hr as (H1 & H2 & _ & _ & H5 & H6 & _).
    cbn [blocks_from]. destruct (Z.eqb_spec (pstart r + used r) NULL) as [E|_]; [unfold NULL in E; lia|].
    split_and!; [lia| |lia|].
    + by rewrite Z.add_mod, H2, H6 by lia.
    + eapply blocks_from_lower; [|exact Hb]. lia.
Qed.
