(* ===== verification/GuaranteesLibc.v ===== *)
(** * What the C library of the kernel guarantees

    Strings, numbers, formatted output, heaps and regions, each theorem followed
    by its instance at a concrete memory. *)

From Stdlib Require Import ZArith Lia Sorted.
From stdpp Require Import base tactics gmap option list.
From S2P Require Import Prelude Mem Bytes Cstring Cstdlib Printf PrintfSim Heap Region.

Open Scope Z_scope.
Open Scope kernel_scope.

Module Strings.

(** [memmove] copies a block of memory also when the source and the
    destination overlap: the destination holds what the source held, and no
    other byte changes. *)
Theorem memmove_copies m dst src l :
  Forall byte l -> arr m src l -> mapped m dst (Z.of_nat (length l)) ->
  wp (memmove dst src (Z.of_nat (length l)))
    (fun r m' => r = dst /\ arr m' dst l /\ only m m' dst (Z.of_nat (length l))) m.
Proof. intros H1 H2 H3. apply wp_memmove; auto. Qed.

Lemma memmove_copies_witness :
  let m := bytes_at 100 [1; 2; 3; 4; 5; 6] in
  wp (memmove 102 100 4) (fun r m' => r = 102 /\ arr m' 102 [1; 2; 3; 4] /\ only m m' 102 4) m.
Proof.
  intros m. apply (memmove_copies m 102 100 [1; 2; 3; 4]).
  - by repeat constructor.
  - apply (arr_app m 100 [1; 2; 3; 4] [5; 6]), bytes_at_arr.
  - intros x Hx. apply bytes_at_domain. simpl in *. lia.
Defined.

(** [strcmp] is the lexicographic comparison of two strings: zero exactly
    on equal strings, negative exactly when the first comes before the second. *)
Theorem strcmp_lexicographic m s t l1 l2 :
  cstr m s l1 -> cstr m t l2 ->
  wp (strcmp s t) (fun r m' => m' = m /\ (r = 0 <-> l1 = l2) /\ (r <? 0) = lex_ltb l1 l2) m.
Proof.
  intros Hs Ht. apply (wp_strcmp l1 l2); [done..|]. split; [done|].
  split; [apply strdiff_zero|apply strdiff_neg]; [apply Hs|apply Ht|apply Hs|apply Ht].
Qed.

Lemma strcmp_lexicographic_witness :
  let m := bytes_at 100 ([97; 98] ++ [0]) ∪ bytes_at 200 ([97; 200] ++ [0]) in
  wp (strcmp 100 200) (fun r m' => m' = m /\ (r = 0 <-> [97; 98] = [97; 200]) /\ (r <? 0) = lex_ltb [97; 98] [97; 200]) m.
Proof.
  intros m. apply (strcmp_lexicographic m 100 200 [97; 98] [97; 200]).
  - destruct (bytes_at_cstr 100 [97; 98]) as [H1 H2]; [by repeat constructor|]. split; [by apply arr_union_l|done].
  - destruct (bytes_at_cstr 200 [97; 200]) as [H1 H2]; [by repeat constructor|].
    split; [|done]. apply arr_union_r; [|done]. apply bytes_at_disjoint. simpl. lia.
Defined.

(** [strstr] finds the first occurrence of a string in another one, and
    returns NULL exactly when there is none. *)
Theorem strstr_first m s t h nd :
  s <> NULL -> t <> NULL -> cstr m s h -> cstr m t nd ->
  Z.of_nat (length h) < 2 ^ 32 -> Z.of_nat (length nd) < 2 ^ 32 ->
  wp (strstr s t) (fun r m' => m' = m /\
    ((exists i, r = s + Z.of_nat i /\ nd `prefix_of` drop i h /\ forall j, (j < i)%nat -> ~ nd `prefix_of` drop j h) \/
     (r = NULL /\ forall j, (j <= length h)%nat -> ~ nd `prefix_of` drop j h))) m.
Proof.
  intros H1 H2 H3 H4 H5 H6. apply (wp_strstr nd h); [done..|]. split; [done|]. clear - nd.
  assert (match find_sub nd h with
          | Some i => nd `prefix_of` drop i h /\ forall j, (j < i)%nat -> ~ nd `prefix_of` drop j h
          | None => forall j, (j <= length h)%nat -> ~ nd `prefix_of` drop j h
          end) as Hf.
  { induction h as [|b h IH]; cbn [find_sub]; case_decide as Hd.
    - split; [done|]. lia.
    - intros [|j] Hj; simpl in *; [done|lia].
    - split; [done|]. lia.
    - destruct (find_sub nd h) as [i|]; simpl.
      + destruct IH as [IH1 IH2]. split; [done|]. intros [|j] Hj; [done|]. apply IH2. lia.
      + intros [|j] Hj; [done|]. apply IH. simpl in Hj. lia. }
  destruct (find_sub nd h) as [i|]; simpl; [left; by exists i|by right].
Qed.

Lemma strstr_first_witness :
  let m := bytes_at 100 ([97; 98; 97; 99] ++ [0]) ∪ bytes_at 200 ([97; 99] ++ [0]) in
  wp (strstr 100 200) (fun r m' => m' = m /\
    ((exists i, r = 100 + Z.of_nat i /\ [97; 99] `prefix_of` drop i [97; 98; 97; 99] /\
       forall j, (j < i)%nat -> ~ [97; 99] `prefix_of` drop j [97; 98; 97; 99]) \/
     (r = NULL /\ forall j, (j <= 4)%nat -> ~ [97; 99] `prefix_of` drop j [97; 98; 97; 99]))) m.
Proof.
  intros m. apply (strstr_first m 100 200 [97; 98; 97; 99] [97; 99]); [done|done| | |done|done].
  - destruct (bytes_at_cstr 100 [97; 98; 97; 99]) as [H1 H2]; [by repeat constructor|]. split; [by apply arr_union_l|done].
  - destruct (bytes_at_cstr 200 [97; 99]) as [H1 H2]; [by repeat constructor|].
    split; [|done]. apply arr_union_r; [|done]. apply bytes_at_disjoint. simpl. lia.
Defined.

End Strings.

Module Numbers.

(** A number written by [__ltostr] in any base from 2 to 36 is read back by
    [strtoul]. *)
Theorem ltostr_strtoul m s size i base up :
  2 <= base <= 36 -> 2 <= size -> 0 <= i < 2 ^ (size - 1) -> i < 2 ^ 32 -> mapped m s size ->
  wp (__ltostr s size i base up ;;; strtoul s NULL base) (fun r _ => r = i) m.
Proof.
  intros Hb Hs Hi Hi32 Hm. apply wp_bind. apply wp_tostr; [done..|]. intros m' Hc _.
  assert (Forall (fun d => 0 <= d < base) (numeral base i)) as Hr by (apply numeral_range; lia).
  unfold strtoul. apply wp_bind.
  eapply (wp_strtoul_core m' s base [] None (chr up <$> numeral base i) 0); [|..|done| |].
  - split; [apply arr_nil|]. split; [constructor|]. cbn [length sign_bytes]. rewrite !Z.add_0_r.
    destruct Hc as [Hc1 Hc2]. split; [done|]. split; [by apply Forall_byte|]. split_and!; [|done|by left].
    apply Forall_fmap. eapply Forall_impl; [exact Hr|]. intros d Hd. simpl in *. rewrite digit_chr; lia.
  - intros E%fmap_nil_inv. by apply (numeral_nonempty base i) in E; [|lia].
  - intros _ _. done.
  - rewrite (digit_chars base) by (done || lia). rewrite value_numeral by lia.
    destruct (Z.leb_spec (2 ^ 32) i); [lia|]. cbn. done.
Qed.

Lemma ltostr_strtoul_witness :
  wp (__ltostr 100 40 48879 16 true ;;; strtoul 100 NULL 16) (fun r _ => r = 48879) (bytes_at 100 (replicate 40 0)).
Proof.
  apply (ltostr_strtoul _ 100 40 48879 16 true); try lia.
  intros x Hx. apply bytes_at_domain. rewrite length_replicate. lia.
Defined.

(** [strtoul] on spaces, a sign and digits of the base: the value of the
    digits, negated modulo 2^32 after a minus sign, and [ULONG_MAX] exactly when
    the value does not fit in 32 bits; the rest of the string starts after the
    last digit. *)
Theorem strtoul_reads m p base sp o cs z :
  numeral_at m p base sp o cs z -> cs <> [] -> 2 <= base <= 36 -> no_prefix base cs z ->
  let V := value base (digit_of <$> cs) in
  wp (strtoul_core p base) (fun '(v, e) m' => m' = m /\
    e = Some (p + Z.of_nat (length sp + length (sign_bytes o) + length cs)) /\
    v = if 2 ^ 32 <=? V then ULONG_MAX else if bool_decide (o = Some true) then u32 (- V) else V) m.
Proof.
  intros H1 H2 H3 H4 V. eapply wp_strtoul_core; [exact H1|done..|]. split; [done|]. split; [|done]. f_equal. lia.
Qed.

Lemma strtoul_reads_witness :
  let m := bytes_at 100 [32; 45; 49; 50; 120; 0] in
  wp (strtoul_core 100 10) (fun '(v, e) m' => m' = m /\ e = Some 104 /\ v = u32 (- 12)) m.
Proof.
  intros m. apply (strtoul_reads m 100 10 [32] (Some true) [49; 50] 120); [|done|done|done].
  split; [apply (arr_app m 100 [32; 45] [49; 50; 120; 0]), bytes_at_arr|]. split; [by repeat constructor|].
  assert (arr m 100 ([32; 45; 49; 50; 120] ++ [0])) as H by apply bytes_at_arr. apply arr_app in H as [H _].
  split; [exact (proj2 (proj1 (arr_app m 100 [32; 45] [49; 50; 120]) H))|].
  split; [by repeat constructor|]. split; [by repeat constructor|]. split; [done|]. by right.
Defined.

End Numbers.

Module Formatting.

(** [vsnprintf] never writes outside of its buffer and truncates: when
    [__v_printf], given a function that records its output, returns [n] with
    the output [out], [vsnprintf] returns the same [n], leaves the rest of the
    memory the same, and its buffer holds the first [size - 1] bytes of the
    output, followed by a zero byte unless the format was bad; [n] is the length
    of the whole output, or -1 for a bad format. *)
Theorem vsnprintf_truncates fr str size format ap m F n m' out :
  str <> NULL -> 0 < size < 2 ^ 32 - 1 -> (forall x, is_Some (F !! x) <-> str <= x < str + size) ->
  m ##ₘ F -> bytes_ok m -> Z.of_nat (length out) < 2 ^ 31 ->
  __v_printf record fr format ap (m, []) = Some (n, (m', out)) ->
  exists F', vsnprintf fr str size format ap (m ∪ F) = Some (n, m' ∪ F') /\ m' ##ₘ F' /\
    (forall x, is_Some (F' !! x) <-> str <= x < str + size) /\
    ((n = -1 /\ arr F' str (take (Z.to_nat (size - 1)) out)) \/
     (n = Z.of_nat (length out) /\ arr F' str (take (Z.to_nat (size - 1)) out ++ [0]))).
Proof. apply vsnprintf_record. Qed.

(** The format x%05d and the argument -42, a frame, and a buffer of 4 bytes. *)
Definition fr0 : frame := mk_frame 1000 1200 1300 1400 1500.
Definition mem0 : bmem :=
  bytes_at 100 [120; 37; 48; 53; 100; 0] ∪ bytes_at 200 (word_bytes (-42)) ∪ bytes_at 1000 (replicate 128 0) ∪
  bytes_at 1300 (replicate 16 32) ∪ bytes_at 1400 (replicate 16 48).
Definition buffer0 : bmem := bytes_at 300 (replicate 4 0).

Lemma vsnprintf_truncates_witness : exists m' F',
  vsnprintf fr0 300 4 100 200 (mem0 ∪ buffer0) = Some (6, m' ∪ F') /\ arr F' 300 ([120; 45; 48] ++ [0]).
Proof.
  assert (exists m', __v_printf record fr0 100 200 (mem0, []) = Some (6, (m', [120; 45; 48; 48; 52; 50]))) as [m' E].
  { eexists. vm_compute. reflexivity. }
  assert (forall x, is_Some (buffer0 !! x) <-> 300 <= x < 300 + 4) as Hdom by (intros x; apply (bytes_at_domain 300 (replicate 4 0))).
  assert (mem0 ##ₘ buffer0) as Hd by (apply map_disjoint_dom; apply (bool_decide_unpack _); vm_compute; exact I).
  assert (bytes_ok mem0) as Hb.
  { intros k b Hkb. apply elem_of_map_to_list in Hkb.
    assert (Forall (fun kb => byte (snd kb)) (map_to_list mem0)) as H by (vm_compute; by repeat constructor).
    rewrite Forall_forall in H. exact (H (k, b) Hkb). }
  destruct (vsnprintf_truncates fr0 300 4 100 200 mem0 buffer0 6 m' [120; 45; 48; 48; 52; 50]
    ltac:(unfold NULL; lia) ltac:(lia) Hdom Hd Hb ltac:(simpl; lia) E) as (F' & H1 & _ & _ & [[H2 _]|[_ H2]]); [lia|].
  exists m', F'. split; [exact H1|exact H2].
Defined.

(** C38. An integer printed with %d in a buffer of at least 12 bytes is read back
    by [atoi], for every value of an [int]. *)
Theorem printf_d_atoi fr str size format ap m F v :
  - 2 ^ 31 <= v < 2 ^ 31 -> str <> NULL -> 12 <= size < 2 ^ 32 - 1 ->
  (forall x, is_Some (F !! x) <-> str <= x < str + size) -> m ##ₘ F -> bytes_ok m ->
  arr m format [37; 100; 0] -> arr m ap (word_bytes v) ->
  mapped m (f_buf fr) 128 -> apart (f_buf fr) 128 format 3 ->
  wp (vsnprintf fr str size format ap ;;; atoi str) (fun r _ => r = v) (m ∪ F).
Proof.
  intros Hv Hs Hsz HF Hd Hb Hf Ha Hm Hap. pose proof (decimal_length v Hv) as Hl.
  destruct (wp_returns _ _ _ (wp_v_printf_d fr m format ap v (fun n s => n = Z.of_nat (length (decimal v)) /\ snd s = decimal v)
    Hv Hf Ha Hm Hap ltac:(done))) as (n & [m' out] & E & -> & Eout). simpl in Eout. subst out.
  destruct (vsnprintf_record fr str size format ap m F _ m' (decimal v) Hs ltac:(lia) HF Hd Hb ltac:(lia) E) as (F' & E' & Hd' & _ & H).
  unfold wp, bind. rewrite E'. destruct H as [[H _]|[_ H]]; [lia|]. rewrite take_ge in H by lia.
  assert (arr (m' ∪ F') str (decimal v ++ [0])) as Har by (by apply arr_union_r).
  pose proof (decimal_numeral _ _ v Hv Har) as Hn.
  apply (wp_atoi (m' ∪ F') str [] _ _ 0 (fun r _ => r = v) Hn); [|by apply atoi_decimal].
  intros Hnil%fmap_nil_inv. by apply numeral_nonempty in Hnil; [|lia].
Qed.

(** The format %d, the least [int] and a buffer of 12 bytes. *)
Definition mem1 : bmem :=
  bytes_at 100 [37; 100; 0] ∪ bytes_at 200 (word_bytes (-2147483648)) ∪ bytes_at 1000 (replicate 128 0).
Definition buffer1 : bmem := bytes_at 300 (replicate 12 0).

Lemma mem1_ok : bytes_ok mem1 /\ mem1 ##ₘ buffer1 /\ mapped mem1 1000 128.
Proof.
  split_and!.
  - intros k b Hkb. apply elem_of_map_to_list in Hkb.
    assert (Forall (fun kb => byte (snd kb)) (map_to_list mem1)) as H by (vm_compute; by repeat constructor).
    rewrite Forall_forall in H. exact (H (k, b) Hkb).
  - apply map_disjoint_dom. apply (bool_decide_unpack _). vm_compute. exact I.
  - intros x Hx. destruct (proj2 (bytes_at_domain 1000 (replicate 128 0) x)) as [b Hb]; [rewrite length_replicate; lia|].
    exists b. apply lookup_union_Some_r; [|exact Hb]. apply map_disjoint_dom. apply (bool_decide_unpack _). vm_compute. exact I.
Qed.

Lemma mem1_args : arr mem1 100 [37; 100; 0] /\ arr mem1 200 (word_bytes (-2147483648)).
Proof.
  split.
  - apply arr_union_l, arr_union_l, bytes_at_arr.
  - apply arr_union_l, arr_union_r; [apply bytes_at_disjoint; simpl; lia|apply bytes_at_arr].
Qed.

Lemma printf_d_atoi_witness :
  wp (vsnprintf fr0 300 12 100 200 ;;; atoi 300) (fun r _ => r = -2147483648) (mem1 ∪ buffer1).
Proof.
  assert (forall x, is_Some (buffer1 !! x) <-> 300 <= x < 300 + 12) as Hdom by (intros x; apply (bytes_at_domain 300 (replicate 12 0))).
  assert (apart (f_buf fr0) 128 100 3) as Hap by (right; simpl; lia).
  destruct mem1_ok as (Hb & Hd & Hm). destruct mem1_args as [Hf Ha].
  exact (printf_d_atoi fr0 300 12 100 200 mem1 buffer1 (-2147483648) ltac:(lia) ltac:(unfold NULL; lia) ltac:(lia)
    Hdom Hd Hb Hf Ha Hm Hap).
Defined.

End Formatting.

Module Containers.

(** C39. A heap sorts: nodes inserted in an empty heap with room for them come
    out in the order of their keys, and each time the minimum announced is the
    key of the item extracted. *)
Theorem heap_sorts h l :
  heap_ok h -> size h = O -> (length l < length (elements h))%nat -> Forall (fun x => 0 <= key x) l ->
  wp (insert_all l ;;; extract_all (length l))
    (fun r _ => exists l', StronglySorted key_le l' /\ l' ≡ₚ l /\ r = (fun x => (key x, Some (item x))) <$> l') h.
Proof.
  intros Hok Hs Hl Hk. assert (nodes h = []) as Hnil by (apply nil_length_inv; by rewrite nodes_length).
  apply wp_bind, wp_insert_all; [done|lia|done|]. intros h' Hok' Hn. rewrite Hnil, app_nil_r in Hn.
  apply wp_extract_all; [done| |].
  - rewrite <- nodes_length by done. by rewrite Hn.
  - intros l' h'' Hsort Hp _. exists l'. split; [done|]. split; [by rewrite Hp|done].
Qed.

Lemma heap_sorts_witness :
  wp (insert_all [mk_node 5 1; mk_node 3 2; mk_node 9 3] ;;; extract_all 3)
    (fun r _ => exists l', StronglySorted key_le l' /\ l' ≡ₚ [mk_node 5 1; mk_node 3 2; mk_node 9 3] /\
       r = (fun x => (key x, Some (item x))) <$> l') (mk_heap (replicate 8 (mk_node (-1) 0)) 0).
Proof.
  apply (heap_sorts (mk_heap (replicate 8 (mk_node (-1) 0)) 0) [mk_node 5 1; mk_node 3 2; mk_node 9 3]).
  - split; [simpl; lia|]. split; [done|]. split; [|constructor]. intros j Hj. simpl in Hj. lia.
  - done.
  - simpl. lia.
  - by repeat constructor.
Defined.

(** The blocks that [ralloc] returns in a new region lie inside of it, are
    aligned and do not overlap: each one starts after the end of the ones before
    it. *)
Theorem region_blocks start memsize ns :
  0 < start -> start mod 4 = 0 -> sizeof_region_t <= memsize < 2 ^ 30 -> start + memsize < 2 ^ 32 ->
  Forall (fun n => 0 <= n < 2 ^ 29) ns ->
  wp (ralloc_all ns) (fun ps r => region_ok r /\ blocks_from (start + sizeof_region_t) (start + memsize) ps ns)
    (new_region start memsize).
Proof.
  unfold sizeof_region_t. intros H1 H2 H3 H4 Hn.
  assert (i32 (memsize - 20) = memsize - 20) as Hi by (unfold i32, wraps; rewrite Z.mod_small; lia).
  apply wp_ralloc_all; [|done|].
  - unfold new_region, region_ok, sizeof_region_t. simpl. rewrite Hi. split_and!; try lia; [|done].
    by rewrite <- Zplus_mod_idemp_l, H2.
  - intros ps r Hr Hb. split; [done|]. unfold new_region, sizeof_region_t in Hb. simpl in Hb. rewrite Hi, Z.add_0_r in Hb.
    by replace (start + 20 + (memsize - 20)) with (start + memsize) in Hb by lia.
Qed.

Lemma region_blocks_witness :
  wp (ralloc_all [5; 100; 8]) (fun ps r => region_ok r /\ blocks_from (4096 + sizeof_region_t) (4096 + 44) ps [5; 100; 8])
    (new_region 4096 44).
Proof. apply (region_blocks 4096 44 [5; 100; 8]); [done|done|done|done|by repeat constructor]. Defined.

(** The bytes lost to rounding when an array is closed are not counted: in
    a region of 8 bytes, after two arrays of one byte, [ralloc] returns a block
    that starts at the end of the region. *)
Theorem ralloc_past_the_end :
  let r := new_region 4096 (sizeof_region_t + 8) in
  (fst <$> (rnew_array 1 ;;; rclose_array 1 ;;; rnew_array 1 ;;; rclose_array 1 ;;; ralloc 4) r) = Some (pstart r + rsize r).
Proof. reflexivity. Qed.

End Containers.
