(* ===== verification/Sysmem.v ===== *)
(** * Memory protection

    core/kernel/blackfin/sysmem.c: the cacheability protection lookaside buffers
    (CPLBs), sixteen for data and sixteen for code. [init_mmu] fills them at
    start-up from the table of memory regions, first the pages that are always
    mapped; the miss handlers look the faulting address up in the table and
    replace the unlocked entries in turn.

    The registers are a table of sixteen entries for each kind: a write to any
    other index is a fault. The table of regions ([memtab], written by the linker)
    and the word [memtabsz] are parameters. [dcplb_flags] and [icplb_flags] have
    no [return] statement: what the caller gets is an unknown function of the
    value they compute. *)

From Stdlib Require Import ZArith Lia.
From stdpp Require Import base tactics option list sorting.
From S2P Require Import Prelude Bits.

Open Scope Z_scope.

(** ** Results

    A routine returns, accesses a table outside of its bounds, stops in
    [kernel_panic], or runs for ever. *)
Inductive outcome (A : Type) :=
  | Ret (a : A)
  | OutOfRange
  | Panic
  | Hang.
Arguments Ret {A} _.
Arguments OutOfRange {A}.
Arguments Panic {A}.
Arguments Hang {A}.

Definition obind {A B} (m : outcome A) (k : A -> outcome B) : outcome B :=
  match m with Ret a => k a | OutOfRange => OutOfRange | Panic => Panic | Hang => Hang end.

(** An element of an array. *)
Definition elem {A} (l : list A) (i : Z) : outcome A :=
  if (i <? 0) || (i >=? Z.of_nat (length l)) then OutOfRange else
  match l !! Z.to_nat i with Some x => Ret x | None => OutOfRange end.

Declare Scope outcome_scope.
Delimit Scope outcome_scope with outcome.
Notation "'let?' x := m 'in' k" := (obind m (fun x => k))
  (at level 10, x name, m at level 100, k at level 200, only parsing) : outcome_scope.
Notation "'let?' ' p := m 'in' k" := (obind m (fun x => match x with p => k end))
  (at level 10, p strict pattern, m at level 100, k at level 200, only parsing) : outcome_scope.
Open Scope outcome_scope.

(** ** Regions *)

Record mem_region := mk_region { base : Z; size : Z; flags : Z }.

#[export] Instance mem_region_eq_dec : EqDecision mem_region.
Proof. solve_decision. Defined.

Record cplb_entry := mk_cplb { addr : Z; data : Z }.

#[export] Instance cplb_entry_eq_dec : EqDecision cplb_entry.
Proof. solve_decision. Defined.

Definition MAX_CPLBS : Z := 16.

Definition CPLB_VALID : Z := 0x1.
Definition CPLB_LOCK : Z := 0x2.
Definition CPLB_USER_RD : Z := 0x4.
Definition CPLB_USER_WR : Z := 0x8.
Definition CPLB_SUPV_WR : Z := 0x10.
Definition CPLB_L1_CHBL : Z := 0x1000.
Definition CPLB_WT : Z := 0x4000.

Definition MEM_REG_USER : Z := 0x80000000.
Definition MEM_REG_DATA : Z := 0x40000000.
Definition MEM_REG_CODE : Z := 0x20000000.
Definition MEM_REG_EFLAGS_MASK : Z := 0xF8000000.
Definition MEM_REG_PGSIZE_MASK : Z := 0x000F0000.

Definition ENDCPLB : Z := 0x2.
Definition ENICPLB : Z := 0x2.
Definition IMC : Z := 0x4.
Definition ACACHE_BSRAM : Z := 0x8.
Definition ACACHE_BCACHE : Z := 0xC.
Definition PORT_PREF0 : Z := 0x1000.

Definition page_size_lut : list Z := [0x00000400; 0x00001000; 0x00100000; 0x00400000].

Definition page_size (f : Z) : outcome Z := elem page_size_lut (Z.shiftr (Z.land f MEM_REG_PGSIZE_MASK) 16).

(** One kind of CPLB: its registers, the variables of its replacement policy
    and the register that turns it on. *)
Record cplbs := mk_cplbs {
  tab : list cplb_entry;
  first_unlocked : Z;
  idx : Z;
  control : Z
}.

(** [dc]: data; [ic]: code. *)
Record mmu := mk_mmu { dc : cplbs; ic : cplbs }.

Definition set_tab (t : list cplb_entry) (c : cplbs) : cplbs := mk_cplbs t (first_unlocked c) (idx c) (control c).
Definition set_policy (f i : Z) (c : cplbs) : cplbs := mk_cplbs (tab c) f i (control c).
Definition set_idx (i : Z) (c : cplbs) : cplbs := mk_cplbs (tab c) (first_unlocked c) i (control c).
Definition set_control (w : Z) (c : cplbs) : cplbs := mk_cplbs (tab c) (first_unlocked c) (idx c) w.

(** MAP_DCPLB and MAP_ICPLB. *)
Definition map_cplb (c : cplbs) (i a d : Z) : outcome cplbs :=
  let? _ := elem (tab c) i in Ret (set_tab (<[Z.to_nat i := mk_cplb a d]> (tab c)) c).

Definition disable_cplb (bit : Z) (c : cplbs) : cplbs := set_control (Z.land (control c) (u32 (Z.lnot bit))) c.
Definition enable_cplb (bit : Z) (c : cplbs) : cplbs := set_control (Z.lor (control c) bit) c.

Section sysmem.
Context (memtab : list mem_region) (memtabsz : Z) (left_behind : Z -> Z).

Definition dcplb_flags (mflags : Z) : Z :=
  let flags := mflags in
  let flags := Z.lor flags (Z.lor CPLB_SUPV_WR CPLB_VALID) in
  let flags := if nz (Z.land flags MEM_REG_USER) then Z.lor flags (Z.lor CPLB_USER_RD CPLB_USER_WR) else flags in
  let flags := Z.lor flags (Z.lor CPLB_L1_CHBL CPLB_WT) in
  left_behind flags.

Definition icplb_flags (mflags : Z) : Z :=
  let flags := mflags in
  let flags := Z.lor flags CPLB_VALID in
  let flags := if nz (Z.land flags MEM_REG_USER) then Z.lor flags CPLB_USER_RD else flags in
  left_behind flags.

(** Binary search, the indices in 32 bits. *)
Fixpoint find_loop (fuel : nat) (addr l u : Z) : outcome (option mem_region) :=
  match fuel with
  | O => Hang
  | S fuel =>
      if l <=? u then
        let c := Z.shiftr (u32 (u + l)) 1 in
        let? reg := elem memtab c in
        if addr <? base reg then find_loop fuel addr l (u32 (c - 1))
        else if addr >? u32 (base reg + size reg) then find_loop fuel addr (u32 (c + 1)) u
        else Ret (Some reg)
      else Ret None
  end.

Definition find_mem_reg (addr : Z) : outcome (option mem_region) :=
  find_loop 33 addr 0 (u32 (memtabsz - 1)).

(** The pages of a locked region. [dcplb] and [icplb] are the entries to use. *)
Fixpoint map_pages (fuel : nat) (entry : mem_region) (sz a dcplb icplb : Z) (s : mmu) : outcome (Z * Z * mmu) :=
  match fuel with
  | O => Hang
  | S fuel =>
      if a <? u32 (base entry + size entry) then
        let? '(dcplb, s) :=
          if nz (Z.land (flags entry) MEM_REG_DATA) then
            let data := dcplb_flags (flags entry) in
            let? c := map_cplb (dc s) dcplb a (Z.land data (u32 (Z.lnot MEM_REG_EFLAGS_MASK))) in
            Ret (dcplb + 1, mk_mmu c (ic s))
          else Ret (dcplb, s) in
        let? '(icplb, s) :=
          if nz (Z.land (flags entry) MEM_REG_CODE) then
            let data := icplb_flags (flags entry) in
            let? c := map_cplb (ic s) icplb a (Z.land data (u32 (Z.lnot MEM_REG_EFLAGS_MASK))) in
            Ret (icplb + 1, mk_mmu (dc s) c)
          else Ret (icplb, s) in
        if (dcplb >? 14) || (icplb >? 14) then Panic else
        map_pages fuel entry sz (u32 (a + sz)) dcplb icplb s
      else Ret (dcplb, icplb, s)
  end.

(** Every page of the region once, or the panic at the fifteenth entry. *)
Definition page_fuel (entry : mem_region) (sz : Z) : nat := Z.to_nat (size entry / sz) + 16.

(** [for (entry = memtab; entry->base != 0xffffffff; entry++)], first loop. *)
Fixpoint map_locked (entries : list mem_region) (dcplb icplb : Z) (s : mmu) : outcome (Z * Z * mmu) :=
  match entries with
  | [] => OutOfRange
  | entry :: entries =>
      if base entry =? 0xffffffff then Ret (dcplb, icplb, s) else
      let? '(dcplb, icplb, s) :=
        if nz (Z.land (flags entry) CPLB_LOCK) then
          let? sz := page_size (flags entry) in
          map_pages (page_fuel entry sz) entry sz (base entry) dcplb icplb s
        else Ret (dcplb, icplb, s) in
      map_locked entries dcplb icplb s
  end.

(** Second loop: the first page of each other region. *)
Fixpoint map_first (entries : list mem_region) (dcplb icplb : Z) (s : mmu) : outcome mmu :=
  match entries with
  | [] => OutOfRange
  | entry :: entries =>
      if base entry =? 0xffffffff then Ret s else
      if negb (nz (Z.land (flags entry) CPLB_LOCK)) then
        let? _ := page_size (flags entry) in
        let a := base entry in
        let? '(dcplb, s) :=
          if (dcplb <? 16) && nz (Z.land (flags entry) MEM_REG_DATA) then
            let data := dcplb_flags (flags entry) in
            let? c := map_cplb (dc s) dcplb a (Z.land data (u32 (Z.lnot MEM_REG_EFLAGS_MASK))) in
            Ret (dcplb + 1, mk_mmu c (ic s))
          else Ret (dcplb, s) in
        let? '(icplb, s) :=
          if (icplb <? 16) && nz (Z.land (flags entry) MEM_REG_CODE) then
            let data := icplb_flags (flags entry) in
            let? c := map_cplb (ic s) icplb a (Z.land data (u32 (Z.lnot MEM_REG_EFLAGS_MASK))) in
            Ret (icplb + 1, mk_mmu (dc s) c)
          else Ret (icplb, s) in
        if (dcplb >? 15) && (icplb >? 15) then Ret s else map_first entries dcplb icplb s
      else map_first entries dcplb icplb s
  end.

(** With both caches of the configuration on. *)
Definition init_mmu (s : mmu) : outcome mmu :=
  let? '(dcplb, icplb, s) := map_locked memtab 0 0 s in
  let s := mk_mmu (set_policy dcplb dcplb (dc s)) (set_policy icplb icplb (ic s)) in
  let? s := map_first memtab dcplb icplb s in
  let ctrl := Z.lor (control (ic s)) (Z.lor IMC ENICPLB) in
  let s := mk_mmu (dc s) (set_control ctrl (ic s)) in
  let ctrl := Z.lor (Z.lor (Z.lor (control (dc s)) ACACHE_BCACHE) ACACHE_BSRAM) PORT_PREF0 in
  Ret (mk_mmu (set_control ctrl (dc s)) (ic s)).

(** [addr] is what the fault address register has. *)
Definition dcplb_miss (addr : Z) (s : mmu) : outcome (Z * mmu) :=
  let? r := find_mem_reg addr in
  match r with
  | None => Ret (-1, s)
  | Some entry =>
      if negb (nz (Z.land (flags entry) MEM_REG_DATA)) then Ret (-1, s) else
      let c := disable_cplb ENDCPLB (dc s) in
      let data := dcplb_flags (flags entry) in
      let? sz := page_size data in
      let addr := Z.land addr (u32 (Z.lnot (u32 (sz - 1)))) in
      let? c := map_cplb c (idx c) addr (Z.land data (u32 (Z.lnot MEM_REG_EFLAGS_MASK))) in
      let c := set_idx (u32 (idx c + 1)) c in
      let c := if idx c >=? MAX_CPLBS then set_idx (first_unlocked c) c else c in
      Ret (0, mk_mmu (enable_cplb ENDCPLB c) (ic s))
  end.

Definition icplb_miss (addr : Z) (s : mmu) : outcome (Z * mmu) :=
  let? r := find_mem_reg addr in
  match r with
  | None => Ret (-1, s)
  | Some entry =>
      if negb (nz (Z.land (flags entry) MEM_REG_CODE)) then Ret (-1, s) else
      let c := disable_cplb ENICPLB (ic s) in
      let data := icplb_flags (flags entry) in
      let? sz := page_size data in
      let addr := Z.land addr (u32 (Z.lnot (u32 (sz - 1)))) in
      let? c := map_cplb c (idx c) addr (Z.land data (u32 (Z.lnot MEM_REG_EFLAGS_MASK))) in
      let c := set_idx (u32 (idx c + 1)) c in
      let c := if idx c =? MAX_CPLBS then set_idx (first_unlocked c) c else c in
      Ret (0, mk_mmu (dc s) (enable_cplb ENICPLB c))
  end.

End sysmem.

(** ** The search for a region *)

Definition rend (r : mem_region) : Z := base r + size r.

(** What memtab.S asks for: the regions in the order of their addresses; the
    first one starts at zero. *)
Definition table_ok (t : list mem_region) : Prop :=
  Forall (fun r => 0 <= base r /\ 0 <= size r /\ rend r < 2 ^ 32) t /\
  StronglySorted (fun r r' => rend r <= base r') t /\
  (exists r, head t = Some r /\ base r = 0).

(** The address belongs to the region. *)
Definition contains (a : Z) (r : mem_region) : Prop := base r <= a < rend r.

(** The test of the search is [addr > base + size]: it also takes the first
    address behind the region. *)
Definition accepts (a : Z) (r : mem_region) : Prop := contains a r \/ (base r <= a /\ a = rend r).

Lemma accepts_iff a r : accepts a r <-> base r <= a <= rend r.
Proof. unfold accepts, contains. lia. Qed.

Lemma elem_lookup {A} (l : list A) (i : Z) x : 0 <= i -> l !! Z.to_nat i = Some x -> elem l i = Ret x.
Proof.
  intros Hi E. unfold elem. pose proof (lookup_lt_Some _ _ _ E). destruct (Z.ltb_spec i 0); [lia|].
  destruct (Z.geb_spec i (Z.of_nat (length l))); [lia|]. cbn [orb]. by rewrite E.
Qed.

Lemma elem_in_range {A} (l : list A) (i : Z) : 0 <= i < Z.of_nat (length l) -> exists x, elem l i = Ret x /\ l !! Z.to_nat i = Some x.
Proof.
  intros Hi. destruct (lookup_lt_is_Some_2 l (Z.to_nat i)) as [x E]; [lia|]. exists x. split; [apply elem_lookup; [lia|done]|done].
Qed.

Lemma sorted_lookup t i j r r' : StronglySorted (fun r r' => rend r <= base r') t ->
  t !! i = Some r -> t !! j = Some r' -> (i < j)%nat -> rend r <= base r'.
Proof.
  intros Hs. revert i j. induction Hs as [|x l Hs IH Hx]; intros i j Hi Hj Hlt; [done|].
  destruct j as [|j]; [lia|]. destruct i as [|i]; cbn in *.
  - simplify_eq. exact (Forall_lookup_1 _ _ _ _ Hx Hj).
  - eapply IH; [done..|lia].
Qed.

Section search.
Context (t : list mem_region) (Ht : table_ok t).

Lemma table_bounds i r : t !! i = Some r -> 0 <= base r /\ 0 <= size r /\ rend r < 2 ^ 32.
Proof. intros E. destruct Ht as (Hf & _). by eapply Forall_lookup_1 in Hf. Qed.

Lemma table_first r : t !! 0%nat = Some r -> base r = 0.
Proof. destruct Ht as (_ & _ & r0 & E & H0). destruct t; [done|]. cbn in *. congruence. Qed.

(** Two regions do not have an address in common. *)
Lemma contains_unique a r r' : r ∈ t -> r' ∈ t -> contains a r -> contains a r' -> r = r'.
Proof using Ht.
  intros [i Ei]%list_elem_of_lookup [j Ej]%list_elem_of_lookup [] []. destruct Ht as (_ & Hs & _).
  destruct (Nat.lt_trichotomy i j) as [Hij|[->|Hij]]; [|congruence|].
  - pose proof (sorted_lookup t i j r r' Hs Ei Ej Hij). lia.
  - pose proof (sorted_lookup t j i r' r Hs Ej Ei Hij). lia.
Qed.

(** What the search among the first [n] entries returns. *)
Definition found (n : nat) (a : Z) (o : option mem_region) : Prop :=
  match o with Some r => r ∈ take n t /\ accepts a r | None => forall r, r ∈ take n t -> ~ accepts a r end.

(** Everything left of [l] ends before [a] and everything right of [u] starts
    behind it; every round at least halves what is left. *)
Lemma find_loop_spec (n : nat) fuel a l u :
  (n <= length t)%nat -> Z.of_nat n <= 2 ^ 31 ->
  0 <= a < 2 ^ 32 -> 0 <= l <= u + 1 -> 0 <= u < Z.of_nat n -> u - l + 1 < 2 ^ Z.of_nat fuel ->
  (forall i r, t !! i = Some r -> Z.of_nat i < l -> rend r < a) ->
  (forall i r, t !! i = Some r -> (i < n)%nat -> u < Z.of_nat i -> a < base r) ->
  exists o, find_loop t (S fuel) a l u = Ret o /\ found n a o.
Proof using Ht.
  intros Hn Hlen. revert l u. induction fuel as [|fuel IH]; intros l u Ha Hl Hu Hf Hlo Hhi.
  all: cbn [find_loop]; destruct (Z.leb_spec l u) as [Hlu|Hlu];
    [|exists None; split; [done|]; intros r [i Ei]%list_elem_of_lookup; rewrite accepts_iff; intros [H1 H2];
      apply lookup_take_Some in Ei as [Ei Hin];
      destruct (Z.lt_ge_cases (Z.of_nat i) l) as [Hi|Hi]; [specialize (Hlo _ _ Ei Hi); lia|];
      assert (u < Z.of_nat i) as Hi' by lia; specialize (Hhi _ _ Ei Hin Hi'); lia].
  { change (2 ^ Z.of_nat 0) with 1 in Hf. lia. }
  rewrite u32_small, Z.shiftr_div_pow2 by lia. change (2 ^ 1) with 2.
  assert (l <= (u + l) / 2 <= u /\ u + l - 1 <= 2 * ((u + l) / 2) <= u + l) as (Hc & Hc2)
    by (pose proof (Z.div_mod (u + l) 2); pose proof (Z.mod_pos_bound (u + l) 2); lia).
  set (c := (u + l) / 2) in *. destruct (elem_in_range t c) as (r & -> & Er); [lia|]. cbn [obind].
  destruct (table_bounds _ _ Er) as (Hb0 & Hs0 & He0). unfold rend in He0. rewrite (u32_small (base r + size r)) by lia.
  rewrite Nat2Z.inj_succ, Z.pow_succ_r in Hf by lia. destruct Ht as (_ & Hsort & _).
  destruct (Z.ltb_spec a (base r)) as [H1|H1]; [|destruct (Z.gtb_spec a (base r + size r)) as [H2|H2]].
  - assert (0 < c) as Hc0.
    { destruct (Z.eq_dec c 0) as [E0|]; [|lia]. rewrite E0 in Er. apply table_first in Er. lia. }
    rewrite u32_small by lia. apply IH; [lia..|done|]. intros i r' Ei Hin Hi.
    destruct (decide (i = Z.to_nat c)) as [->|]; [by simplify_eq|].
    assert (rend r <= base r') by (eapply sorted_lookup; [exact Hsort|exact Er|exact Ei|lia]). unfold rend in *. lia.
  - rewrite u32_small by lia. apply IH; [lia..| |done]. intros i r' Ei Hi.
    destruct (decide (i = Z.to_nat c)) as [->|]; [simplify_eq; unfold rend; lia|].
    assert (rend r' <= base r) by (eapply sorted_lookup; [exact Hsort|exact Ei|exact Er|lia]). lia.
  - exists (Some r). split; [done|]. split; [|rewrite accepts_iff; unfold rend; lia].
    eapply list_elem_of_lookup_2. apply lookup_take_Some. split; [exact Er|lia].
Qed.

(** [n] entries are searched in at most [log2 n + 2] rounds. *)
Lemma find_rounds a n fuel : 0 <= a < 2 ^ 32 -> (n <= length t)%nat -> Z.of_nat n <= 2 ^ 31 ->
  0 < Z.of_nat n < 2 ^ Z.of_nat fuel ->
  exists o, find_loop t (S fuel) a 0 (u32 (Z.of_nat n - 1)) = Ret o /\ found n a o.
Proof using Ht.
  intros Ha Hn Hlen Hf. rewrite u32_small by lia. apply find_loop_spec; [lia..| |]; intros; lia.
Qed.

(** Away from the ends of the regions, the search finds the region that the
    address belongs to. *)
Lemma found_contains a n o : found n a o -> (forall r, r ∈ take n t -> a <> rend r) ->
  forall r, o = Some r <-> r ∈ take n t /\ contains a r.
Proof using Ht.
  intros Ho Hne r. assert (forall x, x ∈ take n t -> x ∈ t) as Hin.
  { intros x Hx. rewrite <- (take_drop n t). apply elem_of_app. by left. }
  split.
  - intros ->. destruct Ho as [Hr [Hc|[_ He]]]; [done|]. by destruct (Hne r Hr).
  - intros [Hr Hc]. destruct o as [r'|]; [|destruct (Ho r Hr); by left].
    destruct Ho as [Hr' [Hc'|[_ He]]]; [|by destruct (Hne r' Hr')]. f_equal.
    by apply (contains_unique a); [apply Hin|apply Hin| |].
Qed.

End search.

(** ** Replacement *)

(** The registers are all there, at least two of them are not locked, and the
    next one to replace is one of these. *)
Definition cplbs_ok (c : cplbs) : Prop :=
  length (tab c) = 16%nat /\ 0 <= first_unlocked c <= 14 /\ first_unlocked c <= idx c < 16.

(** An access to [a] finds the entry. *)
Definition hits (e : cplb_entry) (a : Z) : Prop :=
  Z.testbit (data e) 0 = true /\ exists sz, page_size (data e) = Ret sz /\ addr e <= a < addr e + sz.

Definition hit (c : cplbs) (a : Z) : Prop := exists e, e ∈ tab c /\ hits e a.

(** A page size field names one of the four page sizes. *)
Definition names_page (f : Z) : Prop := 0 <= f < 2 ^ 32 /\ Z.land f 0x000C0000 = 0.
Definition page_ok (r : mem_region) : Prop := names_page (flags r).

(** The page of the entry has the address, whether the entry is valid or not. *)
Definition covers (e : cplb_entry) (a : Z) : Prop := exists sz, page_size (data e) = Ret sz /\ addr e <= a < addr e + sz.

(** The word [d], that a flag function handed over, is in the data register of
    an entry for the page of [a]. *)
Definition holds (c : cplbs) (d a : Z) : Prop :=
  exists e, e ∈ tab c /\ data e = Z.land d (u32 (Z.lnot MEM_REG_EFLAGS_MASK)) /\ covers e a.

Definition next_idx (c : cplbs) : Z := if idx c + 1 >=? 16 then first_unlocked c else idx c + 1.

(** What a miss does to the CPLBs of its kind. *)
Definition refill (a d : Z) (c : cplbs) : cplbs :=
  mk_cplbs (<[Z.to_nat (idx c) := mk_cplb a d]> (tab c)) (first_unlocked c) (next_idx c)
    (Z.lor (Z.land (control c) (u32 (Z.lnot 2))) 2).

Definition page_of (sz a : Z) : Z := Z.land a (u32 (Z.lnot (u32 (sz - 1)))).

Lemma refill_ok a d c : cplbs_ok c -> cplbs_ok (refill a d c).
Proof.
  intros (Hl & Hf & Hi). unfold cplbs_ok, refill, next_idx. cbn. rewrite length_insert. split_and!; [done|lia..| |].
  all: destruct (Z.geb_spec (idx c + 1) 16); lia.
Qed.

Lemma map_cplb_ok c i a d : length (tab c) = 16%nat -> 0 <= i < 16 ->
  map_cplb c i a d = Ret (set_tab (<[Z.to_nat i := mk_cplb a d]> (tab c)) c).
Proof. intros Hl Hi. unfold map_cplb. destruct (elem_in_range (tab c) i) as (x & -> & _); [lia|done]. Qed.

Section misses.
Context (t : list mem_region) (n : Z) (lb : Z -> Z).

Lemma dcplb_miss_refill a s reg sz : cplbs_ok (dc s) -> find_mem_reg t n a = Ret (Some reg) ->
  nz (Z.land (flags reg) MEM_REG_DATA) = true -> page_size (dcplb_flags lb (flags reg)) = Ret sz ->
  dcplb_miss t n lb a s = Ret (0, mk_mmu
    (refill (page_of sz a) (Z.land (dcplb_flags lb (flags reg)) (u32 (Z.lnot MEM_REG_EFLAGS_MASK))) (dc s)) (ic s)).
Proof.
  intros (Hl & Hf & Hi) E Hd Hsz. unfold dcplb_miss. rewrite E. cbn [obind]. rewrite Hd. cbn [negb]. rewrite Hsz. cbn [obind].
  rewrite map_cplb_ok; [|done|cbn; lia]. cbn [obind]. unfold refill, next_idx, enable_cplb, disable_cplb, set_tab, set_idx, set_control, MAX_CPLBS.
  cbn. rewrite u32_small by lia. by destruct (idx (dc s) + 1 >=? 16).
Qed.

Lemma icplb_miss_refill a s reg sz : cplbs_ok (ic s) -> find_mem_reg t n a = Ret (Some reg) ->
  nz (Z.land (flags reg) MEM_REG_CODE) = true -> page_size (icplb_flags lb (flags reg)) = Ret sz ->
  icplb_miss t n lb a s = Ret (0, mk_mmu (dc s)
    (refill (page_of sz a) (Z.land (icplb_flags lb (flags reg)) (u32 (Z.lnot MEM_REG_EFLAGS_MASK))) (ic s))).
Proof.
  intros (Hl & Hf & Hi) E Hd Hsz. unfold icplb_miss. rewrite E. cbn [obind]. rewrite Hd. cbn [negb]. rewrite Hsz. cbn [obind].
  rewrite map_cplb_ok; [|done|cbn; lia]. cbn [obind]. unfold refill, next_idx, enable_cplb, disable_cplb, set_tab, set_idx, set_control, MAX_CPLBS.
  cbn. rewrite u32_small by lia.
  destruct (Z.eqb_spec (idx (ic s) + 1) 16) as [->|]; [done|]. by destruct (Z.geb_spec (idx (ic s) + 1) 16); [lia|].
Qed.

End misses.

(** *** Pages *)

Lemma page_bits (f : Z) : 0 <= f < 2 ^ 32 -> Z.land f 0x000C0000 = 0 ->
  exists k, 0 <= k < 4 /\ Z.shiftr (Z.land f MEM_REG_PGSIZE_MASK) 16 = k.
Proof.
  intros Hf H0. eexists. split; [|done].
  assert (Z.land f MEM_REG_PGSIZE_MASK = Z.land f 0x30000) as ->.
  { change MEM_REG_PGSIZE_MASK with (Z.lor 0x30000 0xC0000). by rewrite Z.land_lor_distr_r, H0, Z.lor_0_r. }
  rewrite Z.shiftr_land. change (Z.shiftr 0x30000 16) with (Z.ones 2). rewrite Z.land_ones by lia.
  apply Z.mod_pos_bound. lia.
Qed.

(** The page size is a power of two that divides the address space. *)
Lemma page_size_pow f : 0 <= f < 2 ^ 32 -> Z.land f 0x000C0000 = 0 -> exists k, 0 < k < 32 /\ page_size f = Ret (2 ^ k).
Proof.
  intros Hf H0. destruct (page_bits f Hf H0) as (k & Hk & E). unfold page_size. rewrite E.
  assert (k = 0 \/ k = 1 \/ k = 2 \/ k = 3) as [->|[->|[->| ->]]] by lia; [exists 10|exists 12|exists 20|exists 22]; (split; [lia|done]).
Qed.

Lemma page_of_pow k a : 0 < k < 32 -> 0 <= a < 2 ^ 32 -> page_of (2 ^ k) a = a / 2 ^ k * 2 ^ k.
Proof.
  intros Hk Ha. unfold page_of.
  assert (2 ^ k < 2 ^ 32) by (apply Z.pow_lt_mono_r; lia). assert (0 < 2 ^ k) by (by apply Z.pow_pos_nonneg; lia).
  rewrite (u32_small (2 ^ k - 1)) by lia. replace (2 ^ k - 1) with (Z.ones k) by (rewrite Z.ones_equiv; lia).
  rewrite <- Z.shiftl_mul_pow2, <- Z.shiftr_div_pow2, <- Z.ldiff_ones_r by lia.
  apply Z.bits_inj'. intros i Hi. rewrite Z.ldiff_spec, Z.land_spec. 
  unfold u32, wrapu. destruct (Z.lt_ge_cases i 32) as [H32|H32].
  - rewrite Z.mod_pow2_bits_low, Z.lnot_spec by lia. done.
  - rewrite Z.mod_pow2_bits_high by lia. rewrite (Z.bits_above_log2 a i); [done|lia|].
    destruct (Z.eq_dec a 0) as [->|]; [cbn; lia|]. apply Z.lt_le_trans with 32; [apply Z.log2_lt_pow2; lia|lia].
Qed.

Lemma page_of_covers k a : 0 < k < 32 -> 0 <= a < 2 ^ 32 -> page_of (2 ^ k) a <= a < page_of (2 ^ k) a + 2 ^ k.
Proof.
  intros Hk Ha. rewrite page_of_pow by done. assert (0 < 2 ^ k) by (by apply Z.pow_pos_nonneg; lia).
  pose proof (Z.div_mod a (2 ^ k)). pose proof (Z.mod_pos_bound a (2 ^ k)). lia.
Qed.

(** *** Flags *)

(** Masking the extended flags keeps the other bits. *)
Lemma eflags_mask d i : 0 <= i < 27 -> Z.testbit (Z.land d (u32 (Z.lnot MEM_REG_EFLAGS_MASK))) i = Z.testbit d i.
Proof.
  intros Hi. rewrite Z.land_spec. change (u32 (Z.lnot MEM_REG_EFLAGS_MASK)) with (Z.ones 27).
  by rewrite Z.ones_spec_low, andb_true_r by lia.
Qed.

(** The page size is read from bits 16 to 19. *)
Lemma page_size_ext f g : (forall i, 16 <= i < 20 -> Z.testbit f i = Z.testbit g i) -> page_size f = page_size g.
Proof.
  intros H. unfold page_size. do 2 f_equal. apply Z.bits_inj'. intros i Hi. rewrite !Z.land_spec.
  destruct (Z.lt_ge_cases i 16); [|destruct (Z.lt_ge_cases i 20)]; [|by rewrite H by lia|].
  - assert (Z.testbit MEM_REG_PGSIZE_MASK i = false) as ->; [|by rewrite !andb_false_r].
    change MEM_REG_PGSIZE_MASK with (Z.shiftl (Z.ones 4) 16). by rewrite Z.shiftl_spec_low.
  - assert (Z.testbit MEM_REG_PGSIZE_MASK i = false) as ->; [|by rewrite !andb_false_r].
    change MEM_REG_PGSIZE_MASK with (Z.shiftl (Z.ones 4) 16). by rewrite Z.shiftl_spec_high, Z.ones_spec_high by lia.
Qed.

Lemma page_ok_size r : page_ok r -> exists k, 0 < k < 32 /\ page_size (flags r) = Ret (2 ^ k).
Proof. intros [Hf H0]. by apply page_size_pow. Qed.

(** An entry made for [a] with the word [d] covers [a]. *)
Lemma entry_covers d a k : 0 < k < 32 -> 0 <= a < 2 ^ 32 -> page_size d = Ret (2 ^ k) ->
  covers (mk_cplb (page_of (2 ^ k) a) (Z.land d (u32 (Z.lnot MEM_REG_EFLAGS_MASK)))) a.
Proof.
  intros Hk Ha Hsz. exists (2 ^ k). cbn [data addr]. split; [|by apply page_of_covers]. rewrite <- Hsz. apply page_size_ext.
  intros i Hi. by rewrite eflags_mask by lia.
Qed.

(** It is hit when the word has the bit that makes it valid. *)
Lemma holds_hit c d a : holds c d a -> Z.testbit d 0 = true -> hit c a.
Proof. intros (e & He & Ed & Hc) H0. exists e. split; [done|]. split; [by rewrite Ed, eflags_mask by lia|done]. Qed.

(** *** Replacement in turn *)

Definition refills (l : list cplb_entry) (c : cplbs) : cplbs := foldl (fun c e => refill (addr e) (data e) c) c l.

(** The entry that the [j]-th miss from now replaces. *)
Definition slot (c : cplbs) (j : Z) : Z := first_unlocked c + (idx c - first_unlocked c + j) mod (16 - first_unlocked c).

Lemma slot_range c j : cplbs_ok c -> first_unlocked c <= slot c j < 16.
Proof.
  intros (_ & Hf & _). unfold slot. pose proof (Z.mod_pos_bound (idx c - first_unlocked c + j) (16 - first_unlocked c)). lia.
Qed.

Lemma slot_inj c j k : cplbs_ok c -> 0 < k - j < 16 - first_unlocked c -> slot c j <> slot c k.
Proof.
  intros (_ & Hf & _) Hjk E. unfold slot in E. set (n := 16 - first_unlocked c) in *. set (x := idx c - first_unlocked c) in *.
  assert (0 < n) as Hn by lia. clearbody n x. pose proof (Z.div_mod (x + j) n ltac:(lia)) as Ej. pose proof (Z.div_mod (x + k) n ltac:(lia)) as Ek.
  assert ((x + j) mod n = (x + k) mod n) as Em by lia. rewrite Em in Ej. set (p := (x + j) / n) in *. set (q := (x + k) / n) in *.
  assert (k - j = n * (q - p)) as Eq by (rewrite Z.mul_sub_distr_l; lia). set (w := q - p) in *. clearbody w. clear -Eq Hjk Hn.
  destruct (Z.le_gt_cases w 0); nia.
Qed.

Lemma slot_next c j : cplbs_ok c -> slot c (j + 1) = if slot c j + 1 >=? 16 then first_unlocked c else slot c j + 1.
Proof.
  intros (_ & Hf & _). unfold slot. set (n := 16 - first_unlocked c). set (x := idx c - first_unlocked c).
  replace (x + (j + 1)) with (x + j + 1) by lia. rewrite <- (Z.add_mod_idemp_l (x + j)) by lia.
  pose proof (Z.mod_pos_bound (x + j) n). destruct (Z.geb_spec (first_unlocked c + (x + j) mod n + 1) 16).
  - replace ((x + j) mod n + 1) with n by lia. rewrite Z.mod_same by lia. lia.
  - rewrite Z.mod_small; lia.
Qed.

Lemma refills_spec l c : cplbs_ok c -> Z.of_nat (length l) <= 16 - first_unlocked c ->
  cplbs_ok (refills l c) /\ first_unlocked (refills l c) = first_unlocked c /\ idx (refills l c) = slot c (Z.of_nat (length l)) /\
  (forall j e, l !! j = Some e -> tab (refills l c) !! Z.to_nat (slot c (Z.of_nat j)) = Some e) /\
  (forall i : nat, Z.of_nat i < first_unlocked c -> tab (refills l c) !! i = tab c !! i).
Proof.
  intros Hc. induction l as [|e l IH] using rev_ind; intros Hl.
  - cbn. split_and!; try done. unfold slot. destruct Hc as (_ & Hf & Hi). rewrite Z.add_0_r, Z.mod_small; lia.
  - rewrite length_app in *. cbn [length] in *. destruct IH as (Hok & Ef & Ei & Hj & Hlow); [lia|].
    unfold refills in *. rewrite foldl_snoc. set (c' := foldl _ c l) in *. cbn [refill tab first_unlocked idx].
    pose proof (slot_range c (Z.of_nat (length l)) Hc) as Hr.
    split_and!; [by apply refill_ok|done| | |].
    + unfold next_idx. rewrite Ei, Ef, Nat2Z.inj_add. symmetry. by apply slot_next.
    + intros j e' Ej. rewrite Ei. apply lookup_app_Some in Ej as [Ej|[Hge Ej]].
      * assert (j < length l)%nat by (by eapply lookup_lt_Some).
        pose proof (slot_inj c (Z.of_nat j) (Z.of_nat (length l)) Hc ltac:(lia)).
        pose proof (slot_range c (Z.of_nat j) Hc). destruct Hc as (_ & Hf & _).
        rewrite list_lookup_insert_ne by lia. by apply Hj.
      * apply list_lookup_singleton_Some in Ej as [Hz <-]. replace j with (length l) by lia.
        destruct Hc as (_ & Hf & _). destruct e. apply list_lookup_insert_eq. destruct Hok as (-> & _). lia.
    + intros i Hi. rewrite Ei, list_lookup_insert_ne by lia. by apply Hlow.
Qed.

(** ** The map at start-up *)

(** The first entries of a kind are [D]. *)
Definition fill (D : list cplb_entry) (c : cplbs) : cplbs := set_tab (D ++ drop (length D) (tab c)) c.

Lemma map_fill D c i a d : length (tab c) = 16%nat -> i = Z.of_nat (length D) -> (length D < 16)%nat ->
  map_cplb (fill D c) i a d = Ret (fill (D ++ [mk_cplb a d]) c).
Proof.
  intros Hc -> HD. rewrite map_cplb_ok by (cbn; rewrite ?length_app, ?length_drop; lia). f_equal.
  unfold fill, set_tab. cbn. f_equal. rewrite Nat2Z.id, length_app. cbn [length].
  destruct (drop (length D) (tab c)) as [|x l] eqn:E.
  - apply (f_equal length) in E. rewrite length_drop in E. cbn in E. lia.
  - rewrite insert_app_r_alt, Nat.sub_diag by done. cbn. rewrite <- app_assoc. do 3 f_equal.
    by rewrite <- drop_drop, E.
Qed.

Definition locked (r : mem_region) : bool := nz (Z.land (flags r) CPLB_LOCK).
Definition is_data (r : mem_region) : bool := nz (Z.land (flags r) MEM_REG_DATA).
Definition is_code (r : mem_region) : bool := nz (Z.land (flags r) MEM_REG_CODE).

(** [n] pages from [a] on. *)
Definition pages_from (a sz : Z) (n : nat) : list Z := (fun i : nat => a + Z.of_nat i * sz) <$> seq 0 n.

(** The pages of a region, the last one perhaps in part. *)
Definition region_pages (r : mem_region) : list Z :=
  match page_size (flags r) with
  | Ret sz => pages_from (base r) sz (Z.to_nat ((size r + sz - 1) / sz))
  | _ => []
  end.

(** The pages do not reach the end of the address space. *)
Definition region_ok (r : mem_region) : Prop :=
  page_ok r /\ 0 <= base r < 0xffffffff /\ 0 <= size r /\
  forall sz, page_size (flags r) = Ret sz -> rend r + sz <= 2 ^ 32.

Section start.
Context (lb : Z -> Z).

Definition d_entry (r : mem_region) (a : Z) : cplb_entry :=
  mk_cplb a (Z.land (dcplb_flags lb (flags r)) (u32 (Z.lnot MEM_REG_EFLAGS_MASK))).
Definition i_entry (r : mem_region) (a : Z) : cplb_entry :=
  mk_cplb a (Z.land (icplb_flags lb (flags r)) (u32 (Z.lnot MEM_REG_EFLAGS_MASK))).

(** The entries for the addresses [l] of a region, of each kind. *)
Definition d_entries (r : mem_region) (l : list Z) : list cplb_entry := if is_data r then d_entry r <$> l else [].
Definition i_entries (r : mem_region) (l : list Z) : list cplb_entry := if is_code r then i_entry r <$> l else [].

Definition locked_pages (r : mem_region) : list Z := if locked r then region_pages r else [].
Definition first_page (r : mem_region) : list Z := if locked r then [] else [base r].

Definition locked_d (rs : list mem_region) : list cplb_entry := rs ≫= (fun r => d_entries r (locked_pages r)).
Definition locked_i (rs : list mem_region) : list cplb_entry := rs ≫= (fun r => i_entries r (locked_pages r)).
Definition first_d (rs : list mem_region) : list cplb_entry := rs ≫= (fun r => d_entries r (first_page r)).
Definition first_i (rs : list mem_region) : list cplb_entry := rs ≫= (fun r => i_entries r (first_page r)).

Definition fits (D I : list cplb_entry) : bool := (length D <=? 14)%nat && (length I <=? 14)%nat.

Lemma fits_prefix D D' I I' : fits (D ++ D') (I ++ I') = true -> fits D I = true.
Proof. unfold fits. rewrite !length_app, !andb_true_iff, !Nat.leb_le. lia. Qed.

(** What mapping [l] gives: the entries, or the panic when they do not fit. *)
Definition mapped (D I : list cplb_entry) (s : mmu) : outcome (Z * Z * mmu) :=
  if fits D I then Ret (Z.of_nat (length D), Z.of_nat (length I), mk_mmu (fill D (dc s)) (fill I (ic s))) else Panic.

Context (s : mmu) (Hdc : length (tab (dc s)) = 16%nat) (Hic : length (tab (ic s)) = 16%nat).

Lemma mapped_overflow D D' I I' : fits D I = false -> mapped (D ++ D') (I ++ I') s = Panic.
Proof.
  intros H. unfold mapped. destruct (fits (D ++ D') (I ++ I')) eqn:E; [|done]. apply fits_prefix in E. congruence.
Qed.

Lemma pages_from_S a sz n : pages_from a sz (S n) = a :: pages_from (a + sz) sz n.
Proof.
  unfold pages_from. cbn [seq]. rewrite fmap_cons. f_equal; [lia|]. rewrite <- fmap_S_seq, <- list_fmap_compose.
  apply list_fmap_ext. intros i x _. cbn. lia.
Qed.

(** One round of the inner loop. *)
Lemma map_pages_step fuel r sz a D I : fits D I = true -> a < u32 (base r + size r) ->
  map_pages lb (S fuel) r sz a (Z.of_nat (length D)) (Z.of_nat (length I)) (mk_mmu (fill D (dc s)) (fill I (ic s))) =
  let D' := D ++ d_entries r [a] in let I' := I ++ i_entries r [a] in
  if fits D' I' then
    map_pages lb fuel r sz (u32 (a + sz)) (Z.of_nat (length D')) (Z.of_nat (length I')) (mk_mmu (fill D' (dc s)) (fill I' (ic s)))
  else Panic.
Proof.
  intros Hf Ha. unfold fits in Hf. rewrite andb_true_iff, !Nat.leb_le in Hf. cbn [map_pages]. apply Z.ltb_lt in Ha as ->.
  cbv zeta. unfold fits, d_entries, i_entries, is_data, is_code. cbn [dc].
  destruct (nz (Z.land (flags r) MEM_REG_DATA)), (nz (Z.land (flags r) MEM_REG_CODE)); cbn [fmap list_fmap obind dc ic].
  all: rewrite ?app_nil_r, ?(map_fill D (dc s)), ?(map_fill I (ic s)) by (done || lia); cbn [obind dc ic];
    rewrite ?map_fill by (done || lia); cbn [obind dc ic]; rewrite ?length_app; cbn [length].
  all: rewrite ?Nat2Z.inj_add; change (Z.of_nat 1) with 1; fold (d_entry r a) (i_entry r a).
  all: repeat match goal with |- context [?x >? ?y] => destruct (Z.gtb_spec x y) | |- context [(?x <=? ?y)%nat] => destruct (Nat.leb_spec x y) end;
    (done || lia).
Qed.

Lemma d_entries_cons r a l : d_entries r (a :: l) = d_entries r [a] ++ d_entries r l.
Proof. unfold d_entries. by destruct (is_data r). Qed.

Lemma i_entries_cons r a l : i_entries r (a :: l) = i_entries r [a] ++ i_entries r l.
Proof. unfold i_entries. by destruct (is_code r). Qed.

Lemma entries_nil r : d_entries r [] = [] /\ i_entries r [] = [].
Proof. unfold d_entries, i_entries. by destruct (is_data r), (is_code r). Qed.

Lemma map_pages_spec r sz : 0 < sz -> 0 <= base r -> 0 <= size r -> rend r + sz <= 2 ^ 32 ->
  forall n fuel a D I, (n < fuel)%nat -> 0 <= a -> rend r <= a + Z.of_nat n * sz < rend r + sz -> fits D I = true ->
  map_pages lb fuel r sz a (Z.of_nat (length D)) (Z.of_nat (length I)) (mk_mmu (fill D (dc s)) (fill I (ic s))) =
  mapped (D ++ d_entries r (pages_from a sz n)) (I ++ i_entries r (pages_from a sz n)) s.
Proof.
  intros Hsz Hb0 Hs0 Htop. unfold rend in *. induction n as [|n IH]; intros [|fuel] a D I Hf Ha Hn Hfit; [lia| |lia|].
  - cbn [map_pages]. rewrite u32_small by lia. destruct (Z.ltb_spec a (base r + size r)); [lia|].
    change (pages_from a sz 0) with (@nil Z). destruct (entries_nil r) as [-> ->]. unfold mapped. by rewrite !app_nil_r, Hfit.
  - rewrite map_pages_step; [|done|rewrite u32_small; nia]. cbv zeta.
    rewrite pages_from_S, (d_entries_cons r a (pages_from _ _ _)), (i_entries_cons r a (pages_from _ _ _)), !app_assoc.
    destruct (fits (D ++ d_entries r [a]) (I ++ i_entries r [a])) eqn:E.
    + rewrite (u32_small (a + sz)) by nia. apply IH; [lia|lia|nia|done].
    + by rewrite mapped_overflow.
Qed.

(** The first loop. *)
Lemma map_locked_spec rs e rest : Forall region_ok rs -> base e = 0xffffffff -> forall D I, fits D I = true ->
  map_locked lb (rs ++ e :: rest) (Z.of_nat (length D)) (Z.of_nat (length I)) (mk_mmu (fill D (dc s)) (fill I (ic s))) =
  mapped (D ++ locked_d rs) (I ++ locked_i rs) s.
Proof.
  intros Hrs He. induction Hrs as [|r rs ((Hp & Hp') & Hb & Hs0 & Htop) _ IH]; intros D I Hfit.
  - cbn. rewrite He, !app_nil_r. unfold mapped. by rewrite Hfit.
  - cbn [app map_locked]. destruct (Z.eqb_spec (base r) 0xffffffff) as [|_]; [lia|].
    unfold locked_d, locked_i. cbn [mbind list_bind]. fold (locked_d rs) (locked_i rs). rewrite !app_assoc.
    fold (locked r). unfold locked_pages at 1 2. destruct (locked r).
    + unfold region_pages. destruct (page_size_pow _ Hp Hp') as (k & Hk & Ek). rewrite Ek. cbn [obind].
      assert (0 < 2 ^ k) by (by apply Z.pow_pos_nonneg; lia). specialize (Htop _ Ek). unfold rend in Htop.
      set (n := Z.to_nat ((size r + 2 ^ k - 1) / 2 ^ k)).
      assert (Z.of_nat n = (size r + 2 ^ k - 1) / 2 ^ k) as En by (apply Z2Nat.id, Z.div_pos; lia).
      pose proof (Z.div_mod (size r + 2 ^ k - 1) (2 ^ k) ltac:(lia)). pose proof (Z.mod_pos_bound (size r + 2 ^ k - 1) (2 ^ k) ltac:(lia)).
      rewrite (map_pages_spec r (2 ^ k)) with (n := n); [|lia|lia|lia|unfold rend; lia| |lia| |done].
      * generalize (D ++ d_entries r (pages_from (base r) (2 ^ k) n)) (I ++ i_entries r (pages_from (base r) (2 ^ k) n)).
        intros D' I'. unfold mapped at 1. destruct (fits D' I') eqn:E; cbn [obind]; [by apply IH|by rewrite mapped_overflow].
      * unfold page_fuel. assert (Z.of_nat n <= size r / 2 ^ k + 1); [|assert (0 <= size r / 2 ^ k) by (apply Z.div_pos; lia); lia].
        rewrite En. replace (size r + 2 ^ k - 1) with (size r - 1 + 1 * 2 ^ k) by lia. rewrite Z.div_add by lia.
        assert ((size r - 1) / 2 ^ k <= size r / 2 ^ k) by (apply Z.div_le_mono; lia). lia.
      * unfold rend. rewrite En. lia.
    + cbn [obind]. destruct (entries_nil r) as [-> ->]. rewrite !app_nil_r. by apply IH.
Qed.

(** The second loop: there are sixteen entries. *)
Definition upto16 (D : list cplb_entry) : list cplb_entry := take 16 D.

Lemma upto16_length D : (length (upto16 D) <= 16)%nat.
Proof using. clear. unfold upto16. rewrite length_take. lia. Qed.

Lemma upto16_full D l : (16 <= length (upto16 D))%nat -> upto16 (D ++ l) = upto16 D.
Proof using. clear. unfold upto16. rewrite length_take. intros H. apply take_app_le. lia. Qed.

Lemma upto16_app D l : upto16 (upto16 D ++ l) = upto16 (D ++ l).
Proof.
  destruct (decide (16 <= length D)%nat) as [H|H].
  - rewrite (upto16_full D l) by (unfold upto16; rewrite length_take; lia).
    rewrite upto16_full; unfold upto16; [by rewrite take_take, Nat.min_id|rewrite !length_take; lia].
  - unfold upto16 at 2. by rewrite (take_ge D) by lia.
Qed.

Lemma upto16_small D e : (length D <= 16)%nat -> upto16 (D ++ [e]) = if (length D <? 16)%nat then D ++ [e] else D.
Proof.
  intros H. destruct (Nat.ltb_spec (length D) 16).
  - unfold upto16. apply take_ge. rewrite length_app. cbn. lia.
  - unfold upto16. rewrite take_app_le, take_ge by lia. done.
Qed.

Lemma first_d_step D r X : (length D <= 16)%nat ->
  (if (Z.of_nat (length D) <? 16) && nz (Z.land (flags r) MEM_REG_DATA) then
     let? c := map_cplb (fill D (dc s)) (Z.of_nat (length D)) (base r)
                 (Z.land (dcplb_flags lb (flags r)) (u32 (Z.lnot MEM_REG_EFLAGS_MASK))) in
     Ret (Z.of_nat (length D) + 1, mk_mmu c X)
   else Ret (Z.of_nat (length D), mk_mmu (fill D (dc s)) X)) =
  let D' := upto16 (D ++ d_entries r [base r]) in Ret (Z.of_nat (length D'), mk_mmu (fill D' (dc s)) X).
Proof.
  intros HD. cbv zeta. unfold d_entries. fold (is_data r). destruct (is_data r).
  - cbn [fmap list_fmap]. rewrite upto16_small, andb_true_r by done.
    destruct (Nat.ltb_spec (length D) 16), (Z.ltb_spec (Z.of_nat (length D)) 16); try lia; [|done].
    rewrite map_fill by (done || lia). cbn [obind]. rewrite length_app, Nat2Z.inj_add. done.
  - rewrite andb_false_r, app_nil_r. unfold upto16. by rewrite take_ge.
Qed.

Lemma first_i_step I r X : (length I <= 16)%nat ->
  (if (Z.of_nat (length I) <? 16) && nz (Z.land (flags r) MEM_REG_CODE) then
     let? c := map_cplb (fill I (ic s)) (Z.of_nat (length I)) (base r)
                 (Z.land (icplb_flags lb (flags r)) (u32 (Z.lnot MEM_REG_EFLAGS_MASK))) in
     Ret (Z.of_nat (length I) + 1, mk_mmu X c)
   else Ret (Z.of_nat (length I), mk_mmu X (fill I (ic s)))) =
  let I' := upto16 (I ++ i_entries r [base r]) in Ret (Z.of_nat (length I'), mk_mmu X (fill I' (ic s))).
Proof.
  intros HI. cbv zeta. unfold i_entries. fold (is_code r). destruct (is_code r).
  - cbn [fmap list_fmap]. rewrite upto16_small, andb_true_r by done.
    destruct (Nat.ltb_spec (length I) 16), (Z.ltb_spec (Z.of_nat (length I)) 16); try lia; [|done].
    rewrite map_fill by (done || lia). cbn [obind]. rewrite length_app, Nat2Z.inj_add. done.
  - rewrite andb_false_r, app_nil_r. unfold upto16. by rewrite take_ge.
Qed.

Lemma map_first_spec rs e rest : Forall region_ok rs -> base e = 0xffffffff -> forall D I, (length D <= 16)%nat -> (length I <= 16)%nat ->
  map_first lb (rs ++ e :: rest) (Z.of_nat (length D)) (Z.of_nat (length I)) (mk_mmu (fill D (dc s)) (fill I (ic s))) =
  Ret (mk_mmu (fill (upto16 (D ++ first_d rs)) (dc s)) (fill (upto16 (I ++ first_i rs)) (ic s))).
Proof.
  intros Hrs He. induction Hrs as [|r rs ((Hp & Hp') & Hb & _) _ IH]; intros D I HD HI.
  - cbn [app map_first]. rewrite He. unfold upto16. cbn. by rewrite !app_nil_r, !take_ge.
  - cbn [app map_first]. destruct (Z.eqb_spec (base r) 0xffffffff) as [|_]; [lia|].
    unfold first_d, first_i. cbn [mbind list_bind]. fold (first_d rs) (first_i rs). rewrite !app_assoc.
    fold (locked r). unfold first_page. destruct (locked r); cbn [negb].
    { destruct (entries_nil r) as [-> ->]. rewrite !app_nil_r. by apply IH. }
    destruct (page_size_pow _ Hp Hp') as (k & _ & ->). cbn [obind dc ic]. rewrite first_d_step by done. cbv zeta. cbn [obind dc ic].
    rewrite first_i_step by done. cbv zeta. cbn [obind].
    rewrite <- (upto16_app (D ++ d_entries r [base r])), <- (upto16_app (I ++ i_entries r [base r])).
    pose proof (upto16_length (D ++ d_entries r [base r])) as HD'. pose proof (upto16_length (I ++ i_entries r [base r])) as HI'.
    generalize dependent (upto16 (D ++ d_entries r [base r])). generalize dependent (upto16 (I ++ i_entries r [base r])).
    intros I' HI' D' HD'. destruct (Z.gtb_spec (Z.of_nat (length D')) 15), (Z.gtb_spec (Z.of_nat (length I')) 15); cbn [andb]; try by apply IH.
    unfold upto16. by rewrite !take_app_le, !take_ge by lia.
Qed.

End start.

(** [init_mmu]: the locked pages, then the first page of every other region, in
    the order of the table; the replacement starts behind the locked pages. *)
Lemma init_mmu_spec lb s rs e rest : length (tab (dc s)) = 16%nat -> length (tab (ic s)) = 16%nat ->
  Forall region_ok rs -> base e = 0xffffffff ->
  let nd := Z.of_nat (length (locked_d lb rs)) in let ni := Z.of_nat (length (locked_i lb rs)) in
  init_mmu (rs ++ e :: rest) lb s =
  if fits (locked_d lb rs) (locked_i lb rs) then
    Ret (mk_mmu
      (mk_cplbs (tab (fill (upto16 (locked_d lb rs ++ first_d lb rs)) (dc s))) nd nd (Z.lor (control (dc s)) 0x100C))
      (mk_cplbs (tab (fill (upto16 (locked_i lb rs ++ first_i lb rs)) (ic s))) ni ni (Z.lor (control (ic s)) 0x6)))
  else Panic.
Proof.
  intros Hdc Hic Hrs He nd ni. unfold init_mmu.
  assert (mk_mmu (fill [] (dc s)) (fill [] (ic s)) = s) as Es by (by destruct s as [[] []]).
  pose proof (map_locked_spec lb s Hdc Hic rs e rest Hrs He [] [] eq_refl) as H. cbn [length app] in H. rewrite Es in H.
  change (Z.of_nat 0) with 0 in H. rewrite H. unfold mapped.
  destruct (fits (locked_d lb rs) (locked_i lb rs)) eqn:Ef; [|done]. cbn [obind dc ic]. fold nd ni.
  unfold fits in Ef. rewrite andb_true_iff, !Nat.leb_le in Ef.
  pose proof (map_first_spec lb (mk_mmu (set_policy nd nd (dc s)) (set_policy ni ni (ic s))) Hdc Hic rs e rest Hrs He
    (locked_d lb rs) (locked_i lb rs) ltac:(lia) ltac:(lia)) as H2. fold nd ni in H2.
  change (fill (locked_d lb rs) (dc (mk_mmu (set_policy nd nd (dc s)) (set_policy ni ni (ic s)))))
    with (set_policy nd nd (fill (locked_d lb rs) (dc s))) in H2.
  change (fill (locked_i lb rs) (ic (mk_mmu (set_policy nd nd (dc s)) (set_policy ni ni (ic s)))))
    with (set_policy ni ni (fill (locked_i lb rs) (ic s))) in H2.
  rewrite H2. cbn [obind]. do 2 f_equal. unfold set_control. cbn. by rewrite <- !Z.lor_assoc.
Qed.

(** ** Any sequence of misses *)

Inductive access :=
  | DataAt (a : Z)
  | CodeAt (a : Z).

#[export] Instance access_eq_dec : EqDecision access.
Proof. solve_decision. Defined.

Section serve.
Context (t : list mem_region) (n : Z) (lb : Z -> Z).

Definition serve (x : access) (s : mmu) : outcome (Z * mmu) :=
  match x with DataAt a => dcplb_miss t n lb a s | CodeAt a => icplb_miss t n lb a s end.

Fixpoint serve_all (l : list access) (s : mmu) : outcome (list Z * mmu) :=
  match l with
  | [] => Ret ([], s)
  | x :: l => let? '(r, s) := serve x s in let? '(rs, s) := serve_all l s in Ret (r :: rs, s)
  end.

(** The search finds a region of the right kind, and the word that the flag
    function hands over for it names a page size. *)
Definition granted_data (a : Z) (r : mem_region) : Prop :=
  0 <= a < 2 ^ 32 /\ find_mem_reg t n a = Ret (Some r) /\ is_data r = true /\ names_page (dcplb_flags lb (flags r)).
Definition granted_code (a : Z) (r : mem_region) : Prop :=
  0 <= a < 2 ^ 32 /\ find_mem_reg t n a = Ret (Some r) /\ is_code r = true /\ names_page (icplb_flags lb (flags r)).

Definition granted (x : access) : Prop :=
  match x with DataAt a => exists r, granted_data a r | CodeAt a => exists r, granted_code a r end.

Definition data_addrs (l : list access) : list Z := l ≫= (fun x => match x with DataAt a => [a] | CodeAt _ => [] end).
Definition code_addrs (l : list access) : list Z := l ≫= (fun x => match x with DataAt _ => [] | CodeAt a => [a] end).

(** The entry that a miss at [a] makes with the word [d]. *)
Definition made_for (d : Z) (e : cplb_entry) (a : Z) : Prop :=
  data e = Z.land d (u32 (Z.lnot MEM_REG_EFLAGS_MASK)) /\ covers e a.

Definition data_made (e : cplb_entry) (a : Z) : Prop :=
  exists r, granted_data a r /\ made_for (dcplb_flags lb (flags r)) e a.
Definition code_made (e : cplb_entry) (a : Z) : Prop :=
  exists r, granted_code a r /\ made_for (icplb_flags lb (flags r)) e a.

Lemma dcplb_miss_granted a s : granted (DataAt a) -> cplbs_ok (dc s) ->
  exists e, dcplb_miss t n lb a s = Ret (0, mk_mmu (refill (addr e) (data e) (dc s)) (ic s)) /\ data_made e a.
Proof.
  intros (r & Hg) Hc. pose proof Hg as (Ha & Ef & Hd & Hp & Hp0). destruct (page_size_pow _ Hp Hp0) as (k & Hk & Ek).
  eexists (mk_cplb _ _). split; [by eapply dcplb_miss_refill|]. exists r. split; [done|]. split; [done|]. by apply entry_covers.
Qed.

Lemma icplb_miss_granted a s : granted (CodeAt a) -> cplbs_ok (ic s) ->
  exists e, icplb_miss t n lb a s = Ret (0, mk_mmu (dc s) (refill (addr e) (data e) (ic s))) /\ code_made e a.
Proof.
  intros (r & Hg) Hc. pose proof Hg as (Ha & Ef & Hd & Hp & Hp0). destruct (page_size_pow _ Hp Hp0) as (k & Hk & Ek).
  eexists (mk_cplb _ _). split; [by eapply icplb_miss_refill|]. exists r. split; [done|]. split; [done|]. by apply entry_covers.
Qed.

Lemma serve_all_refills l s : Forall granted l -> cplbs_ok (dc s) -> cplbs_ok (ic s) ->
  exists D I, serve_all l s = Ret (replicate (length l) 0, mk_mmu (refills D (dc s)) (refills I (ic s))) /\
    Forall2 data_made D (data_addrs l) /\ Forall2 code_made I (code_addrs l).
Proof.
  intros Hl. revert s. induction Hl as [|x l Hx _ IH]; intros s Hd Hi.
  - exists [], []. cbn. destruct s. split_and!; by constructor.
  - destruct x as [a|a]; cbn [serve_all serve].
    + destruct (dcplb_miss_granted a s Hx Hd) as (e & -> & He). cbn [obind].
      destruct (IH (mk_mmu (refill (addr e) (data e) (dc s)) (ic s))) as (D & I & -> & HD & HI); [by apply refill_ok|done|].
      exists (e :: D), I. cbn. split_and!; [done|by constructor|done].
    + destruct (icplb_miss_granted a s Hx Hi) as (e & -> & He). cbn [obind].
      destruct (IH (mk_mmu (dc s) (refill (addr e) (data e) (ic s)))) as (D & I & -> & HD & HI); [done|by apply refill_ok|].
      exists D, (e :: I). cbn. split_and!; [done|done|by constructor].
Qed.

(** What the registers have for the accesses of a list. *)
Definition data_held (c : cplbs) (a : Z) : Prop := exists r, granted_data a r /\ holds c (dcplb_flags lb (flags r)) a.
Definition code_held (c : cplbs) (a : Z) : Prop := exists r, granted_code a r /\ holds c (icplb_flags lb (flags r)) a.

Lemma refills_keep (made : cplb_entry -> Z -> Prop) L c al :
  cplbs_ok c -> Z.of_nat (length al) <= 16 - first_unlocked c -> Forall2 made L al ->
  Forall (fun a => exists e, e ∈ tab (refills L c) /\ made e a) al.
Proof.
  intros Hc Hlen HF. pose proof (Forall2_length _ _ _ HF) as El.
  destruct (refills_spec L c Hc ltac:(lia)) as (_ & _ & _ & Hj & _). apply Forall_lookup_2. intros j a Ea.
  destruct (Forall2_lookup_r _ _ _ _ _ HF Ea) as (e & Ee & He). exists e. split; [|done].
  eapply list_elem_of_lookup_2, Hj, Ee.
Qed.

Lemma data_made_held L c al : cplbs_ok c -> Z.of_nat (length al) <= 16 - first_unlocked c -> Forall2 data_made L al ->
  Forall (data_held (refills L c)) al.
Proof.
  intros Hc Hl HF. eapply Forall_impl; [by apply (refills_keep data_made)|].
  intros a (e & He & r & Hr & Hd & Hv). exists r. split; [done|]. by exists e.
Qed.

Lemma code_made_held L c al : cplbs_ok c -> Z.of_nat (length al) <= 16 - first_unlocked c -> Forall2 code_made L al ->
  Forall (code_held (refills L c)) al.
Proof.
  intros Hc Hl HF. eapply Forall_impl; [by apply (refills_keep code_made)|].
  intros a (e & He & r & Hr & Hd & Hv). exists r. split; [done|]. by exists e.
Qed.

Lemma data_held_hit c a r : data_held c a -> granted_data a r -> Z.testbit (dcplb_flags lb (flags r)) 0 = true -> hit c a.
Proof. intros (r' & (_ & E' & _) & H) (_ & E & _) H0. eapply holds_hit; [exact H|congruence]. Qed.

Lemma code_held_hit c a r : code_held c a -> granted_code a r -> Z.testbit (icplb_flags lb (flags r)) 0 = true -> hit c a.
Proof. intros (r' & (_ & E' & _) & H) (_ & E & _) H0. eapply holds_hit; [exact H|congruence]. Qed.

End serve.

(** ** The table of the board

    memtab.S, with the symbols of the linker script as parameters. *)

Definition PAGE_SIZE_1KB : Z := 0x00000000.
Definition PAGE_SIZE_4KB : Z := 0x00010000.
Definition PAGE_SIZE_1MB : Z := 0x00020000.
Definition PAGE_SIZE_4MB : Z := 0x00030000.
Definition CPLB_MEM_LEV : Z := 0x200.
Definition MEM_REG_PRIO : Z := 0x08000000.

Definition flag_word (l : list Z) : Z := foldr Z.lor 0 l.

Record symbols := mk_symbols {
  sl2kdata : Z; l2kdatasz : Z;
  kfastpool_base : Z; kfastpool_size : Z;
  sl2udata : Z; l2udatasz : Z;
  sl1kdata : Z; l1kdatasz : Z;
  sl1udata : Z; l1udatasz : Z;
  sl1kcode : Z; l1kcodesz : Z;
  sl1ucode : Z; l1ucodesz : Z
}.

Definition memtab_S (y : symbols) : list mem_region := [
  mk_region 0x00000000 0x00400000 (flag_word [PAGE_SIZE_4MB; CPLB_LOCK; CPLB_MEM_LEV; MEM_REG_DATA; MEM_REG_CODE]);
  mk_region 0x00400000 (0x04000000 - 0x00400000) (flag_word [PAGE_SIZE_4MB; CPLB_MEM_LEV; MEM_REG_USER; MEM_REG_DATA; MEM_REG_CODE]);
  mk_region 0x20000000 0x04000000 (flag_word [PAGE_SIZE_4MB; CPLB_MEM_LEV; MEM_REG_DATA; MEM_REG_CODE]);
  mk_region 0x24000000 0x04000000 (flag_word [PAGE_SIZE_4MB; CPLB_MEM_LEV; MEM_REG_DATA]);
  mk_region 0x28000000 0x04000000 (flag_word [PAGE_SIZE_4MB; CPLB_MEM_LEV; MEM_REG_DATA]);
  mk_region 0x2C000000 0x04000000 (flag_word [PAGE_SIZE_4MB; CPLB_MEM_LEV; MEM_REG_DATA]);
  mk_region (sl2kdata y) (l2kdatasz y) (flag_word [PAGE_SIZE_4KB; CPLB_LOCK; MEM_REG_DATA; MEM_REG_CODE]);
  mk_region (kfastpool_base y) (kfastpool_size y) (flag_word [PAGE_SIZE_4KB; MEM_REG_PRIO; MEM_REG_DATA; MEM_REG_CODE]);
  mk_region (sl2udata y) (l2udatasz y) (flag_word [PAGE_SIZE_4KB; MEM_REG_USER; MEM_REG_DATA; MEM_REG_CODE]);
  mk_region (sl1kdata y) (l1kdatasz y) (flag_word [PAGE_SIZE_4KB; CPLB_LOCK; MEM_REG_DATA]);
  mk_region (sl1udata y) (l1udatasz y) (flag_word [PAGE_SIZE_4KB; MEM_REG_USER; MEM_REG_DATA]);
  mk_region 0xFF900000 0x4000 (flag_word [PAGE_SIZE_4KB; MEM_REG_USER; MEM_REG_DATA]);
  mk_region (sl1kcode y) (l1kcodesz y) (flag_word [PAGE_SIZE_4KB; CPLB_LOCK; MEM_REG_CODE]);
  mk_region (sl1ucode y) (l1ucodesz y) (flag_word [PAGE_SIZE_4KB; MEM_REG_USER; MEM_REG_CODE]);
  mk_region 0xFFB00000 0x800 (flag_word [PAGE_SIZE_1KB; MEM_REG_DATA]);
  mk_region 0xFFB00800 0x800 (flag_word [PAGE_SIZE_1KB; MEM_REG_USER; MEM_REG_DATA]);
  mk_region 0xFFC00000 0x40000 (flag_word [PAGE_SIZE_1MB; CPLB_LOCK; MEM_REG_DATA]);
  mk_region 0xFFFFFFFF 0 0].

(** bf548.lds.S: [k], [d] and [c] are the sizes of the kernel's data in L2 and of
    its data and code in L1, multiples of the page size, with no user data or
    code there. The user's data in L2 start where the kernel's end, which is
    where the fast pool of the kernel starts. *)
Definition bf548_lds (k d c : Z) : symbols :=
  let el2kdata := 0xFEB00000 + k in
  let el2kdata_align := (el2kdata + 0x7FFF) / 0x8000 * 0x8000 in
  mk_symbols 0xFEB00000 k el2kdata (el2kdata_align - el2kdata) el2kdata (0xFEB00000 + 0x20000 - el2kdata)
    0xFF800000 d (0xFF800000 + d) (0x8000 - d) 0xFFA00000 c (0xFFA00000 + c) (0x12000 - c).

(** Decision procedures for closed tables. *)
Fixpoint sortedb (t : list mem_region) : bool :=
  match t with [] => true | r :: t => forallb (fun r' => rend r <=? base r') t && sortedb t end.

Definition table_okb (t : list mem_region) : bool :=
  forallb (fun r => (0 <=? base r) && (0 <=? size r) && (rend r <? 2 ^ 32)) t && sortedb t &&
  match t with r :: _ => base r =? 0 | [] => false end.

Definition page_okb (r : mem_region) : bool := (0 <=? flags r) && (flags r <? 2 ^ 32) && (Z.land (flags r) 0x000C0000 =? 0).

Definition region_okb (r : mem_region) : bool :=
  page_okb r && (0 <=? base r) && (base r <? 0xffffffff) && (0 <=? size r) &&
  match page_size (flags r) with Ret sz => rend r + sz <=? 2 ^ 32 | _ => true end.

Lemma sortedb_sound t : sortedb t = true -> StronglySorted (fun r r' => rend r <= base r') t.
Proof.
  induction t as [|r t IH]; cbn; [by constructor|]. rewrite andb_true_iff, forallb_forall. intros [H1 H2].
  constructor; [by apply IH|]. apply List.Forall_forall. intros x Hx. apply Z.leb_le. by apply H1.
Qed.

Lemma table_okb_sound t : table_okb t = true -> table_ok t.
Proof.
  unfold table_okb. rewrite !andb_true_iff, forallb_forall. intros [[Hf Hs] H0]. split_and!; [|by apply sortedb_sound|].
  - apply List.Forall_forall. intros r Hr. specialize (Hf r Hr). rewrite !andb_true_iff, !Z.leb_le, Z.ltb_lt in Hf. lia.
  - destruct t as [|r t]; [done|]. exists r. split; [done|lia].
Qed.

Lemma page_okb_sound r : page_okb r = true -> page_ok r.
Proof. unfold page_okb. rewrite !andb_true_iff, Z.leb_le, Z.ltb_lt, Z.eqb_eq. unfold page_ok, names_page. tauto. Qed.

Lemma region_okb_sound r : region_okb r = true -> region_ok r.
Proof.
  unfold region_okb. rewrite !andb_true_iff, !Z.leb_le, Z.ltb_lt. intros [[[[Hp Hb] Hb'] Hs] Ht].
  split_and!; [by apply page_okb_sound|done|done|done|]. intros sz E. rewrite E in Ht. by apply Z.leb_le.
Qed.

Definition hitsb (e : cplb_entry) (a : Z) : bool :=
  Z.testbit (data e) 0 && match page_size (data e) with Ret sz => (addr e <=? a) && (a <? addr e + sz) | _ => false end.

Lemma hitsb_sound e a : hitsb e a = true -> hits e a.
Proof.
  unfold hitsb, hits. rewrite andb_true_iff. intros [H0 H]. split; [done|].
  destruct (page_size (data e)) as [sz| | |]; [|done..]. exists sz. rewrite andb_true_iff, Z.leb_le, Z.ltb_lt in H. done.
Qed.
