(* ===== verification/GuaranteesMmu.v ===== *)
(** * What the memory protection guarantees

    The search for the region of an address, the map that start-up makes, the
    replacement of entries, and where the table of the board breaks the
    protection. The examples use the table of memtab.S. *)

From Stdlib Require Import ZArith Lia.
From stdpp Require Import base tactics option list.
From S2P Require Import Prelude Bits Sysmem.

Open Scope Z_scope.

Module Protection.

Lemma elem_of_take {A} (l : list A) n x : x ∈ take n l -> x ∈ l.
Proof. intros H. rewrite <- (take_drop n l). apply elem_of_app. by left. Qed.

Lemma table_size t r : table_ok t -> r ∈ t -> base r <= rend r.
Proof. intros (Hf & _) Hr. rewrite Forall_forall in Hf. destruct (Hf r Hr) as (_ & H & _). unfold rend. lia. Qed.

(** The table of the board with the user's data in L2 behind the fast pool of
    the kernel. *)
Definition fixed_lds : symbols :=
  mk_symbols 0xFEB00000 0x3000 0xFEB03000 0x5000 0xFEB08000 0x18000
    0xFF800000 0x1000 0xFF801000 0x7000 0xFFA00000 0x2000 0xFFA02000 0x10000.

Definition fixed_tab : list mem_region := memtab_S fixed_lds.

Lemma fixed_tab_ok : table_ok fixed_tab.
Proof. apply table_okb_sound. vm_compute. reflexivity. Qed.

(** C22. [find_mem_reg] on every table in the order that memtab.S asks for,
    whose first region starts at zero, whatever number [n] of entries of the table
    the word [memtabsz] has: the search terminates, within [k + 1] rounds of the
    loop for [n < 2^k], and never reads outside of the table. What it returns is
    one of the [n] regions that the address belongs to or ends with the byte
    before it; NULL when there is none. At an address that is not the end of a
    region, it returns the region to which the address belongs, and NULL when it
    belongs to none. *)
Theorem find_mem_reg_terminates t (n : nat) a :
  table_ok t -> (0 < n <= length t)%nat -> Z.of_nat n <= 2 ^ 31 -> 0 <= a < 2 ^ 32 ->
  (exists o, find_mem_reg t (Z.of_nat n) a = Ret o /\
     match o with
     | Some r => r ∈ take n t /\ (contains a r \/ (base r <= a /\ a = rend r))
     | None => forall r, r ∈ take n t -> ~ contains a r /\ a <> rend r
     end /\
     ((forall r, r ∈ take n t -> a <> rend r) -> forall r, o = Some r <-> r ∈ take n t /\ contains a r)) /\
  (forall k, Z.of_nat n < 2 ^ Z.of_nat k -> exists o, find_loop t (S k) a 0 (u32 (Z.of_nat n - 1)) = Ret o).
Proof.
  intros Ht [Hn0 Hn] Hl Ha. split.
  - destruct (find_rounds t Ht a n 32 Ha Hn Hl ltac:(lia)) as (o & E & Ho). exists o. split_and!; [exact E| |by apply found_contains].
    destruct o as [r|]; [exact Ho|]. intros r Hr. specialize (Ho r Hr). rewrite accepts_iff in Ho.
    assert (base r <= rend r) by (by eapply table_size, elem_of_take). unfold contains. lia.
  - intros k Hk. destruct (find_rounds t Ht a n k Ha Hn Hl ltac:(lia)) as (o & E & _). by exists o.
Qed.

Lemma find_mem_reg_terminates_witness :
  (exists o, find_mem_reg fixed_tab 18 0xFFB00010 = Ret o /\
     ((forall r, r ∈ take 18 fixed_tab -> 0xFFB00010 <> rend r) ->
      forall r, o = Some r <-> r ∈ take 18 fixed_tab /\ contains 0xFFB00010 r)) /\
  (exists o, find_loop fixed_tab 6 0xFFB00010 0 17 = Ret o).
Proof.
  destruct (find_mem_reg_terminates fixed_tab 18 0xFFB00010 fixed_tab_ok ltac:(vm_compute; lia) ltac:(done) ltac:(lia))
    as [(o & E & _ & Ho) H2].
  split; [exists o; split; [exact E|exact Ho]|]. destruct (H2 5%nat ltac:(done)) as [o' E']. exists o'. exact E'.
Defined.

(** [init_mmu] returns when the locked pages of the table take at most 14
    entries of each kind, and stops in [kernel_panic] otherwise. When it returns,
    the entries of each kind are the pages of the locked regions in the order of
    the table, then the first page of each other region as far as there are
    entries; the replacement policy starts behind the locked entries, and at
    least two entries of each kind are left to it. *)
Theorem init_mmu_maps lb s rs e rest : length (tab (dc s)) = 16%nat -> length (tab (ic s)) = 16%nat ->
  Forall region_ok rs -> base e = 0xffffffff ->
  let nd := Z.of_nat (length (locked_d lb rs)) in let ni := Z.of_nat (length (locked_i lb rs)) in
  if fits (locked_d lb rs) (locked_i lb rs) then
    exists s', init_mmu (rs ++ e :: rest) lb s = Ret s' /\
      tab (dc s') = tab (fill (upto16 (locked_d lb rs ++ first_d lb rs)) (dc s)) /\
      tab (ic s') = tab (fill (upto16 (locked_i lb rs ++ first_i lb rs)) (ic s)) /\
      first_unlocked (dc s') = nd /\ idx (dc s') = nd /\ first_unlocked (ic s') = ni /\ idx (ic s') = ni /\
      cplbs_ok (dc s') /\ cplbs_ok (ic s')
  else init_mmu (rs ++ e :: rest) lb s = Panic.
Proof.
  intros Hd Hi Hrs He nd ni. rewrite init_mmu_spec by done. fold nd ni. destruct (fits _ _) eqn:Ef; [|done].
  eexists. split; [reflexivity|]. cbn [dc ic tab first_unlocked idx]. unfold fits in Ef. rewrite andb_true_iff, !Nat.leb_le in Ef.
  assert (forall D c, (length D <= 16)%nat -> length (tab c) = 16%nat -> length (tab (fill D c)) = 16%nat) as Hfill.
  { intros D c HD Hc. cbn. rewrite length_app, length_drop. lia. }
  split_and!; try done; split_and!; cbn [tab first_unlocked idx]; try (apply Hfill; [apply upto16_length|done]); unfold nd, ni; lia.
Qed.

Definition zero_cplbs : cplbs := mk_cplbs (replicate 16 (mk_cplb 0 0)) 0 0 0.
Definition zero_mmu : mmu := mk_mmu zero_cplbs zero_cplbs.

Lemma fixed_regions_ok : Forall region_ok (take 17 fixed_tab).
Proof. apply List.Forall_forall. intros r Hr. apply region_okb_sound. revert r Hr. apply List.forallb_forall. vm_compute. reflexivity. Qed.

Lemma init_mmu_maps_witness : exists s', init_mmu fixed_tab id zero_mmu = Ret s' /\
  tab (dc s') = tab (fill (upto16 (locked_d id (take 17 fixed_tab) ++ first_d id (take 17 fixed_tab))) zero_cplbs) /\
  first_unlocked (dc s') = 6 /\ first_unlocked (ic s') = 6 /\ cplbs_ok (dc s') /\ cplbs_ok (ic s').
Proof.
  destruct (init_mmu_maps id zero_mmu (take 17 fixed_tab) (mk_region 0xFFFFFFFF 0 0) [] eq_refl eq_refl fixed_regions_ok eq_refl)
    as (s' & E & H1 & _ & H2 & _ & H3 & _ & H4 & H5).
  exists s'. split_and!; [exact E|exact H1|exact H2|exact H3|exact H4|exact H5].
Defined.

(** C23. Replacement in turn, whatever words the flag functions hand over ([lb]:
    they have no [return] statement), as long as the word for a region of a miss
    has a page size field that names a page size. After any sequence of misses at
    addresses where the search finds a region of the right kind, no more of a kind
    than it has unlocked entries, there is for every one of these addresses an
    entry whose page has the address and whose data register has the word handed
    over for its region, so that the accesses of an instruction never displace each
    other; the address is mapped when that word has the valid bit. All misses
    return zero, the locked entries are as they were, and the variables of the
    policy stay in range. *)
Theorem recent_pages_stay t n lb l s :
  cplbs_ok (dc s) -> cplbs_ok (ic s) -> Forall (granted t n lb) l ->
  Z.of_nat (length (data_addrs l)) <= 16 - first_unlocked (dc s) ->
  Z.of_nat (length (code_addrs l)) <= 16 - first_unlocked (ic s) ->
  exists s', serve_all t n lb l s = Ret (replicate (length l) 0, s') /\ cplbs_ok (dc s') /\ cplbs_ok (ic s') /\
    Forall (data_held t n lb (dc s')) (data_addrs l) /\ Forall (code_held t n lb (ic s')) (code_addrs l) /\
    (forall a r, a ∈ data_addrs l -> granted_data t n lb a r -> Z.testbit (dcplb_flags lb (flags r)) 0 = true -> hit (dc s') a) /\
    (forall a r, a ∈ code_addrs l -> granted_code t n lb a r -> Z.testbit (icplb_flags lb (flags r)) 0 = true -> hit (ic s') a) /\
    (forall i : nat, Z.of_nat i < first_unlocked (dc s) -> tab (dc s') !! i = tab (dc s) !! i) /\
    (forall i : nat, Z.of_nat i < first_unlocked (ic s) -> tab (ic s') !! i = tab (ic s) !! i).
Proof.
  intros Hd Hi Hg Hnd Hni.
  destruct (serve_all_refills t n lb l s Hg Hd Hi) as (D & I & E & HD & HI).
  pose proof (Forall2_length _ _ _ HD). pose proof (Forall2_length _ _ _ HI).
  destruct (refills_spec D (dc s) Hd) as (Hd' & _ & _ & _ & Hdl); [lia|].
  destruct (refills_spec I (ic s) Hi) as (Hi' & _ & _ & _ & Hil); [lia|].
  pose proof (data_made_held t n lb D (dc s) _ Hd Hnd HD) as Hhd. pose proof (code_made_held t n lb I (ic s) _ Hi Hni HI) as Hhi.
  eexists. split; [exact E|]. split_and!; try done; intros a r Ha.
  - by apply data_held_hit, (proj1 (Forall_forall _ _) Hhd a Ha).
  - by apply code_held_hit, (proj1 (Forall_forall _ _) Hhi a Ha).
Qed.

Definition booted : mmu := mk_mmu (mk_cplbs (replicate 16 (mk_cplb 0 0)) 14 15 0) (mk_cplbs (replicate 16 (mk_cplb 0 0)) 14 14 0).

(** The functions happen to hand over the flags that they computed, or one word
    for a valid page of 4 MB. *)
Lemma recent_pages_stay_witness :
  let l := [DataAt 0x00500000; CodeAt 0x20000000; DataAt 0xFEB08004] in
  Forall (fun lb => exists s', serve_all fixed_tab 18 lb l booted = Ret ([0; 0; 0], s') /\
    hit (dc s') 0x00500000 /\ hit (dc s') 0xFEB08004 /\ hit (ic s') 0x20000000) [id; fun _ => 0x30001].
Proof.
  assert (cplbs_ok (dc booted) /\ cplbs_ok (ic booted)) as [Hd Hi] by (unfold cplbs_ok; cbn; lia).
  set (r1 := mk_region 0x00400000 0x03C00000 0xE0030200). set (r2 := mk_region 0x20000000 0x04000000 0x60030200).
  set (r3 := mk_region 0xFEB08000 0x18000 0xE0010000). intros l.
  do 2 (constructor; [match goal with |- exists s', serve_all _ _ ?lb _ _ = _ /\ _ =>
    assert (granted_data fixed_tab 18 lb 0x00500000 r1 /\ granted_code fixed_tab 18 lb 0x20000000 r2 /\
      granted_data fixed_tab 18 lb 0xFEB08004 r3) as (G1 & G2 & G3)
      by (unfold granted_data, granted_code, names_page; split_and!; (lia || (vm_compute; reflexivity) || (vm_compute; congruence)));
    destruct (recent_pages_stay fixed_tab 18 lb l booted Hd Hi) as (s' & E & _ & _ & _ & _ & H1 & H2 & _);
      [repeat constructor; by eexists|vm_compute; congruence|vm_compute; congruence|];
    exists s'; split_and!; [exact E|eapply (H1 _ r1)|eapply (H1 _ r3)|eapply (H2 _ r2)]; try done; apply list_elem_of_In; vm_compute; tauto
    end|]).
  constructor.
Defined.

(** ** Where the protection fails *)

(** An access of a user task that the entries allow. *)
Definition user_write (c : cplbs) (a : Z) : Prop := exists e, e ∈ tab c /\ hits e a /\ Z.testbit (data e) 3 = true.

(** The entry that [booted] replaces first. *)
Lemma last_entry (t : list mem_region) a (P : cplb_entry -> bool) :
  match dcplb_miss t 18 id a booted with
  | Ret (0, s') => match tab (dc s') !! 15%nat with Some e => P e | None => false end
  | _ => false
  end = true ->
  exists s' e, dcplb_miss t 18 id a booted = Ret (0, s') /\ e ∈ tab (dc s') /\ P e = true.
Proof.
  destruct (dcplb_miss t 18 id a booted) as [[[| |] s']| | |]; try done.
  destruct (tab (dc s') !! 15%nat) as [e|] eqn:E; [|done]. intros H. exists s', e. split_and!; [done| |done].
  by eapply list_elem_of_lookup_2.
Qed.

(** With the linker script of the board, whatever the size of the kernel's
    data in L2, the user's data in L2 start where the pool of the kernel's stacks
    starts: the search finds the user's region, and the miss at the start of the
    pool maps the page of the kernel for writing by user tasks. *)
Theorem user_reaches_kernel_pool : Forall (fun j =>
  let y := bf548_lds (0x1000 * j) 0x1000 0x2000 in
  0 < kfastpool_size y /\
  exists s', dcplb_miss (memtab_S y) 18 id (kfastpool_base y) booted = Ret (0, s') /\ user_write (dc s') (kfastpool_base y))
  (seqZ 1 7).
Proof.
  change (seqZ 1 7) with [1; 2; 3; 4; 5; 6; 7].
  repeat (constructor; [split; [vm_compute; reflexivity|]; match goal with |- exists s', dcplb_miss ?t _ _ ?a _ = _ /\ _ =>
    destruct (last_entry t a (fun e => hitsb e a && Z.testbit (data e) 3)) as (s' & e & E & He & HP); [vm_compute; reflexivity|] end;
    apply andb_true_iff in HP as [Hh Hu]; exists s'; split; [exact E|]; exists e; split_and!; [exact He|exact (hitsb_sound _ _ Hh)|exact Hu]|]).
  constructor.
Qed.

(** The end of a region is taken for a part of it: one byte behind the RAM, the
    page of 4 MB that follows is mapped. *)
Example ram_end_mapped : exists s', dcplb_miss fixed_tab 18 id 0x04000000 booted = Ret (0, s') /\ hit (dc s') 0x043FFFFF.
Proof.
  destruct (last_entry fixed_tab 0x04000000 (fun e => hitsb e 0x043FFFFF)) as (s' & e & E & He & HP); [vm_compute; reflexivity|].
  exists s'. split; [exact E|]. exists e. split; [exact He|exact (hitsb_sound _ _ HP)].
Qed.

(** A table that does not start at zero: the upper index wraps around and the
    search leaves the table. *)
Example find_below_first : find_mem_reg [mk_region 0x1000 0x1000 0] 1 0 = OutOfRange.
Proof. vm_compute. reflexivity. Qed.

End Protection.
