(* ===== verification/CanService.v ===== *)
(** * The CAN network service

    drivers/can/KertrolTinyMWNetworkService.c: the ring of messages that wait to
    be sent, and the interrupt of the CAN controller, which decodes a message,
    gives it to the service it is for and queues the answer.

    The services, and the macros of the library of the controller that pack a
    message for its registers, are not part of the repository: the services are
    parameters, arbitrary programs on the state of the ring, and a message given to
    CAN1SendMessage is recorded with the arguments of these macros. A store outside of an array is a fault. *)

From Stdlib Require Import ZArith Lia Bool.
From stdpp Require Import base tactics gmap option list.
From S2P Require Import Prelude Bits Mem Bytes.

Open Scope Z_scope.
Open Scope kernel_scope.

Record CanMessage := mk_msg { Id : Z; DataLength : Z; Data : list Z }.

#[export] Instance CanMessage_eq_dec : EqDecision CanMessage.
Proof. solve_decision. Defined.

(** A call of CAN1SendMessage: the standard part of the identifier, the whole
    identifier, data and length. *)
Record frame := mk_frame { f_sid : Z; f_id : Z; f_data : list Z; f_len : Z }.

#[export] Instance frame_eq_dec : EqDecision frame.
Proof. solve_decision. Defined.

Definition CAN_BUFFER_SIZE : Z := 64.

(** The ring, and what was given to the controller, in order. *)
Record can := mk_can {
  OutputCANBuffer : list CanMessage;
  CANBufferEntryPointer : Z;
  CANBufferExitPointer : Z;
  CANBufferlength : Z;
  sent : list frame
}.

Definition CM : Type -> Type := M can.

Definition set_buffer (b : list CanMessage) (s : can) : can :=
  mk_can b (CANBufferEntryPointer s) (CANBufferExitPointer s) (CANBufferlength s) (sent s).
Definition set_entry (v : Z) (s : can) : can :=
  mk_can (OutputCANBuffer s) v (CANBufferExitPointer s) (CANBufferlength s) (sent s).
Definition set_exit (v : Z) (s : can) : can :=
  mk_can (OutputCANBuffer s) (CANBufferEntryPointer s) v (CANBufferlength s) (sent s).
Definition set_length (v : Z) (s : can) : can :=
  mk_can (OutputCANBuffer s) (CANBufferEntryPointer s) (CANBufferExitPointer s) v (sent s).
Definition add_sent (f : frame) (s : can) : can :=
  mk_can (OutputCANBuffer s) (CANBufferEntryPointer s) (CANBufferExitPointer s) (CANBufferlength s) (sent s ++ [f]).

(** [OutputCANBuffer[i]] *)
Definition slot (i : Z) : CM CanMessage :=
  let* b := gets OutputCANBuffer in if i <? 0 then fault else deref (b !! Z.to_nat i).

Definition put_slot (i : Z) (m : CanMessage) : CM unit :=
  slot i ;;; modify (fun s => set_buffer (<[Z.to_nat i := m]> (OutputCANBuffer s)) s).

(** ** The ring *)

Definition zero_msg : CanMessage := mk_msg 0 0 (replicate 8 0).

Fixpoint init_slots (n : nat) (i : Z) : CM unit :=
  match n with O => ret tt | S n => put_slot i zero_msg ;;; init_slots n (u8 (i + 1)) end.

Definition OutputCANBufferInit : CM unit :=
  modify (set_entry 0) ;;;
  modify (set_exit 0) ;;;
  modify (set_length 0) ;;;
  init_slots (Z.to_nat CAN_BUFFER_SIZE) 0.

(** The eight bytes of an array of at least eight. *)
Definition eight (d : list Z) : CM (list Z) := if (length d <? 8)%nat then fault else ret (take 8 d).

Definition QueueFieldsCanMessageOutputCANBuffer (id len : Z) (d : list Z) : CM Z :=
  let* n := gets CANBufferlength in
  if n >=? CAN_BUFFER_SIZE then ret (-1) else
  let* d := eight d in
  let* e := gets CANBufferEntryPointer in
  put_slot e (mk_msg id len d) ;;;
  modify (fun s => set_entry (u8 (CANBufferEntryPointer s + 1)) s) ;;;
  modify (fun s => set_length (u8 (CANBufferlength s + 1)) s) ;;;
  let* e := gets CANBufferEntryPointer in
  when (e >=? CAN_BUFFER_SIZE) (modify (set_entry 0)) ;;;
  ret 0.

Definition QueueCanMessageOutputCANBuffer (c : CanMessage) : CM Z :=
  let* n := gets CANBufferlength in
  if n >=? CAN_BUFFER_SIZE then ret (-1) else
  let* d := eight (Data c) in
  let* e := gets CANBufferEntryPointer in
  put_slot e (mk_msg (Id c) (DataLength c) d) ;;;
  modify (fun s => set_entry (u8 (CANBufferEntryPointer s + 1)) s) ;;;
  modify (fun s => set_length (u8 (CANBufferlength s + 1)) s) ;;;
  let* e := gets CANBufferEntryPointer in
  when (e >=? CAN_BUFFER_SIZE) (modify (set_entry 0)) ;;;
  ret 0.

(** The standard part of an extended identifier. *)
Definition ext_sid (id : Z) : Z := Z.shiftr (Z.land id 0x1FFC0000) 18.

(** [txreq] is C1TX0CONbits.TXREQ. *)
Definition SendAndDequeueOneCanMessageOutputCANBuffer (txreq : bool) : CM Z :=
  let* n := gets CANBufferlength in
  if n =? 0 then ret (-1) else
  if txreq then ret (-2) else
  let* x := gets CANBufferExitPointer in
  let* m := slot x in
  modify (add_sent (mk_frame (ext_sid (Id m)) (Id m) (Data m) (DataLength m))) ;;;
  modify (fun s => set_exit (u8 (CANBufferExitPointer s + 1)) s) ;;;
  modify (fun s => set_length (u8 (CANBufferlength s - 1)) s) ;;;
  let* x := gets CANBufferExitPointer in
  when (x >=? CAN_BUFFER_SIZE) (modify (set_exit 0)) ;;;
  ret 0.

Definition HowManyCANMessagesAreReadyToBeSent : CM Z :=
  let* n := gets CANBufferlength in ret (i8 n).

(** ** Node on and off *)

Definition NODE_SWITCH_ONOFF_CAN_ID : Z := 0x0A000000.

Definition switch_frame (node b : Z) : frame :=
  let id := Z.lor NODE_SWITCH_ONOFF_CAN_ID node in mk_frame (ext_sid id) id [b] 1.

Definition SendCANNodeSwitchOn (node : Z) : CM unit := modify (add_sent (switch_frame node 0x01)).
Definition SendCANNodeSwitchOff (node : Z) : CM unit := modify (add_sent (switch_frame node 0x00)).

(** ** The interrupt *)

(** Registers of the controller and flags. *)
Record c1regs := mk_c1 {
  TX0IF : bool; RX0IF : bool; C1IF : bool;
  RXIDE : bool; SID : Z; EID : Z; EID5_0 : Z; DLC : Z;
  RXB : list Z; RXFUL : bool
}.

(** The identifier of the message received. *)
Definition received_id (r : c1regs) : Z :=
  if negb (RXIDE r) then SID r else
  let id := EID5_0 r + Z.shiftl (Z.land (EID r) 0x0003) 6 in
  let id := u32 (id + Z.shiftl (Z.shiftr (Z.land (EID r) 0x03FC) 2) 8) in
  let id := u32 (id + u32 (Z.shiftl (Z.shiftr (Z.land (EID r) 0x0C00) 10 + Z.shiftl (Z.land (SID r) 0x03F) 2) 16)) in
  u32 (id + u32 (Z.shiftl (Z.shiftr (Z.land (SID r) 0x7C0) 6) 24)).

(** [for (i=0; i<DataLength; i++) datos[i] = ...], with [datos] of eight bytes;
    the bytes of the registers follow each other from C1RX0B1 on. *)
Fixpoint copy_data (n : nat) (i : nat) (rx datos : list Z) : option (list Z) :=
  match n with
  | O => Some datos
  | S n => if (i <? length datos)%nat then
             match rx !! i with Some b => copy_data n (S i) rx (<[i := b]> datos) | None => None end
           else None
  end.

(** [datos[DataLength-1] = 0] *)
Definition reset_ack (datos : list Z) (len : Z) : CM (list Z) :=
  if (len - 1 <? 0) || (len - 1 >=? Z.of_nat (length datos)) then fault else ret (<[Z.to_nat (len - 1) := 0]> datos).

Definition OPERATION_MODE_CAN_MSG_ID : Z := 0x08000000.
Definition ACTUACION_IN_CONTROL_CAN_MSG_ID : Z := 0x01000000.
Definition SENSORING_IN_CONTROL_CAN_MSG_ID : Z := 0x02000000.
Definition SET_REFERENCE_ID : Z := 0x03000000.
Definition PERIODIC_CONTROL_DATA_SENDING : Z := 0x04000000.
Definition ACTUATION_PERIOD_ID : Z := 0x0C000000.
Definition SENSORING_PERIOD_ID : Z := 0x0D000000.
Definition CODE_LOADER_INPUT_ID : Z := 0x0F000030.
Definition CODE_LOADER_OUTPUT_ID : Z := 0x0F000031.
Definition ACK_ID : Z := 0x10000000.

(** The services: any code that may use the ring. They get the array of the data
    and their length, and leave their value, the array and the length; those of the
    control loop get the identifier too, and nothing of what they leave is used. *)
Definition service : Type := list Z -> Z -> CM (bool * list Z * Z).
Definition control : Type := Z -> list Z -> Z -> CM unit.

Record services := mk_services {
  ProcessActuatorMessages : service;
  ProcessSensoringMessages : service;
  ProcessModeCANMessages : service;
  ProcessReferenceCANMessages : service;
  ProcessActuacionInControlCANMessages : control;
  ProcessSensoringInControlCANMessages : control;
  ProcessDataManagerMessages : service;
  CodeLoader : service
}.

Section interrupt.
Context (MSB_NODE_ID LSB_NODE_ID BROADCAST_NODE_ID : Z) (sv : services).

Definition CAN_NODE_ID : Z := Z.lor (Z.shiftl MSB_NODE_ID 16) (Z.shiftl LSB_NODE_ID 8).

(** [Id == (K | CAN_NODE_ID) || Id == (K | BROADCAST_NODE_ID<<8)] *)
Definition for_node (id k : Z) : bool :=
  (id =? Z.lor k CAN_NODE_ID) || (id =? Z.lor k (Z.shiftl BROADCAST_NODE_ID 8)).

(** Give the message to a service and queue the acknowledgement it asks for. *)
Definition serve_ack (f : service) (k len : Z) (datos : list Z) : CM unit :=
  let* '(ack, datos, len) := f datos len in
  if negb ack then ret tt else
  let* datos := reset_ack datos len in
  QueueFieldsCanMessageOutputCANBuffer (Z.lor (Z.lor ACK_ID k) CAN_NODE_ID) len datos ;;;
  ret tt.

Definition dispatch (id len : Z) (datos : list Z) : CM unit :=
  if for_node id ACTUATION_PERIOD_ID then serve_ack (ProcessActuatorMessages sv) ACTUATION_PERIOD_ID len datos else
  if for_node id SENSORING_PERIOD_ID then serve_ack (ProcessSensoringMessages sv) SENSORING_PERIOD_ID len datos else
  if for_node id OPERATION_MODE_CAN_MSG_ID then serve_ack (ProcessModeCANMessages sv) OPERATION_MODE_CAN_MSG_ID len datos else
  if for_node id SET_REFERENCE_ID then serve_ack (ProcessReferenceCANMessages sv) SET_REFERENCE_ID len datos else
  if Z.land id 0x0F000000 =? ACTUACION_IN_CONTROL_CAN_MSG_ID then ProcessActuacionInControlCANMessages sv id datos len else
  if Z.land id 0x0F000000 =? SENSORING_IN_CONTROL_CAN_MSG_ID then ProcessSensoringInControlCANMessages sv id datos len else
  if for_node id PERIODIC_CONTROL_DATA_SENDING then
    serve_ack (ProcessDataManagerMessages sv) PERIODIC_CONTROL_DATA_SENDING len datos else
  if id =? CODE_LOADER_INPUT_ID then
    let* '(answer, datos, len) := CodeLoader sv datos len in
    if answer then QueueFieldsCanMessageOutputCANBuffer CODE_LOADER_OUTPUT_ID len datos ;;; ret tt else ret tt
  else ret tt.

(** [datos0] is what the uninitialized local array holds. *)
Definition C1Interrupt (datos0 : list Z) (r : c1regs) : CM c1regs :=
  let r := if TX0IF r then mk_c1 false (RX0IF r) false (RXIDE r) (SID r) (EID r) (EID5_0 r) (DLC r) (RXB r) (RXFUL r) else r in
  if negb (RX0IF r) then ret r else
  let r := mk_c1 (TX0IF r) false false (RXIDE r) (SID r) (EID r) (EID5_0 r) (DLC r) (RXB r) (RXFUL r) in
  let id := received_id r in
  let len := DLC r in
  let* datos := deref (copy_data (Z.to_nat len) 0 (RXB r) datos0) in
  let r := mk_c1 (TX0IF r) (RX0IF r) (C1IF r) (RXIDE r) (SID r) (EID r) (EID5_0 r) (DLC r) (RXB r) false in
  dispatch id len datos ;;;
  ret r.

End interrupt.

(** ** The ring is a queue *)

Record ring_ok (s : can) : Prop := {
  ro_slots : length (OutputCANBuffer s) = 64%nat;
  ro_exit : 0 <= CANBufferExitPointer s < 64;
  ro_len : 0 <= CANBufferlength s <= 64;
  ro_entry : CANBufferEntryPointer s = (CANBufferExitPointer s + CANBufferlength s) mod 64
}.

(** The message [i] places behind the exit. *)
Definition nth_msg (s : can) (i : nat) : CanMessage :=
  default zero_msg (OutputCANBuffer s !! Z.to_nat ((CANBufferExitPointer s + Z.of_nat i) mod 64)).

Definition queued (s : can) : list CanMessage := nth_msg s <$> seq 0 (Z.to_nat (CANBufferlength s)).

(** The promise: a queue of at most 64 messages. *)
Definition a_enqueue (m : CanMessage) (q : list CanMessage) : Z * list CanMessage :=
  if (length q <? 64)%nat then (0, q ++ [m]) else (-1, q).

Definition frame_of (m : CanMessage) : frame := mk_frame (ext_sid (Id m)) (Id m) (Data m) (DataLength m).

Definition a_send (txreq : bool) (q : list CanMessage) : Z * list CanMessage * list frame :=
  match q with
  | [] => (-1, [], [])
  | m :: q' => if txreq then (-2, q, []) else (0, q', [frame_of m])
  end.

Lemma length_queued s : ring_ok s -> Z.of_nat (length (queued s)) = CANBufferlength s.
Proof. intros [_ _ H _]. unfold queued. rewrite length_fmap, length_seq. lia. Qed.

Lemma mod_succ_wrap x n : 0 <= x -> 0 < n -> (x + 1) mod n = if x mod n + 1 >=? n then 0 else x mod n + 1.
Proof.
  intros Hx Hn. rewrite <- Z.add_mod_idemp_l by lia. pose proof (Z.mod_pos_bound x n).
  destruct (Z.geb_spec (x mod n + 1) n).
  - replace (x mod n + 1) with n by lia. apply Z.mod_same. lia.
  - apply Z.mod_small. lia.
Qed.

Lemma mod64_inj x i j : 0 <= x -> 0 <= i < 64 -> 0 <= j < 64 -> (x + i) mod 64 = (x + j) mod 64 -> i = j.
Proof. intros Hx Hi Hj H. pose proof (Z.div_mod (x + i) 64). pose proof (Z.div_mod (x + j) 64). lia. Qed.

Lemma wp_slot s i m (Q : CanMessage -> can -> Prop) : 0 <= i -> OutputCANBuffer s !! Z.to_nat i = Some m -> Q m s -> wp (slot i) Q s.
Proof.
  intros Hi E HQ. unfold slot. apply wp_bind, wp_gets. destruct (Z.ltb_spec i 0); [lia|]. by eapply wp_deref.
Qed.

Lemma wp_put_slot s i m (Q : unit -> can -> Prop) : 0 <= i < Z.of_nat (length (OutputCANBuffer s)) ->
  Q tt (set_buffer (<[Z.to_nat i := m]> (OutputCANBuffer s)) s) -> wp (put_slot i m) Q s.
Proof.
  intros Hi HQ. destruct (lookup_lt_is_Some_2 (OutputCANBuffer s) (Z.to_nat i)) as [x E]; [lia|].
  unfold put_slot. apply wp_bind. eapply wp_slot; [lia|exact E|]. by apply wp_modify.
Qed.

(** The state after a message was stored behind the last one. *)
Definition stored (m : CanMessage) (s : can) : can :=
  mk_can (<[Z.to_nat (CANBufferEntryPointer s) := m]> (OutputCANBuffer s))
    ((CANBufferExitPointer s + CANBufferlength s + 1) mod 64) (CANBufferExitPointer s) (CANBufferlength s + 1) (sent s).

Lemma stored_ok m s : ring_ok s -> CANBufferlength s < 64 -> ring_ok (stored m s) /\ queued (stored m s) = queued s ++ [m].
Proof.
  intros [H1 H2 H3 H4] Hl. split.
  - split; cbn; [by rewrite length_insert|lia|lia|f_equal; lia].
  - unfold queued. cbn [CANBufferlength stored]. rewrite Z2Nat.inj_add by lia. change (Z.to_nat 1) with 1%nat.
    rewrite seq_app, fmap_app. f_equal.
    + apply list_fmap_ext. intros i x [-> Hx]%lookup_seq. unfold nth_msg. cbn. rewrite list_lookup_insert_ne; [done|].
      rewrite H4. intros E%Z2Nat.inj; [|apply Z.mod_pos_bound; lia..].
      apply mod64_inj in E; lia.
    + cbn. f_equal. unfold nth_msg. cbn. rewrite Z2Nat.id, H4 by lia.
      rewrite list_lookup_insert_eq; [done|]. rewrite H1. pose proof (Z.mod_pos_bound (CANBufferExitPointer s + CANBufferlength s) 64). lia.
Qed.

Lemma wp_enqueue_body m s (Q : Z -> can -> Prop) : ring_ok s -> CANBufferlength s < 64 -> Q 0 (stored m s) ->
  wp (let* e := gets CANBufferEntryPointer in
      put_slot e m ;;;
      modify (fun s => set_entry (u8 (CANBufferEntryPointer s + 1)) s) ;;;
      modify (fun s => set_length (u8 (CANBufferlength s + 1)) s) ;;;
      let* e := gets CANBufferEntryPointer in
      when (e >=? CAN_BUFFER_SIZE) (modify (set_entry 0)) ;;;
      ret 0) Q s.
Proof.
  intros [H1 H2 H3 H4] Hl HQ. pose proof (Z.mod_pos_bound (CANBufferExitPointer s + CANBufferlength s) 64 ltac:(lia)) as Hb.
  apply wp_bind, wp_gets, wp_bind, wp_put_slot; [rewrite H1; lia|].
  apply wp_bind, wp_modify, wp_bind, wp_modify, wp_bind, wp_gets, wp_bind. cbn.
  assert (u8 (CANBufferEntryPointer s + 1) = CANBufferEntryPointer s + 1) as -> by (apply Z.mod_small; lia).
  assert (u8 (CANBufferlength s + 1) = CANBufferlength s + 1) as E by (apply Z.mod_small; lia).
  unfold when, set_entry, set_length, set_buffer. cbn. unfold CAN_BUFFER_SIZE.
  unfold stored in HQ. rewrite mod_succ_wrap, <- H4 in HQ by lia. rewrite E.
  destruct (CANBufferEntryPointer s + 1 >=? 64); [apply wp_modify|]; by apply wp_ret.
Qed.

Lemma wp_eight d (Q : list Z -> can -> Prop) s : length d = 8%nat -> Q d s -> wp (eight d) Q s.
Proof. intros H HQ. unfold eight. rewrite H. cbn. apply wp_ret. by rewrite take_ge by lia. Qed.

Lemma wp_queue_fields id len d s : ring_ok s -> length d = 8%nat ->
  wp (QueueFieldsCanMessageOutputCANBuffer id len d) (fun r s' => ring_ok s' /\
    (r, queued s') = a_enqueue (mk_msg id len d) (queued s) /\ sent s' = sent s) s.
Proof.
  intros H Hd. pose proof (length_queued s H) as Hq. unfold QueueFieldsCanMessageOutputCANBuffer, a_enqueue. apply wp_bind, wp_gets.
  unfold CAN_BUFFER_SIZE at 1. destruct (Z.geb_spec (CANBufferlength s) 64).
  - apply wp_ret. destruct (Nat.ltb_spec (length (queued s)) 64); [lia|done].
  - destruct (Nat.ltb_spec (length (queued s)) 64); [|lia]. apply wp_bind, wp_eight; [done|].
    apply wp_enqueue_body; [done|done|]. destruct (stored_ok (mk_msg id len d) s H) as [H' E']; [done|]. by rewrite E'.
Qed.

Lemma wp_queue_msg m s : ring_ok s -> length (Data m) = 8%nat ->
  wp (QueueCanMessageOutputCANBuffer m) (fun r s' => ring_ok s' /\
    (r, queued s') = a_enqueue m (queued s) /\ sent s' = sent s) s.
Proof. intros H Hd. destruct m as [id len d]. exact (wp_queue_fields id len d s H Hd). Qed.

(** The state after the oldest message was taken out. *)
Definition taken (f : frame) (s : can) : can :=
  mk_can (OutputCANBuffer s) (CANBufferEntryPointer s) ((CANBufferExitPointer s + 1) mod 64) (CANBufferlength s - 1)
    (sent s ++ [f]).

Lemma taken_ok f s : ring_ok s -> 0 < CANBufferlength s ->
  ring_ok (taken f s) /\ queued s = nth_msg s 0 :: queued (taken f s).
Proof.
  intros [H1 H2 H3 H4] Hl. split.
  - split; cbn; [done|apply Z.mod_pos_bound; lia|lia|]. rewrite H4, Z.add_mod_idemp_l by lia. f_equal. lia.
  - unfold queued. cbn [CANBufferlength taken]. replace (Z.to_nat (CANBufferlength s)) with (S (Z.to_nat (CANBufferlength s - 1))) by lia.
    cbn [seq]. rewrite fmap_cons. f_equal. rewrite <- fmap_S_seq, <- list_fmap_compose. apply list_fmap_ext.
    intros i x _. unfold nth_msg. cbn -[Z.of_nat]. rewrite Z.add_mod_idemp_l by lia. do 4 f_equal. lia.
Qed.

Lemma wp_send txreq s : ring_ok s ->
  wp (SendAndDequeueOneCanMessageOutputCANBuffer txreq) (fun r s' => ring_ok s' /\
    exists fs, (r, queued s', fs) = a_send txreq (queued s) /\ sent s' = sent s ++ fs) s.
Proof.
  intros H. pose proof (length_queued s H) as Hq. unfold SendAndDequeueOneCanMessageOutputCANBuffer. apply wp_bind, wp_gets.
  pose proof H as [H1 H2 H3 H4]. destruct (Z.eqb_spec (CANBufferlength s) 0) as [E|E].
  { apply wp_ret. split; [done|]. exists []. rewrite app_nil_r. destruct (queued s) eqn:Eq; [done|cbn in Hq; lia]. }
  destruct (lookup_lt_is_Some_2 (OutputCANBuffer s) (Z.to_nat (CANBufferExitPointer s))) as [m Em]; [lia|].
  assert (nth_msg s 0 = m) as E0 by (unfold nth_msg; change (Z.of_nat 0) with 0; by rewrite Z.add_0_r, Z.mod_small, Em by lia).
  destruct (taken_ok (frame_of m) s H) as [Hok' Eq]; [lia|]. rewrite E0 in Eq. rewrite Eq. cbn [a_send]. destruct txreq.
  { apply wp_ret. split; [done|]. exists []. by rewrite app_nil_r, Eq. }
  apply wp_bind, wp_gets, wp_bind. eapply wp_slot; [lia|exact Em|].
  apply wp_bind, wp_modify, wp_bind, wp_modify, wp_bind, wp_modify, wp_bind, wp_gets, wp_bind. cbn.
  assert (u8 (CANBufferExitPointer s + 1) = CANBufferExitPointer s + 1) as -> by (apply Z.mod_small; lia).
  assert (u8 (CANBufferlength s - 1) = CANBufferlength s - 1) as Ew by (apply Z.mod_small; lia).
  assert (forall s', s' = taken (frame_of m) s -> ring_ok s' /\ exists fs,
    (0, queued s', fs) = (0, queued (taken (frame_of m) s), [frame_of m]) /\ sent s' = sent s ++ fs) as Hfin.
  { intros s' ->. split; [done|]. by exists [frame_of m]. }
  unfold when, CAN_BUFFER_SIZE. pose proof (mod_succ_wrap (CANBufferExitPointer s) 64 ltac:(lia) ltac:(lia)) as Em'.
  rewrite (Z.mod_small (CANBufferExitPointer s)) in Em' by lia.
  destruct (CANBufferExitPointer s + 1 >=? 64); [apply wp_modify|]; apply wp_ret, Hfin; unfold taken; rewrite Em', ?Ew; reflexivity.
Qed.

Lemma wp_count s : ring_ok s ->
  wp HowManyCANMessagesAreReadyToBeSent (fun r s' => s' = s /\ r = Z.of_nat (length (queued s))) s.
Proof.
  intros H. unfold HowManyCANMessagesAreReadyToBeSent. apply wp_bind, wp_gets, wp_ret. split; [done|].
  rewrite length_queued by done. destruct H as [_ _ H _]. unfold i8, wraps. rewrite Z.mod_small; lia.
Qed.

Lemma wp_init_slots n s i (Q : unit -> can -> Prop) : 0 <= i -> i + Z.of_nat n <= Z.of_nat (length (OutputCANBuffer s)) ->
  Z.of_nat (length (OutputCANBuffer s)) < 256 ->
  (forall b, length b = length (OutputCANBuffer s) -> Q tt (set_buffer b s)) -> wp (init_slots n i) Q s.
Proof.
  revert s i. induction n as [|n IH]; intros s i Hi Hn Hl HQ; cbn [init_slots].
  - apply wp_ret. destruct s. exact (HQ _ eq_refl).
  - apply wp_bind, wp_put_slot; [lia|]. assert (u8 (i + 1) = i + 1) as -> by (apply Z.mod_small; lia).
    apply IH; cbn [OutputCANBuffer set_buffer]; rewrite ?length_insert; [lia..|]. intros b Hb. exact (HQ b Hb).
Qed.

Lemma wp_ring_init s : length (OutputCANBuffer s) = 64%nat ->
  wp OutputCANBufferInit (fun _ s' => ring_ok s' /\ queued s' = [] /\ sent s' = sent s) s.
Proof.
  intros Hl. unfold OutputCANBufferInit. apply wp_bind, wp_modify, wp_bind, wp_modify, wp_bind, wp_modify.
  apply wp_init_slots; [done|..]; cbn [OutputCANBuffer set_length set_exit set_entry]; rewrite Hl; [done|done|].
  intros b Hb. split_and!; try done.
Qed.

(** ** Any sequence of operations *)

Inductive can_op :=
  | OpQueue (m : CanMessage)
  | OpSend (txreq : bool)
  | OpCount.

Definition can_exec (o : can_op) : CM Z :=
  match o with
  | OpQueue m => QueueCanMessageOutputCANBuffer m
  | OpSend b => SendAndDequeueOneCanMessageOutputCANBuffer b
  | OpCount => HowManyCANMessagesAreReadyToBeSent
  end.

Fixpoint can_run (l : list can_op) : CM (list Z) :=
  match l with [] => ret [] | o :: l => let* r := can_exec o in let* rs := can_run l in ret (r :: rs) end.

(** The same on the queue: results, queue and what was sent. *)
Definition a_exec (o : can_op) (q : list CanMessage) : Z * list CanMessage * list frame :=
  match o with
  | OpQueue m => (a_enqueue m q, [])
  | OpSend b => a_send b q
  | OpCount => (Z.of_nat (length q), q, [])
  end.

Fixpoint a_run (l : list can_op) (q : list CanMessage) : list Z * list CanMessage * list frame :=
  match l with
  | [] => ([], q, [])
  | o :: l => let '(r, q, fs) := a_exec o q in let '(rs, q, fs') := a_run l q in (r :: rs, q, fs ++ fs')
  end.

Definition op_ok (o : can_op) : Prop := match o with OpQueue m => length (Data m) = 8%nat | _ => True end.

Lemma wp_can_exec o s : ring_ok s -> op_ok o ->
  wp (can_exec o) (fun r s' => ring_ok s' /\ exists fs, (r, queued s', fs) = a_exec o (queued s) /\ sent s' = sent s ++ fs) s.
Proof.
  intros H Ho. destruct o as [m|b|]; cbn [can_exec a_exec].
  - eapply wp_mono; [by apply wp_queue_msg|]. intros r s' (H' & E & Es). split; [done|]. exists []. rewrite app_nil_r, <- E. done.
  - eapply wp_mono; [by apply wp_send|]. intros r s' (H' & fs & E & Es). split; [done|]. by exists fs.
  - eapply wp_mono; [by apply wp_count|]. intros r s' [-> ->]. split; [done|]. exists []. by rewrite app_nil_r.
Qed.

Lemma wp_can_run l s : ring_ok s -> Forall op_ok l ->
  wp (can_run l) (fun rs s' => ring_ok s' /\ exists fs, (rs, queued s', fs) = a_run l (queued s) /\ sent s' = sent s ++ fs) s.
Proof.
  intros H Hl. revert s H. induction Hl as [|o l Ho _ IH]; intros s H; cbn [can_run a_run].
  - apply wp_ret. split; [done|]. exists []. by rewrite app_nil_r.
  - apply wp_bind. eapply wp_mono; [by apply wp_can_exec|]. intros r s1 (H1 & fs & E & Es). rewrite <- E.
    apply wp_bind. eapply wp_mono; [by apply IH|]. intros rs s2 (H2 & fs' & E' & Es'). rewrite <- E'. apply wp_ret.
    split; [done|]. exists (fs ++ fs'). by rewrite Es', Es, app_assoc.
Qed.

(** ** The interrupt *)

(** The registers of a received message with the extended identifier [id]: the
    eleven bits of the standard part, twelve bits in between, the low six. *)
Definition id_fields (id : Z) : Z * Z * Z := (ext_sid id, Z.land (Z.shiftr id 6) 0xFFF, Z.land id 0x3F).

Lemma land_mask_range x k w : 0 <= k -> 0 <= w -> Z.shiftr (Z.land x (Z.shiftl (Z.ones w) k)) k = (x / 2 ^ k) mod 2 ^ w.
Proof.
  intros Hk Hw. rewrite Z.shiftr_land, Z.shiftr_shiftl_l, Z.sub_diag, Z.shiftl_0_r, Z.land_ones, Z.shiftr_div_pow2 by lia. done.
Qed.

(** Sending and receiving agree on the identifier. *)
Lemma received_id_fields r id : 0 <= id < 2 ^ 29 -> RXIDE r = true -> (SID r, EID r, EID5_0 r) = id_fields id -> received_id r = id.
Proof.
  intros Hid Hx E. unfold received_id. rewrite Hx. cbn [negb]. unfold id_fields, ext_sid in E. injection E as -> -> ->.
  change 0x1FFC0000 with (Z.shiftl (Z.ones 11) 18). rewrite land_mask_range by lia.
  set (s := (id / 2 ^ 18) mod 2 ^ 11). set (e := Z.land (Z.shiftr id 6) 0xFFF). set (l := Z.land id 0x3F).
  assert (e = (id / 2 ^ 6) mod 2 ^ 12) as Ee by (unfold e; change 0xFFF with (Z.ones 12); by rewrite Z.land_ones, Z.shiftr_div_pow2 by lia).
  assert (l = id mod 2 ^ 6) as El by (unfold l; change 0x3F with (Z.ones 6); by rewrite Z.land_ones by lia).
  change 0x0003 with (Z.ones 2). change 0x03FC with (Z.shiftl (Z.ones 8) 2). change 0x0C00 with (Z.shiftl (Z.ones 2) 10).
  change 0x03F with (Z.ones 6). change 0x7C0 with (Z.shiftl (Z.ones 5) 6).
  rewrite !land_mask_range, !Z.land_ones, !Z.shiftl_mul_pow2 by lia. clearbody e l.
  assert (s = id / 2 ^ 18) as Es by (unfold s; apply Z.mod_small; split; [apply Z.div_pos; lia|apply Z.div_lt_upper_bound; lia]).
  clearbody s. change (2 ^ 6) with 64 in *. change (2 ^ 18) with 262144 in *. change (2 ^ 12) with 4096 in *.
  change (2 ^ 2) with 4. change (2 ^ 8) with 256. change (2 ^ 10) with 1024. change (2 ^ 5) with 32.
  change (2 ^ 16) with 65536. change (2 ^ 24) with 16777216.
  assert (0 <= id < 536870912) as Hid' by done.
  assert (0 <= s < 2048) by (subst s; split; [apply Z.div_pos; lia|apply Z.div_lt_upper_bound; lia]).
  assert (0 <= e < 4096) by (subst e; apply Z.mod_pos_bound; lia). assert (0 <= l < 64) by (subst l; apply Z.mod_pos_bound; lia).
  assert (id = l + 64 * e + 262144 * s) as Eid.
  { subst l e s. rewrite (Z.div_mod id 64) at 1 by lia. rewrite (Z.div_mod (id / 64) 4096) at 1 by lia. rewrite Z.div_div by lia. change (64 * 4096) with 262144. lia. }
  pose proof (Z.div_mod e 4 ltac:(lia)). pose proof (Z.mod_pos_bound e 4 ltac:(lia)).
  pose proof (Z.div_mod (e / 4) 256 ltac:(lia)). pose proof (Z.mod_pos_bound (e / 4) 256 ltac:(lia)).
  rewrite Z.div_div in * by lia. change (4 * 256) with 1024 in *.
  assert (0 <= e / 1024 < 4) by (split; [apply Z.div_pos; lia|apply Z.div_lt_upper_bound; lia]).
  pose proof (Z.div_mod s 64 ltac:(lia)). pose proof (Z.mod_pos_bound s 64 ltac:(lia)).
  assert (0 <= s / 64 < 32) by (split; [apply Z.div_pos; lia|apply Z.div_lt_upper_bound; lia]).
  rewrite (Z.mod_small (e / 1024)), (Z.mod_small (s / 64)) by lia.
  clear Ee El Es Hid. set (a := e mod 4) in *. set (b := (e / 4) mod 256) in *. set (c := e / 1024) in *.
  set (d := s mod 64) in *. set (f := s / 64) in *. clearbody a b c d f.
  rewrite (u32_small (l + a * 64 + b * 256)), (u32_small ((c + d * 4) * 65536)), (u32_small (f * 16777216)) by lia.
  rewrite (u32_small (l + a * 64 + b * 256 + _)) by lia. rewrite u32_small by lia. lia.
Qed.

Lemma copy_data_ok n : forall i rx datos, (i + n <= length datos)%nat -> (i + n <= length rx)%nat ->
  copy_data n i rx datos = Some (take i datos ++ take n (drop i rx) ++ drop (i + n) datos).
Proof.
  induction n as [|n IH]; intros i rx datos Hd Hr; cbn [copy_data].
  - rewrite take_0, Nat.add_0_r, app_nil_l. by rewrite take_drop.
  - destruct (Nat.ltb_spec i (length datos)); [|lia]. destruct (lookup_lt_is_Some_2 rx i) as [b Eb]; [lia|]. rewrite Eb.
    rewrite IH by (rewrite ?length_insert; lia). f_equal.
    rewrite (drop_S rx b i Eb). cbn [take]. rewrite drop_insert_lt by lia. replace (S i + n)%nat with (i + S n)%nat by lia.
    rewrite (take_S_r _ _ b) by (apply list_lookup_insert_eq; lia). rewrite take_insert_ge by lia. by rewrite <- app_assoc.
Qed.

(** What the identifier of a message says: its function in the upper five bits,
    the node that it is for below. *)
Inductive recipient :=
  | Nobody
  | Control (f : control)
  | Answers (f : service) (aid : Z) (ackbit : bool).

(** Who gets a message: the services of the control loop by the function alone,
    whether bit 28 marks an acknowledgement or not; the code loader by one
    identifier; the others by their function when the message is for the node or
    for all. Their acknowledgement has bit 28 set and comes from the node. *)
Definition recipient_of (msb lsb bc : Z) (sv : services) (id : Z) : recipient :=
  let func := id / 2 ^ 24 in
  let node := id mod 2 ^ 24 in
  let own := msb * 2 ^ 16 + lsb * 2 ^ 8 in
  let acks f := if (node =? own) || (node =? bc * 2 ^ 8) then Answers f ((16 + func) * 2 ^ 24 + own) true else Nobody in
  if (func mod 16 =? 0x1) then Control (ProcessActuacionInControlCANMessages sv) else
  if (func mod 16 =? 0x2) then Control (ProcessSensoringInControlCANMessages sv) else
  if func =? 0x3 then acks (ProcessReferenceCANMessages sv) else
  if func =? 0x4 then acks (ProcessDataManagerMessages sv) else
  if func =? 0x8 then acks (ProcessModeCANMessages sv) else
  if func =? 0xC then acks (ProcessActuatorMessages sv) else
  if func =? 0xD then acks (ProcessSensoringMessages sv) else
  if (func =? 0xF) && (node =? 0x30) then Answers (CodeLoader sv) 0x0F000031 false
  else Nobody.

Lemma bits_high v k i : 0 <= v < 2 ^ k -> 0 <= k <= i -> Z.testbit v i = false.
Proof. intros Hv Hk. rewrite <- (Z.mod_small v (2 ^ k)) by done. by apply Z.mod_pow2_bits_high. Qed.

Lemma lor_func k v : 0 <= v < 2 ^ 24 -> 0 <= k -> Z.lor (k * 2 ^ 24) v = k * 2 ^ 24 + v.
Proof.
  intros Hv Hk. rewrite <- Z.shiftl_mul_pow2 by lia. symmetry. apply Z.add_nocarry_lor, Z.bits_inj'. intros i Hi.
  rewrite Z.land_spec, Z.bits_0. destruct (Z.lt_ge_cases i 24).
  - by rewrite Z.shiftl_spec_low.
  - rewrite (bits_high v 24) by lia. by rewrite andb_false_r.
Qed.

Lemma eqb_split a b c d : 0 <= b < 2 ^ 24 -> 0 <= d < 2 ^ 24 -> (a * 2 ^ 24 + b =? c * 2 ^ 24 + d) = (a =? c) && (b =? d).
Proof.
  intros Hb Hd. destruct (Z.eqb_spec (a * 2 ^ 24 + b) (c * 2 ^ 24 + d)) as [E|E], (Z.eqb_spec a c), (Z.eqb_spec b d); try lia; exfalso; lia.
Qed.

Section routing.
Context (msb lsb bc : Z) (Hmsb : 0 <= msb < 256) (Hlsb : 0 <= lsb < 256) (Hbc : 0 <= bc < 256).

Lemma node_id_bytes : CAN_NODE_ID msb lsb = msb * 2 ^ 16 + lsb * 2 ^ 8.
Proof using Hmsb Hlsb.
  unfold CAN_NODE_ID. rewrite !Z.shiftl_mul_pow2 by lia. rewrite <- Z.shiftl_mul_pow2 by lia. symmetry.
  apply Z.add_nocarry_lor, Z.bits_inj'. intros i Hi. rewrite Z.land_spec, Z.bits_0. destruct (Z.lt_ge_cases i 16).
  - by rewrite Z.shiftl_spec_low.
  - rewrite (bits_high (lsb * 2 ^ 8) 16) by lia. by rewrite andb_false_r.
Qed.

Lemma for_node_split f v k : 0 <= v < 2 ^ 24 -> 0 <= k ->
  for_node msb lsb bc (f * 2 ^ 24 + v) (k * 2 ^ 24) =
  (f =? k) && ((v =? msb * 2 ^ 16 + lsb * 2 ^ 8) || (v =? bc * 2 ^ 8)).
Proof using Hmsb Hlsb Hbc.
  intros Hv Hk. unfold for_node. rewrite node_id_bytes, Z.shiftl_mul_pow2, !lor_func, !eqb_split by lia.
  by rewrite andb_orb_distrib_r.
Qed.

Lemma func_nibble f v k : 0 <= v < 2 ^ 24 -> 0 <= f -> 0 <= k < 16 ->
  (Z.land (f * 2 ^ 24 + v) 0x0F000000 =? k * 2 ^ 24) = (f mod 16 =? k).
Proof.
  intros Hv Hf Hk. assert (Z.land (f * 2 ^ 24 + v) 0x0F000000 = (f mod 16) * 2 ^ 24) as ->.
  { change 0x0F000000 with (Z.shiftl (Z.ones 4) 24).
    assert (forall x, Z.land x (Z.shiftl (Z.ones 4) 24) = Z.shiftl (Z.shiftr (Z.land x (Z.shiftl (Z.ones 4) 24)) 24) 24) as E.
    { intros x. apply Z.bits_inj'. intros i Hi. destruct (Z.lt_ge_cases i 24).
      - by rewrite Z.shiftl_spec_low, Z.land_spec, Z.shiftl_spec_low, andb_false_r by lia.
      - rewrite (Z.shiftl_spec (Z.shiftr _ _)), Z.shiftr_spec by lia. by replace (i - 24 + 24) with i by lia. }
    rewrite E, land_mask_range, Z.shiftl_mul_pow2 by lia. f_equal. change (2 ^ 4) with 16. f_equal.
    rewrite Z.div_add_l by lia. rewrite Z.div_small by lia. lia. }
  destruct (Z.eqb_spec (f mod 16 * 2 ^ 24) (k * 2 ^ 24)), (Z.eqb_spec (f mod 16) k); lia.
Qed.

End routing.

(** The message that is queued in answer. *)
Definition answer (aid : Z) (ackbit ack : bool) (len : Z) (d : list Z) : option CanMessage :=
  if ack then Some (mk_msg aid len (if ackbit then <[Z.to_nat (len - 1) := 0]> d else d)) else None.

Definition enqueue_answer (a : option CanMessage) (q : list CanMessage) : list CanMessage :=
  match a with Some m => (a_enqueue m q).2 | None => q end.

Definition answered (a : option CanMessage) (s s' : can) : Prop :=
  ring_ok s' /\ queued s' = enqueue_answer a (queued s) /\ sent s' = sent s.

(** What comes of a message in the state [s], [o] being the state at the end: the
    recipient has run, with the identifier, the data and their length, and what it
    asks for, if anything, is queued behind the messages that wait while there is
    room. An acknowledgement clears the last byte of the data: with a length
    outside of the array this is a store outside of it. *)
Definition attended (t : recipient) (id len : Z) (d : list Z) (s : can) (o : option can) : Prop :=
  match t with
  | Nobody => o = Some s
  | Control f => o = snd <$> f id d len s
  | Answers f aid ackbit =>
      match f d len s with
      | None => o = None
      | Some ((ack, d', len'), s1) => length d' = 8%nat -> ring_ok s1 ->
          if ack && ackbit && negb ((1 <=? len') && (len' <=? 8)) then o = None
          else exists s', o = Some s' /\ answered (answer aid ackbit ack len' d') s1 s'
      end
  end.

Lemma wp_end {S A} (m : M S A) (P : S -> Prop) s : wp m (fun _ s' => P s') s -> exists s', snd <$> m s = Some s' /\ P s'.
Proof. unfold wp. destruct (m s) as [[a s']|]; [|done]. intros H. by exists s'. Qed.

Lemma wp_queue_answer id len d s (Q : unit -> can -> Prop) : ring_ok s -> length d = 8%nat ->
  (forall s', answered (Some (mk_msg id len d)) s s' -> Q tt s') ->
  wp (QueueFieldsCanMessageOutputCANBuffer id len d ;;; ret tt) Q s.
Proof.
  intros H Hd HQ. apply wp_bind. eapply wp_mono; [by apply wp_queue_fields|]. intros r s' (H' & E & Es). apply wp_ret, HQ.
  split_and!; [done| |done]. cbn. by rewrite <- E.
Qed.

Lemma queue_answer_end id len d s : ring_ok s -> length d = 8%nat ->
  exists s', snd <$> (QueueFieldsCanMessageOutputCANBuffer id len d ;;; ret tt) s = Some s' /\
    answered (Some (mk_msg id len d)) s s'.
Proof. intros H Hd. by apply wp_end, wp_queue_answer. Qed.

Lemma serve_ack_attended msb lsb f k id len d s :
  attended (Answers f (Z.lor (Z.lor ACK_ID k) (CAN_NODE_ID msb lsb)) true) id len d s (snd <$> serve_ack msb lsb f k len d s).
Proof.
  unfold attended, serve_ack, bind. destruct (f d len s) as [[[[ack d'] len'] s1]|]; [|done]. intros Hd H.
  destruct ack; cbn [negb andb]; [|by exists s1; split_and!]. unfold reset_ack. rewrite Hd.
  destruct (Z.ltb_spec (len' - 1) 0), (Z.geb_spec (len' - 1) (Z.of_nat 8)), (Z.leb_spec 1 len'), (Z.leb_spec len' 8);
    cbn [orb andb negb]; try lia; try done.
  apply (queue_answer_end _ _ _ s1); [done|by rewrite length_insert].
Qed.

Lemma loader_attended f aid id len d s :
  attended (Answers f aid false) id len d s (snd <$>
    (let* '(answer, datos, len) := f d len in
     if answer then QueueFieldsCanMessageOutputCANBuffer aid len datos ;;; ret tt else ret tt) s).
Proof.
  unfold attended, bind. destruct (f d len s) as [[[[ack d'] len'] s1]|]; [|done]. intros Hd H.
  rewrite andb_false_r. destruct ack; [|by exists s1; split_and!]. cbn [andb].
  by apply (queue_answer_end _ _ _ s1).
Qed.

Lemma dispatch_attended msb lsb bc sv id len d s :
  0 <= msb < 256 -> 0 <= lsb < 256 -> 0 <= bc < 256 -> 0 <= id < 2 ^ 29 ->
  attended (recipient_of msb lsb bc sv id) id len d s (snd <$> dispatch msb lsb bc sv id len d s).
Proof.
  intros Hm Hl Hb Hid. unfold recipient_of.
  pose proof (Z.div_mod id (2 ^ 24) ltac:(lia)) as Eid. pose proof (Z.mod_pos_bound id (2 ^ 24) ltac:(lia)) as Hv.
  assert (0 <= id / 2 ^ 24 < 32) as Hf by (split; [apply Z.div_pos; lia|apply Z.div_lt_upper_bound; lia]).
  set (f := id / 2 ^ 24) in *. set (v := id mod 2 ^ 24) in *. rewrite Z.mul_comm in Eid.
  set (mine := (v =? msb * 2 ^ 16 + lsb * 2 ^ 8) || (v =? bc * 2 ^ 8)).
  assert (forall k, 0 <= k < 16 -> Z.lor (Z.lor ACK_ID (k * 2 ^ 24)) (CAN_NODE_ID msb lsb) = (16 + k) * 2 ^ 24 + (msb * 2 ^ 16 + lsb * 2 ^ 8)) as Hack.
  { intros k Hk. rewrite (node_id_bytes msb lsb) by done. rewrite <- lor_func by lia. f_equal. unfold ACK_ID.
    assert (k = 0 \/ k = 1 \/ k = 2 \/ k = 3 \/ k = 4 \/ k = 5 \/ k = 6 \/ k = 7 \/ k = 8 \/ k = 9 \/ k = 10 \/ k = 11 \/ k = 12 \/ k = 13 \/ k = 14 \/ k = 15) as D by lia.
    repeat destruct D as [->|D]; try reflexivity. by rewrite D. }
  assert (forall k, 0 <= k < 16 -> for_node msb lsb bc id (k * 2 ^ 24) = (f =? k) && mine) as Hfor.
  { intros k Hk. rewrite Eid. apply for_node_split; lia. }
  assert (forall k, 0 <= k < 16 -> (Z.land id 0x0F000000 =? k * 2 ^ 24) = (f mod 16 =? k)) as Hnib.
  { intros k Hk. rewrite Eid. apply func_nibble; lia. }
  assert ((id =? CODE_LOADER_INPUT_ID) = (f =? 15) && (v =? 0x30)) as Hld.
  { rewrite Eid. by apply (eqb_split f v 15 0x30); lia. }
  unfold dispatch. rewrite Hld.
  change ACTUATION_PERIOD_ID with (12 * 2 ^ 24). change SENSORING_PERIOD_ID with (13 * 2 ^ 24).
  change OPERATION_MODE_CAN_MSG_ID with (8 * 2 ^ 24). change SET_REFERENCE_ID with (3 * 2 ^ 24).
  change PERIODIC_CONTROL_DATA_SENDING with (4 * 2 ^ 24). change ACTUACION_IN_CONTROL_CAN_MSG_ID with (1 * 2 ^ 24).
  change SENSORING_IN_CONTROL_CAN_MSG_ID with (2 * 2 ^ 24).
  rewrite !Hfor, !Hnib by lia. clearbody mine. clear Hfor Hnib Hld Eid.
  assert (forall k g, 0 <= k < 16 -> f = k ->
    attended (Answers g ((16 + f) * 2 ^ 24 + (msb * 2 ^ 16 + lsb * 2 ^ 8)) true) id len d s
      (snd <$> serve_ack msb lsb g (k * 2 ^ 24) len d s)) as Hsv.
  { intros k g Hk ->. rewrite <- Hack by done. apply serve_ack_attended. }
  clear Hack. clearbody f v.
  assert (In f [0;1;2;3;4;5;6;7;8;9;10;11;12;13;14;15;16;17;18;19;20;21;22;23;24;25;26;27;28;29;30;31]) as D by (cbn; lia).
  repeat destruct D as [<-|D]; [..|done];
    repeat match goal with |- context [?a mod 16] => let x := eval vm_compute in (a mod 16) in change (a mod 16) with x end;
    cbn [Z.eqb Pos.eqb andb]; try destruct mine; try destruct (v =? 0x30); cbn [andb];
    first [by apply Hsv; lia | apply loader_attended | done].
Qed.

(** The data of a message: the bytes received, and the rest as it was. *)
Definition received_data (r : c1regs) (datos0 : list Z) : list Z :=
  take (Z.to_nat (DLC r)) (RXB r) ++ drop (Z.to_nat (DLC r)) datos0.

(** What the interrupt does with the flags when a message was received. *)
Definition flags_reset (r : c1regs) : c1regs :=
  mk_c1 false false false (RXIDE r) (SID r) (EID r) (EID5_0 r) (DLC r) (RXB r) false.

(** The interrupt that a message caused: its data are copied and dispatched. *)
Lemma C1Interrupt_received msb lsb bc sv datos0 r s : RX0IF r = true ->
  length datos0 = 8%nat -> length (RXB r) = 8%nat -> 0 <= DLC r <= 8 ->
  C1Interrupt msb lsb bc sv datos0 r s =
    (dispatch msb lsb bc sv (received_id r) (DLC r) (received_data r datos0) ;;; ret (flags_reset r)) s.
Proof.
  intros Hrx Hd Hr Hl. unfold C1Interrupt. destruct r as [[] rx c x si e el dl b rf]; cbn in Hrx, Hr, Hl |- *; subst rx; cbn [negb];
    unfold deref, bind; rewrite copy_data_ok by lia; rewrite take_0, drop_0, app_nil_l; done.
Qed.

Lemma C1Interrupt_other msb lsb bc sv datos0 r s : RX0IF r = false ->
  wp (C1Interrupt msb lsb bc sv datos0 r) (fun r' s' => TX0IF r' = false /\ (TX0IF r = true -> C1IF r' = false) /\ s' = s) s.
Proof. intros Hrx. unfold C1Interrupt. destruct r as [[] rx c x si e el dl b rf]; cbn in Hrx |- *; subst rx; by apply wp_ret. Qed.
