(* ===== verification/Elf.v ===== *)
(** * ELF images

    user/bootloader/src/bloader.c: the loader that copies the sections of an
    application to their addresses; user/packer/packer.c: the program that
    writes the flash image, with the sections of the boot loader one after the
    other. Both walk the section headers of an image in memory, with the layout
    of ulibc/include/libelf.h, little-endian. The fields are read byte by byte: an
    image is taken to lie at an address that is a multiple of four, with an aligned table
    of section headers, where the processor reads them as words. *)

From Stdlib Require Import ZArith Lia.
From stdpp Require Import base tactics gmap option list.
From S2P Require Import Prelude Bits Mem Bytes Cstring.

Open Scope Z_scope.
Open Scope kernel_scope.

(** ** Fields of the headers *)

(** A half word in memory, little-endian. *)
Definition ldh (a : Z) : M bmem Z :=
  let* b0 := ldb a in let* b1 := ldb (a + 1) in ret (b0 + 2 ^ 8 * b1).

Definition e_type (ehdr : Z) : Z := ehdr + 16.
Definition e_entry (ehdr : Z) : Z := ehdr + 24.
Definition e_shoff (ehdr : Z) : Z := ehdr + 32.
Definition e_shnum (ehdr : Z) : Z := ehdr + 48.
Definition e_shstrndx (ehdr : Z) : Z := ehdr + 50.

Definition sizeof_Shdr : Z := 40.
Definition sh_type (shdr : Z) : Z := shdr + 4.
Definition sh_flags (shdr : Z) : Z := shdr + 8.
Definition sh_addr (shdr : Z) : Z := shdr + 12.
Definition sh_offset (shdr : Z) : Z := shdr + 16.
Definition sh_size (shdr : Z) : Z := shdr + 20.

Definition ET_EXEC : Z := 2.
Definition SHT_STRTAB : Z := 3.
Definition SHT_NOBITS : Z := 8.
Definition SHF_ALLOC : Z := 0x2.

(** The magic number, byte by byte. *)
Definition IS_ELF (addr : Z) : M bmem bool :=
  let* b := ldb addr in if negb (b =? 0x7f) then ret false else
  let* b := ldb (addr + 1) in if negb (b =? 69) then ret false else
  let* b := ldb (addr + 2) in if negb (b =? 76) then ret false else
  let* b := ldb (addr + 3) in ret (b =? 70).

(** ** The boot loader *)

(** [++count; while (--count) { *d = *s; ++d; ++s; }] *)
Fixpoint bmemcpy_loop (fuel : nat) (d s count : Z) : M bmem unit :=
  match fuel with
  | O => fault
  | S fuel =>
      let count := u32 (count - 1) in
      if count =? 0 then ret tt else
      let* b := ldb s in
      stb d b ;;;
      bmemcpy_loop fuel (d + 1) (s + 1) count
  end.

Definition bmemcpy (dst src count : Z) : M bmem Z :=
  bmemcpy_loop (S (Z.to_nat count)) dst src (u32 (count + 1)) ;;; ret dst.

Fixpoint bmemset_loop (fuel : nat) (d v count : Z) : M bmem unit :=
  match fuel with
  | O => fault
  | S fuel =>
      let count := u32 (count - 1) in
      if count =? 0 then ret tt else
      stb d v ;;;
      bmemset_loop fuel (d + 1) v count
  end.

(** No value is returned, and none is used. *)
Definition bmemset (dst val count : Z) : M bmem unit :=
  bmemset_loop (S (Z.to_nat count)) dst (i8 val) (u32 (count + 1)).

Definition valid_elf_image (addr : Z) : M bmem Z :=
  let* ok := IS_ELF addr in
  if negb ok then ret 0 else
  let* t := ldh (e_type addr) in
  if negb (t =? ET_EXEC) then ret 0 else ret 1.

(** The header of section [i]. [w] is the width of a pointer: 32 bits in the boot
    loader, 64 bits in the packer, which runs on the host. *)
Definition shdr_at (w : Z) (addr i : Z) : M bmem Z :=
  let* off := ldw (e_shoff addr) in ret (wrapu w (addr + off + i * sizeof_Shdr)).

(** A section that is not part of the memory of the program. *)
Definition skipped (shdr : Z) : M bmem bool :=
  let* f := ldw (sh_flags shdr) in
  if negb (nz (Z.land f SHF_ALLOC)) then ret true else
  let* a := ldw (sh_addr shdr) in
  if a =? 0 then ret true else
  let* n := ldw (sh_size shdr) in ret (n =? 0).

(** The string table of the section names is looked up and not used. *)
Definition find_strtab (w : Z) (addr : Z) : M bmem Z :=
  let* off := ldw (e_shoff addr) in
  let* ndx := ldh (e_shstrndx addr) in
  let shdr := wrapu w (addr + off + ndx * sizeof_Shdr) in
  let* t := ldw (sh_type shdr) in
  if t =? SHT_STRTAB then let* o := ldw (sh_offset shdr) in ret (wrapu w (addr + o)) else ret 0.

(** [for (i = 0; i < ehdr->e_shnum; ++i)]: [e_shnum] has 16 bits. *)
Fixpoint load_loop (fuel : nat) (addr i : Z) : M bmem unit :=
  match fuel with
  | O => fault
  | S fuel =>
      let* n := ldh (e_shnum addr) in
      if negb (i <? n) then ret tt else
      let* shdr := shdr_at 32 addr i in
      let* skip := skipped shdr in
      (if skip then ret tt else
       let* t := ldw (sh_type shdr) in
       if t =? SHT_NOBITS then
         let* a := ldw (sh_addr shdr) in
         let* n := ldw (sh_size shdr) in
         bmemset a 0 n
       else
         let* o := ldw (sh_offset shdr) in
         let image := wrapu 32 (addr + o) in
         let* a := ldw (sh_addr shdr) in
         let* n := ldw (sh_size shdr) in
         bmemcpy a image n ;;; ret tt) ;;;
      load_loop fuel addr (i + 1)
  end.

Definition shnum_fuel : nat := Z.to_nat 65537.

Definition load_elf_image (addr : Z) : M bmem Z :=
  find_strtab 32 addr ;;;
  load_loop shnum_fuel addr 0 ;;;
  ldw (e_entry addr).

(** ** The packer *)

(** Its test of an image asks for the magic number only. *)
Definition packer_valid_elf_image (addr : Z) : M bmem Z :=
  let* ok := IS_ELF addr in if negb ok then ret 0 else ret 1.

Fixpoint copy_loop (fuel : nat) (addr i otmp : Z) : M bmem Z :=
  match fuel with
  | O => fault
  | S fuel =>
      let* n := ldh (e_shnum addr) in
      if negb (i <? n) then ret otmp else
      let* shdr := shdr_at 64 addr i in
      let* skip := skipped shdr in
      if skip then copy_loop fuel addr (i + 1) otmp else
      let* t := ldw (sh_type shdr) in
      (if t =? SHT_NOBITS then
         let* n := ldw (sh_size shdr) in
         memset otmp 0 n ;;; ret tt
       else
         let* o := ldw (sh_offset shdr) in
         let image := wrapu 64 (addr + o) in
         let* n := ldw (sh_size shdr) in
         memcpy otmp image n ;;; ret tt) ;;;
      let* n := ldw (sh_size shdr) in
      copy_loop fuel addr (i + 1) (otmp + n)
  end.

Definition copy_elf_sections (out addr : Z) : M bmem Z :=
  find_strtab 64 addr ;;;
  let* otmp := copy_loop shnum_fuel addr 0 out in
  ret (i32 (otmp - out)).

(** ** Images *)

(** The contents of a file: its fields at an offset. *)
Definition byte_of (F : list Z) (o : Z) : Z := default 0 (F !! Z.to_nat o).
Definition half_of (F : list Z) (o : Z) : Z := byte_of F o + 2 ^ 8 * byte_of F (o + 1).
Definition word_of (F : list Z) (o : Z) : Z :=
  byte_of F o + 2 ^ 8 * byte_of F (o + 1) + 2 ^ 16 * byte_of F (o + 2) + 2 ^ 24 * byte_of F (o + 3).

Record section := mk_section { s_type : Z; s_flags : Z; s_addr : Z; s_offset : Z; s_size : Z }.

Definition shoff (F : list Z) : Z := word_of F 32.
Definition shnum (F : list Z) : Z := half_of F 48.
Definition entry (F : list Z) : Z := word_of F 24.

Definition section_of (F : list Z) (i : Z) : section :=
  let o := shoff F + i * sizeof_Shdr in
  mk_section (word_of F (o + 4)) (word_of F (o + 8)) (word_of F (o + 12)) (word_of F (o + 16)) (word_of F (o + 20)).

(** Part of the memory of the program. *)
Definition loadable (s : section) : bool := nz (Z.land (s_flags s) SHF_ALLOC) && nz (s_addr s) && nz (s_size s).

Definition contents (F : list Z) (s : section) : list Z :=
  if s_type s =? SHT_NOBITS then replicate (Z.to_nat (s_size s)) 0
  else take (Z.to_nat (s_size s)) (drop (Z.to_nat (s_offset s)) F).

(** The loadable sections from number [i] on. *)
Definition sections_from (F : list Z) (i : Z) (n : nat) : list section :=
  filter (fun s => loadable s = true) ((fun k : nat => section_of F (i + Z.of_nat k)) <$> seq 0 n).

Definition sections (F : list Z) : list section := sections_from F 0 (Z.to_nat (shnum F)).

(** The headers and the contents of the sections lie in the file. *)
Record elf_ok (F : list Z) : Prop := {
  eo_byte : Forall byte F;
  eo_head : 52 <= Z.of_nat (length F);
  eo_shdrs : shoff F + shnum F * sizeof_Shdr <= Z.of_nat (length F);
  eo_strtab : half_of F 50 < shnum F;
  eo_data : forall i, 0 <= i < shnum F -> loadable (section_of F i) = true -> s_type (section_of F i) <> SHT_NOBITS ->
    s_offset (section_of F i) + s_size (section_of F i) <= Z.of_nat (length F)
}.

Lemma byte_of_byte F o : Forall byte F -> byte (byte_of F o).
Proof.
  intros H. unfold byte_of. destruct (F !! Z.to_nat o) as [b|] eqn:E; [by eapply Forall_lookup_1 in H|]. cbn. unfold byte. lia.
Qed.

Lemma half_of_range F o : Forall byte F -> 0 <= half_of F o < 2 ^ 16.
Proof. intros H. pose proof (byte_of_byte F o H). pose proof (byte_of_byte F (o + 1) H). unfold half_of, byte in *. lia. Qed.

Lemma word_of_range F o : Forall byte F -> 0 <= word_of F o < 2 ^ 32.
Proof.
  intros H. pose proof (byte_of_byte F o H). pose proof (byte_of_byte F (o + 1) H). pose proof (byte_of_byte F (o + 2) H).
  pose proof (byte_of_byte F (o + 3) H). unfold word_of, byte in *. lia.
Qed.

Section reads.
Context (m : bmem) (addr : Z) (F : list Z) (HF : arr m addr F).

Lemma wp_ldb_file o (Q : Z -> bmem -> Prop) : 0 <= o < Z.of_nat (length F) -> Q (byte_of F o) m -> wp (ldb (addr + o)) Q m.
Proof using HF.
  intros Ho HQ. destruct (lookup_lt_is_Some_2 F (Z.to_nat o)) as [b E]; [lia|]. unfold byte_of in HQ. rewrite E in HQ.
  replace (addr + o) with (addr + Z.of_nat (Z.to_nat o)) by lia. by eapply wp_ldb_at.
Qed.

Lemma wp_ldh_file o (Q : Z -> bmem -> Prop) : 0 <= o -> o + 2 <= Z.of_nat (length F) -> Q (half_of F o) m -> wp (ldh (addr + o)) Q m.
Proof using HF.
  intros H1 H2 HQ. unfold ldh. apply wp_bind, wp_ldb_file; [lia|]. rewrite <- Z.add_assoc. apply wp_bind, wp_ldb_file; [lia|]. by apply wp_ret.
Qed.

Lemma wp_ldw_file o (Q : Z -> bmem -> Prop) : 0 <= o -> o + 4 <= Z.of_nat (length F) -> Q (word_of F o) m -> wp (ldw (addr + o)) Q m.
Proof using HF.
  intros H1 H2 HQ. unfold ldw. rewrite <- !Z.add_assoc. do 4 (apply wp_bind, wp_ldb_file; [lia|]). by apply wp_ret.
Qed.

End reads.

(** ** Copying *)

Lemma count_step n : 0 <= n < 2 ^ 32 -> u32 (u32 (n + 1) - 1) = n.
Proof.
  intros Hn. unfold u32, wrapu. rewrite Zdiv.Zminus_mod_idemp_l. replace (n + 1 - 1) with n by lia. by apply Z.mod_small.
Qed.

Lemma bmemcpy_copy_up n : forall d s m Q, Z.of_nat n < 2 ^ 32 ->
  wp (copy_up n d s) Q m -> wp (bmemcpy_loop (S n) d s (u32 (Z.of_nat n + 1))) Q m.
Proof.
  induction n as [|n IH]; intros d s m Q Hn H; [by cbn in *|].
  cbn [bmemcpy_loop]. rewrite count_step by lia. destruct (Z.eqb_spec (Z.of_nat (S n)) 0); [lia|].
  cbn [copy_up] in H. unfold wp, bind in H |- *. destruct (ldb s m) as [[b m1]|]; [|done]. destruct (stb d b m1) as [[[] m2]|]; [|done].
  replace (Z.of_nat (S n)) with (u32 (Z.of_nat n + 1)) by (rewrite u32_small; lia). apply IH; [lia|exact H].
Qed.

Lemma bmemset_loop_eq n : forall d v m Q, Z.of_nat n < 2 ^ 32 ->
  wp (memset_loop n d v) Q m -> wp (bmemset_loop (S n) d v (u32 (Z.of_nat n + 1))) Q m.
Proof.
  induction n as [|n IH]; intros d v m Q Hn H; [by cbn in *|].
  cbn [bmemset_loop]. rewrite count_step by lia. destruct (Z.eqb_spec (Z.of_nat (S n)) 0); [lia|].
  cbn [memset_loop] in H. unfold wp, bind in H |- *. destruct (stb d v m) as [[[] m2]|]; [|done].
  replace (Z.of_nat (S n)) with (u32 (Z.of_nat n + 1)) by (rewrite u32_small; lia). apply IH; [lia|exact H].
Qed.

(** The bytes [l] are at [d] and nothing else changed. *)
Definition placed (m m' : bmem) (d : Z) (l : list Z) : Prop := arr m' d l /\ only m m' d (Z.of_nat (length l)).

Lemma wp_bmemcpy l m d s n (Q : Z -> bmem -> Prop) : Forall byte l -> arr m s l -> n = Z.of_nat (length l) -> n < 2 ^ 32 ->
  mapped m d n -> apart d n s n -> (forall m', placed m m' d l -> Q d m') -> wp (bmemcpy d s n) Q m.
Proof.
  intros Hl Ha -> Hn Hm Hd HQ. unfold bmemcpy. apply wp_bind. rewrite Nat2Z.id. apply bmemcpy_copy_up; [done|].
  unfold apart in Hd. apply wp_copy_up; [done..|lia|]. intros m' H1 H2. by apply wp_ret, HQ.
Qed.

Lemma wp_bmemset0 m d n (Q : unit -> bmem -> Prop) : 0 <= n < 2 ^ 32 -> mapped m d n ->
  (forall m', placed m m' d (replicate (Z.to_nat n) 0) -> Q tt m') -> wp (bmemset d 0 n) Q m.
Proof.
  intros Hn Hm HQ. unfold bmemset. replace (u32 (n + 1)) with (u32 (Z.of_nat (Z.to_nat n) + 1)) by (f_equal; lia).
  apply bmemset_loop_eq; [lia|]. apply wp_memset_loop; [by rewrite Z2Nat.id by lia|]. intros m' H1 H2. apply HQ.
  split; [exact H1|]. by rewrite length_replicate.
Qed.

Lemma wp_memset0 m d n (Q : unit -> bmem -> Prop) : 0 <= n -> mapped m d n ->
  (forall m', placed m m' d (replicate (Z.to_nat n) 0) -> Q tt m') -> wp (memset d 0 n ;;; ret tt) Q m.
Proof.
  intros Hn Hm HQ. unfold memset. apply wp_bind, wp_bind, wp_memset_loop; [by rewrite Z2Nat.id by lia|]. intros m' H1 H2.
  apply wp_ret, wp_ret, HQ. split; [exact H1|]. by rewrite length_replicate.
Qed.

(** ** Walking the headers *)

Section walk.
Context (w : Z) (addr : Z) (F : list Z) (Hok : elf_ok F) (Hw : 0 <= addr) (Htop : addr + Z.of_nat (length F) <= 2 ^ w).

Lemma shdr_offset i : 0 <= i < shnum F -> 0 <= shoff F + i * sizeof_Shdr /\ shoff F + i * sizeof_Shdr + 40 <= Z.of_nat (length F).
Proof using Hok Hw Htop.
  intros Hi. destruct Hok as [Hb _ Hs _ _]. pose proof (word_of_range F 32 Hb). unfold shoff, sizeof_Shdr in *. lia.
Qed.

Lemma wrap_in o : 0 <= o < Z.of_nat (length F) -> wrapu w (addr + o) = addr + o.
Proof using Hok Hw Htop. intros Ho. apply Z.mod_small. lia. Qed.

Lemma wp_shnum m (Q : Z -> bmem -> Prop) : arr m addr F -> Q (shnum F) m -> wp (ldh (e_shnum addr)) Q m.
Proof using Hok Hw Htop. intros HF HQ. destruct Hok. eapply wp_ldh_file; [exact HF|lia|lia|done]. Qed.

Lemma wp_shdr_at m i (Q : Z -> bmem -> Prop) : arr m addr F -> 0 <= i < shnum F ->
  Q (addr + (shoff F + i * sizeof_Shdr)) m -> wp (shdr_at w addr i) Q m.
Proof using Hok Hw Htop.
  intros HF Hi HQ. pose proof (shdr_offset i Hi). unfold shdr_at. apply wp_bind. destruct Hok.
  eapply wp_ldw_file; [exact HF|lia|lia|]. apply wp_ret. fold (shoff F). rewrite <- Z.add_assoc, wrap_in by lia. done.
Qed.

Lemma wp_skipped m i (Q : bool -> bmem -> Prop) : arr m addr F -> 0 <= i < shnum F ->
  Q (negb (loadable (section_of F i))) m -> wp (skipped (addr + (shoff F + i * sizeof_Shdr))) Q m.
Proof using Hok Hw Htop.
  intros HF Hi HQ. pose proof (shdr_offset i Hi). unfold skipped, sh_flags, sh_addr, sh_size. rewrite <- !(Z.add_assoc addr).
  unfold loadable in HQ. cbn [section_of s_flags s_addr s_size] in HQ.
  apply wp_bind. eapply wp_ldw_file; [exact HF|lia|lia|]. destruct (nz (Z.land _ SHF_ALLOC)); cbn [negb andb] in HQ |- *; [|by apply wp_ret].
  apply wp_bind. eapply wp_ldw_file; [exact HF|lia|lia|]. unfold nz in HQ.
  destruct (word_of F (shoff F + i * sizeof_Shdr + 12) =? 0); cbn [negb andb] in HQ |- *; [by apply wp_ret|].
  apply wp_bind. eapply wp_ldw_file; [exact HF|lia|lia|]. apply wp_ret. by rewrite negb_involutive in HQ.
Qed.

Lemma wp_find_strtab m (Q : Z -> bmem -> Prop) : arr m addr F -> (forall p, Q p m) -> wp (find_strtab w addr) Q m.
Proof using Hok Hw Htop.
  intros HF HQ. pose proof Hok as [Hb Hh _ Hs _]. pose proof (half_of_range F 50 Hb). pose proof (shdr_offset (half_of F 50) ltac:(lia)).
  unfold find_strtab. apply wp_bind. eapply wp_ldw_file; [exact HF|lia|lia|]. apply wp_bind. eapply wp_ldh_file; [exact HF|lia|lia|].
  fold (shoff F). cbv zeta. rewrite <- !Z.add_assoc, wrap_in by lia. unfold sh_type, sh_offset. rewrite <- !Z.add_assoc.
  apply wp_bind. eapply wp_ldw_file; [exact HF|lia|lia|]. destruct (_ =? SHT_STRTAB); [|by apply wp_ret].
  apply wp_bind. eapply wp_ldw_file; [exact HF|lia|lia|]. by apply wp_ret.
Qed.

(** A field of the header of section [i]. *)
Lemma wp_field m i k (Q : Z -> bmem -> Prop) : arr m addr F -> 0 <= i < shnum F -> 0 <= k <= 36 ->
  Q (word_of F (shoff F + i * sizeof_Shdr + k)) m -> wp (ldw (addr + (shoff F + i * sizeof_Shdr) + k)) Q m.
Proof using Hok Hw Htop.
  intros HF Hi Hk HQ. pose proof (shdr_offset i Hi). rewrite <- Z.add_assoc. eapply wp_ldw_file; [exact HF|lia|lia|done].
Qed.

(** The bytes of a section that is in the file. *)
Lemma section_bytes m i : arr m addr F -> 0 <= i < shnum F -> loadable (section_of F i) = true ->
  s_type (section_of F i) <> SHT_NOBITS ->
  let s := section_of F i in
  Forall byte (contents F s) /\ arr m (wrapu w (addr + s_offset s)) (contents F s) /\
  wrapu w (addr + s_offset s) = addr + s_offset s.
Proof using Hok Hw Htop.
  intros HF Hi Hl Ht s. destruct Hok as [Hb _ _ _ Hd]. specialize (Hd i Hi Hl Ht). fold s in Hd.
  assert (0 <= s_offset s) as Ho by (apply word_of_range, Hb). assert (0 <= s_size s) as Hz by (apply word_of_range, Hb).
  assert (s_size s <> 0) as Hz0.
  { unfold loadable in Hl. fold s in Hl. intros E. rewrite E, andb_false_r in Hl. done. }
  rewrite wrap_in by lia. unfold contents. destruct (Z.eqb_spec (s_type s) SHT_NOBITS) as [|_]; [done|]. split_and!; [|..|done].
  - by apply Forall_take, Forall_drop.
  - assert (arr m addr (take (Z.to_nat (s_offset s)) F ++ drop (Z.to_nat (s_offset s)) F)) as H by (by rewrite take_drop).
    apply arr_app in H as [_ H]. rewrite length_take_le, Z2Nat.id in H by lia.
    rewrite <- (take_drop (Z.to_nat (s_size s)) (drop _ F)) in H. by apply arr_app in H as [H _].
Qed.

Lemma length_contents i : 0 <= i < shnum F -> loadable (section_of F i) = true ->
  Z.of_nat (length (contents F (section_of F i))) = s_size (section_of F i).
Proof using Hok Hw Htop.
  intros Hi Hl. destruct Hok as [Hb _ _ _ Hd]. assert (0 <= s_size (section_of F i)) by (apply word_of_range, Hb).
  unfold contents. destruct (Z.eqb_spec (s_type (section_of F i)) SHT_NOBITS) as [|Ht]; [rewrite length_replicate; lia|].
  specialize (Hd i Hi Hl Ht). assert (0 <= s_offset (section_of F i)) by (apply word_of_range, Hb).
  rewrite length_take, length_drop. lia.
Qed.

End walk.

(** ** Loading *)

Definition in_section (s : section) (x : Z) : Prop := s_addr s <= x < s_addr s + s_size s.
Definition apart_sections (s t : section) : Prop := apart (s_addr s) (s_size s) (s_addr t) (s_size t).

(** [m'] is [m] but for addresses of the sections [l]. *)
Definition only_in (l : list section) (m m' : bmem) : Prop :=
  (forall x, is_Some (m' !! x) <-> is_Some (m !! x)) /\
  forall x, (forall s, s ∈ l -> ~ in_section s x) -> m' !! x = m !! x.

(** The sections are in memory that is there, apart from the image and from
    each other. *)
Definition loads_ok (m : bmem) (addr : Z) (F : list Z) (l : list section) : Prop :=
  Forall (fun s => mapped m (s_addr s) (s_size s) /\ apart (s_addr s) (s_size s) addr (Z.of_nat (length F))) l /\
  List.ForallOrdPairs apart_sections l.

Lemma sections_from_S F i n : sections_from F i (S n) =
  if loadable (section_of F i) then section_of F i :: sections_from F (i + 1) n else sections_from F (i + 1) n.
Proof.
  unfold sections_from. cbn [seq]. rewrite fmap_cons, filter_cons, Z.add_0_r, <- fmap_S_seq, <- list_fmap_compose.
  rewrite (list_fmap_ext _ (fun k : nat => section_of F (i + 1 + Z.of_nat k))); [|intros k x _; cbn -[Z.of_nat]; f_equal; lia].
  by destruct (loadable (section_of F i)).
Qed.

Lemma only_in_refl l m : only_in l m m.
Proof. done. Qed.

Lemma only_in_cons s l m m1 m' : only m m1 (s_addr s) (s_size s) -> only_in l m1 m' -> only_in (s :: l) m m'.
Proof.
  intros [H1 H2] [H3 H4]. split; [intros x; by rewrite H3, H1|]. intros x Hx. rewrite H4, H2; [done| |].
  - specialize (Hx s ltac:(left)). unfold in_section in Hx. lia.
  - intros t Ht. apply Hx. by right.
Qed.

Lemma arr_only_in l m m' a b : only_in l m m' -> Forall (fun s => apart (s_addr s) (s_size s) a (Z.of_nat (length b))) l ->
  arr m a b -> arr m' a b.
Proof.
  intros [_ Ho] Hap H i c E. rewrite Ho; [by apply H|]. intros s Hs. rewrite Forall_forall in Hap. specialize (Hap s Hs).
  apply lookup_lt_Some in E. unfold in_section, apart in *. lia.
Qed.

Lemma loads_ok_step m m1 addr F s l : loads_ok m addr F (s :: l) -> only m m1 (s_addr s) (s_size s) ->
  loads_ok m1 addr F l /\ Forall (fun t => apart_sections s t) l /\ apart (s_addr s) (s_size s) addr (Z.of_nat (length F)) /\
  mapped m (s_addr s) (s_size s).
Proof.
  intros [Hf Hp] Ho. apply Forall_cons in Hf as [[Hm Ha] Hf]. inversion Hp; subst. split_and!; [|done|done|done].
  split; [|done]. eapply Forall_impl; [exact Hf|]. intros t [Hmt Hat]. split; [by eapply only_mapped|done].
Qed.

Section load.
Context (addr : Z) (F : list Z) (Hok : elf_ok F) (Hw : 0 <= addr) (Htop : addr + Z.of_nat (length F) <= 2 ^ 32).

(** The body of the loop on one section. *)
Lemma wp_load_section m i (Q : unit -> bmem -> Prop) : arr m addr F -> 0 <= i < shnum F ->
  let s := section_of F i in loadable s = true -> mapped m (s_addr s) (s_size s) ->
  apart (s_addr s) (s_size s) addr (Z.of_nat (length F)) ->
  (forall m', placed m m' (s_addr s) (contents F s) -> Q tt m') ->
  let shdr := addr + (shoff F + i * sizeof_Shdr) in
  wp (let* t := ldw (sh_type shdr) in
      if t =? SHT_NOBITS then
        let* a := ldw (sh_addr shdr) in
        let* n := ldw (sh_size shdr) in
        bmemset a 0 n
      else
        let* o := ldw (sh_offset shdr) in
        let image := wrapu 32 (addr + o) in
        let* a := ldw (sh_addr shdr) in
        let* n := ldw (sh_size shdr) in
        bmemcpy a image n ;;; ret tt) Q m.
Proof using Hok Hw Htop.
  intros HF Hi s Hl Hm Ha HQ shdr. unfold sh_type, sh_addr, sh_size, sh_offset, shdr.
  pose proof (length_contents 32 addr F Hok Hw Htop i Hi Hl) as Hlen. fold s in Hlen.
  assert (0 <= s_size s < 2 ^ 32) as Hz by (apply word_of_range, Hok).
  apply wp_bind. eapply (wp_field 32); [done..|lia|]. change (word_of F (_ + 4)) with (s_type s).
  destruct (Z.eqb_spec (s_type s) SHT_NOBITS) as [Et|Et].
  - apply wp_bind. eapply (wp_field 32); [done..|lia|]. apply wp_bind. eapply (wp_field 32); [done..|lia|].
    change (word_of F (_ + 12)) with (s_addr s). change (word_of F (_ + 20)) with (s_size s).
    apply wp_bmemset0; [done|done|]. intros m' Hp. apply HQ. unfold contents. by rewrite Et.
  - destruct (section_bytes 32 addr F Hok Hw Htop m i HF Hi Hl Et) as (Hb & Harr & Ew). fold s in Hb, Harr, Ew.
    apply wp_bind. eapply (wp_field 32); [done..|lia|]. apply wp_bind. eapply (wp_field 32); [done..|lia|].
    apply wp_bind. eapply (wp_field 32); [done..|lia|]. change (word_of F (_ + 12)) with (s_addr s).
    change (word_of F (_ + 16)) with (s_offset s). change (word_of F (_ + 20)) with (s_size s).
    apply wp_bind. apply (wp_bmemcpy (contents F s)); [done|done|by rewrite Hlen|lia|done| |].
    + rewrite Ew. pose proof (eo_data F Hok i Hi Hl Et) as Hin. fold s in Hin. assert (0 <= s_offset s) by (apply word_of_range, Hok).
      unfold apart in *. lia.
    + intros m' Hp. by apply wp_ret, HQ.
Qed.

Lemma load_loop_spec n : forall fuel i m, (n < fuel)%nat -> 0 <= i -> i + Z.of_nat n = shnum F -> arr m addr F ->
  loads_ok m addr F (sections_from F i n) ->
  wp (load_loop fuel addr i) (fun _ m' => arr m' addr F /\
    Forall (fun s => arr m' (s_addr s) (contents F s)) (sections_from F i n) /\ only_in (sections_from F i n) m m') m.
Proof using Hok Hw Htop.
  induction n as [|n IH]; intros [|fuel] i m Hf Hi Hn HF Hlo; [lia| |lia|]; cbn [load_loop];
    apply wp_bind; apply (wp_shnum 32 addr F Hok Hw Htop); [done| |done|].
  { destruct (Z.ltb_spec i (shnum F)); [lia|]. cbn [negb]. apply wp_ret. split_and!; [done|by constructor|done]. }
  destruct (Z.ltb_spec i (shnum F)); [|lia]. cbn [negb]. apply wp_bind, (wp_shdr_at 32 addr F); [done..|].
  apply wp_bind, (wp_skipped 32 addr F); [done..|]. rewrite sections_from_S in *.
  destruct (loadable (section_of F i)) eqn:El; cbn [negb].
  - pose proof Hlo as [[[Hm Ha] _]%Forall_cons _].
    apply wp_bind, wp_load_section; [done..|]. intros m1 [Hp Ho].
    rewrite (length_contents 32 addr F Hok Hw Htop i ltac:(lia) El) in Ho.
    destruct (loads_ok_step _ _ _ _ _ _ Hlo Ho) as (Hlo1 & Hap & _).
    eapply wp_mono; [apply (IH fuel (i + 1) m1); [lia|lia|lia| |done]|].
    { eapply arr_only; [exact Ho|exact Ha|done]. }
    intros [] m' (H1 & H2 & H3). split_and!; [done| |by eapply only_in_cons]. constructor; [|done].
    eapply arr_only_in; [exact H3| |exact Hp]. eapply Forall_impl; [exact Hap|]. intros t Ht.
    rewrite (length_contents 32 addr F Hok Hw Htop i ltac:(lia) El). unfold apart_sections, apart in *. lia.
  - apply wp_bind, wp_ret. by apply IH; [lia|lia|lia|..].
Qed.

Lemma wp_load_elf_image m : arr m addr F -> loads_ok m addr F (sections F) ->
  wp (load_elf_image addr) (fun r m' => r = entry F /\ arr m' addr F /\
    Forall (fun s => arr m' (s_addr s) (contents F s)) (sections F) /\ only_in (sections F) m m') m.
Proof using Hok Hw Htop.
  intros HF Hlo. unfold load_elf_image. apply wp_bind, (wp_find_strtab 32 addr F Hok Hw Htop); [done|]. intros _.
  pose proof (half_of_range F 48 (eo_byte F Hok)) as Hn. fold (shnum F) in Hn.
  apply wp_bind. eapply wp_mono; [apply (load_loop_spec (Z.to_nat (shnum F))); [unfold shnum_fuel; lia|lia|lia|done|done]|].
  intros [] m' (H1 & H2 & H3). eapply wp_ldw_file; [exact H1|lia|destruct Hok; lia|]. done.
Qed.

End load.

(** ** Packing *)

(** The sections one after the other. *)
Definition flat (F : list Z) (l : list section) : list Z := l ≫= contents F.

Lemma only_app m m1 m' d n k : 0 <= n -> 0 <= k -> only m m1 d n -> only m1 m' (d + n) k -> only m m' d (n + k).
Proof.
  intros Hn Hk H1 H2. eapply only_trans; [eapply only_weaken; [exact H1|lia|lia]|]. eapply only_weaken; [exact H2|lia|lia].
Qed.

Section pack.
Context (addr : Z) (F : list Z) (Hok : elf_ok F) (Hw : 0 <= addr) (Htop : addr + Z.of_nat (length F) <= 2 ^ 64).

Lemma wp_copy_section m i d (Q : unit -> bmem -> Prop) : arr m addr F -> 0 <= i < shnum F ->
  let s := section_of F i in loadable s = true -> mapped m d (s_size s) -> apart d (s_size s) addr (Z.of_nat (length F)) ->
  (forall m', placed m m' d (contents F s) -> Q tt m') ->
  let shdr := addr + (shoff F + i * sizeof_Shdr) in
  wp (let* t := ldw (sh_type shdr) in
      if t =? SHT_NOBITS then
        let* n := ldw (sh_size shdr) in
        memset d 0 n ;;; ret tt
      else
        let* o := ldw (sh_offset shdr) in
        let image := wrapu 64 (addr + o) in
        let* n := ldw (sh_size shdr) in
        memcpy d image n ;;; ret tt) Q m.
Proof using Hok Hw Htop.
  intros HF Hi s Hl Hm Ha HQ shdr. unfold sh_type, sh_size, sh_offset, shdr.
  pose proof (length_contents 64 addr F Hok Hw Htop i Hi Hl) as Hlen. fold s in Hlen.
  assert (0 <= s_size s < 2 ^ 32) as Hz by (apply word_of_range, Hok).
  apply wp_bind. eapply (wp_field 64); [done..|lia|]. change (word_of F (_ + 4)) with (s_type s).
  destruct (Z.eqb_spec (s_type s) SHT_NOBITS) as [Et|Et].
  - apply wp_bind. eapply (wp_field 64); [done..|lia|]. change (word_of F (_ + 20)) with (s_size s).
    apply wp_memset0; [lia|done|]. intros m' Hp. apply HQ. unfold contents. by rewrite Et.
  - destruct (section_bytes 64 addr F Hok Hw Htop m i HF Hi Hl Et) as (Hb & Harr & Ew). fold s in Hb, Harr, Ew.
    apply wp_bind. eapply (wp_field 64); [done..|lia|]. apply wp_bind. eapply (wp_field 64); [done..|lia|].
    change (word_of F (_ + 16)) with (s_offset s). change (word_of F (_ + 20)) with (s_size s).
    apply wp_bind. apply (wp_memcpy (contents F s)); [done|done|by rewrite Hlen|done| |].
    + rewrite Ew. pose proof (eo_data F Hok i Hi Hl Et) as Hin. fold s in Hin. assert (0 <= s_offset s) by (apply word_of_range, Hok).
      unfold apart in *. lia.
    + intros m' H1 H2. apply wp_ret, HQ. split; [done|]. by rewrite Hlen.
Qed.

Lemma copy_loop_spec n : forall fuel i d m, (n < fuel)%nat -> 0 <= i -> i + Z.of_nat n = shnum F -> arr m addr F ->
  let l := flat F (sections_from F i n) in
  mapped m d (Z.of_nat (length l)) -> apart d (Z.of_nat (length l)) addr (Z.of_nat (length F)) ->
  wp (copy_loop fuel addr i d) (fun r m' => r = d + Z.of_nat (length l) /\ arr m' addr F /\ placed m m' d l) m.
Proof using Hok Hw Htop.
  induction n as [|n IH]; intros [|fuel] i d m Hf Hi Hn HF l Hm Ha; [lia| |lia|]; cbn [copy_loop];
    apply wp_bind; apply (wp_shnum 64 addr F Hok Hw Htop); [done| |done|].
  { destruct (Z.ltb_spec i (shnum F)); [lia|]. cbn [negb]. apply wp_ret. subst l. cbn. split_and!; [lia|done|split; [apply arr_nil|done]]. }
  destruct (Z.ltb_spec i (shnum F)); [|lia]. cbn [negb]. apply wp_bind, (wp_shdr_at 64 addr F); [done..|].
  apply wp_bind, (wp_skipped 64 addr F); [done..|]. subst l. rewrite sections_from_S in *.
  destruct (loadable (section_of F i)) eqn:El; cbn [negb].
  2: { by apply IH; [lia|lia|lia|..]. }
  set (s := section_of F i) in *. pose proof (length_contents 64 addr F Hok Hw Htop i ltac:(lia) El) as Hlen. fold s in Hlen.
  unfold flat in *. cbn [mbind list_bind] in *. set (l := sections_from F (i + 1) n ≫= contents F) in *.
  assert (0 <= s_size s) by lia. rewrite length_app, Nat2Z.inj_add, Hlen in *.
  apply wp_nest. apply wp_copy_section; [done|lia|done| | |].
  - intros x Hx. apply Hm. fold s in Hx. lia.
  - fold s. unfold apart in *. lia.
  - intros m1 Hp. fold s in Hp. destruct Hp as [Hp Ho]. rewrite Hlen in Ho.
    assert (arr m1 addr F) as HF1 by (eapply arr_only; [exact Ho|unfold apart in *; lia|done]).
    apply wp_bind. eapply (wp_field 64); [done|done|done|done|lia|lia|]. change (word_of F (_ + 20)) with (s_size s).
    eapply wp_mono; [apply (IH fuel (i + 1) (d + s_size s) m1); [lia|lia|lia|done| |]|].
    + eapply only_mapped; [exact Ho|]. intros x Hx. apply Hm. fold l in Hx. lia.
    + fold l. unfold apart in *. lia.
    + fold l. intros r m' (-> & H1 & [H2 H3]). split_and!; [lia|done|]. split.
      * apply arr_app. rewrite Hlen. split; [|done]. eapply arr_only; [exact H3| |exact Hp]. unfold apart. lia.
      * rewrite length_app, Nat2Z.inj_add, Hlen. eapply only_app; [lia|lia|exact Ho|exact H3].
Qed.

Lemma wp_copy_elf_sections m out : arr m addr F -> let l := flat F (sections F) in
  mapped m out (Z.of_nat (length l)) -> apart out (Z.of_nat (length l)) addr (Z.of_nat (length F)) -> Z.of_nat (length l) < 2 ^ 31 ->
  wp (copy_elf_sections out addr) (fun r m' => r = Z.of_nat (length l) /\ arr m' addr F /\ placed m m' out l) m.
Proof using Hok Hw Htop.
  intros HF l Hm Ha Hl. unfold copy_elf_sections. apply wp_bind, (wp_find_strtab 64 addr F Hok Hw Htop); [done|]. intros _.
  pose proof (half_of_range F 48 (eo_byte F Hok)) as Hn. fold (shnum F) in Hn.
  apply wp_bind. eapply wp_mono; [apply (copy_loop_spec (Z.to_nat (shnum F))); [unfold shnum_fuel; lia|lia|lia|done|done|done]|].
  fold (sections F). fold l. intros r m' (-> & H1 & H2). apply wp_ret. split_and!; [|done|done].
  replace (out + Z.of_nat (length l) - out) with (Z.of_nat (length l)) by lia. unfold i32, wraps. rewrite Z.mod_small; lia.
Qed.

End pack.
