(* ===== verification/Flash.v ===== *)
(** * The flash driver

    drivers/flash/isflash.c: programming of a flash memory of the Intel Strata
    family with commands on the bus. The chip is not part of the sources: it is
    a type with the two accesses of the bus ([FlashChip]), and what the driver
    relies on is the class [FlashChipOk], the documented behaviour of the chip at
    the addresses where it is ([window]; nothing is said of other addresses): in
    array mode a read gives the contents; a program command makes the chip busy for
    some reads, fewer than the limit of the driver, whose status has bit 7 clear,
    and then clears the bits of the word that are zero in the data; the command
    0xFFFF brings the chip back to array mode. On the board the chip is at
    0x20000000; the driver adds twice this number to the address that it gets,
    since the pointer is one to words of two bytes. *)

From Stdlib Require Import ZArith Lia.
From stdpp Require Import base tactics gmap option list.
From S2P Require Import Prelude Bits.

Open Scope Z_scope.

Class FlashChip (D : Type) := {
  fl_read : Z -> D -> Z * D;
  fl_write : Z -> Z -> D -> D
}.

Definition FLASH_START_ADDRESS : Z := 0x20000000.
Definition FLASH_PROGRAM_TIMEOUT : Z := 0x0ffffff.
Definition FLASH_ERASE_TIMEOUT : Z := 0x0ffffff.

Definition E_FLOK : Z := 0.
Definition E_FLTMO : Z := -1.
Definition E_FLBAD : Z := -2.

Section driver.
Context {D : Type} {FC : FlashChip D}.

(** [do { status = *waddr; ++tmo; } while ((status & 0x0080) == 0 && tmo < T)]:
    the loop ends when [tmo] is [T], so [T] rounds are enough. *)
Fixpoint poll (fuel : nat) (a tmo : Z) (d : D) : option (Z * D) :=
  match fuel with
  | O => None
  | S fuel =>
      let '(status, d) := fl_read a d in
      let tmo := u32 (tmo + 1) in
      if (Z.land status 0x0080 =? 0) && (tmo <? FLASH_PROGRAM_TIMEOUT) then poll fuel a tmo d else Some (tmo, d)
  end.

Definition poll_fuel : nat := Z.to_nat FLASH_PROGRAM_TIMEOUT.

(** [waddr] is a pointer to 16-bit words: [waddr += n] adds [2n] bytes. *)
Definition word_ptr (p n : Z) : Z := u32 (p + 2 * n).

(** [status] is an [unsigned short], and so is what is returned. *)
Definition flash_write_word (waddr data : Z) (d : D) : option (Z * D) :=
  let waddr := word_ptr waddr FLASH_START_ADDRESS in
  let d := fl_write waddr 0x0040 d in
  let d := fl_write waddr data d in
  match poll poll_fuel waddr 0 d with
  | None => None
  | Some (tmo, d) =>
      let status := u16 E_FLOK in
      let status := if tmo >=? FLASH_PROGRAM_TIMEOUT then u16 E_FLTMO else status in
      let d := fl_write waddr 0xffff d in
      if negb (status =? 0xff00) then
        let '(w, d) := fl_read waddr d in
        if negb (w =? data) then Some (u16 E_FLBAD, d) else Some (status, d)
      else Some (status, d)
  end.

Definition flash_read_word (raddr : Z) (d : D) : Z * D :=
  fl_read (word_ptr raddr FLASH_START_ADDRESS) d.

(** Write 0xff and count until the word reads 0xffff or the count is the limit. *)
Fixpoint erase_poll (fuel : nat) (a tmo : Z) (d : D) : option (Z * D) :=
  match fuel with
  | O => None
  | S fuel =>
      let d := fl_write a 0xff d in
      let tmo := u32 (tmo + 1) in
      let '(w, d) := fl_read a d in
      if negb (w =? 0xffff) && (tmo <? FLASH_PROGRAM_TIMEOUT) then erase_poll fuel a tmo d else Some (tmo, d)
  end.

Definition flash_erase_sector (eaddr : Z) (d : D) : option (Z * D) :=
  let eaddr := word_ptr eaddr FLASH_START_ADDRESS in
  let d := fl_write eaddr 0x0020 d in
  match poll poll_fuel eaddr 0 d with
  | None => None
  | Some (tmo, d) =>
      let status := if tmo >=? FLASH_ERASE_TIMEOUT then u16 E_FLTMO else u16 E_FLOK in
      match erase_poll poll_fuel eaddr 0 d with
      | None => None
      | Some (tmo, d) => Some (if tmo >=? FLASH_ERASE_TIMEOUT then u16 E_FLTMO else status, d)
      end
  end.

(** The words of the buffer, from [p_src] on. *)
Fixpoint write_words (src : list Z) (p_dst : Z) (d : D) : option (Z * D) :=
  match src with
  | [] => Some (E_FLOK, d)
  | w :: src =>
      match flash_write_word p_dst w d with
      | None => None
      | Some (status, d) =>
          if negb (status =? E_FLOK) then Some (status, d) else
          let '(r, d) := flash_read_word p_dst d in
          if negb (r =? w) then Some (E_FLBAD, d) else
          write_words src (word_ptr p_dst 1) d
      end
  end.

(** [src] has the 16-bit words of the buffer; the loop takes [size >> 1] of them. *)
Definition flash_write_buffer (dst : Z) (src : list Z) (size offset : Z) (d : D) : option (Z * D) :=
  let p_dst := word_ptr dst offset in
  let sz := Z.shiftr size 1 in
  if sz >? Z.of_nat (length src) then None else write_words (take (Z.to_nat sz) src) p_dst d.

(** ** The chip *)

Fixpoint reads (a : Z) (n : nat) (d : D) : D :=
  match n with O => d | S n => reads a n (fl_read a d).2 end.

Class FlashChipOk := {
  window : Z -> Prop;
  array_mode : D -> Prop;
  content : D -> Z -> Z;
  content_word : forall d a, array_mode d -> window a -> 0 <= content d a < 2 ^ 16;
  read_array : forall d a, array_mode d -> window a -> fl_read a d = (content d a, d);
  program_word : forall d a w, array_mode d -> window a -> 0 <= w < 2 ^ 16 ->
    let d1 := fl_write a w (fl_write a 0x40 d) in
    exists n, Z.of_nat n + 1 < FLASH_PROGRAM_TIMEOUT /\
      (forall j, (j < n)%nat -> Z.land (fl_read a (reads a j d1)).1 0x80 = 0) /\
      Z.land (fl_read a (reads a n d1)).1 0x80 <> 0 /\
      let d2 := fl_write a 0xffff (reads a (S n) d1) in
      array_mode d2 /\ forall x, window x -> content d2 x = if x =? a then Z.land (content d a) w else content d x
}.

Lemma reads_S a n d : reads a (S n) d = (fl_read a (reads a n d)).2.
Proof. revert d. induction n as [|n IH]; intros d; [done|]. cbn [reads] in *. by rewrite IH. Qed.

(** The loop ends with the first read that finds the chip ready. *)
Lemma poll_ready n : forall fuel a tmo d, (n < fuel)%nat -> 0 <= tmo -> tmo + Z.of_nat n + 1 < FLASH_PROGRAM_TIMEOUT ->
  (forall j, (j < n)%nat -> Z.land (fl_read a (reads a j d)).1 0x80 = 0) -> Z.land (fl_read a (reads a n d)).1 0x80 <> 0 ->
  poll fuel a tmo d = Some (tmo + Z.of_nat n + 1, reads a (S n) d).
Proof.
  assert (FLASH_PROGRAM_TIMEOUT < 2 ^ 32) as HT by done.
  induction n as [|n IH]; intros [|fuel] a tmo d Hf Ht Hn Hb Hr; [lia| |lia|]; cbn [poll];
    (rewrite u32_small by lia); destruct (fl_read a d) as [st d1] eqn:E.
  - cbn [reads] in *. rewrite E in Hr. cbn in Hr. destruct (Z.eqb_spec (Z.land st 0x80) 0); [done|]. cbn [andb reads].
    rewrite E. do 2 f_equal. lia.
  - pose proof (Hb 0%nat ltac:(lia)) as H0. cbn [reads] in H0. rewrite E in H0. cbn in H0. rewrite H0. cbn [Z.eqb andb].
    destruct (Z.ltb_spec (tmo + 1) FLASH_PROGRAM_TIMEOUT); [|lia].
    change (reads a (S (S n)) d) with (reads a (S n) (fl_read a d).2). rewrite E. cbn [snd].
    rewrite (IH fuel a (tmo + 1) d1); [do 2 f_equal; lia|lia|lia|lia| |].
    + intros j Hj. specialize (Hb (S j) ltac:(lia)). cbn [reads] in Hb. by rewrite E in Hb.
    + cbn [reads] in Hr. by rewrite E in Hr.
Qed.

Context {FCO : FlashChipOk}.

(** A word is programmed, or the bits that cannot be set are reported. *)
Lemma flash_write_word_spec p w d : array_mode d -> 0 <= w < 2 ^ 16 ->
  let a := word_ptr p FLASH_START_ADDRESS in window a ->
  exists d', flash_write_word p w d = Some (if Z.land (content d a) w =? w then 0 else 0xFFFE, d') /\
    array_mode d' /\ forall x, window x -> content d' x = if x =? a then Z.land (content d a) w else content d x.
Proof.
  intros Hd Hw a Hwin. unfold flash_write_word. fold a. destruct (program_word d a w Hd Hwin Hw) as (n & Hn & Hb & Hr & Ha & Hc).
  rewrite (poll_ready n) by (done || unfold poll_fuel; lia). set (d2 := fl_write a 0xffff _) in *.
  destruct (Z.geb_spec (0 + Z.of_nat n + 1) FLASH_PROGRAM_TIMEOUT); [lia|]. change (u16 E_FLOK) with 0. cbn [Z.eqb negb].
  rewrite (read_array d2 a Ha Hwin), Hc, Z.eqb_refl by done. change (u16 E_FLBAD) with 0xFFFE.
  exists d2. destruct (Z.land (content d a) w =? w); (split; [done|by split]).
Qed.

Lemma flash_read_word_spec p d : array_mode d -> window (word_ptr p FLASH_START_ADDRESS) ->
  flash_read_word p d = (content d (word_ptr p FLASH_START_ADDRESS), d).
Proof. intros Hd Hw. unfold flash_read_word. by apply read_array. Qed.

(** Where the driver puts word [i] of a buffer for [p]. *)
Definition word_at (p : Z) (i : nat) : Z := u32 (p + 2 * FLASH_START_ADDRESS + 2 * Z.of_nat i).

Lemma word_at_0 p : word_ptr p FLASH_START_ADDRESS = word_at p 0.
Proof. unfold word_ptr, word_at. f_equal. lia. Qed.

Lemma word_at_S p i : word_at (word_ptr p 1) i = word_at p (S i).
Proof. unfold word_ptr, word_at, u32, wrapu. rewrite <- !Z.add_assoc, Z.add_mod_idemp_l by lia. f_equal. lia. Qed.

Lemma word_at_inj p i j : 2 * Z.of_nat i < 2 ^ 32 -> 2 * Z.of_nat j < 2 ^ 32 -> word_at p i = word_at p j -> i = j.
Proof.
  intros Hi Hj E. unfold word_at, u32, wrapu in E. set (b := p + 2 * FLASH_START_ADDRESS) in *.
  pose proof (Z.div_mod (b + 2 * Z.of_nat i) (2 ^ 32) ltac:(lia)). pose proof (Z.div_mod (b + 2 * Z.of_nat j) (2 ^ 32) ltac:(lia)). lia.
Qed.

(** The driver accesses nothing but the chip. *)
Definition in_window (p : Z) (n : nat) : Prop := forall i, (i < n)%nat -> window (word_at p i).

Definition programmable (d : D) (p : Z) (src : list Z) : Prop :=
  forall i w, src !! i = Some w -> Z.land (content d (word_at p i)) w = w.

(** [d'] is [d] with the words of [src] at [p]. *)
Definition programmed (d d' : D) (p : Z) (src : list Z) : Prop :=
  (forall i w, src !! i = Some w -> content d' (word_at p i) = w) /\
  (forall x, window x -> (forall i, (i < length src)%nat -> x <> word_at p i) -> content d' x = content d x).

Lemma write_words_spec src : forall p d, array_mode d -> Forall (fun w => 0 <= w < 2 ^ 16) src ->
  2 * Z.of_nat (length src) < 2 ^ 32 -> in_window p (length src) ->
  exists r d', write_words src p d = Some (r, d') /\ array_mode d' /\
    ((r = 0 /\ programmable d p src /\ programmed d d' p src) \/ (r = 0xFFFE /\ ~ programmable d p src)).
Proof.
  induction src as [|w src IH]; intros p d Hd Hs Hlen Hwin; cbn [write_words].
  { exists 0, d. split_and!; [done|done|]. left. split_and!; [done|done|]. by split. }
  apply Forall_cons in Hs as [Hw Hs]. cbn [length] in Hlen, Hwin. pose proof (Hwin 0%nat ltac:(lia)) as Hw0. rewrite <- word_at_0 in Hw0.
  destruct (flash_write_word_spec p w d Hd Hw Hw0) as (d1 & -> & Hd1 & Hc1). rewrite word_at_0 in *.
  destruct (Z.eqb_spec (Z.land (content d (word_at p 0)) w) w) as [Ew|Ew].
  2: { exists 0xFFFE, d1. split_and!; [done|done|]. right. split; [done|]. intros H. by apply Ew, (H 0%nat). }
  change (negb (0 =? E_FLOK)) with false. cbv iota.
  rewrite (flash_read_word_spec p d1 Hd1), word_at_0, Hc1, Z.eqb_refl, Ew, Z.eqb_refl by (done || by rewrite word_at_0). cbn [negb].
  destruct (IH (word_ptr p 1) d1 Hd1 Hs ltac:(lia)) as (r & d2 & E & Hd2 & Hcase).
  { intros i Hi. rewrite word_at_S. apply Hwin. lia. }
  rewrite E. exists r, d2. split_and!; [done|done|].
  assert (forall i, (i < length src)%nat -> content d1 (word_at p (S i)) = content d (word_at p (S i))) as Eo.
  { intros i Hi. rewrite Hc1 by (apply Hwin; lia). destruct (Z.eqb_spec (word_at p (S i)) (word_at p 0)) as [H|]; [|done].
    apply word_at_inj in H; lia. }
  destruct Hcase as [(-> & Hpr & Hc & Ho)|(-> & Hnp)].
  - left. split_and!; [done| |split].
    + intros [|i] x Hx; [by simplify_eq/=|]. rewrite <- Eo, <- word_at_S by (by eapply lookup_lt_Some). by apply Hpr.
    + intros [|i] x Hx; [|rewrite <- word_at_S; by apply Hc]. simplify_eq/=. rewrite Ho, Hc1, Z.eqb_refl; [done..|].
      intros i Hi. rewrite word_at_S. intros H%word_at_inj; lia.
    + intros x Hwx Hx. rewrite Ho, Hc1; [|done..|].
      * destruct (Z.eqb_spec x (word_at p 0)) as [->|]; [|done]. exfalso. apply (Hx 0%nat); [cbn; lia|done].
      * intros i Hi. rewrite word_at_S. apply Hx. cbn. lia.
  - right. split; [done|]. intros H. apply Hnp. intros i x Hx. rewrite word_at_S, Eo by (by eapply lookup_lt_Some). by apply (H (S i)).
Qed.

Lemma flash_write_buffer_spec dst src size offset d : array_mode d -> Forall (fun w => 0 <= w < 2 ^ 16) src ->
  0 <= size < 2 ^ 31 -> Z.shiftr size 1 <= Z.of_nat (length src) ->
  let words := take (Z.to_nat (Z.shiftr size 1)) src in
  in_window (dst + 2 * offset) (length words) ->
  exists r d', flash_write_buffer dst src size offset d = Some (r, d') /\ array_mode d' /\
    ((r = 0 /\ programmable d (dst + 2 * offset) words /\ programmed d d' (dst + 2 * offset) words) \/
     (r = 0xFFFE /\ ~ programmable d (dst + 2 * offset) words)).
Proof.
  intros Hd Hs H3 H4 words Hwin. unfold flash_write_buffer.
  destruct (Z.gtb_spec (Z.shiftr size 1) (Z.of_nat (length src))); [lia|]. fold words.
  assert (forall i, word_at (word_ptr dst offset) i = word_at (dst + 2 * offset) i) as Ew.
  { intros i. unfold word_at, word_ptr, u32, wrapu. rewrite <- (Z.add_assoc (_ mod _)), Z.add_mod_idemp_l by lia. f_equal. lia. }
  assert (2 * Z.of_nat (length words) < 2 ^ 32) as Hlen.
  { unfold words. rewrite length_take. rewrite Z.shiftr_div_pow2 in * by lia.
    pose proof (Z.div_mod size (2 ^ 1) ltac:(lia)). pose proof (Z.mod_pos_bound size (2 ^ 1) ltac:(lia)). lia. }
  destruct (write_words_spec words (word_ptr dst offset) d Hd) as (r & d' & E & Hd' & Hc); [by apply Forall_take|done| |].
  { intros i Hi. rewrite Ew. by apply Hwin. }
  exists r, d'. split_and!; [done|done|].
  assert (programmable d (word_ptr dst offset) words <-> programmable d (dst + 2 * offset) words) as Hp.
  { unfold programmable. by setoid_rewrite Ew. }
  assert (forall l, length l = length words -> programmed d d' (word_ptr dst offset) l -> programmed d d' (dst + 2 * offset) l) as Hpr.
  { intros l _ [H1 H2]. split; [intros i w; rewrite <- Ew; by apply H1|]. intros x Hx Hne. apply H2; [done|].
    intros i Hi. rewrite Ew. by apply Hne. }
  rewrite <- Hp. destruct Hc as [(Er & H1 & H2)|Hc]; [left|by right]. split_and!; auto.
Qed.

End driver.

(** ** A chip

    Array mode, or the status of a word that was programmed and the number of
    reads until it is ready. *)
Inductive chip_mode := Array | Command (a : Z) | Busy (n : nat).

Record chip := mk_chip { c_mode : chip_mode; c_words : gmap Z Z }.

(** Where the board has its chip, and how large it is. *)
Definition on_board (a : Z) : Prop := FLASH_START_ADDRESS <= a < FLASH_START_ADDRESS + 0x800000.

(** Words that were never written are erased. *)
Definition chip_word (c : chip) (a : Z) : Z := u16 (default 0xFFFF (c_words c !! a)).

(** At other addresses there is nothing: a read gives zero. *)
#[export] Instance strata : FlashChip chip := {
  fl_read a c :=
    if negb ((FLASH_START_ADDRESS <=? a) && (a <? FLASH_START_ADDRESS + 0x800000)) then (0, c) else
    match c_mode c with
    | Array => (chip_word c a, c)
    | Command _ => (0, c)
    | Busy (S n) => (0, mk_chip (Busy n) (c_words c))
    | Busy O => (0x80, c)
    end;
  fl_write a v c :=
    if negb ((FLASH_START_ADDRESS <=? a) && (a <? FLASH_START_ADDRESS + 0x800000)) then c else
    match c_mode c with
    | Command b => if b =? a then mk_chip (Busy 3) (<[a := Z.land (chip_word c a) v]> (c_words c)) else c
    | _ => if v =? 0x40 then mk_chip (Command a) (c_words c) else if v =? 0xffff then mk_chip Array (c_words c) else c
    end
}.

Lemma on_board_true a : on_board a -> (FLASH_START_ADDRESS <=? a) && (a <? FLASH_START_ADDRESS + 0x800000) = true.
Proof. unfold on_board. intros [? ?]. by rewrite andb_true_iff, Z.leb_le, Z.ltb_lt. Qed.

Lemma u16_land x w : 0 <= w < 2 ^ 16 -> u16 (Z.land x w) = Z.land x w.
Proof.
  intros Hw. unfold u16, wrapu. rewrite <- Z.land_ones, <- Z.land_assoc, Z.land_ones by lia. by rewrite Z.mod_small.
Qed.

#[export] Instance strata_ok : FlashChipOk (D := chip).
Proof.
  refine {| window := on_board; array_mode c := c_mode c = Array; content := chip_word |}.
  - intros d a _ _. apply Z.mod_pos_bound. lia.
  - intros d a Hd Ha. cbn [fl_read strata]. by rewrite (on_board_true a Ha), Hd.
  - intros [md ws] a w Hd Ha%on_board_true Hw. cbn in Hd. subst md.
    set (v := Z.land (chip_word (mk_chip Array ws) a) w).
    assert (fl_write a w (fl_write a 0x40 (mk_chip Array ws)) = mk_chip (Busy 3) (<[a := v]> ws)) as ->.
    { cbn [fl_write strata]. rewrite Ha. cbn. by rewrite Z.eqb_refl. }
    assert (forall n, fl_read a (mk_chip (Busy (S n)) (<[a := v]> ws)) = (0, mk_chip (Busy n) (<[a := v]> ws))) as Eb.
    { intros n. cbn [fl_read strata]. by rewrite Ha. }
    assert (fl_read a (mk_chip (Busy 0) (<[a := v]> ws)) = (0x80, mk_chip (Busy 0) (<[a := v]> ws))) as Er.
    { cbn [fl_read strata]. by rewrite Ha. }
    assert (fl_write a 0xffff (mk_chip (Busy 0) (<[a := v]> ws)) = mk_chip Array (<[a := v]> ws)) as Ea.
    { cbn [fl_write strata]. by rewrite Ha. }
    exists 3%nat. cbn [reads]. rewrite !Eb. cbn [snd]. rewrite !Eb. cbn [snd]. rewrite !Eb. cbn [snd]. rewrite Er. cbn [fst snd]. rewrite Ea.
    split_and!; try done.
    + intros j Hj. destruct j as [|[|[|]]]; [..|lia]; cbn [reads]; rewrite ?Eb; cbn [snd]; rewrite ?Eb; cbn [snd]; by rewrite ?Eb.
    + intros x _. unfold v, chip_word. cbn. destruct (Z.eqb_spec x a) as [->|Hne].
      * rewrite lookup_insert_eq. by apply u16_land.
      * by rewrite lookup_insert_ne.
Defined.
