(* ===== verification/Smc911x.v ===== *)
(** * The Ethernet chip driver

    drivers/lwip/contrib/src/smc9218.c, the driver of the LAN9218, and the log of
    lwip_log.c that it writes to. The chip is not part of the sources: it is a
    type with the two accesses of the bus ([Nic]). A loop that waits for the chip
    without a limit takes [fuel], the number of reads after which the model gives
    up; the class [NicOk] states what the data sheet says of these waits and of
    the registers behind them. The delays of arch/delay.h and arch/clock.h only
    pass time. [printf] is defined empty in smc9218.c. *)

From Stdlib Require Import ZArith Lia String Ascii.
From stdpp Require Import base tactics gmap option functions list.
From S2P Require Import Prelude Bits Mem Bytes.

Open Scope Z_scope.
Open Scope kernel_scope.

Class Nic (D : Type) := {
  nic_read : Z -> D -> Z * D;
  nic_write : Z -> Z -> D -> D
}.

(** ** The registers *)

Definition BASE : Z := 0x24000000.

Definition RX_DATA_FIFO : Z := BASE + 0x00.
Definition TX_DATA_FIFO : Z := BASE + 0x20.
Definition RX_STATUS_FIFO : Z := BASE + 0x40.
Definition TX_STATUS_FIFO : Z := BASE + 0x48.
Definition ID_REV : Z := BASE + 0x50.
Definition INT_CFG : Z := BASE + 0x54.
Definition INT_STS : Z := BASE + 0x58.
Definition INT_EN : Z := BASE + 0x5C.
Definition BYTE_TEST : Z := BASE + 0x64.
Definition RX_CFG : Z := BASE + 0x6C.
Definition TX_CFG : Z := BASE + 0x70.
Definition HW_CFG : Z := BASE + 0x74.
Definition TX_FIFO_INF : Z := BASE + 0x80.
Definition PMT_CTRL : Z := BASE + 0x84.
Definition GPIO_CFG : Z := BASE + 0x88.
Definition GPT_CFG : Z := BASE + 0x8C.
Definition MAC_CSR_CMD : Z := BASE + 0xA4.
Definition MAC_CSR_DATA : Z := BASE + 0xA8.
Definition AFC_CFG : Z := BASE + 0xAC.
Definition E2P_CMD : Z := BASE + 0xB0.

Definition TX_CMD_A_INT_FIRST_SEG : Z := 0x00002000.
Definition TX_CMD_A_INT_LAST_SEG : Z := 0x00001000.
Definition RX_STS_PKT_LEN : Z := 0x3FFF0000.
Definition RX_STS_ES : Z := 0x00008000.
Definition TX_STS_LOC : Z := 0x00000800.
Definition TX_STS_LATE_COLL : Z := 0x00000200.
Definition TX_STS_MANY_COLL : Z := 0x00000100.
Definition TX_STS_MANY_DEFER : Z := 0x00000004.
Definition TX_STS_UNDERRUN : Z := 0x00000002.
Definition INT_CFG_IRQ_EN : Z := 0x00000100.
Definition INT_STS_RSFL : Z := 0x00000008.
Definition INT_EN_RSFL_EN : Z := 0x00000008.
Definition TX_CFG_TX_ON : Z := 0x00000002.
Definition HW_CFG_SF : Z := 0x00100000.
Definition HW_CFG_SRST : Z := 0x00000001.
Definition TX_FIFO_INF_TDFREE : Z := 0x0000FFFF.
Definition PMT_CTRL_PHY_RST : Z := 0x00000400.
Definition PMT_CTRL_READY : Z := 0x00000001.
Definition GPT_CFG_TIMER_EN : Z := 0x20000000.
Definition MAC_CSR_CMD_CSR_BUSY : Z := 0x80000000.
Definition MAC_CSR_CMD_R_NOT_W : Z := 0x40000000.
Definition E2P_CMD_EPC_BUSY : Z := 0x80000000.

(** The registers of the MAC, behind [MAC_CSR_CMD]. *)
Definition MAC_CR : Z := 0x01.
Definition MAC_CR_HBDIS : Z := 0x10000000.
Definition MAC_CR_TXEN : Z := 0x00000008.
Definition MAC_CR_RXEN : Z := 0x00000004.
Definition ADDRH : Z := 0x02.
Definition ADDRL : Z := 0x03.
Definition MII_ACC : Z := 0x06.
Definition MII_ACC_MII_WRITE : Z := 0x00000002.
Definition MII_ACC_MII_BUSY : Z := 0x00000001.
Definition MII_DATA : Z := 0x07.
Definition FLOW : Z := 0x08.
Definition FLOW_FCPT : Z := 0xFFFF0000.
Definition FLOW_FCEN : Z := 0x00000002.

(** The registers of the PHY, behind [MII_ACC]. *)
Definition PHY_BMCR : Z := 0x00.
Definition PHY_BMSR : Z := 0x01.
Definition PHY_ANAR : Z := 0x04.
Definition PHY_BMCR_RESET : Z := 0x8000.
Definition PHY_BMCR_AUTON : Z := 0x1000.
Definition PHY_BMCR_RST_NEG : Z := 0x0200.
Definition PHY_BMSR_LS : Z := 0x0004.

(** The identifiers of [chip_ids], without the last entry, which is zero. *)
Definition chip_ids : list Z := [0x115; 0x116; 0x117; 0x118; 0x115a; 0x116a; 0x117a; 0x118a].

Definition ESMC_OK : Z := 0.
Definition ESMC_INIT : Z := -1.
Definition ESMC_SEND : Z := -2.
Definition ESMC_RCV : Z := -3.

(** ** The log of lwIP *)

Definition LWIPLOG_ENTRIES : Z := 32.
Definition LWIPLOG_MSG_SIZE : Z := 256.

Record lwiplog_struct := mk_lwiplog { l_msg : list Z; l_time : Z }.

Record lwip_log := mk_lwip_log { lwiplog : list lwiplog_struct; lwipidx : Z }.

(** The bytes of a string literal, without the zero. *)
Definition lit (s : string) : list Z := map (fun c => Z.of_nat (nat_of_ascii c)) (list_ascii_of_string s).

(** [strncpy(old, s, n)]: up to the zero of [s] or [n] bytes; what is behind
    them stays. *)
Definition strncpy_over (n : Z) (old s : list Z) : list Z :=
  let w := take (Z.to_nat n) (s ++ [0]) in w ++ drop (length w) old.

Definition print_log (format : list Z) (time : Z) (l : lwip_log) : option lwip_log :=
  match lwiplog l !! Z.to_nat (lwipidx l) with
  | None => None
  | Some e =>
      let e := mk_lwiplog (strncpy_over LWIPLOG_MSG_SIZE (l_msg e) format) (i32 time) in
      Some (mk_lwip_log (<[Z.to_nat (lwipidx l) := e]> (lwiplog l)) (Z.rem (lwipidx l + 1) LWIPLOG_ENTRIES))
  end.

(** ** The state of the driver *)

(** The chip, the bytes of memory, [seqcnt] of [eth_send], the log and the
    system time. *)
Record smc_state (D : Type) := mk_smc {
  s_dev : D;
  s_bytes : bmem;
  s_seqcnt : Z;
  s_log : lwip_log;
  s_time : Z
}.

Arguments mk_smc {D}.
Arguments s_dev {D}.
Arguments s_bytes {D}.
Arguments s_seqcnt {D}.
Arguments s_log {D}.
Arguments s_time {D}.

(** ** Bytes and words *)

Lemma word_bytes_le m0 m1 m2 m3 : byte m0 -> byte m1 -> byte m2 -> byte m3 ->
  word_bytes (m0 + 2 ^ 8 * m1 + 2 ^ 16 * m2 + 2 ^ 24 * m3) = [m0; m1; m2; m3].
Proof.
  unfold byte, word_bytes. intros H0 H1 H2 H3. set (v := _ + _ + _ + _).
  assert (u8 v = m0) as ->.
  { unfold u8, wrapu. symmetry. apply (Z.mod_unique _ _ (m1 + 2 ^ 8 * m2 + 2 ^ 16 * m3)); unfold v; lia. }
  assert (v / 2 ^ 8 = m1 + 2 ^ 8 * m2 + 2 ^ 16 * m3) as -> by (symmetry; apply (Z.div_unique _ _ _ m0); unfold v; lia).
  assert (v / 2 ^ 16 = m2 + 2 ^ 8 * m3) as -> by (symmetry; apply (Z.div_unique _ _ _ (m0 + 2 ^ 8 * m1)); unfold v; lia).
  assert (v / 2 ^ 24 = m3) as -> by (symmetry; apply (Z.div_unique _ _ _ (m0 + 2 ^ 8 * m1 + 2 ^ 16 * m2)); unfold v; lia).
  unfold u8, wrapu. repeat f_equal; symmetry.
  - apply (Z.mod_unique _ _ (m2 + 2 ^ 8 * m3)); lia.
  - apply (Z.mod_unique _ _ m3); lia.
  - apply (Z.mod_unique _ _ 0); lia.
Qed.

Lemma land_ff a b : byte a -> byte b -> Z.land a b = 0xff <-> a = 0xff /\ b = 0xff.
Proof.
  unfold byte. intros Ha Hb. split; [|by intros [-> ->]]. intros E.
  assert (forall x y, 0 <= x < 256 -> Z.land x y = 0xff -> x = 0xff) as H.
  { intros x y Hx Exy. assert (Z.land x 0xff = 0xff) as Ex by (rewrite <- Exy, Z.land_assoc, Z.land_diag; done).
    change 0xff with (Z.ones 8) in Ex at 1. rewrite Z.land_ones, Z.mod_small in Ex by lia. done. }
  split; [by apply (H a b)|]. apply (H b a); [done|]. by rewrite Z.land_comm.
Qed.

Lemma land_byte a b : byte a -> byte b -> byte (Z.land a b).
Proof.
  unfold byte. intros Ha Hb. split; [apply Z.land_nonneg; lia|]. destruct (Z.eq_dec (Z.land a b) 0) as [->|Hne]; [lia|].
  apply (Z.log2_lt_pow2 _ 8); [assert (0 <= Z.land a b) by (apply Z.land_nonneg; lia); lia|].
  pose proof (Z.log2_land a b ltac:(lia) ltac:(lia)). assert (Z.log2 a < 8); [|lia].
  destruct (Z.eq_dec a 0) as [->|]; [done|]. apply Z.log2_lt_pow2; lia.
Qed.

Lemma byte_of v k : 0 <= k -> Z.land (Z.shiftr v k) 0xff = u8 (v / 2 ^ k).
Proof. intros Hk. rewrite Z.shiftr_div_pow2 by done. change 0xff with (Z.ones 8). by rewrite Z.land_ones. Qed.

Lemma byte_of0 v : Z.land v 0xff = u8 v.
Proof. change 0xff with (Z.ones 8). by rewrite Z.land_ones. Qed.

Lemma u8_u8 v : u8 (u8 v) = u8 v.
Proof. apply u8_id, u8_byte. Qed.

Section driver.
Context {D : Type} {N : Nic D}.

Local Abbreviation SM := (M (smc_state D)).

Definition set_dev (d : D) (s : smc_state D) : smc_state D := mk_smc d (s_bytes s) (s_seqcnt s) (s_log s) (s_time s).
Definition set_bytes (m : bmem) (s : smc_state D) : smc_state D := mk_smc (s_dev s) m (s_seqcnt s) (s_log s) (s_time s).
Definition set_seqcnt (n : Z) (s : smc_state D) : smc_state D := mk_smc (s_dev s) (s_bytes s) n (s_log s) (s_time s).
Definition set_log (l : lwip_log) (s : smc_state D) : smc_state D := mk_smc (s_dev s) (s_bytes s) (s_seqcnt s) l (s_time s).

Definition reg_read (addr : Z) : SM Z :=
  fun s => let '(v, d) := nic_read addr (s_dev s) in Some (u32 v, set_dev d s).

Definition reg_write (addr val : Z) : SM unit := modify (fun s => set_dev (nic_write addr (u32 val) (s_dev s)) s).

Definition bytes {A} (m : M bmem A) : SM A := zoom s_bytes set_bytes m.

Definition LWIPPRINT (msg : string) : SM unit :=
  fun s => match print_log (lit msg) (s_time s) (s_log s) with Some l => Some (tt, set_log l s) | None => None end.

(** ** The registers of the MAC and of the PHY *)

Section waiting.
Variable fuel : nat.

(** [while (reg_read(addr) & mask);] *)
Fixpoint wait_while (n : nat) (addr mask : Z) : SM unit :=
  match n with
  | O => fault
  | S n => let* v := reg_read addr in if nz (Z.land v mask) then wait_while n addr mask else ret tt
  end.

Definition smc911x_get_mac_csr (reg : Z) : SM Z :=
  wait_while fuel MAC_CSR_CMD MAC_CSR_CMD_CSR_BUSY ;;;
  reg_write MAC_CSR_CMD (Z.lor (Z.lor MAC_CSR_CMD_CSR_BUSY MAC_CSR_CMD_R_NOT_W) reg) ;;;
  wait_while fuel MAC_CSR_CMD MAC_CSR_CMD_CSR_BUSY ;;;
  reg_read MAC_CSR_DATA.

Definition smc911x_set_mac_csr (reg data : Z) : SM unit :=
  wait_while fuel MAC_CSR_CMD MAC_CSR_CMD_CSR_BUSY ;;;
  reg_write MAC_CSR_DATA data ;;;
  reg_write MAC_CSR_CMD (Z.lor MAC_CSR_CMD_CSR_BUSY reg) ;;;
  wait_while fuel MAC_CSR_CMD MAC_CSR_CMD_CSR_BUSY.

Definition smx911x_handle_mac_address (m : Z) : SM Z :=
  let* m0 := bytes (ldb m) in
  let* m1 := bytes (ldb (m + 1)) in
  let* m2 := bytes (ldb (m + 2)) in
  let* m3 := bytes (ldb (m + 3)) in
  let* m4 := bytes (ldb (m + 4)) in
  let* m5 := bytes (ldb (m + 5)) in
  (* if the environment has a valid mac address then use it *)
  if nz (Z.lor (Z.lor (Z.lor (Z.lor (Z.lor m0 m1) m2) m3) m4) m5) then
    let addrl := u32 (Z.lor (Z.lor (Z.lor m0 (Z.shiftl m1 8)) (Z.shiftl m2 16)) (Z.shiftl m3 24)) in
    let addrh := u32 (Z.lor m4 (Z.shiftl m5 8)) in
    smc911x_set_mac_csr ADDRH addrh ;;;
    smc911x_set_mac_csr ADDRL addrl ;;;
    ret ESMC_OK
  else
    (* if not, try to get one from the eeprom *)
    let* addrh := smc911x_get_mac_csr ADDRH in
    let* addrl := smc911x_get_mac_csr ADDRL in
    bytes (stb m (Z.land addrl 0xff)) ;;;
    bytes (stb (m + 1) (Z.land (Z.shiftr addrl 8) 0xff)) ;;;
    bytes (stb (m + 2) (Z.land (Z.shiftr addrl 16) 0xff)) ;;;
    bytes (stb (m + 3) (Z.land (Z.shiftr addrl 24) 0xff)) ;;;
    bytes (stb (m + 4) (Z.land addrh 0xff)) ;;;
    bytes (stb (m + 5) (Z.land (Z.shiftr addrh 8) 0xff)) ;;;
    let* m0 := bytes (ldb m) in
    let* m1 := bytes (ldb (m + 1)) in
    let* m2 := bytes (ldb (m + 2)) in
    let* m3 := bytes (ldb (m + 3)) in
    let* m4 := bytes (ldb (m + 4)) in
    let* m5 := bytes (ldb (m + 5)) in
    (* we get 0xff when there is no eeprom connected *)
    if Z.land (Z.land (Z.land (Z.land (Z.land m0 m1) m2) m3) m4) m5 =? 0xff then ret ESMC_INIT else ret ESMC_OK.

(** [while (smc911x_get_mac_csr(MII_ACC) & MII_ACC_MII_BUSY);] *)
Fixpoint wait_mii (n : nat) : SM unit :=
  match n with
  | O => fault
  | S n => let* v := smc911x_get_mac_csr MII_ACC in if nz (Z.land v MII_ACC_MII_BUSY) then wait_mii n else ret tt
  end.

(** The value of [*val]; the function itself returns 0. *)
Definition smc911x_miiphy_read (phy reg : Z) : SM Z :=
  wait_mii fuel ;;;
  smc911x_set_mac_csr MII_ACC (Z.lor (Z.lor (Z.shiftl phy 11) (Z.shiftl reg 6)) MII_ACC_MII_BUSY) ;;;
  wait_mii fuel ;;;
  let* v := smc911x_get_mac_csr MII_DATA in
  ret (u16 v).

Definition smc911x_miiphy_write (phy reg val : Z) : SM unit :=
  wait_mii fuel ;;;
  smc911x_set_mac_csr MII_DATA val ;;;
  smc911x_set_mac_csr MII_ACC
    (Z.lor (Z.lor (Z.lor (Z.shiftl phy 11) (Z.shiftl reg 6)) MII_ACC_MII_BUSY) MII_ACC_MII_WRITE) ;;;
  wait_mii fuel.

Definition smc911x_phy_reset : SM unit :=
  let* reg := reg_read PMT_CTRL in
  let reg := Z.land reg (u32 (Z.lnot 0xfffff030)) in
  let reg := Z.lor reg PMT_CTRL_PHY_RST in
  reg_write PMT_CTRL reg.

(** The loop of [smc911x_phy_configure] with [timeout = k]; both ends only print. *)
Fixpoint phy_wait (k : nat) : SM unit :=
  match k with
  | O => ret tt
  | S k =>
      let* status := smc911x_miiphy_read 1 PHY_BMSR in
      if nz (Z.land status PHY_BMSR_LS) then ret tt else phy_wait k
  end.

Definition smc911x_phy_configure : SM unit :=
  smc911x_phy_reset ;;;
  smc911x_miiphy_write 1 PHY_BMCR PHY_BMCR_RESET ;;;
  smc911x_miiphy_write 1 PHY_ANAR 0x01e1 ;;;
  smc911x_miiphy_write 1 PHY_BMCR (Z.lor PHY_BMCR_AUTON PHY_BMCR_RST_NEG) ;;;
  phy_wait 5000.

(** [while (timeout-- && cond);] with [timeout = k]: the value of [timeout] behind
    the loop, -1 when it ran out. *)
Fixpoint count_down (k : nat) (cond : SM bool) : SM Z :=
  match k with
  | O => ret (-1)
  | S k => let* c := cond in if c then count_down k cond else ret (Z.of_nat k)
  end.

(** The part of [smc911x_reset] behind the power management. *)
Definition reset_chip : SM unit :=
  (* Disable interrupts *)
  reg_write INT_EN 0 ;;;
  reg_write HW_CFG HW_CFG_SRST ;;;
  let* timeout := count_down 1000 (let* v := reg_read E2P_CMD in ret (nz (Z.land v E2P_CMD_EPC_BUSY))) in
  if timeout =? 0 then ret tt else
  (* Reset the FIFO level and flow control settings *)
  smc911x_set_mac_csr FLOW (Z.lor FLOW_FCPT FLOW_FCEN) ;;;
  reg_write AFC_CFG 0x0050287F ;;;
  (* Set to LED outputs *)
  reg_write GPIO_CFG 0x70070000.

Definition smc911x_reset : SM unit :=
  let* v := reg_read PMT_CTRL in
  (* Take out of PM setting first *)
  if nz (Z.land v PMT_CTRL_READY) then
    (* Write to the bytetest will take out of powerdown *)
    reg_write BYTE_TEST 0x0 ;;;
    let* timeout := count_down 10 (let* v := reg_read PMT_CTRL in ret (negb (nz (Z.land v PMT_CTRL_READY)))) in
    if timeout =? 0 then ret tt else reset_chip
  else reset_chip.

Definition smc911x_enable : SM unit :=
  (* Enable TX *)
  reg_write HW_CFG (Z.lor (Z.shiftl 8 16) HW_CFG_SF) ;;;
  reg_write GPT_CFG (Z.lor GPT_CFG_TIMER_EN 10000) ;;;
  reg_write TX_CFG TX_CFG_TX_ON ;;;
  (* Enable chip rx interrupt *)
  let* tmpreg := reg_read INT_CFG in
  let tmpreg := Z.lor tmpreg INT_CFG_IRQ_EN in
  reg_write INT_CFG tmpreg ;;;
  (* Clear any pending interrupt *)
  reg_write INT_STS INT_STS_RSFL ;;;
  (* Enable reception interrupt *)
  reg_write INT_EN INT_EN_RSFL_EN ;;;
  (* No padding to start of packets *)
  reg_write RX_CFG 0 ;;;
  smc911x_set_mac_csr MAC_CR (Z.lor (Z.lor MAC_CR_TXEN MAC_CR_RXEN) MAC_CR_HBDIS).

(** [do { tmp = reg_read(HW_CFG); tmout--; } while ((tmout-- > 0UL) && (tmp & HW_CFG_SRST))]:
    the last value of [tmp]. *)
Fixpoint reset_wait (n : nat) (tmout : Z) : SM Z :=
  match n with
  | O => fault
  | S n =>
      let* tmp := reg_read HW_CFG in
      let tmout := u32 (tmout - 1) in
      if (tmout >? 0) && nz (Z.land tmp HW_CFG_SRST) then reset_wait n (u32 (tmout - 1)) else ret tmp
  end.

Definition eth_init (mac : Z) : SM Z :=
  (* Reset the Chip *)
  reg_write HW_CFG HW_CFG_SRST ;;;
  let* tmp := reset_wait fuel 100000 in
  (* Failed to initialize LAN9218 *)
  if nz (Z.land tmp HW_CFG_SRST) then ret ESMC_INIT else
  let* val := reg_read BYTE_TEST in
  if negb (val =? 0x87654321) then ret ESMC_INIT else
  let* val := reg_read ID_REV in
  let val := Z.shiftr val 16 in
  if negb (existsb (Z.eqb val) chip_ids) then ret ESMC_INIT else
  smc911x_reset ;;;
  (* Configure the PHY, initialize the link state *)
  smc911x_phy_configure ;;;
  let* r := smx911x_handle_mac_address mac in
  if r =? ESMC_INIT then ret ESMC_INIT else
  (* Turn on Tx + Rx *)
  smc911x_enable ;;;
  ret ESMC_OK.

Definition eth_halt : SM unit := smc911x_reset.

End waiting.

(** ** Sending *)

(** The wait for [tmplen] bytes of space: [false] after 102 reads without. *)
Fixpoint send_wait (n : nat) (tmplen count : Z) : SM bool :=
  match n with
  | O => fault
  | S n =>
      let* v := reg_read TX_FIFO_INF in
      let space := Z.land v TX_FIFO_INF_TDFREE in
      if tmplen <=? space then ret true else
      if count >? 100 then ret false else send_wait n tmplen (count + 1)
  end.

(** [while (tmplen--) pkt_data_push(TX_DATA_FIFO, *data++);] *)
Fixpoint push_words (n : nat) (data : Z) : SM unit :=
  match n with
  | O => ret tt
  | S n => let* w := bytes (ldw data) in reg_write TX_DATA_FIFO w ;;; push_words n (data + 4)
  end.

Definition TX_ERRORS : Z :=
  Z.lor (Z.lor (Z.lor (Z.lor TX_STS_LOC TX_STS_LATE_COLL) TX_STS_MANY_COLL) TX_STS_MANY_DEFER) TX_STS_UNDERRUN.

Definition eth_send (packet length : Z) : SM Z :=
  let data := Z.land packet (u32 (Z.lnot 0x3)) in
  (* Wait until space available *)
  let tmplen := Z.land (u32 (length + 3)) (u32 (Z.lnot 0x03)) in
  let* ok := send_wait 102 tmplen 0 in
  if negb ok then
    (* Timeout while waiting for space *)
    LWIPPRINT "Failed to send packet. Timeout while waiting for space" ;;;
    ret ESMC_SEND
  else
  let tmplen := Z.shiftr (u32 (length + 3 + Z.land packet 0x3)) 2 in
  reg_write TX_DATA_FIFO
    (Z.lor (Z.lor (Z.lor TX_CMD_A_INT_FIRST_SEG TX_CMD_A_INT_LAST_SEG) length) (Z.shiftl (Z.land packet 0x3) 16)) ;;;
  let* seqcnt := gets s_seqcnt in
  reg_write TX_DATA_FIFO (Z.lor length (u32 (Z.shiftl seqcnt 16))) ;;;
  modify (set_seqcnt (u32 (seqcnt + 1))) ;;;
  (* Write fifo *)
  push_words (Z.to_nat tmplen) data ;;;
  (* get status. Ignore 'no carrier' error *)
  let* v := reg_read TX_STATUS_FIFO in
  let status := Z.land v TX_ERRORS in
  if negb (nz status) then ret ESMC_OK else
  LWIPPRINT "Failed to send packet" ;;;
  ret ESMC_SEND.

(** ** The chip *)

(** The chip after [n] reads of a register. *)
Fixpoint polls (a : Z) (n : nat) (d : D) : D :=
  match n with O => d | S n => polls a n (nic_read a d).2 end.

(** A command for the MAC is in progress. *)
Definition csr_busy (d : D) : Prop := Z.land (u32 (nic_read MAC_CSR_CMD d).1) MAC_CSR_CMD_CSR_BUSY <> 0.

(** The first [n] reads of [MAC_CSR_CMD] find it busy, the next one does not. *)
Definition ready_after (n : nat) (d : D) : Prop :=
  (forall j, (j < n)%nat -> csr_busy (polls MAC_CSR_CMD j d)) /\ ~ csr_busy (polls MAC_CSR_CMD n d).

(** What the data sheet says of the registers of the MAC: [csr] has their
    contents while the chip is [idle]; a command takes fewer than [busy_bound]
    reads of the busy bit. *)
Class NicOk := {
  idle : D -> Prop;
  csr : D -> Z -> Z;
  busy_bound : nat;
  csr_word : forall d r, idle d -> word32 (csr d r);
  idle_ready : forall d, idle d -> ~ csr_busy d /\ idle (nic_read MAC_CSR_CMD d).2 /\ csr (nic_read MAC_CSR_CMD d).2 = csr d;
  csr_read : forall d r, idle d -> 0 <= r < 256 ->
    let d1 := nic_write MAC_CSR_CMD (MAC_CSR_CMD_CSR_BUSY + MAC_CSR_CMD_R_NOT_W + r) d in
    exists n, (n < busy_bound)%nat /\ ready_after n d1 /\
      let d2 := polls MAC_CSR_CMD (S n) d1 in
      (nic_read MAC_CSR_DATA d2).1 = csr d r /\ idle (nic_read MAC_CSR_DATA d2).2 /\ csr (nic_read MAC_CSR_DATA d2).2 = csr d;
  csr_write : forall d r v, idle d -> (r = ADDRL /\ word32 v) \/ (r = ADDRH /\ 0 <= v < 2 ^ 16) ->
    let d1 := nic_write MAC_CSR_CMD (MAC_CSR_CMD_CSR_BUSY + r) (nic_write MAC_CSR_DATA v d) in
    exists n, (n < busy_bound)%nat /\ ready_after n d1 /\
      let d2 := polls MAC_CSR_CMD (S n) d1 in
      idle d2 /\ csr d2 = <[r := v]> (csr d)
}.

Lemma wp_reg_read a s (Q : Z -> smc_state D -> Prop) :
  Q (u32 (nic_read a (s_dev s)).1) (set_dev (nic_read a (s_dev s)).2 s) -> wp (reg_read a) Q s.
Proof. unfold wp, reg_read. by destruct (nic_read a (s_dev s)). Qed.

Lemma wp_bytes {A} (m : M bmem A) s (Q : A -> smc_state D -> Prop) :
  wp m (fun a b => Q a (set_bytes b s)) (s_bytes s) -> wp (bytes m) Q s.
Proof. unfold wp, bytes, zoom. by destruct (m (s_bytes s)) as [[? ?]|]. Qed.

Lemma set_dev_dev d d' s : set_dev d (set_dev d' s) = set_dev d s.
Proof. done. Qed.

(** The wait for the end of a command. *)
Lemma wp_wait n fuel s (Q : unit -> smc_state D -> Prop) : ready_after n (s_dev s) -> (n < fuel)%nat ->
  Q tt (set_dev (polls MAC_CSR_CMD (S n) (s_dev s)) s) -> wp (wait_while fuel MAC_CSR_CMD MAC_CSR_CMD_CSR_BUSY) Q s.
Proof.
  revert fuel s. induction n as [|n IH]; intros [|fuel] s [Hb Hr] Hf HQ; [lia| |lia|]; cbn [wait_while]; apply wp_bind, wp_reg_read; unfold nz.
  - destruct (Z.eqb_spec (Z.land (u32 (nic_read MAC_CSR_CMD (s_dev s)).1) MAC_CSR_CMD_CSR_BUSY) 0) as [_|Hne]; [by apply wp_ret|].
    by destruct Hr.
  - specialize (Hb 0%nat ltac:(lia)) as H0. destruct (Z.eqb_spec (Z.land (u32 (nic_read MAC_CSR_CMD (s_dev s)).1) MAC_CSR_CMD_CSR_BUSY) 0); [done|].
    cbn [negb]. apply IH; [|lia|done]. split; [|exact Hr]. intros j Hj. apply (Hb (S j)). lia.
Qed.

(** Six bytes read one after the other. *)
Lemma wp_read6 {B} m l (K : Z -> Z -> Z -> Z -> Z -> Z -> SM B) s (Q : B -> smc_state D -> Prop) m0 m1 m2 m3 m4 m5 :
  l = [m0; m1; m2; m3; m4; m5] -> arr (s_bytes s) m l -> wp (K m0 m1 m2 m3 m4 m5) Q s ->
  wp (let* m0 := bytes (ldb m) in
      let* m1 := bytes (ldb (m + 1)) in
      let* m2 := bytes (ldb (m + 2)) in
      let* m3 := bytes (ldb (m + 3)) in
      let* m4 := bytes (ldb (m + 4)) in
      let* m5 := bytes (ldb (m + 5)) in
      K m0 m1 m2 m3 m4 m5) Q s.
Proof.
  intros -> Ha HK. rewrite <- (Z.add_0_r m) at 1.
  apply wp_bind, wp_bytes, (wp_ldb_at _ _ _ 0 m0 _ Ha); [done|]. apply wp_bind, wp_bytes, (wp_ldb_at _ _ _ 1 m1 _ Ha); [done|].
  apply wp_bind, wp_bytes, (wp_ldb_at _ _ _ 2 m2 _ Ha); [done|]. apply wp_bind, wp_bytes, (wp_ldb_at _ _ _ 3 m3 _ Ha); [done|].
  apply wp_bind, wp_bytes, (wp_ldb_at _ _ _ 4 m4 _ Ha); [done|]. apply wp_bind, wp_bytes, (wp_ldb_at _ _ _ 5 m5 _ Ha); [done|].
  by destruct s.
Qed.

(** [m[0] = v0; ... m[5] = v5] *)
Lemma wp_write6 {B} m v0 v1 v2 v3 v4 v5 (K : SM B) s (Q : B -> smc_state D -> Prop) : mapped (s_bytes s) m 6 ->
  (forall b, arr b m [u8 v0; u8 v1; u8 v2; u8 v3; u8 v4; u8 v5] -> only (s_bytes s) b m 6 -> wp K Q (set_bytes b s)) ->
  wp (bytes (stb m v0) ;;; bytes (stb (m + 1) v1) ;;; bytes (stb (m + 2) v2) ;;; bytes (stb (m + 3) v3) ;;;
      bytes (stb (m + 4) v4) ;;; bytes (stb (m + 5) v5) ;;; K) Q s.
Proof.
  intros Hm HK. set (b0 := s_bytes s) in *.
  assert (forall b x, only b0 b m 6 -> m <= x < m + 6 -> is_Some (b !! x)) as Hs by (intros b x [Hd _] Hx; by apply Hd, Hm).
  assert (forall b x v, only b0 b m 6 -> m <= x < m + 6 -> only b0 (<[x := v]> b) m 6) as Ho.
  { intros b x v Hb Hx. eapply only_trans; [exact Hb|]. apply only_insert; [by apply Hs|done]. }
  pose proof (only_refl b0 m 6) as H.
  apply wp_bind, wp_bytes, wp_stb; [apply (Hs _ _ H); lia|]. apply (Ho _ m (u8 v0)) in H; [|lia].
  apply wp_bind, wp_bytes, wp_stb; [apply (Hs _ _ H); lia|]. apply (Ho _ (m + 1) (u8 v1)) in H; [|lia].
  apply wp_bind, wp_bytes, wp_stb; [apply (Hs _ _ H); lia|]. apply (Ho _ (m + 2) (u8 v2)) in H; [|lia].
  apply wp_bind, wp_bytes, wp_stb; [apply (Hs _ _ H); lia|]. apply (Ho _ (m + 3) (u8 v3)) in H; [|lia].
  apply wp_bind, wp_bytes, wp_stb; [apply (Hs _ _ H); lia|]. apply (Ho _ (m + 4) (u8 v4)) in H; [|lia].
  apply wp_bind, wp_bytes, wp_stb; [apply (Hs _ _ H); lia|]. apply (Ho _ (m + 5) (u8 v5)) in H; [|lia].
  apply HK; [|exact H]. intros [|[|[|[|[|[|i]]]]]] b E; cbn in E; [injection E as <-..|by destruct i]; cbn [s_bytes set_bytes]; fold b0.
  - rewrite Z.add_0_r, !lookup_insert_ne by lia. apply lookup_insert_eq.
  - rewrite !lookup_insert_ne by lia. apply lookup_insert_eq.
  - rewrite !lookup_insert_ne by lia. apply lookup_insert_eq.
  - rewrite !lookup_insert_ne by lia. apply lookup_insert_eq.
  - rewrite !lookup_insert_ne by lia. apply lookup_insert_eq.
  - apply lookup_insert_eq.
Qed.

Section mac.
Context {NO : NicOk}.
Variable fuel : nat.
Hypothesis Hfuel : (busy_bound <= fuel)%nat.

Lemma bound_pos d r : idle d -> 0 <= r < 256 -> (0 < busy_bound)%nat.
Proof. intros Hd Hr. destruct (csr_read d r Hd Hr) as (n & Hn & _). lia. Qed.

(** The first wait of an access finds the chip idle. *)
Lemma wp_wait_idle s (Q : unit -> smc_state D -> Prop) : idle (s_dev s) ->
  (forall d, idle d -> csr d = csr (s_dev s) -> Q tt (set_dev d s)) -> wp (wait_while fuel MAC_CSR_CMD MAC_CSR_CMD_CSR_BUSY) Q s.
Proof.
  intros Hi HQ. destruct (idle_ready _ Hi) as (Hn & Hi' & Hc). pose proof (bound_pos _ 0 Hi ltac:(lia)).
  apply (wp_wait 0); [split; [lia|exact Hn]|lia|]. by apply HQ.
Qed.

Lemma cmd_read r : 0 <= r < 256 -> u32 (Z.lor (Z.lor MAC_CSR_CMD_CSR_BUSY MAC_CSR_CMD_R_NOT_W) r) = MAC_CSR_CMD_CSR_BUSY + MAC_CSR_CMD_R_NOT_W + r.
Proof.
  intros Hr. rewrite Z.lor_comm. change (Z.lor MAC_CSR_CMD_CSR_BUSY MAC_CSR_CMD_R_NOT_W) with (Z.shiftl 0xC00000 8).
  rewrite lor_above by lia. unfold MAC_CSR_CMD_CSR_BUSY, MAC_CSR_CMD_R_NOT_W. rewrite u32_small; lia.
Qed.

Lemma cmd_write r : 0 <= r < 256 -> u32 (Z.lor MAC_CSR_CMD_CSR_BUSY r) = MAC_CSR_CMD_CSR_BUSY + r.
Proof.
  intros Hr. rewrite Z.lor_comm. change MAC_CSR_CMD_CSR_BUSY with (Z.shiftl 0x800000 8) at 1.
  rewrite lor_above by lia. unfold MAC_CSR_CMD_CSR_BUSY. rewrite u32_small; lia.
Qed.

Lemma wp_get_mac_csr r s (Q : Z -> smc_state D -> Prop) : idle (s_dev s) -> 0 <= r < 256 ->
  (forall d, idle d -> csr d = csr (s_dev s) -> Q (csr (s_dev s) r) (set_dev d s)) -> wp (smc911x_get_mac_csr fuel r) Q s.
Proof.
  intros Hi Hr HQ. apply wp_bind, wp_wait_idle; [done|]. intros d0 Hi0 Hc0. apply wp_bind, wp_modify. rewrite cmd_read by done. cbn [s_dev set_dev].
  destruct (csr_read d0 r Hi0 Hr) as (n & Hn & Hrd & Hv & Hi2 & Hc2). apply wp_bind, (wp_wait n); [done|lia|]. apply wp_reg_read. cbn [s_dev set_dev].
  rewrite Hv, Hc0, u32_small by (apply csr_word, Hi). apply HQ; [done|by rewrite Hc2].
Qed.

Lemma wp_set_mac_csr r v s (Q : unit -> smc_state D -> Prop) :
  idle (s_dev s) -> (r = ADDRL /\ word32 v) \/ (r = ADDRH /\ 0 <= v < 2 ^ 16) ->
  (forall d, idle d -> csr d = <[r := v]> (csr (s_dev s)) -> Q tt (set_dev d s)) -> wp (smc911x_set_mac_csr fuel r v) Q s.
Proof.
  intros Hi Hrv HQ. apply wp_bind, wp_wait_idle; [done|]. intros d0 Hi0 Hc0. apply wp_bind, wp_modify. apply wp_bind, wp_modify.
  assert (0 <= r < 256 /\ word32 v) as [Hr Hv] by (unfold ADDRL, ADDRH, word32 in *; lia).
  rewrite cmd_write, (u32_small v) by done. cbn [s_dev set_dev].
  destruct (csr_write d0 r v Hi0 Hrv) as (n & Hn & Hrd & Hi2 & Hc2). apply (wp_wait n); [done|lia|]. cbn [s_dev set_dev].
  apply HQ; [done|]. by rewrite Hc2, Hc0.
Qed.

(** ** The address *)

(** The address in the chip. *)
Definition mac_of (d : D) : list Z := word_bytes (csr d ADDRL) ++ take 2 (word_bytes (csr d ADDRH)).

(** After [smx911x_handle_mac_address] the address at [m] is the one of the chip:
    the old one of memory, or that of the chip when there was none in memory. *)
Lemma wp_handle_mac_address m l s (Q : Z -> smc_state D -> Prop) :
  idle (s_dev s) -> 0 <= csr (s_dev s) ADDRH < 2 ^ 16 -> length l = 6%nat -> Forall byte l -> arr (s_bytes s) m l ->
  let l' := if decide (l = replicate 6 0) then mac_of (s_dev s) else l in
  (forall d b, idle d -> mac_of d = l' -> arr b m l' -> only (s_bytes s) b m 6 ->
     Q (if decide (l' = replicate 6 0xff /\ l <> l') then ESMC_INIT else ESMC_OK) (set_bytes b (set_dev d s))) ->
  wp (smx911x_handle_mac_address fuel m) Q s.
Proof.
  intros Hi Hh Hl Hb Ha l' HQ. destruct l as [|m0 [|m1 [|m2 [|m3 [|m4 [|m5 [|]]]]]]]; try discriminate Hl.
  rewrite !Forall_cons in Hb. destruct Hb as (B0 & B1 & B2 & B3 & B4 & B5 & _). unfold smx911x_handle_mac_address.
  apply (wp_read6 m _ _ _ _ _ _ _ _ _ _ eq_refl Ha).
  assert (nz (Z.lor (Z.lor (Z.lor (Z.lor (Z.lor m0 m1) m2) m3) m4) m5) = bool_decide ([m0; m1; m2; m3; m4; m5] <> replicate 6 0)) as ->.
  { unfold nz. destruct (Z.eqb_spec (Z.lor (Z.lor (Z.lor (Z.lor (Z.lor m0 m1) m2) m3) m4) m5) 0) as [E|E]; symmetry; cbn [negb].
    - rewrite !Z.lor_eq_0_iff in E. apply bool_decide_eq_false. intros H. apply H. cbn. repeat f_equal; tauto.
    - apply bool_decide_eq_true. intros H. apply E. by injection H as -> -> -> -> -> ->. }
  destruct (decide ([m0; m1; m2; m3; m4; m5] = replicate 6 0)) as [E0|E0].
  - rewrite bool_decide_eq_false_2 by (by intros []). apply wp_bind, wp_get_mac_csr; [done|done|]. intros d1 Hi1 Hc1.
    apply wp_bind, wp_get_mac_csr; [done|done|]. cbn [s_dev set_dev]. intros d2 Hi2 Hc2. rewrite Hc1. set (vh := csr (s_dev s) ADDRH) in *.
    set (vl := csr (s_dev s) ADDRL). apply wp_write6; [by apply arr_mapped in Ha|]. cbn [s_bytes set_dev]. intros b Hb Ho.
    rewrite !byte_of, !byte_of0, !u8_u8 in Hb by lia.
    eapply wp_read6; [reflexivity|exact Hb|].
    assert (mac_of (s_dev s) = [u8 vl; u8 (vl / 2 ^ 8); u8 (vl / 2 ^ 16); u8 (vl / 2 ^ 24); u8 vh; u8 (vh / 2 ^ 8)]) as Em by done.
    assert (mac_of d2 = mac_of (s_dev s)) as Em2 by (unfold mac_of; by rewrite Hc2, Hc1).
    assert ((Z.land (Z.land (Z.land (Z.land (Z.land (u8 vl) (u8 (vl / 2 ^ 8))) (u8 (vl / 2 ^ 16))) (u8 (vl / 2 ^ 24))) (u8 vh)) (u8 (vh / 2 ^ 8)) =? 0xff) =
      bool_decide (l' = replicate 6 0xff /\ [m0; m1; m2; m3; m4; m5] <> l')) as ->.
    { unfold l'. rewrite Em, E0. symmetry. destruct (Z.eqb_spec (Z.land (Z.land (Z.land (Z.land (Z.land (u8 vl) (u8 (vl / 2 ^ 8)))
        (u8 (vl / 2 ^ 16))) (u8 (vl / 2 ^ 24))) (u8 vh)) (u8 (vh / 2 ^ 8))) 0xff) as [E|E]; rewrite !land_ff in E by auto 8 using u8_byte, land_byte.
      - apply bool_decide_eq_true. destruct E as (((((-> & ->) & ->) & ->) & ->) & ->). done.
      - apply bool_decide_eq_false. intros [[= E1 E2 E3 E4 E5 E6] _]. apply E. tauto. }
    destruct (bool_decide_reflect (l' = replicate 6 0xff /\ [m0; m1; m2; m3; m4; m5] <> l')) as [Hff|Hff]; apply wp_ret;
      specialize (HQ d2 b Hi2 Em2 Hb Ho);
      [rewrite decide_True in HQ by done|rewrite decide_False in HQ by done]; exact HQ.
  - rewrite bool_decide_eq_true_2 by done.
    assert (Z.lor m4 (Z.shiftl m5 8) = m4 + 2 ^ 8 * m5) as Eh by (rewrite lor_above; unfold byte in *; lia).
    assert (Z.lor (Z.lor (Z.lor m0 (Z.shiftl m1 8)) (Z.shiftl m2 16)) (Z.shiftl m3 24) = m0 + 2 ^ 8 * m1 + 2 ^ 16 * m2 + 2 ^ 24 * m3) as El.
    { unfold byte in *. rewrite (lor_above m0) by lia. rewrite (lor_above _ m2), (lor_above _ m3) by lia. lia. }
    apply wp_bind, wp_set_mac_csr; [done| |].
    { right. split; [done|]. rewrite Eh, u32_small by (unfold byte in *; lia). unfold byte in *. lia. }
    intros d1 Hi1 Hc1. apply wp_bind, wp_set_mac_csr; [done| |].
    { left. split; [done|]. rewrite El, u32_small by (unfold byte in *; lia). unfold byte, word32 in *. lia. }
    intros d2 Hi2 Hc2. apply wp_ret. 
    specialize (HQ d2 (s_bytes s) Hi2). rewrite decide_False in HQ by tauto.
    replace (set_bytes (s_bytes s) (set_dev d2 s)) with (set_dev d2 s) in HQ by (by destruct s). apply HQ; [|done|apply only_refl].
    unfold mac_of. rewrite Hc2. cbn [s_dev set_dev]. rewrite Hc1, fn_lookup_insert, fn_lookup_insert_ne, fn_lookup_insert by done.
    rewrite El, Eh, !u32_small by (unfold byte in *; lia). rewrite word_bytes_le by done.
    pose proof (word_bytes_le m4 m5 0 0 B4 B5 ltac:(done) ltac:(done)) as E. replace (m4 + 2 ^ 8 * m5 + 2 ^ 16 * 0 + 2 ^ 24 * 0) with (m4 + 2 ^ 8 * m5) in E by lia.
    by rewrite E.
Qed.

End mac.

(** ** What is sent *)

(** What the chip takes from the words of a frame in its FIFO, by the data sheet:
    the two command words have the offset of the data in the first word, the
    size of the buffer, the length of the frame and its tag. A frame in one
    buffer has both segment bits and the same size twice. *)
Definition tx_frame (ws : list Z) : option (Z * list Z) :=
  match ws with
  | a :: b :: data =>
      let offset := Z.land (Z.shiftr a 16) 0x1f in
      let size := Z.land a 0x7ff in
      if Z.testbit a 13 && Z.testbit a 12 && (size =? Z.land b 0x7ff) then
        Some (Z.shiftr b 16, take (Z.to_nat size) (drop (Z.to_nat offset) (concat (map word_bytes data))))
      else None
  | _ => None
  end.

Definition push_all (ws : list Z) (d : D) : D := fold_left (fun d w => nic_write TX_DATA_FIFO w d) ws d.

(** The space in the FIFO that the next read of [TX_FIFO_INF] tells. *)
Definition tx_space (d : D) : Z := Z.land (u32 (nic_read TX_FIFO_INF d).1) TX_FIFO_INF_TDFREE.

Lemma wp_send_wait n len count s (Q : bool -> smc_state D -> Prop) : Z.of_nat n = 102 - count -> (0 < n)%nat ->
  (forall k, (k < n)%nat -> (forall j, (j < k)%nat -> tx_space (polls TX_FIFO_INF j (s_dev s)) < len) ->
     len <= tx_space (polls TX_FIFO_INF k (s_dev s)) -> Q true (set_dev (polls TX_FIFO_INF (S k) (s_dev s)) s)) ->
  ((forall j, (j < n)%nat -> tx_space (polls TX_FIFO_INF j (s_dev s)) < len) -> Q false (set_dev (polls TX_FIFO_INF n (s_dev s)) s)) ->
  wp (send_wait n len count) Q s.
Proof.
  revert count s. induction n as [|n IH]; intros count s Hn H0 Hok Hno; [lia|]. cbn [send_wait]. apply wp_bind, wp_reg_read.
  fold (tx_space (s_dev s)). destruct (Z.leb_spec len (tx_space (s_dev s))) as [Hle|Hlt].
  { apply wp_ret, (Hok 0%nat); [lia|lia|done]. }
  assert (forall k, (forall j, (j < k)%nat -> tx_space (polls TX_FIFO_INF j (nic_read TX_FIFO_INF (s_dev s)).2) < len) ->
    forall j, (j < S k)%nat -> tx_space (polls TX_FIFO_INF j (s_dev s)) < len) as Hshift.
  { intros k Hk [|j] Hj; [done|]. apply Hk. lia. }
  rewrite Z.gtb_ltb. destruct (Z.ltb_spec 100 count) as [Hc|Hc].
  - assert (n = 0%nat) as -> by lia. apply wp_ret, Hno. apply Hshift. lia.
  - apply IH; [lia|lia| |].
    + intros k Hk Hb Hle. apply (Hok (S k)); [lia|by apply Hshift|done].
    + intros Hb. apply Hno. by apply Hshift.
Qed.

(** The words at [a] are pushed, with all their bytes. *)
Lemma wp_push_words n a l s (Q : unit -> smc_state D -> Prop) :
  arr (s_bytes s) a l -> length l = (4 * n)%nat -> Forall byte l ->
  (forall ws, concat (map word_bytes ws) = l -> Q tt (set_dev (push_all ws (s_dev s)) s)) -> wp (push_words n a) Q s.
Proof.
  revert a l s. induction n as [|n IH]; intros a l s Ha Hl Hb HQ; cbn [push_words].
  { destruct l; [|done]. apply wp_ret. replace s with (set_dev (push_all [] (s_dev s)) s) by (by destruct s). by apply HQ. }
  destruct l as [|b0 [|b1 [|b2 [|b3 l]]]]; cbn [length] in Hl; try lia.
  rewrite !Forall_cons in Hb. destruct Hb as (B0 & B1 & B2 & B3 & Hb).
  change (b0 :: b1 :: b2 :: b3 :: l) with ([b0; b1; b2; b3] ++ l) in *. apply arr_app in Ha as [Ha Hr].
  pose proof (word_bytes_le b0 b1 b2 b3 B0 B1 B2 B3) as E. rewrite <- E in Ha. set (v := _ + _ + _ + _) in *.
  assert (u32 v = v) as Ev by (apply u32_small; unfold v, byte in *; lia).
  apply wp_bind, wp_bytes. eapply wp_ldw; [exact Ha|]. rewrite Ev. apply wp_bind, wp_modify. rewrite Ev.
  apply (IH _ l); [exact Hr|cbn in Hl; lia|done|]. intros ws Ews. cbn [s_dev set_dev set_bytes].
  replace (set_dev _ _) with (set_dev (push_all (v :: ws) (s_dev s)) s) by (by destruct s). apply HQ. cbn [map concat]. by rewrite E, Ews.
Qed.

Lemma wp_lwipprint msg s (Q : unit -> smc_state D -> Prop) :
  length (lwiplog (s_log s)) = Z.to_nat LWIPLOG_ENTRIES -> 0 <= lwipidx (s_log s) < LWIPLOG_ENTRIES ->
  (forall l, Q tt (set_log l s)) -> wp (LWIPPRINT msg) Q s.
Proof.
  intros Hl Hi HQ. unfold wp, LWIPPRINT, print_log.
  destruct (lookup_lt_is_Some_2 (lwiplog (s_log s)) (Z.to_nat (lwipidx (s_log s)))) as [e ->]; [unfold LWIPLOG_ENTRIES in *; lia|].
  apply HQ.
Qed.

(** The command words of a frame of [n] bytes behind [o] bytes of a word. *)
Lemma command_a n o : 0 <= n < 2 ^ 11 -> 0 <= o < 4 ->
  u32 (Z.lor (Z.lor (Z.lor TX_CMD_A_INT_FIRST_SEG TX_CMD_A_INT_LAST_SEG) n) (Z.shiftl o 16)) = n + 2 ^ 11 * (6 + 32 * o).
Proof.
  intros Hn Ho. change (Z.lor TX_CMD_A_INT_FIRST_SEG TX_CMD_A_INT_LAST_SEG) with (Z.shiftl 6 11). rewrite (Z.lor_comm _ n), (lor_above n 6 11) by lia.
  rewrite lor_above by lia. rewrite u32_small; lia.
Qed.

Lemma command_b n q : 0 <= n < 2 ^ 11 -> u32 (Z.lor n (u32 (Z.shiftl q 16))) = n + 2 ^ 11 * (32 * (q mod 2 ^ 16)).
Proof.
  intros Hn. assert (u32 (Z.shiftl q 16) = Z.shiftl (q mod 2 ^ 16) 16) as ->.
  { rewrite !Z.shiftl_mul_pow2 by lia. unfold u32, wrapu. change (2 ^ 32) with (2 ^ 16 * 2 ^ 16). by rewrite Z.mul_mod_distr_r. }
  pose proof (Z.mod_pos_bound q (2 ^ 16) ltac:(lia)). rewrite lor_above by lia. rewrite u32_small; lia.
Qed.

Lemma tx_frame_commands n o q data : 0 <= n < 2 ^ 11 -> 0 <= o < 4 ->
  tx_frame (n + 2 ^ 11 * (6 + 32 * o) :: n + 2 ^ 11 * (32 * (q mod 2 ^ 16)) :: data) =
  Some (q mod 2 ^ 16, take (Z.to_nat n) (drop (Z.to_nat o) (concat (map word_bytes data)))).
Proof.
  intros Hn Ho. pose proof (Z.mod_pos_bound q (2 ^ 16) ltac:(lia)). unfold tx_frame. change 0x7ff with (Z.ones 11). change 0x1f with (Z.ones 5).
  rewrite !Z.land_ones, !Z.shiftr_div_pow2, !(Z.mul_comm (2 ^ 11)), !Z.mod_add, !(Z.mod_small n) by lia. rewrite Z.eqb_refl.
  assert (forall k, 0 <= k -> Z.testbit (n + (6 + 32 * o) * 2 ^ 11) (k + 11) = Z.testbit (6 + 32 * o) k) as Hb.
  { intros k Hk. rewrite <- Z.div_pow2_bits, Z.div_add, Z.div_small by lia. done. }
  pose proof (Hb 2 ltac:(lia)) as H13. pose proof (Hb 1 ltac:(lia)) as H12. change (2 + 11) with 13 in H13. change (1 + 11) with 12 in H12. rewrite H13, H12.
  assert (Z.testbit (6 + 32 * o) 2 && Z.testbit (6 + 32 * o) 1 = true) as ->.
  { assert (o = 0 \/ o = 1 \/ o = 2 \/ o = 3) as [->|[->|[->| ->]]] by lia; done. }
  cbn [andb]. assert ((n + (6 + 32 * o) * 2 ^ 11) / 2 ^ 16 = o) as -> by (symmetry; apply (Z.div_unique _ _ _ (n + 6 * 2 ^ 11)); lia).
  rewrite (Z.mod_small o) by lia. do 2 f_equal. symmetry. apply (Z.div_unique _ _ _ n); lia.
Qed.

(** The errors that [eth_send] looks for in the status of the transmission. *)
Definition tx_failed (d : D) : bool := nz (Z.land (u32 (nic_read TX_STATUS_FIFO d).1) TX_ERRORS).

(** [eth_send] of the bytes [l] at [p], with the rest of their first and last
    word: it gives up after 102 reads that find too little space; otherwise the
    chip gets the frame. *)
Lemma wp_eth_send p pre l post s (Q : Z -> smc_state D -> Prop) :
  0 <= p < 2 ^ 32 -> Z.of_nat (length pre) = p mod 4 -> Z.of_nat (length l) < 2 ^ 11 ->
  Z.of_nat (length (pre ++ l ++ post)) = 4 * ((p mod 4 + Z.of_nat (length l) + 3) / 4) ->
  Forall byte (pre ++ l ++ post) -> arr (s_bytes s) (p - p mod 4) (pre ++ l ++ post) ->
  length (lwiplog (s_log s)) = Z.to_nat LWIPLOG_ENTRIES -> 0 <= lwipidx (s_log s) < LWIPLOG_ENTRIES ->
  let need := 4 * ((Z.of_nat (length l) + 3) / 4) in
  ((forall j, (j < 102)%nat -> tx_space (polls TX_FIFO_INF j (s_dev s)) < need) ->
     forall log, Q ESMC_SEND (set_log log (set_dev (polls TX_FIFO_INF 102 (s_dev s)) s))) ->
  (forall k ws d2 log, (k < 102)%nat -> need <= tx_space (polls TX_FIFO_INF k (s_dev s)) ->
     tx_frame ws = Some (s_seqcnt s mod 2 ^ 16, l) -> d2 = push_all ws (polls TX_FIFO_INF (S k) (s_dev s)) ->
     Q (if tx_failed d2 then ESMC_SEND else ESMC_OK)
       (mk_smc (nic_read TX_STATUS_FIFO d2).2 (s_bytes s) (u32 (s_seqcnt s + 1)) log (s_time s))) ->
  wp (eth_send p (Z.of_nat (length l))) Q s.
Proof.
  intros Hp Hpre Hn Hlen Hb Ha Hl Hi need Hno Hok. set (n := Z.of_nat (length l)) in *. set (o := p mod 4) in *.
  assert (0 <= o < 4) as Ho by (apply Z.mod_pos_bound; lia). assert (0 <= n) by (unfold n; lia).
  assert (Z.land p 0x3 = o) as Eo by (change 0x3 with (Z.ones 2); by rewrite Z.land_ones).
  assert (forall x, 0 <= x < 2 ^ 32 -> Z.land x (u32 (Z.lnot 0x3)) = 4 * (x / 4)) as Hal.
  { intros x Hx. change 0x3 with (2 ^ 2 - 1). rewrite land_lnot_ones by lia. change (2 ^ 2) with 4. lia. }
  unfold eth_send. rewrite Eo, (u32_small (n + 3)), (u32_small (n + 3 + o)), !Hal by lia. fold need.
  apply wp_bind, wp_send_wait; [done|lia| |].
  - intros k Hk _ Hsp. cbn [negb]. apply wp_bind, wp_modify. rewrite command_a by lia. apply wp_bind, wp_gets. apply wp_bind, wp_modify.
    rewrite command_b by lia. apply wp_bind, wp_modify. cbn [s_seqcnt set_dev s_dev].
    apply wp_bind, (wp_push_words _ _ (pre ++ l ++ post)); [| |done|].
    { cbn [s_bytes set_seqcnt set_dev]. replace (4 * (p / 4)) with (p - o); [done|]. unfold o. pose proof (Z.div_mod p 4 ltac:(lia)). lia. }
    { rewrite Z.shiftr_div_pow2 by lia. change (2 ^ 2) with 4. replace (n + 3 + o) with (o + n + 3) by lia.
      assert (0 <= (o + n + 3) / 4) by (apply Z.div_pos; lia). lia. }
    intros ws Ews. apply wp_bind, wp_reg_read. cbn [s_dev set_dev set_seqcnt].
    set (frame := n + 2 ^ 11 * (6 + 32 * o) :: n + 2 ^ 11 * (32 * (s_seqcnt s mod 2 ^ 16)) :: ws).
    assert (tx_frame frame = Some (s_seqcnt s mod 2 ^ 16, l)) as Ef.
    { unfold frame. rewrite tx_frame_commands, Ews by lia. do 2 f_equal. rewrite drop_app_length' by lia. apply take_app_length'. lia. }
    pose proof (fun log => Hok k frame _ log Hk Hsp Ef eq_refl) as HQ. clear Hok. unfold tx_failed in HQ.
    change (push_all frame ?d) with (push_all ws (nic_write TX_DATA_FIFO (n + 2 ^ 11 * (32 * (s_seqcnt s mod 2 ^ 16)))
      (nic_write TX_DATA_FIFO (n + 2 ^ 11 * (6 + 32 * o)) d))) in HQ.
    set (d2 := push_all ws _) in *. fold d2. destruct (nz (Z.land (u32 (nic_read TX_STATUS_FIFO d2).1) TX_ERRORS)); cbn [negb].
    + apply wp_bind, wp_lwipprint; [done|done|]. intros log. apply wp_ret. exact (HQ log).
    + apply wp_ret. exact (HQ (s_log s)).
  - intros Hsp. cbn [negb]. apply wp_bind, wp_lwipprint; [done|done|]. intros log. apply wp_ret. by apply Hno.
Qed.

(** A chip that stays in reset keeps [eth_init] in its loop: [tmout] is decremented
    twice in each round and is odd when it is compared, so it is never zero there. *)
Lemma reset_wait_stuck n tmout s : (forall d, nz (Z.land (u32 (nic_read HW_CFG d).1) HW_CFG_SRST) = true) ->
  0 <= tmout < 2 ^ 32 -> tmout mod 2 = 0 -> reset_wait n tmout s = None.
Proof.
  intros Hd. revert tmout s. induction n as [|n IH]; intros tmout s Ht Hev; [done|]. cbn [reset_wait]. unfold bind, reg_read.
  specialize (Hd (s_dev s)). destruct (nic_read HW_CFG (s_dev s)) as [v d]. cbn [fst] in Hd. rewrite Hd, andb_true_r.
  assert (u32 (tmout - 1) mod 2 = 1 /\ 0 <= u32 (tmout - 1) < 2 ^ 32) as [Hodd Hr].
  { split; [|apply Z.mod_pos_bound; lia]. unfold u32, wrapu. change (2 ^ 32) with (2 * 2 ^ 31). rewrite Z.mod_mod_divide by (by exists (2 ^ 31)).
    rewrite Zminus_mod, Hev. done. }
  destruct (Z.gtb_spec (u32 (tmout - 1)) 0) as [Hpos|Hz]; [|assert (u32 (tmout - 1) = 0) as E by lia; by rewrite E in Hodd].
  apply IH; [apply Z.mod_pos_bound; lia|]. rewrite u32_small by lia. rewrite Zminus_mod, Hodd. done.
Qed.

End driver.
