(* ===== verification/Logger.v ===== *)
(** * The reader of the system log

    The order of the entries in [read_log] of user/ulibc/libc/logger.c. The ring of
    the kernel is given as the reader gets it, an array that starts anywhere;
    [read_log] looks for the place where the time goes back, and notes for each
    entry the thread that was running. [read_system_log], which copies the ring,
    is not part of the sources. The variable [thread] has no value before the
    first switch: it is an argument. *)

From Stdlib Require Import ZArith Lia.
From stdpp Require Import base tactics gmap option list sorting.
From S2P Require Import Prelude Bits Mem Queue Kstate Syslog.

Open Scope Z_scope.

Definition SWITCH : Z := -0x01.

(** [syslog[i]] *)
Definition entry (l : list log_entry_t) (i : nat) : log_entry_t := nth i l zero_log_entry.

(** [for (i=0; i<(k-1); i++) if (syslog[i+1].time < syslog[i].time) break;]: [n]
    rounds are left. *)
Fixpoint get_start (l : list log_entry_t) (n i : nat) : nat :=
  match n with
  | O => i
  | S n => if log_time (entry l (S i)) <? log_time (entry l i) then i else get_start l n (S i)
  end.

Definition start_item (l : list log_entry_t) : nat := get_start l (length l - 1) 0.

(** The search of the first switch, from behind [n]. *)
Fixpoint first_thread (l : list log_entry_t) (k n : nat) (thread : Z) : Z :=
  match k with
  | O => thread
  | S k =>
      let n := (S n mod length l)%nat in
      if log_event (entry l n) =? SWITCH then arg1 (entry l n) else first_thread l k n thread
  end.

(** The entries in order, each with its thread. *)
Fixpoint sort_log (l : list log_entry_t) (k i : nat) (thread : Z) : list (log_entry_t * Z) :=
  match k with
  | O => []
  | S k =>
      let i := (S i mod length l)%nat in
      let e := entry l i in
      (e, thread) :: sort_log l k i (if log_event e =? SWITCH then arg2 e else thread)
  end.

(** [log_table] of [read_log]. *)
Definition log_table (thread : Z) (l : list log_entry_t) : list (log_entry_t * Z) :=
  let i := start_item l in
  sort_log l (length l) i (first_thread l (length l) i thread).

(** ** The order *)

(** What was logged, from the oldest entry on. *)
Definition log_seq (l : log_mod) : list log_entry_t :=
  drop (Z.to_nat (log_index l)) (system_log l) ++ take (Z.to_nat (log_index l)) (system_log l).

(** The thread that ran when an entry was made: the last one that was switched to,
    or the one that the first switch left. *)
Fixpoint contexts (thread : Z) (l : list log_entry_t) : list (log_entry_t * Z) :=
  match l with
  | [] => []
  | e :: l => (e, thread) :: contexts (if log_event e =? SWITCH then arg2 e else thread) l
  end.

Fixpoint switched_out (thread : Z) (l : list log_entry_t) : Z :=
  match l with
  | [] => thread
  | e :: l => if log_event e =? SWITCH then arg1 e else switched_out thread l
  end.

Section order.
Implicit Types (l : list log_entry_t).

Definition in_time l : Prop := forall i j e e', (i < j)%nat -> l !! i = Some e -> l !! j = Some e' -> log_time e <= log_time e'.

(** The [k] entries behind [i], around the ring. *)
Fixpoint around l (k i : nat) : list log_entry_t :=
  match k with
  | O => []
  | S k => let i := (S i mod length l)%nat in entry l i :: around l k i
  end.

Lemma sort_log_around l k i thread : sort_log l k i thread = contexts thread (around l k i).
Proof. revert i thread. induction k as [|k IH]; intros i thread; [done|]. cbn. by rewrite IH. Qed.

Lemma first_thread_around l k i thread : first_thread l k i thread = switched_out thread (around l k i).
Proof. revert i. induction k as [|k IH]; intros i; [done|]. cbn [first_thread around switched_out]. by rewrite IH. Qed.

Lemma entry_lookup l i : (i < length l)%nat -> l !! i = Some (entry l i).
Proof. intros Hi. destruct (lookup_lt_is_Some_2 l i Hi) as [e E]. rewrite E. f_equal. symmetry. unfold entry. by apply nth_lookup_Some. Qed.

Lemma around_lookup l k i j : (i < length l)%nat -> (j < k)%nat -> around l k i !! j = Some (entry l ((S i + j) mod length l)).
Proof.
  revert i j. induction k as [|k IH]; intros i j Hi Hj; [lia|]. cbn [around]. destruct j as [|j].
  - cbn. by rewrite Nat.add_0_r.
  - cbn [lookup list_lookup]. change (list_lookup j (around l k (S i mod length l))) with (around l k (S i mod length l) !! j).
    rewrite IH by (try apply Nat.mod_upper_bound; lia). do 2 f_equal.
    replace (S (S i mod length l) + j)%nat with (S i mod length l + S j)%nat by lia. rewrite Nat.Div0.add_mod_idemp_l. f_equal.
Qed.

Lemma around_length l k i : length (around l k i) = k.
Proof. revert i. induction k as [|k IH]; intros i; [done|]. cbn. by rewrite IH. Qed.

(** From behind [i] once around: the ring turned. *)
Lemma around_turn l i : (i < length l)%nat -> around l (length l) i = drop (S i) l ++ take (S i) l.
Proof.
  intros Hi. apply list_eq. intros j. destruct (decide (j < length l)%nat) as [Hj|Hj].
  - rewrite around_lookup by done. destruct (decide (S i + j < length l)%nat) as [Hlt|Hge].
    + rewrite Nat.mod_small by done. rewrite lookup_app_l by (rewrite length_drop; lia). by rewrite lookup_drop, entry_lookup.
    + rewrite lookup_app_r by (rewrite length_drop; lia). rewrite length_drop, lookup_take_lt by lia.
      replace ((S i + j) mod length l)%nat with (j - (length l - S i))%nat; [rewrite entry_lookup; [done|lia]|].
      symmetry. replace (S i + j)%nat with (j - (length l - S i) + 1 * length l)%nat by lia. rewrite Nat.Div0.mod_add. apply Nat.mod_small. lia.
  - rewrite !lookup_ge_None_2; [done|rewrite length_app, length_drop, length_take; lia|rewrite around_length; lia].
Qed.

(** The loop stops where the time goes back. *)
Lemma get_start_stops l n i d : (i <= d)%nat -> (d < i + n)%nat ->
  (forall j, (i <= j < d)%nat -> log_time (entry l j) <= log_time (entry l (S j))) -> log_time (entry l (S d)) < log_time (entry l d) -> get_start l n i = d.
Proof.
  revert i. induction n as [|n IH]; intros i Hd Hn Hup Hdown; [lia|]. cbn [get_start]. destruct (Z.ltb_spec (log_time (entry l (S i))) (log_time (entry l i))) as [Hlt|Hge].
  - destruct (decide (i = d)) as [|Hne]; [done|]. pose proof (Hup i ltac:(lia)). lia.
  - apply IH; [|lia| |done]; [destruct (decide (i = d)) as [->|]; lia|]. intros j Hj. apply Hup. lia.
Qed.

Lemma get_start_none l n i : (forall j, (i <= j < i + n)%nat -> log_time (entry l j) <= log_time (entry l (S j))) -> get_start l n i = (i + n)%nat.
Proof.
  revert i. induction n as [|n IH]; intros i Hup; [cbn; lia|]. cbn [get_start]. pose proof (Hup i ltac:(lia)).
  destruct (Z.ltb_spec (log_time (entry l (S i))) (log_time (entry l i))); [lia|]. rewrite IH; [lia|]. intros j Hj. apply Hup. lia.
Qed.

Lemma in_time_entry l i j : in_time l -> (i <= j)%nat -> (j < length l)%nat -> log_time (entry l i) <= log_time (entry l j).
Proof.
  intros Hs Hij Hj. destruct (decide (i = j)) as [->|Hne]; [lia|]. apply (Hs i j); [lia|apply entry_lookup; lia|by apply entry_lookup].
Qed.

Lemma entry_drop l n i : entry (drop n l) i = entry l (n + i).
Proof. unfold entry. rewrite !nth_lookup. by rewrite lookup_drop. Qed.

Lemma in_time_turn l n : in_time (drop n l ++ take n l) -> (n <= length l)%nat ->
  (forall j, (S j < n)%nat -> log_time (entry l j) <= log_time (entry l (S j))) /\
  (forall j, (n <= j)%nat -> (S j < length l)%nat -> log_time (entry l j) <= log_time (entry l (S j))).
Proof.
  intros Hs Hn. split.
  - intros j Hj. apply (Hs (length l - n + j) (length l - n + S j))%nat; [lia|..];
      rewrite lookup_app_r by (rewrite length_drop; lia); rewrite length_drop, lookup_take_lt, <- entry_lookup by lia; f_equal; lia.
  - intros j H1 H2. apply (Hs (j - n) (S j - n))%nat; [lia|..];
      rewrite lookup_app_l by (rewrite length_drop; lia); rewrite lookup_drop, <- entry_lookup by lia; f_equal; lia.
Qed.

(** The start is the newest entry. *)
Lemma start_item_newest l n : in_time (drop n l ++ take n l) -> (n < length l)%nat ->
  n = 0%nat \/ log_time (entry l n) < log_time (entry l (n - 1)) ->
  S (start_item l) = n \/ (n = 0%nat /\ S (start_item l) = length l).
Proof.
  intros Hs Hn Hw. destruct (in_time_turn l n Hs ltac:(lia)) as [H1 H2]. unfold start_item.
  destruct (decide (n = 0%nat)) as [->|Hne].
  - right. split; [done|]. rewrite get_start_none; [lia|]. intros j Hj. apply H2; lia.
  - left. destruct Hw as [|Hw]; [done|]. rewrite (get_start_stops l _ 0 (n - 1)); [lia|lia|lia| |].
    + intros j Hj. apply H1. lia.
    + by replace (S (n - 1)) with n by lia.
Qed.
End order.

(** The table that [read_log] prints is what was logged, oldest first, each entry
    with the thread that ran; the time must be later at the newest entry than
    at the oldest one when the ring starts in the middle. *)
Theorem log_table_in_order thread l : log_ok l -> in_time (log_seq l) ->
  log_index l = 0 \/ log_time (entry (system_log l) (Z.to_nat (log_index l))) < log_time (entry (system_log l) (Z.to_nat (log_index l) - 1)) ->
  log_table thread (system_log l) = contexts (switched_out thread (log_seq l)) (log_seq l).
Proof.
  intros [Hlen Hi] Hs Hw. unfold log_table. rewrite sort_log_around, first_thread_around.
  assert (around (system_log l) (length (system_log l)) (start_item (system_log l)) = log_seq l) as E; [|by rewrite E].
  destruct (start_item_newest (system_log l) (Z.to_nat (log_index l)) Hs) as [E|[E0 E]]; [lia|destruct Hw as [->|]; [by left|by right]| |].
  - rewrite around_turn, E by lia. done.
  - rewrite around_turn, E by lia. unfold log_seq. rewrite E0. rewrite drop_all, firstn_all. cbn. by rewrite app_nil_r.
Qed.

(** [write_log] drops the oldest entry and adds one at the end. *)
Theorem write_log_appends ev a1 a2 s : log_ok (k_log s) ->
  exists l e, write_log ev a1 a2 s = Some (tt, set_k_log l s) /\ log_seq l = tl (log_seq (k_log s)) ++ [e] /\
    log_time e = u32 (system_time (k_time s)) /\ log_event e = i16 ev /\ arg1 e = i16 a1 /\ arg2 e = i16 a2.
Proof.
  intros [Hlen Hi]. unfold write_log. set (g := k_log s) in *. set (n := Z.to_nat (log_index g)).
  destruct (lookup_lt_is_Some_2 (system_log g) n) as [e E]; [lia|]. rewrite E.
  eexists _, (mk_log_entry (u32 (system_time (k_time s))) (i16 ev) (i16 a1) (i16 a2) (arg3 e)). split; [reflexivity|]. split; [|done]. unfold log_seq. cbn [log_index system_log]. fold n.
  set (x := mk_log_entry _ _ _ _ _). assert (S n <= length (system_log g))%nat as Hn by lia.
  assert (drop n (system_log g) = e :: drop (S n) (system_log g)) as Ed by (by apply drop_S). rewrite Ed. cbn [tl app]. rewrite <- app_assoc.
  assert (take n (system_log g) ++ [x] = take (S n) (<[n := x]> (system_log g))) as ->.
  { erewrite take_S_r; [|apply list_lookup_insert_eq; lia]. by rewrite take_insert_ge by lia. }
  destruct (decide (S n = length (system_log g))) as [El|El].
  - assert (Z.rem (log_index g + 1) CONFIG_SYSLOG_SIZE = 0) as ->.
    { replace (log_index g + 1) with CONFIG_SYSLOG_SIZE by (unfold CONFIG_SYSLOG_SIZE in *; lia). done. }
    cbn [Z.to_nat]. rewrite drop_0, take_0, app_nil_r. rewrite drop_ge by lia. cbn. by rewrite take_ge by (rewrite length_insert; lia).
  - rewrite Z.rem_small by (unfold CONFIG_SYSLOG_SIZE in *; lia). replace (Z.to_nat (log_index g + 1)) with (S n) by lia.
    by rewrite drop_insert_lt by lia.
Qed.
