(* ===== verification/Tring.v ===== *)
(** * The reception of Ethernet frames

    The transport ring of the network driver: [eth_rx] and [smc911x_handle_int] of
    smc9218.c, [tring_int_handler], [low_level_output] and the pools of
    [ethernetif_init] of ethernetif.c, and [clear_request] of transport.h. A
    frame is moved from the chip by a chain of DMA descriptors, one for each
    buffer of the pbuf that lwIP gives; a request keeps both chains and waits in
    a queue while another one is active. Descriptors and requests come from
    block pools (mpool.c).

    [pbuf_alloc] of lwIP is an argument. The calls that leave the driver, to the
    DMA controller and to lwIP, are recorded in the order in which they are made. *)

From Stdlib Require Import ZArith Lia String.
From stdpp Require Import base tactics gmap option functions list.
From S2P Require Import Prelude Bits Mem Queue Mpool Bytes Smc911x.

Open Scope string_scope.
Open Scope Z_scope.
Open Scope kernel_scope.

(** ** Structures in memory *)

(** The halves of a word, and a word with one half replaced. *)
Definition lo16 (w : Z) : Z := w mod 2 ^ 16.
Definition hi16 (w : Z) : Z := (w / 2 ^ 16) mod 2 ^ 16.
Definition put_lo (w v : Z) : Z := 2 ^ 16 * (w / 2 ^ 16) + u16 v.
Definition put_hi (w v : Z) : Z := lo16 w + 2 ^ 16 * u16 v.

Definition st_lo (a v : Z) : M (gmap Z Z) unit := let* w := load a in store a (put_lo w v).
Definition st_hi (a v : Z) : M (gmap Z Z) unit := let* w := load a in store a (put_hi w v).

(** [struct dma_descriptor]: [config] and [x_count] share a word, as do [x_modify]
    and [y_count]. *)
Definition d_next (d : Z) : Z := d.
Definition d_start_addr (d : Z) : Z := d + 4.
Definition d_config (d : Z) : Z := d + 8.
Definition d_x_count (d : Z) : Z := d + 8.
Definition d_x_modify (d : Z) : Z := d + 12.
Definition sizeof_dma_descriptor : Z := 20.

(** [struct tring_request]; its list node is in the store of the lists. *)
Definition r_flags (r : Z) : Z := r.
Definition r_src (r : Z) : Z := r + 4.
Definition r_dst (r : Z) : Z := r + 8.
Definition r_pbuf (r : Z) : Z := r + 12.
Definition sizeof_tring_request : Z := 28.

(** [struct pbuf] of lwIP: [len] is the upper half of its third word. *)
Definition p_next (q : Z) : Z := q.
Definition p_payload (q : Z) : Z := q + 4.
Definition p_len (q : Z) : Z := q + 8.

Definition PBUF_POOL_SIZE : Z := 64.
Definition LWIP_DPOOL_SIZE : Z := PBUF_POOL_SIZE.
Definition DMA_POOL_SIZE : Z := 2 * LWIP_DPOOL_SIZE.
Definition TRING_CHAIN_RX : Z := 1.

Definition DMAEN : Z := 0x1.
Definition WNR : Z := 0x2.
Definition WDSIZE_32 : Z := 0x8.
Definition DI_EN : Z := 0x80.
Definition NDSIZE_9 : Z := 0x0900.
Definition DMAFLOW_LARGE : Z := 0x7000.

(** The port interrupt register of the processor and its bit for the chip. *)
Definition PINT2_REQUEST : Z := 0xffc01468.
Definition PE6 : Z := 0x0040.

(** ** The routines on memory *)

(** The body of the loop of [eth_rx]: both descriptors describe buffer [q]. *)
Definition fill_desc (q src dst : Z) : M (gmap Z Z) unit :=
  store (d_start_addr src) RX_DATA_FIFO ;;;
  st_lo (d_config src) (Z.lor (Z.lor (Z.lor DMAFLOW_LARGE NDSIZE_9) WDSIZE_32) DMAEN) ;;;
  let* w := load (p_len q) in
  st_hi (d_x_count src) (Z.shiftr (hi16 w) 2) ;;;
  st_lo (d_x_modify src) 0 ;;;
  let* payload := load (p_payload q) in
  store (d_start_addr dst) payload ;;;
  st_lo (d_config dst) (Z.lor (Z.lor (Z.lor (Z.lor DMAFLOW_LARGE NDSIZE_9) WDSIZE_32) WNR) DMAEN) ;;;
  let* w := load (p_len q) in
  st_hi (d_x_count dst) (Z.shiftr (hi16 w) 2) ;;;
  st_lo (d_x_modify dst) 4.

(** [while (dst != NULL && src != NULL)]: the last descriptors, NULL when the
    pool is exhausted. Every round but the last takes a descriptor. *)
Fixpoint fill_chain (fuel : nat) (pool q src dst : Z) : M (gmap Z Z) (Z * Z) :=
  match fuel with
  | O => fault
  | S fuel =>
      if negb (nz dst) || negb (nz src) then ret (src, dst) else
      fill_desc q src dst ;;;
      let* q := load (p_next q) in
      if negb (nz q) then ret (src, dst) else
      let* d := mpalloc pool in
      store (d_next dst) d ;;;
      let* s := mpalloc pool in
      store (d_next src) s ;;;
      fill_chain fuel pool q s d
  end.

(** [for (d = d0; d != NULL; d = d->next) mpfree(pool, d);]: a chain that does not
    end is longer than memory. *)
Fixpoint free_chain (fuel : nat) (pool d : Z) : M (gmap Z Z) unit :=
  match fuel with
  | O => fault
  | S fuel =>
      if negb (nz d) then ret tt else
      mpfree pool d ;;;
      let* n := load (d_next d) in
      free_chain fuel pool n
  end.

Definition chain_fuel (m : gmap Z Z) : nat := S (S (base.size m)).

(** [clear_request(r)] with the two pools of the driver. *)
Definition clear_request (request_pool desc_pool r : Z) : M (gmap Z Z) unit :=
  let* src := load (r_src r) in
  let* fuel := gets chain_fuel in
  free_chain fuel desc_pool src ;;;
  let* dst := load (r_dst r) in
  let* fuel := gets chain_fuel in
  free_chain fuel desc_pool dst ;;;
  mpfree request_pool r.

(** ** The state of the driver *)

Inductive net_call :=
  | Launch (ch src dst : Z)      (* mdma_launch_transfer *)
  | AckInt (ch : Z)              (* mdma_ack_int *)
  | Input (p : Z).               (* tcpip_input *)

Record tring_state (D : Type) := mk_tring {
  t_smc : smc_state D;
  t_words : gmap Z Z;
  t_lists : gmap laddr linked_list_t;
  eth_request_queue : queue_t;
  eth_active_request : Z;
  eth_request_pool : Z;
  eth_dma_desc_pool : Z;
  eth_dma_channel : Z;
  t_calls : list net_call
}.

Arguments mk_tring {D}.
Arguments t_smc {D}.
Arguments t_words {D}.
Arguments t_lists {D}.
Arguments eth_request_queue {D}.
Arguments eth_active_request {D}.
Arguments eth_request_pool {D}.
Arguments eth_dma_desc_pool {D}.
Arguments eth_dma_channel {D}.
Arguments t_calls {D}.

Section driver.
Context {D : Type} {N : Nic D}.

Local Abbreviation TM := (M (tring_state D)).

Definition set_smc (c : smc_state D) (s : tring_state D) : tring_state D :=
  mk_tring c (t_words s) (t_lists s) (eth_request_queue s) (eth_active_request s) (eth_request_pool s)
    (eth_dma_desc_pool s) (eth_dma_channel s) (t_calls s).
Definition set_words (m : gmap Z Z) (s : tring_state D) : tring_state D :=
  mk_tring (t_smc s) m (t_lists s) (eth_request_queue s) (eth_active_request s) (eth_request_pool s)
    (eth_dma_desc_pool s) (eth_dma_channel s) (t_calls s).
Definition set_queue (l : gmap laddr linked_list_t) (q : queue_t) (s : tring_state D) : tring_state D :=
  mk_tring (t_smc s) (t_words s) l q (eth_active_request s) (eth_request_pool s)
    (eth_dma_desc_pool s) (eth_dma_channel s) (t_calls s).
Definition set_active (r : Z) (s : tring_state D) : tring_state D :=
  mk_tring (t_smc s) (t_words s) (t_lists s) (eth_request_queue s) r (eth_request_pool s)
    (eth_dma_desc_pool s) (eth_dma_channel s) (t_calls s).
Definition set_rings (rp dp ch : Z) (s : tring_state D) : tring_state D :=
  mk_tring (t_smc s) (t_words s) (t_lists s) (eth_request_queue s) (eth_active_request s) rp dp ch (t_calls s).
Definition add_call (c : net_call) (s : tring_state D) : tring_state D :=
  mk_tring (t_smc s) (t_words s) (t_lists s) (eth_request_queue s) (eth_active_request s) (eth_request_pool s)
    (eth_dma_desc_pool s) (eth_dma_channel s) (t_calls s ++ [c]).

Definition chip {A} (m : M (smc_state D) A) : TM A := zoom t_smc set_smc m.
Definition words {A} (m : M (gmap Z Z) A) : TM A := zoom t_words set_words m.
Definition call (c : net_call) : TM unit := modify (add_call c).

Definition mdma_launch (src dst : Z) : TM unit := let* ch := gets eth_dma_channel in call (Launch ch src dst).

(** ** Receiving *)

(** [request->pbuf = p; request->src = mpalloc(...); ...] and the loop. *)
Definition build_request (request p : Z) : TM (Z * Z) :=
  if negb (nz request) then fault else
  let* pool := gets eth_dma_desc_pool in
  words (store (r_pbuf request) p) ;;;
  let* src := words (mpalloc pool) in
  words (store (r_src request) src) ;;;
  let* dst := words (mpalloc pool) in
  words (store (r_dst request) dst) ;;;
  words (store (r_flags request) TRING_CHAIN_RX) ;;;
  words (fill_chain (S (Z.to_nat DMA_POOL_SIZE)) pool p src dst).

(** [if (!eth_active_request) ... else queue_insert(...)] *)
Definition start_request (request : Z) : TM unit :=
  let* active := gets eth_active_request in
  if negb (nz active) then
    modify (set_active request) ;;;
    let* src := words (load (r_src request)) in
    let* dst := words (load (r_dst request)) in
    mdma_launch src dst
  else
    modify (fun s =>
      let l := <[ReqQue request := mk_list None None (Some (OReq request))]> (t_lists s) in
      let '(l, q) := queue_insert l (eth_request_queue s) (ReqQue request) in
      set_queue l q s).

(** [eth_rx] with the pbuf [p]. *)
Definition eth_rx_request (p : Z) : TM Z :=
  (* Create a new request, chaining DMA descriptors *)
  let* rp := gets eth_request_pool in
  let* request := words (mpalloc rp) in
  let* '(src, dst) := build_request request p in
  if (src =? NULL) || (dst =? NULL) then
    let* dp := gets eth_dma_desc_pool in
    words (clear_request rp dp request) ;;;
    chip (LWIPPRINT "Not Enough memory for packet reception") ;;;
    ret ESMC_RCV
  else
  (* Last descriptor must stop DMA chain *)
  words (st_lo (d_config src) (Z.lor WDSIZE_32 DMAEN)) ;;;
  words (st_lo (d_config dst) (Z.lor (Z.lor (Z.lor DI_EN WDSIZE_32) WNR) DMAEN)) ;;;
  (* Activate or enqueue request *)
  start_request request ;;;
  ret ESMC_OK.

Section receive.
Variable pbuf_alloc : Z -> M (gmap Z Z) Z.

Definition eth_rx : TM Z :=
  let* status := chip (reg_read RX_STATUS_FIFO) in
  (* Check packet status *)
  if nz (Z.land status RX_STS_ES) then
    chip (LWIPPRINT "Dropped bad packet") ;;; ret ESMC_RCV
  else
  (* Received packet length *)
  let pktlen := Z.land (Z.shiftr (Z.land status RX_STS_PKT_LEN) 16) 0x07ff in
  chip (reg_write RX_CFG 0) ;;;
  (* We allocate a pbuf chain of pbufs from the pool *)
  let* p := words (pbuf_alloc (pktlen + 2 + 3)) in
  if p =? NULL then
    chip (LWIPPRINT "Not Enough memory for packet reception") ;;; ret ESMC_RCV
  else
  eth_rx_request p.

(** Both ends of the first branch do the same as the end of the function. *)
Definition smc911x_handle_int : TM unit :=
  (* Read interrupt mask and disable interrupts *)
  let* mask := chip (reg_read INT_EN) in
  chip (reg_write INT_EN 0) ;;;
  let* v := chip (reg_read INT_STS) in
  let stat := Z.land v mask in
  (* The interrupt has been caused by the reception FIFO *)
  when (nz (Z.land stat INT_STS_RSFL))
    (chip (reg_write INT_STS INT_STS_RSFL) ;;;
     let* _ := eth_rx in
     ret tt) ;;;
  (* Acknowledge interrupt *)
  chip (reg_write PINT2_REQUEST PE6) ;;;
  (* Re-enable interrupts *)
  chip (reg_write INT_EN mask).

End receive.

(** [for (q = p; q != NULL; q = q->next) tcpip_input(q, netif);] *)
Fixpoint input_chain (fuel : nat) (q : Z) : TM unit :=
  match fuel with
  | O => fault
  | S fuel =>
      if negb (nz q) then ret tt else
      call (Input q) ;;;
      let* n := words (load (p_next q)) in
      input_chain fuel n
  end.

(** The end of a DMA transfer. *)
Definition tring_int_handler : TM unit :=
  (* Acknowledge interrupt *)
  let* ch := gets eth_dma_channel in
  call (AckInt ch) ;;;
  let* active := gets eth_active_request in
  (* If receive operation, queue received packets *)
  let* flags := words (load (r_flags active)) in
  when (nz (Z.land flags TRING_CHAIN_RX))
    (let* p := words (load (r_pbuf active)) in
     let* fuel := gets (fun s => chain_fuel (t_words s)) in
     input_chain fuel p ;;;
     chip (LWIPPRINT "Packet Received")) ;;;
  (* Free request resources *)
  let* rp := gets eth_request_pool in
  let* dp := gets eth_dma_desc_pool in
  words (clear_request rp dp active) ;;;
  (* Check if there are ready descriptors to add to the chain *)
  let* head := gets (fun s => queue_get_head (t_lists s) (eth_request_queue s)) in
  match head with
  | Some _ =>
      let* o := (fun s => let '(o, l, q) := queue_extract (t_lists s) (eth_request_queue s) in Some (o, set_queue l q s)) in
      match o with
      | Some (OReq r) =>
          modify (set_active r) ;;;
          let* src := words (load (r_src r)) in
          let* dst := words (load (r_dst r)) in
          mdma_launch src dst
      | _ => fault
      end
  | None => modify (set_active NULL)
  end.

(** ** Sending *)

(** [for (q = p; q != NULL; q = q->next) eth_send(q->payload, q->len);] *)
Fixpoint output_chain (fuel : nat) (q : Z) : TM unit :=
  match fuel with
  | O => fault
  | S fuel =>
      if negb (nz q) then ret tt else
      let* payload := words (load (p_payload q)) in
      let* w := words (load (p_len q)) in
      chip (eth_send payload (hi16 w)) ;;;
      let* n := words (load (p_next q)) in
      output_chain fuel n
  end.

(** It returns [ERR_OK] also when nothing was sent. *)
Definition low_level_output (p : Z) : TM Z :=
  let* fuel := gets (fun s => chain_fuel (t_words s)) in
  output_chain fuel p ;;;
  ret 0.

(** ** Initialization *)

(** The pools of [ethernetif_init], in the memory that [sys_malloc] gave, with the
    channel that [mdma_allocate_channel] gave; [kernel_panic] does not return. *)
Definition init_rings (desc_pool request_pool channel : Z) : TM unit :=
  if negb (nz desc_pool) then fault else
  words (init_pool desc_pool sizeof_dma_descriptor DMA_POOL_SIZE) ;;;
  if negb (nz request_pool) then fault else
  words (init_pool request_pool sizeof_tring_request LWIP_DPOOL_SIZE) ;;;
  if channel <? 0 then fault else
  modify (set_rings request_pool desc_pool channel).

(** The sizes that [ethernetif_init] asks [sys_malloc] for. *)
Definition desc_pool_bytes : Z := POOL_SIZE DMA_POOL_SIZE sizeof_dma_descriptor.
Definition request_pool_bytes : Z := POOL_SIZE LWIP_DPOOL_SIZE sizeof_tring_request.

End driver.
