(* ===== verification/TringChain.v ===== *)
(** * The chains of descriptors of a transfer

    What the DMA controller executes: the descriptors that the driver takes from
    its pool, the loop of [eth_rx] that fills them in, and the queue of the
    requests that wait. *)

From Stdlib Require Import ZArith Lia.
From stdpp Require Import base tactics gmap option functions list list_numbers.
From S2P Require Import Prelude Bits Mem Queue Mpool Bytes Smc911x Tring.

Open Scope Z_scope.
Open Scope kernel_scope.

(** ** The blocks that a pool gives *)

(** The address of the data of block [j]. *)
Definition data (p sz j : Z) : Z := block p sz j + 4.

(** The pool gives the blocks [av], in this order: the free list, and then the
    part never used. *)
Definition pool_has (m : gmap Z Z) (p sz n : Z) (av : list Z) : Prop :=
  exists k fl, pool_ok m p sz n k fl /\ av = map (fun b => b + 4) fl ++ map (data p sz) (seqZ k (n - k)).

(** The bytes of the pool, with its blocks. *)
Definition pool_end (p sz n : Z) : Z := mp_base p + n * stride sz.
Definition in_pool (p sz n a : Z) : Prop := p <= a < pool_end p sz n.

(** The words that the pool itself uses to give [av]. *)
Definition pool_word (p : Z) (av : list Z) (a : Z) : Prop := p <= a < mp_base p \/ a + 4 ∈ av.

Section pools.
Implicit Types (m : gmap Z Z) (p sz n j d : Z) (av : list Z).

Lemma pool_has_block m p sz n av d : pool_has m p sz n av -> d ∈ av -> exists j, 0 <= j < n /\ d = data p sz j.
Proof.
  intros (k & fl & H & ->) [Hd|Hd]%elem_of_app.
  - apply list_elem_of_fmap in Hd as (b & -> & Hb). destruct (pk_blk _ _ _ _ _ _ H b Hb) as (j & Hj & ->).
    exists j. split; [|done]. pose proof (pk_room _ _ _ _ _ _ H). lia.
  - apply list_elem_of_fmap in Hd as (j & -> & Hj%elem_of_seqZ). exists j. split; [|done].
    pose proof (pk_room _ _ _ _ _ _ H). lia.
Qed.

Lemma data_inj p sz i j : 0 <= sz -> data p sz i = data p sz j -> i = j.
Proof. unfold data. intros Hs E. apply (block_inj p sz i j Hs). lia. Qed.

Lemma pool_has_NoDup m p sz n av : pool_has m p sz n av -> NoDup av.
Proof.
  intros (k & fl & H & ->). apply NoDup_app. pose proof (pk_size _ _ _ _ _ _ H) as [Hs _]. split_and!.
  - apply NoDup_fmap; [intros ? ? ?; lia|]. apply H.
  - intros d Hd Hf. apply list_elem_of_fmap in Hd as (b & -> & Hb). destruct (pk_blk _ _ _ _ _ _ H b Hb) as (j & Hj & ->).
    apply list_elem_of_fmap in Hf as (i & E & Hi%elem_of_seqZ). apply (data_inj p sz j i Hs) in E. lia.
  - apply NoDup_fmap; [intros i j; by apply data_inj|]. apply NoDup_seqZ.
Qed.

Lemma pool_has_mem m m' p sz n av : pool_has m p sz n av -> (forall a, pool_word p av a -> peek m' a = peek m a) ->
  pool_has m' p sz n av.
Proof.
  intros (k & fl & H & E) Hm. exists k, fl. split; [|done]. apply (pool_ok_mem m); [done|]. intros a [Ha|Ha]; apply Hm; [by left|].
  right. rewrite E. apply elem_of_app. left. apply list_elem_of_fmap. by exists a.
Qed.

Lemma wp_mpalloc_has m p sz n av (Q : Z -> gmap Z Z -> Prop) : pool_has m p sz n av ->
  match av with
  | [] => Q NULL m
  | d :: av' => forall m', pool_has m' p sz n av' -> (forall a, ~ pool_word p [d] a -> peek m' a = peek m a) -> Q d m'
  end -> wp (mpalloc p) Q m.
Proof.
  intros (k & fl & H & E) HQ. apply (wp_mpalloc m p sz n k fl); [done|].
  assert (forall m' b, pool_frame m m' p b -> forall a, ~ pool_word p [b + 4] a -> peek m' a = peek m a) as Hf.
  { intros m' b Hm a Ha. unfold pool_word in Ha. rewrite list_elem_of_singleton in Ha. apply Hm; intros ->; apply Ha; offsets. }
  destruct fl as [|b fl].
  - destruct (Z.eqb_spec k n) as [->|Hne].
    + rewrite Z.sub_diag in E. cbn in E. by subst av.
    + pose proof (pk_room _ _ _ _ _ _ H) as [Hk _]. rewrite seqZ_cons in E by lia. cbn [map app] in E. subst av. intros m' Hm Hfr. apply HQ.
      * exists (k + 1), []. split; [done|]. cbn. f_equal. f_equal; lia.
      * by apply Hf.
  - cbn [map app] in E. subst av. intros m' Hm Hfr. apply HQ; [|by apply Hf]. by exists k, fl.
Qed.

(** A block that is not there comes back to the front. *)
Lemma wp_mpfree_has m p sz n av j (Q : unit -> gmap Z Z -> Prop) : pool_has m p sz n av -> 0 <= j < n -> data p sz j ∉ av ->
  (forall m', pool_has m' p sz n (data p sz j :: av) -> (forall a, ~ pool_word p [data p sz j] a -> peek m' a = peek m a) -> Q tt m') ->
  wp (mpfree p (data p sz j)) Q m.
Proof.
  intros (k & fl & H & E) Hj Hn HQ. rewrite E, not_elem_of_app in Hn. destruct Hn as [Hn1 Hn2]. unfold data.
  assert (j < k) as Hjk.
  { destruct (Z.lt_ge_cases j k) as [|Hge]; [done|]. destruct Hn2. apply list_elem_of_fmap. exists j. split; [done|]. apply elem_of_seqZ. lia. }
  apply (wp_mpfree m p sz n k fl j); [done|lia| |].
  { intros Hb. apply Hn1. apply list_elem_of_fmap. by exists (block p sz j). }
  intros m' Hm Hfr. apply HQ.
  - exists k, (block p sz j :: fl). split; [done|]. by rewrite E.
  - intros a Ha. unfold pool_word in Ha. rewrite list_elem_of_singleton in Ha. unfold data in Ha. apply Hfr; intros ->; apply Ha; offsets.
Qed.

(** The data of a block: its words are valid and in the pool. *)
Lemma data_word m p sz n av j i : pool_has m p sz n av -> 0 <= j < n -> 0 <= i -> 4 * i < sz ->
  valid_addr (data p sz j + 4 * i) = true /\ mp_base p < data p sz j + 4 * i < pool_end p sz n.
Proof.
  intros (k & fl & H & _) Hj Hi Hs. pose proof (pk_base _ _ _ _ _ _ H) as [Hp Hm]. pose proof (pk_size _ _ _ _ _ _ H) as [Hs0 _].
  assert (mp_base p + 4 <= data p sz j) by (unfold data, block, stride, sizeof_mpool_block, sizeof_ptr; nia).
  split.
  - apply valid_addr_spec. split; [offsets|]. unfold data, block, mp_base, stride, sizeof_mpool_block.
    replace (p + 20 + j * (4 * (sz + sizeof_ptr)) + 4 + 4 * i) with (p + (6 + j * (sz + sizeof_ptr) + i) * 4) by lia.
    by rewrite Z_mod_plus_full.
  - split; [lia|]. unfold pool_end, data, block, stride, sizeof_mpool_block, sizeof_ptr in *. nia.
Qed.

Lemma pool_word_in m p sz n av l a : pool_has m p sz n av -> 0 < sz -> (forall e, e ∈ l -> exists j, 0 <= j < n /\ e = data p sz j) ->
  pool_word p l a -> in_pool p sz n a.
Proof.
  intros H Hs Hl [Ha|Ha].
  - destruct H as (k & fl & Hok & _). pose proof (pk_room _ _ _ _ _ _ Hok) as [Hk _]. unfold in_pool, pool_end, stride, sizeof_mpool_block, sizeof_ptr. nia.
  - destruct (Hl _ Ha) as (j & Hj & E). pose proof (data_word m p sz n av j 0 H Hj ltac:(lia) ltac:(lia)).
    pose proof (block_above p sz j ltac:(lia) ltac:(lia)). unfold in_pool, data in *. offsets.
Qed.

(** A pool while another one is used. *)
Lemma pool_has_apart m m' p sz n av p' sz' n' : pool_has m p sz n av -> 0 < sz ->
  (forall a, in_pool p sz n a -> ~ in_pool p' sz' n' a) -> (forall a, ~ in_pool p' sz' n' a -> peek m' a = peek m a) -> pool_has m' p sz n av.
Proof.
  intros H Hs Hap Hm. apply (pool_has_mem m); [done|]. intros a Ha. apply Hm, Hap. apply (pool_word_in m p sz n av av a H Hs); [|done].
  intros e He. by apply (pool_has_block m p sz n av).
Qed.

(** Different blocks have different words. *)
Lemma data_apart p sz i j : 0 <= sz -> i <> j -> Z.abs (data p sz i - data p sz j) >= stride sz.
Proof. intros Hs Hij. unfold data, block. assert (0 <= stride sz) by (unfold stride, sizeof_mpool_block, sizeof_ptr; nia). nia. Qed.


Definition is_block p sz n d : Prop := exists j, 0 <= j < n /\ d = data p sz j.

(** The words of a block in use. *)
Lemma block_in m p sz n av d : pool_has m p sz n av -> 16 < sz -> is_block p sz n d ->
  0 < d /\ d mod 4 = 0 /\ forall a, d <= a < d + 16 -> in_pool p sz n a.
Proof.
  intros H Hs (j & Hj & ->).
  destruct (data_word m p sz n av j 0 H Hj ltac:(lia) ltac:(lia)) as [V0 I0], (data_word m p sz n av j 4 H Hj ltac:(lia) ltac:(lia)) as [_ I4].
  rewrite Z.add_0_r in V0. apply valid_addr_spec in V0. destruct H as (k & fl & Hok & _). pose proof (pk_base _ _ _ _ _ _ Hok).
  split_and!; [offsets|tauto|]. intros a Ha. unfold in_pool. offsets.
Qed.

(** The data of a block are not words of the pool. *)
Lemma data_not_word p sz n d l a : 16 <= sz -> is_block p sz n d -> (forall e, e ∈ l -> is_block p sz n e) -> d <= a < d + 16 -> ~ pool_word p l a.
Proof.
  intros Hs (i & Hi & Ed) Hl Ha. pose proof (block_above p sz i ltac:(lia) ltac:(lia)). intros [?|He]; [unfold data in *; offsets|].
  destruct (Hl _ He) as (j & Hj & Ej). assert (i <> j) as Hij by (intros ->; lia). pose proof (data_apart p sz i j ltac:(lia) Hij) as Hap.
  rewrite <- Ed, <- Ej in Hap. unfold stride, sizeof_mpool_block, sizeof_ptr in Hap. lia.
Qed.
End pools.

(** ** Descriptors *)

(** What the controller reads from a descriptor. *)
Record desc := mk_desc { x_start : Z; x_config : Z; x_words : Z; x_step : Z }.

Definition desc_at (m : gmap Z Z) (d : Z) : desc :=
  mk_desc (peek m (d_start_addr d)) (lo16 (peek m (d_config d))) (hi16 (peek m (d_x_count d))) (lo16 (peek m (d_x_modify d))).

(** The next flow of a configuration: zero stops the controller. *)
Definition flow (config : Z) : Z := Z.land (Z.shiftr config 12) 7.

(** The descriptors that the controller executes from [d]: the first one with no
    next flow is the last. *)
Fixpoint dma_walk (fuel : nat) (m : gmap Z Z) (d : Z) : option (list desc) :=
  match fuel with
  | O => None
  | S fuel =>
      let x := desc_at m d in
      if flow (x_config x) =? 0 then Some [x] else (fun l => x :: l) <$> dma_walk fuel m (peek m (d_next d))
  end.

(** The buffers of a pbuf: address, payload and length. *)
Record rxbuf := mk_rxbuf { b_addr : Z; b_payload : Z; b_len : Z }.

Fixpoint pbufs (m : gmap Z Z) (q : Z) (bs : list rxbuf) : Prop :=
  match bs with
  | [] => q = NULL
  | b :: bs => q = b_addr b /\ 0 < q /\ q mod 4 = 0 /\ peek m (p_payload q) = b_payload b /\
      hi16 (peek m (p_len q)) = b_len b /\ pbufs m (peek m (p_next q)) bs
  end.

(** Whole words from the FIFO of the chip to the buffer. *)
Definition SRC_CHAIN : Z := 0x7909.
Definition DST_CHAIN : Z := 0x790b.
Definition SRC_STOP : Z := 0x9.
Definition DST_STOP : Z := 0x8b.

Definition src_desc (config : Z) (b : rxbuf) : desc := mk_desc RX_DATA_FIFO config (b_len b / 4) 0.
Definition dst_desc (config : Z) (b : rxbuf) : desc := mk_desc (b_payload b) config (b_len b / 4) 4.

Section halves.
Lemma lo_put_lo w v : lo16 (put_lo w v) = u16 v.
Proof.
  unfold lo16, put_lo, u16, wrapu. rewrite Z.add_comm, Z.mul_comm, Z.mod_add by lia. apply Z.mod_mod. lia.
Qed.
Lemma hi_put_lo w v : hi16 (put_lo w v) = hi16 w.
Proof.
  unfold hi16, put_lo. pose proof (Z.mod_pos_bound v (2 ^ 16) ltac:(lia)). do 1 f_equal. symmetry. unfold u16, wrapu.
  apply (Z.div_unique _ _ _ (v mod 2 ^ 16)); lia.
Qed.
Lemma lo_put_hi w v : lo16 (put_hi w v) = lo16 w.
Proof. unfold lo16, put_hi, lo16. rewrite (Z.mul_comm (2 ^ 16)), Z.mod_add by lia. apply Z.mod_mod. lia. Qed.
Lemma hi_put_hi w v : hi16 (put_hi w v) = u16 v.
Proof.
  unfold hi16, put_hi, lo16. pose proof (Z.mod_pos_bound w (2 ^ 16) ltac:(lia)). pose proof (Z.mod_pos_bound v (2 ^ 16) ltac:(lia)).
  assert ((w mod 2 ^ 16 + 2 ^ 16 * u16 v) / 2 ^ 16 = u16 v) as -> by (symmetry; apply (Z.div_unique _ _ _ (w mod 2 ^ 16)); lia).
  unfold u16, wrapu. apply Z.mod_mod. lia.
Qed.

Lemma hi16_words w : u16 (Z.shiftr (hi16 w) 2) = hi16 w / 4.
Proof.
  assert (0 <= hi16 w < 2 ^ 16) by (apply Z.mod_pos_bound; lia). rewrite Z.shiftr_div_pow2 by lia. change (2 ^ 2) with 4.
  unfold u16, wrapu. apply Z.mod_small. split; [apply Z.div_pos; lia|]. apply Z.div_lt_upper_bound; lia.
Qed.

Lemma wp_st_lo m a v (Q : unit -> gmap Z Z -> Prop) : valid_addr a = true ->
  Q tt (<[a := put_lo (peek m a) v]> m) -> wp (st_lo a v) Q m.
Proof. intros Ha HQ. by apply wp_bind, wp_load, wp_store. Qed.

Lemma wp_st_hi m a v (Q : unit -> gmap Z Z -> Prop) : valid_addr a = true ->
  Q tt (<[a := put_hi (peek m a) v]> m) -> wp (st_hi a v) Q m.
Proof. intros Ha HQ. by apply wp_bind, wp_load, wp_store. Qed.
End halves.

(** The first four words of a descriptor. *)
Definition desc_valid (d : Z) : Prop := forall i, 0 <= i < 4 -> valid_addr (d + 4 * i) = true.

(** The words that are written when a descriptor is filled in. *)
Definition in_fields (d a : Z) : Prop := d + 4 <= a < d + 16.

Lemma desc_at_mem m m' d : (forall a, in_fields d a -> peek m' a = peek m a) -> desc_at m' d = desc_at m d.
Proof. intros H. unfold desc_at, d_start_addr, d_config, d_x_count, d_x_modify. rewrite !H by (unfold in_fields; lia). done. Qed.

Lemma wp_fill_desc m q src dst (Q : unit -> gmap Z Z -> Prop) :
  desc_valid src -> desc_valid dst -> Z.abs (src - dst) >= 16 -> 0 < q -> q mod 4 = 0 ->
  ~ in_fields src (p_payload q) -> ~ in_fields src (p_len q) -> ~ in_fields dst (p_len q) ->
  let b := mk_rxbuf q (peek m (p_payload q)) (hi16 (peek m (p_len q))) in
  (forall m', desc_at m' src = src_desc SRC_CHAIN b -> desc_at m' dst = dst_desc DST_CHAIN b ->
     (forall a, ~ in_fields src a -> ~ in_fields dst a -> peek m' a = peek m a) -> Q tt m') ->
  wp (fill_desc q src dst) Q m.
Proof.
  intros Vs Vd Hap Hq Hqm N1 N2 N3 b HQ. pose proof (Vs 1 ltac:(lia)) as Vs1. pose proof (Vs 2 ltac:(lia)) as Vs2. pose proof (Vs 3 ltac:(lia)) as Vs3.
  pose proof (Vd 1 ltac:(lia)) as Vd1. pose proof (Vd 2 ltac:(lia)) as Vd2. pose proof (Vd 3 ltac:(lia)) as Vd3.
  assert (forall i, 0 <= i -> valid_addr (q + 4 * i) = true) as Vq.
  { intros i Hi. apply valid_addr_spec. split; [lia|]. rewrite (Z.mul_comm 4), Z_mod_plus_full. done. }
  unfold in_fields, p_payload, p_len in *. unfold fill_desc, d_start_addr, d_config, d_x_count, d_x_modify, p_len, p_payload.
  apply wp_bind, wp_store; [done|]. apply wp_bind, wp_st_lo; [done|]. apply wp_bind, wp_load; [by apply (Vq 2)|].
  apply wp_bind, wp_st_hi; [done|]. apply wp_bind, wp_st_lo; [done|]. apply wp_bind, wp_load; [by apply (Vq 1)|].
  apply wp_bind, wp_store; [done|]. apply wp_bind, wp_st_lo; [done|]. apply wp_bind, wp_load; [by apply (Vq 2)|].
  apply wp_bind, wp_st_hi; [done|]. apply wp_st_lo; [done|]. apply HQ.
  all: unfold desc_at, d_start_addr, d_config, d_x_count, d_x_modify.
  - repeat first [rewrite peek_insert_eq | rewrite peek_insert_ne by lia]. rewrite lo_put_hi, !lo_put_lo, hi_put_hi, hi16_words. done.
  - repeat first [rewrite peek_insert_eq | rewrite peek_insert_ne by lia]. rewrite lo_put_hi, !lo_put_lo, hi_put_hi, hi16_words. done.
  - intros a A1 A2. by rewrite !peek_insert_ne by lia.
Qed.

(** ** Chains of descriptors *)

(** The descriptors at [ss] hold [xs] and each one links to the next. *)
Fixpoint dma_chain (m : gmap Z Z) (ss : list Z) (xs : list desc) : Prop :=
  match ss, xs with
  | [], [] => True
  | s :: ss, x :: xs => desc_at m s = x /\ (forall s', ss !! 0%nat = Some s' -> peek m (d_next s) = s') /\ dma_chain m ss xs
  | _, _ => False
  end.

Section chains.
Context (p n : Z).
Local Abbreviation sz := sizeof_dma_descriptor.

Definition is_desc (d : Z) : Prop := is_block p sz n d.

Definition in_desc (d a : Z) : Prop := d <= a < d + 16.

Lemma desc_apart d e : is_desc d -> is_desc e -> d <> e -> Z.abs (d - e) >= 96.
Proof. intros (i & Hi & ->) (j & Hj & ->) Hne. apply (data_apart p sz i j); [done|]. by intros ->. Qed.

Lemma desc_above d : is_desc d -> mp_base p < d.
Proof. intros (j & Hj & ->). unfold data, block, stride, sizeof_mpool_block, sizeof_ptr, sizeof_dma_descriptor. lia. Qed.

Lemma desc_has m av d : pool_has m p sz n av -> is_desc d -> desc_valid d /\ forall a, in_desc d a -> in_pool p sz n a.
Proof.
  intros H (j & Hj & ->). split.
  - intros i Hi. apply (data_word m p sz n av j i H Hj); unfold sizeof_dma_descriptor; lia.
  - intros a Ha. pose proof (data_word m p sz n av j 0 H Hj ltac:(lia) ltac:(done)) as [_ Ha0].
    pose proof (data_word m p sz n av j 4 H Hj ltac:(lia) ltac:(done)) as [_ Ha4]. unfold in_desc, in_pool in *. offsets.
Qed.

Lemma desc_not_word d l a : is_desc d -> (forall e, e ∈ l -> is_desc e) -> in_desc d a -> ~ pool_word p l a.
Proof. by apply data_not_word. Qed.

Lemma desc_not_desc d e a : is_desc d -> is_desc e -> d <> e -> in_desc d a -> ~ in_desc e a.
Proof. intros Hd He Hne Ha Hb. pose proof (desc_apart d e Hd He Hne). unfold in_desc in *. lia. Qed.

Lemma dma_chain_mem m m' ss xs : (forall d a, d ∈ ss -> in_desc d a -> peek m' a = peek m a) -> dma_chain m ss xs -> dma_chain m' ss xs.
Proof.
  revert xs. induction ss as [|s ss IH]; intros [|x xs]; try done. intros Hm (Hx & Hn & Hc). cbn [dma_chain]. split_and!.
  - rewrite <- Hx. apply desc_at_mem. intros a Ha. apply (Hm s); [left|]. unfold in_fields, in_desc in *. lia.
  - intros s' Hs. rewrite <- (Hn s' Hs). apply (Hm s); [left|]. unfold in_desc, d_next. lia.
  - apply IH; [|done]. intros d a Hd. apply Hm. by right.
Qed.

Lemma dma_chain_walk m ss xs x : dma_chain m ss (xs ++ [x]) -> Forall (fun y => flow (x_config y) <> 0) xs -> flow (x_config x) = 0 ->
  forall s, ss !! 0%nat = Some s -> dma_walk (length ss) m s = Some (xs ++ [x]).
Proof.
  revert ss. induction xs as [|y xs IH]; intros [|s ss] Hc Hf Hx s0 [= ->]; try done; cbn [app dma_chain] in Hc; destruct Hc as (Hd & Hn & Hc).
  - destruct ss; [|done]. cbn [length dma_walk app]. rewrite Hd, Hx. done.
  - apply Forall_cons in Hf as [Hy Hf]. cbn [length dma_walk]. rewrite Hd. destruct (Z.eqb_spec (flow (x_config y)) 0) as [|_]; [done|].
    destruct ss as [|s ss]; [destruct xs; done|]. rewrite (Hn s) by done. by rewrite (IH (s :: ss) Hc Hf Hx s).
Qed.

(** The buffers are outside of the pool. *)
Definition bufs_apart (bs : list rxbuf) : Prop :=
  forall b a, b ∈ bs -> b_addr b <= a < b_addr b + 12 -> ~ in_pool p sz n a.

Lemma pbufs_mem m m' q bs : (forall b a, b ∈ bs -> b_addr b <= a < b_addr b + 12 -> peek m' a = peek m a) -> pbufs m q bs -> pbufs m' q bs.
Proof.
  revert q. induction bs as [|b bs IH]; intros q Hm; [done|]. intros (-> & Hq & Hqm & Hp & Hl & Hn). cbn [pbufs].
  unfold p_payload, p_len, p_next in *. rewrite !(Hm b) by (left || lia). split_and!; try done. apply IH; [|done]. intros b' a Hb. apply Hm. by right.
Qed.

(** The next two descriptors are linked to the current ones. *)
Lemma wp_link {A} m src dst d s av (k : Z -> Z -> M (gmap Z Z) A) (Q : A -> gmap Z Z -> Prop) :
  pool_has m p sz n (d :: s :: av) -> is_desc src -> is_desc dst -> src <> dst -> src ∉ d :: s :: av -> dst ∉ d :: s :: av ->
  (forall m', pool_has m' p sz n av -> peek m' (d_next dst) = d -> peek m' (d_next src) = s ->
     (forall a, ~ pool_word p [d; s] a -> a <> src -> a <> dst -> peek m' a = peek m a) -> wp (k s d) Q m') ->
  wp (let* d := mpalloc p in store (d_next dst) d ;;; let* s := mpalloc p in store (d_next src) s ;;; k s d) Q m.
Proof.
  intros H Hs Hd Hne Ns Nd HQ. pose proof (pool_has_block _ _ _ _ _ d H ltac:(left)) as Dd. pose proof (pool_has_block _ _ _ _ _ s H ltac:(right; left)) as Ds.
  pose proof (fun e He => pool_has_block _ _ _ _ _ e H He) as Hall. fold (is_desc d) in Dd. fold (is_desc s) in Ds.
  destruct (desc_has _ _ src H Hs) as [Vs _]. destruct (desc_has _ _ dst H Hd) as [Vd _].
  pose proof (Vs 0 ltac:(lia)) as Vs0. pose proof (Vd 0 ltac:(lia)) as Vd0. unfold d_next. rewrite Z.add_0_r in Vs0, Vd0.
  assert (forall l e, (forall x, x ∈ l -> x ∈ d :: s :: av) -> is_desc e -> ~ pool_word p l e) as Nw.
  { intros l e Hl He. apply (desc_not_word e l e He); [|unfold in_desc; lia]. intros x Hx. apply Hall, Hl, Hx. }
  apply wp_bind. eapply wp_mpalloc_has; [exact H|]. cbn beta iota. intros m1 H1 F1. apply wp_bind, wp_store; [done|].
  apply wp_bind. eapply wp_mpalloc_has.
  { apply (pool_has_mem m1); [exact H1|]. intros a Ha. apply peek_insert_ne. intros <-. revert Ha. apply Nw; [|done]. intros x Hx. by right. }
  cbn beta iota. intros m2 H2 F2. apply wp_bind, wp_store; [done|]. apply HQ.
  - apply (pool_has_mem m2); [done|]. intros a Ha. apply peek_insert_ne. intros <-. revert Ha. apply Nw; [|done]. intros x Hx. right. by right.
  - unfold d_next. rewrite peek_insert_ne by done. rewrite F2, peek_insert_eq; [done|]. apply Nw; [|done]. intros x ->%list_elem_of_singleton. right. left.
  - unfold d_next. by rewrite peek_insert_eq.
  - intros a Ha A1 A2. rewrite peek_insert_ne by done. rewrite F2, peek_insert_ne, F1; try done; intros [?|?]; apply Ha; (by left) || right;
      set_solver.
Qed.

(** The descriptors at [src] and [dst] are those of the first buffer. *)
Definition filled (m : gmap Z Z) (b : rxbuf) (src dst : Z) : Prop :=
  desc_at m src = src_desc SRC_CHAIN b /\ desc_at m dst = dst_desc DST_CHAIN b.

(** One round of the loop, up to the next buffer. *)
Lemma wp_fill_first {A} m q src dst av b bs (k : Z -> M (gmap Z Z) A) (Q : A -> gmap Z Z -> Prop) :
  pbufs m q (b :: bs) -> bufs_apart (b :: bs) -> pool_has m p sz n av -> is_desc src -> is_desc dst -> src <> dst ->
  (forall m', filled m' b src dst -> pool_has m' p sz n av -> pbufs m' (peek m (p_next q)) bs ->
     (forall a, ~ in_fields src a -> ~ in_fields dst a -> peek m' a = peek m a) -> wp (k (peek m (p_next q))) Q m') ->
  wp (fill_desc q src dst ;;; let* q := load (p_next q) in k q) Q m.
Proof.
  intros (-> & Hq & Hqm & Hpl & Hln & Hnx) Hap H Hs Hd Hne HQ. pose proof (fun e He => pool_has_block _ _ _ _ _ e H He) as Hall.
  destruct (desc_has _ _ src H Hs) as [Vs Is]. destruct (desc_has _ _ dst H Hd) as [Vd Id].
  assert (forall b' a, b' ∈ b :: bs -> b_addr b' <= a < b_addr b' + 12 -> ~ in_fields src a /\ ~ in_fields dst a) as Hout.
  { intros b' a Hb' Ha. pose proof (Hap b' a Hb' Ha) as Hno. split; intros Hin; apply Hno; [apply Is|apply Id]; unfold in_fields, in_desc in *; lia. }
  pose proof (fun a => Hout b a ltac:(left)) as Hb.
  apply wp_bind, wp_fill_desc; [done|done|pose proof (desc_apart _ _ Hs Hd Hne); lia|done|done|apply Hb; unfold p_payload, p_len; lia..|].
  cbn zeta. rewrite Hpl, Hln. intros m1 S1 D1 F1. replace (mk_rxbuf (b_addr b) (b_payload b) (b_len b)) with b in S1, D1 by (by destruct b).
  assert (peek m1 (p_next (b_addr b)) = peek m (p_next (b_addr b))) as En by (apply F1; apply Hb; unfold p_next; lia).
  apply wp_bind, wp_load; [apply valid_addr_spec; unfold p_next; lia|]. rewrite En. apply HQ; [done| | |done].
  - apply (pool_has_mem m); [done|]. intros a Ha. apply F1; intros Hin; unfold in_fields in Hin.
    + apply (desc_not_word src av a Hs Hall); [unfold in_desc; lia|done].
    + apply (desc_not_word dst av a Hd Hall); [unfold in_desc; lia|done].
  - apply (pbufs_mem m); [|done]. intros b' a Hb' Ha. apply F1; apply (Hout b'); [by right|done|by right|done].
Qed.

Lemma desc_not_null m av d : pool_has m p sz n av -> is_desc d -> nz d = true.
Proof.
  intros (k & fl & Hok & _) Hd. pose proof (desc_above d Hd). pose proof (pk_base _ _ _ _ _ _ Hok). apply negb_true_iff, Z.eqb_neq. offsets.
Qed.

Lemma dma_chain_cons m s ss s0 x xs : desc_at m s = x -> ss !! 0%nat = Some s0 -> peek m (d_next s) = s0 -> dma_chain m ss xs ->
  dma_chain m (s :: ss) (x :: xs).
Proof. intros Hx H0 Hn Hc. cbn [dma_chain]. split_and!; [done| |done]. intros s' Hs'. congruence. Qed.

(** The loop takes two descriptors for each further buffer. *)
Lemma wp_fill_chain fuel bs m q src dst av (Q : Z * Z -> gmap Z Z -> Prop) :
  (length bs <= fuel)%nat -> bs <> [] -> pbufs m q bs -> bufs_apart bs -> pool_has m p sz n av -> (2 * (length bs - 1) <= length av)%nat ->
  is_desc src -> is_desc dst -> src <> dst -> src ∉ av -> dst ∉ av ->
  (forall m' ss ds av' s' d', length ss = length bs -> length ds = length bs -> ss !! 0%nat = Some src -> ds !! 0%nat = Some dst ->
     ss ++ ds ++ av' ≡ₚ src :: dst :: av ->
     last ss = Some s' -> last ds = Some d' ->
     dma_chain m' ss (map (src_desc SRC_CHAIN) bs) -> dma_chain m' ds (map (dst_desc DST_CHAIN) bs) -> pool_has m' p sz n av' ->
     (forall a, ~ pool_word p av a -> (forall d, d ∈ src :: dst :: av -> ~ in_desc d a) -> peek m' a = peek m a) -> Q (s', d') m') ->
  wp (fill_chain fuel p q src dst) Q m.
Proof.
  revert bs m q src dst av. induction fuel as [|fuel IH]; intros bs m q src dst av Hf Hb Hq Hap H Hav Hs Hd Hne Ns Nd HQ; [destruct bs; [done|cbn in Hf; lia]|].
  destruct bs as [|b bs]; [done|]. cbn [fill_chain]. rewrite (desc_not_null _ _ src H Hs), (desc_not_null _ _ dst H Hd). cbn [negb orb].
  apply (wp_fill_first m q src dst av b bs); try done. intros m1 [S1 D1] H1 Hnx F1.
  destruct bs as [|b2 bs].
  { cbn [pbufs] in Hnx. rewrite Hnx. cbn [nz negb NULL Z.eqb]. apply wp_ret, (HQ m1 [src] [dst] av); try done. intros a _ Ha.
    pose proof (Ha src ltac:(left)). pose proof (Ha dst ltac:(right; left)). apply F1; unfold in_fields, in_desc in *; lia. }
  assert (nz (peek m (p_next q)) = true) as -> by (destruct Hnx as (_ & Hpos & _); apply negb_true_iff, Z.eqb_neq; lia).
  cbn [negb]. destruct av as [|d [|s av]]; cbn [length] in Hav; try lia.
  pose proof (fun e He => pool_has_block _ _ _ _ _ e H He) as Hall. change (forall e, e ∈ d :: s :: av -> is_desc e) in Hall.
  pose proof (pool_has_NoDup _ _ _ _ _ H) as ND. rewrite !NoDup_cons in ND. destruct ND as (Ndd & Nds & _).
  apply (wp_link m1 src dst d s av); try done. intros m2 H2 Ed Es F2.
  assert (forall a, in_fields src a \/ in_fields dst a -> peek m2 a = peek m1 a) as F21.
  { intros a Ha. pose proof (desc_apart _ _ Hs Hd Hne). apply F2; [|unfold in_fields in Ha; lia..].
    destruct Ha as [Ha|Ha]; eapply desc_not_word; [exact Hs| |unfold in_desc, in_fields in *; lia|exact Hd| |unfold in_desc, in_fields in *; lia]; set_solver. }
  apply (IH (b2 :: bs) m2 _ s d av); try done; [cbn [length] in *; lia| | |cbn [length] in *; lia|apply Hall; right; left|apply Hall; left
    |intros ->; apply Ndd; left|intros ?; apply Ndd; by right|].
  - apply (pbufs_mem m1); [|done]. intros b' a Hb' Ha. pose proof (Hap b' a ltac:(by right) Ha) as Hno. apply F2.
    + intros Hw. apply Hno. apply (pool_word_in m p sz n _ [d; s] a H); [done| |done]. intros e He. apply Hall. set_solver.
    + intros ->. apply Hno, (desc_has _ _ src H Hs). unfold in_desc. lia.
    + intros ->. apply Hno, (desc_has _ _ dst H Hd). unfold in_desc. lia.
  - intros b' a Hb'. apply Hap. by right.
  - intros m3 ss ds av' s' d' Ls Ld S0 D0 HP E1 E2 Cs Cd H3 F3.
    assert (forall a, in_desc src a \/ in_desc dst a -> peek m3 a = peek m2 a) as F32.
    { intros a Ha. apply F3.
      - destruct Ha as [Ha|Ha]; eapply desc_not_word; [exact Hs| |exact Ha|exact Hd| |exact Ha]; set_solver.
      - intros e He. assert (is_desc e) as De by set_solver. assert (src <> e /\ dst <> e) as [N1 N2] by set_solver.
        destruct Ha as [Ha|Ha]; [by apply (desc_not_desc src)|by apply (desc_not_desc dst)]. }
    assert (forall a, in_fields src a \/ in_fields dst a -> peek m3 a = peek m1 a) as F31.
    { intros a Ha. rewrite F32 by (unfold in_fields, in_desc in *; lia). by apply F21. }
    apply (HQ m3 (src :: ss) (dst :: ds) av' s' d'); try done; [cbn [length] in *; lia|cbn [length] in *; lia| | | | | |].
    + cbn [app]. rewrite <- Permutation_middle. rewrite HP. do 2 constructor. constructor.
    + rewrite last_cons, E1. done.
    + rewrite last_cons, E2. done.
    + eapply dma_chain_cons; [|exact S0| |exact Cs].
      * rewrite <- S1. apply desc_at_mem. intros a Ha. apply F31. by left.
      * rewrite <- Es. apply F32. left. unfold in_desc, d_next. lia.
    + eapply dma_chain_cons; [|exact D0| |exact Cd].
      * rewrite <- D1. apply desc_at_mem. intros a Ha. apply F31. by right.
      * rewrite <- Ed. apply F32. right. unfold in_desc, d_next. lia.
    + intros a Ha Hde. pose proof (Hde src ltac:(left)). pose proof (Hde dst ltac:(right; left)).
      rewrite F3, F2, F1; try done; try (unfold in_fields, in_desc in *; lia).
      * intros [?|?]; apply Ha; [by left|right; set_solver].
      * intros [?|?]; apply Ha; [by left|right; set_solver].
      * intros e He. apply Hde. set_solver.
Qed.

End chains.

(** ** The waiting requests *)

(** The queue holds the requests [rs], in order. *)
Definition requests (m : gmap laddr linked_list_t) (q : queue_t) (rs : list Z) : Prop :=
  qrep m q (map ReqQue rs) /\ forall r, r ∈ rs -> this (node m (ReqQue r)) = Some (OReq r).

Lemma in_requests r rs : ReqQue r ∈ map ReqQue rs <-> r ∈ rs.
Proof. rewrite list_elem_of_fmap. split; [by intros (x & [= ->] & ?)|]. intros H. by exists r. Qed.

Lemma requests_insert m q rs r : requests m q rs -> r ∉ rs ->
  let m1 := <[ReqQue r := mk_list None None (Some (OReq r))]> m in
  requests (queue_insert m1 q (ReqQue r)).1 (queue_insert m1 q (ReqQue r)).2 (rs ++ [r]).
Proof.
  intros [Hq Ht] Hr m1. assert (forall a, a <> ReqQue r -> node m1 a = node m a) as Hm1.
  { intros a Ha. unfold m1. rewrite node_insert. by rewrite decide_False. }
  assert (node m1 (ReqQue r) = mk_list None None (Some (OReq r))) as Hn by (unfold m1; rewrite node_insert; by rewrite decide_True).
  assert (ReqQue r ∉ map ReqQue rs) as Hno by (by rewrite in_requests). split.
  - rewrite map_app. apply queue_insert_spec; [|done|by rewrite Hn].
    apply (qrep_agree m); [|done]. intros a Ha. by rewrite Hm1 by (by intros ->).
  - intros x [Hx|Hx]%elem_of_app; rewrite queue_insert_this.
    + rewrite Hm1; [by apply Ht|]. by intros [= ->].
    + apply list_elem_of_singleton in Hx as ->. by rewrite Hn.
Qed.

Lemma requests_extract m q r rs : requests m q (r :: rs) ->
  queue_get_head m q = Some (OReq r) /\
  exists m' q', queue_extract m q = (Some (OReq r), m', q') /\ requests m' q' rs.
Proof.
  intros [Hq Ht]. pose proof (queue_extract_spec m q (ReqQue r) (map ReqQue rs) Hq) as [E Hr]. rewrite (Ht r ltac:(left)) in E. split.
  - destruct Hq as (Hh & _). unfold queue_get_head. rewrite Hh. cbn. apply Ht. left.
  - exists (unlink m (ReqQue r)), (queue_extract m q).2. split; [done|]. split; [done|]. intros x Hx. rewrite unlink_this. apply Ht. by right.
Qed.

Lemma requests_empty m q : requests m q [] -> queue_get_head m q = None.
Proof. intros [(Hh & _) _]. unfold queue_get_head. by rewrite Hh. Qed.

(** ** The last descriptors *)

(** The transfer of the buffers: every descriptor but the last goes on. *)
Fixpoint transfer (f : Z -> rxbuf -> desc) (go stop : Z) (bs : list rxbuf) : list desc :=
  match bs with
  | [] => []
  | [b] => [f stop b]
  | b :: bs => f go b :: transfer f go stop bs
  end.

Lemma transfer_snoc f go stop bs b : transfer f go stop (bs ++ [b]) = map (f go) bs ++ [f stop b].
Proof. induction bs as [|a bs IH]; [done|]. cbn [app map transfer]. rewrite <- IH. by destruct bs. Qed.

Lemma dma_chain_last p n m ss xs x s v : (forall d, d ∈ ss -> is_desc p n d) -> NoDup ss -> dma_chain m ss (xs ++ [x]) -> last ss = Some s ->
  dma_chain (<[d_config s := put_lo (peek m (d_config s)) v]> m) ss (xs ++ [mk_desc (x_start x) (u16 v) (x_words x) (x_step x)]).
Proof.
  revert ss. induction xs as [|y xs IH]; intros [|s0 ss] Hd Hn Hc Hl; try done; cbn [app dma_chain] in *; destruct Hc as (E & Hx & Hc).
  - destruct ss; [|done]. injection Hl as ->. subst x. split_and!; [|done|done].
    unfold desc_at, d_start_addr, d_config, d_x_count, d_x_modify. rewrite peek_insert_eq, !peek_insert_ne by lia. by rewrite lo_put_lo, hi_put_lo.
  - apply NoDup_cons in Hn as [Hn0 Hn]. destruct ss as [|s1 ss]; [destruct xs; done|]. rewrite last_cons_cons in Hl.
    assert (s0 <> s) as Hne by (intros ->; by apply Hn0, last_Some_elem_of). assert (is_desc p n s) as Ds by (apply Hd; right; by apply last_Some_elem_of).
    pose proof (desc_apart p n s0 s (Hd s0 ltac:(left)) Ds Hne). split_and!.
    + rewrite <- E. apply desc_at_mem. intros a Ha. apply peek_insert_ne. unfold in_fields, d_config in *. lia.
    + intros s' Hs'. rewrite <- (Hx s' Hs'). apply peek_insert_ne. unfold d_config, d_next. lia.
    + apply IH; [|done..]. intros d Hd'. apply Hd. by right.
Qed.

Lemma transfer_walk f go stop m ss bs s : (forall c b, x_config (f c b) = c) -> flow go <> 0 -> flow stop = 0 ->
  dma_chain m ss (transfer f go stop bs) -> bs <> [] -> ss !! 0%nat = Some s -> dma_walk (length ss) m s = Some (transfer f go stop bs).
Proof.
  intros Hf Hg Hs Hc Hne H0. destruct bs as [|b bs _] using rev_ind; [done|]. rewrite transfer_snoc in *.
  apply dma_chain_walk; [done| |by rewrite Hf|done]. apply Forall_fmap, Forall_true. intros a. cbn. by rewrite Hf.
Qed.
