(* ===== verification/TringRx.v ===== *)
(** * The chains of a received frame

    What [eth_rx] leaves for the DMA controller: the descriptors that it takes
    from its pool, the transfer that they describe, and the request that is
    started or queued. *)

From Stdlib Require Import ZArith Lia.
From stdpp Require Import base tactics gmap option functions list list_numbers.
From S2P Require Import Prelude Bits Mem Queue Mpool Bytes Smc911x Tring TringChain.

Open Scope Z_scope.
Open Scope kernel_scope.

(** ** [eth_rx] *)

Section receive.
Context {D : Type} {N : Nic D}.
Implicit Types (s : tring_state D).

Lemma wp_words {A} (m : M (gmap Z Z) A) s (Q : A -> tring_state D -> Prop) :
  wp m (fun a w => Q a (set_words w s)) (t_words s) -> wp (words m) Q s.
Proof. unfold wp, words, zoom. by destruct (m (t_words s)) as [[? ?]|]. Qed.

Lemma wp_chip {A} (m : M (smc_state D) A) s (Q : A -> tring_state D -> Prop) :
  wp m (fun a c => Q a (set_smc c s)) (t_smc s) -> wp (chip m) Q s.
Proof. unfold wp, chip, zoom. by destruct (m (t_smc s)) as [[? ?]|]. Qed.

Local Abbreviation dsz := sizeof_dma_descriptor.

(** The request [r] for the pbuf [p]: the transfer moves its buffers. *)
Record rx_request (m : gmap Z Z) (r p : Z) (bs : list rxbuf) : Prop := {
  rq_pbuf : peek m (r_pbuf r) = p;
  rq_flags : peek m (r_flags r) = TRING_CHAIN_RX;
  rq_src : dma_walk (length bs) m (peek m (r_src r)) = Some (transfer src_desc SRC_CHAIN SRC_STOP bs);
  rq_dst : dma_walk (length bs) m (peek m (r_dst r)) = Some (transfer dst_desc DST_CHAIN DST_STOP bs)
}.

(** The words of a request. *)
Definition in_request (r a : Z) : Prop := r <= a < r + 16.

Lemma wp_build_request s r p bs src dst av dp n (Q : Z * Z -> tring_state D -> Prop) :
  eth_dma_desc_pool s = dp -> 0 < r -> r mod 4 = 0 -> (forall a, in_request r a -> ~ in_pool dp dsz n a) ->
  (forall b a, b ∈ bs -> b_addr b <= a < b_addr b + 12 -> ~ in_request r a) ->
  (length bs <= S (Z.to_nat DMA_POOL_SIZE))%nat -> bs <> [] -> pbufs (t_words s) p bs -> bufs_apart dp n bs ->
  pool_has (t_words s) dp dsz n (src :: dst :: av) -> (2 * (length bs - 1) <= length av)%nat ->
  (forall m' ss ds av' e f, length ss = length bs -> length ds = length bs -> ss !! 0%nat = Some src -> ds !! 0%nat = Some dst ->
     ss ++ ds ++ av' ≡ₚ src :: dst :: av -> last ss = Some e -> last ds = Some f ->
     dma_chain m' ss (map (src_desc SRC_CHAIN) bs) -> dma_chain m' ds (map (dst_desc DST_CHAIN) bs) -> pool_has m' dp dsz n av' ->
     peek m' (r_pbuf r) = p -> peek m' (r_flags r) = TRING_CHAIN_RX -> peek m' (r_src r) = src -> peek m' (r_dst r) = dst ->
     (forall a, ~ in_pool dp dsz n a -> ~ in_request r a -> peek m' a = peek (t_words s) a) -> Q (e, f) (set_words m' s)) ->
  wp (build_request r p) Q s.
Proof.
  intros Edp Hr Hrm Hrp Hbr Hf Hne Hb Hap H Hav HQ. pose proof (pool_has_NoDup _ _ _ _ _ H) as ND. rewrite !NoDup_cons in ND. destruct ND as (N1 & N2 & _).
  pose proof (fun e He => pool_has_block _ _ _ _ _ e H He) as Hall. change (forall e, e ∈ src :: dst :: av -> is_desc dp n e) in Hall.
  assert (forall i, 0 <= i -> valid_addr (r + 4 * i) = true) as Vr.
  { intros i Hi. apply valid_addr_spec. split; [lia|]. rewrite (Z.mul_comm 4), Z_mod_plus_full. done. }
  assert (forall a, ~ in_pool dp dsz n a -> forall l, (forall e, e ∈ l -> e ∈ src :: dst :: av) -> ~ pool_word dp l a) as Np.
  { intros a Ha l Hin Hw. apply Ha, (pool_word_in (t_words s) dp dsz n _ (src :: dst :: av) a H); [done|done|].
    destruct Hw as [Hw|Hw]; [by left|right; by apply Hin]. }
  assert (forall l a, (forall e, e ∈ l -> e ∈ src :: dst :: av) -> in_request r a -> ~ pool_word dp l a) as Nw by (intros l a Hin Ha; by apply Np; [apply Hrp|]).
  assert (forall a, ~ in_pool dp dsz n a -> forall e, e ∈ src :: dst :: av -> ~ in_desc e a) as Nd.
  { intros a Ha e He Hin. apply Ha. by apply (desc_has dp n _ _ e H (Hall e He)). }
  assert (forall m l a v, (forall e, e ∈ l -> e ∈ src :: dst :: av) -> in_request r a -> pool_has m dp dsz n l -> pool_has (<[a := v]> m) dp dsz n l) as Hst.
  { intros m l a v Hl Ha Hm. apply (pool_has_mem m); [done|]. intros x Hx. apply peek_insert_ne. intros <-. by apply (Nw l a). }
  unfold build_request. assert (nz r = true) as -> by (apply negb_true_iff, Z.eqb_neq; lia). cbn [negb].
  unfold r_pbuf, r_src, r_dst, r_flags, in_request in *. apply wp_bind, wp_gets. rewrite Edp.
  apply wp_bind, wp_words, wp_store; [by apply (Vr 3)|]. apply wp_bind, wp_words. eapply wp_mpalloc_has; [apply Hst; [|lia|exact H]; done|].
  cbn beta iota. intros m1 H1 F1. apply wp_bind, wp_words, wp_store; [by apply (Vr 1)|].
  apply wp_bind, wp_words. eapply wp_mpalloc_has; [apply Hst; [|lia|exact H1]; intros e He; by right|].
  cbn beta iota. intros m2 H2 F2. apply wp_bind, wp_words, wp_store; [by apply (Vr 2)|].
  apply wp_bind, wp_words, wp_store; [apply valid_addr_spec; lia|]. apply wp_words. cbn [t_words set_words].
  cbn [t_words set_words] in F1, F2. set (m3 := <[r := TRING_CHAIN_RX]> _). assert (forall e, e ∈ av -> e ∈ src :: dst :: av) as Sav by (intros e He; by do 2 right).
  assert (forall a, (forall l, l = [src] \/ l = [dst] -> ~ pool_word dp l a) -> ~ (r <= a < r + 16) -> peek m3 a = peek (t_words s) a) as F3.
  { intros a Hl Ha. unfold m3. rewrite !peek_insert_ne, F2 by (lia || auto). rewrite peek_insert_ne, F1 by (lia || auto). by rewrite peek_insert_ne by lia. }
  apply (wp_fill_chain dp n _ bs _ _ _ _ av); try done.
  - apply (pbufs_mem (t_words s)); [|done]. intros b a Hbs Ha. apply F3; [|by apply (Hbr b)].
    intros l Hl. apply Np; [by apply (Hap b)|]. destruct Hl as [-> | ->]; set_solver.
  - apply Hst; [done|lia|]. apply Hst; [done|lia|done].
  - by apply Hall; left.
  - by apply Hall; right; left.
  - intros ->. apply N1. left.
  - intros Hin. apply N1. by right.
  - intros m' ss ds av' e f Ls Ld S0 D0 HP E1 E2 Cs Cd H' F'.
    assert (forall a, r <= a < r + 16 -> peek m' a = peek m3 a) as Fr.
    { intros a Ha. apply F'; [by apply Nw|by apply Nd, Hrp]. }
    apply (HQ m' ss ds av' e f); try done.
    + rewrite Fr by lia. unfold m3. rewrite !peek_insert_ne, F2 by (lia || (apply Nw; [set_solver|lia])).
      rewrite !peek_insert_ne, F1 by (lia || (apply Nw; [set_solver|lia])). apply peek_insert_eq.
    + rewrite Fr by lia. unfold m3. apply peek_insert_eq.
    + rewrite Fr by lia. unfold m3. rewrite !peek_insert_ne, F2 by (lia || (apply Nw; [set_solver|lia])). apply peek_insert_eq.
    + rewrite Fr by lia. unfold m3. rewrite !peek_insert_ne by lia. apply peek_insert_eq.
    + intros a Ha1 Ha2. rewrite F' by (by apply Np || by apply Nd). apply F3; [|done]. intros l Hl. apply Np; [done|]. destruct Hl as [-> | ->]; set_solver.
Qed.

(** The last descriptors stop the controller; only the destination interrupts. *)
Lemma rx_request_stop m r p bs dp n ss ds src dst e f : (forall d, d ∈ ss ++ ds -> is_desc dp n d) -> NoDup (ss ++ ds) ->
  (forall d a, is_desc dp n d -> in_request r a -> ~ in_desc d a) -> bs <> [] -> length ss = length bs -> length ds = length bs ->
  ss !! 0%nat = Some src -> ds !! 0%nat = Some dst -> last ss = Some e -> last ds = Some f ->
  dma_chain m ss (map (src_desc SRC_CHAIN) bs) -> dma_chain m ds (map (dst_desc DST_CHAIN) bs) ->
  peek m (r_pbuf r) = p -> peek m (r_flags r) = TRING_CHAIN_RX -> peek m (r_src r) = src -> peek m (r_dst r) = dst ->
  let m1 := <[d_config e := put_lo (peek m (d_config e)) (Z.lor WDSIZE_32 DMAEN)]> m in
  let m2 := <[d_config f := put_lo (peek m1 (d_config f)) (Z.lor (Z.lor (Z.lor DI_EN WDSIZE_32) WNR) DMAEN)]> m1 in
  rx_request m2 r p bs.
Proof.
  intros Hd HN Hr Hne Ls Ld S0 D0 Es Ed Cs Cd R1 R2 R3 R4 m1 m2. apply NoDup_app in HN as (NS & Hap & ND).
  assert (e ∈ ss) as He by (by apply last_Some_elem_of). assert (f ∈ ds) as Hf by (by apply last_Some_elem_of).
  assert (is_desc dp n e) as De by set_solver. assert (is_desc dp n f) as Df by set_solver.
  assert (forall a, in_request r a -> peek m2 a = peek m a) as Fr.
  { intros a Ha. pose proof (Hr e a De Ha). pose proof (Hr f a Df Ha). unfold m2, m1. rewrite !peek_insert_ne; [done|unfold in_desc, d_config in *; lia..]. }
  assert (forall g d a, is_desc dp n g -> is_desc dp n d -> g <> d -> in_desc d a -> d_config g <> a) as Hcfg.
  { intros g d a Dg Dd Hgd Ha <-. apply (desc_not_desc dp n d g _ Dd Dg ltac:(done) Ha). unfold in_desc, d_config. lia. }
  destruct bs as [|b bs _] using rev_ind; [done|]. rewrite map_app in Cs, Cd. cbn [map] in Cs, Cd.
  apply (dma_chain_last dp n _ _ _ _ e (Z.lor WDSIZE_32 DMAEN)) in Cs; [|set_solver|done|done]. fold m1 in Cs.
  assert (dma_chain m1 ds (map (dst_desc DST_CHAIN) bs ++ [dst_desc DST_CHAIN b])) as Cd1.
  { apply (dma_chain_mem m); [|done]. intros d a Hds Ha. apply peek_insert_ne. apply (Hcfg e d); [done|set_solver| |done]. intros ->. by apply (Hap d). }
  apply (dma_chain_last dp n _ _ _ _ f (Z.lor (Z.lor (Z.lor DI_EN WDSIZE_32) WNR) DMAEN)) in Cd1; [|set_solver|done|done]. fold m2 in Cd1.
  split; unfold r_pbuf, r_flags, r_src, r_dst in *; rewrite ?Fr by (unfold in_request; lia); try done.
  - rewrite R3, <- Ls. apply transfer_walk; try done. rewrite transfer_snoc. apply (dma_chain_mem m1); [|exact Cs].
    intros d a Hds Ha. apply peek_insert_ne. apply (Hcfg f d); [done|set_solver| |done]. intros ->. by apply (Hap d).
  - rewrite R4, <- Ld. apply transfer_walk; try done. by rewrite transfer_snoc.
Qed.

Local Abbreviation rsz := sizeof_tring_request.

(** The status word of the next frame, and its length. *)
Definition rx_status (s : tring_state D) : Z := u32 (nic_read RX_STATUS_FIFO (s_dev (t_smc s))).1.
Definition rx_length (s : tring_state D) : Z := Z.land (Z.shiftr (Z.land (rx_status s) RX_STS_PKT_LEN) 16) 0x07ff.

(** There are buffers, a request and descriptors for the frame in memory [m], in
    places of their own. *)
Record rx_room (s : tring_state D) (m : gmap Z Z) (p : Z) (bs : list rxbuf) (nd : Z) (av : list Z) (nr : Z) (r : Z) (rav : list Z) : Prop := {
  rr_bufs : pbufs m p bs;
  rr_some : bs <> [];
  rr_few : Z.of_nat (length bs) <= PBUF_POOL_SIZE;
  rr_desc : pool_has m (eth_dma_desc_pool s) dsz nd av;
  rr_enough : (2 * length bs <= length av)%nat;
  rr_request : pool_has m (eth_request_pool s) rsz nr (r :: rav);
  rr_pools : forall a, in_pool (eth_request_pool s) rsz nr a -> ~ in_pool (eth_dma_desc_pool s) dsz nd a;
  rr_apart : forall b a, b ∈ bs -> b_addr b <= a < b_addr b + 12 ->
    ~ in_pool (eth_dma_desc_pool s) dsz nd a /\ ~ in_pool (eth_request_pool s) rsz nr a
}.

Lemma wp_start_request s r rs src dst (Q : unit -> tring_state D -> Prop) :
  0 < r -> r mod 4 = 0 -> peek (t_words s) (r_src r) = src -> peek (t_words s) (r_dst r) = dst ->
  (eth_active_request s = NULL -> Q tt (add_call (Launch (eth_dma_channel s) src dst) (set_active r s))) ->
  (eth_active_request s <> NULL -> requests (t_lists s) (eth_request_queue s) rs /\ r ∉ rs /\
     forall l q, requests l q (rs ++ [r]) -> Q tt (set_queue l q s)) ->
  wp (start_request r) Q s.
Proof.
  intros Hr Hm Es Ed Hidle Hbusy. unfold start_request. apply wp_bind, wp_gets.
  assert (forall i, 0 <= i -> valid_addr (r + 4 * i) = true) as Vr.
  { intros i Hi. apply valid_addr_spec. split; [lia|]. rewrite (Z.mul_comm 4), Z_mod_plus_full. done. }
  unfold nz. destruct (Z.eqb_spec (eth_active_request s) 0) as [E|E]; cbn [negb].
  - apply wp_bind, wp_modify, wp_bind, wp_words, wp_load; [by apply (Vr 1)|]. apply wp_bind, wp_words, wp_load; [by apply (Vr 2)|].
    unfold mdma_launch. apply wp_bind, wp_gets, wp_modify. cbn. rewrite Es, Ed. replace (set_words _ _) with (set_active r s) by (by destruct s).
    by apply Hidle.
  - destruct (Hbusy E) as (Hq & Hn & HQ). apply wp_modify. pose proof (requests_insert _ _ _ r Hq Hn) as Hi. cbn zeta in Hi.
    destruct (queue_insert _ _ _) as [l q]. by apply HQ.
Qed.

(** What a received frame adds: its request and the transfer that waits. *)
Definition rx_done (s : tring_state D) (m : gmap Z Z) (p : Z) (bs : list rxbuf) (nd : Z) (av : list Z) (nr : Z) (r : Z) (rav rs : list Z)
    (Q : Z -> tring_state D -> Prop) : Prop :=
  forall m' ss ds av', length ss = length bs -> length ds = length bs -> ss ++ ds ++ av' ≡ₚ av -> rx_request m' r p bs ->
    pool_has m' (eth_dma_desc_pool s) dsz nd av' -> pool_has m' (eth_request_pool s) rsz nr rav ->
    (forall a, ~ in_pool (eth_dma_desc_pool s) dsz nd a -> ~ in_pool (eth_request_pool s) rsz nr a -> peek m' a = peek m a) ->
    let s' := set_words m' s in
    (eth_active_request s = NULL ->
       Q ESMC_OK (add_call (Launch (eth_dma_channel s) (peek m' (r_src r)) (peek m' (r_dst r))) (set_active r s'))) /\
    (eth_active_request s <> NULL -> forall l q, requests l q (rs ++ [r]) -> Q ESMC_OK (set_queue l q s')).

Lemma wp_eth_rx_request s p bs nd av nr r rav rs (Q : Z -> tring_state D -> Prop) :
  rx_room s (t_words s) p bs nd av nr r rav -> requests (t_lists s) (eth_request_queue s) rs -> r ∉ rs ->
  rx_done s (t_words s) p bs nd av nr r rav rs Q -> wp (eth_rx_request p) Q s.
Proof.
  intros [Hb Hne Hfew Hdp Hen Hrp Hpp Hap] Hrs Hr HQ. unfold eth_rx_request, rx_done in *. apply wp_bind, wp_gets.
  set (rp := eth_request_pool s) in *. set (dp := eth_dma_desc_pool s) in *. set (m := t_words s) in *.
  destruct (block_in m rp rsz nr _ r Hrp ltac:(done) (pool_has_block _ _ _ _ _ r Hrp ltac:(left))) as (Hr0 & Hrm & Ir).
  pose proof (fun e He => pool_has_block _ _ _ _ _ e Hrp He) as Hrall. pose proof (fun e He => pool_has_block _ _ _ _ _ e Hdp He) as Hdall.
  apply wp_bind, wp_words. eapply wp_mpalloc_has; [exact Hrp|]. cbn beta iota. intros m1 Hrp1 F1.
  assert (forall a, ~ in_pool rp rsz nr a -> peek m1 a = peek m a) as F1'.
  { intros a Ha. apply F1. intros Hw. apply Ha. apply (pool_word_in m rp rsz nr _ [r] a Hrp); [done| |done]. set_solver. }
  assert (pool_has m1 dp dsz nd av) as Hdp1.
  { apply (pool_has_apart m m1 dp dsz nd av rp rsz nr); [done|done|by intros a Hd Hx; apply (Hpp a)|done]. }
  destruct av as [|src [|dst av]]; cbn [length] in Hen; [destruct bs; cbn in *; done || lia..|].
  apply wp_bind, (wp_build_request _ r p bs src dst av dp nd); cbn [t_words set_words eth_dma_desc_pool]; try done.
  - intros a Ha. by apply Hpp, Ir.
  - intros b a Hbb Ha Hin. apply (Hap b a Hbb Ha). by apply Ir.
  - unfold PBUF_POOL_SIZE, DMA_POOL_SIZE in *. change LWIP_DPOOL_SIZE with 64. lia.
  - apply (pbufs_mem m); [|done]. intros b a Hbb Ha. apply F1'. by apply (Hap b).
  - intros b a Hbb Ha. by apply (Hap b).
  - lia.
  - intros m2 ss ds av' e f Ls Ld S0 D0 HP E1 E2 Cs Cd H2 R1 R2 R3 R4 F2.
    assert (forall d, d ∈ ss ++ ds -> is_desc dp nd d) as Hdd by (intros d Hd; apply Hdall; rewrite <- HP, app_assoc; apply elem_of_app; by left).
    assert (NoDup (ss ++ ds ++ av')) as ND by (rewrite HP; by apply (pool_has_NoDup _ _ _ _ _ Hdp)). rewrite app_assoc in ND. apply NoDup_app in ND as (ND & Hav & _).
    assert (is_desc dp nd e) as De by (apply Hdd, elem_of_app; left; by apply last_Some_elem_of).
    assert (is_desc dp nd f) as Df by (apply Hdd, elem_of_app; right; by apply last_Some_elem_of).
    assert (forall d, is_desc dp nd d -> desc_valid d /\ d <> NULL /\ forall a, in_desc d a -> in_pool dp dsz nd a) as Hdv.
    { intros d Hd. destruct (desc_has dp nd m _ d Hdp Hd) as [Hv Hin]. split; [done|split; [|done]]. pose proof (desc_above dp nd d Hd).
      destruct Hdp as (k & fl & Hok & _). pose proof (pk_base _ _ _ _ _ _ Hok). unfold NULL. offsets. }
    destruct (Hdv e De) as (Ve & Ne & Ie), (Hdv f Df) as (Vf & Nf & If).
    destruct (Z.eqb_spec e NULL) as [|_]; [done|]. destruct (Z.eqb_spec f NULL) as [|_]; [done|]. cbn [orb].
    apply wp_bind, wp_words, wp_st_lo; [by apply (Ve 2)|]. apply wp_bind, wp_words, wp_st_lo; [by apply (Vf 2)|]. cbn [t_words set_words].
    pose proof (rx_request_stop m2 r p bs dp nd ss ds src dst e f Hdd ND ltac:(intros d a Dd Ha Hin; by apply (Hpp a (Ir a Ha)), (Hdv d Dd)) Hne Ls Ld S0 D0 E1 E2 Cs Cd R1 R2 R3 R4) as Hreq.
    cbn zeta in Hreq. set (m3 := <[d_config e := _]> m2) in *. set (m4 := <[d_config f := _]> m3) in *.
    assert (forall a, ~ in_desc e a -> ~ in_desc f a -> peek m4 a = peek m2 a) as F4.
    { intros a Ha1 Ha2. unfold m4, m3. by rewrite !peek_insert_ne by (unfold in_desc, d_config in *; lia). }
    assert (forall a, ~ in_pool dp dsz nd a -> peek m4 a = peek m2 a) as F4' by (intros a Ha; apply F4; intros Hin; apply Ha; auto).
    destruct (HQ m4 ss ds av' Ls Ld HP Hreq) as [HQ1 HQ2].
    + apply (pool_has_mem m2); [done|]. intros a Ha. apply F4; intros Hin.
      * apply (desc_not_word dp nd e av' a De); [|done|done]. intros x Hx. by apply (pool_has_block m2 dp dsz nd av').
      * apply (desc_not_word dp nd f av' a Df); [|done|done]. intros x Hx. by apply (pool_has_block m2 dp dsz nd av').
    + apply (pool_has_mem m1); [done|]. intros a Ha. assert (in_pool rp rsz nr a) as Hin.
      { apply (pool_word_in m rp rsz nr _ (r :: rav) a Hrp); [done|done|]. destruct Ha as [?|?]; [by left|right; by right]. }
      rewrite F4' by (by apply Hpp). apply F2; [by apply Hpp|]. intros Hr'. apply (data_not_word rp rsz nr r rav a); [done|apply Hrall; left| |done|done].
      intros x Hx. apply Hrall. by right.
    + intros a Ha1 Ha2. rewrite F4', F2, F1'; try done. intros Hin. by apply Ha2, Ir.
    + apply wp_bind, (wp_start_request _ r rs (peek m4 (r_src r)) (peek m4 (r_dst r))); [done|done|reflexivity|reflexivity|exact HQ1|].
      intros Hi. split_and!; [done|done|]. intros l q Hlq. apply wp_ret. by apply HQ2.
Qed.

(** A frame without errors for which there is room. *)
Lemma wp_eth_rx pbuf_alloc s m p bs nd av nr r rav rs (Q : Z -> tring_state D -> Prop) :
  Z.land (rx_status s) RX_STS_ES = 0 -> pbuf_alloc (rx_length s + 5) (t_words s) = Some (p, m) ->
  let d' := nic_write RX_CFG 0 (nic_read RX_STATUS_FIFO (s_dev (t_smc s))).2 in
  let s1 := set_words m (set_smc (set_dev d' (t_smc s)) s) in
  rx_room s1 m p bs nd av nr r rav -> requests (t_lists s) (eth_request_queue s) rs -> r ∉ rs ->
  rx_done s1 m p bs nd av nr r rav rs Q -> wp (eth_rx pbuf_alloc) Q s.
Proof.
  intros Hes Hal d' s1 Hrm Hrs Hr HQ. unfold eth_rx. apply wp_bind, wp_chip, wp_reg_read. fold (rx_status s).
  unfold nz at 1. rewrite Hes. cbn [negb Z.eqb]. apply wp_bind, wp_chip, wp_modify. apply wp_bind, wp_words. cbn [t_words set_smc].
  fold (rx_length s). replace (rx_length s + 2 + 3) with (rx_length s + 5) by lia. eapply wp_intro; [exact Hal|].
  destruct (Z.eqb_spec p NULL) as [->|_].
  { destruct Hrm as [Hb Hne _ _ _ _ _ _]. destruct bs; [done|]. destruct Hb as (_ & ? & _). unfold NULL in *. lia. }
  by apply (wp_eth_rx_request s1 p bs nd av nr r rav rs).
Qed.

(** A frame with errors, or for which lwIP has no buffers, is left in the chip. *)
Lemma wp_eth_rx_drop pbuf_alloc s (Q : Z -> tring_state D -> Prop) :
  length (lwiplog (s_log (t_smc s))) = Z.to_nat LWIPLOG_ENTRIES -> 0 <= lwipidx (s_log (t_smc s)) < LWIPLOG_ENTRIES ->
  Z.land (rx_status s) RX_STS_ES <> 0 ->
  (forall c, Q ESMC_RCV (set_smc c s)) -> wp (eth_rx pbuf_alloc) Q s.
Proof.
  intros Hl Hi He HQ. unfold eth_rx. apply wp_bind, wp_chip, wp_reg_read. fold (rx_status s). unfold nz at 1.
  destruct (Z.eqb_spec (Z.land (rx_status s) RX_STS_ES) 0) as [|_]; [done|]. cbn [negb]. apply wp_bind, wp_chip, wp_lwipprint; [done|done|].
  intros l. apply wp_ret, HQ.
Qed.
End receive.
