(* ===== verification/TringDone.v ===== *)
(** * The end of a transfer

    What [tring_int_handler] does with the active request: the buffers go to
    lwIP, the descriptors and the request back to their pools, and the next
    request is started. *)

From Stdlib Require Import ZArith Lia.
From stdpp Require Import base tactics gmap fin_sets fin_map_dom option functions list list_numbers.
From S2P Require Import Prelude Bits Mem Queue Mpool Bytes Smc911x Tring TringChain TringRx.

Open Scope Z_scope.
Open Scope kernel_scope.

(** ** Lists that end with NULL *)

Section lists.
Implicit Types (m : gmap Z Z) (h : Z) (l : list Z).

Lemma chain_unique m h l l' : 0 ∉ l -> 0 ∉ l' -> chain m h l -> chain m h l' -> l = l'.
Proof.
  revert h l'. induction l as [|x l IH]; intros h [|y l'] Hl Hl'; cbn [chain]; unfold NULL.
  - done.
  - intros -> [<- _]. destruct Hl'. left.
  - intros [-> _] ->. destruct Hl. left.
  - intros [-> Hc] [-> Hc']. f_equal. apply (IH (peek m y)); [set_solver..|done|done].
Qed.

Lemma chain_suffix m h l1 x l2 : chain m h (l1 ++ x :: l2) -> chain m x (x :: l2).
Proof.
  revert h. induction l1 as [|y l1 IH]; intros h; cbn [app chain].
  - by intros [-> Hc].
  - intros [_ Hc]. by apply (IH (peek m y)).
Qed.

Lemma chain_NoDup m h l : 0 ∉ l -> chain m h l -> NoDup l.
Proof.
  revert h. induction l as [|x l IH]; intros h Hl; [constructor|]. intros [-> Hc]. constructor; [|apply (IH (peek m x)); [set_solver|done]].
  intros (l1 & l2 & ->)%list_elem_of_split. pose proof (chain_suffix m (peek m x) l1 x l2 Hc) as Hs.
  assert (x :: l1 ++ x :: l2 = x :: l2) as E by (apply (chain_unique m x); [done|set_solver|by split|done]).
  apply (f_equal length) in E. cbn in E. rewrite length_app in E. cbn in E. lia.
Qed.

(** Every node but the last has a word that was written. *)
Lemma chain_dom m h x l : 0 ∉ x :: l -> chain m h (x :: l) -> list_to_set (take (length l) (x :: l)) ⊆ dom m.
Proof.
  revert h x. induction l as [|y l IH]; intros h x Hl [-> Hc]; [set_solver|]. destruct Hc as [Ey Hc]. cbn [length take list_to_set].
  apply union_subseteq. split; [|apply (IH y); [set_solver|by split]]. apply singleton_subseteq_l, elem_of_dom.
  unfold peek in Ey. destruct (m !! x); [by eexists|]. cbn in Ey. subst y. set_solver.
Qed.

Lemma chain_fuel_enough m h l : 0 ∉ l -> chain m h l -> (length l < chain_fuel m)%nat.
Proof.
  intros Hl Hc. pose proof (chain_NoDup m h l Hl Hc) as HN. unfold chain_fuel. destruct l as [|x l]; [cbn; lia|].
  pose proof (subseteq_size _ _ (chain_dom m h x l Hl Hc)) as Hs. rewrite size_list_to_set in Hs.
  - rewrite size_dom, length_take in Hs. cbn [length] in *. lia.
  - eapply sublist_NoDup; [exact HN|]. apply sublist_take.
Qed.

Lemma pbufs_chain m q bs : pbufs m q bs -> chain m q (map b_addr bs) /\ 0 ∉ map b_addr bs.
Proof.
  revert q. induction bs as [|b bs IH]; intros q; cbn [pbufs map chain]; [by intros ->; split; [|apply not_elem_of_nil]|].
  intros (-> & Hq & _ & _ & _ & Hn). destruct (IH _ Hn) as [Hc H0]. split; [done|]. apply not_elem_of_cons. split; [lia|done].
Qed.
End lists.

(** ** Descriptors and requests come back *)

Lemma wp_free_chain fuel p n m d ds av (Q : unit -> gmap Z Z -> Prop) :
  (length ds < fuel)%nat -> chain m d ds -> (forall x, x ∈ ds -> is_desc p n x) -> NoDup (ds ++ av) -> pool_has m p sizeof_dma_descriptor n av ->
  (forall m', pool_has m' p sizeof_dma_descriptor n (rev ds ++ av) -> (forall a, ~ pool_word p ds a -> peek m' a = peek m a) -> Q tt m') ->
  wp (free_chain fuel p d) Q m.
Proof.
  revert fuel m d av. induction ds as [|x ds IH]; intros [|fuel] m d av Hf Hc Hd HN H HQ; try (cbn in Hf; lia); cbn [free_chain].
  - cbn in Hc. subst d. cbn. apply HQ; [done|]. done.
  - destruct Hc as [-> Hc]. pose proof (Hd x ltac:(left)) as Dx. rewrite (desc_not_null _ _ _ _ x H Dx). cbn [negb].
    cbn [app] in HN. apply NoDup_cons in HN as [Hx HN]. rewrite not_elem_of_app in Hx. destruct Hx as [Hx1 Hx2].
    destruct (desc_has p n m av x H Dx) as [Vx _]. destruct Dx as (j & Hj & Ex). apply wp_bind. rewrite Ex at 1. eapply wp_mpfree_has; [exact H|done|by rewrite <- Ex|].
    rewrite <- Ex. intros m1 H1 F1. pose proof (Hd x ltac:(left)) as Dx.
    assert (forall y a, y ∈ x :: ds -> in_desc y a -> peek m1 a = peek m a) as F1'.
    { intros y a Hy Ha. apply F1, (desc_not_word p n y _ a); [by apply Hd| |done]. by intros e ->%list_elem_of_singleton. }
    apply wp_bind, wp_load; [by specialize (Vx 0 ltac:(lia)); rewrite Z.add_0_r in Vx|]. unfold d_next. rewrite (F1' x) by (left || (unfold in_desc; lia)).
    apply (IH fuel m1 _ (x :: av)); [cbn in Hf; lia| |set_solver| |done|].
    + eapply chain_frame; [|exact Hc]. intros b Hb. apply (F1' b); [by right|unfold in_desc; lia].
    + rewrite <- Permutation_middle. apply NoDup_cons. split; [|done]. rewrite not_elem_of_app. done.
    + intros m' H' F'. apply HQ.
      * cbn [rev]. by rewrite <- app_assoc.
      * intros a Ha. rewrite F', F1; [done| |]; intros [?|?]; apply Ha; [by left|right; set_solver|by left|right; set_solver].
Qed.

Section done.
Context {D : Type} {N : Nic D}.
Implicit Types (s : tring_state D).
Local Abbreviation dsz := sizeof_dma_descriptor.
Local Abbreviation rsz := sizeof_tring_request.

(** A request whose descriptors [ss] and [ds] are in lists that end, and the blocks
    that the pools give meanwhile. *)
Record owned (m : gmap Z Z) (dp nd : Z) (av : list Z) (rp nr : Z) (rav : list Z) (r : Z) (ss ds : list Z) : Prop := {
  ow_desc : pool_has m dp dsz nd av;
  ow_req : pool_has m rp rsz nr rav;
  ow_apart : forall a, in_pool rp rsz nr a -> ~ in_pool dp dsz nd a;
  ow_r : is_block rp rsz nr r /\ r ∉ rav;
  ow_src : chain m (peek m (r_src r)) ss;
  ow_dst : chain m (peek m (r_dst r)) ds;
  ow_descs : forall x, x ∈ ss ++ ds -> is_desc dp nd x;
  ow_NoDup : NoDup (ss ++ ds ++ av)
}.

Lemma wp_clear_request m dp nd av rp nr rav r ss ds (Q : unit -> gmap Z Z -> Prop) : owned m dp nd av rp nr rav r ss ds ->
  (forall m', pool_has m' dp dsz nd (rev ds ++ rev ss ++ av) -> pool_has m' rp rsz nr (r :: rav) ->
     (forall a, ~ in_pool dp dsz nd a -> ~ pool_word rp [r] a -> peek m' a = peek m a) -> Q tt m') ->
  wp (clear_request rp dp r) Q m.
Proof.
  intros [Hd Hr Hap [Br Nr] Cs Cd Hx HN] HQ. destruct (block_in m rp rsz nr rav r Hr ltac:(done) Br) as (Hr0 & Hrm & Ir).
  assert (forall i, 0 <= i -> valid_addr (r + 4 * i) = true) as Vr.
  { intros i Hi. apply valid_addr_spec. split; [lia|]. rewrite (Z.mul_comm 4), Z_mod_plus_full. done. }
  assert (forall x, x ∈ ss ++ ds -> x <> 0) as H0.
  { intros x Hxx E. specialize (Hx x Hxx). pose proof (desc_not_null dp nd m av x Hd Hx) as Hz. by rewrite E in Hz. }
  assert (0 ∉ ss /\ 0 ∉ ds) as [Z1 Z2] by (split; intros H; apply (H0 0); set_solver).
  assert (forall l a, (forall x, x ∈ l -> x ∈ ss ++ ds) -> ~ in_pool dp dsz nd a -> ~ pool_word dp l a) as Nw.
  { intros l a Hl Ha Hw. apply Ha, (pool_word_in m dp dsz nd av l a Hd); [done| |done]. intros e He. by apply Hx, Hl. }
  unfold clear_request. apply wp_bind, wp_load; [by apply (Vr 1)|]. apply wp_bind, wp_gets.
  apply wp_bind, (wp_free_chain _ dp nd m _ ss av); [by apply (chain_fuel_enough m (peek m (r_src r)))|done|set_solver| |done|].
  { rewrite (Permutation_app_comm ds), app_assoc in HN. by apply NoDup_app in HN as [? _]. }
  intros m1 H1 F1. apply wp_bind, wp_load; [by apply (Vr 2)|]. rewrite F1 by (apply Nw; [set_solver|]; apply Hap, Ir; unfold r_dst; lia).
  apply wp_bind, wp_gets. assert (chain m1 (peek m (r_dst r)) ds) as Cd1.
  { eapply chain_frame; [|exact Cd]. intros b Hb. apply F1, (desc_not_word dp nd b); [apply Hx; set_solver|set_solver|unfold in_desc; lia]. }
  apply wp_bind, (wp_free_chain _ dp nd m1 _ ds (rev ss ++ av)); [by apply (chain_fuel_enough m1 (peek m (r_dst r)))|done|set_solver| |done|].
  { rewrite <- (Permutation_rev ss), app_assoc, (Permutation_app_comm ds ss), <- app_assoc. done. }
  intros m2 H2 F2. assert (forall a, ~ in_pool dp dsz nd a -> peek m2 a = peek m a) as F.
  { intros a Ha. rewrite F2, F1; [done|apply Nw; [set_solver|done]..]. }
  assert (pool_has m2 rp rsz nr rav) as Hr2 by (apply (pool_has_apart m m2 rp rsz nr rav dp dsz nd); done).
  destruct Br as (j & Hj & Er). rewrite Er. eapply wp_mpfree_has; [exact Hr2|done|by rewrite <- Er|]. rewrite <- Er. intros m3 H3 F3.
  assert (forall a, ~ in_pool rp rsz nr a -> peek m3 a = peek m2 a) as F3'.
  { intros a Ha. apply F3. intros Hw. apply Ha, (pool_word_in m rp rsz nr rav [r] a Hr); [done| |done]. intros e ->%list_elem_of_singleton. by exists j. }
  apply HQ; [|done|].
  - apply (pool_has_apart m2 m3 dp dsz nd _ rp rsz nr); [done|done| |done]. intros a Ha Hb. by apply (Hap a).
  - intros a Ha1 Ha2. by rewrite F3, F.
Qed.

(** ** [tring_int_handler] *)

Definition add_calls (cs : list net_call) (s : tring_state D) : tring_state D :=
  mk_tring (t_smc s) (t_words s) (t_lists s) (eth_request_queue s) (eth_active_request s) (eth_request_pool s)
    (eth_dma_desc_pool s) (eth_dma_channel s) (t_calls s ++ cs).

Lemma add_calls_nil s : add_calls [] s = s.
Proof. destruct s. unfold add_calls. cbn. by rewrite app_nil_r. Qed.

Lemma add_calls_cons c cs s : add_calls cs (add_call c s) = add_calls (c :: cs) s.
Proof. unfold add_calls. cbn. by rewrite <- app_assoc. Qed.

Lemma wp_input_chain fuel q bs s (Q : unit -> tring_state D -> Prop) : (length bs < fuel)%nat -> pbufs (t_words s) q bs ->
  Q tt (add_calls (map (fun b => Input (b_addr b)) bs) s) -> wp (input_chain fuel q) Q s.
Proof.
  revert fuel q s. induction bs as [|b bs IH]; intros [|fuel] q s Hf Hb HQ; try (cbn in Hf; lia); cbn [input_chain].
  - cbn in Hb. subst q. cbn. by rewrite <- (add_calls_nil s).
  - destruct Hb as (-> & Hq & Hm & _ & _ & Hn). assert (nz (b_addr b) = true) as -> by (apply negb_true_iff, Z.eqb_neq; lia). cbn [negb].
    apply wp_bind, wp_modify. apply wp_bind, wp_words, wp_load; [apply valid_addr_spec; unfold p_next; lia|].
    replace (set_words _ _) with (add_call (Input (b_addr b)) s) by (by destruct s).
    apply (IH fuel); [cbn in Hf; lia|done|]. by rewrite add_calls_cons.
Qed.

(** The handler of the interrupt at the end of a transfer of a received frame. *)
Lemma wp_tring_int_handler s nd av nr rav r p bs ss ds rs (Q : unit -> tring_state D -> Prop) :
  length (lwiplog (s_log (t_smc s))) = Z.to_nat LWIPLOG_ENTRIES -> 0 <= lwipidx (s_log (t_smc s)) < LWIPLOG_ENTRIES ->
  eth_active_request s = r -> peek (t_words s) (r_pbuf r) = p -> peek (t_words s) (r_flags r) = TRING_CHAIN_RX -> pbufs (t_words s) p bs ->
  let dp := eth_dma_desc_pool s in
  let rp := eth_request_pool s in
  owned (t_words s) dp nd av rp nr rav r ss ds ->
  requests (t_lists s) (eth_request_queue s) rs -> (forall x, x ∈ rs -> is_block rp rsz nr x) ->
  (forall m' log, pool_has m' dp dsz nd (rev ds ++ rev ss ++ av) -> pool_has m' rp rsz nr (r :: rav) ->
     (forall a, ~ in_pool dp dsz nd a -> ~ pool_word rp [r] a -> peek m' a = peek (t_words s) a) ->
     let s' := add_calls (AckInt (eth_dma_channel s) :: map (fun b => Input (b_addr b)) bs) (set_words m' (set_smc (set_log log (t_smc s)) s)) in
     match rs with
     | [] => Q tt (set_active NULL s')
     | x :: rs => forall l q, requests l q rs ->
         let m := t_words s in
         Q tt (add_call (Launch (eth_dma_channel s) (peek m (r_src x)) (peek m (r_dst x))) (set_active x (set_queue l q s')))
     end) ->
  wp tring_int_handler Q s.
Proof.
  intros Hl Hi Er Hp Hfl Hb dp rp Hown Hrs Hblk HQ. pose proof Hown as [_ Hr Hap [Br _] _ _ _ _].
  destruct (block_in _ rp rsz nr rav r Hr ltac:(done) Br) as (Hr0 & Hrm & Ir).
  assert (forall y i, 0 < y -> y mod 4 = 0 -> 0 <= i -> valid_addr (y + 4 * i) = true) as Vr.
  { intros y i Hy Hym Hi'. apply valid_addr_spec. split; [lia|]. rewrite (Z.mul_comm 4), Z_mod_plus_full. done. }
  unfold tring_int_handler. apply wp_bind, wp_gets, wp_bind, wp_modify, wp_bind, wp_gets. cbn [eth_active_request add_call]. rewrite Er.
  apply wp_bind, wp_words, wp_load; [apply valid_addr_spec; unfold r_flags; lia|]. cbn [t_words add_call]. rewrite Hfl. cbn [nz negb Z.land TRING_CHAIN_RX Z.eqb Pos.land when].
  apply wp_bind, wp_bind, wp_words, wp_load; [by apply (Vr r 3)|]. apply wp_bind, wp_gets. cbn [t_words add_call set_words]. rewrite Hp.
  destruct (pbufs_chain _ _ _ Hb) as [Hbc Hb0]. pose proof (chain_fuel_enough _ _ _ Hb0 Hbc) as Hfu. rewrite length_map in Hfu.
  apply wp_bind, (wp_input_chain _ _ bs); [done|done|]. apply wp_chip, wp_lwipprint; [done|done|]. intros log.
  apply wp_bind, wp_gets, wp_bind, wp_gets, wp_bind, wp_words. cbn [t_words set_smc add_calls set_words add_call eth_dma_desc_pool eth_request_pool].
  apply (wp_clear_request _ _ _ _ _ _ _ _ _ _ _ Hown). intros m' Hd' Hr' F'. apply wp_bind, wp_gets.
  specialize (HQ m' log Hd' Hr' F'). cbn zeta in HQ. rewrite <- add_calls_cons in HQ. cbn [t_lists eth_request_queue set_words set_smc add_calls add_call].
  destruct rs as [|x rs].
  - rewrite (requests_empty _ _ Hrs). apply wp_modify. exact HQ.
  - destruct (requests_extract _ _ _ _ Hrs) as (-> & l & q & El & Hlq). apply wp_bind.
    eapply wp_intro; [cbn [t_lists eth_request_queue set_words set_smc add_calls add_call]; rewrite El; reflexivity|]. cbn beta iota.
    apply wp_bind, wp_modify. destruct (block_in _ rp rsz nr rav x Hr ltac:(done) (Hblk x ltac:(left))) as (Hx0 & Hxm & Ix).
    apply wp_bind, wp_words, wp_load; [by apply (Vr x 1)|]. apply wp_bind, wp_words, wp_load; [by apply (Vr x 2)|]. cbn [t_words set_words set_active set_queue].
    assert (forall a, x <= a < x + 16 -> peek m' a = peek (t_words s) a) as Fx.
    { intros a Ha. apply F'; [by apply Hap, Ix|]. apply (data_not_word rp rsz nr x _ a); [done|by apply Hblk; left| |done].
      by intros e ->%list_elem_of_singleton. }
    rewrite !Fx by (unfold r_src, r_dst; lia). unfold mdma_launch. apply wp_bind, wp_gets, wp_modify. exact (HQ l q Hlq).
Qed.
End done.
