(* ===== verification/Ulibc.v ===== *)
(** * The user library and the entry of a system call

    user/ulibc has a function for each system call, which puts its
    arguments in registers (include/blackfin/syscalls.h) and raises exception 0.
    The exception ends in [_system_call] (blackfin/entry.S), which looks the
    function up in the table of blackfin/syscall_tab.S and calls it. The
    functions of the table that are not part of the state of the kernel (the
    sockets of lwIP, the access to registers, [def_inh_sys]) are the parameter
    [ext]. *)

From Stdlib Require Import ZArith Lia.
From stdpp Require Import base tactics gmap option list.
From S2P Require Import Prelude Bits Mem Kstate Waitobj Task Semaphore Event Mailbox Mempool Kernel.

Open Scope Z_scope.
Open Scope kernel_scope.

(** ** Registers and packets *)

(** The registers of the task when it raises the exception, as words. *)
Record regs := mk_regs {
  P0 : Z; R0 : Z; R1 : Z; R2 : Z; R3 : Z;
  SEQSTAT : Z; RETE : Z; RETN : Z
}.

(** The words a C function takes for its arguments: the first three are in
    registers, the others on the stack, where [SAVE_IRQ_CONTEXT] pushed these
    registers last. *)
Definition args (g : regs) : list Z := [R0 g; R1 g; R2 g; SEQSTAT g; RETE g; RETN g].

Definition arg (n : nat) (g : regs) : Z := u32 (nth n (args g) 0).

Definition word_field (m : gmap Z Z) (p : Z) (i : Z) : Z := u32 (peek m (p + 4 * i)).
Definition int_field (m : gmap Z Z) (p : Z) (i : Z) : Z := i32 (peek m (p + 4 * i)).

(** The packets of the creation calls in memory; NULL is [None]. *)
Definition ctsk_at (m : gmap Z Z) (p : Z) : option T_CTSK :=
  if p =? 0 then None else
  Some (mk_ctsk (word_field m p 0) (int_field m p 1) (word_field m p 2) (word_field m p 3)
    (int_field m p 4) (word_field m p 5) (word_field m p 6)).

Definition csem_at (m : gmap Z Z) (p : Z) : option T_CSEM :=
  if p =? 0 then None else Some (mk_csem (int_field m p 0) (int_field m p 1) (int_field m p 2)).

(** The first word of the packet of an eventflag, [exinf], is not used. *)
Definition cflg_at (m : gmap Z Z) (p : Z) : option T_CFLG :=
  if p =? 0 then None else Some (mk_cflg (int_field m p 1) (word_field m p 2)).

Definition cmbx_at (m : gmap Z Z) (p : Z) : option T_CMBX :=
  if p =? 0 then None else Some (mk_cmbx (int_field m p 0) (word_field m p 1) (word_field m p 2)).

Definition cmpf_at (m : gmap Z Z) (p : Z) : option T_CMPF :=
  if p =? 0 then None else
  Some (mk_cmpf (int_field m p 0) (word_field m p 1) (word_field m p 2) (word_field m p 3)).

Definition cmpl_at (m : gmap Z Z) (p : Z) : option T_CMPL :=
  if p =? 0 then None else Some (mk_cmpl (int_field m p 0) (word_field m p 1) (word_field m p 2)).

(** ** The table *)

(** The functions the table names. *)
Inductive func :=
  | F_cre_tsk_sys | F_del_tsk_sys | F_act_tsk_sys | F_can_act_sys | F_ext_tsk_sys | F_exd_tsk_sys |
  F_ter_tsk_sys | F_chg_pri_sys | F_get_pri_sys | F_ref_tsk_sys | F_ref_tst_sys | F_slp_tsk_sys |
  F_tslp_tsk_sys | F_wup_tsk_sys | F_can_wup_sys | F_rel_wai_sys | F_cre_sem_sys | F_del_sem_sys |
  F_sig_sem_sys | F_wai_sem_sys | F_twai_sem_sys | F_cre_flg_sys | F_del_flg_sys | F_set_flg_sys |
  F_clr_flg_sys | F_wai_flg_sys | F_cre_mbx_sys | F_del_mbx_sys | F_snd_mbx_sys | F_rcv_mbx_sys |
  F_trcv_mbx_sys | F_ref_mbx_sys | F_cre_mpf_sys | F_del_mpf_sys | F_rel_mpf_sys | F_get_mpf_sys |
  F_get_tim_sys | F_def_inh_sys | F_cre_mpl_sys | F_rel_mpl_sys | F_get_mpl_sys | F_acre_tsk_sys |
  F_acre_sem_sys | F_acre_mbx_sys | F_rea8_mmr_sys | F_wri8_mmr_sys | F_rea16_mmr_sys | F_wri16_mmr_sys |
  F_rea32_mmr_sys | F_wri32_mmr_sys | F_lwip_accept | F_lwip_bind | F_lwip_shutdown | F_lwip_getpeername |
  F_lwip_getsockname | F_lwip_getsockopt | F_lwip_setsockopt | F_lwip_close | F_lwip_connect | F_lwip_listen |
  F_lwip_recv | F_lwip_read | F_lwip_recvfrom | F_lwip_send | F_lwip_sendto | F_lwip_socket | F_lwip_write |
  F_lwip_select | F_lwip_ioctl.

Local Notation "'__'" := (@None func).

(** [_syscall_table], by rows of eight. *)
Definition syscall_table : list (option func) := [
  (* 0x00 *) __; __; __; __; __; Some F_cre_tsk_sys; Some F_del_tsk_sys; Some F_act_tsk_sys;
  (* 0x08 *) Some F_can_act_sys; __; Some F_ext_tsk_sys; Some F_exd_tsk_sys; Some F_ter_tsk_sys; Some F_chg_pri_sys; Some F_get_pri_sys; Some F_ref_tsk_sys;
  (* 0x10 *) Some F_ref_tst_sys; Some F_slp_tsk_sys; Some F_tslp_tsk_sys; Some F_wup_tsk_sys; Some F_can_wup_sys; Some F_rel_wai_sys; __; __;
  (* 0x18 *) __; __; __; __; __; __; __; __;
  (* 0x20 *) __; Some F_cre_sem_sys; Some F_del_sem_sys; Some F_sig_sem_sys; __; Some F_wai_sem_sys; __; Some F_twai_sem_sys;
  (* 0x28 *) __; Some F_cre_flg_sys; Some F_del_flg_sys; Some F_set_flg_sys; Some F_clr_flg_sys; Some F_wai_flg_sys; __; __;
  (* 0x30 *) __; __; __; __; __; __; __; __;
  (* 0x38 *) __; __; __; __; __; Some F_cre_mbx_sys; Some F_del_mbx_sys; Some F_snd_mbx_sys;
  (* 0x40 *) __; Some F_rcv_mbx_sys; __; Some F_trcv_mbx_sys; Some F_ref_mbx_sys; Some F_cre_mpf_sys; Some F_del_mpf_sys; Some F_rel_mpf_sys;
  (* 0x48 *) __; Some F_get_mpf_sys; __; __; __; __; Some F_get_tim_sys; __;
  (* 0x50 *) __; __; __; __; __; __; __; __;
  (* 0x58 *) __; __; __; __; __; __; __; __;
  (* 0x60 *) __; __; __; __; __; Some F_def_inh_sys; __; __;
  (* 0x68 *) __; __; __; __; __; __; __; __;
  (* 0x70 *) __; __; __; __; __; __; __; __;
  (* 0x78 *) __; __; __; __; __; __; __; __;
  (* 0x80 *) __; __; __; __; __; __; __; __;
  (* 0x88 *) __; __; __; __; __; __; __; __;
  (* 0x90 *) __; __; __; __; __; __; __; __;
  (* 0x98 *) __; __; __; __; __; __; __; __;
  (* 0xa0 *) Some F_cre_mpl_sys; __; Some F_rel_mpl_sys; __; __; Some F_get_mpl_sys; __; __;
  (* 0xa8 *) __; __; __; __; __; __; __; __;
  (* 0xb0 *) __; __; __; __; __; __; __; __;
  (* 0xb8 *) __; __; __; __; __; __; __; __;
  (* 0xc0 *) __; Some F_acre_tsk_sys; Some F_acre_sem_sys; __; __; Some F_acre_mbx_sys; __; __;
  (* 0xc8 *) __; __; __; __; __; __; __; __;
  (* 0xd0 *) Some F_rea8_mmr_sys; Some F_wri8_mmr_sys; Some F_rea16_mmr_sys; Some F_wri16_mmr_sys; Some F_rea32_mmr_sys; Some F_wri32_mmr_sys; __; __;
  (* 0xd8 *) Some F_lwip_accept; Some F_lwip_bind; Some F_lwip_shutdown; Some F_lwip_getpeername; Some F_lwip_getsockname; Some F_lwip_getsockopt; Some F_lwip_setsockopt; Some F_lwip_close;
  (* 0xe0 *) Some F_lwip_connect; Some F_lwip_listen; Some F_lwip_recv; Some F_lwip_read; Some F_lwip_recvfrom; Some F_lwip_send; Some F_lwip_sendto; Some F_lwip_socket;
  (* 0xe8 *) Some F_lwip_write; Some F_lwip_select; Some F_lwip_ioctl
].

(** The arguments of the function in their types. *)
Definition decode (f : func) (g : regs) (m : gmap Z Z) : option syscall :=
  match f with
  | F_cre_tsk_sys => Some (Ccre_tsk (i32 (arg 0 g)) (ctsk_at m (arg 1 g)))
  | F_del_tsk_sys => Some (Cdel_tsk (i32 (arg 0 g)))
  | F_act_tsk_sys => Some (Cact_tsk (i32 (arg 0 g)))
  | F_can_act_sys => Some (Ccan_act (i32 (arg 0 g)))
  | F_ext_tsk_sys => Some Cext_tsk
  | F_exd_tsk_sys => Some Cexd_tsk
  | F_ter_tsk_sys => Some (Cter_tsk (i32 (arg 0 g)))
  | F_chg_pri_sys => Some (Cchg_pri (i32 (arg 0 g)) (arg 1 g))
  | F_get_pri_sys => Some (Cget_pri (i32 (arg 0 g)) (arg 1 g))
  | F_ref_tsk_sys => Some (Cref_tsk (i32 (arg 0 g)) (arg 1 g))
  | F_ref_tst_sys => Some (Cref_tst (i32 (arg 0 g)) (arg 1 g))
  | F_slp_tsk_sys => Some Cslp_tsk
  | F_tslp_tsk_sys => Some (Ctslp_tsk (arg 0 g))
  | F_wup_tsk_sys => Some (Cwup_tsk (i32 (arg 0 g)))
  | F_can_wup_sys => Some (Ccan_wup (i32 (arg 0 g)))
  | F_rel_wai_sys => Some (Crel_wai (i32 (arg 0 g)))
  | F_cre_sem_sys => Some (Ccre_sem (i32 (arg 0 g)) (csem_at m (arg 1 g)))
  | F_del_sem_sys => Some (Cdel_sem (i32 (arg 0 g)))
  | F_sig_sem_sys => Some (Csig_sem (i32 (arg 0 g)))
  | F_wai_sem_sys => Some (Cwai_sem (i32 (arg 0 g)))
  | F_twai_sem_sys => Some (Ctwai_sem (i32 (arg 0 g)) (arg 1 g))
  | F_cre_flg_sys => Some (Ccre_flg (i32 (arg 0 g)) (cflg_at m (arg 1 g)))
  | F_del_flg_sys => Some (Cdel_flg (i32 (arg 0 g)))
  | F_set_flg_sys => Some (Cset_flg (i32 (arg 0 g)) (arg 1 g))
  | F_clr_flg_sys => Some (Cclr_flg (i32 (arg 0 g)) (arg 1 g))
  | F_wai_flg_sys => Some (Cwai_flg (i32 (arg 0 g)) (arg 1 g) (arg 2 g) (arg 3 g))
  | F_cre_mbx_sys => Some (Ccre_mbx (i32 (arg 0 g)) (cmbx_at m (arg 1 g)))
  | F_del_mbx_sys => Some (Cdel_mbx (i32 (arg 0 g)))
  | F_snd_mbx_sys => Some (Csnd_mbx (i32 (arg 0 g)) (arg 1 g))
  | F_rcv_mbx_sys => Some (Crcv_mbx (i32 (arg 0 g)) (arg 1 g))
  | F_trcv_mbx_sys => Some (Ctrcv_mbx (i32 (arg 0 g)) (arg 1 g) (arg 2 g))
  | F_ref_mbx_sys => Some (Cref_mbx (i32 (arg 0 g)) (arg 1 g))
  | F_cre_mpf_sys => Some (Ccre_mpf (i32 (arg 0 g)) (cmpf_at m (arg 1 g)))
  | F_del_mpf_sys => Some (Cdel_mpf (i32 (arg 0 g)))
  | F_rel_mpf_sys => Some (Crel_mpf (i32 (arg 0 g)) (arg 1 g))
  | F_get_mpf_sys => Some (Cget_mpf (i32 (arg 0 g)) (arg 1 g))
  | F_get_tim_sys => Some (Cget_tim (arg 0 g))
  | F_cre_mpl_sys => Some (Ccre_mpl (i32 (arg 0 g)) (cmpl_at m (arg 1 g)))
  | F_rel_mpl_sys => Some (Crel_mpl (i32 (arg 0 g)) (arg 1 g))
  | F_get_mpl_sys => Some (Cget_mpl (i32 (arg 0 g)) (arg 1 g) (arg 2 g))
  | F_acre_tsk_sys => Some (Cacre_tsk (ctsk_at m (arg 0 g)))
  | F_acre_sem_sys => Some (Cacre_sem (csem_at m (arg 0 g)))
  | F_acre_mbx_sys => Some (Cacre_mbx (cmbx_at m (arg 0 g)))
  | _ => None
  end.

Definition NR_SYSCALLS : Z := 256.
Definition UNKNOWN_SYSCALL : Z := -1.
Definition E_SYS : Z := -5.

Section entry.
Variable ext : func -> list Z -> KM sysres.

(** [call (p4)]. *)
Definition call_entry (f : func) (g : regs) : KM sysres :=
  let* m := gets k_mem in
  match decode f g m with
  | Some sc => exec sc
  | None => ext f (args g)
  end.

(** The word at the place [n] of the table; the words before and behind it are
    not known. *)
Definition table_entry (n : Z) : option (option func) :=
  if n <? 0 then None else syscall_table !! Z.to_nat n.

(** [_system_call]: the answer is the value of [r0]. A number between the last
    entry and [NR_SYSCALLS] takes what lies behind the table for a function. *)
Definition system_call (g : regs) : KM sysres :=
  let p0 := i32 (P0 g) in
  if NR_SYSCALLS <? p0 then ret (Done UNKNOWN_SYSCALL) else
  if p0 <? 0 then ret (Done UNKNOWN_SYSCALL) else
  match table_entry p0 with
  | Some (Some f) => call_entry f g
  | Some None => ret (Done UNKNOWN_SYSCALL)
  | None => fault
  end.

(** ** The macros of the library *)

Definition _syscall0 (nr : Z) (g : regs) : KM sysres :=
  system_call (mk_regs nr (R0 g) (R1 g) (R2 g) (R3 g) (SEQSTAT g) (RETE g) (RETN g)).

Definition _syscall1 (nr a1 : Z) (g : regs) : KM sysres :=
  system_call (mk_regs nr a1 (R1 g) (R2 g) (R3 g) (SEQSTAT g) (RETE g) (RETN g)).

Definition _syscall2 (nr a1 a2 : Z) (g : regs) : KM sysres :=
  system_call (mk_regs nr a1 a2 (R2 g) (R3 g) (SEQSTAT g) (RETE g) (RETN g)).

Definition _syscall3 (nr a1 a2 a3 : Z) (g : regs) : KM sysres :=
  system_call (mk_regs nr a1 a2 a3 (R3 g) (SEQSTAT g) (RETE g) (RETN g)).

Definition _syscall4 (nr a1 a2 a3 a4 : Z) (g : regs) : KM sysres :=
  system_call (mk_regs nr a1 a2 a3 a4 (SEQSTAT g) (RETE g) (RETN g)).

(** The last arguments of these two are put nowhere. *)
Definition _syscall5 (nr a1 a2 a3 a4 a5 : Z) (g : regs) : KM sysres :=
  system_call (mk_regs nr a1 a2 a3 a4 (SEQSTAT g) (RETE g) (RETN g)).

Definition _syscall6 (nr a1 a2 a3 a4 a5 a6 : Z) (g : regs) : KM sysres :=
  system_call (mk_regs nr a1 a2 a3 a4 (SEQSTAT g) (RETE g) (RETN g)).

End entry.

(** The codes of include/itronsys/fncodes.h that the kernel does not log. *)
Definition TFN_TER_TSK : Z := -0x0c.
Definition TFN_GET_PRI : Z := -0x0e.
Definition TFN_REF_TSK : Z := -0x0f.
Definition TFN_REF_TST : Z := -0x10.
Definition TFN_WUP_TSK : Z := -0x13.
Definition TFN_REL_WAI : Z := -0x15.
Definition TFN_CLR_FLG : Z := -0x2c.
Definition TFN_REF_MBX : Z := -0x44.
Definition TFN_GET_TIM : Z := -0x4e.
Definition TFN_CRE_MPL : Z := -0xa1.
Definition TFN_GET_MPL : Z := -0xa5.
Definition TFN_REL_MPL : Z := -0xa3.
Definition TFN_REA8_MMR : Z := -0xd0.
Definition TFN_WRI8_MMR : Z := -0xd1.
Definition TFN_REA16_MMR : Z := -0xd2.
Definition TFN_WRI16_MMR : Z := -0xd3.
Definition TFN_REA32_MMR : Z := -0xd4.
Definition TFN_WRI32_MMR : Z := -0xd5.
Definition TFN_ACCEPT : Z := -0xd8.
Definition TFN_BIND : Z := -0xd9.
Definition TFN_SHUTDOWN : Z := -0xda.
Definition TFN_GETPEERNAME : Z := -0xdb.
Definition TFN_GETSOCKNAME : Z := -0xdc.
Definition TFN_GETSOCKOPT : Z := -0xdd.
Definition TFN_SETSOCKOPT : Z := -0xde.
Definition TFN_CLOSE : Z := -0xdf.
Definition TFN_CONNECT : Z := -0xe0.
Definition TFN_LISTEN : Z := -0xe1.
Definition TFN_RECV : Z := -0xe2.
Definition TFN_READ : Z := -0xe3.
Definition TFN_RECVFROM : Z := -0xe4.
Definition TFN_SEND : Z := -0xe5.
Definition TFN_SENDTO : Z := -0xe6.
Definition TFN_SOCKET : Z := -0xe7.
Definition TFN_WRITE : Z := -0xe8.
Definition TFN_SELECT : Z := -0xe9.
Definition TFN_IOCTL : Z := -0xea.

(** The function code of each function of the table. *)
Definition fn_code (f : func) : Z :=
  match f with
  | F_cre_tsk_sys => TFN_CRE_TSK
  | F_del_tsk_sys => TFN_DEL_TSK
  | F_act_tsk_sys => TFN_ACT_TSK
  | F_can_act_sys => TFN_CAN_ACT
  | F_ext_tsk_sys => TFN_EXT_TSK
  | F_exd_tsk_sys => TFN_EXD_TSK
  | F_ter_tsk_sys => TFN_TER_TSK
  | F_chg_pri_sys => TFN_CHG_PRI
  | F_get_pri_sys => TFN_GET_PRI
  | F_ref_tsk_sys => TFN_REF_TSK
  | F_ref_tst_sys => TFN_REF_TST
  | F_slp_tsk_sys => TFN_SLP_TSK
  | F_tslp_tsk_sys => TFN_TSLP_TSK
  | F_wup_tsk_sys => TFN_WUP_TSK
  | F_can_wup_sys => TFN_CAN_WUP
  | F_rel_wai_sys => TFN_REL_WAI
  | F_cre_sem_sys => TFN_CRE_SEM
  | F_del_sem_sys => TFN_DEL_SEM
  | F_sig_sem_sys => TFN_SIG_SEM
  | F_wai_sem_sys => TFN_WAI_SEM
  | F_twai_sem_sys => TFN_TWAI_SEM
  | F_cre_flg_sys => TFN_CRE_FLG
  | F_del_flg_sys => TFN_DEL_FLG
  | F_set_flg_sys => TFN_SET_FLG
  | F_clr_flg_sys => TFN_CLR_FLG
  | F_wai_flg_sys => TFN_WAI_FLG
  | F_cre_mbx_sys => TFN_CRE_MBX
  | F_del_mbx_sys => TFN_DEL_MBX
  | F_snd_mbx_sys => TFN_SND_MBX
  | F_rcv_mbx_sys => TFN_RCV_MBX
  | F_trcv_mbx_sys => TFN_TRCV_MBX
  | F_ref_mbx_sys => TFN_REF_MBX
  | F_cre_mpf_sys => TFN_CRE_MPF
  | F_del_mpf_sys => TFN_DEL_MPF
  | F_rel_mpf_sys => TFN_REL_MPF
  | F_get_mpf_sys => TFN_GET_MPF
  | F_get_tim_sys => TFN_GET_TIM
  | F_def_inh_sys => TFN_DEF_INH
  | F_cre_mpl_sys => TFN_CRE_MPL
  | F_rel_mpl_sys => TFN_REL_MPL
  | F_get_mpl_sys => TFN_GET_MPL
  | F_acre_tsk_sys => TFN_ACRE_TSK
  | F_acre_sem_sys => TFN_ACRE_SEM
  | F_acre_mbx_sys => TFN_ACRE_MBX
  | F_rea8_mmr_sys => TFN_REA8_MMR
  | F_wri8_mmr_sys => TFN_WRI8_MMR
  | F_rea16_mmr_sys => TFN_REA16_MMR
  | F_wri16_mmr_sys => TFN_WRI16_MMR
  | F_rea32_mmr_sys => TFN_REA32_MMR
  | F_wri32_mmr_sys => TFN_WRI32_MMR
  | F_lwip_accept => TFN_ACCEPT
  | F_lwip_bind => TFN_BIND
  | F_lwip_shutdown => TFN_SHUTDOWN
  | F_lwip_getpeername => TFN_GETPEERNAME
  | F_lwip_getsockname => TFN_GETSOCKNAME
  | F_lwip_getsockopt => TFN_GETSOCKOPT
  | F_lwip_setsockopt => TFN_SETSOCKOPT
  | F_lwip_close => TFN_CLOSE
  | F_lwip_connect => TFN_CONNECT
  | F_lwip_listen => TFN_LISTEN
  | F_lwip_recv => TFN_RECV
  | F_lwip_read => TFN_READ
  | F_lwip_recvfrom => TFN_RECVFROM
  | F_lwip_send => TFN_SEND
  | F_lwip_sendto => TFN_SENDTO
  | F_lwip_socket => TFN_SOCKET
  | F_lwip_write => TFN_WRITE
  | F_lwip_select => TFN_SELECT
  | F_lwip_ioctl => TFN_IOCTL
  end.

(** ** The functions of the library *)

Module User.
Section wrappers.
Variable ext : func -> list Z -> KM sysres.
Variable g : regs.

(** libc/task.c *)
Definition acre_tsk (pk_ctsk : Z) : KM sysres := _syscall1 ext (- TFN_ACRE_TSK) pk_ctsk g.
Definition act_tsk (tskid : Z) : KM sysres := _syscall1 ext (- TFN_ACT_TSK) tskid g.
Definition can_act (tskid : Z) : KM sysres := _syscall1 ext (- TFN_CAN_ACT) tskid g.
Definition chg_pri (tskid tskpri : Z) : KM sysres := _syscall2 ext (- TFN_CHG_PRI) tskid tskpri g.
Definition cre_tsk (tskid pk_ctsk : Z) : KM sysres := _syscall2 ext (- TFN_CRE_TSK) tskid pk_ctsk g.
Definition del_tsk (tskid : Z) : KM sysres := _syscall1 ext (- TFN_DEL_TSK) tskid g.
Definition ext_tsk : KM sysres := _syscall0 ext (- TFN_EXT_TSK) g.
Definition exd_tsk : KM sysres := _syscall0 ext (- TFN_EXD_TSK) g.
Definition get_pri (tskid p_tskpri : Z) : KM sysres := _syscall2 ext (- TFN_GET_PRI) tskid p_tskpri g.
Definition rel_wai (tskid : Z) : KM sysres := _syscall1 ext (- TFN_REL_WAI) tskid g.
Definition slp_tsk : KM sysres := _syscall0 ext (- TFN_SLP_TSK) g.
Definition tslp_tsk (tmout : Z) : KM sysres := _syscall1 ext (- TFN_TSLP_TSK) tmout g.
(* Not finished: they answer without a call. *)
Definition wup_tsk (tskid : Z) : KM sysres := ret (Done E_SYS).
Definition sus_tsk (tskid : Z) : KM sysres := ret (Done E_SYS).
Definition ter_tsk (tskid : Z) : KM sysres := ret (Done E_SYS).

(** libc/semaphore.c *)
Definition acre_sem (pk_csem : Z) : KM sysres := _syscall1 ext (- TFN_ACRE_SEM) pk_csem g.
Definition cre_sem (semid pk_csem : Z) : KM sysres := _syscall2 ext (- TFN_CRE_SEM) semid pk_csem g.
Definition del_sem (semid : Z) : KM sysres := _syscall1 ext (- TFN_DEL_SEM) semid g.
Definition sig_sem (semid : Z) : KM sysres := _syscall1 ext (- TFN_SIG_SEM) semid g.
Definition wai_sem (semid : Z) : KM sysres := _syscall1 ext (- TFN_WAI_SEM) semid g.
Definition twai_sem (semid tmout : Z) : KM sysres := _syscall2 ext (- TFN_TWAI_SEM) semid tmout g.

(** libc/event.c *)
Definition clr_flg (flgid clrptn : Z) : KM sysres := _syscall2 ext (- TFN_CLR_FLG) flgid clrptn g.
Definition cre_flg (flgid pk_cflg : Z) : KM sysres := _syscall2 ext (- TFN_CRE_FLG) flgid pk_cflg g.
Definition del_flg (flgid : Z) : KM sysres := _syscall1 ext (- TFN_DEL_FLG) flgid g.
Definition set_flg (flgid setptn : Z) : KM sysres := _syscall2 ext (- TFN_SET_FLG) flgid setptn g.
Definition wai_flg (flgid waiptn wfmode p_flgptn : Z) : KM sysres := _syscall4 ext (- TFN_WAI_FLG) flgid waiptn wfmode p_flgptn g.

(** libc/mailbox.c *)
Definition acre_mbx (pk_cmbx : Z) : KM sysres := _syscall1 ext (- TFN_ACRE_MBX) pk_cmbx g.
Definition cre_mbx (mbxid pk_cmbx : Z) : KM sysres := _syscall2 ext (- TFN_CRE_MBX) mbxid pk_cmbx g.
Definition del_mbx (mbxid : Z) : KM sysres := _syscall1 ext (- TFN_DEL_MBX) mbxid g.
Definition rcv_mbx (mbxid ppk_msg : Z) : KM sysres := _syscall2 ext (- TFN_RCV_MBX) mbxid ppk_msg g.
Definition trcv_mbx (mbxid ppk_msg tmout : Z) : KM sysres := _syscall3 ext (- TFN_TRCV_MBX) mbxid ppk_msg tmout g.
Definition ref_mbx (mbxid pk_rmbx : Z) : KM sysres := _syscall2 ext (- TFN_REF_MBX) mbxid pk_rmbx g.
Definition snd_mbx (mbxid pk_msg : Z) : KM sysres := _syscall2 ext (- TFN_SND_MBX) mbxid pk_msg g.

(** libc/mempool.c *)
Definition cre_mpf (mpfid pk_cmpf : Z) : KM sysres := _syscall2 ext (- TFN_CRE_MPF) mpfid pk_cmpf g.
Definition del_mpf (mpfid : Z) : KM sysres := _syscall1 ext (- TFN_DEL_MPF) mpfid g.
Definition get_mpf (mpfid p_blk : Z) : KM sysres := _syscall2 ext (- TFN_GET_MPF) mpfid p_blk g.
Definition rel_mpf (mpfid blk : Z) : KM sysres := _syscall2 ext (- TFN_REL_MPF) mpfid blk g.
Definition cre_mpl (mplid pk_cmpl : Z) : KM sysres := _syscall2 ext (- TFN_CRE_MPL) mplid pk_cmpl g.
Definition get_mpl (mplid blksz p_blk : Z) : KM sysres := _syscall3 ext (- TFN_GET_MPL) mplid blksz p_blk g.
Definition rel_mpl (mplid blk : Z) : KM sysres := _syscall2 ext (- TFN_REL_MPL) mplid blk g.

(** blackfin/processor.c *)
Definition rea8_mmr (mmr p_val : Z) : KM sysres := _syscall2 ext (- TFN_REA8_MMR) mmr p_val g.
Definition wri8_mmr (mmr val : Z) : KM sysres := _syscall2 ext (- TFN_WRI8_MMR) mmr val g.
Definition rea16_mmr (mmr p_val : Z) : KM sysres := _syscall2 ext (- TFN_REA16_MMR) mmr p_val g.
Definition wri16_mmr (mmr val : Z) : KM sysres := _syscall2 ext (- TFN_WRI16_MMR) mmr val g.
Definition rea32_mmr (mmr p_val : Z) : KM sysres := _syscall2 ext (- TFN_REA32_MMR) mmr p_val g.
Definition wri32_mmr (mmr val : Z) : KM sysres := _syscall2 ext (- TFN_WRI32_MMR) mmr val g.

(** libc/sockets.c *)
Definition accept (s addr addrlen : Z) : KM sysres := _syscall3 ext (- TFN_ACCEPT) s addr addrlen g.
Definition bind (s name namelen : Z) : KM sysres := _syscall3 ext (- TFN_BIND) s name namelen g.
Definition shutdown (s how : Z) : KM sysres := _syscall2 ext (- TFN_SHUTDOWN) s how g.
Definition getpeername (s name namelen : Z) : KM sysres := _syscall3 ext (- TFN_GETPEERNAME) s name namelen g.
Definition getsockname (s name namelen : Z) : KM sysres := _syscall3 ext (- TFN_GETSOCKNAME) s name namelen g.
Definition getsockopt (s level optname optval optlen : Z) : KM sysres := _syscall5 ext (- TFN_GETSOCKOPT) s level optname optval optlen g.
Definition setsockopt (s level optname optval optlen : Z) : KM sysres := _syscall5 ext (- TFN_SETSOCKOPT) s level optname optval optlen g.
Definition close (s : Z) : KM sysres := _syscall1 ext (- TFN_CLOSE) s g.
Definition connect (s name namelen : Z) : KM sysres := _syscall3 ext (- TFN_CONNECT) s name namelen g.
Definition listen (s backlog : Z) : KM sysres := _syscall2 ext (- TFN_LISTEN) s backlog g.
Definition recv (s mem len flags : Z) : KM sysres := _syscall4 ext (- TFN_RECV) s mem len flags g.
Definition read (s mem len : Z) : KM sysres := _syscall3 ext (- TFN_READ) s mem len g.
Definition recvfrom (s mem len flags from fromlen : Z) : KM sysres := _syscall6 ext (- TFN_RECVFROM) s mem len flags from fromlen g.
Definition send (s dataptr size flags : Z) : KM sysres := _syscall4 ext (- TFN_SEND) s dataptr size flags g.
Definition sendto (s dataptr size flags to tolen : Z) : KM sysres := _syscall6 ext (- TFN_SENDTO) s dataptr size flags to tolen g.
Definition socket (domain type protocol : Z) : KM sysres := _syscall3 ext (- TFN_SOCKET) domain type protocol g.
Definition write (s dataptr size : Z) : KM sysres := _syscall3 ext (- TFN_WRITE) s dataptr size g.
Definition select (maxfdp1 readset writeset exceptset timeout : Z) : KM sysres := _syscall5 ext (- TFN_SELECT) maxfdp1 readset writeset exceptset timeout g.
Definition ioctl (s cmd argp : Z) : KM sysres := _syscall3 ext (- TFN_IOCTL) s cmd argp g.

End wrappers.
End User.

(** ** Calls of a user program *)

Inductive ucall :=
  | U_acre_tsk (pk_ctsk : Z)
  | U_act_tsk (tskid : Z)
  | U_can_act (tskid : Z)
  | U_chg_pri (tskid tskpri : Z)
  | U_cre_tsk (tskid pk_ctsk : Z)
  | U_del_tsk (tskid : Z)
  | U_ext_tsk
  | U_exd_tsk
  | U_get_pri (tskid p_tskpri : Z)
  | U_rel_wai (tskid : Z)
  | U_slp_tsk
  | U_tslp_tsk (tmout : Z)
  | U_acre_sem (pk_csem : Z)
  | U_cre_sem (semid pk_csem : Z)
  | U_del_sem (semid : Z)
  | U_sig_sem (semid : Z)
  | U_wai_sem (semid : Z)
  | U_twai_sem (semid tmout : Z)
  | U_clr_flg (flgid clrptn : Z)
  | U_cre_flg (flgid pk_cflg : Z)
  | U_del_flg (flgid : Z)
  | U_set_flg (flgid setptn : Z)
  | U_wai_flg (flgid waiptn wfmode p_flgptn : Z)
  | U_acre_mbx (pk_cmbx : Z)
  | U_cre_mbx (mbxid pk_cmbx : Z)
  | U_del_mbx (mbxid : Z)
  | U_rcv_mbx (mbxid ppk_msg : Z)
  | U_trcv_mbx (mbxid ppk_msg tmout : Z)
  | U_ref_mbx (mbxid pk_rmbx : Z)
  | U_snd_mbx (mbxid pk_msg : Z)
  | U_cre_mpf (mpfid pk_cmpf : Z)
  | U_del_mpf (mpfid : Z)
  | U_get_mpf (mpfid p_blk : Z)
  | U_rel_mpf (mpfid blk : Z)
  | U_cre_mpl (mplid pk_cmpl : Z)
  | U_get_mpl (mplid blksz p_blk : Z)
  | U_rel_mpl (mplid blk : Z)
  | U_wup_tsk (tskid : Z)
  | U_sus_tsk (tskid : Z)
  | U_ter_tsk (tskid : Z)
  | U_rea8_mmr (mmr p_val : Z)
  | U_wri8_mmr (mmr val : Z)
  | U_rea16_mmr (mmr p_val : Z)
  | U_wri16_mmr (mmr val : Z)
  | U_rea32_mmr (mmr p_val : Z)
  | U_wri32_mmr (mmr val : Z)
  | U_accept (s addr addrlen : Z)
  | U_bind (s name namelen : Z)
  | U_shutdown (s how : Z)
  | U_getpeername (s name namelen : Z)
  | U_getsockname (s name namelen : Z)
  | U_getsockopt (s level optname optval optlen : Z)
  | U_setsockopt (s level optname optval optlen : Z)
  | U_close (s : Z)
  | U_connect (s name namelen : Z)
  | U_listen (s backlog : Z)
  | U_recv (s mem len flags : Z)
  | U_read (s mem len : Z)
  | U_recvfrom (s mem len flags from fromlen : Z)
  | U_send (s dataptr size flags : Z)
  | U_sendto (s dataptr size flags to tolen : Z)
  | U_socket (domain type protocol : Z)
  | U_write (s dataptr size : Z)
  | U_select (maxfdp1 readset writeset exceptset timeout : Z)
  | U_ioctl (s cmd argp : Z).

Definition ulib (ext : func -> list Z -> KM sysres) (g : regs) (c : ucall) : KM sysres :=
  match c with
  | U_acre_tsk pk_ctsk => User.acre_tsk ext g pk_ctsk
  | U_act_tsk tskid => User.act_tsk ext g tskid
  | U_can_act tskid => User.can_act ext g tskid
  | U_chg_pri tskid tskpri => User.chg_pri ext g tskid tskpri
  | U_cre_tsk tskid pk_ctsk => User.cre_tsk ext g tskid pk_ctsk
  | U_del_tsk tskid => User.del_tsk ext g tskid
  | U_ext_tsk => User.ext_tsk ext g
  | U_exd_tsk => User.exd_tsk ext g
  | U_get_pri tskid p_tskpri => User.get_pri ext g tskid p_tskpri
  | U_rel_wai tskid => User.rel_wai ext g tskid
  | U_slp_tsk => User.slp_tsk ext g
  | U_tslp_tsk tmout => User.tslp_tsk ext g tmout
  | U_acre_sem pk_csem => User.acre_sem ext g pk_csem
  | U_cre_sem semid pk_csem => User.cre_sem ext g semid pk_csem
  | U_del_sem semid => User.del_sem ext g semid
  | U_sig_sem semid => User.sig_sem ext g semid
  | U_wai_sem semid => User.wai_sem ext g semid
  | U_twai_sem semid tmout => User.twai_sem ext g semid tmout
  | U_clr_flg flgid clrptn => User.clr_flg ext g flgid clrptn
  | U_cre_flg flgid pk_cflg => User.cre_flg ext g flgid pk_cflg
  | U_del_flg flgid => User.del_flg ext g flgid
  | U_set_flg flgid setptn => User.set_flg ext g flgid setptn
  | U_wai_flg flgid waiptn wfmode p_flgptn => User.wai_flg ext g flgid waiptn wfmode p_flgptn
  | U_acre_mbx pk_cmbx => User.acre_mbx ext g pk_cmbx
  | U_cre_mbx mbxid pk_cmbx => User.cre_mbx ext g mbxid pk_cmbx
  | U_del_mbx mbxid => User.del_mbx ext g mbxid
  | U_rcv_mbx mbxid ppk_msg => User.rcv_mbx ext g mbxid ppk_msg
  | U_trcv_mbx mbxid ppk_msg tmout => User.trcv_mbx ext g mbxid ppk_msg tmout
  | U_ref_mbx mbxid pk_rmbx => User.ref_mbx ext g mbxid pk_rmbx
  | U_snd_mbx mbxid pk_msg => User.snd_mbx ext g mbxid pk_msg
  | U_cre_mpf mpfid pk_cmpf => User.cre_mpf ext g mpfid pk_cmpf
  | U_del_mpf mpfid => User.del_mpf ext g mpfid
  | U_get_mpf mpfid p_blk => User.get_mpf ext g mpfid p_blk
  | U_rel_mpf mpfid blk => User.rel_mpf ext g mpfid blk
  | U_cre_mpl mplid pk_cmpl => User.cre_mpl ext g mplid pk_cmpl
  | U_get_mpl mplid blksz p_blk => User.get_mpl ext g mplid blksz p_blk
  | U_rel_mpl mplid blk => User.rel_mpl ext g mplid blk
  | U_wup_tsk tskid => User.wup_tsk tskid
  | U_sus_tsk tskid => User.sus_tsk tskid
  | U_ter_tsk tskid => User.ter_tsk tskid
  | U_rea8_mmr mmr p_val => User.rea8_mmr ext g mmr p_val
  | U_wri8_mmr mmr val => User.wri8_mmr ext g mmr val
  | U_rea16_mmr mmr p_val => User.rea16_mmr ext g mmr p_val
  | U_wri16_mmr mmr val => User.wri16_mmr ext g mmr val
  | U_rea32_mmr mmr p_val => User.rea32_mmr ext g mmr p_val
  | U_wri32_mmr mmr val => User.wri32_mmr ext g mmr val
  | U_accept s addr addrlen => User.accept ext g s addr addrlen
  | U_bind s name namelen => User.bind ext g s name namelen
  | U_shutdown s how => User.shutdown ext g s how
  | U_getpeername s name namelen => User.getpeername ext g s name namelen
  | U_getsockname s name namelen => User.getsockname ext g s name namelen
  | U_getsockopt s level optname optval optlen => User.getsockopt ext g s level optname optval optlen
  | U_setsockopt s level optname optval optlen => User.setsockopt ext g s level optname optval optlen
  | U_close s => User.close ext g s
  | U_connect s name namelen => User.connect ext g s name namelen
  | U_listen s backlog => User.listen ext g s backlog
  | U_recv s mem len flags => User.recv ext g s mem len flags
  | U_read s mem len => User.read ext g s mem len
  | U_recvfrom s mem len flags from fromlen => User.recvfrom ext g s mem len flags from fromlen
  | U_send s dataptr size flags => User.send ext g s dataptr size flags
  | U_sendto s dataptr size flags to tolen => User.sendto ext g s dataptr size flags to tolen
  | U_socket domain type protocol => User.socket ext g domain type protocol
  | U_write s dataptr size => User.write ext g s dataptr size
  | U_select maxfdp1 readset writeset exceptset timeout => User.select ext g maxfdp1 readset writeset exceptset timeout
  | U_ioctl s cmd argp => User.ioctl ext g s cmd argp
  end.

(** What comes of a call: a system call of the kernel runs, a function outside of
    the state of the kernel gets its arguments, or the call is answered without
    any effect. *)
Inductive fate :=
  | InKernel (sc : syscall)
  | Outside (f : func) (l : list Z)
  | Answered (v : Z).

(** The fate of each function of the library: it is the system call, socket or
    register function of the same name, with the arguments that the caller gives
    and the packet that the memory [m] has at the pointer. But [wup_tsk],
    [sus_tsk] and [ter_tsk] are not finished; the numbers of [cre_mpl] and
    [rel_mpl] are empty entries of the table; and the last argument of [wai_flg]
    is the saved register where the kernel looks for it. *)
Definition fate_of (g : regs) (m : gmap Z Z) (c : ucall) : fate :=
  match c with
  | U_acre_tsk pk_ctsk => InKernel (Cacre_tsk (ctsk_at m pk_ctsk))
  | U_act_tsk tskid => InKernel (Cact_tsk tskid)
  | U_can_act tskid => InKernel (Ccan_act tskid)
  | U_chg_pri tskid tskpri => InKernel (Cchg_pri tskid tskpri)
  | U_cre_tsk tskid pk_ctsk => InKernel (Ccre_tsk tskid (ctsk_at m pk_ctsk))
  | U_del_tsk tskid => InKernel (Cdel_tsk tskid)
  | U_ext_tsk => InKernel Cext_tsk
  | U_exd_tsk => InKernel Cexd_tsk
  | U_get_pri tskid p_tskpri => InKernel (Cget_pri tskid p_tskpri)
  | U_rel_wai tskid => InKernel (Crel_wai tskid)
  | U_slp_tsk => InKernel Cslp_tsk
  | U_tslp_tsk tmout => InKernel (Ctslp_tsk tmout)
  | U_acre_sem pk_csem => InKernel (Cacre_sem (csem_at m pk_csem))
  | U_cre_sem semid pk_csem => InKernel (Ccre_sem semid (csem_at m pk_csem))
  | U_del_sem semid => InKernel (Cdel_sem semid)
  | U_sig_sem semid => InKernel (Csig_sem semid)
  | U_wai_sem semid => InKernel (Cwai_sem semid)
  | U_twai_sem semid tmout => InKernel (Ctwai_sem semid tmout)
  | U_clr_flg flgid clrptn => InKernel (Cclr_flg flgid clrptn)
  | U_cre_flg flgid pk_cflg => InKernel (Ccre_flg flgid (cflg_at m pk_cflg))
  | U_del_flg flgid => InKernel (Cdel_flg flgid)
  | U_set_flg flgid setptn => InKernel (Cset_flg flgid setptn)
  | U_wai_flg flgid waiptn wfmode p_flgptn => InKernel (Cwai_flg flgid waiptn wfmode (u32 (SEQSTAT g)))
  | U_acre_mbx pk_cmbx => InKernel (Cacre_mbx (cmbx_at m pk_cmbx))
  | U_cre_mbx mbxid pk_cmbx => InKernel (Ccre_mbx mbxid (cmbx_at m pk_cmbx))
  | U_del_mbx mbxid => InKernel (Cdel_mbx mbxid)
  | U_rcv_mbx mbxid ppk_msg => InKernel (Crcv_mbx mbxid ppk_msg)
  | U_trcv_mbx mbxid ppk_msg tmout => InKernel (Ctrcv_mbx mbxid ppk_msg tmout)
  | U_ref_mbx mbxid pk_rmbx => InKernel (Cref_mbx mbxid pk_rmbx)
  | U_snd_mbx mbxid pk_msg => InKernel (Csnd_mbx mbxid pk_msg)
  | U_cre_mpf mpfid pk_cmpf => InKernel (Ccre_mpf mpfid (cmpf_at m pk_cmpf))
  | U_del_mpf mpfid => InKernel (Cdel_mpf mpfid)
  | U_get_mpf mpfid p_blk => InKernel (Cget_mpf mpfid p_blk)
  | U_rel_mpf mpfid blk => InKernel (Crel_mpf mpfid blk)
  | U_cre_mpl mplid pk_cmpl => Answered UNKNOWN_SYSCALL
  | U_get_mpl mplid blksz p_blk => InKernel (Cget_mpl mplid blksz p_blk)
  | U_rel_mpl mplid blk => Answered UNKNOWN_SYSCALL
  | U_wup_tsk tskid => Answered E_SYS
  | U_sus_tsk tskid => Answered E_SYS
  | U_ter_tsk tskid => Answered E_SYS
  | U_rea8_mmr mmr p_val => Outside F_rea8_mmr_sys [mmr; p_val]
  | U_wri8_mmr mmr val => Outside F_wri8_mmr_sys [mmr; val]
  | U_rea16_mmr mmr p_val => Outside F_rea16_mmr_sys [mmr; p_val]
  | U_wri16_mmr mmr val => Outside F_wri16_mmr_sys [mmr; val]
  | U_rea32_mmr mmr p_val => Outside F_rea32_mmr_sys [mmr; p_val]
  | U_wri32_mmr mmr val => Outside F_wri32_mmr_sys [mmr; val]
  | U_accept s addr addrlen => Outside F_lwip_accept [s; addr; addrlen]
  | U_bind s name namelen => Outside F_lwip_bind [s; name; namelen]
  | U_shutdown s how => Outside F_lwip_shutdown [s; how]
  | U_getpeername s name namelen => Outside F_lwip_getpeername [s; name; namelen]
  | U_getsockname s name namelen => Outside F_lwip_getsockname [s; name; namelen]
  | U_getsockopt s level optname optval optlen => Outside F_lwip_getsockopt [s; level; optname; optval; optlen]
  | U_setsockopt s level optname optval optlen => Outside F_lwip_setsockopt [s; level; optname; optval; optlen]
  | U_close s => Outside F_lwip_close [s]
  | U_connect s name namelen => Outside F_lwip_connect [s; name; namelen]
  | U_listen s backlog => Outside F_lwip_listen [s; backlog]
  | U_recv s mem len flags => Outside F_lwip_recv [s; mem; len; flags]
  | U_read s mem len => Outside F_lwip_read [s; mem; len]
  | U_recvfrom s mem len flags from fromlen => Outside F_lwip_recvfrom [s; mem; len; flags; from; fromlen]
  | U_send s dataptr size flags => Outside F_lwip_send [s; dataptr; size; flags]
  | U_sendto s dataptr size flags to tolen => Outside F_lwip_sendto [s; dataptr; size; flags; to; tolen]
  | U_socket domain type protocol => Outside F_lwip_socket [domain; type; protocol]
  | U_write s dataptr size => Outside F_lwip_write [s; dataptr; size]
  | U_select maxfdp1 readset writeset exceptset timeout => Outside F_lwip_select [maxfdp1; readset; writeset; exceptset; timeout]
  | U_ioctl s cmd argp => Outside F_lwip_ioctl [s; cmd; argp]
  end.

(** What a function outside of the kernel gets for its arguments [l]: the first
    three, and the saved registers for the others. *)
Definition received (g : regs) (l : list Z) : list Z :=
  take 3 l ++ drop (length (take 3 l)) [R0 g; R1 g; R2 g] ++ [SEQSTAT g; RETE g; RETN g].

Definition is_int (z : Z) : Prop := - 2 ^ 31 <= z < 2 ^ 31.
Definition is_word (z : Z) : Prop := 0 <= z < 2 ^ 32.

(** The arguments are in the range of their C types. *)
Definition ucall_typed (c : ucall) : Prop :=
  match c with
  | U_acre_tsk pk_ctsk => is_word pk_ctsk
  | U_act_tsk tskid => is_int tskid
  | U_can_act tskid => is_int tskid
  | U_chg_pri tskid tskpri => is_int tskid /\ is_word tskpri
  | U_cre_tsk tskid pk_ctsk => is_int tskid /\ is_word pk_ctsk
  | U_del_tsk tskid => is_int tskid
  | U_ext_tsk => True
  | U_exd_tsk => True
  | U_get_pri tskid p_tskpri => is_int tskid /\ is_word p_tskpri
  | U_rel_wai tskid => is_int tskid
  | U_slp_tsk => True
  | U_tslp_tsk tmout => is_word tmout
  | U_acre_sem pk_csem => is_word pk_csem
  | U_cre_sem semid pk_csem => is_int semid /\ is_word pk_csem
  | U_del_sem semid => is_int semid
  | U_sig_sem semid => is_int semid
  | U_wai_sem semid => is_int semid
  | U_twai_sem semid tmout => is_int semid /\ is_word tmout
  | U_clr_flg flgid clrptn => is_int flgid /\ is_word clrptn
  | U_cre_flg flgid pk_cflg => is_int flgid /\ is_word pk_cflg
  | U_del_flg flgid => is_int flgid
  | U_set_flg flgid setptn => is_int flgid /\ is_word setptn
  | U_wai_flg flgid waiptn wfmode p_flgptn => is_int flgid /\ is_word waiptn /\ is_word wfmode /\ is_word p_flgptn
  | U_acre_mbx pk_cmbx => is_word pk_cmbx
  | U_cre_mbx mbxid pk_cmbx => is_int mbxid /\ is_word pk_cmbx
  | U_del_mbx mbxid => is_int mbxid
  | U_rcv_mbx mbxid ppk_msg => is_int mbxid /\ is_word ppk_msg
  | U_trcv_mbx mbxid ppk_msg tmout => is_int mbxid /\ is_word ppk_msg /\ is_word tmout
  | U_ref_mbx mbxid pk_rmbx => is_int mbxid /\ is_word pk_rmbx
  | U_snd_mbx mbxid pk_msg => is_int mbxid /\ is_word pk_msg
  | U_cre_mpf mpfid pk_cmpf => is_int mpfid /\ is_word pk_cmpf
  | U_del_mpf mpfid => is_int mpfid
  | U_get_mpf mpfid p_blk => is_int mpfid /\ is_word p_blk
  | U_rel_mpf mpfid blk => is_int mpfid /\ is_word blk
  | U_cre_mpl mplid pk_cmpl => is_int mplid /\ is_word pk_cmpl
  | U_get_mpl mplid blksz p_blk => is_int mplid /\ is_word blksz /\ is_word p_blk
  | U_rel_mpl mplid blk => is_int mplid /\ is_word blk
  | _ => True
  end.

(** ** What arrives in the kernel *)

(** The number of the entry that has a function: its code, with the other sign;
    one less for two of the functions of the variable-sized pools. *)
Definition entry_number (f : func) : Z :=
  - fn_code f - match f with F_cre_mpl_sys | F_rel_mpl_sys => 1 | _ => 0 end.

Lemma table_entry_number f : table_entry (entry_number f) = Some (Some f) /\ 0 <= entry_number f < 235.
Proof. destruct f; vm_compute; (split; [reflexivity|]); split; (discriminate || reflexivity). Qed.

(** Every entry of the table with a function has the number of that function. *)
Lemma table_entry_inv n f : table_entry n = Some (Some f) -> n = entry_number f.
Proof.
  unfold table_entry. destruct (Z.ltb_spec n 0); [done|]. intros E.
  assert (forall k, (k < 235)%nat -> match syscall_table !! k with Some (Some f) => Z.of_nat k = entry_number f | _ => True end) as H1.
  { intros k Hk. apply Forall_lookup with (P := fun k => match syscall_table !! k with Some (Some f) => Z.of_nat k = entry_number f | _ => True end)
      (l := seq 0 235) (i := k); [|rewrite lookup_seq; lia]. vm_compute. repeat constructor. }
  specialize (H1 (Z.to_nat n)). apply lookup_lt_Some in E as Hl. change (length syscall_table) with 235%nat in Hl.
  rewrite E in H1. specialize (H1 Hl). lia.
Qed.

Lemma i32_u32 z : is_int z -> i32 (u32 z) = z.
Proof.
  unfold is_int, i32, wraps, u32, wrapu. intros H. rewrite Zplus_mod_idemp_l. change (2 ^ (32 - 1)) with (2 ^ 31).
  rewrite Z.mod_small; lia.
Qed.

Section arrival.
Context (ext : func -> list Z -> KM sysres).

Lemma system_call_entry f g s : i32 (P0 g) = entry_number f ->
  system_call ext g s = match decode f g (k_mem s) with Some sc => exec sc s | None => ext f (args g) s end.
Proof.
  intros E. destruct (table_entry_number f) as [Ht Hn]. unfold system_call, NR_SYSCALLS. rewrite E.
  destruct (Z.ltb_spec 256 (entry_number f)); [lia|]. destruct (Z.ltb_spec (entry_number f) 0); [lia|]. rewrite Ht.
  unfold call_entry, bind, gets. by destruct (decode f g (k_mem s)).
Qed.

Lemma system_call_at f g s : table_entry (i32 (P0 g)) = Some (Some f) ->
  system_call ext g s = match decode f g (k_mem s) with Some sc => exec sc s | None => ext f (args g) s end.
Proof. intros E. by apply system_call_entry, table_entry_inv. Qed.

Lemma system_call_behind g s : 235 <= i32 (P0 g) <= 256 -> system_call ext g s = None.
Proof.
  intros H. unfold system_call, NR_SYSCALLS, table_entry. destruct (Z.ltb_spec 256 (i32 (P0 g))); [lia|].
  destruct (Z.ltb_spec (i32 (P0 g)) 0); [lia|]. rewrite lookup_ge_None_2; [done|]. change (length syscall_table) with 235%nat. lia.
Qed.

Lemma system_call_unknown g s : (forall f, i32 (P0 g) <> entry_number f) -> ~ 235 <= i32 (P0 g) <= 256 ->
  system_call ext g s = Some (Done UNKNOWN_SYSCALL, s).
Proof.
  intros Hf Hn. unfold system_call, NR_SYSCALLS. destruct (Z.ltb_spec 256 (i32 (P0 g))); [done|].
  destruct (Z.ltb_spec (i32 (P0 g)) 0); [done|]. destruct (table_entry (i32 (P0 g))) as [[f|]|] eqn:E; [|done|].
  - by apply table_entry_inv, Hf in E.
  - exfalso. unfold table_entry in E. destruct (Z.ltb_spec (i32 (P0 g)) 0); [lia|]. apply lookup_ge_None in E.
    change (length syscall_table) with 235%nat in E. lia.
Qed.

(** The fate of a call with any registers. *)
Lemma system_call_cases g :
  (exists f, i32 (P0 g) = entry_number f) \/ 235 <= i32 (P0 g) <= 256 \/
  ((forall f, i32 (P0 g) <> entry_number f) /\ ~ 235 <= i32 (P0 g) <= 256).
Proof.
  destruct (table_entry (i32 (P0 g))) as [[f|]|] eqn:E; [left; exists f; by apply table_entry_inv|..];
    (destruct (Z.le_gt_cases 235 (i32 (P0 g))), (Z.le_gt_cases (i32 (P0 g)) 256); [by right; left|..]; right; right;
     (split; [|lia]); intros f Ef; rewrite Ef, (proj1 (table_entry_number f)) in E; discriminate E).
Qed.

(** What a fate is for the state. *)
Definition meets (g : regs) (t : fate) : KM sysres :=
  match t with
  | InKernel sc => exec sc
  | Outside f l => ext f (received g l)
  | Answered v => ret (Done v)
  end.

Ltac arrive := unfold ulib; lazymatch goal with |- ?m ?s = _ => etrans;
  [eapply (system_call_at _ (mk_regs _ _ _ _ _ _ _ _) s); vm_compute; reflexivity|];
  cbn [decode fate_of meets]; unfold arg; cbn [nth args R0 R1 R2 SEQSTAT RETE RETN] end.

Lemma ulib_fate g c s : ucall_typed c -> ulib ext g c s = meets g (fate_of g (k_mem s) c) s.
Proof.
  destruct c; intros H; cbn [ucall_typed] in H; destruct_and?; first [reflexivity|arrive];
  by rewrite ?i32_u32, ?u32_small by done.
Qed.

End arrival.
