(* ===== verification/NetInit.v ===== *)
(** * The addresses of the network interface

    drivers/lwip/contrib/src/lwip_init.c: the configured addresses are strings,
    which [init_lwip_stack] parses. *)

From Stdlib Require Import ZArith Lia.
From stdpp Require Import base tactics gmap option list.
From S2P Require Import Prelude Bits Bytes Cstdlib.

Open Scope Z_scope.
Open Scope kernel_scope.

(** ** The code *)

Definition DEFAULT_IP : Z := 0xC0A80202.
Definition DEFAULT_NETMASK : Z := 0xFFFFFF00.
Definition DEFAULT_GATEWAY : Z := 0xC0A80201.

Definition E_PARSEIP : Z := 0xFFFFFFFF.

(** The macros, on a [char]. *)
Definition IS_NUMBER (x : Z) : bool := u32 (x - 48) <? 10.
Definition GET_NUMBER_VALUE (x : Z) : Z := x - 48.
Definition IS_HEX_LETTER_UP (x : Z) : bool := u32 (x - 65) <? 6.
Definition GET_HEX_LVAL_UP (x : Z) : Z := x - 65 + 10.
Definition IS_HEX_LETTER_LO (x : Z) : bool := u32 (x - 97) <? 6.
Definition GET_HEX_LVAL_LO (x : Z) : Z := x - 97 + 10.

(** The inner loop of [parse_ip_address]; [None] is its [return E_PARSEIP]. *)
Fixpoint ip_number (fuel : nat) (ip_string k tmpval : Z) : M bmem (option (Z * Z)) :=
  match fuel with
  | O => fault
  | S fuel =>
      let* c := ldc (ip_string + k) in
      if negb (c =? 46) && negb (c =? 0) then
        if IS_NUMBER c then
          let tmpval := tmpval * 10 + GET_NUMBER_VALUE c in
          if tmpval >? 255 then ret None else ip_number fuel ip_string (k + 1) tmpval
        else ret None
      else ret (Some (k, tmpval))
  end.

(** The outer loop, [n] rounds from [i] on. *)
Fixpoint ip_numbers (n : nat) (ip_string i k ipaddr : Z) : M bmem Z :=
  match n with
  | O => ret (u32 ipaddr)
  | S n =>
      let* fuel := gets byte_fuel in
      let* r := ip_number fuel ip_string k 0 in
      match r with
      | None => ret E_PARSEIP
      | Some (k, tmpval) => ip_numbers n ip_string (i + 1) (k + 1) (Z.lor ipaddr (i32 (Z.shiftl tmpval (i * 8))))
      end
  end.

Definition parse_ip_address (ip_string : Z) : M bmem Z := ip_numbers 4 ip_string 0 0 0.

Definition parse_hex_char (h : Z) : Z :=
  if IS_NUMBER h then GET_NUMBER_VALUE h else
  if IS_HEX_LETTER_UP h then GET_HEX_LVAL_UP h else
  if IS_HEX_LETTER_LO h then GET_HEX_LVAL_LO h else -1.

Definition default_mac : list Z := [0xEE; 0xFF; 0xC0; 0xA8; 0x01; 0x01].

Fixpoint store_bytes (a : Z) (l : list Z) : M bmem unit :=
  match l with
  | [] => ret tt
  | b :: l => stb a b ;;; store_bytes (a + 1) l
  end.

(** The loop of [parse_mac_address]; [false] is its [goto default_mac]. *)
Fixpoint mac_loop (n : nat) (mac_string hwaddr i k : Z) : M bmem bool :=
  match n with
  | O => ret true
  | S n =>
      let* c := ldc (mac_string + i) in
      let val := parse_hex_char c in
      if val =? -1 then ret false else
      stb (hwaddr + k) (Z.shiftl val 4) ;;;
      let* c := ldc (mac_string + (i + 1)) in
      let val := parse_hex_char c in
      if val =? -1 then ret false else
      let* h := ldb (hwaddr + k) in
      stb (hwaddr + k) (h + val) ;;;
      mac_loop n mac_string hwaddr (i + 3) (k + 1)
  end.

Definition parse_mac_address (mac_string hwaddr : Z) : M bmem unit :=
  let* ok := mac_loop 6 mac_string hwaddr 0 0 in
  if ok : bool then ret tt else store_bytes hwaddr default_mac.

(** The part of [init_lwip_stack] that sets an address. *)
Definition configured (string dflt : Z) : M bmem Z :=
  let* a := parse_ip_address string in
  ret (if a =? E_PARSEIP then dflt else a).

(** ** The reference: numbers between dots *)

Definition digit (b : Z) : bool := (48 <=? b) && (b <=? 57).

(** The value of a number; [None] when it has another character or is more
    than 255. *)
Fixpoint octet_from (v : Z) (l : list Z) : option Z :=
  match l with
  | [] => Some v
  | b :: l => if digit b && (v * 10 + (b - 48) <=? 255) then octet_from (v * 10 + (b - 48)) l else None
  end.

Definition octet : list Z -> option Z := octet_from 0.

(** What is before the first dot and, if there is one, what is behind. *)
Fixpoint cut (l : list Z) : list Z * option (list Z) :=
  match l with
  | [] => ([], None)
  | b :: l => if b =? 46 then ([], Some l) else let '(h, t) := cut l in (b :: h, t)
  end.

(** The value of [n] numbers, the first the lowest byte; a number may be wrong
    before the text ends too early. *)
Inductive parsed := Address (v : Z) | Wrong | TooShort.

Fixpoint quad (n : nat) (l : list Z) : parsed :=
  match n with
  | O => Address 0
  | S n =>
      match octet (cut l).1 with
      | None => Wrong
      | Some v =>
          match n, (cut l).2 with
          | O, _ => Address v
          | S _, None => TooShort
          | S _, Some l' =>
              match quad n l' with
              | Address w => Address (v + 256 * w)
              | r => r
              end
          end
      end
  end.

(** ** The code follows the reference *)

Lemma i8_range b : byte b -> i8 b = b \/ (128 <= b /\ i8 b = b - 256).
Proof.
  intros H. unfold i8, wraps, byte in *. change (2 ^ (8 - 1)) with 128. change (2 ^ 8) with 256.
  destruct (Z.lt_ge_cases b 128).
  - left. rewrite Z.mod_small by lia. lia.
  - right. split; [done|]. replace (b + 128) with ((b - 128) + 1 * 256) by lia. rewrite Z.mod_add, Z.mod_small; lia.
Qed.

(** A comparison of an unsigned difference is a range. *)
Lemma in_range b lo n : byte b -> 0 <= lo -> 0 <= n -> lo + n <= 128 ->
  (u32 (i8 b - lo) <? n) = (lo <=? b) && (b <? lo + n).
Proof.
  intros Hb Hlo Hn Hs. unfold byte in Hb. destruct (i8_range b Hb) as [->|[H ->]].
  - unfold u32, wrapu. destruct (Z.leb_spec lo b); simpl.
    + rewrite Z.mod_small by lia. destruct (Z.ltb_spec (b - lo) n), (Z.ltb_spec b (lo + n)); lia || done.
    + rewrite <- (Z.mod_add _ 1), Z.mod_small by lia. destruct (Z.ltb_spec (b - lo + 1 * 2 ^ 32) n); [lia|done].
  - unfold u32, wrapu. rewrite <- (Z.mod_add _ 1), Z.mod_small by lia.
    destruct (Z.ltb_spec (b - 256 - lo + 1 * 2 ^ 32) n); [lia|].
    destruct (Z.ltb_spec b (lo + n)); [lia|]. by rewrite andb_false_r.
Qed.

Lemma is_number_digit b : byte b -> IS_NUMBER (i8 b) = digit b.
Proof.
  intros Hb. unfold IS_NUMBER. rewrite in_range by (done || lia). unfold digit.
  destruct (Z.leb_spec 48 b), (Z.ltb_spec b (48 + 10)), (Z.leb_spec b 57); lia || done.
Qed.

Lemma wp_ip_number l fuel m s k v (Q : option (Z * Z) -> bmem -> Prop) :
  cstr m (s + k) l -> (length l < fuel)%nat -> 0 <= v <= 255 ->
  Q (match octet_from v (cut l).1 with
     | Some w => Some (k + Z.of_nat (length (cut l).1), w)
     | None => None
     end) m ->
  wp (ip_number fuel s k v) Q m.
Proof.
  revert fuel k v. induction l as [|b l IH]; intros [|fuel] k v Hs Hf Hv HQ; try (simpl in Hf; lia); cbn [ip_number].
  { apply cstr_nil in Hs. eapply wp_bind, wp_ldc; [done|]. apply wp_ret. cbn in HQ. by rewrite Z.add_0_r in HQ. }
  apply cstr_cons in Hs as (E & Hb & Hs). eapply wp_bind, wp_ldc; [done|].
  assert (byte b) as Hy by (unfold byte; lia). rewrite i8_zero by done. destruct (Z.eqb_spec b 0); [lia|].
  assert ((i8 b =? 46) = (b =? 46)) as ->.
  { destruct (i8_range b Hy) as [->|[H ->]]; [done|]. destruct (Z.eqb_spec (b - 256) 46), (Z.eqb_spec b 46); lia || done. }
  cbn [cut] in HQ. destruct (Z.eqb_spec b 46) as [->|Hd]; cbn [negb andb].
  { apply wp_ret. cbn in HQ. by rewrite Z.add_0_r in HQ. }
  rewrite is_number_digit by done. destruct (cut l) as [h t]. cbn [fst octet_from length] in *.
  destruct (digit b) eqn:Eb; [|by apply wp_ret].
  assert (GET_NUMBER_VALUE (i8 b) = b - 48) as ->.
  { unfold digit in Eb. apply andb_prop in Eb as [_ H%Z.leb_le]. unfold GET_NUMBER_VALUE. destruct (i8_range b Hy) as [->|]; lia. }
  cbn [andb] in HQ. rewrite Z.gtb_ltb. unfold digit in Eb. apply andb_prop in Eb as [H48%Z.leb_le H57%Z.leb_le].
  destruct (Z.ltb_spec 255 (v * 10 + (b - 48))), (Z.leb_spec (v * 10 + (b - 48)) 255); try lia; [by apply wp_ret|].
  apply IH; [by replace (s + (k + 1)) with (s + k + 1) by lia|simpl in Hf; lia|lia|].
  destruct (octet_from _ h); [|done]. by replace (k + 1 + Z.of_nat (length h)) with (k + Z.of_nat (S (length h))) by lia.
Qed.

Lemma octet_from_range l v w : 0 <= v <= 255 -> octet_from v l = Some w -> 0 <= w <= 255.
Proof.
  revert v. induction l as [|b l IH]; intros v Hv; cbn [octet_from]; [by intros [= <-]|].
  destruct (digit b) eqn:Eb; [|done]. unfold digit in Eb. apply andb_prop in Eb as [H48%Z.leb_le _].
  destruct (Z.leb_spec (v * 10 + (b - 48)) 255); [|done]. apply IH. lia.
Qed.

Lemma cut_app l h t : cut l = (h, Some t) -> l = h ++ 46 :: t.
Proof.
  revert h. induction l as [|b l IH]; intros h; cbn [cut]; [done|].
  destruct (Z.eqb_spec b 46) as [->|]; [by intros [= <- <-]|].
  destruct (cut l) as [h' t'] eqn:E. intros [= <- ->]. cbn. f_equal. by apply IH.
Qed.

Lemma cstr_behind m a h t : cstr m a (h ++ t) -> cstr m (a + Z.of_nat (length h)) t.
Proof. intros [Ha Hf]. apply Forall_app in Hf as [_ Ht]. split; [|done]. rewrite <- app_assoc in Ha. by apply arr_app in Ha as [_ ?]. Qed.

Lemma u32_lor a b : u32 (Z.lor a b) = Z.lor (u32 a) (u32 b).
Proof. unfold u32, wrapu. rewrite <- !Z.land_ones by lia. apply Z.land_lor_distr_l. Qed.

Lemma u32_i32 z : u32 (i32 z) = u32 z.
Proof.
  unfold u32, i32, wrapu, wraps. rewrite Zminus_mod_idemp_l. by rewrite Z.add_simpl_r.
Qed.

Lemma wp_ip_numbers n l m s i k ip acc (Q : Z -> bmem -> Prop) :
  cstr m (s + k) l -> 0 <= i -> i + Z.of_nat n = 4 -> u32 ip = acc -> 0 <= acc < 2 ^ (8 * i) ->
  (match quad n l with
   | Address w => Q (acc + w * 2 ^ (8 * i)) m
   | Wrong => Q E_PARSEIP m
   | TooShort => False
   end) ->
  wp (ip_numbers n s i k ip) Q m.
Proof.
  revert l i k ip acc. induction n as [|n IH]; intros l i k ip acc Hs Hi Hn Hip Hacc HQ; cbn [ip_numbers quad] in *.
  { apply wp_ret. rewrite Hip. by rewrite Z.mul_0_l, Z.add_0_r in HQ. }
  apply wp_bind, wp_gets, wp_bind. apply (wp_ip_number l); [done|apply cstr_fuel in Hs; lia|lia|].
  unfold octet in HQ. destruct (octet_from 0 (cut l).1) as [v|] eqn:Ev; [|by apply wp_ret].
  assert (0 <= v <= 255) as Hv by (eapply octet_from_range; [|done]; lia).
  assert (8 * i <= 24) as H8 by lia. pose proof (Z.pow_pos_nonneg 2 (8 * i) ltac:(lia) ltac:(lia)) as Hp.
  assert (2 ^ (8 * i + 8) = 2 ^ (8 * i) * 256) as E8 by (rewrite Z.pow_add_r by lia; done).
  assert (2 ^ (8 * i + 8) <= 2 ^ 32) as H32 by (apply Z.pow_le_mono_r; lia).
  assert (u32 (Z.lor ip (i32 (Z.shiftl v (i * 8)))) = acc + v * 2 ^ (8 * i)) as Eu.
  { rewrite u32_lor, u32_i32, Hip, (Z.mul_comm i 8). rewrite u32_small by (rewrite Z.shiftl_mul_pow2 by lia; nia).
    apply lor_above; lia. }
  destruct n as [|n].
  { cbn [ip_numbers]. apply wp_ret. by rewrite Eu. }
  destruct (cut l) as [h [t|]] eqn:Ec; [|done]. cbn [fst snd] in *. apply cut_app in Ec. subst l.
  apply cstr_behind, cstr_cons in Hs as (_ & _ & Hs).
  apply (IH t _ _ _ (acc + v * 2 ^ (8 * i))); [|lia|lia|done|replace (8 * (i + 1)) with (8 * i + 8) by lia; nia|].
  { by replace (s + (k + Z.of_nat (length h) + 1)) with (s + k + Z.of_nat (length h) + 1) by lia. }
  destruct (quad (S n) t) as [w| |]; [|done|done]. replace (8 * (i + 1)) with (8 * i + 8) by lia. rewrite E8.
  by replace (acc + v * 2 ^ (8 * i) + w * (2 ^ (8 * i) * 256)) with (acc + (v + 256 * w) * 2 ^ (8 * i)) by lia.
Qed.

Lemma wp_parse_ip_address m s l :
  cstr m s l -> quad 4 l <> TooShort ->
  wp (parse_ip_address s) (fun r m' => m' = m /\ match quad 4 l with Address v => r = v | _ => r = E_PARSEIP end) m.
Proof.
  intros Hs Hq. apply (wp_ip_numbers 4 l _ _ _ _ _ 0); [by rewrite Z.add_0_r|lia|done|done|done|].
  destruct (quad 4 l) as [v| |]; [|done|done]. split; [done|]. cbn. lia.
Qed.

(** ** Hardware addresses *)

(** The value of a hexadecimal digit. *)
Definition hex (b : Z) : option Z :=
  if digit b then Some (b - 48) else
  if (65 <=? b) && (b <=? 70) then Some (b - 55) else
  if (97 <=? b) && (b <=? 102) then Some (b - 87) else None.

(** Pairs of digits with one character between them. *)
Fixpoint mac_bytes (n : nat) (l : list Z) : option (list Z) :=
  match n, l with
  | O, _ => Some []
  | S n, a :: b :: l =>
      match hex a, hex b, mac_bytes n (tail l) with
      | Some x, Some y, Some r => Some (16 * x + y :: r)
      | _, _, _ => None
      end
  | _, _ => None
  end.

Lemma parse_hex_char_hex b : byte b -> parse_hex_char (i8 b) = default (-1) (hex b).
Proof.
  intros Hb. unfold parse_hex_char, hex. rewrite is_number_digit by done.
  unfold IS_HEX_LETTER_UP, IS_HEX_LETTER_LO. rewrite !in_range by (done || lia).
  unfold digit, GET_NUMBER_VALUE, GET_HEX_LVAL_UP, GET_HEX_LVAL_LO, byte in *.
  destruct (i8_range b Hb) as [->|[H ->]];
  repeat match goal with |- context [?x <=? ?y] => destruct (Z.leb_spec x y); cbn [andb]; try lia
                       | |- context [?x <? ?y] => destruct (Z.ltb_spec x y); cbn [andb]; try lia end; cbn; lia.
Qed.

Lemma hex_range b x : hex b = Some x -> 0 <= x < 16.
Proof.
  unfold hex, digit. repeat match goal with |- context [?x <=? ?y] => destruct (Z.leb_spec x y); cbn [andb]; try done end; intros [= <-]; lia.
Qed.

Lemma wp_mac_loop n l m s hw i k (Q : bool -> bmem -> Prop) :
  arr m (s + i) l -> Forall byte l -> (3 * n <= length l + 1)%nat ->
  mapped m (hw + k) (Z.of_nat n) -> apart (hw + k) (Z.of_nat n) (s + i) (Z.of_nat (length l)) ->
  (forall m', only m m' (hw + k) (Z.of_nat n) ->
    match mac_bytes n l with Some r => arr m' (hw + k) r -> Q true m' | None => Q false m' end) ->
  wp (mac_loop n s hw i k) Q m.
Proof.
  revert l m i k. induction n as [|n IH]; intros l m i k Hs Hb Hl Hm Hap HQ; cbn [mac_loop mac_bytes] in *.
  { apply wp_ret. apply HQ; [done|apply arr_nil]. }
  destruct l as [|a [|b l]]; [simpl in Hl; lia..|]. apply arr_cons in Hs as [Ea Hs]. apply arr_cons in Hs as [Eb Hs].
  inversion_clear Hb as [|? ? Ha Hb']. inversion_clear Hb' as [|? ? Hb Hbl]. cbn [length] in *.
  eapply wp_bind, wp_ldc; [done|]. rewrite parse_hex_char_hex by done.
  destruct (hex a) as [x|] eqn:Ex; cbn [default from_option id]; [|apply wp_ret, HQ; done].
  apply hex_range in Ex as Hx. destruct (Z.eqb_spec x (-1)); [lia|].
  apply wp_bind, wp_stb; [apply Hm; lia|]. set (m1 := <[_ := _]> m).
  assert (only m m1 (hw + k) 1) as O1 by (apply only_insert; [apply Hm; lia|lia]). unfold apart in Hap.
  eapply wp_bind, wp_ldc.
  { unfold m1. rewrite lookup_insert_ne by lia. by replace (s + (i + 1)) with (s + i + 1) by lia. }
  rewrite parse_hex_char_hex by done. destruct (hex b) as [y|] eqn:Ey; cbn [default from_option id];
    [|apply wp_ret, HQ; eapply only_weaken; [exact O1|lia..]].
  apply hex_range in Ey as Hy. destruct (Z.eqb_spec y (-1)); [lia|].
  eapply wp_bind, wp_ldb; [apply lookup_insert_eq|]. apply wp_bind, wp_stb; [eexists; apply lookup_insert_eq|].
  assert (u8 (u8 (Z.shiftl x 4) + y) = 16 * x + y) as ->.
  { rewrite Z.shiftl_mul_pow2 by lia. rewrite !u8_id; unfold byte; change (2 ^ 4) with 16; try lia. rewrite u8_id; unfold byte; lia. }
  set (m2 := <[_ := _]> m1). assert (only m m2 (hw + k) 1) as O2.
  { eapply only_trans; [exact O1|]. apply only_insert; [eexists; apply lookup_insert_eq|lia]. }
  apply (IH (tail l)).
  - apply (arr_only m _ (hw + k) 1); [done| |].
    + unfold apart. destruct l; cbn [tail length] in *; lia.
    + destruct l as [|c l]; [apply arr_nil|]. apply arr_cons in Hs as [_ Hs].
      by replace (s + (i + 3)) with (s + i + 1 + 1 + 1) by lia.
  - destruct l; [done|]. by inversion Hbl.
  - destruct l; cbn [tail length] in *; lia.
  - eapply only_mapped; [exact O2|]. intros z Hz. apply Hm. lia.
  - unfold apart. destruct l; cbn [tail length] in *; lia.
  - intros m' Ho. specialize (HQ m'). destruct (mac_bytes n (tail l)) as [r|]; intros; apply HQ;
      try (eapply only_trans; [eapply only_weaken; [exact O2|lia..]|eapply only_weaken; [exact Ho|lia..]]).
    apply arr_cons. split; [|by replace (hw + k + 1) with (hw + (k + 1)) by lia].
    destruct Ho as [_ Ho]. rewrite Ho by lia. apply lookup_insert_eq.
Qed.

Lemma wp_store_bytes l m a (Q : unit -> bmem -> Prop) : Forall byte l -> mapped m a (Z.of_nat (length l)) ->
  (forall m', arr m' a l -> only m m' a (Z.of_nat (length l)) -> Q tt m') -> wp (store_bytes a l) Q m.
Proof.
  revert m a. induction l as [|b l IH]; intros m a Hb Hm HQ; cbn [store_bytes length] in *.
  { apply wp_ret, HQ; [apply arr_nil|done]. }
  inversion_clear Hb. apply wp_bind, wp_stb; [apply Hm; lia|]. rewrite u8_id by done.
  assert (only m (<[a := b]> m) a (Z.of_nat (S (length l)))) as O1 by (apply only_insert; [apply Hm|]; lia).
  apply IH; [done|eapply only_mapped; [exact O1|]; intros x Hx; apply Hm; lia|]. intros m' Ha Ho. apply HQ.
  - apply arr_cons. split; [|done]. destruct Ho as [_ Ho]. rewrite Ho by lia. apply lookup_insert_eq.
  - eapply only_trans; [exact O1|]. eapply only_weaken; [exact Ho|lia..].
Qed.

(** [parse_mac_address] on a text of 17 characters: the six bytes, or the
    default address at any wrong digit; nothing else changes. *)
Lemma wp_parse_mac_address m s hw l :
  arr m s l -> Forall byte l -> length l = 17%nat -> mapped m hw 6 -> apart hw 6 s 17 ->
  wp (parse_mac_address s hw) (fun _ m' => arr m' hw (default default_mac (mac_bytes 6 l)) /\ only m m' hw 6) m.
Proof.
  intros Hs Hb Hl Hm Hap. apply wp_bind. apply (wp_mac_loop 6 l); rewrite ?Z.add_0_r, ?Hl; try done.
  intros m1 O1. change (Z.of_nat 6) with 6 in O1. destruct (mac_bytes 6 l) as [r|]; cbn [default from_option id].
  - intros Ha. by apply wp_ret.
  - apply wp_store_bytes; [by repeat constructor|by eapply only_mapped|]. intros m' Ha Ho. split; [done|]. by eapply only_trans.
Qed.
