(* ===== verification/SysArch.v ===== *)
(** * The network stack on the kernel

    drivers/lwip/contrib/src/sys_arch.c: what the network stack asks of its
    operating system (threads, semaphores, mailboxes, memory), on the system calls
    of the kernel. The promises of these functions are in
    drivers/lwip/doc/sys_arch.txt.

    A thread that calls the kernel may lose the processor inside its call. The
    result of a function is therefore a value ([Ret]), or a system call that is
    not finished with the rest of the function ([Wait]). *)

From Stdlib Require Import ZArith Lia.
From stdpp Require Import base tactics gmap option functions countable list fin_maps.
From S2P Require Import Prelude Bits Queue Qfam Mem Mpool Kstate Tlsf Syslog Sched Timeout Dispatch.
From S2P Require Import Kinv Blind Ktime Waitobj Task Semaphore Event Mailbox Mempool Kernel.

Open Scope Z_scope.
Open Scope kernel_scope.

(** ** State *)

Record net := mk_net {
  n_k : kstate;
  lwip_system_timeouts : Z;
  lwip_system_threads : Z
}.

Definition set_n_k (k : kstate) (n : net) : net := mk_net k (lwip_system_timeouts n) (lwip_system_threads n).
Definition set_threads (p : Z) (n : net) : net := mk_net (n_k n) (lwip_system_timeouts n) p.

Abbreviation NM := (M net).

Definition nk {A} (m : KM A) : NM A := zoom n_k set_n_k m.

(** ** Functions that may leave the processor *)

#[warnings="-register-all"]
Inductive pres (A : Type) :=
  | Ret (a : A)
  | Wait (k : kont) (rest : Z -> net -> option (pres A * net)).
Arguments Ret {A}.
Arguments Wait {A}.

Definition PM (A : Type) : Type := NM (pres A).

Definition pret {A} (a : A) : PM A := ret (Ret a).

Fixpoint bind_rest {A B} (f : A -> PM B) (r : pres A) : PM B :=
  match r with
  | Ret a => f a
  | Wait k rest =>
      ret (Wait k (fun v n => match rest v n with Some (r', n') => bind_rest f r' n' | None => None end))
  end.

Definition pbind {A B} (m : PM A) (f : A -> PM B) : PM B := bind m (bind_rest f).

Notation "'let!' x := m 'in' k" := (pbind m (fun x => k))
  (at level 10, x name, m at level 100, k at level 200) : kernel_scope.

(** Code that does not call the scheduler, and a system call. The calls used
    here return a value or leave the processor. *)
Definition lift {A} (m : NM A) : PM A := let* a := m in ret (Ret a).

Definition sys (m : KM sysres) : PM Z :=
  let* r := nk m in
  match r with
  | Done v => pret v
  | Cont k => ret (Wait k pret)
  | NoValue | Spin => fault
  end.

(** The thread runs again: the end of its system call and the rest. *)
Definition continue {A} (r : pres A) : PM A :=
  match r with
  | Ret a => pret a
  | Wait k rest => let* er := nk (resume k) in let* v := deref er in rest v
  end.

(** ** The code *)

Definition MAX_SEM_COUNT : Z := 0x7FFFFFFF.
Definition SYS_SEM_NULL : Z := -1.
Definition SYS_MBOX_NULL : Z := -1.
Definition SYS_ARCH_TIMEOUT : Z := 0xffffffff.
Definition SYS_MBOX_EMPTY : Z := SYS_ARCH_TIMEOUT.
Definition ERR_OK : Z := 0.
Definition ERR_MEM : Z := -1.
Definition TSK_VPARG : Z := 1.
Definition TA_TFIFO : Z := 0.
Definition CONFIG_CTMR : Z := 1000.

(** [struct thread_struct_wrapper]: [next], [thread] and [timeouts]. *)
Definition sizeof_thread : Z := 12.
Definition thread_of (p : Z) : Z := p + 4.
Definition timeouts_of (p : Z) : Z := p + 8.

(** SYS_ARCH_PROTECT and SYS_ARCH_UNPROTECT. *)
Definition protect : KM Z :=
  let* im := gets (fun s => imask (k_int s)) in upd_int (set_imask 0) ;;; ret im.
Definition unprotect (old_val : Z) : KM unit := upd_int (set_imask old_val).

Definition sys_init : NM unit := modify (fun n => mk_net (n_k n) NULL NULL).

Definition sys_malloc (size : Z) : KM Z :=
  let* sp := gets (fun s => system_pool (k_setup s)) in ktlsf (malloc_ex size sp).

Definition sys_calloc (size : Z) : KM Z :=
  let* sp := gets (fun s => system_pool (k_setup s)) in ktlsf (calloc_ex size 1 sp).

Definition sys_free (ptr : Z) : KM unit :=
  let* sp := gets (fun s => system_pool (k_setup s)) in ktlsf (free_ex ptr sp).

Definition sys_thread_new (name thread arg stacksize prio : Z) : PM Z :=
  let! newthread := lift (nk (sys_malloc sizeof_thread)) in
  if newthread =? NULL then pret NULL else
  let! _ := lift (nk (kmem (zero_words newthread 3))) in
  let! old_val := lift (nk protect) in
  let! _ := lift (
    let* l := gets lwip_system_threads in
    nk (kmem (store newthread l)) ;;;
    modify (set_threads newthread)) in
  let! _ := lift (nk (unprotect old_val)) in
  let! _ := lift (nk (kmem (store (timeouts_of newthread) NULL))) in
  let! stk := lift (nk (sys_malloc (u32 stacksize))) in
  let pk_ctsk := mk_ctsk (Z.lor TSK_VPARG TSK_KERNEL) 0 thread (u32 prio) stacksize stk arg in
  let! id := sys (acre_tsk_sys (Some pk_ctsk)) in
  let! _ := lift (nk (kmem (store (thread_of newthread) (u32 id)))) in
  let! id := lift (nk (kmem (load (thread_of newthread)))) in
  let! _ := sys (act_tsk_sys (i32 id)) in
  pret newthread.

(** The walk of the list of threads. *)
Fixpoint find_thread (fuel : nat) (self thread : Z) : M (gmap Z Z) (option Z) :=
  match fuel with
  | O => fault
  | S fuel =>
      if thread =? NULL then ret None else
      let* id := load (thread_of thread) in
      if i32 id =? self then ret (Some (timeouts_of thread)) else
      let* next := load thread in find_thread fuel self next
  end.

Definition thread_fuel (m : gmap Z Z) : nat := S (S (base.size m)).

Definition sys_arch_timeouts : NM Z :=
  let* cur := nk get_current in
  let* t := nk (get_task cur) in
  let* l := gets lwip_system_threads in
  let* r := nk (kmem (let* fuel := gets thread_fuel in find_thread fuel (tskid t) l)) in
  match r with
  | Some p => ret p
  | None => gets lwip_system_timeouts
  end.

(** [u8_t count]. *)
Definition sys_sem_new (count : Z) : PM Z :=
  let! sem := sys (acre_sem_sys (Some (mk_csem 0 (wrapu 8 count) MAX_SEM_COUNT))) in
  pret (if sem <? 0 then SYS_SEM_NULL else sem).

Definition sys_sem_free (sem : Z) : PM unit := let! _ := sys (del_sem_sys sem) in pret tt.

Definition sys_sem_signal (sem : Z) : PM unit := let! _ := sys (sig_sem_sys sem) in pret tt.

Definition ticks_to_ms (ticks : Z) : Z := u32 (i64 (ticks * CONFIG_CTMR) ÷ 1000).

Definition sys_arch_sem_wait (sem timeout : Z) : PM Z :=
  let! extim := lift (nk get_system_time) in
  let! retval := sys (twai_sem_sys sem timeout) in
  if retval =? E_TMOUT then pret SYS_ARCH_TIMEOUT else
  let! now := lift (nk get_system_time) in
  pret (ticks_to_ms (i64 (now - extim))).

Definition sys_mbox_new (size : Z) : PM Z :=
  let! mbox := sys (acre_mbx_sys (Some (mk_cmbx TA_TFIFO 0 NULL))) in
  pret (if mbox <? 0 then SYS_MBOX_NULL else mbox).

Definition sys_mbox_free (mbox : Z) : PM unit := let! _ := sys (del_mbx_sys mbox) in pret tt.

Definition sys_mbox_post (mbox msg : Z) : PM unit := let! _ := sys (snd_mbx_sys mbox msg) in pret tt.

Definition sys_mbox_trypost (mbox msg : Z) : PM Z :=
  let! er := sys (snd_mbx_sys mbox msg) in
  pret (if er =? E_OK then ERR_OK else ERR_MEM).

(** [*msg = pk_msg] where [pk_msg] is a variable at [p]. *)
Definition pass_on (msg p : Z) : KM unit :=
  if msg =? NULL then ret tt else let* v := kmem (load p) in kmem (store msg v).

(** [pk_msg] is the address of the local variable of this name. *)
Definition sys_arch_mbox_fetch (pk_msg : Z) (mbox msg timeout : Z) : PM Z :=
  let! extim := lift (nk get_system_time) in
  let! retval := sys (trcv_mbx_sys mbox pk_msg timeout) in
  if retval =? E_TMOUT then pret SYS_ARCH_TIMEOUT else
  let! _ := lift (nk (pass_on msg pk_msg)) in
  let! old_val := lift (nk protect) in
  let! now := lift (nk get_system_time) in
  let! _ := lift (nk (unprotect old_val)) in
  pret (ticks_to_ms (i64 (now - extim))).

(** [pk_rmbx] and [pk_msg] are the addresses of the local variables, and
    [left_behind] what the caller finds in the register of the value when the
    function ends without [return]. *)
Definition sys_arch_mbox_tryfetch (pk_rmbx pk_msg left_behind : Z) (mbox msg : Z) : PM Z :=
  let! _ := lift (nk dis_dsp_sys) in
  let! er := sys (ref_mbx_sys mbox pk_rmbx) in
  if er =? E_OK then
    let! head := lift (nk (kmem (load (pk_rmbx + 4)))) in
    if nz head then
      let! _ := sys (rcv_mbx_sys mbox pk_msg) in
      let! _ := lift (nk (pass_on msg pk_msg)) in
      let! _ := lift (nk ena_dsp_sys) in
      pret left_behind
    else
      let! _ := lift (nk ena_dsp_sys) in
      pret SYS_MBOX_EMPTY
  else
    let! _ := lift (nk ena_dsp_sys) in
    pret left_behind.

(** ** Reasoning *)

Lemma wp_nk {A} (m : KM A) (Q : A -> net -> Prop) n :
  wp m (fun a k => Q a (set_n_k k n)) (n_k n) -> wp (nk m) Q n.
Proof. unfold wp, nk, zoom. by destruct (m (n_k n)) as [[a k]|]. Qed.

Lemma set_n_k_id n : set_n_k (n_k n) n = n.
Proof. by destruct n. Qed.

(** What is left of a function behind a call that waits. *)
Definition and_then {A B} (rest : Z -> PM A) (f : A -> PM B) : Z -> PM B := fun v => pbind (rest v) f.

Lemma wp_pbind {A B} (m : PM A) (f : A -> PM B) Q n :
  wp m (fun r n' => match r with Ret a => wp (f a) Q n' | Wait k rest => Q (Wait k (and_then rest f)) n' end) n ->
  wp (pbind m f) Q n.
Proof.
  intros H. apply wp_bind. eapply wp_mono; [exact H|]. intros [a|k rest] n'; [done|]. intros HQ. by apply wp_ret.
Qed.

Lemma wp_pret {A} (a : A) Q n : Q (Ret a) n -> wp (pret a) Q n.
Proof. apply wp_ret. Qed.

Lemma wp_lift {A} (m : NM A) (Q : pres A -> net -> Prop) n : wp m (fun a n' => Q (Ret a) n') n -> wp (lift m) Q n.
Proof. intros H. apply wp_bind. eapply wp_mono; [exact H|]. intros a n' HQ. by apply wp_ret. Qed.

(** [let! x := lift (nk m) in k]. *)
Lemma wp_lift_nk {A B} (m : KM A) (f : A -> PM B) Q n :
  wp m (fun a k => wp (f a) Q (set_n_k k n)) (n_k n) -> wp (pbind (lift (nk m)) f) Q n.
Proof. intros H. by apply wp_pbind, wp_lift, wp_nk. Qed.

Lemma wp_lift_gets {A B} (g : kstate -> A) (f : A -> PM B) Q n :
  wp (f (g (n_k n))) Q n -> wp (pbind (lift (nk (gets g))) f) Q n.
Proof. intros H. apply wp_lift_nk, wp_gets. by rewrite set_n_k_id. Qed.

Lemma wp_sys (m : KM sysres) (Q : pres Z -> net -> Prop) n :
  wp m (fun r k => match r with
    | Done v => Q (Ret v) (set_n_k k n)
    | Cont kt => Q (Wait kt pret) (set_n_k k n)
    | _ => False end) (n_k n) ->
  wp (sys m) Q n.
Proof.
  intros H. apply wp_bind, wp_nk. eapply wp_mono; [exact H|]. intros [v| |kt|] k; [..|done]; [by intros; apply wp_ret|done|by intros; apply wp_ret].
Qed.

(** ** Semaphores *)

(** The milliseconds from [n] to [n']. *)
Definition now (n : net) : Z := system_time (k_time (n_k n)).
Definition elapsed (n n' : net) : Z := ticks_to_ms (i64 (now n' - now n)).

(** A tick of the clock is [CONFIG_CTMR] microseconds: [v] is the number of whole
    milliseconds in the microseconds from [n] to [n'], unless they are more than
    the value of the functions, 32 bits wide, can tell. *)
Definition waited (n n' : net) (v : Z) : Prop :=
  let us := (now n' - now n) * CONFIG_CTMR in
  0 <= us < 1000 * 2 ^ 32 -> 1000 * v <= us < 1000 * (v + 1).

Lemma elapsed_waited n n' : waited n n' (elapsed n n').
Proof.
  unfold waited, elapsed, ticks_to_ms. cbv zeta. set (d := now n' - now n). change CONFIG_CTMR with 1000. intros H.
  rewrite (i64_small d), i64_small, Z.quot_mul, u32_small by lia. lia.
Qed.

Definition same_lists (n n' : net) : Prop :=
  lwip_system_timeouts n' = lwip_system_timeouts n /\ lwip_system_threads n' = lwip_system_threads n.

(** The end of [wai_sem]. *)
Lemma wp_wai_sem_resume s A S id :
  sem_impl s A S -> wp (wai_sem_resume id) (fun er s' => er <> E_TMOUT /\ sem_impl s' A S) s.
Proof.
  intros [HI HS]. pose proof HI as [Hk _]. destruct (ki_cur _ _ _ _ (proj1 Hk)) as (c & Ec & t & Et).
  apply wp_bind, wp_cli, wp_bind. eapply wp_get_current; [exact Ec|]. apply wp_bind. eapply wp_get_task; [exact Et|].
  destruct (wobjid t =? E_DLT).
  - wp_steps. split; [done|]. by apply sem_impl_sti, sem_impl_cli.
  - apply wp_bind, wp_write_log; [apply Hk|]. intros l Hl. wp_steps. split; [done|]. apply sem_impl_sti. split; [|done].
    eapply (impl_frame s); [done| |done|done]. by apply kinv0_log; [apply kinv0_cli, Hk|].
Qed.

(** [sys_arch_sem_wait] without a timeout. *)
Lemma wp_sem_wait n A S c sem :
  sem_impl (n_k n) A S -> current_task (k_sched (n_k n)) = Some c -> ~ is_idle (n_k n) c ->
  wp (sys_arch_sem_wait sem 0) (fun r n' =>
    let '(r0, A', S') := a_wai_sem c sem A S in
    sem_impl (n_k n') A' S' /\ same_lists n n' /\
    match r0 with
    | Done _ => r = Ret (elapsed n n')
    | _ => scheduled (n_k n') (a_ready A') /\ (exists rest, r = Wait (KWaiSem sem) rest) /\
        forall n2 A2 S2, sem_impl (n_k n2) A2 S2 ->
          wp (continue r) (fun v n3 => v = Ret (elapsed n n3) /\ sem_impl (n_k n3) A2 S2 /\ same_lists n2 n3) n2
    end) n.
Proof.
  intros HI Hc Hi. unfold sys_arch_sem_wait. apply wp_lift_gets, wp_pbind, wp_sys.
  change (twai_sem_sys sem 0) with (wai_sem_sys sem). eapply wp_mono; [by eapply wp_wai_sem|]. intros r k.
  destruct (a_wai_sem c sem A S) as [[r0 A'] S'] eqn:Ea. intros (-> & HI' & _ & Hr).
  assert (match r0 with Done er => er <> E_TMOUT | Cont kt => kt = KWaiSem sem | _ => False end) as Hv.
  { unfold a_wai_sem in Ea. repeat case_match; simplify_eq; done. }
  destruct r0 as [er| |kt|]; [|done| |done].
  - destruct (Z.eqb_spec er E_TMOUT); [done|]. apply wp_lift_gets, wp_pret. done.
  - subst kt. split; [done|]. split; [done|]. split; [done|]. split; [by eexists|]. intros n2 A2 S2 H2. cbn [continue resume].
    apply wp_bind, wp_nk, wp_bind. eapply wp_mono; [by apply wp_wai_sem_resume|]. intros er s3 [He H3].
    apply wp_ret, wp_bind, wp_ret. unfold and_then. apply wp_pbind, wp_pret. destruct (Z.eqb_spec er E_TMOUT); [done|].
    by apply wp_lift_gets, wp_pret.
Qed.

(** ** Mailboxes *)

(** A store outside the message pool. *)
Lemma mbx_impl_store s A C Hd a v : mbx_impl s A C Hd -> outside s a ->
  mbx_impl (set_k_mem (<[a := v]> (k_mem s)) s) A C Hd.
Proof.
  intros (HI & Mq & k & fl & H & HC) Ha. destruct (msgs_ok_store s Mq Hd k fl a v H Ha) as [H' Hd']. split.
  - eapply (impl_frame s); [done|apply kinv0_mem, HI|done|done].
  - exists Mq, k, fl. split; [done|]. eapply contents_same; [exact HC|done|]. intros b j Hb. apply Hd'. right. by exists j.
Qed.

(** The interrupts and the switch of the dispatcher. *)
Lemma mbx_impl_int s A C Hd r : mbx_impl s A C Hd -> int_nest_count r = int_nest_count (k_int s) -> mbx_impl (set_k_int r s) A C Hd.
Proof.
  intros (HI & Mq & k & fl & H & HC) Hr. split.
  - eapply (impl_frame s); [done| |done|done]. apply kinv0_int; [apply HI|done].
  - exists Mq, k, fl. split; [by eapply msgs_ok_frame|done].
Qed.

Lemma wp_pass_on s A C Hd msg p (Q : unit -> kstate -> Prop) :
  mbx_impl s A C Hd -> valid_addr p = true -> (msg <> NULL -> valid_addr msg = true /\ outside s msg) ->
  (forall s', mbx_impl s' A C Hd -> k_time s' = k_time s -> k_sched s' = k_sched s -> k_int s' = k_int s ->
     (msg <> NULL -> peek (k_mem s') msg = peek (k_mem s) p) ->
     (forall a, a <> msg -> peek (k_mem s') a = peek (k_mem s) a) -> Q tt s') ->
  wp (pass_on msg p) Q s.
Proof.
  intros HM Hp Hm HQ. unfold pass_on. destruct (Z.eqb_spec msg NULL) as [->|Hne]; [by apply wp_ret, HQ|].
  destruct (Hm Hne) as [Hv Ho]. apply wp_bind, wp_kmem, wp_load; [done|]. apply wp_kmem, wp_store; [done|].
  replace (set_k_mem (k_mem s) s) with s by (by destruct s). apply HQ; try done.
  - by apply mbx_impl_store.
  - intros _. apply peek_insert_eq.
  - intros a Ha. by apply peek_insert_ne.
Qed.

(** The end of [sys_arch_mbox_fetch]. *)
Lemma wp_fetch_end n n1 A C Hd msg p (Q : pres Z -> net -> Prop) :
  mbx_impl (n_k n1) A C Hd -> valid_addr p = true -> (msg <> NULL -> valid_addr msg = true /\ outside (n_k n1) msg) ->
  (forall n', mbx_impl (n_k n') A C Hd -> same_lists n1 n' -> imask (k_int (n_k n')) = imask (k_int (n_k n1)) ->
     (msg <> NULL -> peek (k_mem (n_k n')) msg = peek (k_mem (n_k n1)) p) ->
     (forall a, a <> msg -> peek (k_mem (n_k n')) a = peek (k_mem (n_k n1)) a) -> Q (Ret (elapsed n n')) n') ->
  wp (let! _ := lift (nk (pass_on msg p)) in
      let! old_val := lift (nk protect) in
      let! t := lift (nk get_system_time) in
      let! _ := lift (nk (unprotect old_val)) in
      pret (ticks_to_ms (i64 (t - now n)))) Q n1.
Proof.
  intros HM Hp Hm HQ. apply wp_lift_nk. eapply wp_pass_on; [exact HM|done|done|]. intros s' HM' Ht Hs Hi H1 H2.
  apply wp_lift_nk. unfold protect. apply wp_bind, wp_gets, wp_bind, wp_modify, wp_ret.
  apply wp_lift_gets, wp_lift_nk, wp_modify, wp_pret. cbn [n_k set_n_k k_int set_k_int].
  match goal with |- Q _ ?n' => apply (HQ n') end; try done; [|cbn; by rewrite Hi]. by do 2 (apply mbx_impl_int; [|done]).
Qed.

(** The message pool stays where it is. *)
Definition settled {A} (m : KM A) : Prop :=
  forall s a s', m s = Some (a, s') -> msg_pool (k_mbx s') = msg_pool (k_mbx s).

Lemma settled_ret {A} (a : A) : settled (ret a).
Proof. by intros s b s' [= _ <-]. Qed.

Lemma settled_bind {A B} (m : KM A) (k : A -> KM B) : settled m -> (forall a, settled (k a)) -> settled (bind m k).
Proof.
  intros Hm Hk s b s'. unfold bind. destruct (m s) as [[a s1]|] eqn:E; [|done]. intros E'. etrans; [by eapply Hk|by eapply Hm].
Qed.

Lemma settled_gets {A} (f : kstate -> A) : settled (gets f).
Proof. by intros s a s' [= _ <-]. Qed.

Lemma settled_kmem {A} (m : M (gmap Z Z) A) : settled (kmem m).
Proof. intros s a s'. unfold kmem, zoom. destruct (m (k_mem s)) as [[? ?]|]; [|done]. by intros [= _ <-]. Qed.

Lemma settled_deref {A} (o : option A) : settled (deref o).
Proof. destruct o; [apply settled_ret|by intros ???]. Qed.

Lemma settled_cli : settled hw_cli.
Proof. by intros s a s' [= _ <-]. Qed.

Lemma settled_sti : settled hw_sti.
Proof. by intros s a s' [= _ <-]. Qed.

Lemma settled_log ev a1 a2 : settled (write_log ev a1 a2).
Proof. intros s a s'. unfold write_log. case_match; [|done]. by intros [= _ <-]. Qed.

Lemma settled_get_mbx i : settled (get_mbx i).
Proof. intros s a s'. unfold get_obj. case_match; [|done]. by intros [= _ <-]. Qed.

Lemma settled_upd_mbx i f : settled (upd_mbx i f).
Proof. intros s a s'. unfold upd_obj. case_match; [|done]. by intros [= _ <-]. Qed.

Lemma settled_upd_nodes f : settled (upd_nodes f).
Proof. by intros s a s' [= _ <-]. Qed.

Create HintDb settled.
#[local] Hint Resolve settled_ret settled_gets settled_kmem settled_deref settled_cli settled_sti settled_log
  settled_get_mbx settled_upd_mbx settled_upd_nodes : settled.

Lemma settled_extract i : settled (msg_extract i).
Proof.
  unfold msg_extract. do 3 (apply settled_bind; [auto with settled|intros ?]). case_match. case_match.
  do 2 (apply settled_bind; [auto with settled|intros ?]). unfold msg_ptr. repeat case_match; auto with settled; by intros ???.
Qed.

Lemma settled_deliver b p : settled (deliver b p).
Proof. unfold deliver, free_msg, get_msg_pool. repeat (apply settled_bind; [auto with settled|intros]); auto with settled. Qed.

#[local] Hint Resolve settled_extract settled_deliver : settled.

(** [rcv_mbx_sys] when it does not wait. *)
Definition rcv_now (id ppk_msg : Z) : KM sysres :=
  if bad_mbxid id then ret (Done E_ID) else
  if negb (nz ppk_msg) then ret (Done E_PAR) else
  hw_cli ;;;
  let* bm := gets (fun s => mbxbmap (k_mbx s)) in
  if negb (nz (isbitset bm (id - 1))) then hw_sti ;;; ret (Done E_NOEXS) else
  let* x := get_mbx (Z.to_nat (id - 1)) in
  if queue_is_empty (msgque x) then fault else
  let* o := msg_extract (Z.to_nat (id - 1)) in
  let* b := deref o in
  deliver b ppk_msg ;;;
  write_log TFN_TRCV_MBX id E_OK ;;;
  hw_sti ;;;
  ret (Done E_OK).

Lemma bind_iff {S A B} (m : M S A) (k k' : A -> M S B) s r :
  (forall a s', k a s' = Some r <-> k' a s' = Some r) -> bind m k s = Some r <-> bind m k' s = Some r.
Proof. intros H. unfold bind. destruct (m s) as [[a s']|]; [apply H|done]. Qed.

Lemma rcv_now_iff id p s er s' : rcv_mbx_sys id p s = Some (Done er, s') <-> rcv_now id p s = Some (Done er, s').
Proof.
  unfold rcv_mbx_sys, rcv_now. destruct (bad_mbxid id); [done|]. destruct (negb (nz p)); [done|].
  do 2 (apply bind_iff; intros ? ?). destruct (negb _); [done|]. apply bind_iff. intros x s1.
  destruct (queue_is_empty (msgque x)); [|done]. split; [|done]. unfold bind. intros E. repeat case_match; naive_solver.
Qed.

Lemma settled_rcv_now id p : settled (rcv_now id p).
Proof.
  unfold rcv_now. repeat first [apply settled_bind; [auto with settled|intros ?] | case_match]; auto with settled; by intros ???.
Qed.

Lemma rcv_mbx_settled id p s er s' :
  rcv_mbx_sys id p s = Some (Done er, s') -> msg_pool (k_mbx s') = msg_pool (k_mbx s).
Proof. intros E%rcv_now_iff. by eapply settled_rcv_now. Qed.

Lemma settled_current : settled get_current.
Proof. intros s a s'. unfold get_current. case_match; [|done]. by intros [= _ <-]. Qed.

Lemma settled_get_task i : settled (get_task i).
Proof. intros s a s'. unfold get_task. case_match; [|done]. by intros [= _ <-]. Qed.

Lemma settled_upd_task i f : settled (upd_task i f).
Proof. intros s a s'. unfold upd_task. case_match; [|done]. by intros [= _ <-]. Qed.

#[local] Hint Resolve settled_current settled_get_task settled_upd_task : settled.

Lemma rcv_resume_settled id p : settled (rcv_mbx_resume id p).
Proof.
  unfold rcv_mbx_resume. do 3 (apply settled_bind; [auto with settled|intros ?]).
  case_match; repeat (apply settled_bind; [auto with settled|intros ?]); auto with settled.
Qed.

Lemma wp_with_eq {S A} (m : M S A) (Q : A -> S -> Prop) s :
  wp m (fun a s' => m s = Some (a, s') -> Q a s') s -> wp m Q s.
Proof. unfold wp. destruct (m s) as [[a s']|]; auto. Qed.

(** [sys_arch_mbox_fetch] without a timeout, on a mailbox that exists: the
    oldest message, or the caller waits and gets the message that is handed to
    it. *)
Lemma wp_mbox_fetch n A C Hd c mbox msg p l :
  mbx_impl (n_k n) A C Hd -> current_task (k_sched (n_k n)) = Some c -> ~ is_idle (n_k n) c ->
  bad_mbxid mbox = false -> C (Z.to_nat (mbox - 1)) = Some l ->
  valid_addr p = true -> outside (n_k n) p -> (msg <> NULL -> valid_addr msg = true /\ outside (n_k n) msg) ->
  let i := Z.to_nat (mbox - 1) in
  wp (sys_arch_mbox_fetch p mbox msg 0) (fun r n' =>
    same_lists n n' /\
    match l with
    | d :: l' => r = Ret (elapsed n n') /\ mbx_impl (n_k n') A (<[i := Some l']> C) Hd /\
        (msg <> NULL -> peek (k_mem (n_k n')) msg = d)
    | [] => mbx_impl (n_k n') (a_block c (WMbx i) A) C Hd /\ scheduled (n_k n') (a_ready (a_block c (WMbx i) A)) /\
        (exists rest, r = Wait (KRcvMbx mbox p) rest) /\
        forall n2 A2 C2 Hd2 c2 t, mbx_impl (n_k n2) A2 C2 Hd2 -> current_task (k_sched (n_k n2)) = Some c2 ->
          task_pool (k_task (n_k n2)) !! c2 = Some t -> wobjid t <> E_DLT -> extdat t ∈ Hd2 ->
          msg_pool (k_mbx (n_k n2)) = msg_pool (k_mbx (n_k n)) ->
          wp (continue r) (fun v n3 => v = Ret (elapsed n n3) /\ mbx_impl (n_k n3) A2 C2 (without (extdat t) Hd2) /\
            (msg <> NULL -> peek (k_mem (n_k n3)) msg = peek (k_mem (n_k n2)) (extdat t))) n2
    end) n.
Proof.
  intros HM Hc Hi Hb HC Hp Ho Hm i.
  assert (nz p = true /\ Z.land p 3 = 0) as [Hnz Hal] by (unfold valid_addr in Hp; apply andb_prop in Hp as [? ?%Z.eqb_eq]; done).
  unfold sys_arch_mbox_fetch. apply wp_lift_gets, wp_pbind, wp_sys. change (trcv_mbx_sys mbox p 0) with (rcv_mbx_sys mbox p).
  apply wp_with_eq. eapply wp_mono; [by apply (wp_rcv_mbx (n_k n) A C Hd c mbox p)|]. intros r k (_ & H) Er.
  rewrite Hb, Hnz in H. cbn [negb] in H. cbv zeta in H. rewrite HC in H. fold i in H. destruct l as [|d l].
  - destruct H as (-> & Hs & HM'). split; [done|]. split; [done|]. split; [done|]. split; [by eexists|].
    intros n2 A2 C2 Hd2 c2 t HM2 Hc2 Ht2 Hne Hin Hpool.
    assert (forall a, outside (n_k n) a -> outside (n_k n2) a) as Hout by (intros a; unfold outside; by rewrite Hpool).
    cbn [continue resume]. apply wp_bind, wp_nk, wp_bind, wp_with_eq.
    eapply wp_mono; [apply (wp_rcv_mbx_resume (n_k n2) A2 C2 Hd2 c2 t mbox p); auto|]. intros er s3 (_ & H3) E3.
    destruct (Z.eqb_spec (wobjid t) E_DLT); [done|]. destruct H3 as (-> & H3 & [Hdl Hdo]).
    apply wp_ret, wp_bind, wp_ret. unfold and_then. apply wp_pbind, wp_pret. cbv iota. cbn [Z.eqb].
    eapply (wp_fetch_end n); [exact H3|done| |].
    + intros Hm'. destruct (Hm Hm') as [? Ho']. split; [done|]. apply rcv_resume_settled in E3. unfold outside. cbn [n_k set_n_k].
      rewrite E3. by apply Hout.
    + intros n3 H4 _ _ Hv _. split; [done|]. split; [done|]. intros Hm'. rewrite Hv by done. exact Hdl.
  - destruct H as (-> & HM' & [Hdl Hdo]). cbv iota. cbn [Z.eqb].
    eapply (wp_fetch_end n); [exact HM'|done| |].
    + intros Hm'. destruct (Hm Hm') as [? Ho']. split; [done|]. apply rcv_mbx_settled in Er. unfold outside. cbn [n_k set_n_k].
      by rewrite Er.
    + intros n' H4 Hl _ Hv _. split; [done|]. split; [done|]. split; [done|]. intros Hm'. rewrite Hv by done. exact Hdl.
Qed.

(** [sys_mbox_trypost] while the pool has a free message: [ERR_OK] when the
    thread runs again, [ERR_MEM] for a mailbox that does not exist. *)
Lemma wp_mbox_trypost n A C Hd mbox msg :
  mbx_impl (n_k n) A C Hd -> msg_room (n_k n) = true -> bad_mbxid mbox = false -> nz msg = true ->
  let i := Z.to_nat (mbox - 1) in
  wp (sys_mbox_trypost mbox msg) (fun r n' =>
    match C i with
    | None => r = Ret ERR_MEM /\ mbx_impl (n_k n') A C Hd
    | Some l => (forall n2, continue r n2 = Some (Ret ERR_OK, n2)) /\
        match a_wait A (WMbx i) with
        | [] => mbx_impl (n_k n') A (<[i := Some (l ++ [msg])]> C) Hd
        | _ => exists b A', a_wake (WMbx i) A = Some A' /\ mbx_impl (n_k n') A' C (b :: Hd) /\ peek (k_mem (n_k n')) b = msg
        end
    end) n.
Proof.
  intros HM Hr Hb Hnz i. unfold sys_mbox_trypost. apply wp_pbind, wp_sys.
  eapply wp_mono; [by apply (wp_snd_mbx (n_k n) A C Hd mbox msg)|]. intros r k (_ & H). rewrite Hb, Hnz in H. cbn [negb] in H.
  cbv zeta in H. fold i in H. destruct (C i) as [l|].
  - destruct H as (-> & H). split.
    { intros n2. cbn. by destruct n2. }
    destruct (a_wait A (WMbx i)) as [|c ws]; [apply H|]. destruct H as (b & A' & ? & ? & _ & ? & _). by exists b, A'.
  - destruct H as [-> H]. by apply wp_pret.
Qed.

(** The object at the head of a queue. *)
Lemma qfam_head {K J} {ob : J -> obj} (nd : J -> laddr) m (q : K -> queue_t) (Q : K -> list J) k :
  qfam_of (ob := ob) nd m q Q -> queue_get_head m (q k) = match Q k with [] => None | i :: _ => Some (ob i) end.
Proof.
  intros H. destruct (qf_rep _ _ _ _ H k) as (Hh & _). unfold queue_get_head. rewrite Hh.
  destruct (Q k) as [|i l] eqn:E; [done|]. simpl. apply (qf_this _ _ _ _ H k). rewrite E. left.
Qed.

(** What a step leaves that only writes the variables [p] and [p + 4]. *)
Record noted_at (s : kstate) (A : akernel) (C : nat -> option (list Z)) (Hd : list Z) (p : Z) (m : gmap Z Z) : Prop := {
  na_impl : mbx_impl (set_k_mem m s) A C Hd;
  na_rest : forall a, a <> p -> a <> p + 4 -> peek m a = peek (k_mem s) a
}.

Lemma noted_store s A C Hd p m a v : noted_at s A C Hd p m -> a = p \/ a = p + 4 -> outside s a ->
  noted_at s A C Hd p (<[a := v]> m).
Proof.
  intros [H1 H2] Ha Ho. split.
  - by apply (mbx_impl_store (set_k_mem m s) A C Hd a v).
  - intros b Hb Hb'. rewrite peek_insert_ne by (destruct Ha; congruence). by apply H2.
Qed.

Lemma wp_ref_mbx s A C Hd id p l :
  mbx_impl s A C Hd -> bad_mbxid id = false -> C (Z.to_nat (id - 1)) = Some l ->
  valid_addr p = true -> valid_addr (p + 4) = true -> outside s p -> outside s (p + 4) ->
  wp (ref_mbx_sys id p) (fun r s' => r = Done E_OK /\
    exists m, s' = sti_state (set_k_mem m (cli_state s)) /\ noted_at s A C Hd p m /\ peek m (p + 4) = hd NULL l) s.
Proof.
  intros HM Hb HC Hv Hv4 Ho Ho4. unfold ref_mbx_sys. rewrite Hb.
  assert (nz p = true) as -> by (apply andb_prop in Hv as [? _]; done). cbn [negb].
  eapply (wp_existing (X := mailbox_t)); [apply HM|by apply bad_mbxid_false|done| |].
  { intros Hc. by rewrite (mbx_closed s A C Hd) in HC. }
  intros i x Ei Ei' Hi Ex Hop. rewrite <- Ei in *.
  destruct (mbx_contents s A C Hd i x HM Ex Hop) as (Mq & k & fl & H & HCo & ECi & _). rewrite HC in ECi. injection ECi as El.
  assert (forall a, a <> 0 -> a mod 4 = 0 -> valid_addr a = true) as Hva by (intros; by apply valid_addr_spec).
  assert (noted_at s A C Hd p (k_mem s)) as Hn0 by (split; [by destruct s|done]).
  apply wp_bind. eapply wp_get_obj; [exact Ex|]. apply wp_bind, wp_kmem, wp_store; [done|]. cbn [k_mem cli_state set_k_int].
  pose proof (noted_store s A C Hd p (k_mem s) p TSK_NONE Hn0 (or_introl eq_refl) Ho) as Hn1.
  apply wp_bind, wp_gets. cbn [k_nodes set_k_mem].
  pose proof (proj1 (proj1 (proj1 HM))) as Hk.
  pose proof (qfam_head (ob := OTask) SynQue (k_nodes s) (waitq s) (a_wait A) (WMbx i) (ki_sync _ _ _ _ Hk)) as Eh.
  pose proof (waitq_obj (X := mailbox_t) s i x Ex) as Eq. cbn [w_key w_que mbx_wait] in Eq. rewrite Eq in Eh. change (k_nodes (cli_state s)) with (k_nodes s).
  rewrite Eh. set (mid := fun m : gmap Z Z => set_k_mem m (cli_state s)).
  assert (exists m, noted_at s A C Hd p m /\
    forall Q' : sysres -> kstate -> Prop, forall K : KM sysres, wp K Q' (mid m) ->
      wp (let* tsk := task_ptr (match a_wait A (WMbx i) with [] => None | i :: _ => Some (OTask i) end) in
          match tsk with Some tsk => let* t := get_task tsk in kmem (store p (tskid t)) | None => ret tt end ;;; K) Q'
        (mid (<[p := TSK_NONE]> (k_mem s)))) as (m & Hn2 & Hstep).
  { destruct (a_wait A (WMbx i)) as [|c ws] eqn:Ew.
    - exists (<[p := TSK_NONE]> (k_mem s)). split; [done|]. intros Q' K HK. by apply wp_bind, wp_ret, wp_bind, wp_ret.
    - destruct (waiting_task s _ _ _ (WMbx i) c Hk) as (_ & t & Et); [rewrite Ew; left|].
      exists (<[p := tskid t]> (<[p := TSK_NONE]> (k_mem s))). split; [by apply noted_store; auto|]. intros Q' K HK.
      apply wp_bind, wp_ret, wp_bind, wp_bind. eapply wp_get_task; [exact Et|]. by apply wp_kmem, wp_store. }
  apply Hstep. clear Hstep. unfold mid.
  pose proof (qfam_head (ob := OMsg) MsgQue (k_nodes s) (msgq s) Mq i (mo_fam _ _ _ _ _ H)) as Em.
  change (mbx_pool (k_mbx s) !! i = Some x) in Ex.
  assert (msgq s i = msgque x) as Eqm by (unfold msgq; by rewrite Ex). rewrite Eqm in Em. rewrite Em.
  assert (forall v, v = hd NULL l -> wp (kmem (store (p + 4) v) ;;; hw_sti ;;; ret (Done E_OK)) (fun r s' => r = Done E_OK /\
    exists m, s' = sti_state (set_k_mem m (cli_state s)) /\ noted_at s A C Hd p m /\ peek m (p + 4) = hd NULL l)
    (set_k_mem m (cli_state s))) as Hend.
  { intros v ->. apply wp_bind, wp_kmem, wp_store; [done|]. wp_steps. split; [done|]. eexists. split; [done|].
    split; [by apply noted_store; auto|]. apply peek_insert_eq. }
  destruct (Mq i) as [|b bs] eqn:Eb; apply wp_bind, wp_ret, wp_bind.
  - apply wp_ret, Hend. by rewrite El.
  - assert (b ∈ Mq i) as Hbi by (rewrite Eb; left).
    destruct (mo_used _ _ _ _ _ H b (or_intror (ex_intro _ i Hbi))) as (j & Hj & Ebj & _).
    destruct (msg_at_spec _ _ _ _ _ j H Hj) as (Hvb & _ & _ & _ & Hb1 & Hb2). rewrite <- Ebj in *.
    apply wp_kmem, wp_load; [done|]. cbn [k_mem set_k_mem]. rewrite El. cbn [fmap list_fmap hd] in Hend.
    replace (set_k_mem m (set_k_mem m (cli_state s))) with (set_k_mem m (cli_state s)) by done.
    rewrite El in Hend. apply Hend. cbn. apply (na_rest _ _ _ _ _ _ Hn2).
    + intros ->. unfold outside in Ho. unfold mp_base in *. lia.
    + intros Heq. unfold outside in Ho4. unfold mp_base in *. lia.
Qed.

(** ** Code that does not look at the switch of the dispatcher *)

Lemma blind_get_mbx i : blind (get_mbx i).
Proof. intros v s a s'. unfold get_obj. cbn. case_match; [|done]. by intros [= <- <-]. Qed.

Lemma blind_upd_mbx i f : blind (upd_mbx i f).
Proof. intros v s a s'. unfold upd_obj. cbn. case_match; [|done]. by intros [= <- <-]. Qed.

Lemma blind_msg_ptr o : blind (msg_ptr o).
Proof. destruct o as [[]|]; try apply blind_ret; by intros ????. Qed.

#[local] Hint Resolve blind_get_mbx blind_upd_mbx blind_msg_ptr : blind.

Lemma blind_extract i : blind (msg_extract i).
Proof. unfold msg_extract. blind_steps. Qed.

Lemma blind_deliver b p : blind (deliver b p).
Proof. unfold deliver, free_msg, get_msg_pool. blind_steps. Qed.

#[local] Hint Resolve blind_extract blind_deliver : blind.

Lemma blind_ref_mbx id p : blind (ref_mbx_sys id p).
Proof. unfold ref_mbx_sys. blind_steps. Qed.

Lemma blind_rcv_now id p : blind (rcv_now id p).
Proof. unfold rcv_now. blind_steps. Qed.

Lemma rcv_mbx_blind v id p s er s' :
  rcv_mbx_sys id p s = Some (Done er, s') -> rcv_mbx_sys id p (dsp v s) = Some (Done er, dsp v s').
Proof. intros E%rcv_now_iff. by apply rcv_now_iff, blind_rcv_now. Qed.

Lemma blind_pass_on msg p : blind (pass_on msg p).
Proof. unfold pass_on. blind_steps. Qed.

(** [dis_dsp], code that does not look at the switch, and [ena_dsp]. *)
Lemma wp_dis_dsp s (Q : Z -> kstate -> Prop) : Q E_OK (dsp FALSE (sti_state (cli_state s))) -> wp dis_dsp_sys Q s.
Proof. intros H. exact H. Qed.

Lemma wp_ena_dsp v s (Q : Z -> kstate -> Prop) : Q E_OK (dsp TRUE (sti_state (cli_state s))) -> wp ena_dsp_sys Q (dsp v s).
Proof. intros H. exact H. Qed.

Lemma mbx_impl_dsp s A C Hd : mbx_impl s A C Hd -> mbx_impl (dsp TRUE s) A C Hd.
Proof.
  intros ([[[] Hc] Hp] & Mq & k & fl & H & HC). split; [split; [split; [split|]|]|]; try done.
  - destruct ki_rq. by split.
  - destruct ki_tasks. by split.
  - destruct ki_pools. by split.
  - destruct ki_places. by split.
  - by split; [apply ki_dsp|].
  - exists Mq, k, fl. split; [by eapply msgs_ok_frame|done].
Qed.

(** [sys_arch_mbox_tryfetch] on a mailbox that exists and has no NULL message
    at its head: it does not wait; the oldest message is passed on, or the
    mailbox is reported empty. *)
Lemma wp_mbox_tryfetch n A C Hd c mbox msg pr p left_behind l :
  mbx_impl (n_k n) A C Hd -> current_task (k_sched (n_k n)) = Some c -> ~ is_idle (n_k n) c ->
  bad_mbxid mbox = false -> C (Z.to_nat (mbox - 1)) = Some l -> hd_error l <> Some NULL ->
  Forall (fun a => valid_addr a = true /\ outside (n_k n) a) [pr; pr + 4; p] ->
  (msg <> NULL -> valid_addr msg = true /\ outside (n_k n) msg) ->
  let i := Z.to_nat (mbox - 1) in
  wp (sys_arch_mbox_tryfetch pr p left_behind mbox msg) (fun r n' =>
    dispatching (k_sched (n_k n')) = TRUE /\ same_lists n n' /\
    match l with
    | [] => r = Ret SYS_MBOX_EMPTY /\ mbx_impl (n_k n') A C Hd
    | d :: l' => r = Ret left_behind /\ mbx_impl (n_k n') A (<[i := Some l']> C) Hd /\
        (msg <> NULL -> peek (k_mem (n_k n')) msg = d)
    end) n.
Proof.
  intros HM Hc Hi Hb HC Hnn [[Hvr Hor] [[Hv4 Ho4] [[Hvp Hop] _]%Forall_cons]%Forall_cons]%Forall_cons Hm i.
  unfold sys_arch_mbox_tryfetch. apply wp_lift_nk, wp_dis_dsp. set (s1 := sti_state (cli_state (n_k n))).
  apply wp_pbind, wp_sys, wp_blind; [apply blind_ref_mbx|].
  eapply wp_mono; [apply (wp_ref_mbx s1 A C Hd mbox pr l); try done; by apply mbx_impl_masked|].
  intros r s2 (-> & m & -> & Hn & Hh). cbn [Z.eqb]. destruct Hn as [HM2 _]. set (s2 := sti_state (set_k_mem m (cli_state s1))).
  assert (mbx_impl s2 A C Hd) as HM2' by exact (mbx_impl_int (set_k_mem m s1) A C Hd _ HM2 eq_refl).
  change (E_OK =? E_OK) with true. cbv iota. apply wp_lift_nk. cbn [n_k set_n_k].
  apply wp_kmem, wp_load; [done|]. change (k_mem (dsp FALSE s2)) with m. rewrite Hh.
  change (set_k_mem m (dsp FALSE s2)) with (dsp FALSE s2). destruct l as [|d l'].
  - apply wp_lift_nk, wp_ena_dsp, wp_pret. split; [done|]. split; [done|]. split; [done|]. by apply mbx_impl_dsp, mbx_impl_masked.
  - cbn [hd]. assert (nz d = true) as -> by (unfold nz; destruct (Z.eqb_spec d 0) as [->|]; [by destruct Hnn|done]).
    assert (nz p = true /\ Z.land p 3 = 0) as [Hnz Hal] by (unfold valid_addr in Hvp; apply andb_prop in Hvp as [? ?%Z.eqb_eq]; done).
    assert (wp (rcv_mbx_sys mbox p) (fun r s3 => r = Done E_OK /\ mbx_impl s3 A (<[i := Some l']> C) Hd /\
      peek (k_mem s3) p = d /\ msg_pool (k_mbx s3) = msg_pool (k_mbx s2) /\
      rcv_mbx_sys mbox p (dsp FALSE s2) = Some (Done E_OK, dsp FALSE s3)) s2) as Hrcv.
    { apply wp_with_eq. eapply wp_mono; [by apply (wp_rcv_mbx s2 A C Hd c mbox p)|]. intros r s3 (_ & H) Er.
      rewrite Hb, Hnz in H. cbn [negb] in H. cbv zeta in H. rewrite HC in H. destruct H as (-> & HM3 & Hd3 & _).
      split_and!; try done; [by eapply rcv_mbx_settled|by apply rcv_mbx_blind]. }
    apply wp_pbind, wp_sys. cbn [n_k set_n_k].
    unfold wp in Hrcv at 1. destruct (rcv_mbx_sys mbox p s2) as [[r s3]|]; [|done]. destruct Hrcv as (-> & HM3 & Hd3 & Hp3 & E3).
    unfold wp at 1. rewrite E3. apply wp_lift_nk. cbn [n_k set_n_k]. apply wp_blind; [apply blind_pass_on|].
    eapply wp_pass_on; [exact HM3|done| |].
    { intros Hm'. destruct (Hm Hm') as [? Ho']. split; [done|]. unfold outside. by rewrite Hp3. }
    intros s4 HM4 _ _ _ Hv _. apply wp_lift_nk, wp_ena_dsp, wp_pret. split; [done|]. split; [done|]. split; [done|].
    split; [by apply mbx_impl_dsp, mbx_impl_masked|]. intros Hm'. rewrite <- Hd3. by apply Hv.
Qed.

(** ** The list of threads *)

(** The wrappers from [p] on, with their addresses and the tasks they are for. *)
Fixpoint threads_at (m : gmap Z Z) (p : Z) (l : list (Z * Z)) : Prop :=
  match l with
  | [] => p = NULL
  | (a, id) :: l =>
      p = a /\ (0 < a /\ valid_addr a = true) /\ i32 (peek m (thread_of a)) = id /\ threads_at m (peek m a) l
  end.

Lemma threads_fun m p l l' : threads_at m p l -> threads_at m p l' -> l = l'.
Proof.
  revert p l'. induction l as [|[a id] l IH]; intros p [|[a' id'] l']; cbn [threads_at]; [done|..].
  - intros -> (<- & [Hv _] & _). done.
  - intros (<- & [Hv _] & _) ->. done.
  - intros (-> & _ & <- & H) (<- & _ & <- & H'). f_equal. by eapply IH.
Qed.

Lemma threads_suffix m p l1 a id l2 : threads_at m p (l1 ++ (a, id) :: l2) -> threads_at m a ((a, id) :: l2).
Proof.
  revert p. induction l1 as [|[b id'] l1 IH]; intros p; cbn [threads_at app].
  - intros (-> & H). by split.
  - intros (_ & _ & _ & H). by eapply IH.
Qed.

(** No wrapper is twice in the list. *)
Lemma threads_NoDup m p l : threads_at m p l -> NoDup l.*1.
Proof.
  revert p. induction l as [|[a id] l IH]; intros p H; cbn; [constructor|].
  apply NoDup_cons. split; [|cbn [threads_at] in H; destruct H as (_ & _ & _ & H); by eapply IH].
  intros ([a' id'] & E & Hin)%list_elem_of_fmap. cbn in E. subst a'. apply list_elem_of_split in Hin as (l1 & l2 & ->).
  pose proof (threads_suffix m p ((a, id) :: l1) a id' l2 H) as H2. assert (p = a) as -> by apply H.
  apply (threads_fun _ _ _ _ H) in H2. apply (f_equal length) in H2. rewrite !length_cons, length_app, length_cons in H2. lia.
Qed.

(** All wrappers but the last have a [next], so that the words of the memory
    bound their number. *)
Lemma threads_fuel m p l : threads_at m p l -> (length l < thread_fuel m)%nat.
Proof.
  intros H. assert (forall q l, threads_at m q l -> removelast l.*1 ⊆ (elements (dom m))) as Hdom.
  { intros q l0. revert q. induction l0 as [|[a id] l0 IH]; intros q H0; [by intros x Hx%elem_of_nil|]. cbn [threads_at] in H0.
    destruct H0 as (_ & _ & _ & H0). destruct l0 as [|[b id'] l0]; [by intros x Hx%elem_of_nil|].
    change (removelast ((a, id) :: (b, id') :: l0).*1) with (a :: removelast ((b, id') :: l0).*1).
    intros x [->|Hx]%elem_of_cons; [|by eapply IH]. apply elem_of_elements, elem_of_dom.
    destruct H0 as (Eb & [Hv _] & _). unfold peek in Eb. destruct (m !! a); [by eexists|]. cbn in Eb. by subst b. }
  specialize (Hdom p l H). apply threads_NoDup in H as Hnd.
  assert (NoDup (removelast l.*1)) as Hnd'.
  { destruct (decide (l = [])) as [->|Hne]; [constructor|].
    rewrite (app_removelast_last 0 (l := l.*1)) in Hnd by (by destruct l). by apply NoDup_app in Hnd as [? _]. }
  pose proof (NoDup_submseteq _ _ Hnd' Hdom) as Hs. apply submseteq_length in Hs.
  assert (length l <= S (length (removelast l.*1)))%nat as Hl.
  { rewrite <- (length_fmap fst l). destruct (decide (l.*1 = [])) as [->|Hne]; [cbn; lia|].
    rewrite (app_removelast_last 0 Hne) at 1. rewrite length_app. cbn. lia. }
  unfold thread_fuel. rewrite <- size_dom. unfold base.size, set_size in *. cbn in *. lia.
Qed.

(** The first wrapper of the task [self]. *)
Fixpoint wrapper_of (self : Z) (l : list (Z * Z)) : option Z :=
  match l with
  | [] => None
  | (a, id) :: l => if id =? self then Some a else wrapper_of self l
  end.

Lemma wp_find_thread l fuel m self p (Q : option Z -> gmap Z Z -> Prop) :
  threads_at m p l -> (length l < fuel)%nat -> Q (timeouts_of <$> wrapper_of self l) m -> wp (find_thread fuel self p) Q m.
Proof.
  revert fuel p. induction l as [|[a id] l IH]; intros [|fuel] p H Hf HQ; try (cbn in Hf; lia); cbn [find_thread].
  { cbn [threads_at] in H. subst p. by apply wp_ret. }
  destruct H as (-> & [Hpos Hv] & Hid & H). apply valid_addr_spec in Hv as Hv'. unfold NULL. destruct (Z.eqb_spec a 0); [lia|].
  assert (valid_addr (thread_of a) = true) as Hv4.
  { apply valid_addr_spec. unfold thread_of. split; [lia|]. rewrite <- Zplus_mod_idemp_l. destruct Hv' as [_ ->]. done. }
  apply wp_bind, wp_load; [done|]. rewrite Hid. cbn [wrapper_of] in HQ. destruct (id =? self); [by apply wp_ret|].
  apply wp_bind, wp_load; [done|]. apply IH; [done|cbn in Hf; lia|done].
Qed.

(** [sys_arch_timeouts]: the list of the wrapper of the running task, or the
    default. *)
Lemma wp_timeouts n l c t :
  threads_at (k_mem (n_k n)) (lwip_system_threads n) l -> current_task (k_sched (n_k n)) = Some c ->
  task_pool (k_task (n_k n)) !! c = Some t ->
  wp sys_arch_timeouts (fun r n' =>
    r = default (lwip_system_timeouts n) (timeouts_of <$> wrapper_of (tskid t) l) /\ n' = n) n.
Proof.
  intros H Hc Ht. unfold sys_arch_timeouts. apply wp_bind, wp_nk. eapply wp_get_current; [exact Hc|].
  apply wp_bind, wp_nk. rewrite set_n_k_id. eapply wp_get_task; [exact Ht|]. rewrite set_n_k_id.
  apply wp_bind, wp_gets, wp_bind, wp_nk, wp_kmem, wp_bind, wp_gets.
  apply (wp_find_thread l); [done|by apply (threads_fuel _ (lwip_system_threads n))|].
  replace (set_k_mem (k_mem (n_k n)) (n_k n)) with (n_k n) by (by destruct (n_k n)). rewrite set_n_k_id.
  destruct (wrapper_of (tskid t) l); [by apply wp_ret|]. by apply wp_gets.
Qed.

Lemma wrapper_of_inj l i j a : NoDup l.*1 -> wrapper_of i l = Some a -> wrapper_of j l = Some a -> i = j.
Proof.
  induction l as [|[b id] l IH]; cbn [wrapper_of fmap list_fmap fst]; [done|].
  intros [Hb Hn]%NoDup_cons. assert (forall k, wrapper_of k l = Some b -> False) as Hno.
  { clear -Hb. intros k Hk. apply Hb. clear Hb. induction l as [|[b' id'] l IH]; cbn in *; [done|].
    destruct (id' =? k); [injection Hk as ->; left|right; auto]. }
  destruct (Z.eqb_spec id i), (Z.eqb_spec id j); intros E1 E2; simplify_eq; [done|by destruct (Hno _ E2)|by destruct (Hno _ E1)|auto].
Qed.
