(* ===== verification/GuaranteesNet.v ===== *)
(** * User programs and the network stack

    The entry of system calls from user programs, the operating system layer of
    the network stack, and the parsing of its addresses. *)

From Stdlib Require Import ZArith Lia.
From stdpp Require Import base tactics gmap option functions countable list.
From S2P Require Import Prelude Bits Queue Mem Kstate Kinv Waitobj Task Semaphore Event Mailbox Mempool Kernel Boot.
From S2P Require Import Qfam Mpool Bytes Ulibc NetInit SysArch.

Open Scope Z_scope.
Open Scope kernel_scope.

Module Entry.

(** C29. Whatever a program puts in the registers when it raises the system call
    exception: when the number is the one of a function of the table, its function
    code with the other sign (one less for cre_mpl and rel_mpl), this function
    runs, with the registers for its arguments; with the 22 numbers between the
    last entry of the table and NR_SYSCALLS, what lies behind the table is called;
    every other number, a negative one too, is refused with -1 and without
    effect. *)
Theorem system_call_dispatches ext g s :
  (forall f, i32 (P0 g) = entry_number f ->
     system_call ext g s = match decode f g (k_mem s) with Some sc => exec sc s | None => ext f (args g) s end) /\
  (235 <= i32 (P0 g) <= 256 -> system_call ext g s = None) /\
  ((forall f, i32 (P0 g) <> entry_number f) -> ~ 235 <= i32 (P0 g) <= 256 ->
     system_call ext g s = Some (Done UNKNOWN_SYSCALL, s)).
Proof.
  split; [intros f; apply system_call_entry|]. split; [apply system_call_behind|apply system_call_unknown].
Qed.

(** C28. Every function of the user library, with arguments of their C types: it
    runs the function of the kernel, the socket or the register function that it
    is there for, with the same argument values and with the packet that the memory
    of the caller has at the pointer. But the arguments behind the third one do
    not arrive (of wai_flg, recv, send, recvfrom, sendto, getsockopt, setsockopt and
    select): the function gets saved registers in their place; wup_tsk, sus_tsk
    and ter_tsk answer [E_SYS], and cre_mpl and rel_mpl are refused with -1,
    without effect. *)
Theorem user_calls_arrive ext g c s :
  ucall_typed c -> ulib ext g c s = meets ext g (fate_of g (k_mem s) c) s.
Proof. apply ulib_fate. Qed.

(** A semaphore with one unit, made by a user program from a packet at
    0x500000. *)
Definition user0 : kstate :=
  set_k_mem (<[0x500004 := 1]> (<[0x500008 := 5]> (k_mem boot0))) boot0.
Definition refuse : func -> list Z -> KM sysres := fun _ _ => ret (Done (-5)).
Definition junk : regs := mk_regs 1 2 3 4 5 6 7 8.

Lemma user_calls_arrive_witness :
  ulib refuse junk (U_cre_sem 1 0x500000) user0 = exec (Ccre_sem 1 (Some (mk_csem 0 1 5))) user0 /\
  result_of (ulib refuse junk (U_cre_sem 1 0x500000)) user0 = Some (Done E_OK) /\
  ulib refuse junk (U_send 9 0x600000 4 1) user0 = refuse F_lwip_send [9; 0x600000; 4; 6; 7; 8] user0.
Proof.
  split; [|split; [by vm_compute|exact (user_calls_arrive refuse junk (U_send 9 0x600000 4 1) user0 I)]].
  rewrite (user_calls_arrive refuse junk (U_cre_sem 1 0x500000) user0); [|split; unfold is_int, is_word; lia].
  cbn [fate_of meets]. replace (csem_at (k_mem user0) 0x500000) with (Some (mk_csem 0 1 5)) by (by vm_compute). done.
Defined.

(** Number 7 is [act_tsk]; 234 is the last entry; -2 and 3 are no function. *)
Lemma system_call_dispatches_witness :
  let call n := system_call refuse (mk_regs n 2 3 4 5 6 7 8) user0 in
  call 7 = exec (Cact_tsk 2) user0 /\ call 234 = refuse F_lwip_ioctl [2; 3; 4; 6; 7; 8] user0 /\
  call 250 = None /\ call (-2) = Some (Done UNKNOWN_SYSCALL, user0) /\ call 3 = Some (Done UNKNOWN_SYSCALL, user0).
Proof.
  intros call. split_and!.
  - exact (proj1 (system_call_dispatches refuse (mk_regs 7 2 3 4 5 6 7 8) user0) F_act_tsk_sys eq_refl).
  - exact (proj1 (system_call_dispatches refuse (mk_regs 234 2 3 4 5 6 7 8) user0) F_lwip_ioctl eq_refl).
  - apply (system_call_dispatches refuse (mk_regs 250 2 3 4 5 6 7 8) user0). by vm_compute.
  - apply (system_call_dispatches refuse (mk_regs (-2) 2 3 4 5 6 7 8) user0); [by intros []|]. vm_compute. intros [H _]. by apply H.
  - apply (system_call_dispatches refuse (mk_regs 3 2 3 4 5 6 7 8) user0); [by intros []|]. vm_compute. intros [H _]. by apply H.
Defined.

(** The kernel stays in order under system calls with any registers, as long as
    the call they decode to is covered and code outside of the kernel leaves
    the kernel in order. *)
Theorem any_registers_keep_order ext g s c :
  kernel_ok s -> current_task (k_sched s) = Some c -> ~ is_idle s c ->
  (forall f a, wlp (ext f a) (fun _ s' => kernel_ok s') s) ->
  (forall f sc, decode f g (k_mem s) = Some sc -> covered s sc) ->
  wlp (system_call ext g) (fun _ s' => kernel_ok s') s.
Proof.
  intros Hk Hc Hi He Hd. unfold wlp. destruct (system_call_cases g) as [[f Hf]|[H|[Hf Hn]]].
  - rewrite (system_call_entry ext f g s Hf). destruct (decode f g (k_mem s)) as [sc|] eqn:Ed; [|apply He].
    by apply (exec_ok s c), (Hd f).
  - by rewrite system_call_behind.
  - by rewrite system_call_unknown.
Qed.

(** The two calls of the variable-sized pools are not reached: the entries are
    one place before their numbers. *)
Theorem mpl_calls_lost ext g id p s :
  ulib ext g (U_cre_mpl id p) s = Some (Done UNKNOWN_SYSCALL, s) /\
  ulib ext g (U_rel_mpl id p) s = Some (Done UNKNOWN_SYSCALL, s) /\
  table_entry (- TFN_CRE_MPL - 1) = Some (Some F_cre_mpl_sys) /\
  table_entry (- TFN_REL_MPL - 1) = Some (Some F_rel_mpl_sys).
Proof. done. Qed.

(** The last arguments of the sockets are lost. *)
Example select_timeout_lost ext g a b c d t t' s : User.select ext g a b c d t s = User.select ext g a b c d t' s.
Proof. done. Qed.

End Entry.

Module Network.


Definition net0 (s : kstate) : net := mk_net s 0 0.


(** C31. sys_arch_mbox_fetch without a timeout, on a mailbox of the kernel: it
    passes on the oldest message and returns the whole milliseconds that passed; on an
    empty mailbox the thread waits in arrival order, and when it runs again, with
    a message handed to it, it passes on this message. *)
Theorem mbox_fetch_refines n A C Hd c mbox msg p l :
  mbx_impl (n_k n) A C Hd -> current_task (k_sched (n_k n)) = Some c -> ~ is_idle (n_k n) c ->
  bad_mbxid mbox = false -> C (Z.to_nat (mbox - 1)) = Some l ->
  valid_addr p = true -> outside (n_k n) p -> (msg <> NULL -> valid_addr msg = true /\ outside (n_k n) msg) ->
  let i := Z.to_nat (mbox - 1) in
  wp (sys_arch_mbox_fetch p mbox msg 0) (fun r n' =>
    same_lists n n' /\
    match l with
    | d :: l' => r = Ret (elapsed n n') /\ waited n n' (elapsed n n') /\ mbx_impl (n_k n') A (<[i := Some l']> C) Hd /\
        (msg <> NULL -> peek (k_mem (n_k n')) msg = d)
    | [] => mbx_impl (n_k n') (a_block c (WMbx i) A) C Hd /\ scheduled (n_k n') (a_ready (a_block c (WMbx i) A)) /\
        (exists rest, r = Wait (KRcvMbx mbox p) rest) /\
        forall n2 A2 C2 Hd2 c2 t, mbx_impl (n_k n2) A2 C2 Hd2 -> current_task (k_sched (n_k n2)) = Some c2 ->
          task_pool (k_task (n_k n2)) !! c2 = Some t -> wobjid t <> E_DLT -> extdat t ∈ Hd2 ->
          msg_pool (k_mbx (n_k n2)) = msg_pool (k_mbx (n_k n)) ->
          wp (continue r) (fun v n3 => v = Ret (elapsed n n3) /\ waited n n3 (elapsed n n3) /\
            mbx_impl (n_k n3) A2 C2 (without (extdat t) Hd2) /\
            (msg <> NULL -> peek (k_mem (n_k n3)) msg = peek (k_mem (n_k n2)) (extdat t))) n2
    end) n.
Proof.
  intros H1 H2 H3 H4 H5 H6 H7 H8 i. eapply wp_mono; [by apply (wp_mbox_fetch n A C Hd c mbox msg p l)|].
  intros r n' [Hl H]. split; [done|]. destruct l as [|d l].
  - destruct H as (Ha & Hb & Hr & Hk). split_and!; [done..|]. intros n2 A2 C2 Hd2 c2 t G1 G2 G3 G4 G5 G6.
    eapply wp_mono; [by apply (Hk n2 A2 C2 Hd2 c2 t)|]. intros v n3 (-> & G). split; [done|]. by split; [apply elapsed_waited|].
  - destruct H as (-> & H). split; [done|]. by split; [apply elapsed_waited|].
Qed.

Lemma mbx1_outside a : 0x500000 <= a -> outside mbx1 a.
Proof. intros H. unfold outside. assert (msg_pool (k_mbx mbx1) = 2100360) as -> by run. right. unfold Mpool.mp_base. lia. Qed.

Lemma mbox_fetch_refines_witness :
  wp (sys_arch_mbox_fetch 0x600000 1 0x600004 0) (fun r n' => same_lists (net0 mbx1) n' /\ r = Ret (elapsed (net0 mbx1) n') /\
    waited (net0 mbx1) n' (elapsed (net0 mbx1) n') /\
    mbx_impl (n_k n') boot_kernel (<[0%nat := Some []]> (<[0%nat := Some [0x500000]]> (<[0%nat := Some []]> (fun _ => None)))) [] /\
    (0x600004 <> NULL -> peek (k_mem (n_k n')) 0x600004 = 0x500000)) (net0 mbx1).
Proof.
  refine (mbox_fetch_refines (net0 mbx1) boot_kernel _ [] 1 1 0x600004 0x600000 [0x500000] mbx1_impl (proj1 mbx1_main) (proj2 mbx1_main)
    eq_refl eq_refl eq_refl _ _); [apply mbx1_outside; lia|]. intros _. split; [done|apply mbx1_outside; lia].
Defined.

(** sys_arch_mbox_tryfetch does not wait and leaves the dispatcher on. When it
    has passed on a message its value is what the register happens to hold. *)
Theorem mbox_tryfetch_spec n A C Hd c mbox msg pr p left_behind l :
  mbx_impl (n_k n) A C Hd -> current_task (k_sched (n_k n)) = Some c -> ~ is_idle (n_k n) c ->
  bad_mbxid mbox = false -> C (Z.to_nat (mbox - 1)) = Some l -> hd_error l <> Some NULL ->
  Forall (fun a => valid_addr a = true /\ outside (n_k n) a) [pr; pr + 4; p] ->
  (msg <> NULL -> valid_addr msg = true /\ outside (n_k n) msg) ->
  let i := Z.to_nat (mbox - 1) in
  wp (sys_arch_mbox_tryfetch pr p left_behind mbox msg) (fun r n' =>
    dispatching (k_sched (n_k n')) = TRUE /\ same_lists n n' /\
    match l with
    | [] => r = Ret SYS_MBOX_EMPTY /\ mbx_impl (n_k n') A C Hd
    | d :: l' => r = Ret left_behind /\ mbx_impl (n_k n') A (<[i := Some l']> C) Hd /\
        (msg <> NULL -> peek (k_mem (n_k n')) msg = d)
    end) n.
Proof. apply wp_mbox_tryfetch. Qed.

(** A thread finds its own list of timeouts, apart from those of the others. *)
Theorem timeouts_of_running n l c t :
  threads_at (k_mem (n_k n)) (lwip_system_threads n) l -> current_task (k_sched (n_k n)) = Some c ->
  task_pool (k_task (n_k n)) !! c = Some t ->
  wp sys_arch_timeouts (fun r n' =>
    r = default (lwip_system_timeouts n) (timeouts_of <$> wrapper_of (tskid t) l) /\ n' = n) n /\
  forall i j a, wrapper_of i l = Some a -> wrapper_of j l = Some a -> i = j.
Proof.
  intros H Hc Ht. split; [by apply (wp_timeouts n l c t)|]. intros i j a. apply wrapper_of_inj. by eapply threads_NoDup.
Qed.

(** For a task that is no thread of the stack the default list is NULL, which
    the stack follows. *)
Example no_default_timeouts : (fst <$> (sys_init ;;; sys_arch_timeouts) (net0 boot0)) = Some NULL.
Proof. by vm_compute. Qed.

(** A thread made on the running system is in the list, with a task of its own,
    and is ready. *)
Example thread_new_runs :
  match sys_thread_new NULL 0x3000 7 0x400 3 (net0 boot0) with
  | Some (r, n) =>
      match continue r n with
      | Some (Ret p, n') => bool_decide (p = lwip_system_threads n') && bool_decide (peek (k_mem (n_k n')) (thread_of p) = 3) &&
          bool_decide (tskstat <$> task_pool (k_task (n_k n')) !! 2%nat = Some TTS_RDY)
      | _ => false
      end
  | None => false
  end = true.
Proof. by vm_compute. Qed.

End Network.

Module Addresses.

(** C32. parse_ip_address on a text with four numbers, or with a wrong one before
    it ends, returns and follows the reference: the numbers are the bytes of the
    address, the first the lowest, and a number with another character than
    digits or above 255 gives E_PARSEIP. *)
Theorem parse_ip_address_reads m s l :
  cstr m s l -> quad 4 l <> TooShort ->
  wp (parse_ip_address s) (fun r m' => m' = m /\ match quad 4 l with Address v => r = v | _ => r = E_PARSEIP end) m.
Proof. apply wp_parse_ip_address. Qed.

(** "192.168.1.1" *)
Definition ip_text : list Z := [49; 57; 50; 46; 49; 54; 56; 46; 49; 46; 49].

Lemma parse_ip_address_reads_witness :
  wp (parse_ip_address 0x1000) (fun r m' => m' = bytes_at 0x1000 (ip_text ++ [0]) /\ r = 0x0101A8C0)
    (bytes_at 0x1000 (ip_text ++ [0])).
Proof.
  refine (parse_ip_address_reads _ 0x1000 ip_text _ _); [|done]. apply bytes_at_cstr. repeat constructor; lia.
Defined.

(** "192.168.2.2" is not the default address 192.168.2.2, whose bytes are in the
    other order. *)
Example default_is_reversed :
  quad 4 [49; 57; 50; 46; 49; 54; 56; 46; 50; 46; 50] = Address 0x0202A8C0 /\ DEFAULT_IP = 0xC0A80202.
Proof. done. Qed.

(** "255.255.255.255" is taken for an error. *)
Example broadcast_is_error :
  result_of (A := Z) (fun s => match parse_ip_address 0 (bytes_at 0 [50; 53; 53; 46; 50; 53; 53; 46; 50; 53; 53; 46; 50; 53; 53; 0]) with
    Some (v, _) => Some (v, s) | None => None end) boot0 = Some E_PARSEIP.
Proof. by vm_compute. Qed.

(** "10.1" is read past its end. *)
Example short_text_faults : parse_ip_address 0 (bytes_at 0 [49; 48; 46; 49; 0]) = None.
Proof. by vm_compute. Qed.

(** The hardware address: six bytes, or the default at any wrong digit. *)
Theorem parse_mac_address_reads m s hw l :
  arr m s l -> Forall byte l -> length l = 17%nat -> mapped m hw 6 -> apart hw 6 s 17 ->
  wp (parse_mac_address s hw) (fun _ m' => arr m' hw (default default_mac (mac_bytes 6 l)) /\ only m m' hw 6) m.
Proof. apply wp_parse_mac_address. Qed.

(** "EE:FF:C0:A8:01:01" *)
Example default_mac_text :
  mac_bytes 6 [69; 69; 58; 70; 70; 58; 67; 48; 58; 65; 56; 58; 48; 49; 58; 48; 49] = Some default_mac.
Proof. done. Qed.

End Addresses.
