(* ===== verification/GuaranteesEth.v ===== *)
(** * The network interface

    The Ethernet chip and its driver: the address, the frames sent, and the way
    of a received frame from the chip to lwIP. *)

From Stdlib Require Import ZArith Lia.
From stdpp Require Import base tactics gmap option functions list list_numbers.
From S2P Require Import Prelude Bits Mem Queue Mpool Bytes Smc911x Tring TringChain TringRx TringDone.

Open Scope Z_scope.
Open Scope kernel_scope.

(** A chip that takes two reads for a command, has space in its FIFO and keeps
    what is sent; [c_rx] are the status words of the frames that have arrived. *)
Module Chip.

Record chip0 := mk_chip0 { c_regs : Z -> Z; c_data : Z; c_busy : nat; c_tx : list Z; c_rx : list Z }.

Definition chip0_read (a : Z) (d : chip0) : Z * chip0 :=
  if a =? MAC_CSR_CMD then
    match c_busy d with
    | O => (0, d)
    | S n => (MAC_CSR_CMD_CSR_BUSY, mk_chip0 (c_regs d) (c_data d) n (c_tx d) (c_rx d))
    end
  else if a =? MAC_CSR_DATA then (c_data d, d)
  else if a =? TX_FIFO_INF then (0x1200, d)
  else if a =? INT_EN then (INT_EN_RSFL_EN, d)
  else if a =? INT_STS then (INT_STS_RSFL, d)
  else if a =? RX_STATUS_FIFO then (hd 0 (c_rx d), mk_chip0 (c_regs d) (c_data d) (c_busy d) (c_tx d) (tl (c_rx d)))
  else (0, d).

Definition chip0_write (a v : Z) (d : chip0) : chip0 :=
  if a =? MAC_CSR_DATA then mk_chip0 (c_regs d) v (c_busy d) (c_tx d) (c_rx d)
  else if a =? MAC_CSR_CMD then
    let r := v mod 256 in
    if Z.testbit v 30 then mk_chip0 (c_regs d) (c_regs d r) 2 (c_tx d) (c_rx d)
    else mk_chip0 (<[r := c_data d]> (c_regs d)) (c_data d) 2 (c_tx d) (c_rx d)
  else if a =? TX_DATA_FIFO then mk_chip0 (c_regs d) (c_data d) (c_busy d) (c_tx d ++ [v]) (c_rx d)
  else d.

#[export] Instance chip0_nic : Nic chip0 := {| nic_read := chip0_read; nic_write := chip0_write |}.

Lemma chip0_poll n d : (n <= c_busy d)%nat ->
  polls MAC_CSR_CMD n d = mk_chip0 (c_regs d) (c_data d) (c_busy d - n) (c_tx d) (c_rx d).
Proof.
  revert d. induction n as [|n IH]; intros d Hn; cbn [polls].
  { destruct d. cbn. by rewrite Nat.sub_0_r. }
  destruct d as [g v [|b] t x]; cbn [c_busy] in Hn; [lia|]. change (nic_read MAC_CSR_CMD _).2 with (mk_chip0 g v b t x). rewrite IH by (cbn [c_busy]; lia). done.
Qed.

Lemma chip0_busy d : csr_busy d <-> c_busy d <> 0%nat.
Proof. destruct d as [g v [|b] t x]; split; intros H; vm_compute in H |- *; congruence. Qed.

Lemma chip0_ready n d : c_busy d = n -> ready_after n d.
Proof.
  intros <-. split; [intros j Hj|]; rewrite chip0_busy, chip0_poll by lia; cbn; lia.
Qed.

Lemma chip0_cmd v d : nic_write MAC_CSR_CMD v d =
  if Z.testbit v 30 then mk_chip0 (c_regs d) (c_regs d (v mod 256)) 2 (c_tx d) (c_rx d)
  else mk_chip0 (<[v mod 256 := c_data d]> (c_regs d)) (c_data d) 2 (c_tx d) (c_rx d).
Proof. reflexivity. Qed.

Lemma chip0_read_cmd r d : 0 <= r < 256 ->
  nic_write MAC_CSR_CMD (MAC_CSR_CMD_CSR_BUSY + MAC_CSR_CMD_R_NOT_W + r) d = mk_chip0 (c_regs d) (c_regs d r) 2 (c_tx d) (c_rx d).
Proof.
  intros Hr. rewrite chip0_cmd. set (v := _ + _ + r). assert (v mod 256 = r) as -> by (unfold v, MAC_CSR_CMD_CSR_BUSY, MAC_CSR_CMD_R_NOT_W; symmetry; apply (Z.mod_unique _ _ 0xC00000); lia).
  assert (Z.testbit v 30 = true) as ->; [|done]. apply Z.testbit_true; [lia|].
  assert (v / 2 ^ 30 = 3) as ->; [|done]. unfold v, MAC_CSR_CMD_CSR_BUSY, MAC_CSR_CMD_R_NOT_W. symmetry. apply (Z.div_unique _ _ _ r); lia.
Qed.

Lemma chip0_write_cmd r v d : 0 <= r < 256 ->
  nic_write MAC_CSR_CMD (MAC_CSR_CMD_CSR_BUSY + r) (nic_write MAC_CSR_DATA v d) = mk_chip0 (<[r := v]> (c_regs d)) v 2 (c_tx d) (c_rx d).
Proof.
  intros Hr. rewrite chip0_cmd. set (x := _ + r). assert (x mod 256 = r) as -> by (unfold x, MAC_CSR_CMD_CSR_BUSY; symmetry; apply (Z.mod_unique _ _ 0x800000); lia).
  assert (Z.testbit x 30 = false) as ->; [|done]. apply Z.testbit_false; [lia|].
  assert (x / 2 ^ 30 = 2) as ->; [|done]. unfold x, MAC_CSR_CMD_CSR_BUSY. symmetry. apply (Z.div_unique _ _ _ r); lia.
Qed.

#[export] Program Instance chip0_ok : NicOk (D := chip0) := {|
  idle := fun d => c_busy d = 0%nat /\ forall r, word32 (c_regs d r);
  csr := c_regs;
  busy_bound := 3%nat
|}.
Next Obligation. intros d r [_ H]. apply H. Qed.
Next Obligation. intros [g v b t x] [H0 Hw]. cbn in H0. subst b. rewrite chip0_busy. split_and!; [by intros H|done..]. Qed.
Next Obligation.
  intros d r [H0 Hw] Hr. cbn zeta. rewrite chip0_read_cmd by done. exists 2%nat. split; [lia|]. split; [by apply chip0_ready|]. cbn. done.
Qed.
Next Obligation.
  intros d r v [H0 Hw] Hrv. cbn zeta. assert (0 <= r < 256 /\ word32 v) as [Hr Hv] by (unfold ADDRL, ADDRH, word32 in *; lia).
  rewrite chip0_write_cmd by done. exists 2%nat. split; [lia|]. split; [by apply chip0_ready|].
  split; [split; [done|]|done]. intros x. change (word32 ((<[r := v]> (c_regs d)) x)).
  destruct (decide (r = x)) as [<-|Hne]; [by rewrite fn_lookup_insert|by rewrite fn_lookup_insert_ne].
Qed.

(** ** The address *)

(** C33. After smx911x_handle_mac_address the six bytes at its argument are the
    address that the chip filters with: the address that was in memory, which is
    written to the chip, or, when that was zero, the address of the chip, which
    is stored in memory, and no other byte of memory changes. It reports an
    error exactly when the chip had to give the address and has none (all ones,
    there is no EEPROM). *)
Theorem mac_address_agrees {D} {N : Nic D} {NO : NicOk (D := D)} fuel m l (s : smc_state D) :
  (busy_bound <= fuel)%nat -> idle (s_dev s) -> 0 <= csr (s_dev s) ADDRH < 2 ^ 16 ->
  length l = 6%nat -> Forall byte l -> arr (s_bytes s) m l ->
  let l' := if decide (l = replicate 6 0) then mac_of (s_dev s) else l in
  exists r d b, smx911x_handle_mac_address fuel m s = Some (r, set_bytes b (set_dev d s)) /\
    idle d /\ mac_of d = l' /\ arr b m l' /\ only (s_bytes s) b m 6 /\
    (r = ESMC_INIT /\ l' = replicate 6 0xff /\ l <> l' \/ r = ESMC_OK /\ ~ (l' = replicate 6 0xff /\ l <> l')).
Proof.
  intros Hf Hi Hh Hl Hb Ha l'. apply (wp_handle_mac_address fuel Hf m l s
    (fun r s' => exists d b, s' = set_bytes b (set_dev d s) /\ idle d /\ mac_of d = l' /\ arr b m l' /\ only (s_bytes s) b m 6 /\
      (r = ESMC_INIT /\ l' = replicate 6 0xff /\ l <> l' \/ r = ESMC_OK /\ ~ (l' = replicate 6 0xff /\ l <> l')))) in Hi; try done.
  - apply wp_returns in Hi as (r & s' & E & d & b & -> & H). by exists r, d, b.
  - fold l'. intros d b Hi' Hm Hb' Ho. exists d, b. split_and!; try done. destruct (decide (l' = replicate 6 0xff /\ l <> l')); [left|right]; done.
Qed.

Definition log0 : lwip_log := mk_lwip_log (replicate 32 (mk_lwiplog (replicate 256 0) 0)) 0.
Definition regs0 : Z -> Z := <[ADDRL := 0x33221100]> (<[ADDRH := 0x5544]> (fun _ => 0)).

Lemma regs0_word r : word32 (regs0 r).
Proof.
  unfold regs0. destruct (decide (r = ADDRL)) as [->|H1]; [by rewrite fn_lookup_insert|].
  rewrite fn_lookup_insert_ne by done. destruct (decide (r = ADDRH)) as [->|H2]; [by rewrite fn_lookup_insert|].
  by rewrite fn_lookup_insert_ne.
Qed.

Definition smc0 (mac : list Z) (rx : list Z) : smc_state chip0 := mk_smc (mk_chip0 regs0 0 0 [] rx) (bytes_at 0x1000 mac) 0 log0 0.

(** The address of a chip with one is stored over an address that is zero. *)
Lemma mac_address_agrees_witness :
  exists r d b, smx911x_handle_mac_address 3 0x1000 (smc0 (replicate 6 0) []) =
      Some (r, set_bytes b (set_dev d (smc0 (replicate 6 0) []))) /\
    idle d /\ mac_of d = [0x00; 0x11; 0x22; 0x33; 0x44; 0x55] /\ arr b 0x1000 [0x00; 0x11; 0x22; 0x33; 0x44; 0x55] /\ r = ESMC_OK.
Proof.
  destruct (mac_address_agrees 3 0x1000 (replicate 6 0) (smc0 (replicate 6 0) [])) as (r & d & b & E & Hi & Hm & Hb & _ & Hr).
  - done.
  - split; [done|]. intros r. apply regs0_word.
  - by vm_compute.
  - done.
  - by repeat constructor.
  - apply bytes_at_arr.
  - exists r, d, b. assert ((if decide (replicate 6 0 = replicate 6 0) then mac_of (s_dev (smc0 (replicate 6 0) [])) else replicate 6 0) =
      [0x00; 0x11; 0x22; 0x33; 0x44; 0x55]) as El by (by vm_compute). rewrite El in Hm, Hb, Hr.
    split; [exact E|]. split; [exact Hi|]. split; [exact Hm|]. split; [exact Hb|]. destruct Hr as [(_ & H & _)|[H _]]; [discriminate H|exact H].
Defined.

(** ** Sending *)

(** C34. eth_send of the bytes l at p, wherever p is in its word: either the chip
    had too little space at each of 102 reads, and nothing was written to it, or
    the words that are written to its FIFO are, by the format of the data sheet,
    one frame with exactly these bytes and the next tag; the result then tells
    whether the status of the chip has a transmission error. *)
Theorem eth_send_frame {D} {N : Nic D} p pre l post (s : smc_state D) :
  0 <= p < 2 ^ 32 -> Z.of_nat (length pre) = p mod 4 -> Z.of_nat (length l) < 2 ^ 11 ->
  Z.of_nat (length (pre ++ l ++ post)) = 4 * ((p mod 4 + Z.of_nat (length l) + 3) / 4) ->
  Forall byte (pre ++ l ++ post) -> arr (s_bytes s) (p - p mod 4) (pre ++ l ++ post) ->
  length (lwiplog (s_log s)) = Z.to_nat LWIPLOG_ENTRIES -> 0 <= lwipidx (s_log s) < LWIPLOG_ENTRIES ->
  let need := 4 * ((Z.of_nat (length l) + 3) / 4) in
  (exists log, (forall j, (j < 102)%nat -> tx_space (polls TX_FIFO_INF j (s_dev s)) < need) /\
     eth_send p (Z.of_nat (length l)) s = Some (ESMC_SEND, set_log log (set_dev (polls TX_FIFO_INF 102 (s_dev s)) s))) \/
  (exists k ws log, (k < 102)%nat /\ need <= tx_space (polls TX_FIFO_INF k (s_dev s)) /\ tx_frame ws = Some (s_seqcnt s mod 2 ^ 16, l) /\
     let d := push_all ws (polls TX_FIFO_INF (S k) (s_dev s)) in
     eth_send p (Z.of_nat (length l)) s =
       Some (if tx_failed d then ESMC_SEND else ESMC_OK,
             mk_smc (nic_read TX_STATUS_FIFO d).2 (s_bytes s) (u32 (s_seqcnt s + 1)) log (s_time s))).
Proof.
  intros Hp Hpre Hl Hlen Hb Ha Hlog Hi need.
  assert (wp (eth_send p (Z.of_nat (length l))) (fun r s' =>
    (exists log, (forall j, (j < 102)%nat -> tx_space (polls TX_FIFO_INF j (s_dev s)) < need) /\ r = ESMC_SEND /\
       s' = set_log log (set_dev (polls TX_FIFO_INF 102 (s_dev s)) s)) \/
    (exists k ws log, (k < 102)%nat /\ need <= tx_space (polls TX_FIFO_INF k (s_dev s)) /\ tx_frame ws = Some (s_seqcnt s mod 2 ^ 16, l) /\
       let d := push_all ws (polls TX_FIFO_INF (S k) (s_dev s)) in r = (if tx_failed d then ESMC_SEND else ESMC_OK) /\
       s' = mk_smc (nic_read TX_STATUS_FIFO d).2 (s_bytes s) (u32 (s_seqcnt s + 1)) log (s_time s))) s) as Hw.
  { apply (wp_eth_send p pre l post); try done.
    - intros Hno log. left. by exists log.
    - intros k ws d log Hk Hsp Hf ->. right. by exists k, ws, log. }
  apply wp_returns in Hw as (r & s' & E & [(log & Hno & -> & ->)|(k & ws & log & Hk & Hsp & Hf & -> & ->)]); [left|right].
  - by exists log.
  - by exists k, ws, log.
Qed.

Lemma chip0_space n (d : chip0) : polls TX_FIFO_INF n d = d.
Proof. by induction n. Qed.

(** Five bytes behind an odd address: the chip has the frame of one buffer. *)
Lemma eth_send_frame_witness : exists ws log,
  tx_frame ws = Some (0, [1; 2; 3; 4; 5]) /\
  eth_send 0x1001 5 (smc0 [9; 1; 2; 3; 4; 5; 7; 8] []) =
    Some (ESMC_OK, mk_smc (push_all ws (s_dev (smc0 [] []))) (bytes_at 0x1000 [9; 1; 2; 3; 4; 5; 7; 8]) 1 log 0).
Proof.
  destruct (eth_send_frame 0x1001 [9] [1; 2; 3; 4; 5] [7; 8] (smc0 [9; 1; 2; 3; 4; 5; 7; 8] [])) as [(log & Hno & _)|(k & ws & log & Hk & _ & Hf & E)].
  - done.
  - by vm_compute.
  - done.
  - by vm_compute.
  - by repeat constructor.
  - apply bytes_at_arr.
  - done.
  - done.
  - specialize (Hno 0%nat ltac:(lia)). vm_compute in Hno. discriminate Hno.
  - exists ws, log. split; [exact Hf|]. cbn zeta in E. rewrite chip0_space in E. exact E.
Defined.

(** A chip that stays in reset is never given up: the counter of eth_init is
    decremented twice in each round and is odd whenever it is compared. *)
Theorem eth_init_stuck {D} {N : Nic D} fuel mac (s : smc_state D) :
  (forall d, nz (Z.land (u32 (nic_read HW_CFG d).1) HW_CFG_SRST) = true) -> eth_init fuel mac s = None.
Proof.
  intros Hd. unfold eth_init, bind at 1, reg_write, modify. cbn beta iota. unfold bind at 1. by rewrite reset_wait_stuck.
Qed.

End Chip.

Module Ring.
Import Chip.

Local Abbreviation dsz := sizeof_dma_descriptor.
Local Abbreviation rsz := sizeof_tring_request.

(** C35. A frame that arrives without errors, when lwIP has buffers and the pools
    have a request and two descriptors for each buffer: eth_rx succeeds, and the
    DMA controller, started with the descriptors of the request, moves from the
    FIFO of the chip to each buffer, in order, the whole words that it holds, stops
    after the last buffer and interrupts only there. The request is started when
    none is active and otherwise waits behind the others; nothing outside of the
    two pools changes. *)
Theorem eth_rx_transfer {D} {N : Nic D} pbuf_alloc (s : tring_state D) m p bs nd av nr r rav rs :
  Z.land (rx_status s) RX_STS_ES = 0 -> pbuf_alloc (rx_length s + 5) (t_words s) = Some (p, m) ->
  rx_room s m p bs nd av nr r rav -> requests (t_lists s) (eth_request_queue s) rs -> r ∉ rs ->
  exists s' ss ds av', eth_rx pbuf_alloc s = Some (ESMC_OK, s') /\
    rx_request (t_words s') r p bs /\
    length ss = length bs /\ length ds = length bs /\ ss ++ ds ++ av' ≡ₚ av /\
    pool_has (t_words s') (eth_dma_desc_pool s) dsz nd av' /\ pool_has (t_words s') (eth_request_pool s) rsz nr rav /\
    (forall a, ~ in_pool (eth_dma_desc_pool s) dsz nd a -> ~ in_pool (eth_request_pool s) rsz nr a ->
       peek (t_words s') a = peek m a) /\
    if decide (eth_active_request s = NULL) then
      eth_active_request s' = r /\ requests (t_lists s') (eth_request_queue s') rs /\
      t_calls s' = t_calls s ++ [Launch (eth_dma_channel s) (peek (t_words s') (r_src r)) (peek (t_words s') (r_dst r))]
    else
      eth_active_request s' = eth_active_request s /\ requests (t_lists s') (eth_request_queue s') (rs ++ [r]) /\
      t_calls s' = t_calls s.
Proof.
  intros Hes Hal Hrm Hrs Hr. set (d' := nic_write RX_CFG 0 (nic_read RX_STATUS_FIFO (s_dev (t_smc s))).2).
  set (s1 := set_words m (set_smc (set_dev d' (t_smc s)) s)). assert (rx_room s1 m p bs nd av nr r rav) as Hrm1 by (destruct Hrm; by split).
  match goal with |- exists s' ss ds av', _ = Some (_, s') /\ @?P s' ss ds av' =>
    assert (wp (eth_rx pbuf_alloc) (fun v s' => v = ESMC_OK /\ exists ss ds av', P s' ss ds av') s) as Hw end.
  { apply (wp_eth_rx pbuf_alloc s m p bs nd av nr r rav rs); try done. fold d' s1.
    intros m' ss ds av' Ls Ld HP Hreq Hd' Hr' Hfr. split; [intros Ha|intros Ha l q Hlq]; (split; [done|]); exists ss, ds, av'; split_and!; try done.
    - change (eth_active_request s = NULL) in Ha. by rewrite decide_True.
    - change (eth_active_request s <> NULL) in Ha. by rewrite decide_False. }
  apply wp_returns in Hw as (v & s' & E & -> & ss & ds & av' & H). by exists s', ss, ds, av'.
Qed.

(** Three pbufs of lwIP: one short one, and a long one with a second buffer. *)
Definition bufs0 : gmap Z Z := list_to_map
  [(0x100004, 0x110000); (0x100008, 100 * 2 ^ 16);
   (0x100100, 0x100200); (0x100104, 0x120000); (0x100108, 1500 * 2 ^ 16); (0x100204, 0x130000); (0x100208, 44 * 2 ^ 16)].
Definition pbuf_alloc0 (n : Z) : M (gmap Z Z) Z := ret (if n <=? 100 then 0x100000 else 0x100100).
Definition long0 : list rxbuf := [mk_rxbuf 0x100100 0x120000 1500; mk_rxbuf 0x100200 0x130000 44].

Definition run_tring {A} (m : M (tring_state chip0) A) (s : tring_state chip0) : tring_state chip0 :=
  match m s with Some (_, s') => s' | None => s end.

(** The driver after its initialization, with frames of these lengths in the chip;
    and after the reception of the first one. *)
Definition ring0 (frames : list Z) : tring_state chip0 :=
  run_tring (init_rings 0x200000 0x300000 3)
    (mk_tring (smc0 [] (map (fun n => n * 2 ^ 16) frames)) bufs0 ∅ null_queue NULL 0 0 0 []).
Definition ring1 : tring_state chip0 := run_tring (eth_rx pbuf_alloc0) (ring0 [1540]).

Definition desc_block : Z -> Z := data 0x200000 sizeof_dma_descriptor.
Definition req_block : Z -> Z := data 0x300000 sizeof_tring_request.

(** A pool with nothing in its free list. *)
Lemma fresh_pool m p sz n k : 0 < p -> p mod 4 = 0 -> 0 <= sz -> sz mod 4 = 0 -> 0 <= k <= n -> mp_base p + n * stride sz < 2 ^ 32 ->
  peek m (mp_blksz p) = sz -> peek m (mp_poolend p) = mp_base p + n * stride sz -> peek m (mp_freeidx p) = mp_base p + k * stride sz ->
  peek m (mp_free p) = NULL -> pool_has m p sz n (map (data p sz) (seqZ k (n - k))).
Proof.
  intros. exists k, []. split; [|done]. split; try done; [constructor|]. intros b Hb. by apply not_elem_of_nil in Hb.
Qed.

Ltac pools_apart := unfold in_pool, pool_end, mp_base, stride, sizeof_mpool_block, sizeof_ptr, sizeof_dma_descriptor, sizeof_tring_request in *.

Lemma ring0_room : rx_room (ring0 [1540]) (t_words (ring0 [1540])) 0x100100 long0 128 (map desc_block (seqZ 0 128)) 64 (req_block 0)
  (map req_block (seqZ 1 63)).
Proof.
  split.
  - vm_compute. split_and!; done.
  - done.
  - by vm_compute.
  - apply (fresh_pool _ 0x200000 dsz 128 0); by vm_compute.
  - vm_compute. lia.
  - change (req_block 0 :: map req_block (seqZ 1 63)) with (map req_block (seqZ 0 64)). apply (fresh_pool _ 0x300000 rsz 64 0); by vm_compute.
  - intros a. change (eth_request_pool (ring0 [1540])) with 0x300000. change (eth_dma_desc_pool (ring0 [1540])) with 0x200000. pools_apart. lia.
  - intros b a Hb. change (eth_request_pool (ring0 [1540])) with 0x300000. change (eth_dma_desc_pool (ring0 [1540])) with 0x200000.
    unfold long0 in Hb. rewrite !elem_of_cons, elem_of_nil in Hb. destruct Hb as [->|[->|[]]]; cbn [b_addr]; pools_apart; lia.
Qed.

(** A frame of 1540 bytes goes to two buffers; nothing is moved of the last part
    of a word. *)
Lemma eth_rx_transfer_witness : exists s', eth_rx pbuf_alloc0 (ring0 [1540]) = Some (ESMC_OK, s') /\
  eth_active_request s' = req_block 0 /\
  dma_walk 2 (t_words s') (peek (t_words s') (r_dst (req_block 0))) =
    Some [mk_desc 0x120000 DST_CHAIN 375 4; mk_desc 0x130000 DST_STOP 11 4].
Proof.
  destruct (eth_rx_transfer pbuf_alloc0 (ring0 [1540]) (t_words (ring0 [1540])) 0x100100 long0 128 (map desc_block (seqZ 0 128)) 64 (req_block 0)
    (map req_block (seqZ 1 63)) []) as (s' & ss & ds & av' & E & Hreq & _ & _ & _ & _ & _ & _ & Hs).
  - by vm_compute.
  - by vm_compute.
  - apply ring0_room.
  - split; [apply qrep_nil|]. intros x Hx. by apply not_elem_of_nil in Hx.
  - apply not_elem_of_nil.
  - exists s'. split; [exact E|]. split; [rewrite decide_True in Hs by (by vm_compute); apply Hs|]. exact (rq_dst _ _ _ _ Hreq).
Defined.

(** C36. At the end of the transfer of a received frame whose descriptors are in
    lists that end: tring_int_handler acknowledges the interrupt, gives every
    buffer to lwIP in order, puts all descriptors and the request back into their
    pools, and starts the request that waits longest, or none. *)
Theorem tring_interrupt_recycles {D} {N : Nic D} (s : tring_state D) nd av nr rav r p bs ss ds rs :
  length (lwiplog (s_log (t_smc s))) = Z.to_nat LWIPLOG_ENTRIES -> 0 <= lwipidx (s_log (t_smc s)) < LWIPLOG_ENTRIES ->
  eth_active_request s = r -> peek (t_words s) (r_pbuf r) = p -> peek (t_words s) (r_flags r) = TRING_CHAIN_RX -> pbufs (t_words s) p bs ->
  owned (t_words s) (eth_dma_desc_pool s) nd av (eth_request_pool s) nr rav r ss ds ->
  requests (t_lists s) (eth_request_queue s) rs -> (forall x, x ∈ rs -> is_block (eth_request_pool s) rsz nr x) ->
  exists s', tring_int_handler s = Some (tt, s') /\
    pool_has (t_words s') (eth_dma_desc_pool s) dsz nd (rev ds ++ rev ss ++ av) /\ pool_has (t_words s') (eth_request_pool s) rsz nr (r :: rav) /\
    eth_active_request s' = hd NULL rs /\ requests (t_lists s') (eth_request_queue s') (tl rs) /\
    t_calls s' = t_calls s ++ AckInt (eth_dma_channel s) :: map (fun b => Input (b_addr b)) bs ++
      match rs with [] => [] | x :: _ => [Launch (eth_dma_channel s) (peek (t_words s) (r_src x)) (peek (t_words s) (r_dst x))] end.
Proof.
  intros Hl Hi Ha Hp Hf Hb Ho Hrs Hblk.
  match goal with |- exists s', _ = Some (_, s') /\ @?P s' => assert (wp tring_int_handler (fun v s' => P s') s) as Hw end.
  { apply (wp_tring_int_handler s nd av nr rav r p bs ss ds rs); try done. intros m' log Hd' Hr' _. destruct rs as [|x rs].
    - cbn zeta beta iota. split_and!; try done. by rewrite app_nil_r.
    - cbn zeta iota. intros l q Hlq. cbn beta. split_and!; try done. cbn. by rewrite <- app_assoc. }
  apply wp_returns in Hw as ([] & s' & E & H). by exists s'.
Qed.

Lemma ring1_owned : owned (t_words ring1) 0x200000 128 (map desc_block (seqZ 4 124)) 0x300000 64 (map req_block (seqZ 1 63)) (req_block 0)
  [desc_block 0; desc_block 3] [desc_block 1; desc_block 2].
Proof.
  split.
  - apply (fresh_pool _ 0x200000 dsz 128 4); by vm_compute.
  - apply (fresh_pool _ 0x300000 rsz 64 1); by vm_compute.
  - intros a. pools_apart. lia.
  - split; [by exists 0|]. refine (bool_decide_eq_true_1 _ _). by vm_compute.
  - vm_compute. split_and!; done.
  - vm_compute. split_and!; done.
  - intros x Hx. cbn [app] in Hx. rewrite !elem_of_cons, elem_of_nil in Hx.
    destruct Hx as [->|[->|[->|[->|[]]]]]; [by exists 0|by exists 3|by exists 1|by exists 2].
  - refine (bool_decide_eq_true_1 _ _). by vm_compute.
Qed.

(** Both buffers of the frame go to lwIP and the controller is idle. *)
Lemma tring_interrupt_recycles_witness : exists s', tring_int_handler ring1 = Some (tt, s') /\
  pool_has (t_words s') 0x200000 dsz 128
    ([desc_block 2; desc_block 1; desc_block 3; desc_block 0] ++ map desc_block (seqZ 4 124)) /\
  eth_active_request s' = NULL /\
  t_calls s' = [Launch 3 (desc_block 0) (desc_block 1); AckInt 3; Input 0x100100; Input 0x100200].
Proof.
  destruct (tring_interrupt_recycles ring1 128 (map desc_block (seqZ 4 124)) 64 (map req_block (seqZ 1 63)) (req_block 0) 0x100100 long0
    [desc_block 0; desc_block 3] [desc_block 1; desc_block 2] []) as (s' & E & Hd & _ & Ha & _ & Hc).
  - by vm_compute.
  - by vm_compute.
  - by vm_compute.
  - by vm_compute.
  - by vm_compute.
  - vm_compute. split_and!; done.
  - apply ring1_owned.
  - split; [apply qrep_nil|]. intros x Hx. by apply not_elem_of_nil in Hx.
  - intros x Hx. by apply not_elem_of_nil in Hx.
  - exists s'. split; [exact E|]. split; [exact Hd|]. split; [exact Ha|]. exact Hc.
Defined.

(** The next two blocks of the pool of the descriptors, with a third one. *)
Definition next_three : M (tring_state chip0) (Z * Z * Z) :=
  let* dp := gets eth_dma_desc_pool in
  let* a := words (mpalloc dp) in
  let* b := words (mpalloc dp) in
  let* c := words (mpalloc dp) in
  ret (a, b, c).

(** eth_rx does not end the lists that clear_request follows: the next field of
    the last descriptors keeps what an earlier transfer left there. A frame in
    two buffers and then one in a single buffer, each received to the end, are
    enough: on this chip a descriptor is freed twice, and the pool then gives the
    same descriptor for two purposes. *)
Example descriptor_freed_twice :
  exists s a b, (let* _ := eth_rx pbuf_alloc0 in
                 tring_int_handler ;;;
                 let* _ := eth_rx pbuf_alloc0 in
                 tring_int_handler ;;;
                 next_three) (ring0 [1540; 60]) = Some ((a, b, a), s) /\ a <> NULL.
Proof.
  eexists _, (desc_block 2), (desc_block 1). split; [by vm_compute|]. intros H. by vm_compute in H.
Qed.

(** The memory that ethernetif_init asks for, with the arguments of POOL_SIZE
    exchanged, is less than the pools use. *)
Theorem ring_pools_overflow p :
  p + desc_pool_bytes < pool_end p sizeof_dma_descriptor DMA_POOL_SIZE /\
  p + request_pool_bytes < pool_end p sizeof_tring_request LWIP_DPOOL_SIZE.
Proof.
  change desc_pool_bytes with 2660. change request_pool_bytes with 1924.
  unfold pool_end, mp_base, stride, sizeof_mpool_block, sizeof_ptr, sizeof_dma_descriptor, sizeof_tring_request, DMA_POOL_SIZE, LWIP_DPOOL_SIZE, PBUF_POOL_SIZE. lia.
Qed.

End Ring.
