(* ===== verification/GuaranteesDev.v ===== *)
(** * What interrupts, the CAN service and the ELF programs guarantee

    Each theorem is followed by its instance at a concrete state. *)

From Stdlib Require Import ZArith Lia.
From stdpp Require Import base tactics gmap option functions countable list.
From S2P Require Import Prelude Bits Queue Qfam Mem Mpool Kstate Tlsf Syslog Sched Timeout Dispatch.
From S2P Require Import Kinv Ktime Waitobj Task Kernel Setup Boot Ints Bytes Cstring CanService Elf Flash.

Open Scope Z_scope.
Open Scope kernel_scope.

Module Interrupts.

(** [def_inh] reports a vector outside of 7 to 13 and a packet that is not
    aligned, without effect. Otherwise the handler of the packet, or
    [unhandled_interrupt] for NULL, is the handler of that vector and the other
    vectors keep theirs; the next interrupt of the vector calls the handler, for
    handlers that keep the invariant of the kernel, which holds after it with the
    nesting count as before. *)
Theorem def_inh_installs call `{!IsrOk call} uh inhno pk s R W T :
  kinv (i_k s) R W T -> int_nest_count (k_int (i_k s)) = 0 -> vectors_ok s -> (nz pk = true -> valid_addr (pk + 4) = true) ->
  let bad := bad_inhno inhno || nz (Z.land pk 3) in
  let h := if nz pk then peek (k_mem (i_k s)) (pk + 4) else uh in
  wp (let* r := def_inh_sys uh inhno pk in
      if bad then ret (r, None) else
      let* t := gets interrupt_table in common_interrupt_body call (inhno - 7) ;;; ret (r, Some t))
    (fun '(r, t) s' =>
      if bad then r = Done E_PAR /\ s' = s
      else r = Done E_OK /\ t = Some (<[Z.to_nat (inhno - 7) := h]> (interrupt_table s)) /\
        kernel_ok (set_nest 0 (i_k s')) /\ int_nest_count (k_int (i_k s')) = 0 /\
        exists k1 k2, call h k1 = Some (tt, k2) /\ int_nest_count (k_int k1) = 1) s.
Proof.
  intros Hk Hn Hv Hpk bad h. apply wp_bind. eapply wp_def_inh_sys; [exact Hk|exact Hv|exact Hpk|..]; fold bad.
  - intros Hbad. rewrite Hbad. by apply wp_ret.
  - intros k Hbad Hk' _ Em En. rewrite Hbad. fold h. set (t := <[Z.to_nat (inhno - 7) := h]> (interrupt_table s)).
    apply orb_false_iff in Hbad as [Eb _]. unfold bad_inhno in Eb. apply orb_false_iff in Eb as [E1 E2].
    apply wp_bind, wp_gets, wp_bind. cbn [interrupt_table set_i_k set_interrupt_table]. destruct Hv as [Hv1 Hv2].
    rewrite Hn in En. eapply wp_mono; [apply (wp_common_interrupt_body call (inhno - 7) _ h)|].
    + exists R, W, T. apply kinv_int; [done|]. cbn. by rewrite En.
    + split; [|exact Hv2]. cbn. unfold t. by rewrite length_insert.
    + cbn. lia.
    + lia.
    + cbn. apply list_lookup_insert_eq. lia.
    + intros [] s' (H1 & H2 & _ & k1 & k2 & Hc & Hn1 & _). apply wp_ret. cbn in H2, Hn1. rewrite En in H2, Hn1.
      split_and!; [done|done|done|done|]. by exists k1, k2.
Qed.

(** A handler that writes the log. *)
Definition log_isr (h : Z) : KM unit := write_log 1 h 0.

#[local] Instance log_isr_ok : IsrOk log_isr.
Proof. intros h k Hk. unfold log_isr. apply wp_write_log_nest; [done|]. intros l Hl. by split. Qed.

Definition ints0 : ints := mk_ints boot0 (replicate 7 0) (replicate 16 0) 0.

Lemma def_inh_installs_witness :
  wp (let* r := def_inh_sys 0 9 0x500000 in
      let* t := gets interrupt_table in common_interrupt_body log_isr 2 ;;; ret (r, Some t))
    (fun '(r, t) s' => r = Done E_OK /\ t = Some (<[2%nat := peek (k_mem boot0) 0x500004]> (replicate 7 0)) /\
        kernel_ok (set_nest 0 (i_k s')) /\ int_nest_count (k_int (i_k s')) = 0 /\
        exists k1 k2, log_isr (peek (k_mem boot0) 0x500004) k1 = Some (tt, k2) /\ int_nest_count (k_int k1) = 1) ints0.
Proof.
  assert (int_nest_count (k_int (i_k ints0)) = 0) as Hn by (vm_compute; reflexivity).
  exact (def_inh_installs log_isr 0 9 0x500000 ints0 boot_ready no_wait [] boot0_kinv Hn (conj eq_refl eq_refl) (fun _ => eq_refl)).
Defined.

(** The macro that is to clear the bit of a vector in the mask sets all the other
    bits: releasing one handler lets every interrupt of the controller in. *)
Example release_unmasks_all :
  match def_inh_sys 0 9 0 ints0 with
  | Some (Done e, s') => e = E_OK /\ imask (k_int (i_k ints0)) <> u32 (Z.lnot (MK_BMSK_ 9)) /\
      Z.land (imask (k_int (i_k s'))) (u32 (Z.lnot (MK_BMSK_ 9))) = u32 (Z.lnot (MK_BMSK_ 9))
  | _ => False
  end.
Proof. vm_compute. done. Qed.

End Interrupts.

Module CanBus.

(** C24. The ring of messages to send refines a queue of at most 64 messages:
    after its initialization, every sequence of queueing, sending and counting
    gives the results that the queue gives, and the controller gets the messages
    in the order in which they were queued, none lost or twice; -1 is returned
    exactly when the ring is full or, for sending, empty, and -2 while the
    controller is busy. *)
Theorem ring_refines_queue s l : length (OutputCANBuffer s) = 64%nat -> Forall op_ok l ->
  wp (OutputCANBufferInit ;;; can_run l)
    (fun rs s' => exists fs, (rs, queued s', fs) = a_run l [] /\ sent s' = sent s ++ fs) s.
Proof.
  intros Hs Hl. apply wp_bind. eapply wp_mono; [by apply wp_ring_init|]. intros [] s1 (H1 & Eq & Es).
  eapply wp_mono; [by apply wp_can_run|]. intros rs s' (_ & fs & E & Es'). exists fs. by rewrite Eq in E; rewrite Es', Es.
Qed.

Definition off_ring : can := mk_can (replicate 64 zero_msg) 7 9 3 [].
Definition hello : CanMessage := mk_msg 0x0A001200 2 [104; 105; 0; 0; 0; 0; 0; 0].

Lemma ring_refines_queue_witness :
  wp (OutputCANBufferInit ;;; can_run [OpCount; OpSend false; OpQueue hello; OpSend true; OpSend false; OpCount])
    (fun rs s' => exists fs, (rs, queued s', fs) = ([0; -1; 0; -2; 0; 0], [], [frame_of hello]) /\ sent s' = [] ++ fs) off_ring.
Proof.
  apply (ring_refines_queue off_ring [OpCount; OpSend false; OpQueue hello; OpSend true; OpSend false; OpCount]); [done|].
  repeat constructor.
Defined.


(** Services that answer every message with its own data; those of the control
    loop pass the message on with another identifier. *)
Definition echo : service := fun d len => ret (nz len, d, len).
Definition pass (id' : Z) : control := fun id d len => QueueFieldsCanMessageOutputCANBuffer (id + id') len d ;;; ret tt.
Definition echoes : services := mk_services echo echo echo echo (pass 1) (pass 2) echo echo.

Definition regs (id dlc : Z) : c1regs :=
  let '(a, b, c) := id_fields id in mk_c1 false true true true a b c dlc [1; 2; 3; 4; 5; 6; 7; 8] true.

Definition ring0 : can := mk_can (replicate 64 zero_msg) 0 0 0 [].


(** A message whose length field is more than eight, which the bus allows, is
    copied past the end of the local array. *)
Example long_message_overflows : C1Interrupt 0x12 0x34 0xFF echoes (replicate 8 0) (regs 0x0C123400 9) ring0 = None.
Proof. vm_compute. reflexivity. Qed.

(** Queueing in two steps: the message is stored, then the pointers move. *)
Definition queue_store (m : CanMessage) : CM unit :=
  let* e := gets CANBufferEntryPointer in put_slot e m.

Definition queue_advance : CM Z :=
  modify (fun s => set_entry (u8 (CANBufferEntryPointer s + 1)) s) ;;;
  modify (fun s => set_length (u8 (CANBufferlength s + 1)) s) ;;;
  let* e := gets CANBufferEntryPointer in
  when (e >=? CAN_BUFFER_SIZE) (modify (set_entry 0)) ;;;
  ret 0.

Lemma queue_two_steps m s : CANBufferlength s < 64 -> length (Data m) = 8%nat ->
  QueueCanMessageOutputCANBuffer m s = (queue_store m ;;; queue_advance) s.
Proof.
  intros Hl Hd. unfold QueueCanMessageOutputCANBuffer, queue_store, queue_advance, bind, gets, eight. unfold CAN_BUFFER_SIZE at 1.
  destruct (Z.geb_spec (CANBufferlength s) 64); [lia|]. rewrite Hd. cbn [Nat.ltb Nat.leb]. unfold ret at 1. rewrite take_ge by lia.
  destruct m as [i n d]. cbn [Id DataLength Data]. by destruct (put_slot (CANBufferEntryPointer s) (mk_msg i n d) s) as [[[] s1]|].
Qed.

(** The interrupt may come between the two: the message of the main program is
    overwritten by the answer, and an old message is queued in its place. *)
Definition other : CanMessage := mk_msg 0x10123400 1 [1; 0; 0; 0; 0; 0; 0; 0].

Example interrupted_queueing_loses :
  match (queue_store hello ;;; QueueCanMessageOutputCANBuffer other ;;; queue_advance) ring0 with
  | Some (0, s') => queued s' = [other; zero_msg]
  | _ => False
  end.
Proof. vm_compute. reflexivity. Qed.

End CanBus.

Module Images.

(** C26. [load_elf_image] on an image whose headers and sections lie in the file,
    with sections that go to memory apart from the image and from each other:
    it returns the entry address; every section that the program occupies in
    memory is at its address, copied from the file, or zero when it has no bits
    in it; the image and all other memory are as they were. *)
Theorem load_elf_image_loads m addr F : elf_ok F -> 0 <= addr -> addr + Z.of_nat (length F) <= 2 ^ 32 ->
  arr m addr F -> loads_ok m addr F (sections F) ->
  wp (load_elf_image addr) (fun r m' => r = entry F /\ arr m' addr F /\
    Forall (fun s => arr m' (s_addr s) (contents F s)) (sections F) /\ only_in (sections F) m m') m.
Proof. intros. by apply wp_load_elf_image. Qed.

(** An image of two sections: four bytes for 0x1000 and eight zeros for 0x2000. *)
Definition image0 : list Z :=
  [0x7f; 69; 76; 70; 1; 1; 1; 0; 0; 0; 0; 0; 0; 0; 0; 0; 2; 0; 106; 0] ++ word_bytes 1 ++ word_bytes 0x1000 ++ word_bytes 0 ++
  word_bytes 52 ++ word_bytes 0 ++ [52; 0; 0; 0; 0; 0; 40; 0; 3; 0; 0; 0] ++
  replicate 40 0 ++
  flat_map word_bytes [0; 1; 6; 0x1000; 172; 4; 0; 0; 4; 0] ++
  flat_map word_bytes [0; 8; 3; 0x2000; 176; 8; 0; 0; 4; 0] ++
  [11; 12; 13; 14].

Definition flash0 : bmem := bytes_at 0x8000 image0 ∪ (bytes_at 0x1000 (replicate 4 255) ∪ bytes_at 0x2000 (replicate 8 255)).

Definition text0 : section := mk_section 1 6 0x1000 172 4.
Definition bss0 : section := mk_section 8 3 0x2000 176 8.

Lemma image0_sections : sections image0 = [text0; bss0].
Proof. vm_compute. reflexivity. Qed.

Lemma image0_ok : elf_ok image0.
Proof.
  split; [|by vm_compute|by vm_compute|by vm_compute|].
  - apply List.Forall_forall. intros b Hb. assert (forallb (fun b => (0 <=? b) && (b <? 256)) image0 = true) as H by (vm_compute; reflexivity).
    rewrite List.forallb_forall in H. specialize (H b Hb). unfold byte. lia.
  - change (shnum image0) with 3. intros i Hi Hl Ht. assert (i = 0 \/ i = 1 \/ i = 2) as [->|[->| ->]] by lia.
    + by vm_compute in Hl.
    + by vm_compute.
    + by vm_compute in Ht.
Qed.

Lemma flash0_image : arr flash0 0x8000 image0.
Proof. intros i b E. unfold flash0. apply lookup_union_Some_l. by apply bytes_at_arr. Qed.

Lemma flash0_mapped a n : (a = 0x1000 /\ n = 4) \/ (a = 0x2000 /\ n = 8) -> mapped flash0 a n.
Proof.
  intros H x Hx. unfold flash0. apply lookup_union_is_Some. right. apply lookup_union_is_Some. rewrite !bytes_at_domain, !length_replicate. lia.
Qed.

Lemma image0_loads : loads_ok flash0 0x8000 image0 (sections image0).
Proof.
  rewrite image0_sections. assert (Z.of_nat (length image0) = 176) as El by (vm_compute; reflexivity). split.
  - constructor; [|constructor; [|constructor]]; (split; [apply flash0_mapped; cbn; lia|]); unfold apart; rewrite El; cbn; lia.
  - constructor; [constructor; [unfold apart_sections, apart; cbn; lia|constructor]|]. constructor; constructor.
Qed.

Lemma load_elf_image_loads_witness :
  wp (load_elf_image 0x8000) (fun r m' => r = 0x1000 /\ arr m' 0x8000 image0 /\
    Forall (fun s => arr m' (s_addr s) (contents image0 s)) [text0; bss0] /\ only_in [text0; bss0] flash0 m') flash0.
Proof.
  assert (0x8000 + Z.of_nat (length image0) <= 2 ^ 32) as Ht by (by vm_compute).
  pose proof (load_elf_image_loads flash0 0x8000 image0 image0_ok ltac:(lia) Ht flash0_image image0_loads) as H.
  rewrite image0_sections in H. change (entry image0) with 0x1000 in H. exact H.
Defined.

(** [copy_elf_sections] writes the contents of the sections that the program
    occupies in memory, one after the other in the order of their headers, and
    returns their total length; the image and all other memory are as they were. *)
Theorem copy_elf_sections_flat m addr F out : elf_ok F -> 0 <= addr -> addr + Z.of_nat (length F) <= 2 ^ 64 ->
  let l := flat F (sections F) in
  arr m addr F -> mapped m out (Z.of_nat (length l)) -> apart out (Z.of_nat (length l)) addr (Z.of_nat (length F)) ->
  Z.of_nat (length l) < 2 ^ 31 ->
  wp (copy_elf_sections out addr) (fun r m' => r = Z.of_nat (length l) /\ arr m' addr F /\ arr m' out l /\
    only m m' out (Z.of_nat (length l))) m.
Proof.
  intros Hok Hw Ht l HF Hm Ha Hl. eapply wp_mono; [by apply wp_copy_elf_sections|]. intros r m' (H1 & H2 & H3 & H4). done.
Qed.

Lemma copy_elf_sections_flat_witness :
  let m := bytes_at 0x8000 image0 ∪ bytes_at 0x1000 (replicate 12 255) in
  wp (copy_elf_sections 0x1000 0x8000) (fun r m' => r = 12 /\ arr m' 0x8000 image0 /\
    arr m' 0x1000 [11; 12; 13; 14; 0; 0; 0; 0; 0; 0; 0; 0] /\ only m m' 0x1000 12) m.
Proof.
  intros m. assert (flat image0 (sections image0) = [11; 12; 13; 14; 0; 0; 0; 0; 0; 0; 0; 0]) as Ef by (vm_compute; reflexivity).
  assert (0x8000 + Z.of_nat (length image0) <= 2 ^ 64) as Ht by (by vm_compute).
  assert (arr m 0x8000 image0) as HF by (intros i b E; apply lookup_union_Some_l; by apply bytes_at_arr).
  assert (mapped m 0x1000 12) as Hm.
  { intros x Hx. apply lookup_union_is_Some. right. rewrite bytes_at_domain, length_replicate. lia. }
  assert (apart 0x1000 12 0x8000 (Z.of_nat (length image0))) as Ha by (left; lia).
  pose proof (copy_elf_sections_flat m 0x8000 image0 0x1000 image0_ok ltac:(lia) Ht) as H. cbv zeta in H. rewrite Ef in H.
  exact (H HF Hm Ha ltac:(done)).
Defined.

End Images.

Module FlashMemory.

(** C27. [flash_write_buffer] on any chip that behaves as documented where it is on
    the bus and is ready within the limit of the driver, in array mode, for a buffer
    whose words the driver puts at addresses of the chip: word [i] goes to
    [dst + 2 * offset + 2 * i] plus twice [FLASH_START_ADDRESS], in 32 bits. The
    function returns with the chip in array mode. It returns zero exactly when every
    word can be programmed over what is there (only bits that are set can be
    changed); then the words of the buffer, two bytes each, are in the flash one
    after the other and all other words are as they were. Otherwise it stops and
    returns 0xFFFE, the error code -2 in an unsigned short. *)
Theorem flash_write_buffer_programs {D} `{!FlashChip D} `{!FlashChipOk (D := D)} dst src size offset (d : D) :
  array_mode d -> Forall (fun w => 0 <= w < 2 ^ 16) src ->
  0 <= size < 2 ^ 31 -> Z.shiftr size 1 <= Z.of_nat (length src) ->
  let words := take (Z.to_nat (Z.shiftr size 1)) src in
  in_window (D := D) (dst + 2 * offset) (length words) ->
  exists r d', flash_write_buffer dst src size offset d = Some (r, d') /\ array_mode d' /\
    (r = 0 <-> programmable d (dst + 2 * offset) words) /\ (r = 0 \/ r = 0xFFFE) /\
    (r = 0 -> programmed d d' (dst + 2 * offset) words).
Proof.
  intros H1 H2 H3 H4 words H5. destruct (flash_write_buffer_spec dst src size offset d) as (r & d' & E & Hd & Hc); [done..|].
  exists r, d'. destruct Hc as [(-> & Hp & Hw)|(-> & Hp)]; split_and!; auto; (split; [done|]); done.
Qed.

Definition erased : chip := mk_chip Array ∅.

(** The chip of the board, at 0x20000000: the address that reaches it is
    0xE0000000, and not the offset of the word in the chip. *)
Lemma flash_write_buffer_programs_witness :
  exists d', flash_write_buffer 0xE0000100 [0x1234; 0xABCD; 7] 5 0 erased = Some (0, d') /\
    chip_word d' 0x20000100 = 0x1234 /\ chip_word d' 0x20000102 = 0xABCD /\ chip_word d' 0x20000104 = 0xFFFF.
Proof.
  assert (Forall (fun w => 0 <= w < 2 ^ 16) [0x1234; 0xABCD; 7]) as Hs by (repeat constructor; lia).
  assert (array_mode erased) as Ha by reflexivity.
  destruct (flash_write_buffer_programs 0xE0000100 [0x1234; 0xABCD; 7] 5 0 erased Ha Hs ltac:(lia) ltac:(by vm_compute))
    as (r & d' & E & _ & [_ H0] & _ & Hp).
  { change (length _) with 2%nat. intros [|[|]] Hi; [split; by vm_compute..|lia]. }
  assert (r = 0) as ->.
  { apply H0. clear E Hp H0. intros i w Hw. change (take _ _) with [0x1234; 0xABCD] in Hw. destruct i as [|[|]]; simplify_eq/=; by vm_compute. }
  exists d'. destruct (Hp eq_refl) as [Hw Ho]. split_and!; [exact E|exact (Hw 0%nat _ eq_refl)|exact (Hw 1%nat _ eq_refl)|].
  etrans; [apply (Ho 0x20000104)|by vm_compute]; [split; by vm_compute|].
  change (take _ _) with [0x1234; 0xABCD]. clear. intros [|[|]] Hi; cbn in Hi; by (lia || vm_compute).
Defined.

(** With the offset of the word in the chip for its address, the driver misses the
    chip of the board. *)
Example offset_misses_chip : word_at 0x100 0 = 0x40000100 /\ ~ on_board (word_at 0x100 0).
Proof. split; [by vm_compute|]. unfold on_board. vm_compute. intros [_ H]. discriminate H. Qed.

(** The error code is positive: a caller that tests for a negative value, as the
    protocol of the uploader does, takes a failure for success. *)
Example failure_is_positive : exists d',
  flash_write_word 0xE0000000 5 (mk_chip Array {[0x20000000 := 0]}) = Some (65534, d') /\ 65534 <> E_FLBAD.
Proof.
  assert (array_mode (mk_chip Array {[0x20000000 := 0]})) as Ha by reflexivity.
  destruct (flash_write_word_spec 0xE0000000 5 (mk_chip Array {[0x20000000 := 0]}) Ha ltac:(lia)) as (d' & E & _).
  { split; by vm_compute. }
  exists d'. by split.
Qed.

End FlashMemory.
